(* ===== verification/_CoqProject ===== *)
-Q . S2P
Prelude.v
Utf8.v
GoErrors.v
Lifecycle.v
PhaseMachines.v
GoFormat.v
Sha256.v
Names.v
TransferPath.v
Prog.v
KubeTypes.v
Api.v
ResourceState.v
Ownership.v
PVBinding.v
NodeSelection.v
Quota.v
PVCPolicy.v
QuotaCapacity.v
WorkflowStore.v
WorkflowOwners.v
Reclaim.v
Reserver.v
CopyEngine.v
Exec.v
MigrationObject.v
Offline.v
Activation.v
MigrationStorage.v
CopyRunner.v
SourceLoss.v
Executor.v
SwitcherRules.v
SwitcherSafety.v
ReserverSafety.v
ReclaimSafety.v
StoreRefinement.v
OwnerSafety.v
MigrationCleanup.v
OrphanCleanup.v
Planning.v
CleanupExecutor.v
MigrationSync.v
StagedObjects.v
Staged.v
ReservationExecutor.v
CopyExecutor.v
Identity.v
RenameMove.v
SwitcherTermination.v
RebindSafety.v
ObjectValidity.v
StagedInstances.v
StagedLaws.v
ReservedCopy.v
ExecRules.v
ExecutorRules.v
ExecutorSafety.v
CleanupSafety.v
StagedCleanup.v
OrphanSafety.v
SessionLease.v
LeaseProtocol.v
WorkflowLock.v
OfflineSafety.v
CopySafety.v
SyncSafety.v
StagedRun.v
WarmCopySafety.v
LockSafety.v
IdentitySafety.v
MemServer.v
MemCluster.v
MemReserve.v
MemExecutor.v
MemSync.v
MemStaged.v
MemIdentity.v
MemOrphan.v
MemStore.v
