(* ===== verification/Prelude.v ===== *)
(** * A verification of pvc-migrate

    pvc-migrate moves the data of Kubernetes PersistentVolumeClaims to other
    volumes.  A workflow reserves a destination claim, copies the data, verifies
    that nobody uses the volumes any more and then _cuts over_: it deletes the
    temporary destination claim and the source claim and recreates a claim of the
    source's name bound to the destination volume.  The same code path, run the
    other way, rolls back; a shorter one renames a claim.  A mistake in this part
    loses user data, so the development starts there.

    ** The parts of the program and where they are modelled

    - Errors, [src/internal/domain/errors.go]: GoErrors.  Go error chains as an
      inductive type (text, domain error, API status, context error, sentinel,
      wrap, join) with [NewError], [WrapError], [CategoryOf], [ExitCode].
    - Workflow status, [domain/workflow_registry.go], [workflow_lifecycle.go],
      [identity_lifecycle.go], [api/v1alpha1/workflow_types.go]: Lifecycle.  The
      persisted record [WorkflowStatus] with its transitions, reactivation,
      conditions and byte limits; Utf8 holds the standard library's UTF-8 rules
      that the limits depend on.
    - Phase machines of the executors, [src/internal/app/*_validation.go],
      [workflow_support.go], [source_loss_failure.go]: PhaseMachines.  The
      transition tables, the step an executor takes ([transition],
      [request_resume]) as a relation, and reachability over it.
    - Programs that talk to the API server: Prog (a free monad of requests, its
      execution [run] against an arbitrary server, and the weakest precondition
      [wp] with its adequacy theorem), KubeTypes (objects, metadata keys and
      references, [kube/metadata.go], [references.go], [reserver.go]) and Api (the
      requests the switcher issues, the lease fence, [WaitFor] of [client.go]).
    - Predicates on objects, [kube/resource_state.go], [pvc_finalizers.go],
      [access_modes.go]: ResourceState.
    - Claim ownership, [kube/ownership.go]: Ownership.
    - The switcher, [kube/switcher*.go]: PVBinding ([deletePVC], [reservePV],
      [ensureRetain], [markPVPair], [verifyBinding], identity checks), Offline
      (offline and recovery verification), Activation ([ActivatePVC],
      [RollbackPVC], [RenamePVC] and their steps and checkpoints).
    - Its theorems: SwitcherRules (one [wp] rule per operation), SwitcherSafety
      (cutover), RebindSafety (rollback, rename), OfflineSafety, and
      SwitcherTermination.
    - Session locks, [kube/session_lease.go], [lease_fence.go], [names.go]: Sha256
      and Names (lock and object names), SessionLease (acquire, renew, release,
      delete, timing) and LeaseProtocol (any number of processes interleaved).
    - Transfer paths, [domain/transfer.go]: TransferPath.
    - Reservation of destinations, [kube/reserver.go], [tool_image.go]: Reserver
      ([ReserveVolume], live and dry run, with the recovery of earlier attempts)
      over NodeSelection (node affinity, field selectors, tolerations) and GoFormat
      (timestamps and numbers as text); its theorems are in ReserverSafety.
    - Quota and admission, [kube/quota.go], [pvc_policy.go], the quota part of
      [tool_admission.go]: Quota (resource names, scopes, demand and projection of
      a workflow), PVCPolicy (replacement of claims) and QuotaCapacity (exactness
      of the projection).
    - Reclaim, [app/volume_reclaim.go], [source_release.go], [volume_consumers.go],
      [reservation_consumers.go], [lifecycle.go]: Reclaim, with ReclaimSafety; what
      a migration cleanup deletes, [app/migration_reclaim_volume.go],
      [reserved_destination_cleanup.go], [reservation_recovery.go]:
      MigrationCleanup.
    - Persistence of workflow objects, [kube/workflow_store.go],
      [workflow_conflict_retry.go]: WorkflowStore (both stores behind the record
      [StoreOps], the retry of a stale pass); StoreRefinement states the register
      they implement as a class ([RegisterStore]) and proves both instances.
    - The migration executor, [app/migration_executor*.go], [migration_activation.go],
      [migration_rollback.go], [migration_storage_identity.go], [workflow_failure.go]:
      MigrationObject (the ClusterMigration and what is accepted of a loaded one),
      MigrationStorage (identity checks and manifests), SourceLoss
      ([workflow_deletion.go], [source_loss_failure.go]), Executor (validation, cutover
      and rollback of all volumes), CleanupExecutor
      ([migration_executor_cleanup.go]) and MigrationSync (reservation, final sync,
      abort, resume, deletion and the whole run).  ObjectValidity holds what
      validation implies, ExecutorRules carries a proof about the switcher over to the
      executor that runs it, ExecutorSafety, SyncSafety and CleanupSafety the theorems.
    - What all executors share: Exec (programs that also save objects and call
      services, the transition and failure recording of [workflow_support.go], generic
      in a class [WorkflowObject]) and ExecRules (its proof rules).
    - Copying, [internal/copyengine/], [app/volume_copy*.go], [app/copy.go],
      [kube/volume_shrink.go], [tool_scheduling.go], [tool_network_policy.go]:
      CopyEngine (requests, release cleanup, classification of errors) and CopyRunner
      (the retry loop, its tool Pods, the usage check), with CopySafety.
    - Renames and moves, [app/rename_executor.go], [move_executor.go],
      [move_validation.go]: Identity (the executor over the class [IdentityWorkflow])
      and RenameMove (the two objects, their validation and the instances, with the
      laws the theorems use), with IdentitySafety.
    - Copies and reservations, [app/copy_executor*.go], [copy_resources.go],
      [reservation_executor*.go] and their namespaced variants ([namespaced_copy*.go],
      [namespaced_reservation*.go]): StagedObjects (the four objects and what is accepted
      of a loaded one), Staged (transitions, reservation, resume, cleanup and deletion,
      once over the class [StagedWorkflow]), ReservationExecutor and CopyExecutor (run,
      validation, abort and transfer, over [StagedWorkflow] and [CopyWorkflow]),
      StagedInstances (the four object types), StagedLaws (the laws the theorems use);
      WorkflowLock names the four executors as the code does.  StagedRun,
      WarmCopySafety and StagedCleanup hold the theorems.
    - The handoff of a reservation to a copy, [app/reservation_copy.go],
      [namespaced_reservation_copy.go]: ReservedCopy (the conversion) and WorkflowLock
      (the operations).
    - The lock around an operation, [kube/workflow_lease.go], [workflow_handoff.go],
      [app/workflow_lock.go]: WorkflowLock, with LockSafety, which also puts the
      copies and reservations under it.
    - Owners of a workflow name, [domain/workflow_registry.go] (the tables of kinds),
      [kube/workflow_registry.go], [crd_workflow_owner.go],
      [configmap_workflow_owner.go], [workflow_collision.go], [workflow_locker.go]:
      WorkflowOwners, with OwnerSafety.
    - Recovery of a session whose record is lost, [app/orphan_cleanup.go],
      [domain/plan.go]: OrphanCleanup (the plan with its checks, and the cleanup under
      the lock), with OrphanSafety.
    - The planner's choice of a target node, [planner/capacity.go], [scheduling.go] and
      part of [planner_target_node.go]: Planning.
    - MemServer is a concrete API server for claims, volumes and Pods on which the
      programs run, MemStore one for workflow objects.  MemCluster, MemReserve,
      MemExecutor, MemSync, MemStaged, MemIdentity and MemOrphan evaluate a
      cutover, a rollback, a rename, an acquire/release, a reservation, a quota check, a
      cleanup, a choice of a node, whole executor runs, copies and reservations, a locked run and a handoff,
      renames and moves and recoveries end to end; they show that the hypotheses of the
      theorems can hold.

    ** How they interact

    An executor holds a session lock while it works; every write of the switcher
    first asks the context and the lock whether the work may continue ([fence]).
    The switcher reads and writes claims and volumes, marks them with the session
    ID, and after each irreversible step hands a checkpoint ([ActivationStatus])
    to the executor to persist ([Progress]).  The executor records phases in the
    workflow status, which a store persists by compare-and-swap.  The reserver
    prepares what the switcher cuts over to, and shares its retention and its
    predicates on Pods; reclaim disposes of the copy that is left, on the identities
    the reserver recorded and the marks both left on volumes.  In the model a
    component's code is a [prog] over requests, so composition is bind and the order of
    requests is exactly that of the code; the checkpoint callback is [with_progress].

    ** What the theorems show

    - Cutover (SwitcherSafety): whatever the server and other clients do, no claim
      is deleted before both volumes are pinned to Retain, detached and unused;
      the new claim is created only when both old ones are gone; volume writes
      stay within the session and keep the recorded original policy; checkpoints
      never run ahead of the cluster; success means a verified binding.
    - Rollback and rename (RebindSafety): the source volume and claim survive, and
      what is reported is what was verified.
    - Executor (ExecutorSafety): cutover and rollback of a whole migration write only
      in the persisted phase, for planned volumes in the right state, under the
      switcher's guards; a final phase is saved only when every volume is done; no
      nil dereference is reachable.  A third theorem shows that an object rolled back
      across namespaces is refused by its own executor.
    - Copying (CopySafety, SyncSafety): an attempt starts only when the one before is
      cleaned up, it was counted and saved and, in the final sync, its volumes were
      verified offline; a volume is recorded as copied only after a successful copy.
      A copy bounded by --copy-timeout reports every failure as a timeout.
    - Renames and moves (IdentitySafety): only the planned volume is rebound, forward
      or back, in the persisted phase; a recorded end was verified; the cleanup gives
      back only the workflow's own marks and deletes the session last.
    - Copies and reservations (WarmCopySafety, StagedRun, StagedCleanup): for any object
      type that satisfies the laws, and all four do, a copy is made only of a verified,
      planned and reserved volume after its attempt was counted; a saved object claims no
      reservation and no copy that did not happen; only an aborted workflow loses its
      destination, under the policy Delete.  MemStaged shows that a completed copy can
      be aborted and then loses it.
    - Handoff (ReservedCopy): every accepted reservation becomes an accepted copy of the
      same storage.
    - The lock (LockSafety): an operation runs only after the Lease was
      acquired and the stored object was read unchanged, and what it guarantees holds
      inside; the Lease is released once and last.
    - Executor cleanup (CleanupSafety): writes only in a finished phase, deletes only
      what the preparation found unused, saves before it writes.
    - Names (OwnerSafety): a name is accepted exactly when every place that could hold
      another workflow of that name was read and is empty; the lock of a custom resource
      excludes a session record.
    - Recovery (OrphanSafety): the planner only reads, and a plan without failed checks
      has verified both directions of the binding and the pair it acts on; the cleanup
      writes under the Lease, deletes only an unused volume or copy that the plan
      identified, and otherwise takes the session's marks away.  Two evaluated runs
      (MemOrphan) show recoveries that get stuck.
    - Offline verification (OfflineSafety): read-only and sound for every volume.
    - Termination (SwitcherTermination).
    - Reservation (ReserverSafety): every write is one of five and follows the
      verification of the source; no claim or volume is deleted; what is recorded
      as reserved was read so.
    - Reclaim (ReclaimSafety, MigrationCleanup): a deletion is asked for, unused,
      identified, conditioned and fenced; the copy in use is never a candidate.
    - Stores (StoreRefinement): [Save] refines an atomic compare-and-swap of a
      versioned register for both backends; [Delete] converges under contention.
    - Quota (PVCPolicy, QuotaCapacity): the reports are empty exactly when the
      demand fits.
    - Planning: the published capacity is judged exactly, the best node is chosen in
      whatever order the nodes are listed, and it passes the capacity check of the plan.
    - Locks: mutual exclusion of confirmed holders, acquisition only of free
      Leases, no write to a successor's Lease, timing at machine width, and a
      description of when a holder that lost contact notices.
    - Ownership: writes are exact, fenced and never touch another session.
    - Lifecycle and phase machines: well-formedness is an invariant of every
      transition, failing and resuming is a round trip, cutover cannot be aborted
      and needs a completed final sync.
    - Names, paths, texts and exit codes: bounds, confinement, round trips; two
      theorems exhibit inputs on which the code misses its own contract.

    ** Modelling decisions

    - Strings are byte strings; time is a [Z] of nanoseconds; the int32 fields of
      a Lease are kept in range explicitly; quantities are [Z] in the API's smallest
      unit.
    - Waits poll at most [fuel] times in the model ([Switcher] carries the number).
      Running out of fuel is a separate leaf, so every safety theorem covers the
      trace of each finite prefix of an execution, and [switcher_returns] shows
      that the leaf is unreachable when the context ends before the fuel does: the
      fuel only has to exceed the number of ticks the context allows.  The string
      functions recurse on the length of their input, with lemmas that this is
      enough.  Acquisition loops twice, as the code does.
    - client-go's [retry.RetryOnConflict] is a parameter (class [ConflictRetry])
      of which only its documented contract is used: it calls the function at
      least once and returns the result of one of its calls, also where the function
      assigns a captured variable ([RetryOnConflictValue]); [default_retry] is an
      instance.  The text form of [resource.Quantity] is a parameter (class
      [QuantityText]) with its round-trip law; MemServer has an instance.  The image
      reference grammar of distribution/reference ([ImageGrammar]), the label selectors of
      the API machinery ([LabelSelectors]) and encoding/json ([WorkflowCodec], with its
      round trip) are parameters in the same way.
    - The API server is an arbitrary handler: nothing is assumed of its answers.
      LeaseProtocol and StoreRefinement alone assume what the protocols rest on: the
      server rejects writes with a stale version ([api_laws]), and the clocks agree.
    - Reads that the code issues in a bounded pool of goroutines are sequenced, in
      the order in which their results are consumed.
    - Maps are stdpp's [gmap], where a nil map is the empty one.

    ** Not modelled

    Backup and restore runners, object store client, cross-cluster networking,
    controllers, command line and output are I/O, rendering, or drivers of external
    programs; of backup and restore the phase machine is modelled.  The copier
    (pv-migrate) and Helm are parameters behind requests; probing of tool images and
    mounts and the reading of volume usage are parameters of the executors, as in the
    code; log streaming is left out.  The Lease that a deferred function also releases
    when an operation panics is not modelled: such a run ends in the operation.  The
    executors are modelled as the bodies that run under the lock; for copies and
    reservations the exported methods too.  Not modelled either are the namespaced
    variant of the migration executor, which repeats the cluster-scoped one with local
    references, the executors of Pod migrations, which stop and restart workloads of
    third-party controllers, and the rest of the planner: its inventory, the topology spread of
    recreated Pods and checks that only report. *)

From stdpp Require Export base tactics list strings gmap fin_maps.
From Stdlib Require Export ZArith Lia.
From Stdlib Require Import Ascii.

#[export] Set Warnings "-clear-no-such-hyp,-register-all,-notation-for-abbreviation".

(** ** Scopes and notations

    [go_scope] holds the notations that make the translated code read like Go:
    boolean comparisons on strings and the short-circuiting connectives. *)
Declare Scope go_scope.
Delimit Scope go_scope with go.

Notation "x =s y" := (String.eqb x y) (at level 70, no associativity) : go_scope.
Notation "x <>s y" := (negb (String.eqb x y)) (at level 70, no associativity) : go_scope.
#[global] Open Scope go_scope.

(** ** Tactics of the development *)

(** Case analysis on the innermost boolean test or match of the goal. *)
Ltac case_test :=
  match goal with
  | |- context [if ?b then _ else _] => destruct b eqn:?
  | H : context [if ?b then _ else _] |- _ => destruct b eqn:?
  end.

(** Turn boolean equalities on strings and connectives into propositions. *)
Ltac bool_prop :=
  repeat match goal with
  | H : (_ && _)%bool = true |- _ => apply andb_true_iff in H as [? ?]
  | H : (_ || _)%bool = false |- _ => apply orb_false_iff in H as [? ?]
  | H : negb _ = true |- _ => apply negb_true_iff in H
  | H : negb _ = false |- _ => apply negb_false_iff in H
  | H : String.eqb _ _ = true |- _ => apply String.eqb_eq in H
  | H : String.eqb _ _ = false |- _ => apply String.eqb_neq in H
  | H : Z.leb _ _ = true |- _ => apply Z.leb_le in H
  | H : Z.leb _ _ = false |- _ => apply Z.leb_gt in H
  | H : Z.ltb _ _ = true |- _ => apply Z.ltb_lt in H
  | H : Z.ltb _ _ = false |- _ => apply Z.ltb_ge in H
  | H : Nat.leb _ _ = true |- _ => apply Nat.leb_le in H
  | H : Nat.leb _ _ = false |- _ => apply Nat.leb_gt in H
  end.

(** ** Hint databases

    [go] collects the structural lemmas of the components; [phase] the ones on
    the phase machines. *)
Create HintDb go discriminated.
Create HintDb phase discriminated.

(** ** Go slices *)

(** [l[len(l)-n:]]: the last [n] elements of a slice longer than [n]. *)
Definition last_n {A} (n : nat) (l : list A) : list A := drop (length l - n) l.

(** The recurring idiom "return the slice unless it is longer than the limit,
    in which case keep its last [n] elements". *)
Definition keep_last {A} (n : nat) (l : list A) : list A :=
  if Nat.leb (length l) n then l else last_n n l.

Section keep_last.
Context {A : Type}.
Implicit Types l : list A.

Lemma keep_last_length n l : length (keep_last n l) = min (length l) n.
Proof.
  unfold keep_last, last_n. destruct (Nat.leb_spec (length l) n); [lia|].
  rewrite length_drop. lia.
Qed.

Lemma keep_last_bound n l : length (keep_last n l) <= n.
Proof. rewrite keep_last_length. lia. Qed.

Lemma keep_last_short n l : length l <= n -> keep_last n l = l.
Proof. intros H. unfold keep_last. by apply Nat.leb_le in H as ->. Qed.

Lemma keep_last_suffix n l : exists k, l = k ++ keep_last n l.
Proof.
  unfold keep_last, last_n. case_test; [by exists []|].
  exists (take (length l - n) l). by rewrite take_drop.
Qed.

Lemma keep_last_elem n l x : x ∈ keep_last n l -> x ∈ l.
Proof.
  intros H. destruct (keep_last_suffix n l) as [k Hk]. rewrite Hk. apply elem_of_app. by right.
Qed.

Lemma keep_last_snoc n l x : keep_last (S n) (l ++ [x]) = keep_last n l ++ [x].
Proof.
  unfold keep_last, last_n. rewrite length_app; simpl.
  destruct (Nat.leb_spec (length l + 1) (S n)), (Nat.leb_spec (length l) n); try lia; [done|].
  rewrite drop_app_le by lia. do 2 f_equal. lia.
Qed.

Lemma keep_last_last n l x : last (keep_last (S n) (l ++ [x])) = Some x.
Proof. rewrite keep_last_snoc. apply last_snoc. Qed.
End keep_last.
#[export] Hint Resolve keep_last_bound : go.

(** Membership as the code writes it, [slices.Contains]. *)
Definition contains {A} `{EqDecision A} (l : list A) (x : A) : bool := bool_decide (x ∈ l).

Lemma contains_true {A} `{EqDecision A} (l : list A) x : contains l x = true <-> x ∈ l.
Proof. unfold contains. by rewrite bool_decide_eq_true. Qed.

Lemma contains_false {A} `{EqDecision A} (l : list A) x : contains l x = false <-> x ∉ l.
Proof. unfold contains. by rewrite bool_decide_eq_false. Qed.

(** ** Go maps with string keys

    A read of a missing key gives the zero value "" (also on a nil map). *)
Definition smap := gmap string string.
Definition mget (m : gmap string string) (k : string) : string := default "" (m !! k).

Lemma mget_insert m k v : mget (<[k:=v]> m) k = v.
Proof. unfold mget. by rewrite lookup_insert_eq. Qed.

Lemma mget_insert_ne m k k' v : k <> k' -> mget (<[k:=v]> m) k' = mget m k'.
Proof. intros. unfold mget. by rewrite lookup_insert_ne. Qed.

Lemma mget_delete m k : mget (delete k m) k = "".
Proof. unfold mget. by rewrite lookup_delete_eq. Qed.

Lemma mget_delete_ne m k k' : k <> k' -> mget (delete k m) k' = mget m k'.
Proof. intros. unfold mget. by rewrite lookup_delete_ne. Qed.

(** ** Messages: [fmt.Sprintf] with %s verbs, as concatenation of the parts. *)
Fixpoint sprint (parts : list string) : string :=
  match parts with [] => "" | p :: rest => p +:+ sprint rest end.

(** %q of a printable string without quotes or backslashes. *)
Definition quoted (s : string) : string :=
  let q := String (Ascii.ascii_of_nat 34) "" in q +:+ s +:+ q.

(** [strings.Join] *)
Fixpoint strings_join (sep : string) (parts : list string) : string :=
  match parts with
  | [] => ""
  | [p] => p
  | p :: rest => p +:+ sep +:+ strings_join sep rest
  end.

(** ** Strings as byte lists *)
Definition bytes (s : string) : list ascii := String.list_ascii_of_string s.
Definition of_bytes (l : list ascii) : string := String.string_of_list_ascii l.

Lemma bytes_of_bytes l : bytes (of_bytes l) = l.
Proof. apply String.list_ascii_of_string_of_list_ascii. Qed.

Lemma of_bytes_bytes s : of_bytes (bytes s) = s.
Proof. apply String.string_of_list_ascii_of_string. Qed.

Lemma length_bytes s : length (bytes s) = String.length s.
Proof. induction s as [|a s IH]; simpl; [done|]. unfold bytes in *; simpl; by rewrite IH. Qed.

Lemma length_of_bytes l : String.length (of_bytes l) = length l.
Proof. by rewrite <- length_bytes, bytes_of_bytes. Qed.

(** [strings.ToLower] and friends work on the byte value. *)
Definition byte_val (c : ascii) : N := N_of_ascii c.
Definition byte_in (lo hi : N) (c : ascii) : bool :=
  (N.leb lo (byte_val c) && N.leb (byte_val c) hi)%bool.
