(* ===== verification/Utf8.v ===== *)
(** * UTF-8 as Go's unicode/utf8 defines it

    The part of the Go standard library that bounds user-visible status text
    relies on: [utf8.ValidString] and rune iteration over a byte string.  The
    accept ranges are those of the UTF-8 specification (no overlong forms, no
    surrogates, at most U+10FFFF). *)

From S2P Require Import Prelude.
From Stdlib Require Import Ascii.

(** Length of the well-formed encoded rune at the head of the bytes, or [None]
    when the head is not the start of a well-formed encoding. *)
Definition cont (c : ascii) : bool := byte_in 128 191 c.

Definition rune_width (s : list ascii) : option nat :=
  match s with
  | [] => None
  | b0 :: r0 =>
      if byte_in 0 127 b0 then Some 1 else
      match r0 with
      | [] => None
      | b1 :: r1 =>
          if byte_in 194 223 b0 then (if cont b1 then Some 2 else None) else
          match r1 with
          | [] => None
          | b2 :: r2 =>
              if ((byte_in 224 224 b0 && byte_in 160 191 b1) ||
                  (byte_in 225 236 b0 && cont b1) ||
                  (byte_in 237 237 b0 && byte_in 128 159 b1) ||
                  (byte_in 238 239 b0 && cont b1))%bool
              then (if cont b2 then Some 3 else None) else
              match r2 with
              | [] => None
              | b3 :: _ =>
                  if (((byte_in 240 240 b0 && byte_in 144 191 b1) ||
                       (byte_in 241 243 b0 && cont b1) ||
                       (byte_in 244 244 b0 && byte_in 128 143 b1)) &&
                      cont b2 && cont b3)%bool
                  then Some 4 else None
              end
          end
      end
  end.

(** [utf8.ValidString], with the number of remaining bytes as the measure of
    the loop. *)
Fixpoint valid_fuel (n : nat) (s : list ascii) : bool :=
  match s with
  | [] => true
  | _ :: _ =>
      match n, rune_width s with
      | S n', Some w => valid_fuel n' (drop w s)
      | _, _ => false
      end
  end.

Definition ValidString (s : list ascii) : bool := valid_fuel (length s) s.

(** The code point of a well-formed encoding of [w] bytes. *)
Definition rune_value (w : nat) (s : list ascii) : N :=
  match w, byte_val <$> s with
  | 1, b0 :: _ => b0
  | 2, b0 :: b1 :: _ => ((b0 - 192) * 64 + (b1 - 128))%N
  | 3, b0 :: b1 :: b2 :: _ => ((b0 - 224) * 4096 + (b1 - 128) * 64 + (b2 - 128))%N
  | 4, b0 :: b1 :: b2 :: b3 :: _ =>
      ((b0 - 240) * 262144 + (b1 - 128) * 4096 + (b2 - 128) * 64 + (b3 - 128))%N
  | _, _ => 65533%N
  end.

(** [for _, r := range s]: an ill-formed byte yields U+FFFD and advances by
    one. *)
Definition decode_rune (s : list ascii) : N * nat :=
  match rune_width s with
  | Some w => (rune_value w s, w)
  | None => (65533%N, 1)
  end.

Fixpoint runes_fuel (n : nat) (s : list ascii) : list N :=
  match n, s with
  | S n', _ :: _ => let '(r, w) := decode_rune s in r :: runes_fuel n' (drop w s)
  | _, _ => []
  end.

Definition runes (s : list ascii) : list N := runes_fuel (length s) s.

(** The same iteration, each rune with the bytes it was decoded from. *)
Fixpoint chunks_fuel (n : nat) (s : list ascii) : list (N * list ascii) :=
  match n, s with
  | S n', _ :: _ => let '(r, w) := decode_rune s in (r, take w s) :: chunks_fuel n' (drop w s)
  | _, _ => []
  end.

Definition chunks (s : list ascii) : list (N * list ascii) := chunks_fuel (length s) s.

(** [unicode.IsSpace] *)
Definition IsSpace (r : N) : bool :=
  contains [9; 10; 11; 12; 13; 32; 133; 160; 5760; 8192; 8193; 8194; 8195; 8196; 8197; 8198; 8199;
            8200; 8201; 8202; 8232; 8233; 8239; 8287; 12288]%N r.

Fixpoint drop_while {A} (f : A -> bool) (l : list A) : list A :=
  match l with
  | [] => []
  | x :: rest => if f x then drop_while f rest else l
  end.

(** [strings.TrimSpace]: runes are trimmed at both ends; UTF-8 is
    self-synchronizing, so decoding the last rune backwards and taking the last
    one of the forward iteration agree on spaces. *)
Definition TrimSpace (s : string) : string :=
  let space := fun c : N * list ascii => IsSpace c.1 in
  of_bytes (concat (map snd (rev (drop_while space (rev (drop_while space (chunks (bytes s)))))))).

(** ** Facts *)

Lemma rune_width_bounds s w : rune_width s = Some w -> 1 <= w <= 4 /\ w <= length s.
Proof.
  destruct s as [|b0 [|b1 [|b2 [|b3 r]]]]; simpl; intros H;
    repeat case_match; simplify_eq; simpl; lia.
Qed.

(** The width only depends on the bytes it covers. *)
Lemma rune_width_take s w n :
  rune_width s = Some w -> w <= n -> rune_width (take n s) = Some w.
Proof.
  intros H Hn. destruct (rune_width_bounds _ _ H) as [Hw _].
  destruct s as [|b0 [|b1 [|b2 [|b3 r]]]], n as [|[|[|[|n]]]]; simpl in *; try lia;
    repeat case_match; simplify_eq; done || lia.
Qed.

(** Enough fuel gives the answer: more fuel than bytes changes nothing. *)
Lemma valid_fuel_enough n m s : length s <= n -> length s <= m -> valid_fuel n s = valid_fuel m s.
Proof.
  revert m s. induction n as [|n IH]; intros m [|b s] Hn Hm; cbn [length] in *; try lia.
  - by destruct m.
  - by destruct m.
  - destruct m as [|m]; [lia|]. cbn [valid_fuel].
    destruct (rune_width (b :: s)) as [w|] eqn:Hw; [|done].
    destruct (rune_width_bounds _ _ Hw) as [Hb _].
    apply IH; rewrite length_drop; simpl; lia.
Qed.

Lemma ValidString_nil : ValidString [] = true.
Proof. done. Qed.

Lemma ValidString_step s w :
  rune_width s = Some w -> ValidString s = ValidString (drop w s).
Proof.
  intros Hw. destruct (rune_width_bounds _ _ Hw) as [? Hl].
  unfold ValidString. destruct s as [|b s]; [done|].
  simpl length. cbn [valid_fuel]. rewrite Hw.
  apply valid_fuel_enough; rewrite ?length_drop; simpl in *; lia.
Qed.

Lemma ValidString_inv b s :
  ValidString (b :: s) = true ->
  exists w, rune_width (b :: s) = Some w /\ ValidString (drop w (b :: s)) = true.
Proof.
  intros H. destruct (rune_width (b :: s)) as [w|] eqn:Hw.
  - exists w. split; [done|]. by rewrite <- (ValidString_step _ _ Hw).
  - unfold ValidString in H. simpl length in H. cbn [valid_fuel] in H. by rewrite Hw in H.
Qed.

(** Cutting a valid string at any byte leaves, within three bytes to the left,
    a cut that is valid again. *)
Lemma ValidString_cut k s n :
  length s <= k -> ValidString s = true -> n <= length s ->
  exists j, j <= 3 /\ j <= n /\ ValidString (take (n - j) s) = true.
Proof.
  revert s n. induction k as [|k IH]; intros s n Hk Hv Hn.
  { destruct s; simpl in *; [|lia]. exists 0. rewrite take_nil. split; [lia|]. split; [lia|done]. }
  destruct s as [|b s]; [exists 0; rewrite take_nil; repeat split; [lia|lia]|].
  destruct (ValidString_inv _ _ Hv) as (w & Hw & Hv').
  destruct (rune_width_bounds _ _ Hw) as [Hb Hl].
  destruct (decide (w <= n)) as [Hwn|Hwn].
  - destruct (IH (drop w (b :: s)) (n - w)) as (j & Hj & Hjn & Hvj);
      [rewrite length_drop; simpl in *; lia|done|rewrite length_drop; lia|].
    exists j. split; [done|]. split; [lia|].
    rewrite (ValidString_step (take (n - j) (b :: s)) w)
      by (apply rune_width_take; [done|lia]).
    rewrite <- Hvj. f_equal.
    replace (n - w - j) with ((n - j) - w) by lia.
    by rewrite skipn_firstn_comm.
  - exists n. split; [lia|]. split; [lia|]. by rewrite Nat.sub_diag.
Qed.
