(* ===== verification/GoErrors.v ===== *)
(** * Errors: internal/domain/errors.go and the Go error chain

    [err] is the tree of values that satisfy Go's [error] interface in this
    program: the domain error with its category and wrapped cause, Kubernetes
    API status errors, [errors.Join], [fmt.Errorf] with and without %w, the
    context errors and the package's sentinel values.  A Go [error] result is
    [option err], with [None] for nil. *)

From S2P Require Import Prelude.

Inductive ErrorCategory :=
| ErrorValidation
| ErrorPrecondition
| ErrorConflict
| ErrorKubernetes
| ErrorCopy
| ErrorTimeout
| ErrorInternal.

#[global] Instance ErrorCategory_eq_dec : EqDecision ErrorCategory.
Proof. solve_decision. Defined.

(** The reason of a Kubernetes API status error, as far as the code asks. *)
Inductive StatusReason :=
| ReasonNotFound
| ReasonAlreadyExists
| ReasonConflict
| ReasonForbidden
| ReasonUnknown.

#[global] Instance StatusReason_eq_dec : EqDecision StatusReason.
Proof. solve_decision. Defined.

Inductive CtxError := Canceled | DeadlineExceeded.

#[global] Instance CtxError_eq_dec : EqDecision CtxError.
Proof. solve_decision. Defined.

Inductive Sentinel :=
| ErrSessionNamespaceTerminating
| ErrSessionLockContention
| ErrWorkflowStaleLoad
| ErrToolPodNoSpace                       (* tool_logs.go *).

#[global] Instance Sentinel_eq_dec : EqDecision Sentinel.
Proof. solve_decision. Defined.

(** [app.CleanupPodBlockerError] without its cause: a Pod that still uses a claim
    the cleanup wants to delete. *)
Record CleanupPodBlocker := {
  blocker_PVCNamespace : string;
  blocker_PVCName : string;
  blocker_PodNamespace : string;
  blocker_PodName : string;
  blocker_PodPhase : string;
  blocker_OwnerKind : string;
  blocker_OwnerName : string;
  blocker_OwnerVerified : bool;
  blocker_SessionOwned : bool;
  blocker_Terminal : bool
}.

Inductive err :=
| EDomain (Category : ErrorCategory) (Op Message : string) (Cause : option err)
| EStatus (reason : StatusReason) (message : string)
| EContext (c : CtxError)
| ESentinel (s : Sentinel) (message : string)
| EJoin (errs : list err)
| EText (message : string)                       (* errors.New / fmt.Errorf *)
| EWrap (message : string) (cause : err)         (* fmt.Errorf with %w *)
| EPodBlocker (blocker : CleanupPodBlocker) (Cause : err)
| ENoSpace (cause : err).                        (* copyengine.destinationNoSpaceError *)

Definition NewError (category : ErrorCategory) (op message : string) : err :=
  EDomain category op message None.

Definition WrapError (category : ErrorCategory) (op message : string) (cause : err) : err :=
  EDomain category op message (Some cause).

(** [errors.AsType[*Error]]: the first domain error met in pre-order of the
    unwrap tree. *)
Fixpoint as_domain (e : err) : option ErrorCategory :=
  match e with
  | EDomain c _ _ _ => Some c
  | EWrap _ c | EPodBlocker _ c | ENoSpace c => as_domain c
  | EJoin es =>
      (fix go (l : list err) : option ErrorCategory :=
         match l with
         | [] => None
         | x :: rest =>
             match as_domain x with
             | Some c => Some c
             | None => go rest
             end
         end) es
  | EStatus _ _ | EContext _ | ESentinel _ _ | EText _ => None
  end.

Definition CategoryOf (e : option err) : ErrorCategory :=
  match e with
  | Some x => default ErrorInternal (as_domain x)
  | None => ErrorInternal
  end.

Definition ExitCode (e : option err) : Z :=
  match CategoryOf e with
  | ErrorValidation => 2
  | ErrorPrecondition => 3
  | ErrorConflict => 4
  | ErrorKubernetes => 5
  | ErrorCopy => 6
  | ErrorTimeout => 7
  | _ => 1
  end.

Definition newline : string := String (Ascii.ascii_of_nat 10) "".

(** [Error.Error] and the texts of the other error values. *)
Fixpoint error_text (e : err) : string :=
  match e with
  | EDomain _ op message _ =>
      if op =s "" then message else op +:+ ": " +:+ message
  | EStatus _ m => m
  | EContext Canceled => "context canceled"
  | EContext DeadlineExceeded => "context deadline exceeded"
  | ESentinel _ m => m
  | EJoin es => strings_join newline (map error_text es)
  | EText m => m
  | EWrap m _ => m
  | EPodBlocker _ c => error_text c
  | ENoSpace c => "no space left on destination device (ENOSPC): " +:+ error_text c
  end.

(** The API status an error carries: [errors.As] to [APIStatus] searches the
    unwrap tree in pre-order, through domain errors too. *)
Fixpoint as_status (e : err) : option StatusReason :=
  match e with
  | EStatus r _ => Some r
  | EDomain _ _ _ (Some c) => as_status c
  | EWrap _ c | EPodBlocker _ c | ENoSpace c => as_status c
  | EJoin es =>
      (fix go (l : list err) : option StatusReason :=
         match l with
         | [] => None
         | x :: rest =>
             match as_status x with
             | Some r => Some r
             | None => go rest
             end
         end) es
  | EDomain _ _ _ None | EContext _ | ESentinel _ _ | EText _ => None
  end.

Definition has_reason (r : StatusReason) (e : err) : bool :=
  match as_status e with
  | Some r' => bool_decide (r' = r)
  | None => false
  end.

Definition IsNotFound := has_reason ReasonNotFound.
Definition IsAlreadyExists := has_reason ReasonAlreadyExists.
Definition IsConflict := has_reason ReasonConflict.
Definition IsForbidden := has_reason ReasonForbidden.

(** [errors.Is] against a sentinel or context error. *)
Fixpoint is_sentinel (s : Sentinel) (e : err) : bool :=
  match e with
  | ESentinel s' _ => bool_decide (s' = s)
  | EDomain _ _ _ (Some c) => is_sentinel s c
  | EWrap _ c | EPodBlocker _ c | ENoSpace c => is_sentinel s c
  | EJoin es => existsb (is_sentinel s) es
  | _ => false
  end.

Fixpoint is_context (c : CtxError) (e : err) : bool :=
  match e with
  | EContext c' => bool_decide (c' = c)
  | EDomain _ _ _ (Some x) => is_context c x
  | EWrap _ x | EPodBlocker _ x | ENoSpace x => is_context c x
  | EJoin es => existsb (is_context c) es
  | _ => false
  end.

(** [errors.As] to [*destinationNoSpaceError] *)
Fixpoint as_no_space (e : err) : bool :=
  match e with
  | ENoSpace _ => true
  | EDomain _ _ _ (Some x) => as_no_space x
  | EWrap _ x | EPodBlocker _ x => as_no_space x
  | EJoin es => existsb as_no_space es
  | _ => false
  end.

(** [errors.Join]: nil when every argument is nil. *)
Definition errors_Join (es : list (option err)) : option err :=
  match omap id es with
  | [] => None
  | l => Some (EJoin l)
  end.

Lemma errors_Join_None es : errors_Join es = None <-> Forall (fun e => e = None) es.
Proof.
  unfold errors_Join. induction es as [|[e|] es IH]; simpl.
  - split; [constructor|done].
  - split; [done|]. intros H. inversion H; simplify_eq.
  - rewrite IH. split; [by constructor|]. intros H; by inversion H.
Qed.

Lemma errors_Join2_None a b : errors_Join [a; b] = None <-> a = None /\ b = None.
Proof.
  rewrite errors_Join_None, !Forall_cons. split; [by intros (?&?&?)|intros (?&?); auto].
Qed.

Lemma errors_Join3_None a b c : errors_Join [a; b; c] = None <-> a = None /\ b = None /\ c = None.
Proof.
  rewrite errors_Join_None, !Forall_cons. split; [by intros (?&?&?&?)|intros (?&?&?); auto].
Qed.

(** A domain error never lets the API reason of an unrelated sibling leak: with
    no cause, it is not a Kubernetes status error, so a conflict detected by the
    program itself is never retried as an optimistic-concurrency conflict. *)
Lemma NewError_no_status c op m r : has_reason r (NewError c op m) = false.
Proof. done. Qed.

Lemma CategoryOf_New c op m : CategoryOf (Some (NewError c op m)) = c.
Proof. done. Qed.

Lemma CategoryOf_Wrap c op m e : CategoryOf (Some (WrapError c op m e)) = c.
Proof. done. Qed.

(** ** Classification *)

(** Wrapping with [fmt.Errorf("%w")] and joining in front of errors that carry
    no domain category keep the category and the exit status of an error. *)
Inductive transparent : (err -> err) -> Prop :=
| tr_id : transparent (fun e => e)
| tr_wrap f m : transparent f -> transparent (fun e => EWrap m (f e))
| tr_join f l r :
    transparent f -> Forall (fun x => as_domain x = None) l ->
    transparent (fun e => EJoin (l ++ f e :: r)).

Lemma as_domain_join l x r :
  Forall (fun y => as_domain y = None) l -> is_Some (as_domain x) ->
  as_domain (EJoin (l ++ x :: r)) = as_domain x.
Proof.
  intros Hl [c Hc]. induction Hl as [|y l Hy _ IH]; simpl; [by rewrite Hc|].
  rewrite Hy. exact IH.
Qed.

Lemma transparent_domain f e : transparent f -> is_Some (as_domain e) -> as_domain (f e) = as_domain e.
Proof.
  intros Hf [c Hc]. induction Hf as [|f m Hf IH|f l r Hf IH Hl]; [done|done|].
  rewrite as_domain_join; [done|done|]. by rewrite IH, Hc; eexists.
Qed.

(** The exit status of the program is decided by the outermost domain error
    of the chain: wrapping an error with context or joining it behind errors
    without a category never changes the process exit code, and the seven
    categories have seven different codes, all non-zero. *)
Theorem exit_code_stable f e :
  transparent f -> is_Some (as_domain e) ->
  ExitCode (Some (f e)) = ExitCode (Some e) /\
  (forall e', ExitCode (Some e') = ExitCode (Some e) <->
              CategoryOf (Some e') = CategoryOf (Some e)) /\
  (ExitCode (Some (f e)) <> 0)%Z.
Proof.
  intros Hf He. assert (CategoryOf (Some (f e)) = CategoryOf (Some e)) as Hc.
  { unfold CategoryOf. by rewrite transparent_domain. }
  unfold ExitCode. rewrite Hc. split; [done|]. split.
  - intros e'. by destruct (CategoryOf (Some e')), (CategoryOf (Some e)).
  - by destruct (CategoryOf (Some e)).
Qed.

Lemma exit_code_stable_witness :
  ExitCode (Some (EJoin [EText "x"; EWrap "ctx" (NewError ErrorCopy "copy" "failed")])) = 6%Z.
Proof.
  refine (proj1 (exit_code_stable
    (fun e => EJoin ([EText "x"] ++ EWrap "ctx" e :: [])) (NewError ErrorCopy "copy" "failed") _ _)).
  - apply (tr_join (fun e => EWrap "ctx" e)); [apply (tr_wrap (fun e => e)), tr_id|by repeat constructor].
  - by eexists.
Defined.
