(* ===== verification/Lifecycle.v ===== *)
(** * Workflow lifecycle: internal/domain/workflow_lifecycle.go,
      workflow_registry.go (phases, bounded status) and identity_lifecycle.go

    The durable status of a workflow, the mechanism that records a phase
    change, the two phase policies owned by the domain package, reactivation of
    a failed workflow, conditions, and the byte bounds on status text. *)

From S2P Require Import Prelude Utf8 GoErrors.

(** ** Data *)

(** [v1alpha1.WorkflowPhase]; [PhaseNone] is the empty string. *)
Inductive Phase :=
| PhaseNone
| PhasePlanned | PhaseReserving | PhaseReserved
| PhaseWarmCopying | PhaseWarmCopied
| PhasePausing | PhasePaused
| PhaseFinalSyncing | PhaseFinalSynced
| PhaseActivating | PhaseActivated | PhaseResuming
| PhaseCompleted | PhaseAborting | PhaseAborted
| PhaseRollingBack | PhaseRolledBack
| PhaseRenaming | PhaseMoving
| PhaseFailed.

#[global] Instance Phase_eq_dec : EqDecision Phase.
Proof. solve_decision. Defined.

Definition phase_string (p : Phase) : string :=
  match p with
  | PhaseNone => ""
  | PhasePlanned => "Planned" | PhaseReserving => "Reserving" | PhaseReserved => "Reserved"
  | PhaseWarmCopying => "WarmCopying" | PhaseWarmCopied => "WarmCopied"
  | PhasePausing => "Pausing" | PhasePaused => "Paused"
  | PhaseFinalSyncing => "FinalSyncing" | PhaseFinalSynced => "FinalSynced"
  | PhaseActivating => "Activating" | PhaseActivated => "Activated"
  | PhaseResuming => "Resuming" | PhaseCompleted => "Completed"
  | PhaseAborting => "Aborting" | PhaseAborted => "Aborted"
  | PhaseRollingBack => "RollingBack" | PhaseRolledBack => "RolledBack"
  | PhaseRenaming => "Renaming" | PhaseMoving => "Moving"
  | PhaseFailed => "Failed"
  end.

Definition phase_eqb (a b : Phase) : bool := bool_decide (a = b).
Notation "a =p b" := (phase_eqb a b) (at level 70, no associativity) : go_scope.

Lemma phase_eqb_true a b : (a =p b) = true <-> a = b.
Proof. unfold phase_eqb. apply bool_decide_eq_true. Qed.
Lemma phase_eqb_false a b : (a =p b) = false <-> a <> b.
Proof. unfold phase_eqb. apply bool_decide_eq_false. Qed.

Lemma phase_eqb_refl a : (a =p a) = true.
Proof. by apply phase_eqb_true. Qed.

(** Instants, in nanoseconds since the epoch. *)
Definition Time := Z.

Record WorkflowCondition := {
  cond_Type : string;
  cond_Status : string;
  cond_Reason : string;
  cond_Message : string;
  cond_LastTransitionTime : Time
}.

Record WorkflowHistoryEntry := {
  hist_Phase : Phase;
  hist_Time : Time;
  hist_Message : string
}.

(** The zero [metav1.Time] is [None]; the empty category string is [None]. *)
Record WorkflowStatus := {
  ws_ExecutionIntentHash : string;
  ws_ErrorCategory : option ErrorCategory;
  ws_Phase : Phase;
  ws_ResumeFrom : Phase;
  ws_FailureReason : string;
  ws_ObservedGeneration : Z;
  ws_StartedAt : option Time;
  ws_UpdatedAt : option Time;
  ws_CompletedAt : option Time;
  ws_Message : string;
  ws_Conditions : list WorkflowCondition;
  ws_History : list WorkflowHistoryEntry
}.

Definition MaxWorkflowHistoryEntries : nat := 256.
Definition MaxWorkflowConditions : nat := 32.
Definition MaxWorkflowConditionTypeBytes : nat := 64.
Definition MaxWorkflowReasonBytes : nat := 128.
Definition MaxWorkflowMessageBytes : nat := N.to_nat 8192.

(** ** Bounded status text *)

(** The [for !utf8.ValidString(bounded)] loop over [value[:n]]. *)
Fixpoint shrink_to_valid (n : nat) (value : list Ascii.ascii) : list Ascii.ascii :=
  if ValidString (take n value) then take n value else
  match n with
  | 0 => []
  | S n' => shrink_to_valid n' value
  end.

Definition boundWorkflowText (value : string) (maxBytes : nat) : string :=
  if Nat.leb (String.length value) maxBytes then value
  else of_bytes (shrink_to_valid maxBytes (bytes value)).

Definition BoundWorkflowMessage (message : string) : string :=
  boundWorkflowText message MaxWorkflowMessageBytes.
Definition BoundWorkflowConditionType (value : string) : string :=
  boundWorkflowText value MaxWorkflowConditionTypeBytes.
Definition BoundWorkflowReason (value : string) : string :=
  boundWorkflowText value MaxWorkflowReasonBytes.

(** ** Recording transitions *)

Definition trimWorkflowHistory (h : list WorkflowHistoryEntry) : list WorkflowHistoryEntry :=
  keep_last MaxWorkflowHistoryEntries h.

Definition trimWorkflowConditions (c : list WorkflowCondition) : list WorkflowCondition :=
  keep_last MaxWorkflowConditions c.

Definition RecordWorkflowTransition (lifecycle : WorkflowStatus) (next : Phase)
    (message : string) (now : Time) : WorkflowStatus :=
  if ws_Phase lifecycle =p next then lifecycle else
  let resume :=
    if ((next =p PhaseFailed) ||
        (((next =p PhaseAborting) || (next =p PhaseRollingBack)) &&
         negb (ws_Phase lifecycle =p PhaseFailed)))%bool
    then ws_Phase lifecycle else ws_ResumeFrom lifecycle in
  let failed := next =p PhaseFailed in
  let message := BoundWorkflowMessage message in
  {| ws_ExecutionIntentHash := ws_ExecutionIntentHash lifecycle;
     ws_ErrorCategory := if failed then ws_ErrorCategory lifecycle else None;
     ws_Phase := next;
     ws_ResumeFrom := resume;
     ws_FailureReason := if failed then ws_FailureReason lifecycle else "";
     ws_ObservedGeneration := ws_ObservedGeneration lifecycle;
     ws_StartedAt := ws_StartedAt lifecycle;
     ws_UpdatedAt := Some now;
     ws_CompletedAt :=
       if ((next =p PhaseCompleted) || (next =p PhaseAborted) || (next =p PhaseRolledBack))%bool
       then Some now else None;
     ws_Message := message;
     ws_Conditions := ws_Conditions lifecycle;
     ws_History := trimWorkflowHistory
       (ws_History lifecycle ++ [{| hist_Phase := next; hist_Time := now; hist_Message := message |}])
  |}.

Definition result (A : Type) : Type := (A + err)%type.

(** [policy[current]] of a map literal: the row of the first matching key, the
    empty slice when there is none.  A later entry with the same key overrides
    an earlier one, so the literal is searched from its end. *)
Definition policy_row (policy : list (Phase * list Phase)) (current : Phase) : list Phase :=
  match list_find (fun r => r.1 = current) (reverse policy) with
  | Some (_, (_, row)) => row
  | None => []
  end.

Definition repository_policy : list (Phase * list Phase) :=
  [ (PhasePlanned, [PhaseWarmCopying; PhaseAborting; PhaseFailed]);
    (PhaseWarmCopying, [PhaseWarmCopied; PhaseAborting; PhaseFailed]);
    (PhaseWarmCopied, [PhaseCompleted; PhaseAborting; PhaseFailed]);
    (PhaseAborting, [PhaseAborted; PhaseFailed]);
    (PhaseFailed, [PhaseWarmCopying; PhaseAborting]) ].

Definition TransitionRepository (lifecycle : WorkflowStatus) (next : Phase)
    (message : string) (now : Time) : result WorkflowStatus :=
  if ws_Phase lifecycle =p next then inl lifecycle else
  if negb (contains (policy_row repository_policy (ws_Phase lifecycle)) next) then
    inr (NewError ErrorConflict "transition"
      (sprint ["repository phase "; phase_string (ws_Phase lifecycle);
               " cannot transition to "; phase_string next]))
  else inl (RecordWorkflowTransition lifecycle next message now).

Definition identity_policy (rebindPhase : Phase) : list (Phase * list Phase) :=
  [ (PhasePlanned, [rebindPhase; PhaseAborting; PhaseFailed]);
    (rebindPhase, [PhaseCompleted; PhaseFailed]);
    (PhaseCompleted, [PhaseRollingBack]);
    (PhaseRollingBack, [PhaseRolledBack; PhaseFailed]);
    (PhaseAborting, [PhaseAborted; PhaseFailed]);
    (PhaseFailed, [rebindPhase; PhaseRollingBack; PhaseAborting]) ].

Definition TransitionIdentity (status : WorkflowStatus) (planned : bool)
    (rebindPhase next : Phase) (message : string) (now : Time) : result WorkflowStatus :=
  let current := ws_Phase status in
  if current =p next then inl status else
  if (negb planned && (next =p PhaseAborted) &&
      ((current =p PhaseNone) || (current =p PhasePlanned) || (current =p PhaseFailed)))%bool
  then inl (RecordWorkflowTransition status next message now) else
  if negb (contains (policy_row (identity_policy rebindPhase) current) next) then
    inr (NewError ErrorConflict "transition"
      (sprint ["phase "; phase_string current; " cannot transition to "; phase_string next]))
  else inl (RecordWorkflowTransition status next message now).

Definition ValidateIdentityLifecycle (status : WorkflowStatus) (rebindPhase : Phase) : option err :=
  let allowed := [PhasePlanned; rebindPhase; PhaseCompleted; PhaseRollingBack; PhaseRolledBack;
                  PhaseAborting; PhaseAborted; PhaseFailed] in
  if (negb (contains allowed (ws_Phase status)) ||
      (negb (ws_ResumeFrom status =p PhaseNone) &&
       negb (contains allowed (ws_ResumeFrom status))))%bool
  then Some (NewError ErrorValidation "session"
         "lifecycle phase does not belong to this PVC identity operation")
  else None.

(** [status == nil] is excluded by the record type. *)
Definition ReactivateWorkflow (status : WorkflowStatus) (message : string) (now : Time)
    : result WorkflowStatus :=
  if (negb (ws_Phase status =p PhaseFailed) || (ws_ResumeFrom status =p PhaseNone))%bool
  then inr (NewError ErrorPrecondition "reactivate"
         "a failed workflow with a resume checkpoint is required")
  else
    let message := BoundWorkflowMessage message in
    inl {| ws_ExecutionIntentHash := ws_ExecutionIntentHash status;
           ws_ErrorCategory := None;
           ws_Phase := ws_ResumeFrom status;
           ws_ResumeFrom := ws_ResumeFrom status;
           ws_FailureReason := "";
           ws_ObservedGeneration := ws_ObservedGeneration status;
           ws_StartedAt := ws_StartedAt status;
           ws_UpdatedAt := Some now;
           ws_CompletedAt := None;
           ws_Message := message;
           ws_Conditions := ws_Conditions status;
           ws_History := trimWorkflowHistory
             (ws_History status ++
              [{| hist_Phase := ws_ResumeFrom status; hist_Time := now; hist_Message := message |}])
        |}.

(** [SetWorkflowCondition]: replace in place the first condition of the same
    (bounded) type, or append; then keep the last 32. *)
Fixpoint replace_condition (c : WorkflowCondition) (l : list WorkflowCondition)
    : option (list WorkflowCondition) :=
  match l with
  | [] => None
  | x :: rest =>
      if cond_Type x =s cond_Type c then Some (c :: rest)
      else cons x <$> replace_condition c rest
  end.

Definition bound_condition (c : WorkflowCondition) : WorkflowCondition :=
  {| cond_Type := BoundWorkflowConditionType (cond_Type c);
     cond_Status := cond_Status c;
     cond_Reason := BoundWorkflowReason (cond_Reason c);
     cond_Message := BoundWorkflowMessage (cond_Message c);
     cond_LastTransitionTime := cond_LastTransitionTime c |}.

Definition set_Conditions (status : WorkflowStatus) (l : list WorkflowCondition) : WorkflowStatus :=
  {| ws_ExecutionIntentHash := ws_ExecutionIntentHash status;
     ws_ErrorCategory := ws_ErrorCategory status;
     ws_Phase := ws_Phase status;
     ws_ResumeFrom := ws_ResumeFrom status;
     ws_FailureReason := ws_FailureReason status;
     ws_ObservedGeneration := ws_ObservedGeneration status;
     ws_StartedAt := ws_StartedAt status;
     ws_UpdatedAt := ws_UpdatedAt status;
     ws_CompletedAt := ws_CompletedAt status;
     ws_Message := ws_Message status;
     ws_Conditions := l;
     ws_History := ws_History status |}.

Definition SetWorkflowCondition (status : WorkflowStatus) (condition : WorkflowCondition)
    : WorkflowStatus :=
  let condition := bound_condition condition in
  match replace_condition condition (ws_Conditions status) with
  | Some l => set_Conditions status (trimWorkflowConditions l)
  | None => set_Conditions status (trimWorkflowConditions (ws_Conditions status ++ [condition]))
  end.

(** ** Bounds *)

Lemma shrink_to_valid_spec n value :
  exists m, m <= n /\ shrink_to_valid n value = take m value /\
    ValidString (take m value) = true /\
    (forall k, m < k <= n -> ValidString (take k value) = false).
Proof.
  induction n as [|n IH]; cbn [shrink_to_valid].
  - exists 0. rewrite take_0. repeat split; [lia|]. intros k Hk; lia.
  - destruct (ValidString (take (S n) value)) eqn:Hv.
    + exists (S n). repeat split; [lia|done|]. intros k Hk; lia.
    + destruct IH as (m & Hm & Heq & Hvm & Hmax). exists m. repeat split; [lia|done|done|].
      intros k Hk. destruct (decide (k = S n)) as [->|]; [done|]. apply Hmax; lia.
Qed.

(** Status text is cut to the byte limit without breaking UTF-8: a value
    within the limit is unchanged; a longer one becomes the longest prefix of at
    most [maxBytes] bytes that is valid UTF-8, and if the value itself is valid
    at most three bytes more than necessary are lost. *)
Theorem boundWorkflowText_spec value maxBytes :
  (String.length value <= maxBytes -> boundWorkflowText value maxBytes = value) /\
  (maxBytes < String.length value ->
     let r := bytes (boundWorkflowText value maxBytes) in
     exists m, m <= maxBytes /\ r = take m (bytes value) /\ ValidString r = true /\
       (forall k, m < k <= maxBytes -> ValidString (take k (bytes value)) = false) /\
       (ValidString (bytes value) = true -> maxBytes <= length r + 3)).
Proof.
  unfold boundWorkflowText. split; [by intros ->%Nat.leb_le|].
  intros Hlen. rewrite (proj2 (Nat.leb_gt _ _) Hlen), bytes_of_bytes.
  destruct (shrink_to_valid_spec maxBytes (bytes value)) as (m & Hm & Heq & Hv & Hmax).
  exists m. rewrite Heq. repeat split; [done|done|done|].
  intros Hvalid. rewrite <- length_bytes in Hlen. rewrite length_take.
  destruct (ValidString_cut _ (bytes value) maxBytes (le_n _) Hvalid) as (j & Hj & Hjn & Hvj); [lia|].
  destruct (decide (m < maxBytes - j)) as [Hlt|]; [|lia].
  rewrite Hmax in Hvj; [done|lia].
Qed.

Lemma boundWorkflowText_bound value n : String.length (boundWorkflowText value n) <= n.
Proof.
  unfold boundWorkflowText. destruct (Nat.leb_spec (String.length value) n); [done|].
  destruct (shrink_to_valid_spec n (bytes value)) as (m & Hm & Heq & _).
  rewrite length_of_bytes, Heq, length_take. lia.
Qed.
#[export] Hint Resolve boundWorkflowText_bound : go.

(** ** The recorded status is well formed *)

Definition terminal (p : Phase) : Prop :=
  p = PhaseCompleted \/ p = PhaseAborted \/ p = PhaseRolledBack.

#[global] Instance terminal_dec p : Decision (terminal p).
Proof. unfold terminal. apply _. Defined.

(** What every persisted status satisfies: the schema bounds, a completion time
    exactly in terminal phases, a usable resume checkpoint when failed, and a
    history whose last entry is the current phase. *)
Record wf_status (s : WorkflowStatus) : Prop := {
  wf_history : length (ws_History s) <= MaxWorkflowHistoryEntries;
  wf_history_messages :
    Forall (fun h => String.length (hist_Message h) <= MaxWorkflowMessageBytes) (ws_History s);
  wf_message : String.length (ws_Message s) <= MaxWorkflowMessageBytes;
  wf_completed : is_Some (ws_CompletedAt s) <-> terminal (ws_Phase s);
  wf_resume : ws_Phase s = PhaseFailed -> ws_ResumeFrom s <> PhaseFailed /\ ws_ResumeFrom s <> PhaseNone;
  wf_last : forall h, last (ws_History s) = Some h -> hist_Phase h = ws_Phase s
}.

Lemma Forall_keep_last {A} (P : A -> Prop) n l : Forall P l -> Forall P (keep_last n l).
Proof.
  intros H. destruct (keep_last_suffix n l) as [k Hk]. rewrite Hk in H.
  by apply Forall_app in H as [_ ?].
Qed.

Lemma trimWorkflowHistory_snoc_last h e : last (trimWorkflowHistory (h ++ [e])) = Some e.
Proof. apply (keep_last_last 255). Qed.

Lemma BoundWorkflowMessage_bound m : String.length (BoundWorkflowMessage m) <= MaxWorkflowMessageBytes.
Proof. apply boundWorkflowText_bound. Qed.
#[export] Hint Resolve BoundWorkflowMessage_bound Forall_keep_last : go.
#[global] Opaque BoundWorkflowMessage MaxWorkflowMessageBytes MaxWorkflowHistoryEntries.

(** An entry appended by a transition keeps the history bounds. *)
Lemma trim_history_wf h p t m :
  Forall (fun e => String.length (hist_Message e) <= MaxWorkflowMessageBytes) h ->
  let h' := trimWorkflowHistory
    (h ++ [{| hist_Phase := p; hist_Time := t; hist_Message := BoundWorkflowMessage m |}]) in
  length h' <= MaxWorkflowHistoryEntries /\
  Forall (fun e => String.length (hist_Message e) <= MaxWorkflowMessageBytes) h' /\
  (forall e, last h' = Some e -> hist_Phase e = p).
Proof.
  intros H h'. split; [apply keep_last_bound|]. split.
  - apply Forall_keep_last, Forall_app. split; [done|].
    apply Forall_singleton, BoundWorkflowMessage_bound.
  - intros e. unfold h'. rewrite trimWorkflowHistory_snoc_last. by intros [= <-].
Qed.

Lemma record_wf s next message now :
  wf_status s -> (next = PhaseFailed -> ws_Phase s <> PhaseNone) ->
  wf_status (RecordWorkflowTransition s next message now).
Proof.
  intros W Hn. unfold RecordWorkflowTransition. destruct (ws_Phase s =p next) eqn:E; [done|].
  apply phase_eqb_false in E.
  destruct (trim_history_wf (ws_History s) next now message (wf_history_messages _ W)) as (?&?&?).
  split; simpl; auto using BoundWorkflowMessage_bound.
  - unfold terminal. destruct next; simpl; split; intros H';
      first [by eexists | by left | by right; left | by right; right
            | by destruct H' | by destruct H' as [|[|]]].
  - intros ->. simpl. split; [done|auto].
Qed.

Lemma record_phase s next message now :
  ws_Phase (RecordWorkflowTransition s next message now) = next.
Proof.
  unfold RecordWorkflowTransition. destruct (ws_Phase s =p next) eqn:E; [|done].
  by apply phase_eqb_true in E.
Qed.

Lemma record_resume_failed s message now :
  ws_Phase s <> PhaseFailed ->
  ws_ResumeFrom (RecordWorkflowTransition s PhaseFailed message now) = ws_Phase s.
Proof.
  intros H. unfold RecordWorkflowTransition. by rewrite (proj2 (phase_eqb_false _ _) H).
Qed.

Lemma record_resume_cases s next message now :
  ws_ResumeFrom (RecordWorkflowTransition s next message now) = ws_Phase s \/
  ws_ResumeFrom (RecordWorkflowTransition s next message now) = ws_ResumeFrom s.
Proof.
  unfold RecordWorkflowTransition. case_test; [by right|]. simpl. case_test; auto.
Qed.

(** C29: recording a transition keeps the persisted status well formed (bounded
    history and message, completion time exactly in the terminal phases, a
    resume checkpoint whenever the workflow is Failed, history ending in the
    current phase), clears the failure diagnosis unless the new phase is Failed,
    and never moves an established resume checkpoint of a Failed workflow when
    it is aborted or rolled back. *)
Theorem record_transition_wf s next message now :
  wf_status s -> (next = PhaseFailed -> ws_Phase s <> PhaseNone) ->
  let s' := RecordWorkflowTransition s next message now in
  wf_status s' /\ ws_Phase s' = next /\
  (ws_Phase s <> next -> next <> PhaseFailed -> ws_FailureReason s' = "" /\ ws_ErrorCategory s' = None) /\
  (ws_Phase s = PhaseFailed -> ws_ResumeFrom s' = ws_ResumeFrom s) /\
  (ws_Phase s <> PhaseFailed -> next = PhaseFailed -> ws_ResumeFrom s' = ws_Phase s).
Proof.
  intros W Hn s'. split; [by apply record_wf|].
  unfold s', RecordWorkflowTransition. destruct (ws_Phase s =p next) eqn:E.
  { apply phase_eqb_true in E. repeat split; intros; congruence. }
  apply phase_eqb_false in E. simpl. split; [done|].
  split; [intros _ Hf; by apply phase_eqb_false in Hf as ->|]. split.
  - intros Hf. rewrite Hf in *. simpl. destruct next; done.
  - by intros _ ->.
Qed.

Lemma reactivate_inl s message now s' :
  ReactivateWorkflow s message now = inl s' ->
  ws_Phase s = PhaseFailed /\ ws_ResumeFrom s <> PhaseNone /\
  ws_Phase s' = ws_ResumeFrom s /\ ws_ResumeFrom s' = ws_ResumeFrom s.
Proof.
  unfold ReactivateWorkflow. intros H. case_test; [done|]. simplify_eq/=. bool_prop.
  repeat split; by first [apply phase_eqb_true|apply phase_eqb_false].
Qed.

Lemma reactivate_wf s message now s' :
  wf_status s -> ~ terminal (ws_ResumeFrom s) ->
  ReactivateWorkflow s message now = inl s' -> wf_status s'.
Proof.
  intros W Ht H. destruct (reactivate_inl _ _ _ _ H) as (Hp & Hr & _).
  destruct (wf_resume _ W Hp) as [Hf _].
  unfold ReactivateWorkflow in H. case_test; [done|]. simplify_eq/=.
  destruct (trim_history_wf (ws_History s) (ws_ResumeFrom s) now message (wf_history_messages _ W))
    as (?&?&?).
  split; simpl; auto using BoundWorkflowMessage_bound. split; [by intros []|done].
Qed.

(** C30: failing a workflow and reactivating it returns to the phase where it
    failed, with the failure diagnosis and completion time cleared, the identity
    fields untouched, and both changes in the history. *)
Theorem fail_reactivate_roundtrip s cause message t1 t2 :
  wf_status s -> ws_Phase s <> PhaseNone -> ws_Phase s <> PhaseFailed ->
  exists s', ReactivateWorkflow (RecordWorkflowTransition s PhaseFailed cause t1) message t2 = inl s' /\
    ws_Phase s' = ws_Phase s /\ ws_FailureReason s' = "" /\ ws_ErrorCategory s' = None /\
    ws_StartedAt s' = ws_StartedAt s /\ ws_Conditions s' = ws_Conditions s /\
    ws_ExecutionIntentHash s' = ws_ExecutionIntentHash s /\
    (length (ws_History s) + 2 <= MaxWorkflowHistoryEntries ->
     hist_Phase <$> ws_History s' = (hist_Phase <$> ws_History s) ++ [PhaseFailed; ws_Phase s]).
Proof.
  intros W Hn Hf. unfold RecordWorkflowTransition.
  rewrite (proj2 (phase_eqb_false _ _) Hf). unfold ReactivateWorkflow; simpl.
  rewrite (proj2 (phase_eqb_false _ _) Hn). simpl. eexists; repeat split; simpl; try done.
  intros Hlen. unfold trimWorkflowHistory.
  rewrite (keep_last_short _ (ws_History s ++ _)) by (rewrite length_app; simpl; lia).
  rewrite keep_last_short by (rewrite !length_app; simpl; lia).
  by rewrite !fmap_app, <- app_assoc.
Qed.

(** A status that satisfies the hypotheses of the lifecycle theorems. *)
Definition planned_status : WorkflowStatus :=
  {| ws_ExecutionIntentHash := ""; ws_ErrorCategory := None; ws_Phase := PhasePlanned;
     ws_ResumeFrom := PhaseNone; ws_FailureReason := ""; ws_ObservedGeneration := 1;
     ws_StartedAt := None; ws_UpdatedAt := None; ws_CompletedAt := None; ws_Message := "";
     ws_Conditions := []; ws_History := [] |}.

Lemma planned_status_wf : wf_status planned_status.
Proof.
  split; simpl; try done; try lia.
  - split; [by intros []|]. by intros [|[|]].
Qed.

Lemma record_transition_wf_witness :
  ws_Phase (RecordWorkflowTransition planned_status PhaseReserving "reserving" 5%Z) = PhaseReserving.
Proof.
  apply (record_transition_wf planned_status PhaseReserving "reserving" 5%Z planned_status_wf). done.
Defined.

Lemma fail_reactivate_roundtrip_witness :
  exists s', ReactivateWorkflow (RecordWorkflowTransition planned_status PhaseFailed "boom" 1%Z) "retry" 2%Z
             = inl s' /\ ws_Phase s' = PhasePlanned.
Proof.
  destruct (fail_reactivate_roundtrip planned_status "boom" "retry" 1%Z 2%Z planned_status_wf)
    as (s' & H & Hp & _); [done|done|]. by exists s'.
Defined.

(** ** Conditions *)

Definition condition_of (t : string) (l : list WorkflowCondition) : option WorkflowCondition :=
  snd <$> list_find (fun c => cond_Type c = t) l.

Lemma replace_condition_None c l :
  replace_condition c l = None <-> Forall (fun x => cond_Type x <> cond_Type c) l.
Proof.
  induction l as [|x l IH]; simpl; [split; [constructor|done]|].
  destruct (cond_Type x =s cond_Type c) eqn:E; bool_prop.
  - split; [done|]. intros H; inversion H; simplify_eq.
  - rewrite fmap_None, IH, Forall_cons. tauto.
Qed.

Lemma replace_condition_Some c l l' :
  replace_condition c l = Some l' ->
  exists l1 x l2, l = l1 ++ x :: l2 /\ l' = l1 ++ c :: l2 /\ cond_Type x = cond_Type c /\
    Forall (fun y => cond_Type y <> cond_Type c) l1.
Proof.
  revert l'. induction l as [|x l IH]; intros l'; simpl; [done|].
  destruct (cond_Type x =s cond_Type c) eqn:E; bool_prop.
  - intros [= <-]. exists [], x, l. repeat split; [done|constructor].
  - intros (r & Hr & ->)%fmap_Some. destruct (IH _ Hr) as (l1 & y & l2 & -> & -> & ? & ?).
    exists (x :: l1), y, l2. repeat split; [done|by constructor].
Qed.

Lemma map_type_replaced c l1 x l2 :
  cond_Type x = cond_Type c ->
  map cond_Type (l1 ++ c :: l2) = map cond_Type (l1 ++ x :: l2).
Proof. intros E. rewrite !map_app; simpl. by rewrite E. Qed.

Lemma NoDup_keep_last {A B} (f : A -> B) n l :
  NoDup (map f l) -> NoDup (map f (keep_last n l)).
Proof.
  intros H. destruct (keep_last_suffix n l) as [k Hk]. rewrite Hk, map_app in H.
  by apply NoDup_app in H as (_ & _ & ?).
Qed.

(** Setting a condition on a status that respects the schema keeps at most 32
    conditions with distinct types, stores the new condition (cut to the byte
    limits) as the only one of its type, and changes nothing else of the
    status. *)
Theorem SetWorkflowCondition_spec status c :
  length (ws_Conditions status) <= MaxWorkflowConditions ->
  NoDup (map cond_Type (ws_Conditions status)) ->
  let s' := SetWorkflowCondition status c in
  length (ws_Conditions s') <= MaxWorkflowConditions /\
  NoDup (map cond_Type (ws_Conditions s')) /\
  bound_condition c ∈ ws_Conditions s' /\
  (forall x, x ∈ ws_Conditions s' -> x = bound_condition c \/ x ∈ ws_Conditions status) /\
  s' = set_Conditions status (ws_Conditions s').
Proof.
  intros Hlen Hnd s'. unfold s', SetWorkflowCondition.
  destruct (replace_condition _ _) as [l|] eqn:E.
  - destruct (replace_condition_Some _ _ _ E) as (l1 & x & l2 & Hl & -> & Hty & _).
    assert (trimWorkflowConditions (l1 ++ bound_condition c :: l2) = l1 ++ bound_condition c :: l2)
      as ->.
    { apply keep_last_short. rewrite Hl in Hlen. by rewrite length_app in *. }
    simpl. rewrite Hl in *. split; [by rewrite length_app in *|].
    split; [by rewrite (map_type_replaced _ _ x)|].
    split; [apply elem_of_app; right; left|]. split; [|done].
    intros y. rewrite !elem_of_app, !elem_of_cons. tauto.
  - apply replace_condition_None in E. simpl. split; [apply keep_last_bound|].
    assert (NoDup (map cond_Type (ws_Conditions status ++ [bound_condition c]))) as Hnd'.
    { rewrite map_app. apply NoDup_app. split; [done|]. split; [|apply NoDup_singleton].
      intros t (y & -> & Hy)%list_elem_of_fmap Hin. rewrite Forall_forall in E.
      apply (E y Hy). by apply list_elem_of_singleton in Hin. }
    split; [by apply NoDup_keep_last|].
    unfold trimWorkflowConditions, MaxWorkflowConditions. rewrite (keep_last_snoc 31). 
    split; [apply elem_of_app; right; left|]. split; [|done].
    intros x [Hx| ->%list_elem_of_singleton]%elem_of_app; [right|by left].
    by apply keep_last_elem in Hx.
Qed.

Lemma SetWorkflowCondition_spec_witness :
  length (ws_Conditions (SetWorkflowCondition planned_status
    {| cond_Type := "Deleting"; cond_Status := "True"; cond_Reason := "CleaningUp";
       cond_Message := "m"; cond_LastTransitionTime := 3%Z |})) <= 32.
Proof.
  apply (SetWorkflowCondition_spec planned_status); simpl; [lia|constructor].
Defined.
