(* ===== verification/PhaseMachines.v ===== *)
(** * Phase machines of the operations

    The transition policies of the executors (internal/app: migration, pod
    migration, copy, reservation, PVC identity) and of the domain package
    (repository backup/restore), the step that validates, records and persists a
    phase change, and what no sequence of steps, failures and resumptions can
    do.  An operation is judged by its effective phase: the recorded phase, or
    the resume checkpoint while the workflow is Failed. *)

From S2P Require Import Prelude GoErrors Lifecycle.

(** [workflowResumePhase] (internal/app/validation_pvc_identity.go) *)
Definition workflowResumePhase (status : WorkflowStatus) : Phase :=
  if ws_Phase status =p PhaseFailed then ws_ResumeFrom status else ws_Phase status.

(** ** Policies *)

Definition migrationPhase (phase : Phase) : bool :=
  match phase with
  | PhasePlanned | PhaseReserving | PhaseReserved
  | PhaseFinalSyncing | PhaseFinalSynced | PhaseActivating
  | PhaseActivated | PhaseResuming | PhaseCompleted
  | PhaseAborting | PhaseAborted | PhaseRollingBack | PhaseRolledBack => true
  | _ => false
  end.

Definition migration_edges : list (Phase * list Phase) :=
  [ (PhaseNone, [PhaseAborted]);
    (PhasePlanned, [PhaseReserving; PhaseAborting; PhaseAborted]);
    (PhaseReserving, [PhaseReserved; PhaseAborting]);
    (PhaseReserved, [PhaseFinalSyncing; PhaseAborting]);
    (PhaseFinalSyncing, [PhaseFinalSynced; PhaseAborting]);
    (PhaseFinalSynced, [PhaseFinalSyncing; PhaseActivating; PhaseRollingBack; PhaseAborting]);
    (PhaseActivating, [PhaseActivated; PhaseRollingBack]);
    (PhaseActivated, [PhaseResuming; PhaseCompleted; PhaseRollingBack]);
    (PhaseResuming, [PhaseCompleted; PhaseRollingBack]);
    (PhaseCompleted, [PhaseRollingBack]);
    (PhaseRollingBack, [PhaseRolledBack]);
    (PhaseAborting, [PhaseAborted]) ].

Definition validateMigrationTransition (current next : Phase) : option err :=
  let allowed :=
    ((((current =p next) || (next =p PhaseFailed)) && migrationPhase current) ||
     contains (policy_row migration_edges current) next)%bool in
  if negb allowed then
    Some (NewError ErrorPrecondition "migration"
      (sprint ["cannot transition from "; phase_string current; " to "; phase_string next]))
  else None.

Definition podMigrationPhase (phase : Phase) : bool :=
  match phase with
  | PhasePlanned | PhaseReserving | PhaseReserved
  | PhaseWarmCopying | PhaseWarmCopied | PhasePausing | PhasePaused
  | PhaseFinalSyncing | PhaseFinalSynced | PhaseActivating
  | PhaseActivated | PhaseResuming | PhaseCompleted
  | PhaseAborting | PhaseAborted | PhaseRollingBack | PhaseRolledBack => true
  | _ => false
  end.

Definition pod_migration_edges : list (Phase * list Phase) :=
  [ (PhaseNone, [PhaseAborted]);
    (PhasePlanned, [PhaseReserving; PhaseAborting; PhaseAborted]);
    (PhaseReserving, [PhaseReserved; PhaseAborting]);
    (PhaseReserved, [PhaseWarmCopying; PhasePausing; PhaseAborting]);
    (PhaseWarmCopying, [PhaseWarmCopied; PhaseAborting]);
    (PhaseWarmCopied, [PhaseWarmCopying; PhasePausing; PhaseAborting]);
    (PhasePausing, [PhasePaused; PhaseAborting]);
    (PhasePaused, [PhaseFinalSyncing; PhaseAborting]);
    (PhaseFinalSyncing, [PhaseFinalSynced; PhaseAborting]);
    (PhaseFinalSynced, [PhaseFinalSyncing; PhaseActivating; PhaseRollingBack; PhaseAborting]);
    (PhaseActivating, [PhaseActivated; PhaseRollingBack]);
    (PhaseActivated, [PhaseResuming; PhaseRollingBack]);
    (PhaseResuming, [PhaseCompleted; PhaseRollingBack]);
    (PhaseCompleted, [PhaseRollingBack]);
    (PhaseRollingBack, [PhaseRolledBack]);
    (PhaseAborting, [PhaseAborted]) ].

Definition validatePodMigrationTransition (current next : Phase) : option err :=
  if ((((current =p next) || (next =p PhaseFailed)) && podMigrationPhase current) ||
      contains (policy_row pod_migration_edges current) next)%bool
  then None
  else Some (NewError ErrorPrecondition "pod migration"
         (sprint ["cannot transition from "; phase_string current; " to "; phase_string next])).

Definition validateCopyTransition (current next : Phase) (planned : bool) : option err :=
  let allowed :=
    ((current =p next) || (next =p PhaseFailed) ||
     ((next =p PhaseReserving) && (current =p PhasePlanned)) ||
     ((next =p PhaseReserved) && (current =p PhaseReserving)) ||
     ((next =p PhaseWarmCopying) && ((current =p PhaseReserved) || (current =p PhaseWarmCopied))) ||
     ((next =p PhaseWarmCopied) && (current =p PhaseWarmCopying)) ||
     ((next =p PhaseAborting) && negb (current =p PhaseAborted)) ||
     ((next =p PhaseAborted) && ((current =p PhaseAborting) || negb planned)))%bool in
  if negb allowed then Some (NewError ErrorConflict "copy" "invalid copy phase transition") else None.

Definition validateReservationTransition (current next : Phase) (planned : bool) : option err :=
  let allowed :=
    ((current =p next) || (next =p PhaseFailed) ||
     ((next =p PhaseReserving) && ((current =p PhasePlanned) || (current =p PhaseFailed))) ||
     ((next =p PhaseReserved) && (current =p PhaseReserving)) ||
     ((next =p PhaseAborting) &&
        ((current =p PhasePlanned) || (current =p PhaseReserving) ||
         (current =p PhaseReserved) || (current =p PhaseFailed))) ||
     ((next =p PhaseAborted) && ((current =p PhaseAborting) || negb planned)))%bool in
  if negb allowed
  then Some (NewError ErrorConflict "reservation" "invalid reservation phase transition") else None.

Definition validateIdentityAbort (status : WorkflowStatus) : option err :=
  match workflowResumePhase status with
  | PhasePlanned | PhaseAborting | PhaseAborted => None
  | _ => Some (NewError ErrorPrecondition "abort"
           "PVC identity change must finish through resume before rollback or cleanup")
  end.

Definition validateIdentityRollback (status : WorkflowStatus) : option err :=
  match workflowResumePhase status with
  | PhaseCompleted | PhaseRollingBack | PhaseRolledBack => None
  | _ => Some (NewError ErrorPrecondition "rollback"
           "PVC identity must finish rebinding before rollback")
  end.

(** [deletionRequiresConvergence] (internal/app/workflow_support.go) *)
Definition deletionRequiresConvergence (phase : Phase) : bool :=
  match phase with
  | PhaseActivating | PhaseActivated | PhaseResuming
  | PhaseRenaming | PhaseMoving | PhaseRollingBack => true
  | _ => false
  end.

(** [sourceLossRelevant], [sourceTerminationRelevant]
    (internal/app/source_loss_failure.go) *)
Definition sourceLossRelevant (status : WorkflowStatus) : bool :=
  match ws_Phase status with
  | PhaseFailed | PhaseCompleted | PhaseAborted | PhaseRolledBack => false
  | _ => true
  end.

Definition sourceTerminationRelevant (status : WorkflowStatus) : bool :=
  match ws_Phase status with
  | PhaseNone | PhasePlanned | PhaseReserving | PhaseReserved
  | PhaseWarmCopying | PhaseWarmCopied | PhasePausing | PhasePaused | PhaseFinalSyncing => true
  | _ => false
  end.

(** ** The transition of an executor

    [transition] of the migration, pod migration and copy executors: validate
    against the effective phase, stamp the start time once, record, persist; a
    failed persist restores the previous status.  [persist] is the outcome of
    [persistCheckpoint] on the new status. *)
Definition with_StartedAt (s : WorkflowStatus) (now : Time) : WorkflowStatus :=
  match ws_StartedAt s with
  | Some _ => s
  | None =>
      {| ws_ExecutionIntentHash := ws_ExecutionIntentHash s;
         ws_ErrorCategory := ws_ErrorCategory s; ws_Phase := ws_Phase s;
         ws_ResumeFrom := ws_ResumeFrom s; ws_FailureReason := ws_FailureReason s;
         ws_ObservedGeneration := ws_ObservedGeneration s;
         ws_StartedAt := Some now; ws_UpdatedAt := ws_UpdatedAt s;
         ws_CompletedAt := ws_CompletedAt s; ws_Message := ws_Message s;
         ws_Conditions := ws_Conditions s; ws_History := ws_History s |}
  end.

Definition transition (validate : Phase -> Phase -> option err)
    (persist : WorkflowStatus -> option err)
    (s : WorkflowStatus) (next : Phase) (message : string) (now : Time)
    : WorkflowStatus * option err :=
  match validate (workflowResumePhase s) next with
  | Some e => (s, Some e)
  | None =>
      let s' := RecordWorkflowTransition (with_StartedAt s now) next message now in
      match persist s' with
      | Some e => (s, Some e)
      | None => (s', None)
      end
  end.

(** [RequestResume]: reactivation, persisted the same way. *)
Definition request_resume (persist : WorkflowStatus -> option err)
    (s : WorkflowStatus) (message : string) (now : Time) : WorkflowStatus * option err :=
  if negb (ws_Phase s =p PhaseFailed) then (s, None) else
  match ReactivateWorkflow s message now with
  | inr e => (s, Some e)
  | inl s' =>
      match persist s' with
      | Some e => (s, Some e)
      | None => (s', None)
      end
  end.

(** ** Machines on the effective phase

    One step of an executor that uses [validate]: a requested transition or a
    requested resume, whose persistence may fail. *)
Inductive machine_step (validate : Phase -> Phase -> option err)
    : WorkflowStatus -> WorkflowStatus -> Prop :=
| ms_transition persist s next message now s' e :
    transition validate persist s next message now = (s', e) -> machine_step validate s s'
| ms_resume persist s message now s' e :
    request_resume persist s message now = (s', e) -> machine_step validate s s'.

(** The abstract machine: a graph on phases in which Failed does not exist. *)
Definition phase_edge (validate : Phase -> Phase -> option err) (p q : Phase) : Prop :=
  validate p q = None /\ q <> PhaseFailed.

Section machine.
Context (validate : Phase -> Phase -> option err).

Lemma with_StartedAt_phase s now :
  ws_Phase (with_StartedAt s now) = ws_Phase s /\
  ws_ResumeFrom (with_StartedAt s now) = ws_ResumeFrom s.
Proof. unfold with_StartedAt. by destruct (ws_StartedAt s). Qed.

Lemma record_effective s next message now :
  workflowResumePhase (RecordWorkflowTransition s next message now) =
  if next =p PhaseFailed then workflowResumePhase s else next.
Proof.
  unfold RecordWorkflowTransition, workflowResumePhase.
  destruct (ws_Phase s =p next) eqn:E; [apply phase_eqb_true in E; subst|]; simpl.
  - by destruct (ws_Phase s =p PhaseFailed).
  - destruct (next =p PhaseFailed) eqn:F; simpl; [|done].
    apply phase_eqb_true in F as ->. by rewrite E.
Qed.

(** Simulation: a concrete step either stutters on the effective phase or
    follows an edge of the abstract graph. *)
Lemma step_simulation s s' :
  machine_step validate s s' ->
  workflowResumePhase s' = workflowResumePhase s \/
  phase_edge validate (workflowResumePhase s) (workflowResumePhase s').
Proof.
  intros [persist s0 next message now s1 e H|persist s0 message now s1 e H]; revert H.
  - unfold transition. destruct (validate _ next) eqn:V; [intros [= <- _]; by left|].
    destruct (persist _); intros [= <- _]; [by left|].
    rewrite record_effective. destruct (next =p PhaseFailed) eqn:F.
    + left. unfold workflowResumePhase. by destruct (with_StartedAt_phase s0 now) as [-> ->].
    + right. apply phase_eqb_false in F. by split.
  - unfold request_resume. case_test; [intros [= <- _]; by left|].
    destruct (ReactivateWorkflow s0 message now) as [s2|] eqn:R; [|intros [= <- _]; by left].
    destruct (persist s2); intros [= <- _]; [by left|]. left.
    destruct (reactivate_inl _ _ _ _ R) as (Hp & _ & Hp' & Hr').
    unfold workflowResumePhase. rewrite Hp, Hp', Hr', phase_eqb_refl. by case_test.
Qed.

Lemma machine_refines s s' :
  rtc (machine_step validate) s s' ->
  rtc (phase_edge validate) (workflowResumePhase s) (workflowResumePhase s').
Proof.
  induction 1 as [|s s1 s' Hs _ IH]; [done|].
  destruct (step_simulation _ _ Hs) as [E|E]; [by rewrite <- E|by eapply rtc_l].
Qed.

(** A set of phases closed under the edges is closed under executions. *)
Lemma machine_closed (P : Phase -> Prop) s s' :
  (forall p q, P p -> phase_edge validate p q -> P q) ->
  rtc (machine_step validate) s s' -> P (workflowResumePhase s) -> P (workflowResumePhase s').
Proof.
  intros HP H Hs. apply machine_refines in H. revert Hs. induction H; eauto.
Qed.

(** If the only edges into a set leave from a gate, every execution that
    enters the set has been at the gate. *)
Lemma machine_gate (Post : Phase -> Prop) `{!forall p, Decision (Post p)} (gate : Phase) s s' :
  (forall p q, ~ Post p -> Post q -> phase_edge validate p q -> p = gate) ->
  rtc (machine_step validate) s s' ->
  ~ Post (workflowResumePhase s) -> Post (workflowResumePhase s') ->
  exists m, rtc (machine_step validate) s m /\ rtc (machine_step validate) m s' /\
            workflowResumePhase m = gate.
Proof.
  intros HP Hr. induction Hr as [|s s1 s' Hs Hrest IH]; intros Hn Hp; [done|].
  destruct (decide (Post (workflowResumePhase s1))) as [Hp1|Hp1].
  - destruct (step_simulation _ _ Hs) as [E|E]; [by rewrite E in Hp1|].
    exists s. repeat split; [constructor|by eapply rtc_l|by eapply HP].
  - destruct (IH Hp1 Hp) as (m & ? & ? & ?). exists m. repeat split; [by eapply rtc_l|done|done].
Qed.
End machine.

(** ** Cutover *)

(** The phases from the first destructive cutover step on. *)
Definition is_cutover (p : Phase) : bool :=
  match p with
  | PhaseActivating | PhaseActivated | PhaseResuming | PhaseCompleted
  | PhaseRollingBack | PhaseRolledBack => true
  | _ => false
  end.
Definition cutover (p : Phase) : Prop := is_cutover p = true.

#[global] Instance cutover_dec p : Decision (cutover p).
Proof. unfold cutover. apply _. Defined.

(** The phases in which a Pod migration has not yet stopped its workload. *)
Definition before_pause (p : Phase) : bool :=
  match p with
  | PhaseNone | PhasePlanned | PhaseReserving | PhaseReserved
  | PhaseWarmCopying | PhaseWarmCopied | PhasePausing => true
  | _ => false
  end.

(** Enumerate an edge of a concrete policy. *)
Ltac edge_cases :=
  intros p q; unfold phase_edge, cutover; destruct p, q; vm_compute; intuition congruence.

(** C28: once the cutover of an offline migration has started, no sequence of
    transitions, failures and resumptions aborts it: the effective phase stays
    in the cutover phases, so the only ways out are completion and rollback; and
    a workflow that reached RolledBack or Aborted stays there. *)
Theorem migration_cutover_irreversible s s' :
  rtc (machine_step validateMigrationTransition) s s' ->
  (cutover (workflowResumePhase s) -> cutover (workflowResumePhase s')) /\
  (workflowResumePhase s = PhaseRolledBack -> workflowResumePhase s' = PhaseRolledBack) /\
  (workflowResumePhase s = PhaseAborted -> workflowResumePhase s' = PhaseAborted).
Proof.
  intros H. repeat split; intros Hs.
  - revert H Hs. apply machine_closed. edge_cases.
  - revert H Hs. apply (machine_closed _ (fun p => p = PhaseRolledBack)). edge_cases.
  - revert H Hs. apply (machine_closed _ (fun p => p = PhaseAborted)). edge_cases.
Qed.

(** An offline migration never starts its cutover without a completed final
    sync: every execution that enters a cutover phase has passed through
    FinalSynced, and a Pod migration has moreover been Paused before its final
    sync. *)
Theorem cutover_requires_final_sync s s' :
  (rtc (machine_step validateMigrationTransition) s s' ->
   ~ cutover (workflowResumePhase s) -> cutover (workflowResumePhase s') ->
   exists m, rtc (machine_step validateMigrationTransition) s m /\
             rtc (machine_step validateMigrationTransition) m s' /\
             workflowResumePhase m = PhaseFinalSynced) /\
  (rtc (machine_step validatePodMigrationTransition) s s' ->
   before_pause (workflowResumePhase s) = true ->
   cutover (workflowResumePhase s') ->
   exists m, rtc (machine_step validatePodMigrationTransition) s m /\
             rtc (machine_step validatePodMigrationTransition) m s' /\
             workflowResumePhase m = PhasePaused).
Proof.
  split; intros H Hs Hs'.
  - apply (machine_gate _ cutover PhaseFinalSynced s s'); [edge_cases|done..].
  - apply (machine_gate _ (fun p => p = PhaseFinalSyncing \/ p = PhaseFinalSynced \/ cutover p)
             PhasePaused s s'); [edge_cases|done| |by right; right].
    unfold cutover. destruct (workflowResumePhase s); simpl in *; intuition congruence.
Qed.

(** A concrete execution: plan, reserve, final sync, fail, resume, activate. *)
Definition run_transition (validate : Phase -> Phase -> option err)
    (s : WorkflowStatus) (next : Phase) : WorkflowStatus :=
  (transition validate (fun _ => None) s next "m" 7%Z).1.

Lemma run_transition_step validate s next :
  machine_step validate s (run_transition validate s next).
Proof.
  unfold run_transition.
  destruct (transition validate (fun _ => None) s next "m" 7%Z) as [s' e] eqn:E.
  by eapply ms_transition.
Qed.

Lemma run_transitions_steps validate l s :
  rtc (machine_step validate) s (foldl (run_transition validate) s l).
Proof.
  revert s. induction l as [|p l IH]; intros s; simpl; [done|].
  eapply rtc_l; [apply run_transition_step|apply IH].
Qed.

Definition activating_path : list Phase :=
  [PhaseReserving; PhaseReserved; PhaseFinalSyncing; PhaseFailed; PhaseFinalSyncing;
   PhaseFinalSynced; PhaseActivating].

Lemma migration_cutover_irreversible_witness :
  workflowResumePhase (foldl (run_transition validateMigrationTransition) planned_status
    (activating_path ++ [PhaseAborting; PhaseAborted])) = PhaseActivating /\
  cutover (workflowResumePhase (foldl (run_transition validateMigrationTransition) planned_status
    (activating_path ++ [PhaseAborting; PhaseAborted]))).
Proof.
  split; [vm_compute; reflexivity|]. rewrite foldl_app.
  apply (proj1 (migration_cutover_irreversible _ _ (run_transitions_steps _ _ _))).
  vm_compute; reflexivity.
Defined.

Lemma cutover_requires_final_sync_witness :
  exists m, rtc (machine_step validateMigrationTransition) planned_status m /\
            workflowResumePhase m = PhaseFinalSynced.
Proof.
  destruct (proj1 (cutover_requires_final_sync planned_status
    (foldl (run_transition validateMigrationTransition) planned_status activating_path))
    (run_transitions_steps _ _ _)) as (m & ? & _ & ?).
  - vm_compute. discriminate.
  - vm_compute. reflexivity.
  - by exists m.
Defined.

(** ** The repository machine (backup and restore) *)

Inductive repo_step (s : WorkflowStatus) : WorkflowStatus -> Prop :=
| rs_transition next message now s' :
    TransitionRepository s next message now = inl s' -> repo_step s s'
| rs_reactivate message now s' :
    ReactivateWorkflow s message now = inl s' -> repo_step s s'.

Definition repo_working (p : Phase) : bool :=
  match p with PhasePlanned | PhaseWarmCopying | PhaseWarmCopied | PhaseAborting => true | _ => false end.

Record repo_inv (s : WorkflowStatus) : Prop := {
  ri_wf : wf_status s;
  ri_phase : repo_working (ws_Phase s) = true \/
             ws_Phase s = PhaseFailed \/ ws_Phase s = PhaseCompleted \/ ws_Phase s = PhaseAborted;
  ri_resume : ws_Phase s = PhaseFailed -> repo_working (ws_ResumeFrom s) = true
}.

(** The rows of the policy, as facts about one allowed step. *)
Lemma repo_policy_facts p q :
  contains (policy_row repository_policy p) q = true ->
  p <> PhaseNone /\ p <> PhaseCompleted /\ p <> PhaseAborted /\
  (q = PhaseFailed -> repo_working p = true) /\
  (repo_working q = true \/ q = PhaseFailed \/ q = PhaseCompleted \/ q = PhaseAborted) /\
  (q = PhaseCompleted -> p = PhaseWarmCopied).
Proof. destruct p, q; vm_compute; intuition congruence. Qed.

Lemma repo_transition_inl s next message now s' :
  TransitionRepository s next message now = inl s' ->
  s' = s \/ (contains (policy_row repository_policy (ws_Phase s)) next = true /\
             ws_Phase s <> next /\ s' = RecordWorkflowTransition s next message now).
Proof.
  unfold TransitionRepository. destruct (_ =p next) eqn:E; [intros [= ->]; by left|].
  destruct (contains _ _) eqn:C; simpl; [|done]. intros [= <-]. right.
  by apply phase_eqb_false in E.
Qed.

Lemma repo_step_inv s s' : repo_inv s -> repo_step s s' -> repo_inv s'.
Proof.
  intros [W P R] [next message now s1 H|message now s1 H].
  - destruct (repo_transition_inl _ _ _ _ _ H) as [->|(C & N & ->)]; [by split|].
    destruct (repo_policy_facts _ _ C) as (Hn & _ & _ & Hf & Hq & _). split.
    + apply record_wf; auto.
    + by rewrite record_phase.
    + rewrite record_phase. intros ->. rewrite record_resume_failed by congruence. auto.
  - destruct (reactivate_inl _ _ _ _ H) as (Hp & Hr & Hp' & Hr'). specialize (R Hp). split.
    + eapply reactivate_wf; [done| |done]. unfold terminal. intros Ht.
      destruct (ws_ResumeFrom s); simpl in R; naive_solver.
    + rewrite Hp'. by left.
    + by rewrite Hr'.
Qed.

(** Every status a backup or restore workflow can reach from a planned one is
    well formed, lies in the seven phases of the repository machine, resumes only
    at a working phase, and completes only after a finished copy; Completed and
    Aborted admit no further change. *)
Theorem repository_machine_sound s0 s :
  repo_inv s0 -> rtc repo_step s0 s ->
  repo_inv s /\
  (forall s', ws_Phase s = PhaseCompleted \/ ws_Phase s = PhaseAborted -> repo_step s s' -> s' = s) /\
  (forall message now s', TransitionRepository s PhaseCompleted message now = inl s' ->
     ws_Phase s = PhaseWarmCopied \/ ws_Phase s = PhaseCompleted).
Proof.
  intros H0 H. split; [revert H0; induction H; eauto using repo_step_inv|]. split.
  - intros s' Ht [next m now s2 Hs|m now s2 Hs].
    + destruct (repo_transition_inl _ _ _ _ _ Hs) as [->|(C & _)]; [done|].
      apply repo_policy_facts in C. naive_solver.
    + apply reactivate_inl in Hs as (Hp & _). naive_solver congruence.
  - intros m now s' Hs. destruct (repo_transition_inl _ _ _ _ _ Hs) as [->|(C & _)].
    + right. revert Hs. unfold TransitionRepository.
      destruct (ws_Phase s =p _) eqn:E; [by apply phase_eqb_true in E|].
      destruct (contains _ _); simpl; [|done]. intros [= Hs].
      apply (f_equal ws_Phase) in Hs. by rewrite record_phase in Hs.
    + left. by apply repo_policy_facts in C as (_&_&_&_&_&Hc); apply Hc.
Qed.

Lemma planned_repo_inv : repo_inv planned_status.
Proof. split; [apply planned_status_wf|by left|done]. Qed.

Lemma repository_machine_sound_witness :
  repo_inv (RecordWorkflowTransition planned_status PhaseWarmCopying "m" 1%Z).
Proof.
  apply (proj1 (repository_machine_sound planned_status _ planned_repo_inv
    (rtc_once _ _ (rs_transition planned_status PhaseWarmCopying "m" 1%Z _ eq_refl)))).
Defined.

(** ** The PVC identity machine (rename and move) *)

Lemma identity_policy_facts rebind p q :
  rebind = PhaseRenaming \/ rebind = PhaseMoving ->
  contains (policy_row (identity_policy rebind) p) q = true ->
  p <> PhaseNone /\ p <> PhaseAborted /\ p <> PhaseRolledBack /\
  contains [PhasePlanned; rebind; PhaseCompleted; PhaseRollingBack; PhaseRolledBack;
            PhaseAborting; PhaseAborted; PhaseFailed] q = true /\
  (q = PhaseCompleted -> p = rebind) /\
  (q = PhaseRolledBack -> p = PhaseRollingBack) /\
  (q = PhaseAborted -> p = PhaseAborting) /\
  (q = PhaseRollingBack -> p = PhaseCompleted \/ p = PhaseFailed).
Proof. intros [->| ->]; destruct p, q; vm_compute; intuition congruence. Qed.

Lemma transition_identity_inl s rebind next message now s' :
  TransitionIdentity s true rebind next message now = inl s' ->
  s' = s \/ (contains (policy_row (identity_policy rebind) (ws_Phase s)) next = true /\
             ws_Phase s <> next /\ s' = RecordWorkflowTransition s next message now).
Proof.
  unfold TransitionIdentity. destruct (_ =p next) eqn:E; [intros [= ->]; by left|]. simpl.
  destruct (contains _ _) eqn:C; simpl; [|done]. intros [= <-]. right.
  by apply phase_eqb_false in E.
Qed.

(** For a planned rename or move, the shared PVC identity policy keeps the
    lifecycle valid for the operation and the status well formed, completes only
    from the rebinding phase, reaches RolledBack only through RollingBack and
    Aborted only through Aborting, and leaves Aborted and RolledBack for good. *)
Theorem identity_transition_sound s rebind next message now s' :
  rebind = PhaseRenaming \/ rebind = PhaseMoving ->
  wf_status s -> ValidateIdentityLifecycle s rebind = None ->
  TransitionIdentity s true rebind next message now = inl s' ->
  wf_status s' /\ ValidateIdentityLifecycle s' rebind = None /\ ws_Phase s' = next /\
  (next = PhaseCompleted -> ws_Phase s = rebind \/ s' = s) /\
  (next = PhaseRolledBack -> ws_Phase s = PhaseRollingBack \/ s' = s) /\
  (next = PhaseAborted -> ws_Phase s = PhaseAborting \/ s' = s) /\
  (ws_Phase s = PhaseAborted \/ ws_Phase s = PhaseRolledBack -> s' = s).
Proof.
  intros Hr W V H.
  assert (ws_Phase s' = next) as Hp.
  { revert H. unfold TransitionIdentity. destruct (_ =p next) eqn:E.
    - intros [= <-]. by apply phase_eqb_true in E.
    - simpl. destruct (contains _ _); simpl; [|done]. intros [= <-]. apply record_phase. }
  destruct (transition_identity_inl _ _ _ _ _ _ H) as [->|(C & N & ->)].
  { split_and!; auto. }
  destruct (identity_policy_facts _ _ _ Hr C) as (? & ? & ? & Hq & ? & ? & ? & _).
  split; [by apply record_wf|]. split; [|split_and!; [done|naive_solver..]].
  unfold ValidateIdentityLifecycle in *. rewrite Hp, Hq. simpl.
  destruct (negb _ || _)%bool eqn:T in V; [done|]. apply orb_false_iff in T as [T1 T2].
  destruct (record_resume_cases s next message now) as [-> | ->]; [|by rewrite T2].
  by rewrite T1, andb_false_r.
Qed.

Lemma identity_transition_sound_witness :
  ValidateIdentityLifecycle
    (RecordWorkflowTransition planned_status PhaseRenaming "renaming" 1%Z) PhaseRenaming = None.
Proof.
  apply (identity_transition_sound planned_status PhaseRenaming PhaseRenaming "renaming" 1%Z);
    [by left|apply planned_status_wf|reflexivity|reflexivity].
Defined.
