(* ===== verification/GoFormat.v ===== *)
(** * Formatting of integers, times and durations

    %d of package fmt, the RFC 3339 layout and [Duration.String] of package time, for
    the messages that report a number, an instant or a duration. *)

From S2P Require Import Prelude GoErrors Lifecycle.
From Stdlib Require Import Ascii DecimalString DecimalZ DecimalPos.

#[local] Open Scope Z_scope.

(** %d *)
Definition show_Z (z : Z) : string := NilZero.string_of_int (Z.to_int z).

(** %02d and %04d of a non-negative number below the width's limit. *)
Definition pad2 (z : Z) : string := if z <? 10 then "0" +:+ show_Z z else show_Z z.
Definition pad4 (z : Z) : string :=
  if z <? 10 then "000" +:+ show_Z z else if z <? 100 then "00" +:+ show_Z z
  else if z <? 1000 then "0" +:+ show_Z z else show_Z z.

(** The proleptic Gregorian date of a day number counted from 1970-01-01: eras of
    400 years that start on the first of March. *)
Definition civil_of_days (days : Z) : Z * Z * Z :=
  let z := days + 719468 in
  let era := z / 146097 in
  let doe := z mod 146097 in
  let yoe := (doe - doe / 1460 + doe / 36524 - doe / 146096) / 365 in
  let doy := doe - (365 * yoe + yoe / 4 - yoe / 100) in
  let mp := (5 * doy + 2) / 153 in
  let day := doy - (153 * mp + 2) / 5 + 1 in
  let month := if mp <? 10 then mp + 3 else mp - 9 in
  let year := yoe + era * 400 + (if month <=? 2 then 1 else 0) in
  (year, month, day).

(** [t.UTC().Format(time.RFC3339)] of an instant in nanoseconds. *)
Definition RFC3339 (t : Z) : string :=
  let seconds := t / 1000000000 in
  let '(year, month, day) := civil_of_days (seconds / 86400) in
  let s := seconds mod 86400 in
  sprint [pad4 year; "-"; pad2 month; "-"; pad2 day; "T"; pad2 (s / 3600); ":";
          pad2 (s / 60 mod 60); ":"; pad2 (s mod 60); "Z"].

Example rfc3339_epoch : RFC3339 0 = "1970-01-01T00:00:00Z".
Proof. reflexivity. Qed.
Example rfc3339_leap : RFC3339 1709210096000000000 = "2024-02-29T12:34:56Z".
Proof. reflexivity. Qed.

(** ** Durations: [time.Duration.String] *)

Fixpoint trim_zeros (s : list ascii) : list ascii :=
  match s with c :: rest => if Ascii.eqb c "0"%char then trim_zeros rest else s | [] => [] end.

(** The [prec] low decimal digits of [v], the least significant first. *)
Fixpoint low_digits (prec : nat) (v : Z) : list ascii :=
  match prec with
  | O => []
  | S prec => ascii_of_nat (48 + Z.to_nat (v mod 10)) :: low_digits prec (v / 10)
  end.

(** [fmtFrac]: the fraction without trailing zeros, nothing when it is zero. *)
Definition fmtFrac (v : Z) (prec : nat) : string :=
  match trim_zeros (low_digits prec v) with
  | [] => ""
  | digits => "." +:+ of_bytes (rev digits)
  end.

Definition micro_unit : string := of_bytes [ascii_of_nat 194; ascii_of_nat 181; "s"%char].

Definition duration_unsigned (u : Z) : string :=
  if u =? 0 then "0s"
  else if u <? 1000 then show_Z u +:+ "ns"
  else if u <? 1000000 then show_Z (u / 1000) +:+ fmtFrac u 3 +:+ micro_unit
  else if u <? 1000000000 then show_Z (u / 1000000) +:+ fmtFrac u 6 +:+ "ms"
  else
    let seconds := u / 1000000000 in
    let text := show_Z (seconds mod 60) +:+ fmtFrac u 9 +:+ "s" in
    let minutes := seconds / 60 in
    if minutes =? 0 then text else
    let text := show_Z (minutes mod 60) +:+ "m" +:+ text in
    let hours := minutes / 60 in
    if hours =? 0 then text else show_Z hours +:+ "h" +:+ text.

Definition duration_string (d : Z) : string :=
  if d <? 0 then "-" +:+ duration_unsigned (- d) else duration_unsigned d.

Example duration_texts :
  map duration_string [0; 1500; 90000000000; 5400500000000; 250000000; -1100000000]
  = ["0s"; "1.5" +:+ micro_unit; "1m30s"; "1h30m0.5s"; "250ms"; "-1.1s"].
Proof. reflexivity. Qed.
