(* ===== verification/Sha256.v ===== *)
(** * SHA-256 and hexadecimal encoding

    crypto/sha256 and encoding/hex of the Go standard library, as used for
    deterministic resource names (FIPS 180-4).  A 32-bit word is a [Z] in
    [0, 2^32). *)

From S2P Require Import Prelude.
From Stdlib Require Import Ascii.

#[local] Open Scope Z_scope.

Definition w32 (x : Z) : Z := Z.land x 4294967295.
Definition add32 (x y : Z) : Z := w32 (x + y).
Definition rotr (n x : Z) : Z := w32 (Z.lor (Z.shiftr x n) (Z.shiftl x (32 - n))).
Definition lnot32 (x : Z) : Z := Z.lxor x 4294967295.

Definition Ch (x y z : Z) : Z := Z.lxor (Z.land x y) (Z.land (lnot32 x) z).
Definition Maj (x y z : Z) : Z := Z.lxor (Z.lxor (Z.land x y) (Z.land x z)) (Z.land y z).
Definition bsig0 (x : Z) : Z := Z.lxor (Z.lxor (rotr 2 x) (rotr 13 x)) (rotr 22 x).
Definition bsig1 (x : Z) : Z := Z.lxor (Z.lxor (rotr 6 x) (rotr 11 x)) (rotr 25 x).
Definition ssig0 (x : Z) : Z := Z.lxor (Z.lxor (rotr 7 x) (rotr 18 x)) (Z.shiftr x 3).
Definition ssig1 (x : Z) : Z := Z.lxor (Z.lxor (rotr 17 x) (rotr 19 x)) (Z.shiftr x 10).

(** The constants are the first 32 fractional bits of the cube roots (round
    constants) and square roots (initial state) of the first primes. *)
Definition is_prime (n : nat) : bool :=
  forallb (fun d => negb (Nat.eqb (Nat.modulo n d) 0)) (seq 2 (n - 2)).

Definition primes : list Z :=
  Eval vm_compute in map Z.of_nat (filter (fun n => is_prime n = true) (seq 2 310)).

(** The integer cube root, one bit at a time from bit [n - 1] down. *)
Fixpoint cube_root (n : nat) (acc x : Z) : Z :=
  match n with
  | O => acc
  | S n' =>
      let acc' := acc + 2 ^ Z.of_nat n' in
      cube_root n' (if acc' ^ 3 <=? x then acc' else acc) x
  end.

Definition K256 : list Z :=
  Eval vm_compute in map (fun p => w32 (cube_root 36 0 (p * 2 ^ 96))) (take 64 primes).

Definition H256 : list Z :=
  Eval vm_compute in map (fun p => w32 (Z.sqrt (p * 2 ^ 64))) (take 8 primes).

(** ** Padding *)

Fixpoint be_bytes (n : nat) (x : Z) : list Z :=
  match n with
  | O => []
  | S n' => be_bytes n' (Z.shiftr x 8) ++ [Z.land x 255]
  end.

Definition pad (msg : list Z) : list Z :=
  let len := Z.of_nat (length msg) in
  let zeros := Z.to_nat ((55 - len) mod 64) in
  msg ++ [128] ++ repeat 0 zeros ++ be_bytes 8 (8 * len).

Fixpoint words (l : list Z) : list Z :=
  match l with
  | a :: b :: c :: d :: rest =>
      Z.lor (Z.lor (Z.shiftl a 24) (Z.shiftl b 16)) (Z.lor (Z.shiftl c 8) d) :: words rest
  | _ => []
  end.

(** ** Compression *)

(** The message schedule, kept newest first. *)
Fixpoint schedule (n : nat) (rev_w : list Z) : list Z :=
  match n with
  | O => rev rev_w
  | S n' =>
      let w := fun i : nat => nth i rev_w 0 in
      let next := add32 (add32 (ssig1 (w 1%nat)) (w 6%nat)) (add32 (ssig0 (w 14%nat)) (w 15%nat)) in
      schedule n' (next :: rev_w)
  end.

Definition round (st : list Z) (kw : Z * Z) : list Z :=
  match st with
  | [a; b; c; d; e; f; g; h] =>
      let t1 := add32 (add32 h (bsig1 e)) (add32 (Ch e f g) (add32 kw.1 kw.2)) in
      let t2 := add32 (bsig0 a) (Maj a b c) in
      [add32 t1 t2; a; b; c; add32 d t1; e; f; g]
  | _ => st
  end.

Definition compress (st : list Z) (block : list Z) : list Z :=
  let w := schedule 48 (rev block) in
  zip_with add32 st (foldl round st (zip K256 w)).

Fixpoint blocks (n : nat) (st ws : list Z) : list Z :=
  match n with
  | O => st
  | S n' =>
      match ws with
      | [] => st
      | _ => blocks n' (compress st (take 16 ws)) (drop 16 ws)
      end
  end.

Definition sha256_bytes (msg : list Z) : list Z :=
  let ws := words (pad msg) in
  concat (map (be_bytes 4) (blocks (length ws) H256 ws)).

(** ** Hex *)

Definition hex_digit (n : Z) : ascii :=
  ascii_of_N (Z.to_N (if n <? 10 then 48 + n else 87 + n)).

Definition hex (l : list Z) : list ascii :=
  concat (map (fun b => [hex_digit (Z.shiftr b 4); hex_digit (Z.land b 15)]) l).

(** [hex.EncodeToString(sha256.Sum256(s))] *)
Definition sha256_hex (s : string) : list ascii :=
  hex (sha256_bytes (map (fun c => Z.of_N (byte_val c)) (bytes s))).

(** ** Facts *)

Example sha256_abc :
  of_bytes (sha256_hex "abc") = "ba7816bf8f01cfea414140de5dae2223b00361a396177a9cb410ff61f20015ad".
Proof. vm_compute. reflexivity. Qed.

Example sha256_empty :
  of_bytes (sha256_hex "") = "e3b0c44298fc1c149afbf4c8996fb92427ae41e4649b934ca495991b7852b855".
Proof. vm_compute. reflexivity. Qed.

Lemma be_bytes_length n x : length (be_bytes n x) = n.
Proof. revert x. induction n as [|n IH]; intros x; simpl; [done|]. rewrite length_app, IH. simpl. lia. Qed.

Lemma round_length st kw : length st = 8%nat -> length (round st kw) = 8%nat.
Proof. destruct st as [|a [|b [|c [|d [|e [|f [|g [|h [|]]]]]]]]]; try done. Qed.

Lemma rounds_length st kws : length st = 8%nat -> length (foldl round st kws) = 8%nat.
Proof. revert st. induction kws as [|kw kws IH]; intros st H; simpl; [done|]. by apply IH, round_length. Qed.

Lemma blocks_length n st ws : length st = 8%nat -> length (blocks n st ws) = 8%nat.
Proof.
  revert st ws. induction n as [|n IH]; intros st ws H; simpl; [done|]. destruct ws; [done|].
  apply IH. unfold compress. rewrite length_zip_with, rounds_length; [lia|done].
Qed.

Lemma concat_const_length {A B} (f : A -> list B) k l :
  (forall x, length (f x) = k) -> length (concat (map f l)) = (k * length l)%nat.
Proof. intros Hf. induction l as [|x l IH]; simpl; [lia|]. rewrite length_app, Hf, IH. lia. Qed.

Lemma sha256_hex_length s : length (sha256_hex s) = 64%nat.
Proof.
  unfold sha256_hex, hex. rewrite (concat_const_length _ 2) by done.
  unfold sha256_bytes. rewrite (concat_const_length _ 4); [|intros x; apply be_bytes_length].
  by rewrite blocks_length.
Qed.

(** The digits of the encoding. *)
Definition is_hex (c : ascii) : bool := (byte_in 48 57 c || byte_in 97 102 c)%bool.

Lemma hex_digit_ok n : 0 <= n < 16 -> is_hex (hex_digit n) = true.
Proof.
  intros H.
  assert (forallb (fun k => is_hex (hex_digit (Z.of_nat k))) (seq 0 16) = true) as Hall by done.
  rewrite forallb_forall in Hall. rewrite <- (Z2Nat.id n) by lia. apply Hall, in_seq. lia.
Qed.

Lemma be_bytes_range n x : Forall (fun b => 0 <= b < 256) (be_bytes n x).
Proof.
  revert x. induction n as [|n IH]; intros x; cbn [be_bytes]; [done|].
  apply Forall_app. split; [apply IH|]. apply Forall_singleton.
  change 255 with (Z.ones 8). rewrite Z.land_ones by lia. apply Z.mod_pos_bound. lia.
Qed.

Lemma hex_ok l : Forall (fun b => 0 <= b < 256) l -> Forall (fun c => is_hex c = true) (hex l).
Proof.
  intros H. unfold hex. induction H as [|b l Hb _ IH]; simpl; [done|].
  constructor; [|constructor; [|exact IH]]; apply hex_digit_ok.
  - rewrite Z.shiftr_div_pow2 by lia. change (2 ^ 4) with 16.
    split; [apply Z.div_pos; lia|apply Z.div_lt_upper_bound; lia].
  - change 15 with (Z.ones 4). rewrite Z.land_ones by lia. apply Z.mod_pos_bound. lia.
Qed.

Lemma sha256_hex_ok s : Forall (fun c => is_hex c = true) (sha256_hex s).
Proof.
  apply hex_ok. unfold sha256_bytes. apply Forall_concat, Forall_fmap, Forall_true.
  intros w. apply be_bytes_range.
Qed.
