(* ===== verification/Names.v ===== *)
(** * Deterministic names: internal/kube/names.go and [SessionLockName]

    Go strings are byte lists here; [None] is the run-time panic of a slice
    expression with a negative bound. *)

From S2P Require Import Prelude Utf8 Sha256.
From Stdlib Require Import Ascii.

Definition maxDNSLabelLength : nat := 63.

Definition dash : ascii := "-"%char.
Definition dot : ascii := "."%char.
Definition is_sep (c : ascii) : bool := (Ascii.eqb c dash || Ascii.eqb c dot)%bool.

(** [strings.Trim(s, "-.")] and [strings.TrimRight] *)
Definition trim_left (s : list ascii) : list ascii := drop_while is_sep s.
Definition trim_right (s : list ascii) : list ascii := rev (drop_while is_sep (rev s)).
Definition trim (s : list ascii) : list ascii := trim_right (trim_left s).

(** [strings.ToLower] of one rune, as far as the result can be ASCII: the letters
    A-Z, U+0130 (lower case i) and U+212A (lower case k). *)
Definition lower_rune (r : N) : N :=
  if (N.leb 65 r && N.leb r 90)%bool then (r + 32)%N
  else if N.eqb r 304 then 105%N
  else if N.eqb r 8490 then 107%N
  else r.

Definition name_rune (r : N) : bool :=
  ((N.leb 97 r && N.leb r 122) || (N.leb 48 r && N.leb r 57) || N.eqb r 45 || N.eqb r 46)%bool.

Definition clean_rune (r : N) : ascii :=
  let l := lower_rune r in if name_rune l then ascii_of_N l else dash.

Definition cleanNamePart (value : string) : list ascii := trim (map clean_rune (runes (bytes value))).

Fixpoint join_dash (parts : list (list ascii)) : list ascii :=
  match parts with
  | [] => []
  | [p] => p
  | p :: rest => p ++ dash :: join_dash rest
  end.

(** The digest suffix of a long name. *)
Definition name_hash (raw : string) : list ascii := take 10 (sha256_hex raw).

(** [last[:63-len(prefix)-len(hash)-2]] *)
Definition last_cut (cleanPrefix hash : list ascii) : option nat :=
  if Nat.leb (length cleanPrefix + length hash + 2) maxDNSLabelLength
  then Some (maxDNSLabelLength - length cleanPrefix - length hash - 2) else None.

Definition assemble (cleanPrefix middle last hash : list ascii) : list ascii :=
  cleanPrefix ++ dash :: middle ++ dash :: last ++ dash :: hash.

(** A prefix without parts gets the part "item". *)
Definition or_item (cleanParts : list (list ascii)) : list (list ascii) :=
  match cleanParts with [] => [bytes "item"] | _ => cleanParts end.

Definition BoundedName (prefix : string) (parts : list string) : option (list ascii) :=
  let raw := strings_join "-" (prefix :: parts) in
  let cleanPrefix := cleanNamePart prefix in
  let cleanParts := map cleanNamePart parts in
  let clean := trim (join_dash (cleanPrefix :: cleanParts)) in
  if Nat.leb (length clean) maxDNSLabelLength then Some clean else
  let hash := name_hash raw in
  let cleanParts := or_item cleanParts in
  let last := List.last cleanParts [] in
  let fixed := cleanPrefix ++ dash :: last ++ dash :: hash in
  let shortened :=
    if Nat.leb maxDNSLabelLength (length fixed) then
      match last_cut cleanPrefix hash with
      | None => None
      | Some n =>
          let last := take n last in
          Some (last, cleanPrefix ++ dash :: trim last ++ dash :: hash)
      end
    else Some (last, fixed) in
  match shortened with
  | None => None
  | Some (last, fixed) =>
      let middle := join_dash (removelast cleanParts) in
      let available := maxDNSLabelLength - length fixed - 1 in
      let middle :=
        if Nat.ltb available (length middle) then trim_right (take available middle) else middle in
      let name := match middle with [] => fixed | _ => assemble cleanPrefix middle last hash end in
      Some (trim name)
  end.

(** [SessionLockName] (internal/kube/session_lease.go) *)
Definition sessionLeasePrefix : string := "pvc-migrate-lock-".
Definition SessionLockName (id : string) : list ascii := bytes sessionLeasePrefix ++ take 32 (sha256_hex id).

(** ** Facts *)

Lemma drop_while_suffix {A} (f : A -> bool) l : exists k, l = k ++ drop_while f l /\ Forall (fun x => f x = true) k.
Proof.
  induction l as [|x l IH]; simpl; [by exists []|]. case_test; [|by exists []].
  destruct IH as (k & Hk & Hf). exists (x :: k). split; [by rewrite Hk at 1|by constructor].
Qed.

Lemma drop_while_length {A} (f : A -> bool) l : length (drop_while f l) <= length l.
Proof. destruct (drop_while_suffix f l) as (k & Hk & _). apply (f_equal length) in Hk. rewrite length_app in Hk. lia. Qed.

Lemma drop_while_head {A} (f : A -> bool) l x r : drop_while f l = x :: r -> f x = false.
Proof. induction l as [|y l IH]; simpl; [done|]. case_test; [done|]. by intros [= -> ->]. Qed.

Lemma trim_right_length s : length (trim_right s) <= length s.
Proof. unfold trim_right. rewrite length_rev. etrans; [apply drop_while_length|]. by rewrite length_rev. Qed.

Lemma trim_length s : length (trim s) <= length s.
Proof. unfold trim. etrans; [apply trim_right_length|]. apply drop_while_length. Qed.

Lemma Forall_drop_while {A} (P : A -> Prop) f l : Forall P l -> Forall P (drop_while f l).
Proof. intros H. destruct (drop_while_suffix f l) as (k & Hk & _). rewrite Hk in H. by apply Forall_app in H as []. Qed.

Lemma Forall_trim_right (P : ascii -> Prop) s : Forall P s -> Forall P (trim_right s).
Proof. intros H. apply Forall_rev, Forall_drop_while, Forall_rev, H. Qed.

Lemma Forall_trim (P : ascii -> Prop) s : Forall P s -> Forall P (trim s).
Proof. intros H. by apply Forall_trim_right, Forall_drop_while. Qed.

(** A string that does not start or end with a separator. *)
Definition no_edge (s : list ascii) : Prop :=
  (forall c r, s = c :: r -> is_sep c = false) /\ (forall c r, s = r ++ [c] -> is_sep c = false).

Lemma trim_no_edge s : no_edge (trim s).
Proof.
  unfold trim, trim_right. set (l := trim_left s).
  destruct (drop_while_suffix is_sep (rev l)) as (k & Hk & Hf). split.
  - intros c r Hc.
    assert (l = (c :: r) ++ rev k) as Hl.
    { rewrite <- Hc, <- rev_app_distr, <- Hk. by rewrite rev_involutive. }
    unfold l, trim_left in Hl. simpl in Hl. by eapply drop_while_head.
  - intros c r Hc. apply (f_equal (@rev ascii)) in Hc. rewrite rev_involutive, rev_app_distr in Hc. simpl in Hc.
    by eapply drop_while_head.
Qed.

(** Characters of a name: lower-case letters, digits, '-' and '.'. *)
Definition name_char (c : ascii) : bool := name_rune (byte_val c).

Lemma clean_rune_ok r : name_char (clean_rune r) = true.
Proof.
  unfold clean_rune, name_char. case_test; [|done].
  unfold byte_val. rewrite N_ascii_embedding; [done|].
  revert Heqb. unfold name_rune. rewrite !orb_true_iff, !andb_true_iff, !N.leb_le, !N.eqb_eq. lia.
Qed.

Lemma clean_part_ok v : Forall (fun c => name_char c = true) (cleanNamePart v).
Proof. apply Forall_trim, Forall_fmap, Forall_true. intros r. apply clean_rune_ok. Qed.

Lemma join_dash_ok parts :
  Forall (Forall (fun c => name_char c = true)) parts -> Forall (fun c => name_char c = true) (join_dash parts).
Proof.
  induction 1 as [|p l Hp Hl IH]; [done|]. cbn [join_dash]. destruct l; [done|].
  apply Forall_app. split; [done|]. by constructor.
Qed.

Lemma hash_ok raw : Forall (fun c => name_char c = true) (name_hash raw).
Proof.
  apply Forall_take. eapply Forall_impl; [apply sha256_hex_ok|].
  intros c. unfold is_hex, name_char, name_rune, byte_in.
  rewrite !orb_true_iff, !andb_true_iff, !N.leb_le, !N.eqb_eq. lia.
Qed.

Lemma hash_length raw : length (name_hash raw) = 10.
Proof. unfold name_hash. rewrite length_take, sha256_hex_length. lia. Qed.

(** ** Bounded names *)

Definition last_part (parts : list string) : list ascii :=
  List.last (or_item (map cleanNamePart parts)) [].

(** The final part as it is cut to fit. *)
Definition cut_part (prefix : string) (parts : list string) : list ascii :=
  take (maxDNSLabelLength - length (cleanNamePart prefix) - 10 - 2) (last_part parts).

(** The cut leaves at most one separator at the end of the final part. *)
Definition clean_cut (prefix : string) (parts : list string) : Prop :=
  length (cut_part prefix parts) <= length (trim (cut_part prefix parts)) + 1.

Lemma Forall_last {A} (P : A -> Prop) (l : list A) d : Forall P l -> P d -> P (List.last l d).
Proof. intros Hl Hd. induction Hl as [|x l Hx Hl IH]; [done|]. by destruct l. Qed.

Lemma Forall_removelast {A} (P : A -> Prop) (l : list A) : Forall P l -> Forall P (removelast l).
Proof. induction 1 as [|x l Hx Hl IH]; [done|]. destruct l; [done|]. by constructor. Qed.

Definition name_ok (s : list ascii) : Prop := Forall (fun c => name_char c = true) s.

Lemma assemble_ok a b c d : name_ok a -> name_ok b -> name_ok c -> name_ok d -> name_ok (assemble a b c d).
Proof.
  intros Ha Hb Hc Hd. unfold assemble. apply Forall_app. split; [done|]. constructor; [done|].
  apply Forall_app. split; [done|]. constructor; [done|]. apply Forall_app. split; [done|]. by constructor.
Qed.

Lemma fixed_ok a c d : name_ok a -> name_ok c -> name_ok d -> name_ok (a ++ dash :: c ++ dash :: d).
Proof.
  intros Ha Hc Hd. apply Forall_app. split; [done|]. constructor; [done|].
  apply Forall_app. split; [done|]. by constructor.
Qed.

Lemma parts_ok (parts : list string) :
  Forall name_ok (or_item (map cleanNamePart parts)).
Proof.
  destruct parts as [|p parts]; simpl; [by repeat constructor|].
  constructor; [apply clean_part_ok|]. apply Forall_fmap, Forall_true. intros. apply clean_part_ok.
Qed.

(** Length of the middle part after shortening. *)
Definition fit_middle (available : nat) (middle : list ascii) : list ascii :=
  if Nat.ltb available (length middle) then trim_right (take available middle) else middle.

Lemma fit_middle_length n m : length (fit_middle n m) <= n.
Proof.
  unfold fit_middle. destruct (Nat.ltb_spec n (length m)); [|done].
  etrans; [apply trim_right_length|]. rewrite length_take. lia.
Qed.

Lemma fit_middle_ok n m : name_ok m -> name_ok (fit_middle n m).
Proof. intros H. unfold fit_middle. case_test; [|done]. apply Forall_trim_right, Forall_take, H. Qed.

(** The name of the long branch, from the possibly cut final part. *)
Definition long_name (cleanPrefix last fixed hash middle : list ascii) : list ascii :=
  let middle := fit_middle (maxDNSLabelLength - length fixed - 1) middle in
  trim (match middle with [] => fixed | _ => assemble cleanPrefix middle last hash end).

Lemma long_name_length a last fixed hash m :
  length fixed <= maxDNSLabelLength ->
  length a + length last + length hash + 2 <= length fixed \/
  (length a + length last + length hash + 2 <= length fixed + 1 /\ maxDNSLabelLength <= length fixed + 1) ->
  length (long_name a last fixed hash m) <= maxDNSLabelLength.
Proof.
  intros Hf Hl. unfold long_name. etrans; [apply trim_length|].
  pose proof (fit_middle_length (maxDNSLabelLength - length fixed - 1) m) as Hm.
  destruct (fit_middle _ m) as [|c m'] eqn:E; [done|].
  unfold assemble. rewrite !length_app. cbn [length]. rewrite !length_app. cbn [length] in *. rewrite length_app. cbn.
  destruct Hl as [Hl|[Hl1 Hl2]]; lia.
Qed.

Lemma long_name_ok a last fixed hash m :
  name_ok a -> name_ok last -> name_ok fixed -> name_ok hash -> name_ok m ->
  name_ok (long_name a last fixed hash m) /\ no_edge (long_name a last fixed hash m).
Proof.
  intros Ha Hl Hf Hh Hm. split; [|apply trim_no_edge]. apply Forall_trim.
  pose proof (fit_middle_ok (maxDNSLabelLength - length fixed - 1) m Hm) as Hm'.
  destruct (fit_middle _ m); [done|]. by apply assemble_ok.
Qed.

(** The two branches of [BoundedName]. *)
Lemma BoundedName_cases prefix parts name :
  BoundedName prefix parts = Some name ->
  (length name <= maxDNSLabelLength /\ name_ok name /\ no_edge name) \/
  exists last fixed,
    name = long_name (cleanNamePart prefix) last fixed (name_hash (strings_join "-" (prefix :: parts)))
      (join_dash (removelast (or_item (map cleanNamePart parts)))) /\
    ((last = last_part parts /\ length fixed < maxDNSLabelLength /\
      fixed = cleanNamePart prefix ++ dash :: last ++ dash :: name_hash (strings_join "-" (prefix :: parts))) \/
     (last = cut_part prefix parts /\ length (cleanNamePart prefix) + 12 <= maxDNSLabelLength /\
      maxDNSLabelLength <= length (cleanNamePart prefix) + length (last_part parts) + 12 /\
      fixed = cleanNamePart prefix ++ dash :: trim last ++ dash ::
                name_hash (strings_join "-" (prefix :: parts)))).
Proof.
  unfold BoundedName. set (hash := name_hash _).
  assert (length hash = 10) as Hh by apply hash_length.
  destruct (Nat.leb_spec (length (trim (join_dash (cleanNamePart prefix :: map cleanNamePart parts)))) maxDNSLabelLength)
    as [Hs|Hs].
  { intros [= <-]. left. split_and!; [done| |apply trim_no_edge].
    apply Forall_trim, (join_dash_ok (cleanNamePart prefix :: map cleanNamePart parts)).
    constructor; [apply clean_part_ok|].
    apply Forall_fmap, Forall_true. intros. apply clean_part_ok. }
  fold (last_part parts). intros H. right.
  destruct (Nat.leb_spec maxDNSLabelLength
    (length (cleanNamePart prefix ++ dash :: last_part parts ++ dash :: hash))) as [Hl|Hl].
  - unfold last_cut in H. rewrite Hh in H.
    destruct (Nat.leb_spec (length (cleanNamePart prefix) + 10 + 2) maxDNSLabelLength) as [Hp|Hp]; [|done].
    injection H as <-. exists (cut_part prefix parts). eexists. split; [reflexivity|]. right.
    split_and!; [done|lia| |done].
    rewrite length_app in Hl. cbn [length] in Hl. rewrite length_app in Hl. cbn [length] in Hl. lia.
  - injection H as <-. exists (last_part parts). eexists. split; [reflexivity|]. left. done.
Qed.

Lemma fixed_length (a c d : list ascii) : length (a ++ dash :: c ++ dash :: d) = length a + length c + length d + 2.
Proof. rewrite length_app. cbn [length]. rewrite length_app. cbn [length]. lia. Qed.

(** A bounded name fits a DNS label when the cut is clean.  Every result
    consists of lower-case letters, digits, '-' and '.', starts and ends with a
    letter or digit; and it has at most 63 bytes unless the final part was cut in
    the middle of a run of separators. *)
Theorem BoundedName_label prefix parts name :
  BoundedName prefix parts = Some name ->
  name_ok name /\ no_edge name /\ (clean_cut prefix parts -> length name <= maxDNSLabelLength).
Proof.
  intros H. destruct (BoundedName_cases _ _ _ H) as [(Hl & Ho & He)|(last & fixed & -> & Hc)]; [done|].
  set (hash := name_hash _) in *. assert (length hash = 10) as Hh by apply hash_length.
  pose proof (Forall_last name_ok _ [] (parts_ok parts) ltac:(by constructor)) as Hlast.
  assert (name_ok last /\ name_ok fixed) as [Hlo Hfo].
  { destruct Hc as [(-> & _ & ->)|(-> & _ & _ & ->)].
    - split; [done|]. apply fixed_ok; [apply clean_part_ok|done|apply hash_ok].
    - assert (name_ok (cut_part prefix parts)) as Hco by (by apply Forall_take).
      split; [done|]. apply fixed_ok; [apply clean_part_ok|by apply Forall_trim|apply hash_ok]. }
  destruct (long_name_ok (cleanNamePart prefix) last fixed hash
    (join_dash (removelast (or_item (map cleanNamePart parts))))) as [H1 H2];
    [apply clean_part_ok|done|done|apply hash_ok|apply join_dash_ok, Forall_removelast, parts_ok|].
  split_and!; [done|done|]. intros Hcut. apply long_name_length.
  - destruct Hc as [(-> & Hlt & ->)|(-> & Hp & Hm & ->)]; [lia|].
    rewrite fixed_length. pose proof (trim_length (cut_part prefix parts)) as Ht.
    unfold cut_part in Ht |- *. rewrite length_take in Ht. unfold maxDNSLabelLength in *. lia.
  - destruct Hc as [(-> & Hlt & ->)|(-> & Hp & Hm & ->)]; rewrite fixed_length; [left; lia|].
    unfold clean_cut in Hcut. assert (length (cut_part prefix parts)
      = maxDNSLabelLength - length (cleanNamePart prefix) - 10 - 2) as Hcl.
    { unfold cut_part. rewrite length_take. unfold maxDNSLabelLength in *. lia. }
    unfold maxDNSLabelLength in *. lia.
Qed.

Definition repeat_char (c : ascii) (n : nat) : string := of_bytes (repeat c n).

Lemma BoundedName_label_witness :
  exists name, BoundedName "pvc-migrate-bind" ["mig-1"; repeat_char "a" 80] = Some name /\
    length name <= maxDNSLabelLength.
Proof.
  assert (clean_cut "pvc-migrate-bind" ["mig-1"; repeat_char "a" 80]) as Hc.
  { apply Nat.leb_le. vm_compute. reflexivity. }
  destruct (BoundedName "pvc-migrate-bind" ["mig-1"; repeat_char "a" 80]) as [name|] eqn:E.
  - exists name. split; [reflexivity|]. exact (proj2 (proj2 (BoundedName_label _ _ _ E)) Hc).
  - exfalso. revert E. vm_compute. discriminate.
Defined.


(** The only way to panic is a prefix that leaves no room for the digest. *)
Lemma BoundedName_total prefix parts :
  length (cleanNamePart prefix) <= 51 -> is_Some (BoundedName prefix parts).
Proof.
  intros Hp. unfold BoundedName. case_test; [by eexists|]. case_test; [|by eexists].
  unfold last_cut. rewrite hash_length.
  destruct (Nat.leb_spec (length (cleanNamePart prefix) + 10 + 2) maxDNSLabelLength) as [H|H]; [by eexists|].
  unfold maxDNSLabelLength in H. lia.
Qed.

Lemma SessionLockName_label id :
  length (SessionLockName id) = 49 /\ name_ok (SessionLockName id) /\ no_edge (SessionLockName id).
Proof.
  unfold SessionLockName. assert (length (take 32 (sha256_hex id)) = 32) as Hl.
  { rewrite length_take, sha256_hex_length. lia. }
  assert (Forall (fun c => is_hex c = true) (take 32 (sha256_hex id))) as Hx by apply Forall_take, sha256_hex_ok.
  split_and!.
  - rewrite length_app, Hl. done.
  - apply Forall_app. split; [by repeat constructor|]. eapply Forall_impl; [exact Hx|].
    intros c. unfold is_hex, name_char, name_rune, byte_in.
    rewrite !orb_true_iff, !andb_true_iff, !N.leb_le, !N.eqb_eq. lia.
  - split; [by intros c r [= <- _]|]. intros c r Hr.
    assert (take 32 (sha256_hex id) <> []) as Hne by (intros E; by rewrite E in Hl).
    destruct (exists_last Hne) as (t & x & Ht). rewrite Ht, app_assoc in Hr.
    apply app_inj_tail in Hr as [_ <-]. rewrite Ht in Hx. apply Forall_app in Hx as [_ Hx].
    apply Forall_inv in Hx. unfold is_sep. unfold is_hex, byte_in in Hx.
    destruct (Ascii.eqb_spec x dash) as [->|]; [done|]. by destruct (Ascii.eqb_spec x dot) as [->|].
Qed.
