(* ===== verification/TransferPath.v ===== *)
(** * Transfer paths: internal/domain/transfer.go

    A transfer may be limited to a directory of each volume, given as a path
    relative to the volume root.  Paths are byte strings; [path.Clean] of the Go
    standard library is modelled on the list of slash-separated segments. *)

From S2P Require Import Prelude Utf8 GoErrors Lifecycle.
From Stdlib Require Import Ascii.

Definition VolumeRootPath : string := ".".

Definition slash : ascii := "/"%char.
Definition backslash : ascii := ascii_of_nat 92.

(** [strings.Split(s, "/")] *)
Fixpoint split_slash (s : list ascii) : list (list ascii) :=
  match s with
  | [] => [[]]
  | c :: rest =>
      if Ascii.eqb c slash then [] :: split_slash rest
      else match split_slash rest with
           | seg :: segs => (c :: seg) :: segs
           | [] => [[c]]
           end
  end.

Fixpoint join_slash (segs : list (list ascii)) : list ascii :=
  match segs with
  | [] => []
  | [s] => s
  | s :: rest => s ++ slash :: join_slash rest
  end.

Definition dot_seg : list ascii := bytes ".".
Definition dotdot_seg : list ascii := bytes "..".

(** One segment of [path.Clean]; the segments kept so far, last first. *)
Definition clean_step (rooted : bool) (out : list (list ascii)) (seg : list ascii) : list (list ascii) :=
  if decide (seg = []) then out
  else if decide (seg = dot_seg) then out
  else if decide (seg = dotdot_seg) then
    match out with
    | top :: rest => if decide (top = dotdot_seg) then seg :: out else rest
    | [] => if rooted then [] else [seg]
    end
  else seg :: out.

(** [path.Clean] *)
Definition Clean (s : list ascii) : list ascii :=
  let rooted := match s with c :: _ => Ascii.eqb c slash | [] => false end in
  let out := rev (foldl (clean_step rooted) [] (split_slash s)) in
  match out with
  | [] => if rooted then [slash] else dot_seg
  | _ => if rooted then slash :: join_slash out else join_slash out
  end.

(** [unicode.IsControl] *)
Definition IsControl (r : N) : bool := (N.leb r 31 || (N.leb 127 r && N.leb r 159))%bool.

Definition IsAbs (s : list ascii) : bool :=
  match s with c :: _ => Ascii.eqb c slash | [] => false end.

Definition NormalizeTransferPath (value : string) : result string :=
  let value := TrimSpace value in
  if ((value =s "") || (value =s VolumeRootPath))%bool then inl VolumeRootPath else
  let b := bytes value in
  if Nat.ltb 4096 (length b) then inr (EText "path exceeds 4096 bytes") else
  if IsAbs b then inr (EText (sprint ["path "; quoted value; " must be relative to the PVC root"])) else
  if contains b backslash then
    inr (EText (sprint ["path "; quoted value; " contains a backslash; use slash-separated PVC paths"])) else
  if existsb (fun r => N.eqb r 0 || IsControl r)%bool (runes b) then
    inr (EText "path contains a control character") else
  if contains (split_slash b) dotdot_seg then
    inr (EText (sprint ["path "; quoted value; " contains parent traversal"])) else
  let cleaned := Clean b in
  if (bool_decide (cleaned = dotdot_seg)
      || bool_decide (take 3 cleaned = bytes "../"))%bool then
    inr (EText (sprint ["path "; quoted value; " escapes the PVC root"])) else
  inl (of_bytes cleaned).

(** [v1alpha1.TransferScope] *)
Record TransferScope := { SourcePath : string; DestinationPath : string }.

(** A nil scope is [inl None]. *)
Definition NewTransferScope (sourcePath destinationPath : string) : result (option TransferScope) :=
  match NormalizeTransferPath sourcePath with
  | inr e => inr (EWrap ("source path: " +:+ error_text e) e)
  | inl source =>
      match NormalizeTransferPath destinationPath with
      | inr e => inr (EWrap ("destination path: " +:+ error_text e) e)
      | inl destination =>
          if ((source =s VolumeRootPath) && (destination =s VolumeRootPath))%bool then inl None
          else inl (Some {| SourcePath := source; DestinationPath := destination |})
      end
  end.

Definition ValidateTransferScope (scope : option TransferScope) : option err :=
  match scope with
  | None => None
  | Some scope =>
      match NormalizeTransferPath (SourcePath scope) with
      | inr e => Some (EWrap ("source path: " +:+ error_text e) e)
      | inl source =>
          match NormalizeTransferPath (DestinationPath scope) with
          | inr e => Some (EWrap ("destination path: " +:+ error_text e) e)
          | inl destination =>
              if ((source <>s SourcePath scope) || (destination <>s DestinationPath scope))%bool then
                Some (EText "paths must be stored in normalized form")
              else if ((source =s VolumeRootPath) && (destination =s VolumeRootPath))%bool then
                Some (EText "full-volume transfers must omit transferScope")
              else None
          end
      end
  end.

Definition SourceTransferPath (scope : option TransferScope) : string :=
  match scope with None => VolumeRootPath | Some s => SourcePath s end.

Definition DestinationTransferPath (scope : option TransferScope) : string :=
  match scope with None => VolumeRootPath | Some s => DestinationPath s end.

(** ** Segments *)

Definition plain (seg : list ascii) : Prop := slash ∉ seg.

Lemma split_nonempty s : split_slash s <> [].
Proof. destruct s as [|c s]; simpl; [done|]. case_test; [done|]. by destruct (split_slash s). Qed.

Lemma split_plain s : Forall plain (split_slash s).
Proof.
  induction s as [|c s IH]; simpl; [repeat constructor; apply not_elem_of_nil|].
  destruct (Ascii.eqb_spec c slash) as [->|Hc]; [constructor; [apply not_elem_of_nil|done]|].
  destruct (split_slash s) as [|seg segs]; inversion IH; subst.
  - repeat constructor. unfold plain. set_solver.
  - constructor; [unfold plain in *; set_solver|done].
Qed.

Lemma join_split s : join_slash (split_slash s) = s.
Proof.
  induction s as [|c s IH]; [done|]. simpl. pose proof (split_nonempty s) as Hne.
  destruct (Ascii.eqb_spec c slash) as [->|Hc].
  - destruct (split_slash s) as [|seg segs]; [done|].
    change (slash :: join_slash (seg :: segs) = slash :: s). by rewrite IH.
  - destruct (split_slash s) as [|seg segs]; [done|]. by destruct segs; simpl in *; subst.
Qed.

Lemma split_app_slash a s : plain a -> split_slash (a ++ slash :: s) = a :: split_slash s.
Proof.
  induction a as [|c a IH]; intros Ha; [done|]. simpl.
  destruct (Ascii.eqb_spec c slash) as [->|Hc]; [unfold plain in Ha; set_solver|].
  rewrite IH; [done|]. unfold plain in *. set_solver.
Qed.

Lemma split_single a : plain a -> split_slash a = [a].
Proof.
  induction a as [|c a IH]; intros Ha; [done|]. simpl.
  destruct (Ascii.eqb_spec c slash) as [->|Hc]; [unfold plain in Ha; set_solver|].
  rewrite IH; [done|]. unfold plain in *. set_solver.
Qed.

Lemma split_join segs : Forall plain segs -> segs <> [] -> split_slash (join_slash segs) = segs.
Proof.
  induction 1 as [|s l Hs Hl IH]; [done|]. intros _. destruct l as [|s' l]; [by apply split_single|].
  change (join_slash (s :: s' :: l)) with (s ++ slash :: join_slash (s' :: l)).
  rewrite split_app_slash by done. by rewrite IH.
Qed.

(** A segment [Clean] keeps as it is. *)
Definition kept (seg : list ascii) : Prop := seg <> [] /\ seg <> dot_seg /\ seg <> dotdot_seg.

(** Without parent segments, [Clean] just drops the empty and dot segments. *)
Definition keep (seg : list ascii) : bool := bool_decide (seg <> [] /\ seg <> dot_seg).

Lemma clean_fold rooted segs out :
  dotdot_seg ∉ segs ->
  rev (foldl (clean_step rooted) out segs) = rev out ++ List.filter keep segs.
Proof.
  revert out. induction segs as [|seg segs IH]; intros out Hn; [by rewrite app_nil_r|].
  cbn [foldl]. rewrite IH by set_solver. unfold clean_step, keep at 2. cbn [List.filter].
  destruct (decide (seg = [])) as [->|H1]; [done|].
  destruct (decide (seg = dot_seg)) as [->|H2]; [done|].
  destruct (decide (seg = dotdot_seg)) as [->|H3]; [set_solver|].
  rewrite bool_decide_eq_true_2 by done. cbn [rev]. by rewrite <- app_assoc.
Qed.

Lemma Clean_relative s :
  IsAbs s = false -> dotdot_seg ∉ split_slash s ->
  Clean s = match List.filter keep (split_slash s) with [] => dot_seg | out => join_slash out end.
Proof.
  intros Ha Hn. unfold Clean. unfold IsAbs in Ha. rewrite Ha, clean_fold by done. simpl.
  by destruct (List.filter keep (split_slash s)).
Qed.

Lemma kept_filter s :
  dotdot_seg ∉ split_slash s ->
  Forall (fun seg => plain seg /\ kept seg /\ seg ∈ split_slash s) (List.filter keep (split_slash s)).
Proof.
  intros Hn. apply Forall_forall. intros seg Hin. apply list_elem_of_In, filter_In in Hin as [Hin Hk].
  apply list_elem_of_In in Hin. apply bool_decide_eq_true in Hk as [H1 H2].
  pose proof (split_plain s) as Hp. rewrite Forall_forall in Hp.
  split_and!; [by apply Hp| |done]. split_and!; [done|done|]. intros ->. done.
Qed.

(** ** Runes and slashes *)

Lemma rune_width_slash b s t : rune_width ((b :: s) ++ slash :: t) = rune_width (b :: s).
Proof.
  assert (cont slash = false) as H1 by reflexivity.
  assert (byte_in 160 191 slash = false) as H2 by reflexivity.
  assert (byte_in 128 159 slash = false) as H3 by reflexivity.
  assert (byte_in 144 191 slash = false) as H4 by reflexivity.
  assert (byte_in 128 143 slash = false) as H5 by reflexivity.
  destruct s as [|b1 [|b2 [|b3 r]]]; [..|done]; unfold rune_width; cbn [app];
    rewrite ?H1, ?H2, ?H3, ?H4, ?H5, ?andb_false_r, ?orb_false_r; cbn [andb orb];
    repeat (case_match; simplify_eq; try done).
Qed.

Lemma rune_value_app w x y : 1 <= w <= 4 -> w <= length x -> rune_value w (x ++ y) = rune_value w x.
Proof.
  intros Hw Hl. destruct x as [|b0 [|b1 [|b2 [|b3 r]]]], w as [|[|[|[|[|w]]]]]; simpl in *; try lia; done.
Qed.

Lemma decode_rune_slash b s t : decode_rune ((b :: s) ++ slash :: t) = decode_rune (b :: s).
Proof.
  unfold decode_rune. rewrite rune_width_slash. destruct (rune_width (b :: s)) as [w|] eqn:Hw; [|done].
  destruct (rune_width_bounds _ _ Hw) as [H1 H2]. by rewrite rune_value_app.
Qed.

Lemma decode_rune_width b s : 1 <= (decode_rune (b :: s)).2 <= length (b :: s).
Proof.
  unfold decode_rune. destruct (rune_width (b :: s)) as [w|] eqn:Hw; simpl; [|lia].
  destruct (rune_width_bounds _ _ Hw) as [H1 H2]. simpl in H2. lia.
Qed.

Lemma runes_fuel_enough n m s : length s <= n -> length s <= m -> runes_fuel n s = runes_fuel m s.
Proof.
  revert m s. induction n as [|n IH]; intros m [|b s] Hn Hm; cbn [length] in *; try lia; try (by destruct m).
  destruct m as [|m]; [lia|]. cbn [runes_fuel]. pose proof (decode_rune_width b s) as Hd.
  destruct (decode_rune (b :: s)) as [r w]. cbn [snd] in Hd. f_equal.
  apply IH; rewrite length_drop; cbn [length] in *; lia.
Qed.

Lemma runes_cons b s : runes (b :: s) = (decode_rune (b :: s)).1 :: runes (drop (decode_rune (b :: s)).2 (b :: s)).
Proof.
  unfold runes. cbn [length runes_fuel]. pose proof (decode_rune_width b s) as Hd.
  destruct (decode_rune (b :: s)) as [r w]. cbn [fst snd] in *. f_equal.
  apply runes_fuel_enough; rewrite length_drop; cbn [length] in *; lia.
Qed.

(** A slash never belongs to a longer rune: the text splits at it. *)
Lemma runes_slash n a t : length a <= n -> runes (a ++ slash :: t) = runes a ++ runes (slash :: t).
Proof.
  revert a. induction n as [|n IH]; intros [|b a] Hl; cbn [length] in Hl; try lia; [done|done|].
  rewrite (runes_cons b a). change ((b :: a) ++ slash :: t) with (b :: (a ++ slash :: t)).
  rewrite (runes_cons b (a ++ slash :: t)).
  change (b :: a ++ slash :: t) with ((b :: a) ++ slash :: t).
  rewrite decode_rune_slash. pose proof (decode_rune_width b a) as Hd.
  rewrite drop_app_le by lia. cbn [app]. f_equal. apply IH. rewrite length_drop. cbn [length] in *. lia.
Qed.

Lemma runes_slash_cons t : runes (slash :: t) = 47%N :: runes t.
Proof. rewrite runes_cons. done. Qed.

Definition control_free (s : list ascii) : Prop :=
  existsb (fun r => N.eqb r 0 || IsControl r)%bool (runes s) = false.

Lemma control_free_join segs : control_free (join_slash segs) <-> Forall control_free segs.
Proof.
  induction segs as [|s l IH]; [by split|]. destruct l as [|s' l].
  - rewrite Forall_singleton. done.
  - change (join_slash (s :: s' :: l)) with (s ++ slash :: join_slash (s' :: l)).
    rewrite (Forall_cons _ s), <- IH. unfold control_free.
    rewrite (runes_slash (length s)), runes_slash_cons by done. rewrite existsb_app, orb_false_iff. done.
Qed.

(** ** Joining *)

Lemma elem_join c segs : c ∈ join_slash segs -> c = slash \/ exists seg, seg ∈ segs /\ c ∈ seg.
Proof.
  induction segs as [|s l IH]; simpl; [set_solver|]. destruct l as [|s' l].
  - intros H. right. exists s. set_solver.
  - rewrite elem_of_app, elem_of_cons. intros [H|[->|H]]; [right; exists s; set_solver|by left|].
    destruct (IH H) as [->|(seg & H1 & H2)]; [by left|]. right. exists seg. set_solver.
Qed.

Lemma elem_seg c seg segs : seg ∈ segs -> c ∈ seg -> c ∈ join_slash segs.
Proof.
  induction segs as [|s l IH]; [set_solver|]. intros Hs Hc. destruct l as [|s' l].
  - apply list_elem_of_singleton in Hs as ->. done.
  - change (join_slash (s :: s' :: l)) with (s ++ slash :: join_slash (s' :: l)).
    apply elem_of_app. apply elem_of_cons in Hs as [->|Hs]; [by left|right; right; auto].
Qed.

Lemma length_join_filter (f : list ascii -> bool) segs :
  length (join_slash (List.filter f segs)) <= length (join_slash segs).
Proof.
  assert (forall s l, length (join_slash (s :: l)) = length s + match l with [] => 0 | _ => S (length (join_slash l)) end)
    as Hj.
  { intros s [|s' l]; [simpl; lia|].
    change (join_slash (s :: s' :: l)) with (s ++ slash :: join_slash (s' :: l)). rewrite length_app. simpl. lia. }
  induction segs as [|s l IH]; [done|]. cbn [List.filter]. destruct (f s).
  - rewrite !Hj. destruct l as [|s' l]; [done|]. destruct (List.filter f (s' :: l)) eqn:E; [lia|].
    rewrite <- E in *. lia.
  - rewrite Hj. destruct l as [|s' l]; [simpl; lia|]. lia.
Qed.

(** ** Normalized paths *)

(** A normalized path: the root, or non-empty segments without dots, slashes,
    backslashes and control characters, of at most 4096 bytes. *)
Definition normalized (p : list ascii) : Prop :=
  p = dot_seg \/
  exists segs, segs <> [] /\ p = join_slash segs /\
    Forall (fun seg => plain seg /\ kept seg /\ control_free seg /\ backslash ∉ seg) segs /\ length p <= 4096.

Lemma join_kept_head segs : segs <> [] -> Forall (fun seg => plain seg /\ kept seg) segs -> IsAbs (join_slash segs) = false.
Proof.
  destruct segs as [|s l]; [done|]. intros _ H. apply Forall_inv in H as [Hp (Hne & _)].
  destruct s as [|c s]; [done|]. assert (c <> slash) as Hc by (unfold plain in Hp; set_solver).
  destruct l; simpl; by destruct (Ascii.eqb_spec c slash).
Qed.

Lemma normalize_normalized v p : NormalizeTransferPath v = inl p -> normalized (bytes p).
Proof.
  unfold NormalizeTransferPath. case_test; [intros [= <-]; by left|].
  case_test; [done|]. destruct (IsAbs (bytes (TrimSpace v))) eqn:Ha; [done|].
  case_test; [done|]. case_test; [done|]. case_test; [done|]. case_test; [done|].
  intros [= <-]. rewrite bytes_of_bytes. set (b := bytes (TrimSpace v)) in *.
  apply contains_false in Heqb1, Heqb3. apply Nat.ltb_ge in Heqb0.
  rewrite Clean_relative by done. pose proof (kept_filter b Heqb3) as Hk.
  pose proof (length_join_filter keep (split_slash b)) as Hl. rewrite join_split in Hl.
  destruct (List.filter keep (split_slash b)) as [|s l] eqn:E; [by left|]. right.
  exists (s :: l). split_and!; [done|done| |lia].
  assert (Forall control_free (split_slash b)) as Hcf by (apply control_free_join; by rewrite join_split).
  rewrite Forall_forall in Hcf. eapply Forall_impl; [exact Hk|]. intros seg (H1 & H2 & H3).
  split_and!; [done|done|by apply Hcf|]. intros Hb. apply Heqb1. rewrite <- (join_split b). by eapply elem_seg.
Qed.

Lemma filter_kept segs : Forall kept segs -> List.filter keep segs = segs.
Proof.
  induction 1 as [|s l (H1 & H2 & _) Hl IH]; [done|]. cbn [List.filter]. unfold keep at 1.
  by rewrite bool_decide_eq_true_2, IH.
Qed.

Lemma normalize_fixpoint p : normalized (bytes p) -> TrimSpace p = p -> NormalizeTransferPath p = inl p.
Proof.
  intros Hn Ht. unfold NormalizeTransferPath. rewrite Ht. case_test.
  { apply orb_true_iff in Heqb as [H|H]; bool_prop; subst; [|done]. exfalso.
    destruct Hn as [Hn|(segs & Hne & Hj & Hf & _)]; [done|]. destruct segs as [|s l]; [done|].
    apply Forall_inv in Hf as (_ & (Hs & _) & _). destruct s; [done|]. by destruct l. }
  bool_prop. destruct Hn as [Hn|(segs & Hne & Hj & Hf & Hl)].
  { exfalso. apply H0. rewrite <- (of_bytes_bytes p), Hn. done. }
  assert (Forall plain segs /\ Forall kept segs /\ Forall control_free segs /\ Forall (fun s => backslash ∉ s) segs)
    as (Hp & Hk & Hc & Hb).
  { split_and!; (eapply Forall_impl; [exact Hf|]); naive_solver. }
  assert (IsAbs (bytes p) = false) as Ha.
  { rewrite Hj. apply join_kept_head; [done|]. eapply Forall_impl; [exact Hf|]. naive_solver. }
  assert (split_slash (bytes p) = segs) as Hs by (rewrite Hj; by apply split_join).
  destruct (Nat.ltb_spec 4096 (length (bytes p))); [lia|]. rewrite Ha.
  assert (backslash ∉ bytes p) as Hbs.
  { rewrite Hj. intros Hin. apply elem_join in Hin as [?|(seg & Hs1 & Hs2)]; [done|].
    rewrite Forall_forall in Hb. by eapply Hb. }
  apply contains_false in Hbs. rewrite Hbs.
  apply control_free_join in Hc. rewrite <- Hj in Hc. unfold control_free in Hc. rewrite Hc.
  assert (dotdot_seg ∉ segs) as Hdd.
  { intros Hin. rewrite Forall_forall in Hk. by destruct (Hk _ Hin) as (_ & _ & ?). }
  rewrite Hs. apply contains_false in Hdd as Hcd. rewrite Hcd.
  assert (Clean (bytes p) = bytes p) as Hclean.
  { rewrite Clean_relative by (rewrite ?Hs; done). rewrite Hs, filter_kept by done.
    destruct segs; [done|]. by rewrite Hj. }
  rewrite Hclean.
  assert (bytes p <> dotdot_seg) as Hne1.
  { intros E. rewrite E in Hs. apply Hdd. rewrite <- Hs. left. }
  assert (take 3 (bytes p) <> bytes "../") as Hne2.
  { intros E. apply Hdd. rewrite <- Hs, <- (take_drop 3 (bytes p)), E.
    change (bytes "../" ++ drop 3 (bytes p)) with (dotdot_seg ++ slash :: drop 3 (bytes p)).
    rewrite split_app_slash; [left|unfold plain; set_solver]. }
  rewrite !bool_decide_eq_false_2 by done. cbn [orb]. by rewrite of_bytes_bytes.
Qed.

(** A normalized transfer path never escapes the volume.  Whatever the input,
    an accepted path is the volume root or a relative path of at most 4096 bytes
    whose segments are non-empty, are neither "." nor "..", and contain no slash,
    backslash or control character. *)
Theorem transfer_path_confined v p : NormalizeTransferPath v = inl p -> normalized (bytes p).
Proof. apply normalize_normalized. Qed.

Lemma transfer_path_confined_witness : normalized (bytes "data/db").
Proof. apply (transfer_path_confined "./data//db/ "). vm_compute. reflexivity. Defined.

(** A stored scope without outer spaces passes its own validation.  The scope
    built from two accepted paths is accepted by [ValidateTransferScope] when
    neither normalized path starts or ends with white space. *)
Theorem transfer_scope_roundtrip src dst scope :
  NewTransferScope src dst = inl (Some scope) ->
  TrimSpace (SourcePath scope) = SourcePath scope ->
  TrimSpace (DestinationPath scope) = DestinationPath scope ->
  ValidateTransferScope (Some scope) = None.
Proof.
  unfold NewTransferScope, ValidateTransferScope.
  destruct (NormalizeTransferPath src) as [s|] eqn:Hs; [|done].
  destruct (NormalizeTransferPath dst) as [d|] eqn:Hd; [|done].
  case_test; [done|]. intros [= <-]. cbn [SourcePath DestinationPath]. intros Ht1 Ht2.
  apply normalize_normalized in Hs, Hd.
  rewrite !normalize_fixpoint by done. rewrite !String.eqb_refl. cbn [negb orb]. by rewrite Heqb.
Qed.

Lemma transfer_scope_roundtrip_witness :
  ValidateTransferScope (Some {| SourcePath := "data"; DestinationPath := "backup/data" |}) = None.
Proof.
  apply (transfer_scope_roundtrip " data/" "./backup//data"); vm_compute; reflexivity.
Defined.

(** Normalization is not idempotent.  Trimming happens before cleaning, so
    a leading dot segment hides white space: the scope that [NewTransferScope]
    builds from "./ data" is rejected by [ValidateTransferScope] as not being in
    normalized form. *)
Theorem transfer_scope_rejected :
  exists scope,
    NewTransferScope "./ data" "." = inl (Some scope) /\
    ValidateTransferScope (Some scope) = Some (EText "paths must be stored in normalized form").
Proof.
  exists {| SourcePath := " data"; DestinationPath := "." |}. split; vm_compute; reflexivity.
Qed.
