(* ===== verification/Prog.v ===== *)
(** * Effectful programs and their traces

    Go code that talks to the API server is translated to a tree of requests:
    a node issues a request and continues with the response, a leaf returns.
    The tree fixes exactly which requests the code issues, in which order and
    with which arguments, for every possible sequence of responses; nothing is
    assumed about the server.  [OutOfFuel] is the leaf of a loop that used up the
    number of iterations its model was given: it stands for "still running", so
    a statement on traces that holds for every fuel holds for every finite prefix
    of the real execution.

    [run] executes a program against a handler (any deterministic server state
    machine); [wp] is the weakest-precondition predicate transformer in which
    every request must satisfy a guard on the trace before it; [wp_adequate]
    connects the two. *)

From S2P Require Import Prelude GoErrors Lifecycle.

Inductive prog (E : Type) (R : E -> Type) (A : Type) : Type :=
| Ret (a : A)
| OutOfFuel
| Vis (r : E) (k : R r -> prog E R A).
Arguments Ret {E R A} a.
Arguments OutOfFuel {E R A}.
Arguments Vis {E R A} r k.

Section prog.
Context {E : Type} {R : E -> Type}.

Fixpoint prog_bind {A B} (f : A -> prog E R B) (p : prog E R A) : prog E R B :=
  match p with
  | Ret a => f a
  | OutOfFuel => OutOfFuel
  | Vis r k => Vis r (fun x => prog_bind f (k x))
  end.

#[global] Instance prog_ret : MRet (prog E R) := fun A a => Ret a.
#[global] Instance prog_mbind : MBind (prog E R) := fun A B f p => prog_bind f p.

Definition call (r : E) : prog E R (R r) := Vis r Ret.

(** An event is a request with its response; a history is a list of events,
    the latest first. *)
Inductive event := Ev (r : E) (x : R r).
Definition history := list event.

(** A handler answers requests from a state of its own. *)
Definition handler (W : Type) := forall r : E, W -> R r * W.

Fixpoint run {W A} (H : handler W) (p : prog E R A) (w : W) (h : history) : option A * W * history :=
  match p with
  | Ret a => (Some a, w, h)
  | OutOfFuel => (None, w, h)
  | Vis r k => let xw := H r w in run H (k xw.1) xw.2 (Ev r xw.1 :: h)
  end.

(** Every request of [p] satisfies [G] of the history before it, and every
    result satisfies [Q], whatever the responses. *)
Fixpoint wp {A} (G : history -> E -> Prop) (p : prog E R A) (Q : A -> history -> Prop)
    (h : history) : Prop :=
  match p with
  | Ret a => Q a h
  | OutOfFuel => True
  | Vis r k => G h r /\ forall x, wp G (k x) Q (Ev r x :: h)
  end.

(** The requests issued since [h0] all satisfied the guard. *)
Definition calls_ok (G : history -> E -> Prop) (h0 h : history) : Prop :=
  forall r x h1, Ev r x :: h1 `suffix_of` h -> h0 `suffix_of` h1 -> G h1 r.

Section lemmas.
Context {A : Type} (G : history -> E -> Prop).
Implicit Types (p : prog E R A) (Q : A -> history -> Prop) (h : history).

Lemma wp_bind {B} (f : A -> prog E R B) p (Q : B -> history -> Prop) h :
  wp G (p ≫= f) Q h <-> wp G p (fun a h' => wp G (f a) Q h') h.
Proof.
  revert h. induction p as [a| |r k IH]; intros h; [done|done|]. simpl.
  split; (intros [H1 H2]; split; [done|]; intros x; by apply IH).
Qed.

Lemma wp_mono p Q Q' h :
  wp G p Q h -> (forall a h', h `suffix_of` h' -> Q a h' -> Q' a h') -> wp G p Q' h.
Proof.
  revert h. induction p as [a| |r k IH]; intros h; simpl.
  - intros H HQ. by apply HQ.
  - done.
  - intros [H1 H2] HQ. split; [done|]. intros x. eapply IH; [apply H2|].
    intros a h' Hs. apply HQ. by eapply suffix_cons_l.
Qed.

(** The guard may be weakened by what already happened before [h]. *)
Lemma wp_guard_mono (G' : history -> E -> Prop) p Q h :
  wp G p Q h -> (forall h' r, h `suffix_of` h' -> G h' r -> G' h' r) -> wp G' p Q h.
Proof.
  revert h. induction p as [a| |r k IH]; intros h; simpl; [done|done|].
  intros [H1 H2] HG. split; [by apply HG|]. intros x. apply IH; [apply H2|].
  intros h' r' Hs. apply HG. by eapply suffix_cons_l.
Qed.

Lemma wp_extends p Q h :
  wp G p (fun a h' => h `suffix_of` h' -> Q a h') h -> wp G p Q h.
Proof. intros H. eapply wp_mono; [apply H|]. auto. Qed.

Lemma run_suffix {W} (H : handler W) p w h :
  h `suffix_of` (run H p w h).2.
Proof.
  revert w h. induction p as [a| |r k IH]; intros w h; simpl; [done|done|].
  by eapply suffix_cons_l, IH.
Qed.

Lemma run_bind {W B} (H : handler W) p (f : A -> prog E R B) w h :
  run H (p ≫= f) w h =
  match run H p w h with
  | (Some a, w', h') => run H (f a) w' h'
  | (None, w', h') => (None, w', h')
  end.
Proof.
  revert w h. induction p as [a| |r k IH]; intros w h; [done|done|]. apply IH.
Qed.

Lemma calls_ok_refl h : calls_ok G h h.
Proof.
  intros r x h1 H1 H2. exfalso. apply suffix_length in H1, H2. simpl in H1. lia.
Qed.

Lemma calls_ok_mono (G' : history -> E -> Prop) h0 h :
  (forall h1 r, G h1 r -> G' h1 r) -> calls_ok G h0 h -> calls_ok G' h0 h.
Proof. intros HG Hc r x h1 H1 H2. by eapply HG, Hc. Qed.

Lemma suffix_same_length (h1 h2 h : history) :
  h1 `suffix_of` h -> h2 `suffix_of` h -> length h1 = length h2 -> h1 = h2.
Proof.
  intros [k1 ->] [k2 Hk] Hl. apply app_inj_2 in Hk as [_ ->]; [done|done].
Qed.

Lemma calls_ok_step r x h h' :
  G h r -> Ev r x :: h `suffix_of` h' -> calls_ok G (Ev r x :: h) h' -> calls_ok G h h'.
Proof.
  intros HG Hs Hok r' x' h1 H1 H2.
  assert (length h <= length h1) as Hl by (by apply suffix_length).
  destruct (decide (length h = length h1)) as [He|He].
  - assert (Ev r x :: h = Ev r' x' :: h1) as Heq.
    { eapply suffix_same_length; [done|done|]. simpl. lia. }
    inversion Heq. by subst.
  - apply (Hok _ x' _ H1).
    assert (h1 `suffix_of` h') as H1' by (by eapply suffix_cons_l).
    destruct (suffix_weak_total h1 (Ev r x :: h) h') as [Hc|Hc]; [done|done| |done].
    apply suffix_length in Hc. simpl in Hc.
    assert (h1 = Ev r x :: h) as ->; [|done].
    eapply suffix_same_length; [done|done|]. simpl. lia.
Qed.

(** Adequacy: against any handler, from any state, the execution's result
    satisfies the postcondition and each of its requests the guard. *)
Lemma wp_adequate {W} (H : handler W) p Q w h :
  wp G p Q h ->
  calls_ok G h (run H p w h).2 /\
  (forall a, (run H p w h).1.1 = Some a -> Q a (run H p w h).2).
Proof.
  revert w h. induction p as [a| |r k IH]; intros w h; simpl.
  - intros HQ. split; [apply calls_ok_refl|]. by intros a' [= <-].
  - intros _. split; [apply calls_ok_refl|done].
  - intros [HG Hk]. destruct (IH _ (H r w).2 _ (Hk (H r w).1)) as [Hc Hq].
    split; [|done]. eapply calls_ok_step; [done| |done]. apply run_suffix.
Qed.
End lemmas.

Lemma suffix_elem (h h' : history) e : h `suffix_of` h' -> e ∈ h -> e ∈ h'.
Proof. intros [k ->] He. apply elem_of_app. by right. Qed.

End prog.
Arguments event {E} R.
Arguments history {E} R.
Arguments Ev {E R} r x.

(** ** Early returns

  [from_err e] is the result of a function that returns the error [e]. *)
Class FromErr (T : Type) := from_err : err -> T.
#[global] Instance from_err_option : FromErr (option err) := Some.
#[global] Instance from_err_result {A} : FromErr (result A) := inr.

(** [if err := p; err != nil { return err }; k] *)
Definition check {E R T} `{FromErr T} (p : prog E R (option err)) (k : prog E R T) : prog E R T :=
  p ≫= fun e => match e with Some x => Ret (from_err x) | None => k end.

(** [x, err := p; if err != nil { return err }; k x] *)
Definition try {E R T A} `{FromErr T} (p : prog E R (result A)) (k : A -> prog E R T) : prog E R T :=
  p ≫= fun r => match r with inr x => Ret (from_err x) | inl a => k a end.

Notation "'check:' p ; k" := (check p k) (at level 100, p at level 99, k at level 200,
  format "check:  p ; '//' k").
Notation "'try:' x ← p ; k" := (try p (fun x => k)) (at level 100, x binder, p at level 99, k at level 200,
  format "try:  x  ←  p ; '//' k").
Notation "'fail' e" := (Ret (from_err e)) (at level 10, e at level 9).

Section rules.
Context {E : Type} {R : E -> Type} (G : history R -> E -> Prop).

Lemma wp_check {T} `{FromErr T} p (k : prog E R T) Q h :
  wp G p (fun e h' => match e with Some x => Q (from_err x) h' | None => wp G k Q h' end) h ->
  wp G (check p k) Q h.
Proof.
  intros Hp. unfold check. rewrite wp_bind. eapply wp_mono; [exact Hp|].
  by intros [e|] h' _.
Qed.

Lemma wp_check_Ret {T} `{FromErr T} e (k : prog E R T) Q h :
  match e with Some x => Q (from_err x) h | None => wp G k Q h end -> wp G (check (Ret e) k) Q h.
Proof. by destruct e. Qed.

Lemma wp_Ret {A} (a : A) (Q : A -> history R -> Prop) h : Q a h -> wp G (Ret a) Q h.
Proof. done. Qed.

Lemma wp_try {T A} `{FromErr T} (p : prog E R (result A)) (k : A -> prog E R T) Q h :
  wp G p (fun r h' => match r with inr x => Q (from_err x) h' | inl a => wp G (k a) Q h' end) h ->
  wp G (try p k) Q h.
Proof.
  intros Hp. unfold try. rewrite wp_bind. eapply wp_mono; [exact Hp|].
  by intros [a|e] h' _.
Qed.

Lemma wp_Call r (Q : R r -> history R -> Prop) h :
  G h r -> (forall x, Q x (Ev r x :: h)) -> wp G (call r) Q h.
Proof. done. Qed.

Lemma wp_bind_2 {A B} (f : A -> prog E R B) p Q h :
  wp G p (fun a h' => wp G (f a) Q h') h -> wp G (p ≫= f) Q h.
Proof. apply wp_bind. Qed.
End rules.

#[global] Arguments wp : simpl never.
#[global] Arguments check : simpl never.
#[global] Arguments try : simpl never.
