(* ===== verification/KubeTypes.v ===== *)
(** * Kubernetes objects and pvc-migrate metadata

    The fields of the core API objects that the modelled code reads or writes,
    the references it records (api/v1alpha1: ObjectReference), its metadata keys
    (internal/kube/metadata.go) and reference constructors
    (internal/kube/references.go).  A Go map that may be nil is a [gmap], nil
    being the empty map: the code only reads such maps or allocates them before
    writing. *)

From S2P Require Import Prelude GoErrors Lifecycle.

(** ** References *)

Record ObjectReference := {
  APIVersion : string;
  Kind : string;
  Namespace : string;
  Name : string;
  UID : string;
  ResourceVersion : string
}.

#[global] Instance ObjectReference_eq_dec : EqDecision ObjectReference.
Proof. solve_decision. Defined.

Definition empty_reference : ObjectReference :=
  {| APIVersion := ""; Kind := ""; Namespace := ""; Name := ""; UID := ""; ResourceVersion := "" |}.

Definition CoreAPIVersion : string := "v1".
Definition KindPod : string := "Pod".
Definition KindPersistentVolumeClaim : string := "PersistentVolumeClaim".
Definition KindPersistentVolume : string := "PersistentVolume".

(** [v1alpha1.LocalResourceReference]: a reference without a namespace. *)
Record LocalResourceReference := {
  local_APIVersion : string;
  local_Kind : string;
  local_Name : string;
  local_UID : string;
  local_ResourceVersion : string
}.

(** [app.qualifiedResourceReference], [app.localResourceReference] *)
Definition qualifiedResourceReference (ref : LocalResourceReference) (namespace : string) : ObjectReference :=
  {| APIVersion := local_APIVersion ref; Kind := local_Kind ref; Namespace := namespace;
     Name := local_Name ref; UID := local_UID ref; ResourceVersion := local_ResourceVersion ref |}.

Definition localResourceReference (ref : ObjectReference) : LocalResourceReference :=
  {| local_APIVersion := APIVersion ref; local_Kind := Kind ref; local_Name := Name ref;
     local_UID := UID ref; local_ResourceVersion := ResourceVersion ref |}.

(** ** Metadata keys *)

Definition ManagedByLabel : string := "app.kubernetes.io/managed-by".
Definition ManagedByValue : string := "pvc-migrate".
Definition PVCProtectionFinalizer : string := "kubernetes.io/pvc-protection".
Definition PVCStorageResizerAnnotation : string := "volume.kubernetes.io/storage-resizer".
Definition SessionKey : string := "migrate.sealos.io/session".
Definition ResourceRoleLabel : string := "migrate.sealos.io/role".
Definition OriginalPolicyAnnotation : string := "migrate.sealos.io/original-reclaim-policy".
Definition SourcePVCUIDAnnotation : string := "migrate.sealos.io/source-pvc-uid".
Definition SourcePVAnnotation : string := "migrate.sealos.io/source-pv".
Definition RollbackPVAnnotation : string := "migrate.sealos.io/rollback-pv".
Definition PairedPVAnnotation : string := "migrate.sealos.io/paired-pv".
Definition pvcBindCompletedAnnotation : string := "pv.kubernetes.io/bind-completed".
Definition pvcBoundByControllerAnnotation : string := "pv.kubernetes.io/bound-by-controller".
Definition pvcSelectedNodeAnnotation : string := "volume.kubernetes.io/selected-node".
Definition pvcStorageProvisionerAnnotation : string := "volume.kubernetes.io/storage-provisioner".
Definition pvcBetaStorageProvisionerAnnotation : string := "volume.beta.kubernetes.io/storage-provisioner".
Definition kubectlLastAppliedConfigAnnotation : string := "kubectl.kubernetes.io/last-applied-configuration".

Definition ResourceRoleSource : string := "source".
Definition ResourceRoleDestination : string := "destination".
Definition ResourceRoleActive : string := "active".
Definition ResourceRoleRollback : string := "rollback".
Definition ResourceRoleRename : string := "rename".
Definition ResourceRoleReservationConsumer : string := "reservation-consumer".
Definition LabelHostname : string := "kubernetes.io/hostname".

(** ** Objects *)

Record OwnerReference := {
  owner_APIVersion : string;
  owner_Kind : string;
  owner_Name : string;
  owner_UID : string;
  owner_Controller : option bool;
  owner_BlockOwnerDeletion : option bool
}.

#[global] Instance OwnerReference_eq_dec : EqDecision OwnerReference.
Proof. solve_decision. Defined.

Inductive ClaimPhase := ClaimPhaseNone | ClaimPending | ClaimBound | ClaimLost.
Inductive VolumePhase := VolumePending | VolumeAvailable | VolumeBound | VolumeReleased | VolumeFailed.
Inductive ReclaimPolicy := ReclaimRetain | ReclaimDelete | ReclaimRecycle.

#[global] Instance ClaimPhase_eq_dec : EqDecision ClaimPhase.
Proof. solve_decision. Defined.
#[global] Instance VolumePhase_eq_dec : EqDecision VolumePhase.
Proof. solve_decision. Defined.
#[global] Instance ReclaimPolicy_eq_dec : EqDecision ReclaimPolicy.
Proof. solve_decision. Defined.

Definition claim_phase_string (p : ClaimPhase) : string :=
  match p with ClaimPhaseNone => "" | ClaimPending => "Pending" | ClaimBound => "Bound" | ClaimLost => "Lost" end.

Definition policy_string (p : ReclaimPolicy) : string :=
  match p with ReclaimRetain => "Retain" | ReclaimDelete => "Delete" | ReclaimRecycle => "Recycle" end.

Definition volume_phase_string (p : VolumePhase) : string :=
  match p with
  | VolumePending => "Pending" | VolumeAvailable => "Available" | VolumeBound => "Bound"
  | VolumeReleased => "Released" | VolumeFailed => "Failed"
  end.

(** A [resource.Quantity] is represented by its numeric value (in the smallest
    unit the API admits); its text form is a parameter, see [QuantityText]. *)
Definition Quantity := Z.

(** [corev1.PersistentVolumeClaimSpec]; the storage request is
    [Resources.Requests[storage]], the other requests are not read.  Selector
    and data sources are opaque to the code, which only drops them. *)
Record PVCSpec := {
  spec_AccessModes : list string;
  spec_Selector : option string;
  spec_StorageRequest : option Quantity;
  spec_VolumeName : string;
  spec_StorageClassName : option string;
  spec_VolumeMode : option string;
  spec_DataSource : option string;
  spec_DataSourceRef : option string;
  spec_VolumeAttributesClassName : option string
}.

#[global] Instance PVCSpec_eq_dec : EqDecision PVCSpec.
Proof. solve_decision. Defined.

Record PVC := {
  pvc_Namespace : string;
  pvc_Name : string;
  pvc_UID : string;
  pvc_ResourceVersion : string;
  pvc_DeletionTimestamp : option Time;
  pvc_Labels : gmap string string;
  pvc_Annotations : gmap string string;
  pvc_Finalizers : list string;
  pvc_OwnerReferences : list OwnerReference;
  pvc_Spec : PVCSpec;
  pvc_Phase : ClaimPhase;
  pvc_AllocatedStorage : option Quantity;             (* Status.AllocatedResources[storage] *)
  pvc_CurrentVolumeAttributesClass : option string;   (* Status.CurrentVolumeAttributesClassName *)
  pvc_TargetVolumeAttributesClass : option string     (* Status.ModifyVolumeStatus, its target *)
}.

#[global] Instance PVC_eq_dec : EqDecision PVC.
Proof. solve_decision. Defined.

Definition pvc_VolumeName (p : PVC) : string := spec_VolumeName (pvc_Spec p).

(** ** Nodes *)

Record Condition := { condition_Type : string; condition_Status : string }.
Record Taint := { taint_Key : string; taint_Value : string; taint_Effect : string }.

Record Node := {
  node_Name : string;
  node_UID : string;
  node_Labels : gmap string string;
  node_Unschedulable : bool;
  node_Taints : list Taint;
  node_Conditions : list Condition
}.

Record TopologySelectorLabelRequirement := {
  expression_Key : string;
  expression_Values : list string
}.

(** The terms of [AllowedTopologies], each its [MatchLabelExpressions]. *)
Record StorageClass := {
  sc_Name : string;
  sc_AllowedTopologies : list (list TopologySelectorLabelRequirement)
}.

Record NodeSelectorRequirement := {
  requirement_Key : string;
  requirement_Operator : string;
  requirement_Values : list string
}.

#[global] Instance NodeSelectorRequirement_eq_dec : EqDecision NodeSelectorRequirement.
Proof. solve_decision. Defined.

Record NodeSelectorTerm := {
  MatchExpressions : list NodeSelectorRequirement;
  MatchFields : list NodeSelectorRequirement
}.

#[global] Instance NodeSelectorTerm_eq_dec : EqDecision NodeSelectorTerm.
Proof. solve_decision. Defined.

(** ** Volumes *)

(** [pv_NodeAffinity] is [Spec.NodeAffinity.Required], [None] when one of the two
    pointers is nil. *)
Record PV := {
  pv_Name : string;
  pv_UID : string;
  pv_ResourceVersion : string;
  pv_DeletionTimestamp : option Time;
  pv_Labels : gmap string string;
  pv_Annotations : gmap string string;
  pv_ClaimRef : option ObjectReference;
  pv_ReclaimPolicy : ReclaimPolicy;
  pv_Capacity : option Quantity;
  pv_Phase : VolumePhase;
  pv_NodeAffinity : option (list NodeSelectorTerm);
  pv_CSIDriver : option string                (* [Spec.CSI.Driver]; [None] when [Spec.CSI] is nil *)
}.

#[global] Instance PV_eq_dec : EqDecision PV.
Proof. solve_decision. Defined.

(** ** Pods *)

Record Toleration := {
  toleration_Key : string;
  toleration_Operator : string;
  toleration_Value : string;
  toleration_Effect : string
}.

Record Container := {
  container_Name : string;
  container_Image : string;
  container_ImagePullPolicy : string;
  container_RunAsUser : option Z;
  container_RunAsGroup : option Z;
  container_Command : list string;
  container_Requests : list (string * Quantity);
  container_Limits : list (string * Quantity);
  container_VolumeMounts : list (string * string)
}.

(** A Pod's volumes: the claim name of a PVC volume, [None] for other sources. *)
Record Pod := {
  pod_Namespace : string;
  pod_Name : string;
  pod_UID : string;
  pod_ResourceVersion : string;
  pod_Labels : gmap string string;
  pod_OwnerReferences : list OwnerReference;
  pod_NodeName : string;
  pod_NodeSelector : gmap string string;
  pod_Tolerations : list Toleration;
  pod_RestartPolicy : string;
  pod_AutomountServiceAccountToken : option bool;
  pod_TerminationGracePeriodSeconds : option Z;
  pod_Containers : list Container;
  pod_Volumes : list (option string);
  pod_Phase : string;
  pod_Conditions : list Condition
}.

(** A workload that owns Pods: a Job, Deployment, StatefulSet, DaemonSet or
    ReplicaSet. *)
Record Workload := {
  workload_Name : string;
  workload_UID : string;
  workload_OwnerReferences : list OwnerReference
}.

Record VolumeAttachment := {
  va_PersistentVolumeName : option string;
  va_NodeName : string;
  va_Attached : bool
}.

(** ** Namespace policies *)

Record ScopedResourceSelectorRequirement := {
  scope_Name : string;
  scope_Operator : string;
  scope_Values : list string
}.

(** [Spec.ScopeSelector] is its [MatchExpressions], [None] when nil; a
    [ResourceList] is a map from resource names to quantities. *)
Record ResourceQuota := {
  quota_Name : string;
  quota_Scopes : list string;
  quota_ScopeSelector : option (list ScopedResourceSelectorRequirement);
  quota_Hard : gmap string Quantity;
  quota_Used : gmap string Quantity
}.

Record LimitRangeItem := {
  limit_Type : string;
  limit_Min : gmap string Quantity;
  limit_Max : gmap string Quantity;
  limit_Default : gmap string Quantity;
  limit_DefaultRequest : gmap string Quantity
}.

Record LimitRange := {
  limitRange_Name : string;
  limitRange_Limits : list LimitRangeItem
}.

(** [v1alpha1.PVCMetadata] *)
Record PVCMetadata := {
  meta_Labels : gmap string string;
  meta_Annotations : gmap string string;
  meta_OwnerReferences : list OwnerReference
}.

(** [v1alpha1.ClusterVolumeActivationStatus] *)
Record ActivationStatus := {
  TemporaryPVCDeleted : bool;
  SourcePVCDeleted : bool;
  DestinationReserved : bool;
  ActivePVC : option ObjectReference;
  ActivatedAt : option Time;
  RolledBackAt : option Time
}.

#[global] Instance ActivationStatus_eq_dec : EqDecision ActivationStatus.
Proof. solve_decision. Defined.

(** [PVCTransferBindings] (internal/kube/switcher.go) *)
Record PVCTransferBindings := {
  SourcePVC : ObjectReference;
  SourcePV : ObjectReference;
  DestinationPVC : ObjectReference;
  DestinationPV : ObjectReference
}.

(** ** Field updates *)

Definition pv_set_metadata (pv : PV) (labels annotations : gmap string string) (policy : ReclaimPolicy) : PV :=
  {| pv_Name := pv_Name pv; pv_UID := pv_UID pv; pv_ResourceVersion := pv_ResourceVersion pv;
     pv_DeletionTimestamp := pv_DeletionTimestamp pv;
     pv_Labels := labels; pv_Annotations := annotations; pv_ClaimRef := pv_ClaimRef pv;
     pv_ReclaimPolicy := policy; pv_Capacity := pv_Capacity pv; pv_Phase := pv_Phase pv;
     pv_NodeAffinity := pv_NodeAffinity pv; pv_CSIDriver := pv_CSIDriver pv |}.

Definition pv_set_ClaimRef (pv : PV) (ref : option ObjectReference) : PV :=
  {| pv_Name := pv_Name pv; pv_UID := pv_UID pv; pv_ResourceVersion := pv_ResourceVersion pv;
     pv_DeletionTimestamp := pv_DeletionTimestamp pv;
     pv_Labels := pv_Labels pv; pv_Annotations := pv_Annotations pv; pv_ClaimRef := ref;
     pv_ReclaimPolicy := pv_ReclaimPolicy pv; pv_Capacity := pv_Capacity pv; pv_Phase := pv_Phase pv;
     pv_NodeAffinity := pv_NodeAffinity pv; pv_CSIDriver := pv_CSIDriver pv |}.

Definition pvc_set_metadata (p : PVC) (labels annotations : gmap string string)
    (owners : list OwnerReference) : PVC :=
  {| pvc_Namespace := pvc_Namespace p; pvc_Name := pvc_Name p; pvc_UID := pvc_UID p;
     pvc_ResourceVersion := pvc_ResourceVersion p; pvc_DeletionTimestamp := pvc_DeletionTimestamp p;
     pvc_Labels := labels; pvc_Annotations := annotations; pvc_Finalizers := pvc_Finalizers p;
     pvc_OwnerReferences := owners; pvc_Spec := pvc_Spec p; pvc_Phase := pvc_Phase p;
     pvc_AllocatedStorage := pvc_AllocatedStorage p;
     pvc_CurrentVolumeAttributesClass := pvc_CurrentVolumeAttributesClass p;
     pvc_TargetVolumeAttributesClass := pvc_TargetVolumeAttributesClass p |}.

(** ** References of live objects (internal/kube/references.go)

    A nil object gives the empty reference. *)
Definition PVCReference (pvc : option PVC) : ObjectReference :=
  match pvc with
  | None => empty_reference
  | Some p =>
      {| APIVersion := CoreAPIVersion; Kind := KindPersistentVolumeClaim;
         Namespace := pvc_Namespace p; Name := pvc_Name p; UID := pvc_UID p;
         ResourceVersion := pvc_ResourceVersion p |}
  end.

Definition PVReference (pv : option PV) : ObjectReference :=
  match pv with
  | None => empty_reference
  | Some p =>
      {| APIVersion := CoreAPIVersion; Kind := KindPersistentVolume;
         Namespace := ""; Name := pv_Name p; UID := pv_UID p;
         ResourceVersion := pv_ResourceVersion p |}
  end.

(** ** Metadata (internal/kube/metadata.go) *)

(** Keys removed from a recreated claim. *)
Definition recreation_dropped_keys : list string :=
  [pvcBindCompletedAnnotation; pvcBoundByControllerAnnotation; pvcSelectedNodeAnnotation;
   pvcStorageProvisionerAnnotation; pvcBetaStorageProvisionerAnnotation;
   PVCStorageResizerAnnotation; kubectlLastAppliedConfigAnnotation; SessionKey].

Definition PVCAnnotationsForRecreation (input : gmap string string) : gmap string string :=
  foldl (fun m k => delete k m) input recreation_dropped_keys.

Definition MergeSessionLabels (existing : gmap string string) (id : string) : gmap string string :=
  <[SessionKey := id]> (<[ManagedByLabel := ManagedByValue]> existing).

(** [markPVSession] (internal/kube/ownership.go): the new labels and whether
    they changed. *)
Definition set_label (acc : gmap string string * bool) (kv : string * string) : gmap string string * bool :=
  let '(labels, changed) := acc in
  if mget labels kv.1 <>s kv.2 then (<[kv.1 := kv.2]> labels, true) else (labels, changed).

Definition markPVSession (labels : gmap string string) (sessionID role : string)
    : gmap string string * bool :=
  foldl set_label (labels, false)
    [(ManagedByLabel, ManagedByValue); (SessionKey, sessionID); (ResourceRoleLabel, role)].

(** ** Pods and claims (internal/kube/reserver.go) *)

Definition PodUsesPVC (pod : Pod) (claim : string) : bool :=
  existsb (fun v => match v with Some c => c =s claim | None => false end) (pod_Volumes pod).

Definition ActivePodUsesPVC (pod : Pod) (claim : string) : bool :=
  ((pod_Phase pod <>s "Succeeded") && (pod_Phase pod <>s "Failed") && PodUsesPVC pod claim)%bool.

Definition PodBlocksPVCDeletion (pod : Pod) (claim : string) : bool :=
  ((pod_NodeName pod <>s "") && PodUsesPVC pod claim)%bool.

Definition PodPreventsSafePVCDeletion (pod : Pod) (claim : string) : bool :=
  (ActivePodUsesPVC pod claim || PodBlocksPVCDeletion pod claim)%bool.

(** ** Facts *)

Lemma policy_string_nonempty p : policy_string p <> "".
Proof. by destruct p. Qed.

Lemma set_label_get labels b k v : mget (set_label (labels, b) (k, v)).1 k = v.
Proof.
  unfold set_label; simpl. case_test; bool_prop; [apply mget_insert|done].
Qed.

Lemma set_label_get_ne labels b k v k' :
  k <> k' -> mget (set_label (labels, b) (k, v)).1 k' = mget labels k'.
Proof.
  intros H. unfold set_label; simpl. case_test; [by apply mget_insert_ne|done].
Qed.

Lemma set_label_same acc k v : mget acc.1 k = v -> set_label acc (k, v) = acc.
Proof.
  intros H. destruct acc as [l b]. unfold set_label; simpl in *. rewrite H, String.eqb_refl. done.
Qed.

Lemma set_label_lookup_ne acc kv k : kv.1 <> k -> (set_label acc kv).1 !! k = acc.1 !! k.
Proof.
  destruct acc as [l b], kv as [k' v]. intros H. unfold set_label; simpl in *.
  case_test; simpl; [by rewrite lookup_insert_ne|done].
Qed.

Lemma mget_lookup (m m' : gmap string string) k : m !! k = m' !! k -> mget m k = mget m' k.
Proof. intros H. unfold mget. by rewrite H. Qed.

Lemma markPVSession_labels labels sid role :
  let l := (markPVSession labels sid role).1 in
  mget l ManagedByLabel = ManagedByValue /\ mget l SessionKey = sid /\ mget l ResourceRoleLabel = role /\
  (forall k, k <> ManagedByLabel -> k <> SessionKey -> k <> ResourceRoleLabel -> l !! k = labels !! k).
Proof.
  cbv zeta. unfold markPVSession. cbn [foldl]. split_and!.
  - rewrite (mget_lookup _ (set_label (labels, false) (ManagedByLabel, ManagedByValue)).1).
    + apply set_label_get.
    + rewrite !set_label_lookup_ne by (simpl; discriminate). done.
  - destruct (set_label (labels, false) (ManagedByLabel, ManagedByValue)) as [l1 b1].
    rewrite (mget_lookup _ (set_label (l1, b1) (SessionKey, sid)).1).
    + apply set_label_get.
    + rewrite !set_label_lookup_ne by (simpl; discriminate). done.
  - destruct (set_label (set_label (labels, false) (ManagedByLabel, ManagedByValue)) (SessionKey, sid)) as [l1 b1].
    apply set_label_get.
  - intros k H1 H2 H3. rewrite !set_label_lookup_ne by done. done.
Qed.
