(* ===== verification/Api.v ===== *)
(** * The Kubernetes client and the context as seen by the cutover code

    [req] lists the requests the modelled functions issue: the clientset calls
    on claims, volumes, Pods and VolumeAttachments, [ctx.Err()], the lease fence
    of the context ([LeaseFenceError], internal/kube/lease_fence.go), the clock,
    the poll tick of [WaitFor], and the caller's progress callback, which
    persists the activation checkpoint it shares with the switcher.  The server
    is not modelled: every theorem quantifies over all responses. *)

From S2P Require Import Prelude GoErrors Lifecycle KubeTypes Prog.

Inductive req :=
| CtxErr                                   (* ctx.Err() *)
| FenceErr                                 (* LeaseFenceError(ctx) *)
| Now                                      (* time.Now().UTC() *)
| TickOrDone                               (* select on ctx.Done() and ticker.C *)
| GetPVC (namespace name : string)
| CreatePVC (pvc : PVC) (dryRun : bool)
| UpdatePVC (pvc : PVC)
| DeletePVC (namespace name uid resourceVersion : string)   (* with both preconditions *)
| GetPV (name : string)
| UpdatePV (pv : PV)
| UpdatePVUnsupported (pv : PV) (policy : string)   (* with a policy the API does not define *)
| DeletePV (name uid resourceVersion : string)
| ListPods (namespace : string)
| ListPodsMatching (namespace selector : string)
| GetPod (namespace name : string)
| CreatePod (pod : Pod)
| DeletePod (namespace name uid : string) (resourceVersion : option string)
| GetWorkload (kind namespace name : string)
| ListVolumeAttachments
| GetNode (name : string)
| ListNodes
| GetStorageClass (name : string)
| ListResourceQuotas (namespace : string)
| ListLimitRanges (namespace : string)
| Progress (status : option ActivationStatus).

(** A list, create or update call may return a nil object without an error:
    [inl None].  The code never reads the object a claim update returns. *)
Definition resp (r : req) : Type :=
  match r with
  | CtxErr | FenceErr => option err
  | Now => Time
  | TickOrDone => option err
  | GetPVC _ _ => result PVC
  | CreatePVC _ _ => result (option PVC)
  | UpdatePVC _ | DeletePVC _ _ _ _ => option err
  | GetPV _ => result PV
  | UpdatePV _ => result (option PV)
  | UpdatePVUnsupported _ _ | DeletePV _ _ _ => option err
  | ListPods _ | ListPodsMatching _ _ => result (option (list Pod))
  | GetPod _ _ => result Pod
  | CreatePod _ => result (option Pod)
  | DeletePod _ _ _ _ => option err
  | GetWorkload _ _ _ => result (option Workload)
  | GetNode _ => result Node
  | ListNodes => result (list Node)
  | GetStorageClass _ => result StorageClass
  | ListResourceQuotas _ => result (option (list ResourceQuota))
  | ListLimitRanges _ => result (option (list LimitRange))
  | ListVolumeAttachments => result (option (list VolumeAttachment))
  | Progress _ => option err
  end.

(** Case analysis on a request, a create split by its dry-run flag. *)
Ltac case_req r :=
  destruct r;
  try match goal with
      | |- context [CreatePVC _ ?b] => is_var b; destruct b
      | H : context [CreatePVC _ ?b] |- _ => is_var b; destruct b
      end.

Notation kube := (prog req resp).
Notation trace := (history resp).
Notation kevent := (event resp).

(** Requests that change the cluster; a dry-run create does not. *)
Definition is_write (r : req) : bool :=
  match r with
  | CreatePVC _ dryRun => negb dryRun
  | UpdatePVC _ | DeletePVC _ _ _ _ | UpdatePV _ | UpdatePVUnsupported _ _ | DeletePV _ _ _
  | CreatePod _ | DeletePod _ _ _ _ => true
  | _ => false
  end.

Definition is_progress (r : req) : bool :=
  match r with Progress _ => true | _ => false end.

Definition is_delete (r : req) : bool :=
  match r with DeletePVC _ _ _ _ => true | _ => false end.

(** [errors.Join(ctx.Err(), LeaseFenceError(ctx))] *)
Definition fence : kube (option err) :=
  a ← call CtxErr; b ← call FenceErr; Ret (errors_Join [a; b]).

(** [errors.Join(err, ctx.Err(), LeaseFenceError(ctx))] *)
Definition fence_after (e : option err) : kube (option err) :=
  a ← call CtxErr; b ← call FenceErr; Ret (errors_Join [e; a; b]).

(** ** Waiting (internal/kube/client.go) *)

Definition waitContextError (e : err) (description : string) : err :=
  let message :=
    if is_context Canceled e then "canceled while waiting for " +:+ description
    else "timed out waiting for " +:+ description in
  WrapError ErrorTimeout "wait" message e.

Section WaitFor.
Context {A : Type}.

(** The poll loop.  The condition reports whether it holds together with the
    value its closure captured; [fuel] bounds the polls. *)
Fixpoint wait_loop (fuel : nat) (description : string) (condition : kube (result (bool * A)))
    : kube (result A) :=
  match fuel with
  | O => OutOfFuel
  | S fuel =>
      c ← call CtxErr;
      match c with
      | Some e => Ret (inr (waitContextError e description))
      | None =>
          r ← condition;
          match r with
          | inr e =>
              c ← call CtxErr;
              match c with
              | Some ce => Ret (inr (waitContextError ce description))
              | None => Ret (inr e)
              end
          | inl (ready, a) =>
              if (ready : bool) then Ret (inl a) else
              d ← call TickOrDone;
              match d with
              | Some e => Ret (inr (waitContextError e description))
              | None => wait_loop fuel description condition
              end
          end
      end
  end.

Definition WaitFor (fuel : nat) (interval : Z) (description : string)
    (condition : kube (result (bool * A))) : kube (result A) :=
  if Z.leb interval 0 then
    Ret (inr (NewError ErrorValidation "wait" "poll interval must be positive"))
  else wait_loop fuel description condition.
End WaitFor.

(** ** Conflict retry (k8s.io/client-go/util/retry)

    The library function is a parameter.  Documented behaviour: the function is
    run again while it returns a conflict, at most a fixed number of times, and
    the last error is returned. *)
Fixpoint retry_loop (steps : nat) (fn : kube (option err)) : kube (option err) :=
  match steps with
  | O => fn
  | S steps =>
      e ← fn;
      match e with
      | Some x => if IsConflict x then retry_loop steps fn else Ret (Some x)
      | None => Ret None
      end
  end.

(** The same for a function that also assigns a variable its caller reads after
    success: the value is the one of the last run. *)
Fixpoint retry_value_loop {A} (steps : nat) (fn : kube (result A)) : kube (result A) :=
  match steps with
  | O => fn
  | S steps =>
      r ← fn;
      match r with
      | inr x => if IsConflict x then retry_value_loop steps fn else Ret (inr x)
      | inl a => Ret (inl a)
      end
  end.

Class ConflictRetry := {
  RetryOnConflict : kube (option err) -> kube (option err);
  retry_law : forall fn, exists steps, RetryOnConflict fn = retry_loop steps fn;
  RetryOnConflictValue : forall {A}, kube (result A) -> kube (result A);
  retry_value_law : forall A (fn : kube (result A)),
    exists steps, RetryOnConflictValue fn = retry_value_loop steps fn
}.

(** [retry.DefaultRetry] has five steps: four repetitions. *)
#[global, refine] Instance default_retry : ConflictRetry | 100 :=
  {| RetryOnConflict := retry_loop 4; RetryOnConflictValue := fun A => retry_value_loop 4 |}.
Proof. - intros fn. by exists 4. - intros A fn. by exists 4. Defined.

(** ** Quantities (k8s.io/apimachinery/pkg/api/resource): text form *)
Class QuantityText := {
  quantity_string : Quantity -> string;
  ParseQuantity : string -> result Quantity;
  quantity_roundtrip : forall q, ParseQuantity (quantity_string q) = inl q
}.

(** ** Label names (k8s.io/apimachinery/pkg/util/validation): the problems of a name *)
Class LabelGrammar := IsDNS1123Label : string -> list string.

(** ** The caller's checkpoint callback *)
Definition callProgress (progress : bool) (status : option ActivationStatus) : kube (option err) :=
  if progress then call (Progress status) else Ret None.

(** ** Proof rules *)

Definition reads_ok (G : trace -> req -> Prop) : Prop :=
  forall h r, is_write r = false -> is_progress r = false -> G h r.

(** "On success, [P] holds of the trace." *)
Definition on_ok (P : trace -> Prop) : option err -> trace -> Prop :=
  fun e h => e = None -> P h.
Definition on_val {A} (P : A -> trace -> Prop) : result A -> trace -> Prop :=
  fun r h => forall a, r = inl a -> P a h.

(** The error of a call that also returns an object. *)
Definition error_of {A} (r : result A) : option err := match r with inl _ => None | inr e => Some e end.

(** The context was live and the lease held when last checked, with nothing
    issued since. *)
Definition just_fenced (h : trace) : Prop :=
  exists h0, h = Ev FenceErr None :: Ev CtxErr None :: h0.

Section rules.
Context (G : trace -> req -> Prop) (HG : reads_ok G).

Lemma wp_fence (Q : option err -> trace -> Prop) h :
  Q None (Ev FenceErr None :: Ev CtxErr None :: h) ->
  (forall e a b, Q (Some e) (Ev FenceErr b :: Ev CtxErr a :: h)) ->
  wp G fence Q h.
Proof.
  intros H1 H2. split; [by apply HG|]. intros a. split; [by apply HG|]. intros b.
  change (Q (errors_Join [a; b]) (Ev FenceErr b :: Ev CtxErr a :: h)).
  destruct (errors_Join [a; b]) eqn:Hj; [apply H2|].
  by apply errors_Join2_None in Hj as [-> ->].
Qed.

Lemma wp_fence_after e (Q : option err -> trace -> Prop) h :
  (e = None -> Q None (Ev FenceErr None :: Ev CtxErr None :: h)) ->
  (forall e' a b, Q (Some e') (Ev FenceErr b :: Ev CtxErr a :: h)) ->
  wp G (fence_after e) Q h.
Proof.
  intros H1 H2. split; [by apply HG|]. intros a. split; [by apply HG|]. intros b.
  change (Q (errors_Join [e; a; b]) (Ev FenceErr b :: Ev CtxErr a :: h)).
  destruct (errors_Join [e; a; b]) eqn:Hj; [apply H2|].
  apply errors_Join3_None in Hj as (-> & -> & ->). by apply H1.
Qed.

Lemma wp_wait_loop {A} fuel description (condition : kube (result (bool * A))) P h :
  (forall h', h `suffix_of` h' ->
     wp G condition (fun r h'' => forall a, r = inl (true, a) -> P a h'') h') ->
  wp G (wait_loop fuel description condition) (on_val P) h.
Proof.
  revert h. induction fuel as [|fuel IH]; intros h Hc; [done|].
  split; [by apply HG|]. intros [e|]; [by intros a|].
  apply wp_bind_2. eapply wp_mono; [apply Hc, suffix_cons_r; done|].
  intros [[[|] a]|e] h' Hs Hr.
  - intros a' [= <-]. by apply Hr.
  - split; [by apply HG|]. intros [e|]; [by intros a'|]. apply IH.
    intros h'' Hs'. apply Hc. etrans; [|eassumption].
    eapply suffix_cons_r, suffix_cons_l. done.
  - split; [by apply HG|]. intros [ce|]; by intros a'.
Qed.

Lemma wp_WaitFor {A} fuel interval description (condition : kube (result (bool * A))) P h :
  (forall h', h `suffix_of` h' ->
     wp G condition (fun r h'' => forall a, r = inl (true, a) -> P a h'') h') ->
  wp G (WaitFor fuel interval description condition) (on_val P) h.
Proof.
  intros Hc. unfold WaitFor. case_test; [by intros a|]. by apply wp_wait_loop.
Qed.

Lemma wp_retry `{ConflictRetry} fn P h :
  (forall h', h `suffix_of` h' -> wp G fn (on_ok P) h') ->
  wp G (RetryOnConflict fn) (on_ok P) h.
Proof.
  intros Hfn. destruct (retry_law fn) as [steps ->].
  revert h Hfn. induction steps as [|steps IH]; intros h Hfn; [by apply Hfn|].
  simpl. rewrite wp_bind. eapply wp_mono; [by apply Hfn|].
  intros [e|] h' Hs HP; [|done].
  destruct (IsConflict e); [|done]. apply IH. intros h'' Hs'. apply Hfn. by etrans.
Qed.

Lemma wp_retry_value `{ConflictRetry} {A} (fn : kube (result A)) P h :
  (forall h', h `suffix_of` h' -> wp G fn (on_val P) h') ->
  wp G (RetryOnConflictValue fn) (on_val P) h.
Proof.
  intros Hfn. destruct (retry_value_law A fn) as [steps ->].
  revert h Hfn. induction steps as [|steps IH]; intros h Hfn; [by apply Hfn|].
  simpl. rewrite wp_bind. eapply wp_mono; [by apply Hfn|].
  intros [a|e] h' Hs HP; [done|].
  destruct (IsConflict e); [|done]. apply IH. intros h'' Hs'. apply Hfn. by etrans.
Qed.

Lemma wp_call r (Q : resp r -> trace -> Prop) h :
  is_write r = false -> is_progress r = false ->
  (forall x, Q x (Ev r x :: h)) -> wp G (call r) Q h.
Proof. intros H1 H2 HQ. split; [by apply HG|]. exact HQ. Qed.

(** A request and what follows it. *)
Lemma wp_step {A} r (k : resp r -> kube A) Q h :
  G h r -> (forall x, wp G (k x) Q (Ev r x :: h)) -> wp G (call r ≫= k) Q h.
Proof. by split. Qed.
End rules.

(** The outermost test of the program. *)
Ltac wp_if := match goal with |- wp _ (if ?b then _ else _) _ _ => destruct b eqn:? end.

(** Walks through a program that only reads. *)
Ltac wp_reads reads :=
  repeat first
    [ done
    | apply wp_bind_2, wp_call; [apply reads|done|done|intros ?]
    | match goal with
      | |- wp _ (if ?b then _ else _) _ _ => destruct b
      | |- wp _ (match ?x with _ => _ end) _ _ => destruct x
      end ].

(** ** Termination under a deadline

    [m w] bounds the poll ticks left before the context of state [w] is done: a
    tick uses one up and no request adds any, so at zero the wait is left through
    [ctx.Done()]. *)
Record deadline {W} (H : handler (E := req) (R := resp) W) (m : W -> nat) : Prop := {
  deadline_mono : forall r w, m (H r w).2 <= m w;
  deadline_tick : forall w, (H TickOrDone w).1 = None -> m (H TickOrDone w).2 < m w
}.

(** The program returns from every state with fewer than [n] ticks left. *)
Definition returns_within {W A} (H : handler W) (m : W -> nat) (n : nat) (p : kube A) : Prop :=
  forall w h, m w < n ->
    exists a w' h', run H p w h = (Some a, w', h') /\ m w' <= m w.

Create HintDb term discriminated.

Section termination.
Context {W : Type} (H : handler W) (m : W -> nat) (D : deadline H m) (n : nat).

Lemma returns_Ret {A} (a : A) : returns_within H m n (Ret a).
Proof. intros w h _. by exists a, w, h. Qed.

Lemma returns_bind {A B} (p : kube A) (f : A -> kube B) :
  returns_within H m n p -> (forall a, returns_within H m n (f a)) ->
  returns_within H m n (p ≫= f).
Proof.
  intros Hp Hf w h Hw. destruct (Hp w h Hw) as (a & w' & h' & Hr & Hm).
  destruct (Hf a w' h') as (b & w'' & h'' & Hr' & Hm'); [lia|].
  exists b, w'', h''. split; [|lia]. by rewrite run_bind, Hr.
Qed.

Lemma returns_call r : returns_within H m n (call r).
Proof.
  intros w h _. exists (H r w).1, (H r w).2, (Ev r (H r w).1 :: h).
  split; [done|]. apply D.
Qed.

Lemma returns_check {T} `{FromErr T} p (k : kube T) :
  returns_within H m n p -> returns_within H m n k -> returns_within H m n (check p k).
Proof. intros Hp Hk. apply returns_bind; [done|]. intros [e|]; [apply returns_Ret|done]. Qed.

Lemma returns_try {T A} `{FromErr T} (p : kube (result A)) (k : A -> kube T) :
  returns_within H m n p -> (forall a, returns_within H m n (k a)) ->
  returns_within H m n (try p k).
Proof. intros Hp Hk. apply returns_bind; [done|]. intros [a|e]; [done|apply returns_Ret]. Qed.

Lemma returns_fence : returns_within H m n fence.
Proof.
  apply returns_bind; [apply (returns_call CtxErr)|]. intros a.
  apply returns_bind; [apply (returns_call FenceErr)|]. intros b. apply returns_Ret.
Qed.

Lemma returns_fence_after e : returns_within H m n (fence_after e).
Proof.
  apply returns_bind; [apply (returns_call CtxErr)|]. intros a.
  apply returns_bind; [apply (returns_call FenceErr)|]. intros b. apply returns_Ret.
Qed.

Lemma returns_retry `{ConflictRetry} fn :
  returns_within H m n fn -> returns_within H m n (RetryOnConflict fn).
Proof.
  intros Hfn. destruct (retry_law fn) as [steps ->].
  induction steps as [|steps IH]; [done|]. apply returns_bind; [done|].
  intros [e|]; [|apply returns_Ret]. destruct (IsConflict e); [done|apply returns_Ret].
Qed.

(** The poll loop itself: [n] polls are enough for fewer than [n] ticks. *)
Lemma returns_wait_loop {A} description (condition : kube (result (bool * A))) k :
  returns_within H m n condition ->
  forall w h, m w < k -> k <= n ->
    exists a w' h', run H (wait_loop k description condition) w h = (Some a, w', h') /\ m w' <= m w.
Proof.
  intros Hc. induction k as [|k IH]; intros w h Hw Hk; [lia|].
  cbn [wait_loop]. rewrite run_bind. cbn [call run].
  pose proof (deadline_mono _ _ D CtxErr w) as Hm1.
  destruct (H CtxErr w) as [[e|] w1] eqn:E1; cbn [fst snd] in *.
  { exists (inr (waitContextError e description)). eauto. }
  rewrite run_bind.
  edestruct (Hc w1) as (r & w2 & h2 & -> & Hm2); [lia|].
  destruct r as [[ready a]|e].
  - destruct ready; [exists (inl a); eexists _, _; split; [done|lia]|].
    rewrite run_bind. cbn [call run].
    pose proof (deadline_tick _ _ D w2) as Ht. pose proof (deadline_mono _ _ D TickOrDone w2) as Hm3.
    destruct (H TickOrDone w2) as [[e|] w3] eqn:E3; cbn [fst snd] in *.
    { exists (inr (waitContextError e description)). eexists _, _. split; [done|lia]. }
    specialize (Ht eq_refl).
    edestruct (IH w3) as (r & w4 & h4 & -> & Hm4); [lia|lia|].
    exists r, w4, h4. split; [done|lia].
  - rewrite run_bind. cbn [call run]. pose proof (deadline_mono _ _ D CtxErr w2) as Hm3.
    destruct (H CtxErr w2) as [[e'|] w3]; cbn [fst snd] in *;
      eexists _, _, _; (split; [done|lia]).
Qed.

Lemma returns_WaitFor {A} interval description (condition : kube (result (bool * A))) :
  returns_within H m n condition ->
  returns_within H m n (WaitFor n interval description condition).
Proof.
  intros Hc. unfold WaitFor. case_test; [apply returns_Ret|].
  intros w h Hw. by apply returns_wait_loop.
Qed.
End termination.

#[export] Hint Resolve returns_Ret returns_fence returns_fence_after
  returns_retry returns_WaitFor returns_bind returns_check returns_try : term.

(** Splits a program along its control flow until only calls are left. *)
Ltac returns_tac :=
  repeat first
    [ apply returns_Ret
    | match goal with
      | |- returns_within ?H ?m ?n (call ?r) => refine (returns_call H m _ n r); assumption
      end
    | progress eauto 1 with term
    | apply returns_check
    | apply returns_try; [|intros ?]
    | apply returns_retry
    | apply returns_WaitFor; [assumption|]
    | apply returns_bind; [|intros ?]
    | match goal with
      | |- returns_within _ _ _ (if ?b then _ else _) => destruct b
      | |- returns_within _ _ _ (match ?x with _ => _ end) => destruct x
      end ].
