(* ===== verification/ResourceState.v ===== *)
(** * Resource predicates: internal/kube/{resource_state,pvc_finalizers,access_modes}.go

    Node and Pod readiness, StorageClass topology, published volume capacity,
    finalizers that block a deletion and access modes of a destination. *)

From S2P Require Import Prelude GoErrors Lifecycle KubeTypes Prog Api.

(** ** Nodes, Pods and storage classes *)

Fixpoint condition_true (type : string) (conditions : list Condition) : bool :=
  match conditions with
  | [] => false
  | c :: rest =>
      if condition_Type c =s type then condition_Status c =s "True" else condition_true type rest
  end.

Definition NodeReady (node : option Node) : bool :=
  match node with None => false | Some n => condition_true "Ready" (node_Conditions n) end.

Definition NodeReadyAndSchedulable (node : option Node) : bool :=
  match node with
  | None => false
  | Some n => (NodeReady (Some n) && negb (node_Unschedulable n))%bool
  end.

Definition PodReady (pod : option Pod) : bool :=
  match pod with None => false | Some p => condition_true "Ready" (pod_Conditions p) end.

Fixpoint expressions_match (labels : gmap string string)
    (expressions : list TopologySelectorLabelRequirement) : bool :=
  match expressions with
  | [] => true
  | e :: rest =>
      match labels !! expression_Key e with
      | Some actual =>
          if contains (expression_Values e) actual then expressions_match labels rest else false
      | None => false
      end
  end.

Fixpoint topology_match (labels : gmap string string)
    (terms : list (list TopologySelectorLabelRequirement)) : bool :=
  match terms with
  | [] => false
  | [] :: rest => topology_match labels rest
  | term :: rest => if expressions_match labels term then true else topology_match labels rest
  end.

Definition StorageClassAllowsNode (sc : option StorageClass) (node : option Node) : bool :=
  match sc, node with
  | Some c, Some n =>
      match sc_AllowedTopologies c with
      | [] => true
      | terms => topology_match (node_Labels n) terms
      end
  | _, _ => false
  end.

Fixpoint hard_taint (taints : list Taint) : bool :=
  match taints with
  | [] => false
  | t :: rest =>
      if ((taint_Effect t =s "NoSchedule") || (taint_Effect t =s "NoExecute"))%bool then true
      else hard_taint rest
  end.

Definition nodeHasHardSchedulingTaint (node : option Node) : bool :=
  match node with None => false | Some n => hard_taint (node_Taints n) end.

(** ** Placement of a StorageClass *)

Definition ValidateStorageClassPlacement (client : bool) (storageClassName targetNode : string)
    : kube (option err) :=
  if (negb client || (storageClassName =s ""))%bool then
    fail (NewError ErrorValidation "storage topology"
      "Kubernetes client and StorageClass name are required") else
  r ← call (GetStorageClass storageClassName);
  match r with
  | inr e =>
      fail (WrapError ErrorPrecondition "storage topology"
        ("read destination StorageClass " +:+ storageClassName) e)
  | inl storageClass =>
      if targetNode <>s "" then
        n ← call (GetNode targetNode);
        match n with
        | inr e =>
            fail (WrapError ErrorPrecondition "storage topology" ("read target node " +:+ targetNode) e)
        | inl node =>
            if negb (NodeReadyAndSchedulable (Some node)) then
              fail (NewError ErrorPrecondition "storage topology"
                (sprint ["target node "; targetNode; " must be Ready and not cordoned"]))
            else if negb (StorageClassAllowsNode (Some storageClass) (Some node)) then
              fail (NewError ErrorPrecondition "storage topology"
                (sprint ["target node "; targetNode; " does not satisfy StorageClass ";
                         storageClassName; " allowedTopologies"]))
            else Ret None
        end
      else
        l ← call ListNodes;
        match l with
        | inr e =>
            fail (WrapError ErrorPrecondition "storage topology"
              ("list nodes for StorageClass " +:+ storageClassName) e)
        | inl nodes =>
            if existsb (fun node =>
                 NodeReadyAndSchedulable (Some node) && negb (nodeHasHardSchedulingTaint (Some node))
                 && StorageClassAllowsNode (Some storageClass) (Some node))%bool nodes
            then Ret None
            else
              let message :=
                match sc_AllowedTopologies storageClass with
                | [] => sprint ["StorageClass "; storageClassName;
                    " has no Ready, uncordoned node available to an unpinned binding Pod"]
                | _ => sprint ["StorageClass "; storageClassName;
                    " allowedTopologies match no Ready, uncordoned node available to an unpinned binding Pod"]
                end in
              fail (NewError ErrorPrecondition "storage topology" message)
        end
  end.

(** ** Published capacity *)

Section quantity.
Context `{QuantityText}.

Definition positive (q : option Quantity) : bool :=
  match q with Some v => Z.ltb 0 v | None => false end.

Definition ValidateBoundVolumeCapacity (pvc : option PVC) (pv : option PV)
    (required : option Quantity) : option err :=
  match pv with
  | None => Some (EText "bound PV is unavailable")
  | Some pv =>
      let provisioned := pv_Capacity pv in
      let validProvisioned := positive provisioned in
      let request_error :=
        match pvc with
        | None => None
        | Some p =>
            match spec_StorageRequest (pvc_Spec p) with
            | Some requested =>
                if Z.ltb 0 requested then
                  if negb validProvisioned then
                    Some (EText (sprint ["PVC "; pvc_Namespace p; "/"; pvc_Name p; " requests ";
                      quantity_string requested; " but bound PV "; pv_Name pv;
                      " has no positive storage capacity"]))
                  else if Z.ltb (default 0%Z provisioned) requested then
                    Some (EText (sprint ["PVC "; pvc_Namespace p; "/"; pvc_Name p; " requests ";
                      quantity_string requested; " but bound PV "; pv_Name pv; " currently provides ";
                      quantity_string (default 0%Z provisioned);
                      "; volume expansion is incomplete or inconsistent, so wait for PV capacity to reach the request before continuing"]))
                  else None
                else None
            | None => None
            end
        end in
      match request_error with
      | Some e => Some e
      | None =>
          match required with
          | None => None
          | Some req =>
              if Z.leb req 0 then Some (EText "required PV storage capacity must be positive")
              else if (negb validProvisioned || Z.ltb (default 0%Z provisioned) req)%bool then
                let actual :=
                  match provisioned with None => "missing" | Some q => quantity_string q end in
                Some (EText (sprint ["bound PV "; pv_Name pv; " currently provides "; actual;
                  ", below required capacity "; quantity_string req]))
              else None
          end
      end
  end.

(** The check accepts exactly the volumes whose published capacity covers both
    the claim's positive request and the required capacity. *)
Lemma bound_capacity_None pvc pv required :
  ValidateBoundVolumeCapacity pvc (Some pv) required = None <->
  (forall p q, pvc = Some p -> spec_StorageRequest (pvc_Spec p) = Some q -> (0 < q)%Z ->
     exists c, pv_Capacity pv = Some c /\ (q <= c)%Z) /\
  (forall q, required = Some q ->
     (0 < q)%Z /\ exists c, pv_Capacity pv = Some c /\ (q <= c)%Z).
Proof.
  unfold ValidateBoundVolumeCapacity, positive. split.
  - intros Hv. split.
    + intros p q -> Hq Hpos. rewrite Hq in Hv.
      destruct (Z.ltb_spec 0 q); [|lia]. destruct (pv_Capacity pv) as [c|]; simpl in Hv; [|done].
      exists c. split; [done|]. destruct (Z.ltb_spec c q); [|done]. by destruct (Z.ltb 0 c).
    + intros q ->. destruct (match pvc with Some _ => _ | None => _ end); [done|].
      destruct (Z.leb_spec q 0); [done|]. split; [done|].
      destruct (pv_Capacity pv) as [c|]; simpl in Hv; [|done]. exists c. split; [done|].
      destruct (Z.ltb_spec c q); [|done]. by rewrite orb_true_r in Hv.
  - intros [H1 H2].
    destruct (match pvc with Some _ => _ | None => _ end) eqn:Hr.
    { exfalso. destruct pvc as [p|]; [|done].
      destruct (spec_StorageRequest (pvc_Spec p)) as [q|] eqn:Hq; [|done].
      destruct (Z.ltb_spec 0 q) as [Hpos|]; [|done].
      destruct (H1 p q eq_refl Hq Hpos) as (c & Hc & Hle). rewrite Hc in Hr. simpl in Hr.
      destruct (Z.ltb_spec 0 c); [|lia]. destruct (Z.ltb_spec c q); [lia|done]. }
    destruct required as [q|]; [|done].
    destruct (H2 q eq_refl) as (Hpos & c & -> & Hle). simpl.
    destruct (Z.leb_spec q 0); [lia|]. destruct (Z.ltb_spec 0 c); [|lia].
    by destruct (Z.ltb_spec c q); [lia|].
Qed.
End quantity.

(** ** Finalizers (internal/kube/pvc_finalizers.go) *)

Fixpoint insert_sorted (x : string) (l : list string) : list string :=
  match l with
  | [] => [x]
  | y :: rest => if String.leb x y then x :: l else y :: insert_sorted x rest
  end.

(** [slices.Sort] and [slices.Compact] on strings *)
Definition slices_Sort (l : list string) : list string := foldr insert_sorted [] l.

Fixpoint slices_Compact (l : list string) : list string :=
  match l with
  | [] => []
  | x :: rest =>
      match rest with
      | y :: _ => if x =s y then slices_Compact rest else x :: slices_Compact rest
      | [] => [x]
      end
  end.

Definition BlockingPVCFinalizers (pvc : option PVC) : list string :=
  match pvc with
  | None => []
  | Some p =>
      slices_Compact (slices_Sort
        (List.filter (fun f => negb ((f =s "") || (f =s PVCProtectionFinalizer))%bool)
           (pvc_Finalizers p)))
  end.

Definition validatePVCDeletionFinalizers (pvc : PVC) (operation : string) : option err :=
  match BlockingPVCFinalizers (Some pvc) with
  | [] => None
  | blocking =>
      Some (NewError ErrorPrecondition operation
        (sprint ["PVC "; pvc_Namespace pvc; "/"; pvc_Name pvc; " has custom finalizer(s) ";
                 strings_join ", " blocking;
                 "; resolve them with their owning controller or explicitly remove them before retrying"]))
  end.

Lemma elem_insert_sorted x y l : y ∈ insert_sorted x l <-> y = x \/ y ∈ l.
Proof.
  induction l as [|z l IH]; simpl; [set_solver|].
  case_test; [set_solver|]. rewrite !elem_of_cons, IH. tauto.
Qed.

Lemma elem_slices_Sort y l : y ∈ slices_Sort l <-> y ∈ l.
Proof.
  induction l as [|x l IH]; [done|]. change (slices_Sort (x :: l)) with (insert_sorted x (slices_Sort l)).
  by rewrite elem_insert_sorted, IH, elem_of_cons.
Qed.

Lemma elem_slices_Compact y l : y ∈ slices_Compact l <-> y ∈ l.
Proof.
  induction l as [|x l IH]; [done|]. simpl. destruct l as [|z l]; [done|].
  case_test; bool_prop; [subst; rewrite IH; set_solver|].
  rewrite !elem_of_cons, IH, elem_of_cons. tauto.
Qed.

Lemma elem_BlockingPVCFinalizers f p :
  f ∈ BlockingPVCFinalizers (Some p) <->
  f ∈ pvc_Finalizers p /\ f <> "" /\ f <> PVCProtectionFinalizer.
Proof.
  unfold BlockingPVCFinalizers. rewrite elem_slices_Compact, elem_slices_Sort.
  rewrite !list_elem_of_In, filter_In, negb_true_iff, orb_false_iff, !String.eqb_neq. tauto.
Qed.

Lemma deletion_finalizers_None p op :
  validatePVCDeletionFinalizers p op = None <->
  forall f, f ∈ pvc_Finalizers p -> f = "" \/ f = PVCProtectionFinalizer.
Proof.
  unfold validatePVCDeletionFinalizers.
  pose proof (fun f => elem_BlockingPVCFinalizers f p) as He.
  destruct (BlockingPVCFinalizers (Some p)) as [|x l].
  - split; [intros _ f Hf|done].
    destruct (decide (f = "")); [by left|]. destruct (decide (f = PVCProtectionFinalizer)); [by right|].
    exfalso. apply (not_elem_of_nil f), He. done.
  - split; [done|]. intros Hall. exfalso.
    destruct (proj1 (He x)) as (H1 & H2 & H3); [left|]. by destruct (Hall x H1).
Qed.

(** ** Access modes (internal/kube/access_modes.go) *)

Definition OpenEBSLocalPVProvisioner : string := "openebs.io/local".
Definition OpenEBSLVMCSIDriver : string := "local.csi.openebs.io".

Fixpoint ValidateDestinationAccessModes (provisioner : string) (modes : list string) : option err :=
  match modes with
  | [] => None
  | mode :: rest =>
      if provisioner =s OpenEBSLocalPVProvisioner then
        if mode <>s "ReadWriteOnce" then
          Some (EText (sprint ["provisioner "; provisioner; " supports only ReadWriteOnce; requested "; mode]))
        else ValidateDestinationAccessModes provisioner rest
      else if provisioner =s OpenEBSLVMCSIDriver then
        if ((mode =s "ReadWriteOnce") || (mode =s "ReadWriteOncePod"))%bool then
          ValidateDestinationAccessModes provisioner rest
        else
          Some (EText (sprint ["provisioner "; provisioner;
            " supports only ReadWriteOnce and ReadWriteOncePod; requested "; mode]))
      else None
  end.
