(* ===== verification/Ownership.v ===== *)
(** * Session ownership of claims: internal/kube/ownership.go

    A workflow marks the claims it works on with its session ID.  [AcquirePVC],
    [ReleasePVC] and [FinalizePVC] are optimistic read-check-update loops; their
    theorems say which claims they may write, and with what, whatever the server
    answers. *)

From S2P Require Import Prelude GoErrors Lifecycle KubeTypes Prog Api.

Definition validatePVCOwnershipInput (ref : ObjectReference) (sessionID operation : string)
    : option err :=
  if ((Namespace ref =s "") || (Name ref =s "") || (UID ref =s ""))%bool then
    Some (NewError ErrorValidation operation "PVC namespace, name, and UID are required")
  else if sessionID =s "" then
    Some (NewError ErrorValidation operation "session ID is required")
  else None.

(** The write idiom of the package: check the fence, update, check again. *)
Definition fenced_update_pvc (pvc : PVC) : kube (option err) :=
  check: fence;
  e ← call (UpdatePVC pvc);
  fence_after e.

Definition fenced_update_pv (pv : PV) : kube (option err) :=
  check: fence;
  r ← call (UpdatePV pv);
  fence_after (error_of r).

(** The claim with its session annotation set, and removed. *)
Definition acquired (pvc : PVC) (sessionID : string) : PVC :=
  pvc_set_metadata pvc (pvc_Labels pvc) (<[SessionKey := sessionID]> (pvc_Annotations pvc))
    (pvc_OwnerReferences pvc).

Definition released (pvc : PVC) : PVC :=
  pvc_set_metadata pvc (pvc_Labels pvc) (delete SessionKey (pvc_Annotations pvc))
    (pvc_OwnerReferences pvc).

(** [maps.Copy(dst, src)]: entries of [src] win. *)
Definition maps_Copy (dst src : gmap string string) : gmap string string := src ∪ dst.

Definition finalized (pvc : PVC) (original : PVCMetadata) : PVC :=
  pvc_set_metadata pvc
    (maps_Copy (delete ResourceRoleLabel (delete SessionKey (delete ManagedByLabel (pvc_Labels pvc))))
       (meta_Labels original))
    (maps_Copy
       (delete SourcePVCUIDAnnotation (delete SourcePVAnnotation
          (delete RollbackPVAnnotation (delete SessionKey (pvc_Annotations pvc)))))
       (meta_Annotations original))
    (meta_OwnerReferences original).

Definition foreign_owner (owner sessionID : string) : bool :=
  ((owner <>s "") && (owner <>s sessionID))%bool.

Section ownership.
Context `{ConflictRetry}.

Definition acquire_once (ref : ObjectReference) (sessionID : string) : kube (option err) :=
  check: fence;
  try: pvc ← call (GetPVC (Namespace ref) (Name ref));
  if pvc_UID pvc <>s UID ref then
    fail (NewError ErrorConflict "acquire PVC"
      (sprint ["PVC "; Namespace ref; "/"; Name ref; " UID changed"])) else
  let owner := mget (pvc_Annotations pvc) SessionKey in
  if foreign_owner owner sessionID then
    fail (NewError ErrorConflict "acquire PVC"
      (sprint ["PVC "; Namespace ref; "/"; Name ref; " belongs to session "; owner])) else
  if owner =s sessionID then Ret None else
  fenced_update_pvc (acquired pvc sessionID).

Definition AcquirePVC (ref : ObjectReference) (sessionID : string) : kube (option err) :=
  check: Ret (validatePVCOwnershipInput ref sessionID "acquire PVC");
  r ← RetryOnConflict (acquire_once ref sessionID);
  match r with
  | None => Ret None
  | Some e =>
      if bool_decide (CategoryOf (Some e) = ErrorConflict) then fail e
      else if IsConflict e then
        fail (WrapError ErrorConflict "acquire PVC" "PVC changed concurrently" e)
      else
        fail (WrapError ErrorKubernetes "acquire PVC"
          (sprint ["annotate "; Namespace ref; "/"; Name ref]) e)
  end.

Definition release_once (ref : ObjectReference) (sessionID : string) : kube (option err) :=
  check: fence;
  r ← call (GetPVC (Namespace ref) (Name ref));
  match r with
  | inr e => if IsNotFound e then Ret None else fail e
  | inl pvc =>
      if pvc_UID pvc <>s UID ref then
        fail (NewError ErrorConflict "release PVC"
          (sprint ["PVC "; Namespace ref; "/"; Name ref; " UID changed"])) else
      if mget (pvc_Annotations pvc) SessionKey <>s sessionID then Ret None else
      fenced_update_pvc (released pvc)
  end.

Definition ReleasePVC (ref : ObjectReference) (sessionID : string) : kube (option err) :=
  check: Ret (validatePVCOwnershipInput ref sessionID "release PVC");
  r ← RetryOnConflict (release_once ref sessionID);
  match r with
  | None => Ret None
  | Some e =>
      if bool_decide (CategoryOf (Some e) = ErrorConflict) then fail e
      else fail (WrapError ErrorKubernetes "release PVC"
        (sprint ["update "; Namespace ref; "/"; Name ref]) e)
  end.

Definition finalize_once (ref : ObjectReference) (sessionID : string) (original : PVCMetadata)
    : kube (option err) :=
  check: fence;
  r ← call (GetPVC (Namespace ref) (Name ref));
  match r with
  | inr e => if IsNotFound e then Ret None else fail e
  | inl pvc =>
      if pvc_UID pvc <>s UID ref then
        fail (NewError ErrorConflict "finalize PVC"
          (sprint ["PVC "; Namespace ref; "/"; Name ref; " UID changed"])) else
      match List.find (fun owner => foreign_owner owner sessionID)
              [mget (pvc_Annotations pvc) SessionKey; mget (pvc_Labels pvc) SessionKey] with
      | Some owner =>
          fail (NewError ErrorConflict "finalize PVC"
            (sprint ["PVC "; Namespace ref; "/"; Name ref; " belongs to session "; owner]))
      | None => fenced_update_pvc (finalized pvc original)
      end
  end.

Definition FinalizePVC (ref : ObjectReference) (sessionID : string) (original : PVCMetadata)
    : kube (option err) :=
  check: Ret (validatePVCOwnershipInput ref sessionID "finalize PVC");
  r ← RetryOnConflict (finalize_once ref sessionID original);
  match r with
  | None => Ret None
  | Some e =>
      if bool_decide (CategoryOf (Some e) = ErrorConflict) then fail e
      else fail (WrapError ErrorKubernetes "finalize PVC"
        (sprint ["update "; Namespace ref; "/"; Name ref]) e)
  end.

(** ** Proof rules *)

Section rules.
Context (G : trace -> req -> Prop) (HG : reads_ok G).

Lemma wp_fenced_update_pvc p P h :
  G (Ev FenceErr None :: Ev CtxErr None :: h) (UpdatePVC p) ->
  P (Ev FenceErr None :: Ev CtxErr None :: Ev (UpdatePVC p) None
       :: Ev FenceErr None :: Ev CtxErr None :: h) ->
  wp G (fenced_update_pvc p) (on_ok P) h.
Proof.
  intros Hu HP. apply wp_check, wp_fence; [done| |done]. apply wp_bind_2. split; [done|].
  intros e. apply wp_fence_after; [done| |done]. intros He. simpl in e. subst e. by intros _.
Qed.

Lemma wp_fenced_update_pv p P h :
  G (Ev FenceErr None :: Ev CtxErr None :: h) (UpdatePV p) ->
  (forall q, P (Ev FenceErr None :: Ev CtxErr None :: Ev (UpdatePV p) (inl q)
       :: Ev FenceErr None :: Ev CtxErr None :: h)) ->
  wp G (fenced_update_pv p) (on_ok P) h.
Proof.
  intros Hu HP. apply wp_check, wp_fence; [done| |done]. apply wp_bind_2. split; [done|].
  intros [q|e]; apply wp_fence_after; [done| |done|done|by intros|done]. intros _. by intros _.
Qed.

(** Post-processing the error of a retried update keeps its success fact. *)
Lemma wp_on_error (p : kube (option err)) (f : err -> kube (option err)) P h :
  wp G p (on_ok P) h ->
  (forall e h', wp G (f e) (fun r _ => r <> None) h') ->
  wp G (p ≫= fun r => match r with None => Ret None | Some e => f e end) (on_ok P) h.
Proof.
  intros Hp Hf. apply wp_bind_2. eapply wp_mono; [exact Hp|]. intros [e|] h' _ HP; [|done].
  eapply wp_mono; [apply Hf|]. intros r h'' _ Hr ?. done.
Qed.
End rules.
End ownership.

(** ** What the ownership operations may write *)

(** A claim update is issued right after a successful fence check that followed
    a read of the recorded claim (same name, same UID), and relates the read
    object to the written one as [allowed]; there is no other write. *)
Definition claim_update_guard (ref : ObjectReference) (allowed : PVC -> PVC -> Prop)
    (h : trace) (r : req) : Prop :=
  match r with
  | UpdatePVC p' =>
      exists p h0,
        h = Ev FenceErr None :: Ev CtxErr None
              :: Ev (GetPVC (Namespace ref) (Name ref)) (inl p) :: h0 /\
        pvc_UID p = UID ref /\ allowed p p'
  | _ => is_write r = false
  end.

Lemma claim_update_reads ref allowed : reads_ok (claim_update_guard ref allowed).
Proof. intros h r Hw _. by destruct r. Qed.

Lemma ownership_input_ok ref sid op :
  validatePVCOwnershipInput ref sid op = None ->
  Namespace ref <> "" /\ Name ref <> "" /\ UID ref <> "" /\ sid <> "".
Proof. unfold validatePVCOwnershipInput. repeat case_test; bool_prop; done. Qed.

(** The recorded claim was last seen, or left, with property [P]. *)
Definition claim_seen (ref : ObjectReference) (P : PVC -> Prop) (h : trace) : Prop :=
  exists p, pvc_UID p = UID ref /\ P p /\
    (Ev (GetPVC (Namespace ref) (Name ref)) (inl p) ∈ h \/ Ev (UpdatePVC p) None ∈ h).

Definition claim_absent (ref : ObjectReference) (h : trace) : Prop :=
  exists e, IsNotFound e = true /\ Ev (GetPVC (Namespace ref) (Name ref)) (inr e) ∈ h.

Section claims.
Context `{ConflictRetry}.

Lemma wp_AcquirePVC ref sid h :
  wp (claim_update_guard ref (fun p p' =>
        mget (pvc_Annotations p) SessionKey = "" /\ p' = acquired p sid))
     (AcquirePVC ref sid)
     (on_ok (claim_seen ref (fun p => mget (pvc_Annotations p) SessionKey = sid))) h.
Proof.
  set (G := claim_update_guard _ _). assert (reads_ok G) as HG by apply claim_update_reads.
  apply wp_check_Ret. destruct (validatePVCOwnershipInput ref sid _) eqn:Hin; [done|].
  apply ownership_input_ok in Hin as (_ & _ & _ & Hsid).
  apply (wp_on_error G); [|intros e h'; by repeat case_test].
  apply wp_retry. intros h' _. unfold acquire_once.
  apply wp_check, wp_fence; [done| |done].
  apply wp_try, wp_call; [done|done|done|]. intros [p|e]; [|done].
  case_test; [done|]. bool_prop. unfold foreign_owner. case_test; [done|].
  case_test; bool_prop.
  - intros _. exists p. split_and!; [done|done|]. left. left.
  - apply wp_fenced_update_pvc; [done| |].
    + exists p, (Ev FenceErr None :: Ev CtxErr None :: h'). split_and!; [done|done| |done].
      by apply andb_false_iff in Heqb0 as [?|?]; bool_prop.
    + exists (acquired p sid). split_and!; [done|apply mget_insert|]. right. set_solver.
Qed.

(** Acquiring a claim is exclusive and exact.  Whatever the server answers,
    every write is an update of the recorded claim (same UID as read just
    before, behind a passed lease fence) that had no owning session, and adds
    only this session's annotation; and a successful return means the claim
    with the recorded UID was seen, or left, carrying this session. *)
Theorem AcquirePVC_exclusive {W} (H' : handler W) ref sid w :
  let out := run H' (AcquirePVC ref sid) w [] in
  calls_ok (claim_update_guard ref (fun p p' =>
    mget (pvc_Annotations p) SessionKey = "" /\ p' = acquired p sid)) [] out.2 /\
  (out.1.1 = Some None ->
     claim_seen ref (fun p => mget (pvc_Annotations p) SessionKey = sid) out.2).
Proof.
  cbv zeta. destruct (wp_adequate _ H' _ _ w [] (wp_AcquirePVC ref sid [])) as [Hc Hq].
  split; [exact Hc|]. intros Hn. by apply (Hq None).
Qed.

Lemma wp_ReleasePVC ref sid h :
  wp (claim_update_guard ref (fun p p' =>
        mget (pvc_Annotations p) SessionKey = sid /\ p' = released p))
     (ReleasePVC ref sid)
     (on_ok (fun h' => claim_absent ref h' \/
        claim_seen ref (fun p => mget (pvc_Annotations p) SessionKey <> sid) h')) h.
Proof.
  set (G := claim_update_guard _ _). assert (reads_ok G) as HG by apply claim_update_reads.
  apply wp_check_Ret. destruct (validatePVCOwnershipInput ref sid _) eqn:Hin; [done|].
  apply ownership_input_ok in Hin as (_ & _ & _ & Hsid).
  apply (wp_on_error G); [|intros e h'; by repeat case_test].
  apply wp_retry. intros h' _. unfold release_once.
  apply wp_check, wp_fence; [done| |done].
  apply wp_bind_2, wp_call; [done|done|done|]. intros [p|e].
  - case_test; [done|]. bool_prop. case_test; bool_prop.
    + intros _. right. exists p. split_and!; [done|done|]. left. left.
    + apply wp_fenced_update_pvc; [done| |].
      * exists p, (Ev FenceErr None :: Ev CtxErr None :: h'). done.
      * right. exists (released p). split_and!; [done| |right; set_solver].
        unfold released; simpl. rewrite mget_delete. congruence.
  - case_test; [|done]. intros _. left. exists e. split; [done|left].
Qed.

(** Releasing a claim removes exactly this session's mark.  Every write is a
    fenced update of the recorded claim that carried this session, and deletes
    the session annotation and nothing else; success means the claim was absent
    or was seen, or left, without this session. *)
Theorem ReleasePVC_exact {W} (H' : handler W) ref sid w :
  let out := run H' (ReleasePVC ref sid) w [] in
  calls_ok (claim_update_guard ref (fun p p' =>
    mget (pvc_Annotations p) SessionKey = sid /\ p' = released p)) [] out.2 /\
  (out.1.1 = Some None ->
     claim_absent ref out.2 \/
     claim_seen ref (fun p => mget (pvc_Annotations p) SessionKey <> sid) out.2).
Proof.
  cbv zeta. destruct (wp_adequate _ H' _ _ w [] (wp_ReleasePVC ref sid [])) as [Hc Hq].
  split; [exact Hc|]. intros Hn. by apply (Hq None).
Qed.

(** A claim a session may finalize: no other session's mark on it. *)
Definition unowned_or (sid : string) (p : PVC) : Prop :=
  (mget (pvc_Annotations p) SessionKey = "" \/ mget (pvc_Annotations p) SessionKey = sid) /\
  (mget (pvc_Labels p) SessionKey = "" \/ mget (pvc_Labels p) SessionKey = sid).

Lemma foreign_owner_false owner sid : foreign_owner owner sid = false <-> owner = "" \/ owner = sid.
Proof.
  unfold foreign_owner. rewrite andb_false_iff, !negb_false_iff, !String.eqb_eq. done.
Qed.

Lemma wp_FinalizePVC ref sid original h :
  wp (claim_update_guard ref (fun p p' => unowned_or sid p /\ p' = finalized p original))
     (FinalizePVC ref sid original)
     (on_ok (fun h' => claim_absent ref h' \/
        exists p, Ev (UpdatePVC (finalized p original)) None ∈ h')) h.
Proof.
  set (G := claim_update_guard _ _). assert (reads_ok G) as HG by apply claim_update_reads.
  apply wp_check_Ret. destruct (validatePVCOwnershipInput ref sid _) eqn:Hin; [done|].
  apply (wp_on_error G); [|intros e h'; by repeat case_test].
  apply wp_retry. intros h' _. unfold finalize_once.
  apply wp_check, wp_fence; [done| |done].
  apply wp_bind_2, wp_call; [done|done|done|]. intros [p|e].
  - case_test; [done|]. bool_prop. simpl List.find.
    destruct (foreign_owner (mget (pvc_Annotations p) SessionKey) sid) eqn:H1; [done|].
    destruct (foreign_owner (mget (pvc_Labels p) SessionKey) sid) eqn:H2; [done|].
    apply foreign_owner_false in H1, H2. apply wp_fenced_update_pvc; [done| |].
    + exists p, (Ev FenceErr None :: Ev CtxErr None :: h'). done.
    + right. exists p. set_solver.
  - case_test; [|done]. intros _. left. exists e. split; [done|left].
Qed.

(** Finalizing gives back the recorded metadata: every recorded label and
    annotation has its recorded value, the owner references are the recorded
    ones, and a session or role mark that was not recorded is gone. *)
Lemma finalized_metadata p original :
  let p' := finalized p original in
  meta_Labels original ⊆ pvc_Labels p' /\
  meta_Annotations original ⊆ pvc_Annotations p' /\
  pvc_OwnerReferences p' = meta_OwnerReferences original /\
  (forall k, k ∈ [ManagedByLabel; SessionKey; ResourceRoleLabel] ->
     pvc_Labels p' !! k = meta_Labels original !! k) /\
  (forall k, k ∈ [SessionKey; RollbackPVAnnotation; SourcePVAnnotation; SourcePVCUIDAnnotation] ->
     pvc_Annotations p' !! k = meta_Annotations original !! k).
Proof.
  cbv zeta. unfold finalized, maps_Copy; cbn [pvc_set_metadata pvc_Labels pvc_Annotations pvc_OwnerReferences].
  split_and!; [apply map_union_subseteq_l|apply map_union_subseteq_l|done| |];
    intros k Hk; rewrite lookup_union;
    repeat (apply elem_of_cons in Hk as [->|Hk]); try (by apply not_elem_of_nil in Hk);
    (rewrite ?lookup_delete_ne by done); rewrite ?lookup_delete_eq; by destruct (_ !! _).
Qed.

(** Finalizing never touches a claim of another session.  Every write is a
    fenced update of the recorded claim, on which neither the annotation nor the
    label names another session, and the written metadata is the recorded one:
    recorded labels and annotations restored, owner references replaced, no
    session or role mark left unless it was recorded. *)
Theorem FinalizePVC_safe {W} (H' : handler W) ref sid original w :
  let out := run H' (FinalizePVC ref sid original) w [] in
  calls_ok (claim_update_guard ref (fun p p' =>
    unowned_or sid p /\
    meta_Labels original ⊆ pvc_Labels p' /\ meta_Annotations original ⊆ pvc_Annotations p' /\
    pvc_OwnerReferences p' = meta_OwnerReferences original /\ pvc_Spec p' = pvc_Spec p /\
    (forall k, k ∈ [ManagedByLabel; SessionKey; ResourceRoleLabel] ->
       pvc_Labels p' !! k = meta_Labels original !! k) /\
    (forall k, k ∈ [SessionKey; RollbackPVAnnotation; SourcePVAnnotation; SourcePVCUIDAnnotation] ->
       pvc_Annotations p' !! k = meta_Annotations original !! k))) [] out.2 /\
  (out.1.1 = Some None ->
     claim_absent ref out.2 \/ exists p, Ev (UpdatePVC (finalized p original)) None ∈ out.2).
Proof.
  cbv zeta. destruct (wp_adequate _ H' _ _ w [] (wp_FinalizePVC ref sid original [])) as [Hc Hq].
  split; [|intros Hn; by apply (Hq None)].
  intros r x h1 H1 H2. specialize (Hc r x h1 H1 H2). destruct r; try exact Hc.
  destruct Hc as (p & h0 & -> & Hu & Hown & ->). exists p, h0. split_and!; [done|done|done|..];
    try apply (finalized_metadata p original). done.
Qed.
End claims.
