(* ===== verification/PVBinding.v ===== *)
(** * Claim deletion, PV retention, reservation and binding checks

    internal/kube/switcher_pv_binding.go, the offline checks of
    internal/kube/switcher.go and switcher_activation_recovery.go.

    [fuel] of a [Switcher] is the number of polls a wait of the model may make;
    [poll] is the interval of the code. *)

From S2P Require Import Prelude GoErrors Lifecycle KubeTypes Prog Api ResourceState Ownership.

Record Switcher := { poll : Z; fuel : nat }.

(** [time.Second] *)
Definition NewSwitcher (polls : nat) : Switcher := {| poll := 1000000000%Z; fuel := polls |}.

Definition waitFor {A} (s : Switcher) (description : string) (condition : kube (result (bool * A)))
    : kube (result A) :=
  WaitFor (fuel s) (poll s) description condition.

(** The error of a wait whose condition captures nothing. *)
Definition wait_error {A} (p : kube (result A)) : kube (option err) :=
  r ← p; Ret (match r with inl _ => None | inr e => Some e end).

Definition waitFor_ (s : Switcher) (description : string) (condition : kube (result (bool * unit)))
    : kube (option err) :=
  wait_error (waitFor s description condition).

(** A poll result without captured value. *)
Definition ready (b : bool) : result (bool * unit) := inl (b, tt).

(** ** Consumers and attachments (switcher.go) *)

Fixpoint ensureNoConsumerInPods (pods : list Pod) (namespace claim : string) : option err :=
  match pods with
  | [] => None
  | pod :: rest =>
      if PodPreventsSafePVCDeletion pod claim then
        Some (NewError ErrorPrecondition "verify PVC offline"
          (sprint ["PVC "; namespace; "/"; claim; " is referenced by Pod "; pod_Name pod]))
      else ensureNoConsumerInPods rest namespace claim
  end.

Definition ensureNoConsumers (namespace claim : string) : kube (option err) :=
  r ← call (ListPods namespace);
  match r with
  | inr e => fail (WrapError ErrorKubernetes "verify PVC offline" ("list Pods in " +:+ namespace) e)
  | inl None =>
      fail (NewError ErrorKubernetes "verify PVC offline"
        (sprint ["list Pods in "; namespace; " returned an empty object"]))
  | inl (Some pods) => Ret (ensureNoConsumerInPods pods namespace claim)
  end.

(** An attachment that still holds one of the wanted volumes. *)
Definition attachment_holds (pvNames : list string) (a : VolumeAttachment) : bool :=
  match va_PersistentVolumeName a with
  | None => false
  | Some name => (va_Attached a && contains pvNames name)%bool
  end.

Definition ensureVolumesDetached (s : Switcher) (pvNames : list string) : kube (option err) :=
  match pvNames with
  | [] => Ret None
  | _ =>
      let pvDescription := strings_join "," pvNames in
      waitFor_ s ("VolumeAttachment detach for PV(s) " +:+ pvDescription)
        (r ← call ListVolumeAttachments;
         Ret match r with
             | inr e =>
                 inr (WrapError ErrorKubernetes "verify PV offline"
                   ("list VolumeAttachments for PV(s) " +:+ pvDescription) e)
             | inl None =>
                 inr (NewError ErrorKubernetes "verify PV offline"
                   (sprint ["list VolumeAttachments for PV(s) "; pvDescription;
                            " returned an empty object"]))
             | inl (Some items) => ready (negb (existsb (attachment_holds pvNames) items))
             end)
  end.

Definition ensureDetached (s : Switcher) (pvName : string) : kube (option err) :=
  if pvName =s "" then Ret None else ensureVolumesDetached s [pvName].

(** ** Deleting a claim *)

Definition deletePVC (s : Switcher) (ref : ObjectReference) : kube (option err) :=
  if ((Namespace ref =s "") || (Name ref =s "") || (UID ref =s ""))%bool then
    fail (NewError ErrorValidation "delete PVC" "PVC namespace, name, and UID are required") else
  r ← call (GetPVC (Namespace ref) (Name ref));
  match r with
  | inr e =>
      if IsNotFound e then Ret None else
      fail (WrapError ErrorKubernetes "delete PVC"
        (sprint ["read "; Namespace ref; "/"; Name ref]) e)
  | inl pvc =>
      if pvc_UID pvc <>s UID ref then
        fail (NewError ErrorConflict "delete PVC"
          (sprint ["PVC "; Namespace ref; "/"; Name ref; " UID changed from "; UID ref;
                   " to "; pvc_UID pvc])) else
      check: Ret (validatePVCDeletionFinalizers pvc "delete PVC");
      check: fence;
      d ← call (DeletePVC (Namespace ref) (Name ref) (pvc_UID pvc) (pvc_ResourceVersion pvc));
      check: Ret match d with
                 | Some e =>
                     if IsNotFound e then None
                     else if IsConflict e then
                       Some (WrapError ErrorConflict "delete PVC"
                         (sprint ["PVC "; Namespace ref; "/"; Name ref; " changed concurrently"]) e)
                     else
                       Some (WrapError ErrorKubernetes "delete PVC"
                         (sprint ["delete "; Namespace ref; "/"; Name ref]) e)
                 | None => None
                 end;
      check: fence;
      waitFor_ s (sprint ["PVC "; Namespace ref; "/"; Name ref; " deletion"])
        (c ← call (GetPVC (Namespace ref) (Name ref));
         Ret match c with
             | inr e => if IsNotFound e then ready true else inr e
             | inl current =>
                 if pvc_UID current <>s pvc_UID pvc then
                   inr (NewError ErrorConflict "delete PVC"
                     (sprint ["PVC "; Namespace ref; "/"; Name ref; " name was reused"]))
                 else ready false
             end)
  end.

(** ** Reserving a volume for a claim *)

Definition claimref_is (ref : option ObjectReference) (namespace claim : string) : bool :=
  match ref with
  | None => false
  | Some c => ((Namespace c =s namespace) && (Name c =s claim))%bool
  end.

Definition claimref_uid (ref : option ObjectReference) : string :=
  match ref with None => "" | Some c => UID c end.

(** The claim the volume points to is the live one and points back. *)
Definition bound_back (pv : PV) (current : PVC) : bool :=
  ((claimref_uid (pv_ClaimRef pv) <>s "") && (pvc_UID current =s claimref_uid (pv_ClaimRef pv))
   && (pvc_VolumeName current =s pv_Name pv))%bool.

Definition pvReadyForReservation (ref : ObjectReference) (namespace claim : string)
    : kube (result (bool * unit)) :=
  try: pv ← call (GetPV (Name ref));
  if pv_UID pv <>s UID ref then
    fail (NewError ErrorConflict "reserve PV" (sprint ["PV "; Name ref; " UID changed"])) else
  if negb (claimref_is (pv_ClaimRef pv) namespace claim) then
    Ret (ready (bool_decide (pv_Phase pv = VolumeReleased) || bool_decide (pv_Phase pv = VolumeAvailable)))
  else
    c ← call (GetPVC namespace claim);
    match c with
    | inl current =>
        if bound_back pv current then Ret (ready true)
        else fail (NewError ErrorConflict "reserve PV"
          (sprint ["PV "; pv_Name pv; " claimRef points to a different PVC identity"]))
    | inr e => if negb (IsNotFound e) then fail e else Ret (ready true)
    end.

Definition waitForPVReservation (s : Switcher) (ref : ObjectReference) (namespace claim : string)
    : kube (option err) :=
  waitFor_ s (sprint ["PV "; Name ref; " release before reservation"])
    (pvReadyForReservation ref namespace claim).

Definition reservation (namespace claim : string) : ObjectReference :=
  {| APIVersion := CoreAPIVersion; Kind := KindPersistentVolumeClaim;
     Namespace := namespace; Name := claim; UID := ""; ResourceVersion := "" |}.

Definition updatePVReservation (ref : ObjectReference) (namespace claim sessionID : string)
    : kube (option err) :=
  try: pv ← call (GetPV (Name ref));
  if pv_UID pv <>s UID ref then
    fail (NewError ErrorConflict "reserve PV" (sprint ["PV "; Name ref; " UID changed"])) else
  let owner := mget (pv_Labels pv) SessionKey in
  if foreign_owner owner sessionID then
    fail (NewError ErrorConflict "reserve PV"
      (sprint ["PV "; Name ref; " belongs to session "; owner])) else
  let update := fenced_update_pv (pv_set_ClaimRef pv (Some (reservation namespace claim))) in
  if claimref_is (pv_ClaimRef pv) namespace claim then
    c ← call (GetPVC namespace claim);
    match c with
    | inl current =>
        if bound_back pv current then Ret None
        else fail (NewError ErrorConflict "reserve PV"
          (sprint ["PV "; pv_Name pv; " claimRef points to a different PVC identity"]))
    | inr e =>
        if negb (IsNotFound e) then fail e
        else if claimref_uid (pv_ClaimRef pv) =s "" then Ret None
        else update
    end
  else update.

(** The error a retried volume update is reported with. *)
Definition report_update (op message : string) (r : option err) : kube (option err) :=
  match r with
  | None => Ret None
  | Some e =>
      if bool_decide (CategoryOf (Some e) = ErrorConflict) then fail e
      else fail (WrapError ErrorKubernetes op message e)
  end.

Section retry.
Context `{ConflictRetry}.

Definition reservePV (s : Switcher) (ref : ObjectReference) (namespace claim sessionID : string)
    : kube (option err) :=
  if ((Name ref =s "") || (UID ref =s "") || (namespace =s "") || (claim =s "") || (sessionID =s ""))%bool
  then fail (NewError ErrorValidation "reserve PV"
         "PV name/UID, claim namespace/name, and session ID are required") else
  check: waitForPVReservation s ref namespace claim;
  r ← RetryOnConflict (updatePVReservation ref namespace claim sessionID);
  report_update "reserve PV" (sprint ["update PV "; Name ref; " claimRef"]) r.

(** ** Retaining a volume *)

(** The volume as [ensureRetain] writes it, and whether that changes it: session
    labels, the original policy recorded once, and policy Retain.  [pairs] holds
    the pair annotation that [markPVPair] sets first. *)
Definition retained_pv (pv : PV) (sessionID role : string) (pairs : list (string * string)) : PV * bool :=
  let '(labels, changed) := markPVSession (pv_Labels pv) sessionID role in
  let '(annotations, changed) := foldl set_label (pv_Annotations pv, changed) pairs in
  let '(annotations, changed) :=
    if mget annotations OriginalPolicyAnnotation =s "" then
      (<[OriginalPolicyAnnotation := policy_string (pv_ReclaimPolicy pv)]> annotations, true)
    else (annotations, changed) in
  let changed := if bool_decide (pv_ReclaimPolicy pv = ReclaimRetain) then changed else true in
  (pv_set_metadata pv labels annotations ReclaimRetain, changed).

Definition retain_once (ref : ObjectReference) (sessionID role : string) : kube (option err) :=
  try: pv ← call (GetPV (Name ref));
  if pv_UID pv <>s UID ref then
    fail (NewError ErrorConflict "retain PV" (sprint ["PV "; Name ref; " UID changed"])) else
  let owner := mget (pv_Labels pv) SessionKey in
  if foreign_owner owner sessionID then
    fail (NewError ErrorConflict "retain PV"
      (sprint ["PV "; Name ref; " belongs to session "; owner])) else
  let '(pv', changed) := retained_pv pv sessionID role [] in
  if negb changed then Ret None else fenced_update_pv pv'.

Definition ensureRetain (ref : ObjectReference) (sessionID role : string) : kube (option err) :=
  if ((Name ref =s "") || (UID ref =s "") || (sessionID =s "") || (role =s ""))%bool then
    fail (NewError ErrorValidation "retain PV" "PV name/UID, session ID, and role are required") else
  r ← RetryOnConflict (retain_once ref sessionID role);
  report_update "retain PV" ("update PV " +:+ Name ref) r.

Definition mark_once (sessionID : string) (rolledBack : bool) (ref : ObjectReference) (role other : string)
    : kube (option err) :=
  r ← call (GetPV (Name ref));
  match r with
  | inr e =>
      if (rolledBack && (role =s ResourceRoleRollback) && IsNotFound e)%bool then Ret None else fail e
  | inl pv =>
      if pv_UID pv <>s UID ref then
        fail (NewError ErrorConflict "mark PV pair" (sprint ["PV "; Name ref; " UID changed"])) else
      let owner := mget (pv_Labels pv) SessionKey in
      if foreign_owner owner sessionID then
        fail (NewError ErrorConflict "mark PV pair"
          (sprint ["PV "; Name ref; " belongs to session "; owner])) else
      let '(pv', changed) := retained_pv pv sessionID role [(PairedPVAnnotation, other)] in
      if negb changed then Ret None else fenced_update_pv pv'
  end.

Definition mark_item (sessionID : string) (rolledBack : bool) (ref : ObjectReference) (role other : string)
    : kube (option err) :=
  r ← RetryOnConflict (mark_once sessionID rolledBack ref role other);
  report_update "mark PV pair" ("update PV " +:+ Name ref) r.

Definition markPVPair (sessionID : string) (sourcePV destinationPV : ObjectReference) (rolledBack : bool)
    : kube (option err) :=
  if ((sessionID =s "") || (Name sourcePV =s "") || (UID sourcePV =s "")
      || (Name destinationPV =s "") || (UID destinationPV =s ""))%bool then
    fail (NewError ErrorValidation "mark PV pair"
      "session ID and source/destination PV identities are required") else
  let '(active, rollback) :=
    if rolledBack then (sourcePV, destinationPV) else (destinationPV, sourcePV) in
  check: mark_item sessionID rolledBack active ResourceRoleActive (Name rollback);
  check: mark_item sessionID rolledBack rollback ResourceRoleRollback (Name active);
  Ret None.
End retry.
