(* ===== verification/NodeSelection.v ===== *)
(** * Node affinity of volumes: internal/kube/reserver.go

    The node selector terms of a volume evaluated against Node objects, as the
    scheduler does, and the tolerations of a Pod pinned to a tainted node.
    [strconv.ParseInt] of the Go standard library is modelled for the ordered
    operators. *)

From S2P Require Import Prelude GoErrors Lifecycle KubeTypes.
From Stdlib Require Import Ascii.

#[local] Open Scope Z_scope.

(** ** [strconv.ParseInt(s, 10, 64)], [None] for a syntax or range error *)

Definition digit_value (c : ascii) : option Z :=
  if byte_in 48 57 c then Some (Z.of_N (byte_val c) - 48) else None.

Fixpoint digits_value (acc : Z) (s : list ascii) : option Z :=
  match s with
  | [] => Some acc
  | c :: rest =>
      match digit_value c with
      | Some d => digits_value (10 * acc + d) rest
      | None => None
      end
  end.

Definition unsigned_value (s : list ascii) : option Z :=
  match s with [] => None | _ => digits_value 0 s end.

Definition ParseInt (s : string) : option Z :=
  let '(negative, rest) :=
    match bytes s with
    | c :: rest =>
        if N.eqb (byte_val c) 43 then (false, rest)
        else if N.eqb (byte_val c) 45 then (true, rest)
        else (false, bytes s)
    | [] => (false, [])
    end in
  match unsigned_value rest with
  | None => None
  | Some n =>
      if negative then if 2 ^ 63 <? n then None else Some (- n)
      else if 2 ^ 63 <=? n then None else Some n
  end.

(** ** Requirements *)

Definition nodeRequirementMatches (requirement : NodeSelectorRequirement) (actual : string)
    (exists_ : bool) : bool :=
  let op := requirement_Operator requirement in
  if op =s "In" then (exists_ && contains (requirement_Values requirement) actual)%bool
  else if op =s "NotIn" then (negb exists_ || negb (contains (requirement_Values requirement) actual))%bool
  else if op =s "Exists" then exists_
  else if op =s "DoesNotExist" then negb exists_
  else if ((op =s "Gt") || (op =s "Lt"))%bool then
    match requirement_Values requirement with
    | [value] =>
        if negb exists_ then false else
        match ParseInt actual, ParseInt value with
        | Some l, Some r => if op =s "Gt" then r <? l else l <? r
        | _, _ => false
        end
    | _ => false
    end
  else false.

(** A value and whether it exists. *)
Definition nodeFieldValue (node : Node) (key : string) : string * bool :=
  if key =s "metadata.name" then (node_Name node, node_Name node <>s "")
  else if key =s "metadata.uid" then (node_UID node, node_UID node <>s "")
  else ("", false).

(** A label's value; the host name defaults to the node's name. *)
Definition node_label_value (node : Node) (key : string) : string * bool :=
  match node_Labels node !! key with
  | Some actual => (actual, true)
  | None =>
      if ((key =s LabelHostname) && (node_Name node <>s ""))%bool then (node_Name node, true)
      else ("", false)
  end.

Definition term_matches (node : Node) (term : NodeSelectorTerm) : bool :=
  (forallb (fun requirement =>
      let '(actual, exists_) := node_label_value node (requirement_Key requirement) in
      nodeRequirementMatches requirement actual exists_) (MatchExpressions term)
   && forallb (fun requirement =>
      let '(actual, exists_) := nodeFieldValue node (requirement_Key requirement) in
      nodeRequirementMatches requirement actual exists_) (MatchFields term))%bool.

Definition PVSupportsNode (pv : PV) (node : Node) : bool :=
  match pv_NodeAffinity pv with
  | None | Some [] => true
  | Some terms => existsb (term_matches node) terms
  end.

(** The loop over the nodes; it stops at the second candidate. *)
Fixpoint unique_candidate (pv : PV) (nodes : list Node) (candidate : string) : string :=
  match nodes with
  | [] => candidate
  | node :: rest =>
      if negb (PVSupportsNode pv node) then unique_candidate pv rest candidate
      else if candidate <>s "" then ""
      else unique_candidate pv rest (node_Name node)
  end.

Definition PVUniqueNodeName (pv : option PV) (nodes : list Node) : string :=
  match pv with
  | None => ""
  | Some pv =>
      match pv_NodeAffinity pv with
      | None | Some [] => ""
      | Some _ => unique_candidate pv nodes ""
      end
  end.

(** ** Tolerations *)

Definition taint_toleration (taint : Taint) : Toleration :=
  {| toleration_Key := taint_Key taint;
     toleration_Operator := if taint_Value taint =s "" then "Exists" else "Equal";
     toleration_Value := taint_Value taint; toleration_Effect := taint_Effect taint |}.

Definition nodeTolerations (node : Node) : list Toleration :=
  map taint_toleration
    (List.filter (fun taint => (taint_Effect taint =s "NoSchedule") || (taint_Effect taint =s "NoExecute"))%bool
       (node_Taints node)).

(** ** Facts *)

Lemma unique_candidate_one pv nodes c :
  c <> "" -> unique_candidate pv nodes c =
             if existsb (PVSupportsNode pv) nodes then "" else c.
Proof.
  intros Hc. induction nodes as [|n l IH]; simpl; [done|].
  destruct (PVSupportsNode pv n); simpl; [|exact IH].
  by apply String.eqb_neq in Hc as ->.
Qed.

Lemma unique_candidate_split pv nodes name :
  name <> "" -> unique_candidate pv nodes "" = name ->
  (forall n, n ∈ nodes -> node_Name n <> "") ->
  exists l1 n l2, nodes = l1 ++ n :: l2 /\ node_Name n = name /\ PVSupportsNode pv n = true /\
    Forall (fun m => PVSupportsNode pv m = false) (l1 ++ l2).
Proof.
  intros Hne. induction nodes as [|n l IH]; simpl; intros Hu Hn; [congruence|].
  destruct (PVSupportsNode pv n) eqn:E; simpl in Hu.
  - rewrite unique_candidate_one in Hu by (apply Hn; left).
    destruct (existsb _ l) eqn:Ex; [congruence|].
    exists [], n, l. split_and!; [done|done|done|]. simpl. apply Forall_forall. intros m Hm.
    destruct (PVSupportsNode pv m) eqn:Em; [|done].
    rewrite <- Ex. symmetry. apply existsb_exists. exists m. by rewrite <- list_elem_of_In.
  - destruct IH as (l1 & m & l2 & -> & H1 & H2 & H3); [done|intros k Hk; apply Hn; by right|].
    exists (n :: l1), m, l2. split_and!; [done|done|done|]. by constructor.
Qed.
