(* ===== verification/Quota.v ===== *)
(** * Quota and admission projection

    internal/kube/quota.go, pvc_policy.go and the quota part of tool_admission.go:
    whether the claims and tool Pods a workflow will create fit the ResourceQuotas
    and LimitRanges of a namespace.  A ResourceList is a map from resource names to
    quantities; a Go loop over a map is a loop over [map_to_list], and the violations
    are sorted at the end, so the iteration order does not show in the result.  The
    lists that the code reads concurrently are read one after the other. *)

From S2P Require Import Prelude Utf8 GoErrors Lifecycle KubeTypes Prog Api ResourceState Ownership.

Notation ResourceList := (gmap string Quantity).

(** [resource.NewQuantity]: quantities are counted in the API's smallest unit, the
    nano. *)
Definition NewQuantity (n : Z) : Quantity := (n * 1000000000)%Z.

(** ** Strings *)

Definition HasPrefix (s p : string) : bool := String.prefix p s.

(** [strings.TrimPrefix], [strings.Cut] and [strings.Contains] *)
Definition TrimPrefix (s p : string) : string :=
  if HasPrefix s p then String.substring (String.length p) (String.length s - String.length p) s else s.

Fixpoint strings_Cut (s sep : string) : string * string * bool :=
  if HasPrefix s sep then ("", TrimPrefix s sep, true)
  else match s with
       | "" => ("", "", false)
       | String c rest => let '(before, after, found) := strings_Cut rest sep in (String c before, after, found)
       end.

Definition strings_Contains (s sub : string) : bool := (strings_Cut s sub).2.

(** ** Resource names *)

Definition ResourceStorage : string := "storage".
Definition ResourceCPU : string := "cpu".
Definition ResourceMemory : string := "memory".
Definition ResourceEphemeralStorage : string := "ephemeral-storage".
Definition ResourceRequestsStorage : string := "requests.storage".
Definition ResourcePersistentVolumeClaims : string := "persistentvolumeclaims".
Definition ResourcePods : string := "pods".
Definition ResourceServices : string := "services".
Definition ResourceServicesNodePorts : string := "services.nodeports".
Definition ResourceServicesLoadBalancers : string := "services.loadbalancers".
Definition ResourceSecrets : string := "secrets".
Definition ResourceConfigMaps : string := "configmaps".
Definition DefaultResourceRequestsPrefix : string := "requests.".
Definition ResourceHugePagesPrefix : string := "hugepages-".
Definition ResourceRequestsHugePagesPrefix : string := "requests.hugepages-".
Definition ResourceDefaultNamespacePrefix : string := "kubernetes.io/".
Definition ResourceDeviceClassPrefix : string := "deviceclass.resource.kubernetes.io/".

Definition countResourcePrefix : string := "count/".
Definition storageClassQuotaResourceInfix : string := ".storageclass.storage.k8s.io/".
Definition countPodsResource : string := "count/pods".
Definition countPersistentVolumeClaimsResource : string := "count/persistentvolumeclaims".

Definition storageClassQuotaResourceName (class resourceName : string) : string :=
  class +:+ storageClassQuotaResourceInfix +:+ resourceName.

Definition splitStorageClassQuotaResourceName (name : string) : string * string * bool :=
  strings_Cut name storageClassQuotaResourceInfix.

Definition isPVCQuotaResource (name : string) : bool :=
  if ((name =s ResourceRequestsStorage) || (name =s ResourcePersistentVolumeClaims)
      || (name =s countPersistentVolumeClaimsResource))%bool then true else
  let '(_, suffix, ok) := splitStorageClassQuotaResourceName name in
  (ok && ((suffix =s ResourceRequestsStorage) || (suffix =s ResourcePersistentVolumeClaims)))%bool.

Definition isToolExtendedResource (name : string) : bool :=
  if HasPrefix name ResourceDeviceClassPrefix then true else
  (strings_Contains name "/" && negb (strings_Contains name ResourceDefaultNamespacePrefix)
   && negb (HasPrefix name DefaultResourceRequestsPrefix))%bool.

Definition isToolQuotaExtendedResource (name : string) : bool :=
  if negb (HasPrefix name DefaultResourceRequestsPrefix) then false
  else isToolExtendedResource (TrimPrefix name DefaultResourceRequestsPrefix).

Definition compute_resources : list string := [ResourceCPU; ResourceMemory; ResourceEphemeralStorage].

Definition isToolPodQuotaResource (name : string) : bool :=
  if contains ([ResourcePods; countPodsResource] ++ compute_resources
               ++ map (String.append "requests.") compute_resources
               ++ map (String.append "limits.") compute_resources) name then true else
  (HasPrefix name ResourceHugePagesPrefix || HasPrefix name ResourceRequestsHugePagesPrefix
   || isToolQuotaExtendedResource name)%bool.

Definition isToolQuotaResource (name : string) : bool :=
  if isToolPodQuotaResource name then true else
  if contains [ResourceRequestsStorage; ResourcePersistentVolumeClaims; ResourceServices;
               ResourceServicesNodePorts; ResourceServicesLoadBalancers; ResourceSecrets;
               ResourceConfigMaps] name then true else
  if HasPrefix name countResourcePrefix then
    Nat.ltb (String.length countResourcePrefix) (String.length name) else
  let '(class, resourceName, found) := splitStorageClassQuotaResourceName name in
  if (negb found || (class =s ""))%bool then false else
  ((resourceName =s ResourceRequestsStorage) || (resourceName =s ResourcePersistentVolumeClaims))%bool.

(** ** Quota scopes *)

Definition ScopeVolumeAttributesClass : string := "VolumeAttributesClass".

Definition exists_selector (scope : string) : ScopedResourceSelectorRequirement :=
  {| scope_Name := scope; scope_Operator := "Exists"; scope_Values := [] |}.

Definition selector_expressions (quota : ResourceQuota) : list ScopedResourceSelectorRequirement :=
  default [] (quota_ScopeSelector quota).

Definition pvcMatchesScope (selector : ScopedResourceSelectorRequirement) (classNames : list string) : bool :=
  if scope_Name selector <>s ScopeVolumeAttributesClass then false else
  let op := scope_Operator selector in
  if op =s "Exists" then Nat.ltb 0 (length classNames)
  else if op =s "DoesNotExist" then Nat.eqb (length classNames) 0
  else if op =s "In" then existsb (contains (scope_Values selector)) classNames
  else if op =s "NotIn" then
    (Nat.eqb (length classNames) 0
     || existsb (fun name => negb (contains (scope_Values selector) name)) classNames)%bool
  else false.

Definition pvcMatchesQuotaScopes (quota : ResourceQuota) (classNames : list string) : bool :=
  (forallb (fun scope => pvcMatchesScope (exists_selector scope) classNames) (quota_Scopes quota)
   && forallb (fun selector => pvcMatchesScope selector classNames) (selector_expressions quota))%bool.

Definition booleanToolScopeMatches (operator : string) (present : bool) : bool :=
  if operator =s "Exists" then present else if operator =s "DoesNotExist" then negb present else false.

Definition toolPodMatchesScope (selector : ScopedResourceSelectorRequirement) (terminating : bool) : bool :=
  let scope := scope_Name selector in
  let op := scope_Operator selector in
  if scope =s "Terminating" then booleanToolScopeMatches op terminating
  else if scope =s "NotTerminating" then booleanToolScopeMatches op (negb terminating)
  else if scope =s "BestEffort" then booleanToolScopeMatches op true
  else if ((scope =s "NotBestEffort") || (scope =s "CrossNamespacePodAffinity")
           || (scope =s ScopeVolumeAttributesClass))%bool then booleanToolScopeMatches op false
  else if scope =s "PriorityClass" then ((op =s "NotIn") || (op =s "DoesNotExist"))%bool
  else false.

Definition toolQuotaSelectors (quota : ResourceQuota) : list ScopedResourceSelectorRequirement :=
  map exists_selector (quota_Scopes quota) ++ selector_expressions quota.

Definition toolPodMatchesQuotaScopes (quota : ResourceQuota) (terminating : bool) : bool :=
  forallb (fun selector => toolPodMatchesScope selector terminating) (toolQuotaSelectors quota).

Definition ToolQuotaResourceMatches (quota : ResourceQuota) (name : string) : bool :=
  if negb (isToolQuotaResource name) then false else
  match toolQuotaSelectors quota with
  | [] => true
  | selectors =>
      if isToolPodQuotaResource name then
        (toolPodMatchesQuotaScopes quota true || toolPodMatchesQuotaScopes quota false)%bool
      else if isPVCQuotaResource name then forallb (fun selector => pvcMatchesScope selector []) selectors
      else false
  end.

(** ** Demand of a workflow *)

Record ResourceEstimate := {
  StorageRequests : string;
  PVCs : Z;
  Pods : Z;
  TerminatingPods : Z;
  NotTerminatingPods : Z;
  Jobs : Z;
  Deployments : Z;
  ReplicaSets : Z;
  Services : Z;
  ServiceNodePorts : Z;
  ServiceLoadBalancers : Z;
  Endpoints : Z;
  EndpointSlices : Z;
  Secrets : Z;
  ConfigMaps : Z;
  ServiceAccounts : Z;
  Leases : Z;
  ByStorageClass : gmap string string;
  PVCsByStorageClass : gmap string Z
}.

Definition with_Pods (e : ResourceEstimate) (pods : Z) : ResourceEstimate :=
  {| StorageRequests := StorageRequests e; PVCs := PVCs e; Pods := pods;
     TerminatingPods := TerminatingPods e; NotTerminatingPods := NotTerminatingPods e; Jobs := Jobs e;
     Deployments := Deployments e; ReplicaSets := ReplicaSets e; Services := Services e;
     ServiceNodePorts := ServiceNodePorts e; ServiceLoadBalancers := ServiceLoadBalancers e;
     Endpoints := Endpoints e; EndpointSlices := EndpointSlices e; Secrets := Secrets e;
     ConfigMaps := ConfigMaps e; ServiceAccounts := ServiceAccounts e; Leases := Leases e;
     ByStorageClass := ByStorageClass e; PVCsByStorageClass := PVCsByStorageClass e |}.

Definition toolQuotaPodCount (quota : ResourceQuota) (estimate : ResourceEstimate) : Z :=
  let terminating := toolPodMatchesQuotaScopes quota true in
  let notTerminating := toolPodMatchesQuotaScopes quota false in
  if (terminating && notTerminating)%bool then Pods estimate
  else if terminating then TerminatingPods estimate
  else if notTerminating then NotTerminatingPods estimate else 0%Z.

Definition addCount (result : ResourceList) (nc : string * Z) : ResourceList :=
  if Z.ltb 0 nc.2 then <[nc.1 := NewQuantity nc.2]> result else result.

Definition counted (e : ResourceEstimate) : list (string * Z) :=
  [(ResourcePersistentVolumeClaims, PVCs e); (ResourcePods, Pods e); (countPodsResource, Pods e);
   ("count/deployments.apps", Deployments e); ("count/replicasets.apps", ReplicaSets e);
   (ResourceServices, Services e); (ResourceServicesNodePorts, ServiceNodePorts e);
   (ResourceServicesLoadBalancers, ServiceLoadBalancers e); (ResourceSecrets, Secrets e);
   (ResourceConfigMaps, ConfigMaps e); ("count/jobs.batch", Jobs e); ("count/services", Services e);
   ("count/endpoints", Endpoints e); ("count/endpointslices.discovery.k8s.io", EndpointSlices e);
   ("count/secrets", Secrets e); ("count/configmaps", ConfigMaps e);
   ("count/serviceaccounts", ServiceAccounts e); (countPersistentVolumeClaimsResource, PVCs e);
   ("count/leases.coordination.k8s.io", Leases e)].

Section quantities.
Context `{QT : QuantityText}.

(** One StorageClass of the estimate. *)
Definition add_class (e : ResourceEstimate) (demand : ResourceList) (cv : string * string) : result ResourceList :=
  let '(class, value) := cv in
  if class =s "" then inl demand else
  match ParseQuantity value with
  | inr err =>
      inr (WrapError ErrorInternal "quota estimate" (sprint ["parse StorageClass "; class; " demand"]) err)
  | inl quantity =>
      match PVCsByStorageClass e !! class with
      | None =>
          inr (NewError ErrorInternal "quota estimate"
            (sprint ["StorageClass "; class; " PVC demand is missing"]))
      | Some classPVCs =>
          let demand :=
            if Z.ltb 0 quantity
            then <[storageClassQuotaResourceName class ResourceRequestsStorage := quantity]> demand else demand in
          inl (addCount demand (storageClassQuotaResourceName class ResourcePersistentVolumeClaims, classPVCs))
      end
  end.

Fixpoint add_classes (e : ResourceEstimate) (demand : ResourceList) (l : list (string * string))
    : result ResourceList :=
  match l with
  | [] => inl demand
  | cv :: rest =>
      match add_class e demand cv with
      | inr err => inr err
      | inl demand => add_classes e demand rest
      end
  end.

Definition resourceQuotaDemand (estimate : ResourceEstimate) : result ResourceList :=
  let storageValue := TrimSpace (StorageRequests estimate) in
  let storageValue := if storageValue =s "" then "0" else storageValue in
  match ParseQuantity storageValue with
  | inr err => inr (WrapError ErrorInternal "quota estimate" "parse storage demand" err)
  | inl storage =>
      let demand : ResourceList := if Z.ltb 0 storage then {[ResourceRequestsStorage := storage]} else ∅ in
      add_classes estimate (foldl addCount demand (counted estimate)) (map_to_list (ByStorageClass estimate))
  end.

(** ** LimitRange defaults for the tool containers *)

Definition container_items (limitRange : LimitRange) : list LimitRangeItem :=
  List.filter (fun item => limit_Type item =s "Container") (limitRange_Limits limitRange).

Definition toolLimitRangeDefaults (item : LimitRangeItem) : ResourceList * ResourceList :=
  let defaultLimits := limit_Default item ∪ limit_Max item in
  (defaultLimits, limit_DefaultRequest item ∪ defaultLimits ∪ limit_Min item).

Record ResourceRequirements := { Requests : ResourceList; Limits : ResourceList }.

Definition ZeroResourceRequirements : ResourceRequirements :=
  {| Requests := {[ResourceCPU := 0%Z; ResourceMemory := 0%Z; ResourceEphemeralStorage := 0%Z]};
     Limits := {[ResourceCPU := 0%Z; ResourceMemory := 0%Z]} |}.

(** A later item of a LimitRange overrides an earlier one; what the Pod states, or
    an earlier LimitRange defaulted, is kept. *)
Definition default_from (r : ResourceRequirements) (limitRange : LimitRange) : ResourceRequirements :=
  let defaults :=
    foldl (fun acc item =>
             let '(limits, requests) := toolLimitRangeDefaults item in (requests ∪ acc.1, limits ∪ acc.2))
      (∅, ∅) (container_items limitRange) in
  {| Requests := Requests r ∪ defaults.1; Limits := Limits r ∪ defaults.2 |}.

Definition ToolResourcesAfterLimitRanges (limitRanges : list LimitRange) : ResourceRequirements :=
  foldl default_from ZeroResourceRequirements limitRanges.

Definition add_scaled (pods : Z) (result : ResourceList) (nq : string * Quantity) : ResourceList :=
  if Z.eqb nq.2 0 then result else <[nq.1 := (nq.2 * pods)%Z]> result.

(** The quota names under which a request is counted. *)
Definition request_names (name : string) : list string :=
  if (contains compute_resources name || HasPrefix name ResourceHugePagesPrefix)%bool
  then [name; DefaultResourceRequestsPrefix +:+ name]
  else if isToolExtendedResource name then [DefaultResourceRequestsPrefix +:+ name] else [].

Definition limit_names (name : string) : list string :=
  if contains compute_resources name then ["limits." +:+ name] else [].

Definition ToolComputeQuotaDemand (limitRanges : list LimitRange) (pods : Z) : ResourceList :=
  if Z.leb pods 0 then ∅ else
  let resources := ToolResourcesAfterLimitRanges limitRanges in
  let add names result (nq : string * Quantity) :=
    foldl (fun result name => add_scaled pods result (name, nq.2)) result (names nq.1) in
  foldl (add limit_names)
    (foldl (add request_names) ∅ (map_to_list (Requests resources)))
    (map_to_list (Limits resources)).

(** ** Projection of a workflow's demand (quota.go) *)

Record ResourceQuotaReport := { Checked : nat; Violations : list string }.

(** The verdict on one demanded resource: not bounded, or bounded with the
    violation it causes. *)
Definition capacity_verdict (namespace : string) (quota : ResourceQuota) (nq : string * Quantity)
    : option (option string) :=
  let '(name, requested) := nq in
  if negb (ToolQuotaResourceMatches quota name) then None else
  match quota_Hard quota !! name with
  | None => None
  | Some hard =>
      Some match quota_Used quota !! name with
           | None =>
               Some (sprint [namespace; "/"; quota_Name quota; " "; name; ": quota status has no current usage"])
           | Some used =>
               if Z.ltb hard (used + requested) then
                 Some (sprint [namespace; "/"; quota_Name quota; " "; name; ": used "; quantity_string used;
                               " + requested "; quantity_string requested; " exceeds hard ";
                               quantity_string hard])
               else None
           end
  end.

Definition quota_demand (limitRanges : list LimitRange) (estimate : ResourceEstimate) (quota : ResourceQuota)
    : result ResourceList :=
  let estimate := with_Pods estimate (toolQuotaPodCount quota estimate) in
  match resourceQuotaDemand estimate with
  | inr e => inr e
  | inl demand => inl (ToolComputeQuotaDemand limitRanges (Pods estimate) ∪ demand)
  end.

Fixpoint capacity_verdicts (namespace : string) (limitRanges : list LimitRange) (estimate : ResourceEstimate)
    (quotas : list ResourceQuota) : result (list (option string)) :=
  match quotas with
  | [] => inl []
  | quota :: rest =>
      match quota_demand limitRanges estimate quota with
      | inr e => inr e
      | inl demand =>
          match capacity_verdicts namespace limitRanges estimate rest with
          | inr e => inr e
          | inl more => inl (omap (capacity_verdict namespace quota) (map_to_list demand) ++ more)
          end
      end
  end.

Definition EvaluateResourceQuotaCapacity (namespace : string) (quotas : list ResourceQuota)
    (limitRanges : list LimitRange) (estimate : ResourceEstimate) : result ResourceQuotaReport :=
  match capacity_verdicts namespace limitRanges estimate quotas with
  | inr e => inr e
  | inl verdicts => inl {| Checked := length verdicts; Violations := slices_Sort (omap id verdicts) |}
  end.
End quantities.
