(* ===== verification/PVCPolicy.v ===== *)
(** * Admission of replaced claims: internal/kube/pvc_policy.go

    When a claim is deleted and created again under the same or another class, the
    namespace's quotas see one claim less and one more.  The check projects that net
    change onto each quota's usage, with the old claim's usage read from the server.
    [claim_usage] is the reference: the usage after the old claims are gone and the
    new ones admitted. *)

From S2P Require Import Prelude Utf8 GoErrors Lifecycle KubeTypes Prog Api ResourceState Ownership Quota.

Record PVCAdmissionChange := {
  change_Namespace : string;
  change_Name : string;
  RequestedStorage : Quantity;
  RequestedStorageClass : string;
  Existing : bool;
  ExistingUID : string;
  ExistingStorage : Quantity;
  ExistingStorageClass : string;
  RequestedClassNames : list string;    (* RequestedVolumeAttributesClassNames *)
  ExistingClassNames : list string      (* ExistingVolumeAttributesClassNames *)
}.

Record PVCAdmissionReport := { QuotaViolations : list string; LimitRangeViolations : list string }.

(** ** Volume attribute classes *)

(** The values in order, without the empty one and repetitions. *)
Fixpoint unique_from (seen : list string) (values : list string) : list string :=
  match values with
  | [] => []
  | value :: rest =>
      if ((value =s "") || contains seen value)%bool then unique_from seen rest
      else value :: unique_from (value :: seen) rest
  end.

Definition uniqueNonEmptyStrings (values : list string) : list string := unique_from [] values.

Definition referencedVolumeAttributesClassNames (pvc : option PVC) : list string :=
  match pvc with
  | None => []
  | Some p =>
      let name (o : option string) := match o with Some n => [n] | None => [] end in
      uniqueNonEmptyStrings
        (name (spec_VolumeAttributesClassName (pvc_Spec p)) ++ name (pvc_CurrentVolumeAttributesClass p)
         ++ name (pvc_TargetVolumeAttributesClass p))
  end.

Definition RequestedVolumeAttributesClassNames (spec : PVCSpec) : list string :=
  match spec_VolumeAttributesClassName spec with
  | None => []
  | Some n => if n =s "" then [] else [n]
  end.

(** ** What the quotas bound *)

Definition hasPVCStorageQuota (quotas : list ResourceQuota) : bool :=
  existsb (fun quota =>
    existsb (fun nq =>
      let '(_, scoped, found) := splitStorageClassQuotaResourceName nq.1 in
      ((nq.1 =s ResourceRequestsStorage) || (found && (scoped =s ResourceRequestsStorage)))%bool)
      (map_to_list (quota_Hard quota))) quotas.

Definition hasVolumeAttributesClassQuota (quotas : list ResourceQuota) : bool :=
  existsb (fun quota =>
    (contains (quota_Scopes quota) ScopeVolumeAttributesClass
     || existsb (fun selector => scope_Name selector =s ScopeVolumeAttributesClass)
          (selector_expressions quota))%bool) quotas.

Definition effectivePVCQuotaStorage (pvc : PVC) : Quantity :=
  let requested := default 0%Z (spec_StorageRequest (pvc_Spec pvc)) in
  let allocated := default 0%Z (pvc_AllocatedStorage pvc) in
  if Z.ltb requested allocated then allocated else requested.

(** ** Projection *)

Definition requestedPVCMatchesQuota (change : PVCAdmissionChange) (quota : ResourceQuota) : bool :=
  pvcMatchesQuotaScopes quota (RequestedClassNames change).

Definition existingPVCMatchesQuota (change : PVCAdmissionChange) (quota : ResourceQuota) : bool :=
  (Existing change && pvcMatchesQuotaScopes quota (ExistingClassNames change))%bool.

Definition quotaCanMatchRequestedPVC (quota : ResourceQuota) (changes : list PVCAdmissionChange) : bool :=
  existsb (fun change => requestedPVCMatchesQuota change quota) changes.

Definition clampNonNegative (value : Quantity) : Quantity := if Z.ltb value 0 then 0%Z else value.

Definition class_matches (storageClass actual : string) : bool :=
  ((storageClass =s "") || (actual =s storageClass))%bool.

Definition project_storage (quota : ResourceQuota) (storageClass : string) (projected : Quantity)
    (change : PVCAdmissionChange) : Quantity :=
  let projected :=
    if (existingPVCMatchesQuota change quota && class_matches storageClass (ExistingStorageClass change))%bool
    then (projected - ExistingStorage change)%Z else projected in
  if (requestedPVCMatchesQuota change quota && class_matches storageClass (RequestedStorageClass change))%bool
  then (projected + RequestedStorage change)%Z else projected.

Definition projectedPVCStorage (used : Quantity) (quota : ResourceQuota) (changes : list PVCAdmissionChange)
    (storageClass : string) : Quantity :=
  clampNonNegative (foldl (project_storage quota storageClass) used changes).

Definition project_count (quota : ResourceQuota) (storageClass : string) (projected : Quantity)
    (change : PVCAdmissionChange) : Quantity :=
  let requestedMatches :=
    (requestedPVCMatchesQuota change quota && class_matches storageClass (RequestedStorageClass change))%bool in
  let existingMatches :=
    (existingPVCMatchesQuota change quota && class_matches storageClass (ExistingStorageClass change))%bool in
  if (requestedMatches && negb existingMatches)%bool then (projected + NewQuantity 1)%Z
  else if (negb requestedMatches && existingMatches)%bool then (projected - NewQuantity 1)%Z
  else projected.

Definition projectedPVCCount (used : Quantity) (quota : ResourceQuota) (changes : list PVCAdmissionChange)
    (storageClass : string) : Quantity :=
  clampNonNegative (foldl (project_count quota storageClass) used changes).

Definition projectedQuotaResource (name : string) (used : Quantity) (quota : ResourceQuota)
    (changes : list PVCAdmissionChange) : option Quantity :=
  if name =s ResourceRequestsStorage then Some (projectedPVCStorage used quota changes "")
  else if ((name =s ResourcePersistentVolumeClaims) || (name =s countPersistentVolumeClaimsResource))%bool
  then Some (projectedPVCCount used quota changes "")
  else
    let '(class, suffix, ok) := splitStorageClassQuotaResourceName name in
    if negb ok then None
    else if suffix =s ResourceRequestsStorage then Some (projectedPVCStorage used quota changes class)
    else if suffix =s ResourcePersistentVolumeClaims then Some (projectedPVCCount used quota changes class)
    else None.

Section quantities.
Context `{QT : QuantityText}.

(** ** The old claims as they are *)

(** One change resolved; every change is resolved before an error is reported. *)
Definition resolve_change (classes storage : bool) (change : PVCAdmissionChange)
    : kube (result PVCAdmissionChange) :=
  let requested := uniqueNonEmptyStrings (RequestedClassNames change) in
  let existing := uniqueNonEmptyStrings (ExistingClassNames change) in
  let set (stored : Quantity) (names : list string) : PVCAdmissionChange :=
    {| change_Namespace := change_Namespace change; change_Name := change_Name change;
       RequestedStorage := RequestedStorage change; RequestedStorageClass := RequestedStorageClass change;
       Existing := Existing change; ExistingUID := ExistingUID change; ExistingStorage := stored;
       ExistingStorageClass := ExistingStorageClass change; RequestedClassNames := requested;
       ExistingClassNames := names |} in
  if (negb (Existing change) || ((ExistingUID change =s "") && negb classes))%bool then
    Ret (inl (set (ExistingStorage change) existing)) else
  let claim := sprint [change_Namespace change; "/"; change_Name change] in
  g ← call (GetPVC (change_Namespace change) (change_Name change));
  Ret match g with
      | inr e =>
          let text := sprint ["read existing PVC "; claim; " for quota projection: "] in
          inr (EWrap (text +:+ error_text e) e)
      | inl pvc =>
          if ((ExistingUID change <>s "") && (pvc_UID pvc <>s ExistingUID change))%bool then
            inr (EText (sprint ["existing PVC "; claim; " UID changed while checking quota"]))
          else
            let effective := effectivePVCQuotaStorage pvc in
            inl (set (if (storage && Z.ltb (ExistingStorage change) effective)%bool
                      then effective else ExistingStorage change)
                     (if classes then referencedVolumeAttributesClassNames (Some pvc) else existing))
      end.

Fixpoint resolve_changes (classes storage : bool) (changes : list PVCAdmissionChange)
    : kube (result (list PVCAdmissionChange)) :=
  match changes with
  | [] => Ret (inl [])
  | change :: rest =>
      r ← resolve_change classes storage change;
      rs ← resolve_changes classes storage rest;
      Ret match r, rs with
          | inr e, _ => inr e
          | inl _, inr e => inr e
          | inl c, inl cs => inl (c :: cs)
          end
  end.

Definition resolveExistingPVCAdmissionState (quotas : list ResourceQuota) (changes : list PVCAdmissionChange)
    : kube (result (list PVCAdmissionChange)) :=
  let classes := hasVolumeAttributesClassQuota quotas in
  let storage := hasPVCStorageQuota quotas in
  if (negb classes && negb storage)%bool then Ret (inl changes) else resolve_changes classes storage changes.

(** ** Violations *)

Definition quota_violation (namespace : string) (quota : ResourceQuota) (changes : list PVCAdmissionChange)
    (nh : string * Quantity) : option string :=
  let '(name, hard) := nh in
  let head := sprint [namespace; "/"; quota_Name quota; " "; name] in
  if negb (isPVCQuotaResource name) then None else
  match quota_Used quota !! name with
  | None => Some (head +:+ ": quota status has no current usage")
  | Some used =>
      match projectedQuotaResource name used quota changes with
      | None => None
      | Some projected =>
          if Z.ltb hard projected then
            Some (sprint [head; ": projected "; quantity_string projected; " exceeds hard "; quantity_string hard])
          else None
      end
  end.

Definition quota_violations (namespace : string) (changes : list PVCAdmissionChange) (quota : ResourceQuota)
    : list string :=
  if negb (quotaCanMatchRequestedPVC quota changes) then [] else
  omap (quota_violation namespace quota changes) (map_to_list (quota_Hard quota)).

Definition limit_violations (namespace : string) (changes : list PVCAdmissionChange) (limitRange : LimitRange)
    (item : LimitRangeItem) : list string :=
  if limit_Type item <>s "PersistentVolumeClaim" then [] else
  flat_map (fun change =>
    let requires := sprint [namespace; "/"; change_Name change; " requires ";
                            quantity_string (RequestedStorage change)] in
    match (limit_Min item !! ResourceStorage : option Quantity) with
    | Some minimum =>
        if Z.ltb (RequestedStorage change) minimum then
          [sprint [requires; " below "; limitRange_Name limitRange; " minimum "; quantity_string minimum]] else []
    | None => []
    end ++
    match (limit_Max item !! ResourceStorage : option Quantity) with
    | Some maximum =>
        if Z.ltb maximum (RequestedStorage change) then
          [sprint [requires; " above "; limitRange_Name limitRange; " maximum "; quantity_string maximum]] else []
    | None => []
    end) changes.

Definition admission_report (namespace : string) (quotas : list ResourceQuota) (limitRanges : list LimitRange)
    (changes : list PVCAdmissionChange) : PVCAdmissionReport :=
  {| QuotaViolations := slices_Sort (flat_map (quota_violations namespace changes) quotas);
     LimitRangeViolations :=
       slices_Sort (flat_map (fun l => flat_map (limit_violations namespace changes l) (limitRange_Limits l))
                      limitRanges) |}.

Definition validate_change (namespace : string) (change : PVCAdmissionChange) : option err :=
  if ((TrimSpace (change_Namespace change) <>s namespace) || (TrimSpace (change_Name change) =s ""))%bool then
    Some (EText "PVC admission changes must identify one namespace and a name for every claim")
  else if Z.leb (RequestedStorage change) 0 then
    Some (EText (sprint ["PVC "; namespace; "/"; change_Name change; " requested storage must be positive"]))
  else None.

Fixpoint validate_changes (namespace : string) (changes : list PVCAdmissionChange) : option err :=
  match changes with
  | [] => None
  | change :: rest =>
      match validate_change namespace change with
      | Some e => Some e
      | None => validate_changes namespace rest
      end
  end.

(** A list that failed with NotFound, or came back nil, constrains nothing. *)
Definition policies {A} (r : result (option (list A))) : result (list A) :=
  match r with
  | inl (Some l) => inl l
  | inl None => inl []
  | inr e => if IsNotFound e then inl [] else inr e
  end.

Definition CheckPVCAdmissionPolicies (changes : list PVCAdmissionChange) : kube (result PVCAdmissionReport) :=
  match changes with
  | [] => Ret (inl {| QuotaViolations := []; LimitRangeViolations := [] |})
  | first :: _ =>
      let namespace := TrimSpace (change_Namespace first) in
      if namespace =s "" then fail (EText "PVC namespace is required") else
      check: Ret (validate_changes namespace changes);
      q ← call (ListResourceQuotas namespace);
      l ← call (ListLimitRanges namespace);
      try: quotas ← Ret (policies q);
      try: limitRanges ← Ret (policies l);
      try: resolved ← resolveExistingPVCAdmissionState quotas changes;
      Ret (inl (admission_report namespace quotas limitRanges resolved))
  end.
End quantities.

(** ** Reference: usage after the replacement *)

Definition Zsum (l : list Z) : Z := foldr Z.add 0%Z l.

(** The claims a quota counts in a class: before and after. *)
Definition counted_old (quota : ResourceQuota) (class : string) (c : PVCAdmissionChange) : bool :=
  (existingPVCMatchesQuota c quota && class_matches class (ExistingStorageClass c))%bool.
Definition counted_new (quota : ResourceQuota) (class : string) (c : PVCAdmissionChange) : bool :=
  (requestedPVCMatchesQuota c quota && class_matches class (RequestedStorageClass c))%bool.

Definition claim_usage (quota : ResourceQuota) (class : string) (used : Z) (changes : list PVCAdmissionChange)
    (old new : PVCAdmissionChange -> Z) : Z :=
  (used - Zsum (map old (List.filter (counted_old quota class) changes))
   + Zsum (map new (List.filter (counted_new quota class) changes)))%Z.

(** What a claim resource of a quota measures: a class ("" for all) and the amount
    an old and a new claim count for. *)
Inductive measures (name : string) : string -> (PVCAdmissionChange -> Z) -> (PVCAdmissionChange -> Z) -> Prop :=
| measures_storage : name = ResourceRequestsStorage -> measures name "" ExistingStorage RequestedStorage
| measures_count :
    name = ResourcePersistentVolumeClaims \/ name = countPersistentVolumeClaimsResource ->
    measures name "" (fun _ => NewQuantity 1) (fun _ => NewQuantity 1)
| measures_class_storage class :
    splitStorageClassQuotaResourceName name = (class, ResourceRequestsStorage, true) ->
    measures name class ExistingStorage RequestedStorage
| measures_class_count class :
    splitStorageClassQuotaResourceName name = (class, ResourcePersistentVolumeClaims, true) ->
    measures name class (fun _ => NewQuantity 1) (fun _ => NewQuantity 1).

Definition quota_admits (quota : ResourceQuota) (changes : list PVCAdmissionChange) : Prop :=
  (exists c, c ∈ changes /\ requestedPVCMatchesQuota c quota = true) ->
  forall name (hard : Quantity) class old new, quota_Hard quota !! name = Some hard -> measures name class old new ->
    exists used : Quantity, quota_Used quota !! name = Some used /\
      (Z.max 0 (claim_usage quota class used changes old new) <= hard)%Z.

Definition limit_admits (changes : list PVCAdmissionChange) (item : LimitRangeItem) : Prop :=
  limit_Type item = "PersistentVolumeClaim" -> forall c, c ∈ changes ->
    (forall minimum : Quantity, limit_Min item !! ResourceStorage = Some minimum -> (minimum <= RequestedStorage c)%Z) /\
    (forall maximum : Quantity, limit_Max item !! ResourceStorage = Some maximum -> (RequestedStorage c <= maximum)%Z).

(** ** The projection is the reference *)

Lemma Zsum_cons x l : Zsum (x :: l) = (x + Zsum l)%Z.
Proof. done. Qed.

Lemma clamp_max z : clampNonNegative z = Z.max 0 z.
Proof. unfold clampNonNegative. destruct (Z.ltb_spec z 0); lia. Qed.

Lemma projected_storage_usage quota class used changes :
  projectedPVCStorage used quota changes class =
  Z.max 0 (claim_usage quota class used changes ExistingStorage RequestedStorage).
Proof.
  unfold projectedPVCStorage, claim_usage. rewrite clamp_max. f_equal. revert used.
  induction changes as [|c changes IH]; intros used; cbn [foldl List.filter map]; [cbn; lia|].
  rewrite IH. unfold project_storage. change (existingPVCMatchesQuota c quota && _)%bool with (counted_old quota class c).
  change (requestedPVCMatchesQuota c quota && _)%bool with (counted_new quota class c).
  destruct (counted_old quota class c), (counted_new quota class c); cbn [map]; rewrite ?Zsum_cons; lia.
Qed.

Lemma projected_count_usage quota class used changes :
  projectedPVCCount used quota changes class =
  Z.max 0 (claim_usage quota class used changes (fun _ => NewQuantity 1) (fun _ => NewQuantity 1)).
Proof.
  unfold projectedPVCCount, claim_usage. rewrite clamp_max. f_equal. revert used.
  induction changes as [|c changes IH]; intros used; cbn [foldl List.filter map]; [cbn; lia|].
  rewrite IH. unfold project_count. change (existingPVCMatchesQuota c quota && _)%bool with (counted_old quota class c).
  change (requestedPVCMatchesQuota c quota && _)%bool with (counted_new quota class c).
  destruct (counted_old quota class c), (counted_new quota class c); cbn [map andb negb]; rewrite ?Zsum_cons; lia.
Qed.

(** The split of the fixed names finds no class. *)
Lemma split_fixed name :
  name = ResourceRequestsStorage \/ name = ResourcePersistentVolumeClaims \/ name = countPersistentVolumeClaimsResource ->
  (splitStorageClassQuotaResourceName name).2 = false.
Proof. by intros [->|[->| ->]]. Qed.

Lemma projected_measures name used quota changes class old new :
  measures name class old new ->
  isPVCQuotaResource name = true /\
  projectedQuotaResource name used quota changes = Some (Z.max 0 (claim_usage quota class used changes old new)).
Proof.
  unfold isPVCQuotaResource, projectedQuotaResource. intros Hm.
  destruct (splitStorageClassQuotaResourceName name) as [[k suffix] ok] eqn:Hs.
  pose proof (split_fixed name) as Hf. rewrite Hs in Hf. cbn in Hf.
  destruct Hm as [->|Hn|c Hc|c Hc].
  - by rewrite projected_storage_usage.
  - destruct Hn as [->| ->]; by rewrite projected_count_usage.
  - rewrite Hs in Hc. injection Hc as -> -> ->. do 3 (destruct (name =s _) eqn:?; bool_prop; [exfalso; naive_solver|]).
    cbn. by rewrite projected_storage_usage.
  - rewrite Hs in Hc. injection Hc as -> -> ->. do 3 (destruct (name =s _) eqn:?; bool_prop; [exfalso; naive_solver|]).
    cbn. by rewrite projected_count_usage.
Qed.

Lemma measured_resource name : isPVCQuotaResource name = true -> exists class old new, measures name class old new.
Proof.
  unfold isPVCQuotaResource. case_test.
  - intros _. rewrite !orb_true_iff, !String.eqb_eq in Heqb.
    destruct Heqb as [[->| ->]| ->]; eexists _, _, _; [by apply measures_storage|apply measures_count; by left|apply measures_count; by right].
  - destruct (splitStorageClassQuotaResourceName name) as [[k suffix] ok] eqn:Hs.
    rewrite andb_true_iff, orb_true_iff, !String.eqb_eq. intros [-> [->| ->]]; eexists _, _, _;
      [by apply measures_class_storage|by apply measures_class_count].
Qed.

(** ** Verdicts *)

Lemma slices_Sort_nil l : slices_Sort l = [] <-> l = [].
Proof.
  split; [|by intros ->]. destruct l as [|x l]; [done|]. intros Hs. exfalso.
  apply (not_elem_of_nil x). rewrite <- Hs. apply elem_slices_Sort. left.
Qed.

Lemma flat_map_nil {A B} (f : A -> list B) l : flat_map f l = [] <-> Forall (fun x => f x = []) l.
Proof.
  induction l as [|x l IH]; cbn; [by split|].
  rewrite Forall_cons, <- IH. split; [by intros [? ?]%app_eq_nil|by intros [-> ->]].
Qed.

Lemma omap_nil {A B} (f : A -> option B) l : omap f l = [] <-> forall x, x ∈ l -> f x = None.
Proof.
  split.
  - intros Ho x Hx. destruct (f x) as [y|] eqn:Hy; [|done]. exfalso.
    apply (not_elem_of_nil y). rewrite <- Ho. apply list_elem_of_omap. by exists x.
  - intros Hn. destruct (omap f l) as [|y k] eqn:Ho; [done|]. exfalso.
    assert (y ∈ omap f l) as (x & Hx & Hy)%list_elem_of_omap by (rewrite Ho; left). by rewrite Hn in Hy.
Qed.

Section verdicts.
Context `{QT : QuantityText}.

Lemma quota_violations_nil ns changes quota :
  quota_violations ns changes quota = [] <-> quota_admits quota changes.
Proof.
  unfold quota_violations, quota_admits. destruct (quotaCanMatchRequestedPVC quota changes) eqn:Hm; cbn [negb].
  - assert (exists c, c ∈ changes /\ requestedPVCMatchesQuota c quota = true) as Hex.
    { apply existsb_exists in Hm as (c & Hc & Hq). exists c. by rewrite list_elem_of_In. }
    rewrite omap_nil. split.
    + intros Hv _ name hard class old new Hh Hme. specialize (Hv (name, hard)). cbn in Hv.
      destruct (projected_measures name 0%Z quota changes class old new Hme) as [Hp _]. rewrite Hp in Hv. cbn in Hv.
      apply elem_of_map_to_list, Hv in Hh. destruct (quota_Used quota !! name) as [used|]; [|done].
      exists used. split; [done|].
      destruct (projected_measures name used quota changes class old new Hme) as [_ Hpr].
      rewrite Hpr in Hh. by destruct (Z.ltb_spec hard (Z.max 0 (claim_usage quota class used changes old new))).
    + intros Ha [name hard] Hh%elem_of_map_to_list. unfold quota_violation.
      destruct (isPVCQuotaResource name) eqn:Hp; [|done]. cbn [negb].
      destruct (measured_resource name Hp) as (class & old & new & Hme).
      destruct (Ha Hex name hard class old new Hh Hme) as (used & Hused & Hle).
      destruct (quota_Used quota !! name); simplify_eq.
      destruct (projected_measures name used quota changes class old new Hme) as [_ ->].
      destruct (Z.ltb_spec hard (Z.max 0 (claim_usage quota class used changes old new))); [lia|done].
  - split; [|done]. intros _ (c & Hc & Hq). exfalso.
    assert (quotaCanMatchRequestedPVC quota changes = true); [|congruence].
    apply existsb_exists. exists c. by rewrite <- list_elem_of_In.
Qed.

Lemma limit_violations_nil ns changes limitRange item :
  limit_violations ns changes limitRange item = [] <-> limit_admits changes item.
Proof.
  unfold limit_violations, limit_admits. destruct (limit_Type item =s _) eqn:Ht; bool_prop; cbn [negb].
  2:{ split; [by intros _ ?|done]. }
  rewrite flat_map_nil, Forall_forall. split.
  - intros Hv _ c Hc. apply Hv in Hc as [Hmin Hmax]%app_eq_nil. split.
    + intros minimum Hm. rewrite Hm in Hmin. by destruct (Z.ltb_spec (RequestedStorage c) minimum).
    + intros maximum Hm. rewrite Hm in Hmax. by destruct (Z.ltb_spec maximum (RequestedStorage c)).
  - intros Ha c Hc. destruct (Ha Ht c Hc) as [Hmin Hmax]. apply app_nil. split.
    + destruct (limit_Min item !! _) as [m|]; [|done]. specialize (Hmin m eq_refl).
      destruct (Z.ltb_spec (RequestedStorage c) m); [lia|done].
    + destruct (limit_Max item !! _) as [m|]; [|done]. specialize (Hmax m eq_refl).
      destruct (Z.ltb_spec m (RequestedStorage c)); [lia|done].
Qed.

(** C37: the admission check reports a violation exactly when the replacement does
    not fit.  The quota report is empty if and only if, for every quota that counts
    one of the new claims and every claim resource it bounds (storage or claim count,
    in total or per StorageClass), the current usage is known and the usage after the
    replacement, the old claims the quota counts subtracted and the new ones added,
    stays within the hard limit; the LimitRange report is empty if and only if every
    new claim lies between the minimum and maximum of every claim limit. *)
Theorem admission_report_exact ns quotas limitRanges changes :
  (QuotaViolations (admission_report ns quotas limitRanges changes) = [] <->
     Forall (fun quota => quota_admits quota changes) quotas) /\
  (LimitRangeViolations (admission_report ns quotas limitRanges changes) = [] <->
     Forall (fun l => Forall (limit_admits changes) (limitRange_Limits l)) limitRanges).
Proof.
  cbn. rewrite !slices_Sort_nil, !flat_map_nil. split.
  - apply Forall_iff. intros quota. apply quota_violations_nil.
  - apply Forall_iff. intros l. rewrite flat_map_nil. apply Forall_iff. intros item. apply limit_violations_nil.
Qed.
End verdicts.
