(* ===== verification/QuotaCapacity.v ===== *)
(** * Exactness of the quota projection

    What [Quota] computes for the peak demand of a workflow: each StorageClass is
    demanded under its own resource names with its own quantities, and a violation is
    reported exactly when the projected usage of a bounded resource is unknown or
    above its hard limit. *)

From S2P Require Import Prelude Utf8 GoErrors Lifecycle KubeTypes Prog Api ResourceState Ownership Quota PVCPolicy.
From Stdlib Require Import Ascii.

(** ** Resource names do not collide *)

Lemma append_cons c a b : String c a +:+ b = String c (a +:+ b).
Proof. done. Qed.

Lemma append_length a b : String.length (a +:+ b) = String.length a + String.length b.
Proof. induction a as [|c a IH]; [done|]. rewrite append_cons. cbn. by rewrite IH. Qed.

Lemma prefix_append p s : String.prefix p (p +:+ s) = true.
Proof. induction p as [|c p IH]; [by destruct s|]. rewrite append_cons. cbn. by destruct (ascii_dec c c). Qed.

Lemma append_inj_r a b s : a +:+ s = b +:+ s -> a = b.
Proof.
  revert b. induction a as [|c a IH]; intros [|d b]; try done.
  - intros Heq%(f_equal String.length). rewrite !append_length in Heq. cbn in Heq. lia.
  - intros Heq%(f_equal String.length). rewrite !append_length in Heq. cbn in Heq. lia.
  - rewrite !append_cons. intros [= -> Heq]. f_equal. by apply IH.
Qed.

Fixpoint last_char (s : string) (d : ascii) : ascii :=
  match s with "" => d | String c s => last_char s c end.

Lemma last_char_append a c b d : last_char (a +:+ String c b) d = last_char b c.
Proof. revert d. induction a as [|x a IH]; intros d; [done|]. rewrite append_cons. cbn. apply IH. Qed.

Lemma cut_at_prefix s sep : HasPrefix s sep = true -> (strings_Cut s sep).2 = true.
Proof. intros Hp. destruct s; unfold strings_Cut; by rewrite Hp. Qed.

Lemma cut_found a sep b : (strings_Cut (a +:+ sep +:+ b) sep).2 = true.
Proof.
  induction a as [|c a IH].
  - exact (cut_at_prefix _ _ (prefix_append sep b)).
  - rewrite append_cons. destruct (HasPrefix (String c (a +:+ sep +:+ b)) sep) eqn:Hp; [by apply cut_at_prefix|].
    cbn [strings_Cut]. rewrite Hp. destruct (strings_Cut _ _) as [[x y] z]. by cbn in *.
Qed.

Lemma class_name_found class r : (splitStorageClassQuotaResourceName (storageClassQuotaResourceName class r)).2 = true.
Proof. apply cut_found. Qed.

Lemma class_name_inj c1 c2 r : storageClassQuotaResourceName c1 r = storageClassQuotaResourceName c2 r -> c1 = c2.
Proof. apply append_inj_r. Qed.

Lemma class_name_kinds c1 c2 :
  storageClassQuotaResourceName c1 ResourceRequestsStorage <>
  storageClassQuotaResourceName c2 ResourcePersistentVolumeClaims.
Proof.
  intros Heq%(f_equal (fun s => last_char s "0"%char)).
  pose proof (last_char_append c1 "."%char "storageclass.storage.k8s.io/requests.storage" "0"%char) as H1.
  pose proof (last_char_append c2 "."%char "storageclass.storage.k8s.io/persistentvolumeclaims" "0"%char) as H2.
  assert (last_char "storageclass.storage.k8s.io/requests.storage" "."%char =
          last_char "storageclass.storage.k8s.io/persistentvolumeclaims" "."%char) as Hc
    by (etrans; [symmetry; exact H1|]; etrans; [exact Heq|exact H2]).
  by vm_compute in Hc.
Qed.

(** ** The demand of each StorageClass *)

(** No name of [l] mentions a StorageClass. *)
Definition plain (l : list (string * Z)) : bool :=
  forallb (fun nc => negb (splitStorageClassQuotaResourceName nc.1).2) l.

Lemma counted_plain e : plain (counted e) = true.
Proof. reflexivity. Qed.

Lemma addCount_other d nc name : nc.1 <> name -> addCount d nc !! name = d !! name.
Proof. intros Hne. unfold addCount. destruct (0 <? nc.2)%Z; [by rewrite lookup_insert_ne|done]. Qed.

Lemma addCount_same d name n : addCount d (name, n) !! name = if (0 <? n)%Z then Some (NewQuantity n) else d !! name.
Proof. unfold addCount. cbn. destruct (0 <? n)%Z; [by rewrite lookup_insert_eq|done]. Qed.

Lemma counted_class l d class r :
  plain l = true -> foldl addCount d l !! storageClassQuotaResourceName class r =
                    d !! storageClassQuotaResourceName class r.
Proof.
  revert d. induction l as [|nc l IH]; intros d; [done|].
  cbn [plain forallb foldl]. intros [Hn Hl]%andb_true_iff. rewrite IH by done. apply addCount_other.
  intros Heq. rewrite Heq, class_name_found in Hn. done.
Qed.

Section demand.
Context `{QT : QuantityText} (e : ResourceEstimate).

Notation storage_of class := (storageClassQuotaResourceName class ResourceRequestsStorage).
Notation claims_of class := (storageClassQuotaResourceName class ResourcePersistentVolumeClaims).

(** What a StorageClass with requests [value] adds. *)
Definition demands_class (d : ResourceList) (class value : string) : Prop :=
  exists q n, ParseQuantity value = inl q /\ PVCsByStorageClass e !! class = Some n /\
    d !! storage_of class = (if (0 <? q)%Z then Some q else None) /\
    d !! claims_of class = (if (0 <? n)%Z then Some (NewQuantity n) else None).

Lemma add_class_other d d' cv class :
  add_class e d cv = inl d' -> cv.1 <> class ->
  d' !! storage_of class = d !! storage_of class /\ d' !! claims_of class = d !! claims_of class.
Proof.
  destruct cv as [c v]. unfold add_class. cbn [fst]. intros Ha Hne.
  destruct (String.eqb_spec c ""); [by injection Ha as <-|].
  destruct (ParseQuantity v) as [q|]; [|done]. destruct (PVCsByStorageClass e !! c) as [n0|]; [|done].
  injection Ha as <-. assert (storage_of c <> storage_of class) as H1 by (by intros ?%class_name_inj).
  assert (claims_of c <> claims_of class) as H2 by (by intros ?%class_name_inj).
  pose proof (class_name_kinds c class) as H3. pose proof (class_name_kinds class c) as H4.
  rewrite !addCount_other by done. destruct (0 <? q)%Z; [|done]. by rewrite !lookup_insert_ne.
Qed.

Lemma add_class_own d d' class value :
  class <> "" -> d !! storage_of class = None -> d !! claims_of class = None ->
  add_class e d (class, value) = inl d' -> demands_class d' class value.
Proof.
  intros Hne Hs Hc Ha. unfold add_class in Ha.
  destruct (String.eqb_spec class ""); [done|].
  destruct (ParseQuantity value) as [q|] eqn:Hq; [|done].
  destruct (PVCsByStorageClass e !! class) as [n0|] eqn:Hn; [|done]. injection Ha as <-.
  pose proof (class_name_kinds class class) as Hk. exists q, n0. split_and!; try done.
  - rewrite addCount_other by done. destruct (0 <? q)%Z; [by rewrite lookup_insert_eq|done].
  - rewrite addCount_same. destruct (0 <? n0)%Z; [done|].
    destruct (0 <? q)%Z; [by rewrite lookup_insert_ne|done].
Qed.

Lemma add_classes_other d d' l class :
  add_classes e d l = inl d' -> class ∉ l.*1 ->
  d' !! storage_of class = d !! storage_of class /\ d' !! claims_of class = d !! claims_of class.
Proof.
  revert d. induction l as [|cv l IH]; intros d Ha Hn; cbn in *; [by injection Ha as <-|].
  apply not_elem_of_cons in Hn as [Hne Hn]. destruct (add_class e d cv) as [d1|] eqn:H1; [|done].
  destruct (IH d1 Ha Hn) as [-> ->]. by eapply add_class_other.
Qed.

Lemma add_classes_own d d' l class value :
  add_classes e d l = inl d' -> NoDup l.*1 -> (class, value) ∈ l -> class <> "" ->
  d !! storage_of class = None -> d !! claims_of class = None -> demands_class d' class value.
Proof.
  revert d. induction l as [|cv l IH]; intros d Ha Hnd Hin Hne Hs Hc; [by apply elem_of_nil in Hin|].
  cbn in Ha, Hnd. apply NoDup_cons in Hnd as [Hnot Hnd].
  destruct (add_class e d cv) as [d1|] eqn:H1; [|done]. apply elem_of_cons in Hin as [<-|Hin].
  - destruct (add_class_own _ _ _ _ Hne Hs Hc H1) as (q & n & Hq & Hn & Hs1 & Hc1).
    destruct (add_classes_other _ _ _ _ Ha Hnot) as [Hs2 Hc2]. cbn in Hs2, Hc2. exists q, n. split_and!; congruence.
  - assert (cv.1 <> class) as Hcv.
    { intros <-. apply Hnot. by apply (list_elem_of_fmap_2' fst l (cv.1, value)). }
    destruct (add_class_other _ _ _ _ H1 Hcv) as [Hs1 Hc1]. by apply (IH d1); rewrite ?Hs1, ?Hc1.
Qed.

Lemma demand_of_class d class value :
  resourceQuotaDemand e = inl d -> ByStorageClass e !! class = Some value -> class <> "" ->
  demands_class d class value.
Proof.
  unfold resourceQuotaDemand. cbv zeta. destruct (ParseQuantity _) as [storage|]; [|done]. intros Ha Hv Hne.
  assert (forall r, (if (0 <? storage)%Z then {[ResourceRequestsStorage := storage]} else ∅ : ResourceList) !!
                    storageClassQuotaResourceName class r = None) as Hinit.
  { intros r. destruct (0 <? storage)%Z; [|by rewrite lookup_empty]. apply lookup_singleton_ne.
    intros Heq. pose proof (class_name_found class r) as Hf. by rewrite <- Heq in Hf. }
  eapply add_classes_own; [exact Ha|apply NoDup_fst_map_to_list|by apply elem_of_map_to_list|done|..];
    rewrite counted_class by apply counted_plain; apply Hinit.
Qed.
End demand.

(** ** The report *)

Section report.
Context `{QT : QuantityText}.

(** The quota takes the demand: every bounded resource has a known usage that stays
    within the hard limit. *)
Definition quota_fits (quota : ResourceQuota) (demand : ResourceList) : Prop :=
  forall name requested hard, demand !! name = Some requested -> ToolQuotaResourceMatches quota name = true ->
    quota_Hard quota !! name = Some hard ->
    exists used, quota_Used quota !! name = Some used /\ (used + requested <= hard)%Z.

Lemma verdict_fits ns quota demand :
  (forall v, v ∈ omap (capacity_verdict ns quota) (map_to_list demand) -> v = None) <-> quota_fits quota demand.
Proof.
  split.
  - intros Hv name requested hard Hd Hm Hh.
    specialize (Hv (default None (capacity_verdict ns quota (name, requested)))).
    assert (capacity_verdict ns quota (name, requested) = Some match quota_Used quota !! name with
      | None => Some (sprint [ns; "/"; quota_Name quota; " "; name; ": quota status has no current usage"])
      | Some used => if Z.ltb hard (used + requested) then
          Some (sprint [ns; "/"; quota_Name quota; " "; name; ": used "; quantity_string used; " + requested ";
                        quantity_string requested; " exceeds hard "; quantity_string hard]) else None end) as Hcv.
    { unfold capacity_verdict. by rewrite Hm, Hh. }
    rewrite Hcv in Hv. cbn in Hv.
    destruct (quota_Used quota !! name) as [used|].
    + exists used. split; [done|]. destruct (Z.ltb_spec hard (used + requested)); [|lia]. exfalso.
      discriminate Hv. apply list_elem_of_omap. exists (name, requested). by rewrite elem_of_map_to_list.
    + exfalso. discriminate Hv. apply list_elem_of_omap. exists (name, requested). by rewrite elem_of_map_to_list.
  - intros Hf v ([name requested] & Hin & Hv)%list_elem_of_omap. apply elem_of_map_to_list in Hin.
    unfold capacity_verdict in Hv. destruct (ToolQuotaResourceMatches quota name) eqn:Hm; [|done]. cbn in Hv.
    destruct (quota_Hard quota !! name) as [hard|] eqn:Hh; [|done]. injection Hv as <-.
    destruct (Hf name requested hard Hin Hm Hh) as (used & -> & Hle).
    destruct (Z.ltb_spec hard (used + requested)); [lia|done].
Qed.

Lemma omap_id_nil {A} (l : list (option A)) : omap id l = [] <-> forall v, v ∈ l -> v = None.
Proof. apply omap_nil. Qed.

Lemma verdicts_fit ns limitRanges estimate quotas verdicts :
  capacity_verdicts ns limitRanges estimate quotas = inl verdicts ->
  (forall v, v ∈ verdicts -> v = None) <->
  Forall (fun quota => exists demand, quota_demand limitRanges estimate quota = inl demand /\
                                      quota_fits quota demand) quotas.
Proof.
  revert verdicts. induction quotas as [|quota quotas IH]; intros verdicts Hv; cbn in Hv.
  - injection Hv as <-. split; [by constructor|]. intros _ v Hin. by apply elem_of_nil in Hin.
  - destruct (quota_demand limitRanges estimate quota) as [demand|] eqn:Hd; [|done].
    destruct (capacity_verdicts ns limitRanges estimate quotas) as [more|] eqn:Hm; [|done].
    injection Hv as <-. rewrite Forall_cons, <- (IH more) by done. setoid_rewrite elem_of_app. split.
    + intros Hall. split; [|by eauto]. exists demand. split; [done|]. apply (verdict_fits ns). eauto.
    + intros [(demand' & [= <-]%(eq_trans (eq_sym Hd)) & Hf) Hrest] v [Hin|Hin]; [|by apply Hrest].
      by apply (verdict_fits ns quota demand).
Qed.

(** The quota projection is exact.  When [EvaluateResourceQuotaCapacity] returns
    a report, it lists no violation if and only if every quota takes its demand: each
    demanded resource that the quota bounds has a known usage, and usage plus demand
    is within the hard limit.  Where the demand comes from the estimate, each named
    StorageClass is demanded under its own two resource names with its own parsed
    requests and claim count, never those of another class or of a total. *)
Theorem quota_projection_exact ns quotas limitRanges estimate report :
  EvaluateResourceQuotaCapacity ns quotas limitRanges estimate = inl report ->
  (Violations report = [] <->
     Forall (fun quota => exists demand, quota_demand limitRanges estimate quota = inl demand /\
                                         quota_fits quota demand) quotas) /\
  (forall demand class value, resourceQuotaDemand estimate = inl demand ->
     ByStorageClass estimate !! class = Some value -> class <> "" -> demands_class estimate demand class value).
Proof.
  intros He. split; [|intros; by apply demand_of_class].
  unfold EvaluateResourceQuotaCapacity in He. destruct (capacity_verdicts _ _ _ _) as [verdicts|] eqn:Hv; [|done].
  injection He as <-. cbn. rewrite slices_Sort_nil, omap_id_nil. by apply verdicts_fit with (ns := ns).
Qed.
End report.
