(* ===== verification/WorkflowStore.v ===== *)
(** * Workflow stores: internal/kube/workflow_store.go

    A workflow object is persisted either as JSON in a ConfigMap (CLI sessions) or
    as a custom resource (controller).  Both stores are generic in the operation's
    API type, here in its spec and status; both implement the same interface
    ([WorkflowStore] of the code, [StoreOps] here).  An object argument is a pointer
    the operation may update: the operation returns the object as it leaves it.

    Parameters: encoding/json ([WorkflowCodec]), with its documented behaviour that
    what was marshalled decodes to the same value without trailing data.  The
    unstructured converter copies an API object field by field, so
    [CopyWorkflowObject] is the identity, and the specs that
    [unchangedWorkflowDefinition] compares are compared as values. *)

From S2P Require Import Prelude GoErrors Lifecycle KubeTypes Prog.

Record GroupVersionKind := { gvk_Group : string; gvk_Version : string; gvk_Kind : string }.

#[global] Instance GroupVersionKind_eq_dec : EqDecision GroupVersionKind.
Proof. solve_decision. Defined.

Definition WorkflowKindLabel : string := "migrate.sealos.io/workflow-kind".
Definition SessionFinalizer : string := "migrate.sealos.io/session-protection".
Definition LegacySessionFinalizer : string := "pvc-migrate.io/session-protection".
Definition SessionDataKey : string := "session.json".
Definition WorkflowAbortRequestedAnnotation : string := "migrate.sealos.io/abort-requested".

Definition SessionConfigMapName (id : string) : string := "pvc-migrate-session-" +:+ id.

Definition sessionLabels (id kind : string) : gmap string string :=
  let labels := <[SessionKey := id]> {[ManagedByLabel := ManagedByValue]} in
  if kind <>s "" then <[WorkflowKindLabel := kind]> labels else labels.

Definition ensureSessionFinalizer (finalizers : list string) : list string :=
  if contains finalizers SessionFinalizer then finalizers else finalizers ++ [SessionFinalizer].

Definition own_finalizer (f : string) : bool := ((f =s SessionFinalizer) || (f =s LegacySessionFinalizer))%bool.

Definition removeSessionFinalizer (values : list string) : list string :=
  List.filter (fun f => negb (own_finalizer f)) values.

Record ConfigMap := {
  cm_Namespace : string;
  cm_Name : string;
  cm_UID : string;
  cm_ResourceVersion : string;
  cm_CreationTimestamp : Time;
  cm_DeletionTimestamp : option Time;
  cm_Labels : gmap string string;
  cm_Finalizers : list string;
  cm_Data : gmap string string
}.

Definition workflowStoreConflict (action message : string) : err :=
  NewError ErrorConflict (action +:+ " workflow") message.

Definition stale_load : err :=
  WrapError ErrorConflict "write workflow" "workflow changed after it was loaded"
    (ESentinel ErrWorkflowStaleLoad "workflow stale load").

(** A pass that lost an optimistic concurrency race (workflow_conflict_retry.go). *)
Definition StaleWorkflowWrite (e : err) : bool := (IsConflict e || is_sentinel ErrWorkflowStaleLoad e)%bool.

Section store.
Context {Spec Status : Type} `{EqDecision Spec}.

Record Workflow := {
  wf_GVK : GroupVersionKind;
  wf_Namespace : string;
  wf_Name : string;
  wf_UID : string;
  wf_ResourceVersion : string;
  wf_CreationTimestamp : Time;
  wf_DeletionTimestamp : option Time;
  wf_Finalizers : list string;
  wf_Labels : gmap string string;
  wf_Annotations : gmap string string;
  wf_Spec : Spec;
  wf_Status : Status
}.

Definition with_GVK (w : Workflow) (gvk : GroupVersionKind) : Workflow :=
  {| wf_GVK := gvk; wf_Namespace := wf_Namespace w; wf_Name := wf_Name w; wf_UID := wf_UID w;
     wf_ResourceVersion := wf_ResourceVersion w; wf_CreationTimestamp := wf_CreationTimestamp w;
     wf_DeletionTimestamp := wf_DeletionTimestamp w; wf_Finalizers := wf_Finalizers w;
     wf_Labels := wf_Labels w; wf_Annotations := wf_Annotations w; wf_Spec := wf_Spec w;
     wf_Status := wf_Status w |}.

(** [copyWorkflowStorageVersion] *)
Definition with_version (w : Workflow) (uid version : string) (created : Time) : Workflow :=
  {| wf_GVK := wf_GVK w; wf_Namespace := wf_Namespace w; wf_Name := wf_Name w; wf_UID := uid;
     wf_ResourceVersion := version; wf_CreationTimestamp := created;
     wf_DeletionTimestamp := wf_DeletionTimestamp w; wf_Finalizers := wf_Finalizers w;
     wf_Labels := wf_Labels w; wf_Annotations := wf_Annotations w; wf_Spec := wf_Spec w;
     wf_Status := wf_Status w |}.

Definition copy_version_cm (w : Workflow) (cm : ConfigMap) : Workflow :=
  with_version w (cm_UID cm) (cm_ResourceVersion cm) (cm_CreationTimestamp cm).
Definition copy_version (w storage : Workflow) : Workflow :=
  with_version w (wf_UID storage) (wf_ResourceVersion storage) (wf_CreationTimestamp storage).

Definition with_metadata (w : Workflow) (finalizers : list string) (labels annotations : gmap string string)
    : Workflow :=
  {| wf_GVK := wf_GVK w; wf_Namespace := wf_Namespace w; wf_Name := wf_Name w; wf_UID := wf_UID w;
     wf_ResourceVersion := wf_ResourceVersion w; wf_CreationTimestamp := wf_CreationTimestamp w;
     wf_DeletionTimestamp := wf_DeletionTimestamp w; wf_Finalizers := finalizers;
     wf_Labels := labels; wf_Annotations := annotations; wf_Spec := wf_Spec w; wf_Status := wf_Status w |}.

Class WorkflowCodec := {
  Marshal : Workflow -> result string;
  Decode : string -> result (Workflow * bool);       (* the value, and whether data follows it *)
  DecodeHeader : string -> result GroupVersionKind;
  codec_roundtrip : forall w s, Marshal w = inl s -> Decode s = inl (w, false)
}.

(** ** Requests *)

Inductive wreq :=
| WCtxErr
| WFenceErr
| GetConfigMap (namespace name : string)
| CreateConfigMap (cm : ConfigMap)
| UpdateConfigMap (cm : ConfigMap)
| DeleteConfigMap (namespace name uid resourceVersion : string)
| ListConfigMaps (namespace selector : string)
| GetWorkflow (namespace name : string)
| CreateWorkflow (w : Workflow)
| UpdateWorkflow (w : Workflow)
| UpdateWorkflowStatus (w : Workflow)
| DeleteWorkflow (namespace name uid resourceVersion : string)
| ListWorkflows (namespace : string).

Definition wresp (r : wreq) : Type :=
  match r with
  | WCtxErr | WFenceErr => option err
  | GetConfigMap _ _ | CreateConfigMap _ | UpdateConfigMap _ => result ConfigMap
  | DeleteConfigMap _ _ _ _ | DeleteWorkflow _ _ _ _ => option err
  | ListConfigMaps _ _ => result (list ConfigMap)
  | GetWorkflow _ _ | CreateWorkflow _ | UpdateWorkflow _ | UpdateWorkflowStatus _ => result Workflow
  | ListWorkflows _ => result (list Workflow)
  end.

Notation store := (prog wreq wresp).

(** [errors.Join(ctx.Err(), LeaseFenceError(ctx))], alone and behind an error *)
Definition wfence : store (option err) :=
  a ← call WCtxErr; b ← call WFenceErr; Ret (errors_Join [a; b]).
Definition wfence_after (e : option err) : store (option err) :=
  a ← call WCtxErr; b ← call WFenceErr; Ret (errors_Join [e; a; b]).

(** [if err := p; err != nil { return err }], the object as it is. *)
Definition check_obj (object : Workflow) (p : store (option err)) (k : store (Workflow * option err))
    : store (Workflow * option err) :=
  p ≫= fun e => match e with Some x => Ret (object, Some x) | None => k end.
Definition try_obj {A} (object : Workflow) (p : store (result A)) (k : A -> store (Workflow * option err))
    : store (Workflow * option err) :=
  p ≫= fun r => match r with inr x => Ret (object, Some x) | inl a => k a end.

(** ** Checks *)

Definition requireWorkflowStorageVersion (object : Workflow) : option err :=
  if ((wf_Name object =s "") || (wf_UID object =s "") || (wf_ResourceVersion object =s ""))%bool then
    Some (workflowStoreConflict "write" "workflow name, UID and resourceVersion are required")
  else None.

Definition checkWorkflowStorageVersion (object : Workflow) (uid version : string) : option err :=
  if ((wf_UID object <>s uid) || (wf_ResourceVersion object <>s version))%bool then Some stale_load else None.

Definition unchangedWorkflowDefinition (previous next : Workflow) : option err :=
  if bool_decide (wf_Spec previous = wf_Spec next) then None
  else Some (workflowStoreConflict "save" "workflow spec changed during execution").

Definition require_new (object : Workflow) : option err :=
  if ((wf_Name object =s "") || (wf_UID object <>s "") || (wf_ResourceVersion object <>s ""))%bool then
    Some (workflowStoreConflict "create" "a new workflow requires a name and no persistence identity")
  else None.

(** ** ConfigMap store *)

Section configmap.
Context `{WorkflowCodec} (namespace : string) (gvk : GroupVersionKind).

Definition encode (object : Workflow) : result string := Marshal (with_GVK object gvk).

Definition decode (cm : ConfigMap) (key_namespace key_name : string) : result Workflow :=
  if ((cm_Name cm <>s SessionConfigMapName key_name) || (cm_Namespace cm <>s namespace)
      || (mget (cm_Labels cm) ManagedByLabel <>s ManagedByValue)
      || (mget (cm_Labels cm) SessionKey <>s key_name))%bool then
    inr (workflowStoreConflict "load" "ConfigMap ownership does not match the workflow")
  else
    match Decode (mget (cm_Data cm) SessionDataKey) with
    | inr e => inr (EWrap (sprint ["decode "; gvk_Kind gvk; " workflow: "; error_text e]) e)
    | inl (object, trailing) =>
        if (trailing : bool) then inr (EText "unexpected trailing workflow data")
        else if (negb (bool_decide (wf_GVK object = gvk)) || (wf_Name object <>s key_name)
                 || ((key_namespace <>s "") && (wf_Namespace object <>s key_namespace)))%bool then
          inr (workflowStoreConflict "load"
            "stored workflow kind or identity does not match the requested object")
        else inl (copy_version_cm object cm)
    end.

Definition new_configmap (object : Workflow) (data : string) : ConfigMap :=
  {| cm_Namespace := namespace; cm_Name := SessionConfigMapName (wf_Name object); cm_UID := "";
     cm_ResourceVersion := ""; cm_CreationTimestamp := 0%Z; cm_DeletionTimestamp := None;
     cm_Labels := sessionLabels (wf_Name object) (gvk_Kind gvk); cm_Finalizers := [];
     cm_Data := {[SessionDataKey := data]} |}.

Definition cm_Create (object : Workflow) : store (Workflow * option err) :=
  check_obj object (Ret (require_new object)) (
  try_obj object (Ret (encode object)) (fun data =>
  check_obj object wfence (
  try_obj object (call (CreateConfigMap (new_configmap object data))) (fun created =>
  check_obj object wfence (
  Ret (copy_version_cm (with_GVK object gvk) created, None)))))).

Definition cm_Load (key_namespace key_name : string) : store (result Workflow) :=
  try: cm ← call (GetConfigMap namespace (SessionConfigMapName key_name));
  Ret (decode cm key_namespace key_name).

Definition with_data (cm : ConfigMap) (data : string) : ConfigMap :=
  {| cm_Namespace := cm_Namespace cm; cm_Name := cm_Name cm; cm_UID := cm_UID cm;
     cm_ResourceVersion := cm_ResourceVersion cm; cm_CreationTimestamp := cm_CreationTimestamp cm;
     cm_DeletionTimestamp := cm_DeletionTimestamp cm; cm_Labels := cm_Labels cm;
     cm_Finalizers := cm_Finalizers cm; cm_Data := {[SessionDataKey := data]} |}.

Definition with_finalizers (cm : ConfigMap) (finalizers : list string) : ConfigMap :=
  {| cm_Namespace := cm_Namespace cm; cm_Name := cm_Name cm; cm_UID := cm_UID cm;
     cm_ResourceVersion := cm_ResourceVersion cm; cm_CreationTimestamp := cm_CreationTimestamp cm;
     cm_DeletionTimestamp := cm_DeletionTimestamp cm; cm_Labels := cm_Labels cm;
     cm_Finalizers := finalizers; cm_Data := cm_Data cm |}.

Definition cm_Save (object : Workflow) : store (Workflow * option err) :=
  check_obj object (Ret (requireWorkflowStorageVersion object)) (
  try_obj object (call (GetConfigMap namespace (SessionConfigMapName (wf_Name object)))) (fun existing =>
  try_obj object (Ret (decode existing (wf_Namespace object) (wf_Name object))) (fun previous =>
  check_obj object (Ret (checkWorkflowStorageVersion object (cm_UID existing) (cm_ResourceVersion existing))) (
  check_obj object (Ret match cm_DeletionTimestamp existing with
                        | Some _ => Some (workflowStoreConflict "save" "workflow ConfigMap is being deleted")
                        | None => None
                        end) (
  check_obj object (Ret (unchangedWorkflowDefinition previous object)) (
  try_obj object (Ret (encode object)) (fun data =>
  check_obj object wfence (
  try_obj object (call (UpdateConfigMap (with_data existing data))) (fun updated =>
  check_obj object wfence (
  Ret (copy_version_cm object updated, None))))))))))).

(** The finalizers of older releases are stripped first. *)
Definition strip_finalizers (existing : ConfigMap) : store (result ConfigMap) :=
  let kept := removeSessionFinalizer (cm_Finalizers existing) in
  if Nat.eqb (length kept) (length (cm_Finalizers existing)) then Ret (inl existing) else
  check: wfence;
  try: updated ← call (UpdateConfigMap (with_finalizers existing kept));
  check: wfence;
  Ret (inl updated).

Definition ignore_not_found (e : option err) : option err :=
  match e with Some x => if IsNotFound x then None else Some x | None => None end.

Definition cm_Delete (object : Workflow) : store (Workflow * option err) :=
  check_obj object (Ret (requireWorkflowStorageVersion object)) (
  g ← call (GetConfigMap namespace (SessionConfigMapName (wf_Name object)));
  match g with
  | inr e => Ret (object, if IsNotFound e then None else Some e)
  | inl existing =>
      check_obj object
        (Ret (if ((mget (cm_Labels existing) ManagedByLabel <>s ManagedByValue)
                  || (mget (cm_Labels existing) SessionKey <>s wf_Name object))%bool
              then Some (workflowStoreConflict "delete" "ConfigMap ownership does not match the workflow")
              else None)) (
      check_obj object (Ret (checkWorkflowStorageVersion object (cm_UID existing) (cm_ResourceVersion existing))) (
      try_obj object (strip_finalizers existing) (fun existing =>
      check_obj object wfence (
      d ← call (DeleteConfigMap namespace (cm_Name existing) (cm_UID existing) (cm_ResourceVersion existing));
      e ← wfence_after (ignore_not_found d);
      Ret (object, e)))))
  end).

Fixpoint decode_listed (wanted : string) (items : list ConfigMap) : result (list Workflow) :=
  match items with
  | [] => inl []
  | cm :: rest =>
      match DecodeHeader (mget (cm_Data cm) SessionDataKey) with
      | inr e => inr e
      | inl header =>
          if negb (bool_decide (header = gvk)) then decode_listed wanted rest else
          match decode cm "" (mget (cm_Labels cm) SessionKey) with
          | inr e => inr e
          | inl object =>
              match decode_listed wanted rest with
              | inr e => inr e
              | inl more =>
                  inl (if ((wanted =s "") || (wf_Namespace object =s wanted))%bool then object :: more else more)
              end
          end
      end
  end.

Definition cm_List (wanted : string) : store (result (list Workflow)) :=
  try: items ← call (ListConfigMaps namespace
    (sprint [ManagedByLabel; "="; ManagedByValue; ","; WorkflowKindLabel; "="; gvk_Kind gvk]));
  Ret (decode_listed wanted items).
End configmap.

(** ** Custom-resource store *)

Section crd.
Context (gvk : GroupVersionKind).

Definition crd_Load (key_namespace key_name : string) : store (result Workflow) :=
  g ← call (GetWorkflow key_namespace key_name);
  Ret match g with inl object => inl (with_GVK object gvk) | inr e => inr e end.

Definition crd_Create (object : Workflow) : store (Workflow * option err) :=
  check_obj object (Ret (require_new object)) (
  let snapshot := with_GVK object gvk in
  let snapshot := with_metadata snapshot (ensureSessionFinalizer (wf_Finalizers snapshot))
    (<[SessionKey := wf_Name object]> (<[ManagedByLabel := ManagedByValue]> (wf_Labels snapshot)))
    (wf_Annotations snapshot) in
  check_obj object wfence (
  try_obj object (call (CreateWorkflow snapshot)) (fun created =>
  check_obj object wfence (
  Ret (with_GVK created gvk, None))))).

(** The live object, loaded behind a fence and at the caller's version. *)
Definition load_live (object : Workflow) (action : string) : store (result Workflow) :=
  check: Ret (requireWorkflowStorageVersion object);
  check: wfence;
  try: current ← crd_Load (wf_Namespace object) (wf_Name object);
  check: Ret (checkWorkflowStorageVersion object (wf_UID current) (wf_ResourceVersion current));
  match wf_DeletionTimestamp current with
  | Some _ => Ret (inr (workflowStoreConflict action "workflow is being deleted"))
  | None => Ret (inl current)
  end.

Definition crd_EnsureProtection (object : Workflow) : store (Workflow * option err) :=
  try_obj object (load_live object "protect") (fun current =>
  let finalizers := ensureSessionFinalizer (wf_Finalizers current) in
  try_obj object
    (if bool_decide (finalizers = wf_Finalizers current) then Ret (inl current) else
     check: wfence;
     try: updated ← call (UpdateWorkflow
       (with_metadata current finalizers (wf_Labels current) (wf_Annotations current)));
     check: wfence;
     Ret (inl updated)) (fun current =>
  Ret (copy_version (with_metadata object (wf_Finalizers current) (wf_Labels object) (wf_Annotations object))
         current, None))).

Definition crd_SetAbortRequest (object : Workflow) (value : string) : store (Workflow * option err) :=
  try_obj object (load_live object "abort request") (fun current =>
  let annotations :=
    if value <>s "" then <[WorkflowAbortRequestedAnnotation := value]> (wf_Annotations current)
    else delete WorkflowAbortRequestedAnnotation (wf_Annotations current) in
  check_obj object wfence (
  try_obj object (call (UpdateWorkflow
      (with_metadata current (wf_Finalizers current) (wf_Labels current) annotations))) (fun updated =>
  Ret (copy_version object updated, None)))).

Definition crd_List (wanted : string) : store (result (list Workflow)) :=
  try: items ← call (ListWorkflows wanted);
  Ret (inl (map (fun object => with_GVK object gvk) items)).

Definition crd_Save (object : Workflow) : store (Workflow * option err) :=
  check_obj object (Ret (requireWorkflowStorageVersion object)) (
  try_obj object (crd_Load (wf_Namespace object) (wf_Name object)) (fun previous =>
  check_obj object (Ret (checkWorkflowStorageVersion object (wf_UID previous) (wf_ResourceVersion previous))) (
  check_obj object (Ret (unchangedWorkflowDefinition previous object)) (
  check_obj object wfence (
  try_obj object (call (UpdateWorkflowStatus object)) (fun updated =>
  check_obj object wfence (
  Ret (copy_version object updated, None)))))))).

(** [for range 5]: the finalizer comes off the live object, whatever its version once
    it is being deleted; a conflict reloads. *)
Fixpoint delete_loop (attempts : nat) (object : Workflow) : store (Workflow * option err) :=
  match attempts with
  | O =>
      Ret (object, Some (workflowStoreConflict "write"
        "workflow deletion kept conflicting with concurrent writers; retry"))
  | S attempts =>
      l ← crd_Load (wf_Namespace object) (wf_Name object);
      match l with
      | inr e => Ret (object, if IsNotFound e then None else Some e)
      | inl previous =>
          if wf_UID previous <>s wf_UID object then
            Ret (object, Some (workflowStoreConflict "write" "workflow UID changed before deletion")) else
          check_obj object
            (Ret match wf_DeletionTimestamp previous with
                 | None => checkWorkflowStorageVersion object (wf_UID previous) (wf_ResourceVersion previous)
                 | Some _ => None
                 end) (
          check_obj object wfence (
          u ← call (UpdateWorkflow (with_metadata previous (removeSessionFinalizer (wf_Finalizers previous))
                     (wf_Labels previous) (wf_Annotations previous)));
          match u with
          | inr e => if IsConflict e then delete_loop attempts object else Ret (object, Some e)
          | inl previous =>
              check_obj object wfence (
              let object := copy_version object previous in
              match wf_DeletionTimestamp previous with
              | Some _ => Ret (object, None)
              | None =>
                  check_obj object wfence (
                  d ← call (DeleteWorkflow (wf_Namespace previous) (wf_Name previous) (wf_UID previous)
                              (wf_ResourceVersion previous));
                  e ← wfence_after (ignore_not_found d);
                  Ret (object, e))
              end)
          end))
      end
  end.

Definition crd_Delete (object : Workflow) : store (Workflow * option err) :=
  check_obj object (Ret (requireWorkflowStorageVersion object)) (delete_loop 5 object).
End crd.

(** ** The interface, and the retry of a convergent pass *)

Record StoreOps := {
  st_Create : Workflow -> store (Workflow * option err);
  st_Load : string -> string -> store (result Workflow);
  st_List : string -> store (result (list Workflow));
  st_Save : Workflow -> store (Workflow * option err);
  st_Delete : Workflow -> store (Workflow * option err)
}.

Definition configmap_store `{WorkflowCodec} (namespace : string) (gvk : GroupVersionKind) : StoreOps :=
  {| st_Create := cm_Create namespace gvk; st_Load := cm_Load namespace gvk; st_List := cm_List namespace gvk;
     st_Save := cm_Save namespace gvk; st_Delete := cm_Delete namespace |}.

Definition crd_store (gvk : GroupVersionKind) : StoreOps :=
  {| st_Create := crd_Create gvk; st_Load := crd_Load gvk; st_List := crd_List gvk; st_Save := crd_Save gvk;
     st_Delete := crd_Delete gvk |}.

(** [attempts] more runs may follow this one. *)
Fixpoint retry_stale (attempts : nat) (s : StoreOps) (pass : Workflow -> store (Workflow * option err))
    (object : Workflow) : store (option err) :=
  r ← pass object;
  let '(object, e) := r in
  match e, attempts with
  | None, _ => Ret None
  | Some e, O => Ret (Some e)
  | Some e, S attempts =>
      if negb (StaleWorkflowWrite e) then Ret (Some e) else
      l ← st_Load s (wf_Namespace object) (wf_Name object);
      match l with
      | inr loadErr => Ret (errors_Join [Some e; Some loadErr])
      | inl fresh =>
          if wf_UID fresh <>s wf_UID object then Ret (Some e) else retry_stale attempts s pass fresh
      end
  end.

Definition RetryStaleWorkflowWrite (s : StoreOps) (object : Workflow)
    (pass : Workflow -> store (Workflow * option err)) : store (option err) :=
  retry_stale 2 s pass object.
End store.

Arguments Workflow : clear implicits.
Arguments wreq : clear implicits.
Arguments StoreOps : clear implicits.
Arguments WorkflowCodec : clear implicits.
