(* ===== verification/WorkflowOwners.v ===== *)
(** * Who owns a workflow name

    The registry of workflow kinds (internal/domain/workflow_registry.go,
    kube/workflow_registry.go), the finders that resolve the durable owner of a name
    (kube/crd_workflow_owner.go, configmap_workflow_owner.go), the check that a new
    name is free (kube/workflow_collision.go) and the lockers that hold a name
    (kube/workflow_locker.go).

    Requests that [Api] does not have are added around it: reads of workflow objects
    of any kind and of their ConfigMap records (which LoadConfigMapWorkflow decodes),
    lists of claims and volumes by selector, and the Lease of the session.  The
    collision check issues its reads in a pool; the model issues them in order. *)

From S2P Require Import Prelude GoErrors Lifecycle KubeTypes Prog Api WorkflowStore.

(** ** The registry *)

Record ControllerWorkflow := {
  cw_Type : string;
  cw_Kind : string;
  cw_Resource : string;
  cw_Singular : string;
  cw_ClusterKind : string;
  cw_ClusterResource : string;
  cw_ClusterSingular : string
}.

Record ControllerResource := {
  cr_Type : string;
  cr_Kind : string;
  cr_Resource : string;
  cr_Singular : string;
  cr_Cluster : bool
}.

Definition no_resource : ControllerResource :=
  {| cr_Type := ""; cr_Kind := ""; cr_Resource := ""; cr_Singular := ""; cr_Cluster := false |}.

Definition controllerWorkflowRegistry : list ControllerWorkflow :=
  let both type kind resource singular :=
    {| cw_Type := type; cw_Kind := kind; cw_Resource := resource; cw_Singular := singular;
       cw_ClusterKind := "Cluster" +:+ kind; cw_ClusterResource := "cluster" +:+ resource;
       cw_ClusterSingular := "cluster" +:+ singular |} in
  let namespaced type kind resource singular :=
    {| cw_Type := type; cw_Kind := kind; cw_Resource := resource; cw_Singular := singular;
       cw_ClusterKind := ""; cw_ClusterResource := ""; cw_ClusterSingular := "" |} in
  [ both "Migrate" "Migration" "migrations" "migration";
    namespaced "MigratePod" "PodMigration" "podmigrations" "podmigration";
    both "Reserve" "Reservation" "reservations" "reservation";
    both "Copy" "Copy" "copies" "copy";
    namespaced "Backup" "Backup" "backups" "backup";
    namespaced "Restore" "Restore" "restores" "restore";
    namespaced "Rename" "Rename" "renames" "rename";
    {| cw_Type := "Move"; cw_Kind := ""; cw_Resource := ""; cw_Singular := ""; cw_ClusterKind := "Move";
       cw_ClusterResource := "moves"; cw_ClusterSingular := "move" |} ].

Definition serves (kind : string) (w : ControllerWorkflow) : bool :=
  (((cw_Kind w <>s "") && (cw_Kind w =s kind)) || ((cw_ClusterKind w <>s "") && (cw_ClusterKind w =s kind)))%bool.

Definition ControllerWorkflowForKind (kind : string) : option ControllerWorkflow :=
  if kind =s "" then None else List.find (serves kind) controllerWorkflowRegistry.

Definition ControllerResourceForKind (kind : string) : option ControllerResource :=
  w ← ControllerWorkflowForKind kind;
  Some (if cw_Kind w =s kind then
          {| cr_Type := cw_Type w; cr_Kind := kind; cr_Resource := cw_Resource w; cr_Singular := cw_Singular w;
             cr_Cluster := false |}
        else
          {| cr_Type := cw_Type w; cr_Kind := kind; cr_Resource := cw_ClusterResource w;
             cr_Singular := cw_ClusterSingular w; cr_Cluster := true |}).

(** The prototypes of the objects are left out. *)
Record crdResource := { crd_kind : string; crd_cluster : bool }.

Definition workflowCRDResourceRegistry : list crdResource :=
  let at_scope cluster kind := {| crd_kind := kind; crd_cluster := cluster |} in
  [ at_scope false "Migration"; at_scope true "ClusterMigration"; at_scope false "PodMigration";
    at_scope false "Reservation"; at_scope true "ClusterReservation"; at_scope false "Copy";
    at_scope true "ClusterCopy"; at_scope false "Backup"; at_scope false "Restore"; at_scope false "Rename";
    at_scope true "Move" ].

Definition resourceKey (resource : crdResource) (namespace name : string) : string * string :=
  (if crd_cluster resource then "" else namespace, name).

(** ** Owners *)

Record WorkflowOwner := {
  owner_ID : string;
  owner_SessionNamespace : string;
  owner_Backend : string;
  owner_Resource : ControllerResource;
  owner_Phase : string;
  owner_ResumeFrom : string
}.

Definition SessionBackendConfigMap : string := "configmap".
Definition SessionBackendCRD : string := "crd".

(** What the summary reads of an object: its kind, the status and the recorded session
    namespace of the spec. *)
Record WorkflowSummary := {
  sum_Kind : string;
  sum_phase : string;
  sum_resumeFrom : string;
  sum_sessionNamespace : string
}.

Definition workflowOwner (object : WorkflowSummary) (id namespace backend : string) : WorkflowOwner :=
  {| owner_ID := id;
     owner_SessionNamespace := if namespace =s "" then sum_sessionNamespace object else namespace;
     owner_Backend := backend; owner_Resource := default no_resource (ControllerResourceForKind (sum_Kind object));
     owner_Phase := sum_phase object; owner_ResumeFrom := sum_resumeFrom object |}.

(** ** Requests *)

Inductive oreq :=
| OKube (r : req)
| OListPVs (selector : string)
| OListPVCs (namespace selector : string)
| OListPods (namespace selector : string)
| OGetWorkflow (resource namespace name : string)  (* the dynamic client *)
| OGetTyped (kind namespace name : string)         (* the typed client *)
| OLoadRecord (namespace name : string)            (* LoadConfigMapWorkflow *)
| OGetConfigMap (namespace name : string)
| ODeleteConfigMap (namespace name : string)
| OAcquireLease (namespace id : string)
| OReleaseLease                                    (* of the acquired lock *)
| ODeleteLease
| OPanic.

Definition oresp (r : oreq) : Type :=
  match r with
  | OKube r => resp r
  | OListPVs _ => result (list PV)
  | OListPVCs _ _ => result (list PVC)
  | OListPods _ _ => result (list Pod)
  | OGetWorkflow _ _ _ | OLoadRecord _ _ => result WorkflowSummary
  | OGetTyped _ _ _ | OGetConfigMap _ _ | ODeleteConfigMap _ _ | OAcquireLease _ _ | OReleaseLease | ODeleteLease => option err
  | OPanic => unit
  end.

Notation orphan := (prog oreq oresp).
Notation otrace := (history oresp).

Fixpoint olift {A} (p : kube A) : orphan A :=
  match p with
  | Ret a => Ret a
  | OutOfFuel => OutOfFuel
  | Vis r k => Vis (OKube r) (fun x => olift (k x))
  end.

(** ** Finders *)

(** [look up workflow %s: %w] *)
Definition lookup_error (id : string) (e : err) : err :=
  EWrap (sprint ["look up workflow "; id; ": "; error_text e]) e.

(** One kind, in the given namespaces. *)
Fixpoint find_in (resource id : string) (namespaces : list string) : orphan (result (option WorkflowOwner)) :=
  match namespaces with
  | [] => Ret (inl None)
  | namespace :: rest =>
      g ← call (OGetWorkflow resource namespace id);
      match g with
      | inr e => if IsNotFound e then find_in resource id rest else fail (lookup_error id e)
      | inl object => Ret (inl (Some (workflowOwner object id namespace SessionBackendCRD)))
      end
  end.

(** Where the objects of a kind may be; a namespaced kind has none without a namespace. *)
Definition lookup_names (resource : crdResource) (namespaces : list string) : list string :=
  if crd_cluster resource then [""] else List.filter (fun n => n <>s "") namespaces.

Fixpoint find_kinds (resources : list crdResource) (id : string) (namespaces : list string)
    : orphan (result (option WorkflowOwner)) :=
  match resources with
  | [] => Ret (inl None)
  | resource :: rest =>
      match ControllerResourceForKind (crd_kind resource) with
      | None => find_kinds rest id namespaces
      | Some workflow =>
          try: o ← find_in (cr_Resource workflow) id (lookup_names resource namespaces);
          match o with
          | Some owner => Ret (inl (Some owner))
          | None => find_kinds rest id namespaces
          end
      end
  end.

Definition CRDFind (id : string) (namespaces : list string) : orphan (result (option WorkflowOwner)) :=
  find_kinds workflowCRDResourceRegistry id namespaces.

Fixpoint ConfigMapFind (id : string) (namespaces : list string) : orphan (result (option WorkflowOwner)) :=
  match namespaces with
  | [] => Ret (inl None)
  | namespace :: rest =>
      if namespace =s "" then ConfigMapFind id rest else
      g ← call (OLoadRecord namespace id);
      match g with
      | inr e => if IsNotFound e then ConfigMapFind id rest else fail (lookup_error id e)
      | inl object => Ret (inl (Some (workflowOwner object id namespace SessionBackendConfigMap)))
      end
  end.

(** The first owner that a finder resolves; the errors otherwise. *)
Fixpoint find_first (finders : list (orphan (result (option WorkflowOwner)))) (failure : option err)
    : orphan (result (option WorkflowOwner)) :=
  match finders with
  | [] => Ret match failure with Some e => inr e | None => inl None end
  | finder :: rest =>
      r ← finder;
      match r with
      | inl (Some owner) => Ret (inl (Some owner))
      | inl None => find_first rest failure
      | inr e => find_first rest (errors_Join [failure; Some e])
      end
  end.

(** The composition of root.go: the custom resources, then the records. *)
Definition CompositeFind (id : string) (namespaces : list string) : orphan (result (option WorkflowOwner)) :=
  find_first [CRDFind id namespaces; ConfigMapFind id namespaces] None.

(** ** Collisions of names *)

Definition collision (message : string) : err := NewError ErrorConflict "check workflow name collision" message.

(** An answer that lets the name pass. *)
Definition absent_or_hidden (failOnForbidden : bool) (e : err) : bool :=
  (IsNotFound e || (IsForbidden e && negb failOnForbidden))%bool.

Fixpoint checkConfigMapNameCollision (id : string) (namespaces : list string) (failOnForbidden : bool)
    : orphan (option err) :=
  match namespaces with
  | [] => Ret None
  | namespace :: rest =>
      let name := SessionConfigMapName id in
      g ← call (OGetConfigMap namespace name);
      match g with
      | Some e =>
          if absent_or_hidden failOnForbidden e then checkConfigMapNameCollision id rest failOnForbidden
          else fail (WrapError ErrorKubernetes "check workflow name collision" "read session ConfigMap" e)
      | None =>
          fail (collision (sprint ["workflow name "; quoted id; " is already used by ConfigMap session "; namespace; "/";
                                   name; "; use a different workflow name"]))
      end
  end.

(** [workflowCollisionLookup] *)
Definition lookups_of (kinds namespaces : list string) (currentKind : string) : list (crdResource * string) :=
  let resources := if bool_decide (kinds = []) then workflowCRDResourceRegistry
                   else List.filter (fun r => contains kinds (crd_kind r)) workflowCRDResourceRegistry in
  flat_map (fun r => if crd_kind r =s currentKind then []
                     else if crd_cluster r then [(r, "")] else (fun n => (r, n)) <$> namespaces) resources.

Fixpoint read_lookups (id : string) (lookups : list (crdResource * string)) : orphan (list (option err)) :=
  match lookups with
  | [] => Ret []
  | (resource, namespace) :: rest =>
      let key := resourceKey resource namespace id in
      e ← call (OGetTyped (crd_kind resource) key.1 key.2);
      es ← read_lookups id rest;
      Ret (e :: es)
  end.

Fixpoint first_collision (id : string) (failOnForbidden : bool) (lookups : list (crdResource * string))
    (answers : list (option err)) : option err :=
  match lookups, answers with
  | (resource, namespace) :: lookups, answer :: answers =>
      match answer with
      | Some e =>
          if absent_or_hidden failOnForbidden e then first_collision id failOnForbidden lookups answers
          else Some (WrapError ErrorKubernetes "check workflow name collision" ("read " +:+ crd_kind resource) e)
      | None =>
          Some (collision
            (sprint ["workflow name "; quoted id; " is already used by "; crd_kind resource; " in ";
                     if crd_cluster resource then "cluster scope" else namespace;
                     "; workflow names must be unique across kinds that share namespace roles"]))
      end
  | _, _ => None
  end.

(** With both clients configured. *)
Definition CheckWorkflowIdentityCollision (kinds : list string) (id currentKind : string) (namespaces : list string)
    (failOnForbidden : bool) : orphan (option err) :=
  if ((id =s "") || (currentKind =s "") || bool_decide (namespaces = []))%bool then
    fail (NewError ErrorValidation "check workflow name collision"
            "workflow name, kind and namespace roles are required")
  else if contains namespaces "" then
    fail (NewError ErrorValidation "check workflow name collision" "workflow namespace roles must be explicit")
  else
    check: checkConfigMapNameCollision id namespaces failOnForbidden;
    let lookups := lookups_of kinds namespaces currentKind in
    answers ← read_lookups id lookups;
    Ret (first_collision id failOnForbidden lookups answers).

Definition CheckConfigMapIdentityCollision (id : string) (namespaces : list string) : orphan (option err) :=
  checkConfigMapNameCollision id namespaces true.

(** ** Lockers *)

Definition ConfigMapWorkflowLocker_Acquire (namespace id : string) : orphan (option err) :=
  call (OAcquireLease namespace id).

Definition CRDWorkflowLocker_Acquire (namespace id : string) : orphan (option err) :=
  check: checkConfigMapNameCollision id [namespace] true;
  check: call (OAcquireLease namespace id);
  e ← checkConfigMapNameCollision id [namespace] true;
  match e with
  | Some x => r ← call OReleaseLease; Ret (errors_Join [Some x; r])
  | None => Ret None
  end.
