(* ===== verification/Reclaim.v ===== *)
(** * Reclaiming storage after a workflow

    internal/app/volume_reclaim.go, source_release.go, volume_consumers.go,
    reservation_consumers.go and the checks they share (validateFinalizablePV of
    workflow_support.go, validReclaimPolicy of orphan_cleanup.go,
    checkpointFenceError of lifecycle.go).  A workflow that has ended either deletes
    the copy of the data that is no longer used, or strips its own marks from a
    volume it leaves behind and restores the volume's reclaim policy.

    A reclaim policy that comes from a checkpoint is a string, as in the code.  The
    two lists of inspectPVCUnusedWithOperations are read concurrently by the code;
    neither depends on the other, and the model reads the Pods first. *)

From S2P Require Import Prelude GoErrors Lifecycle KubeTypes Prog Api ResourceState Ownership PVBinding.

(** ** Checkpoint fence (internal/app/lifecycle.go) *)

Definition checkpointFenceError : kube (option err) :=
  c ← call CtxErr;
  match c with
  | Some e => fail e
  | None => call FenceErr
  end.

(** [errors.Join(err, checkpointFenceError(ctx))] *)
Definition join_fence (e : option err) : kube (option err) :=
  f ← checkpointFenceError; Ret (errors_Join [e; f]).

Definition persistCheckpoint (save : option (kube (option err))) : kube (option err) :=
  match save with
  | None => fail (NewError ErrorInternal "checkpoint" "session store is required")
  | Some save =>
      check: checkpointFenceError;
      check: save;
      checkpointFenceError
  end.

(** ** Policies *)

Definition validReclaimPolicy (policy : string) : bool :=
  ((policy =s policy_string ReclaimDelete) || (policy =s policy_string ReclaimRetain)
   || (policy =s policy_string ReclaimRecycle))%bool.

(** The API's policy of that name. *)
Definition policy_of_string (s : string) : option ReclaimPolicy :=
  if s =s "Retain" then Some ReclaimRetain
  else if s =s "Delete" then Some ReclaimDelete
  else if s =s "Recycle" then Some ReclaimRecycle else None.

Definition pv_set_policy (pv : PV) (policy : ReclaimPolicy) : PV :=
  pv_set_metadata pv (pv_Labels pv) (pv_Annotations pv) policy.

(** Writing a volume with the policy of that name: the updated volume, or the
    server's answer to a policy it does not define. *)
Definition update_pv_policy (pv : PV) (policy : string) : kube (result (option PV)) :=
  match policy_of_string policy with
  | Some p => call (UpdatePV (pv_set_policy pv p))
  | None =>
      e ← call (UpdatePVUnsupported pv policy);
      Ret match e with Some x => inr x | None => inl None end
  end.

Definition live_policy (pv : PV) : string := policy_string (pv_ReclaimPolicy pv).

(** ** Identity of a volume to reclaim *)

Definition uncheckpointedDestinationPVMatches (pv : PV) (claim : ObjectReference) : bool :=
  if ((Namespace claim =s "") || (Name claim =s "") || (UID claim =s ""))%bool then false else
  match pv_ClaimRef pv with
  | None => false
  | Some ref =>
      if ((mget (pv_Labels pv) ManagedByLabel <>s "") || (mget (pv_Labels pv) SessionKey <>s "")
          || (mget (pv_Labels pv) ResourceRoleLabel <>s "")
          || (mget (pv_Annotations pv) SessionKey <>s ""))%bool then false
      else if ((mget (pv_Annotations pv) OriginalPolicyAnnotation <>s "")
               || (mget (pv_Annotations pv) PairedPVAnnotation <>s "")
               || negb (bool_decide (pv_ReclaimPolicy pv = ReclaimDelete)))%bool then false
      else ((Namespace ref =s Namespace claim) && (Name ref =s Name claim) && (UID ref =s UID claim))%bool
  end.

Definition uncheckpointed_matches (pv : PV) (claim : option ObjectReference) : bool :=
  match claim with Some c => uncheckpointedDestinationPVMatches pv c | None => false end.

Definition cleanupPVIdentityMatches (pv : PV) (ref : ObjectReference) (sessionID expectedRole : string)
    (uncheckpointedClaim : option ObjectReference) : bool :=
  if pv_UID pv <>s UID ref then false
  else if ((mget (pv_Labels pv) SessionKey =s sessionID)
           && (mget (pv_Labels pv) ResourceRoleLabel =s expectedRole))%bool then true
  else uncheckpointed_matches pv uncheckpointedClaim.

Definition reclaimPVPolicyMatches (pv : PV) (policy : string) (uncheckpointedClaim : option ObjectReference)
    : bool :=
  if negb (validReclaimPolicy policy) then false
  else if uncheckpointed_matches pv uncheckpointedClaim then policy =s policy_string ReclaimDelete
  else ((mget (pv_Annotations pv) OriginalPolicyAnnotation =s policy)
        && (bool_decide (pv_ReclaimPolicy pv = ReclaimRetain) || (live_policy pv =s policy)))%bool.

Definition free_phase (p : VolumePhase) : bool :=
  match p with VolumeReleased | VolumeAvailable => true | _ => false end.

Definition resolvedSourcePolicy (pv : ObjectReference) (planned : string) : kube string :=
  if Name pv =s "" then Ret planned else
  g ← call (GetPV (Name pv));
  Ret match g with
      | inr _ => planned
      | inl current =>
          if pv_UID current <>s UID pv then planned else
          let policy := mget (pv_Annotations current) OriginalPolicyAnnotation in
          if validReclaimPolicy policy then policy else planned
      end.

(** ** Deleting a claim *)

Definition deleteManagedPVC (sessionID : string) (ref : ObjectReference) : kube (option err) :=
  check: checkpointFenceError;
  g ← call (GetPVC (Namespace ref) (Name ref));
  match g with
  | inr e =>
      if IsNotFound e then Ret None else
      fail (WrapError ErrorKubernetes "cleanup" (sprint ["read PVC "; Namespace ref; "/"; Name ref]) e)
  | inl pvc =>
      if ((pvc_UID pvc <>s UID ref) || (mget (pvc_Labels pvc) SessionKey <>s sessionID))%bool then
        fail (NewError ErrorConflict "cleanup"
          (sprint ["PVC "; Namespace ref; "/"; Name ref; " identity or session ownership changed"])) else
      check: checkpointFenceError;
      d ← call (DeletePVC (Namespace ref) (Name ref) (pvc_UID pvc) (pvc_ResourceVersion pvc));
      check: Ret match d with
                 | Some e =>
                     if IsNotFound e then None else
                     Some (WrapError ErrorKubernetes "cleanup"
                       (sprint ["delete PVC "; Namespace ref; "/"; Name ref]) e)
                 | None => None
                 end;
      checkpointFenceError
  end.

(** ** Deleting a volume *)

Definition phase_refused (pv : PV) : err :=
  NewError ErrorPrecondition "cleanup PV"
    (sprint ["PV "; pv_Name pv; " phase "; volume_phase_string (pv_Phase pv);
             " must be Released or Available"]).

(** The claim reference, when all of its parts are there. *)
Definition full_claimref (pv : PV) : option ObjectReference :=
  match pv_ClaimRef pv with
  | None => None
  | Some ref => if ((Namespace ref =s "") || (Name ref =s "") || (UID ref =s ""))%bool then None else Some ref
  end.

Definition still_claimed (pv : PV) (ref : ObjectReference) : err :=
  NewError ErrorPrecondition "cleanup PV"
    (sprint ["PV "; pv_Name pv; " is still claimed by PVC "; Namespace ref; "/"; Name ref]).

Definition validateDeletingPVClaim (pv : PV) : kube (option err) :=
  match full_claimref pv with
  | None => fail (phase_refused pv)
  | Some ref =>
      c ← call (GetPVC (Namespace ref) (Name ref));
      match c with
      | inr e =>
          if IsNotFound e then Ret None else
          fail (WrapError ErrorKubernetes "cleanup PV"
            (sprint ["read PVC "; Namespace ref; "/"; Name ref]) e)
      | inl claim =>
          if pvc_UID claim <>s UID ref then
            fail (NewError ErrorConflict "cleanup PV" (sprint ["PV "; pv_Name pv; " ClaimRef UID changed"])) else
          match pvc_DeletionTimestamp claim with
          | None => fail (still_claimed pv ref)
          | Some _ => Ret None
          end
      end
  end.

Definition reclaimedPVReleased (ref : ObjectReference) (sessionID expectedRole : string)
    (uncheckpointedClaim : option ObjectReference) : kube (result (bool * unit)) :=
  g ← call (GetPV (Name ref));
  match g with
  | inr e => Ret (if IsNotFound e then ready true else inr e)
  | inl current =>
      if negb (cleanupPVIdentityMatches current ref sessionID expectedRole uncheckpointedClaim) then
        fail (NewError ErrorConflict "cleanup PV"
          (sprint ["PV "; Name ref; " identity, ownership, or role changed while waiting for release"])) else
      if free_phase (pv_Phase current) then Ret (ready true) else
      if negb (bool_decide (pv_Phase current = VolumeBound)) then fail (phase_refused current) else
      match full_claimref current with
      | None =>
          fail (NewError ErrorPrecondition "cleanup PV"
            (sprint ["PV "; pv_Name current; " phase "; volume_phase_string (pv_Phase current);
                     " has no ClaimRef"]))
      | Some claimRef =>
          c ← call (GetPVC (Namespace claimRef) (Name claimRef));
          match c with
          | inr e => Ret (if IsNotFound e then ready false else inr e)
          | inl claim =>
              if pvc_UID claim <>s UID claimRef then
                fail (NewError ErrorConflict "cleanup PV"
                  (sprint ["PV "; Name ref; " ClaimRef UID changed while waiting for release"])) else
              match pvc_DeletionTimestamp claim with
              | None => fail (still_claimed current claimRef)
              | Some _ => Ret (ready false)
              end
          end
      end
  end.

(** An internal error of a wait is reported as a Kubernetes error. *)
Definition classify_wait (e : err) (message : string) : err :=
  if bool_decide (CategoryOf (Some e) = ErrorInternal)
  then WrapError ErrorKubernetes "cleanup PV" message e else e.

Section waits.
Context (polls : nat).

Definition second : Z := 1000000000%Z.

Definition waitForPVRelease (pv : PV) (ref : ObjectReference) (sessionID expectedRole : string)
    (uncheckpointedClaim : option ObjectReference) : kube (result (option PV)) :=
  check: validateDeletingPVClaim pv;
  e ← wait_error (WaitFor polls second (sprint ["PV "; pv_Name pv; " release"])
        (reclaimedPVReleased ref sessionID expectedRole uncheckpointedClaim));
  match e with
  | Some x => fail (classify_wait x (sprint ["wait for PV "; Name ref; " release"]))
  | None =>
      g ← call (GetPV (Name ref));
      match g with
      | inr e =>
          if IsNotFound e then Ret (inl None) else
          fail (WrapError ErrorKubernetes "cleanup PV" (sprint ["read PV "; Name ref; " after release"]) e)
      | inl current =>
          if negb (cleanupPVIdentityMatches current ref sessionID expectedRole uncheckpointedClaim) then
            fail (NewError ErrorConflict "cleanup PV"
              (sprint ["PV "; Name ref; " identity, ownership, or role changed"]))
          else Ret (inl (Some current))
      end
  end.

Definition waitForPVDeletion (ref : ObjectReference) : kube (option err) :=
  e ← wait_error (WaitFor polls second (sprint ["PV "; Name ref; " deletion"])
        (g ← call (GetPV (Name ref));
         Ret match g with
             | inr e => if IsNotFound e then ready true else inr e
             | inl current =>
                 if pv_UID current <>s UID ref then
                   inr (NewError ErrorConflict "cleanup PV"
                     (sprint ["PV "; Name ref; " was replaced while waiting for deletion"]))
                 else ready false
             end));
  Ret match e with
      | Some x => Some (classify_wait x (sprint ["wait for PV "; Name ref; " deletion"]))
      | None => None
      end.
End waits.

(** One attempt: the volume it prepared, [None] when there is nothing left. *)
Definition restore_attempt (ref : ObjectReference) (sessionID expectedRole policy : string)
    (uncheckpointedClaim : option ObjectReference) : kube (result (option PV)) :=
  check: checkpointFenceError;
  g ← call (GetPV (Name ref));
  match g with
  | inr e => if IsNotFound e then Ret (inl None) else fail e
  | inl current =>
      if (negb (cleanupPVIdentityMatches current ref sessionID expectedRole uncheckpointedClaim)
          || negb (free_phase (pv_Phase current))
          || negb (reclaimPVPolicyMatches current policy uncheckpointedClaim))%bool then
        fail (NewError ErrorConflict "cleanup PV"
          (sprint ["PV "; Name ref; " identity, ownership, state, or reclaim policy changed"])) else
      if live_policy current =s policy then Ret (inl (Some current)) else
      check: checkpointFenceError;
      u ← update_pv_policy current policy;
      e ← join_fence (error_of u);
      Ret match e, u with
          | Some x, _ => inr x
          | None, inl prepared => inl prepared
          | None, inr x => inr x
          end
  end.

Section retry.
Context `{ConflictRetry}.

Definition restoreReclaimedPVPolicy (ref : ObjectReference) (sessionID expectedRole policy : string)
    (uncheckpointedClaim : option ObjectReference) : kube (result (option PV)) :=
  if negb (validReclaimPolicy policy) then
    fail (NewError ErrorPrecondition "cleanup PV"
      (sprint ["PV "; Name ref; " has no valid original reclaim policy"])) else
  r ← RetryOnConflictValue (restore_attempt ref sessionID expectedRole policy uncheckpointedClaim);
  match r with
  | inl prepared => Ret (inl prepared)
  | inr e =>
      if bool_decide (CategoryOf (Some e) = ErrorConflict) then fail e
      else fail (WrapError ErrorKubernetes "cleanup PV" ("restore reclaim policy for PV " +:+ Name ref) e)
  end.

(** What follows once the volume is neither Bound nor in a refused phase. *)
Definition delete_released (polls : nat) (sessionID : string) (ref : ObjectReference)
    (expectedRole policy : string) (uncheckpointedClaim : option ObjectReference) : kube (option err) :=
  try: prepared ← restoreReclaimedPVPolicy ref sessionID expectedRole policy uncheckpointedClaim;
  match prepared with
  | None => Ret None
  | Some pv =>
      check: checkpointFenceError;
      d ← call (DeletePV (pv_Name pv) (pv_UID pv) (pv_ResourceVersion pv));
      check: Ret match d with
                 | Some e =>
                     if IsNotFound e then None
                     else Some (WrapError ErrorKubernetes "cleanup PV" ("delete PV " +:+ pv_Name pv) e)
                 | None => None
                 end;
      check: checkpointFenceError;
      waitForPVDeletion polls ref
  end.

Definition deleteReclaimedPV (polls : nat) (sessionID : string) (ref : ObjectReference)
    (expectedRole policy : string) (uncheckpointedClaim : option ObjectReference) : kube (option err) :=
  check: checkpointFenceError;
  g ← call (GetPV (Name ref));
  match g with
  | inr e =>
      if IsNotFound e then Ret None else
      fail (WrapError ErrorKubernetes "cleanup PV" ("read PV " +:+ Name ref) e)
  | inl pv =>
      if negb (cleanupPVIdentityMatches pv ref sessionID expectedRole uncheckpointedClaim) then
        fail (NewError ErrorConflict "cleanup PV"
          (sprint ["PV "; Name ref; " identity, ownership, or role changed"])) else
      try: released ←
        (if bool_decide (pv_Phase pv = VolumeBound)
         then waitForPVRelease polls pv ref sessionID expectedRole uncheckpointedClaim
         else Ret (inl (Some pv)));
      match released with
      | None => Ret None
      | Some pv =>
          if negb (free_phase (pv_Phase pv)) then fail (phase_refused pv) else
          delete_released polls sessionID ref expectedRole policy uncheckpointedClaim
      end
  end.
End retry.

(** ** Stripping the workflow's marks (source_release.go) *)

Definition finalizable_role (role : string) : bool :=
  ((role =s ResourceRoleActive) || (role =s ResourceRoleSource) || (role =s ResourceRoleRename)
   || (role =s ResourceRoleDestination) || (role =s ResourceRoleRollback))%bool.

(** Already as the finalizer leaves it. *)
Definition pv_finalized (pv : PV) (policy : string) : bool :=
  ((mget (pv_Labels pv) SessionKey =s "") && (mget (pv_Labels pv) ResourceRoleLabel =s "")
   && (live_policy pv =s policy) && (mget (pv_Annotations pv) OriginalPolicyAnnotation =s ""))%bool.

Definition stripped_labels (labels : gmap string string) : gmap string string :=
  let l := delete ResourceRoleLabel (delete SessionKey labels) in
  if mget l ManagedByLabel =s ManagedByValue then delete ManagedByLabel l else l.

Definition stripped_pv (pv : PV) : PV :=
  pv_set_metadata pv (stripped_labels (pv_Labels pv))
    (delete PairedPVAnnotation (delete OriginalPolicyAnnotation (pv_Annotations pv))) (pv_ReclaimPolicy pv).

Definition finalize_pv_once (sessionID : string) (ref : ObjectReference) (policy : string) : kube (option err) :=
  check: checkpointFenceError;
  g ← call (GetPV (Name ref));
  match g with
  | inr e => fail e
  | inl pv =>
      let changed := NewError ErrorConflict "finalize active PV"
                       (sprint ["PV "; Name ref; " identity, ownership, or role changed"]) in
      if pv_UID pv <>s UID ref then fail changed
      else if pv_finalized pv policy then Ret None
      else if ((mget (pv_Labels pv) SessionKey <>s sessionID)
               || negb (finalizable_role (mget (pv_Labels pv) ResourceRoleLabel)))%bool then fail changed
      else
        check: checkpointFenceError;
        u ← update_pv_policy (stripped_pv pv) policy;
        join_fence (error_of u)
  end.

Definition validateFinalizablePV (pv : PV) (ref : ObjectReference) (sessionID policy : string) : option err :=
  if policy =s "" then
    Some (NewError ErrorPrecondition "cleanup dry-run"
      (sprint ["PV "; Name ref; " has no recorded reclaim policy"]))
  else
  let changed := NewError ErrorConflict "cleanup dry-run"
                   (sprint ["PV "; Name ref; " identity, ownership, or role changed"]) in
  if pv_UID pv <>s UID ref then Some changed
  else if pv_finalized pv policy then None
  else if ((mget (pv_Labels pv) SessionKey <>s sessionID)
           || negb (finalizable_role (mget (pv_Labels pv) ResourceRoleLabel)))%bool then Some changed
  else None.

(** ** Consumers of a claim (volume_consumers.go) *)

Definition ownerReferenceMatches (owner : OwnerReference) (object : Workload) : bool :=
  ((owner_UID owner <>s "") && (owner_Name owner =s workload_Name object)
   && (owner_UID owner =s workload_UID object))%bool.

Definition controllerOwnerReference (owners : list OwnerReference) : option OwnerReference :=
  List.find (fun o => match owner_Controller o with Some b => b | None => false end) owners.

Definition owner_verified (owner : OwnerReference) (r : result (option Workload)) : bool :=
  match r with inl (Some object) => ownerReferenceMatches owner object | _ => false end.

Definition owner_answer := (string * string * bool)%type.

Definition named (owner : OwnerReference) (verified : bool) : owner_answer :=
  (owner_Kind owner, owner_Name owner, verified).

Definition resolveCleanupReplicaSetOwner (namespace : string) (owner : OwnerReference) : kube owner_answer :=
  r ← call (GetWorkload "ReplicaSet" namespace (owner_Name owner));
  match r with
  | inl (Some replicaSet) =>
      if negb (ownerReferenceMatches owner replicaSet) then Ret (named owner false) else
      match controllerOwnerReference (workload_OwnerReferences replicaSet) with
      | None => Ret (named owner true)
      | Some parent =>
          if owner_Kind parent <>s "Deployment" then Ret (named parent false) else
          d ← call (GetWorkload "Deployment" namespace (owner_Name parent));
          Ret match d with
              | inr e => if IsNotFound e then named owner true else named parent false
              | inl None => named parent false
              | inl (Some deployment) =>
                  if negb (ownerReferenceMatches parent deployment) then named owner true
                  else named parent true
              end
      end
  | _ => Ret (named owner false)
  end.

Definition resolveCleanupPodOwner (pod : Pod) : kube owner_answer :=
  match controllerOwnerReference (pod_OwnerReferences pod) with
  | None => Ret ("", "", false)
  | Some owner =>
      let kind := owner_Kind owner in
      if ((kind =s "Job") || (kind =s "Deployment") || (kind =s "StatefulSet") || (kind =s "DaemonSet"))%bool then
        r ← call (GetWorkload kind (pod_Namespace pod) (owner_Name owner));
        Ret (named owner (owner_verified owner r))
      else if kind =s "ReplicaSet" then resolveCleanupReplicaSetOwner (pod_Namespace pod) owner
      else Ret (named owner false)
  end.

Definition cleanupPodBlockerError (pvc : ObjectReference) (pod : Pod) (sessionID : string) (terminal : bool)
    (cause : err) : kube err :=
  o ← resolveCleanupPodOwner pod;
  let '(ownerKind, ownerName, ownerVerified) := o in
  Ret (EPodBlocker
    {| blocker_PVCNamespace := Namespace pvc; blocker_PVCName := Name pvc;
       blocker_PodNamespace := pod_Namespace pod; blocker_PodName := pod_Name pod;
       blocker_PodPhase := pod_Phase pod; blocker_OwnerKind := ownerKind; blocker_OwnerName := ownerName;
       blocker_OwnerVerified := ownerVerified;
       blocker_SessionOwned := ((sessionID <>s "") && (mget (pod_Labels pod) ManagedByLabel =s ManagedByValue)
                                && (mget (pod_Labels pod) SessionKey =s sessionID))%bool;
       blocker_Terminal := terminal |} cause).

(** The workflow's own short-lived reservation Pod does not block. *)
Definition own_reservation_consumer (pod : Pod) (sessionID : string) : bool :=
  ((sessionID <>s "") && (mget (pod_Labels pod) SessionKey =s sessionID)
   && (mget (pod_Labels pod) ResourceRoleLabel =s ResourceRoleReservationConsumer))%bool.

Definition blocking_pod (ref : ObjectReference) (sessionID : string) (pod : Pod) : bool :=
  (negb (own_reservation_consumer pod sessionID) && PodPreventsSafePVCDeletion pod (Name ref))%bool.

Definition blocked_by (ref : ObjectReference) (sessionID : string) (pod : Pod) : kube err :=
  let claim := sprint ["PVC "; Namespace ref; "/"; Name ref] in
  if ((pod_Phase pod =s "Succeeded") || (pod_Phase pod =s "Failed"))%bool then
    cleanupPodBlockerError ref pod sessionID true
      (NewError ErrorPrecondition "cleanup"
        (sprint [claim; " is still protected by terminal Pod "; pod_Name pod; " (phase "; pod_Phase pod;
                 "); delete the Pod object before cleanup"]))
  else
    cleanupPodBlockerError ref pod sessionID false
      (NewError ErrorPrecondition "cleanup"
        (sprint [claim; " is still referenced by Pod "; pod_Name pod; " (phase "; pod_Phase pod;
                 "); stop its controller or delete the Pod before cleanup"])).

(** A list call that may answer with a nil list. *)
Definition listed {A} (r : result (option (list A))) (empty : string) : result (list A) :=
  match r with
  | inl (Some l) => inl l
  | inl None => inr (EText empty)
  | inr e => inr e
  end.

Definition inspectPVCUnusedWithOperations (ref : ObjectReference) (sessionID : string)
    : kube (result (option PVC)) :=
  g ← call (GetPVC (Namespace ref) (Name ref));
  let claim := sprint ["PVC "; Namespace ref; "/"; Name ref] in
  match g with
  | inr e =>
      if IsNotFound e then Ret (inl None) else
      fail (WrapError ErrorKubernetes "cleanup" (sprint ["read "; claim; " consumers"]) e)
  | inl pvc =>
      if pvc_Name pvc =s "" then
        fail (NewError ErrorKubernetes "cleanup" (sprint ["read "; claim; " returned an empty object"])) else
      if UID ref =s "" then
        fail (NewError ErrorValidation "cleanup" (sprint [claim; " UID is required"])) else
      if pvc_UID pvc <>s UID ref then
        fail (NewError ErrorConflict "cleanup" (sprint [claim; " identity changed"])) else
      let volume := pvc_VolumeName pvc in
      p ← call (ListPods (Namespace ref));
      a ← (if volume =s "" then Ret (inl []) else
           x ← call ListVolumeAttachments;
           Ret (listed x (sprint ["list VolumeAttachments for PV "; volume; " returned an empty object"])));
      match listed p (sprint ["list PVC consumers in "; Namespace ref; " returned an empty object"]) with
      | inr e =>
          fail (WrapError ErrorKubernetes "cleanup" ("list PVC consumers in " +:+ Namespace ref) e)
      | inl pods =>
          match List.find (blocking_pod ref sessionID) pods with
          | Some pod => e ← blocked_by ref sessionID pod; fail e
          | None =>
              if volume =s "" then Ret (inl (Some pvc)) else
              match a with
              | inr e =>
                  fail (WrapError ErrorKubernetes "cleanup" ("list attachments for PV " +:+ volume) e)
              | inl attachments =>
                  match List.find (attachment_holds [volume]) attachments with
                  | Some attachment =>
                      fail (NewError ErrorPrecondition "cleanup"
                        (sprint [claim; " still has an attached PV on node "; va_NodeName attachment]))
                  | None => Ret (inl (Some pvc))
                  end
              end
          end
      end
  end.

(** ** Reclaiming one volume (volume_reclaim.go) *)

Record reclaimVolume := {
  rv_uncheckpointed : option ObjectReference;
  rv_skipMissingPV : bool;
  rv_role : string;
  rv_pvc : ObjectReference;
  rv_pv : ObjectReference;
  rv_policy : string;
  rv_metadata : PVCMetadata;
  rv_delete : bool
}.

Definition rv_set_policy (v : reclaimVolume) (policy : string) : reclaimVolume :=
  {| rv_uncheckpointed := rv_uncheckpointed v; rv_skipMissingPV := rv_skipMissingPV v;
     rv_role := rv_role v; rv_pvc := rv_pvc v; rv_pv := rv_pv v; rv_policy := policy;
     rv_metadata := rv_metadata v; rv_delete := rv_delete v |}.

Definition skipMissingReclaimPV (v : reclaimVolume) : kube (result bool) :=
  if negb (rv_skipMissingPV v) then Ret (inl false) else
  g ← call (GetPV (Name (rv_pv v)));
  Ret match g with
      | inl _ => inl false
      | inr e => if IsNotFound e then inl true else inr e
      end.

Definition protectRetainedPV (v : reclaimVolume) : kube (result reclaimVolume) :=
  if (rv_delete v || (Name (rv_pv v) =s "") || (rv_policy v =s ""))%bool then Ret (inl v) else
  let retain := rv_set_policy v (policy_string ReclaimRetain) in
  if UID (rv_pvc v) =s "" then Ret (inl retain) else
  g ← call (GetPVC (Namespace (rv_pvc v)) (Name (rv_pvc v)));
  Ret match g with
      | inr e => if IsNotFound e then inl retain else inr e
      | inl pvc => match pvc_DeletionTimestamp pvc with Some _ => inl retain | None => inl v end
      end.

(** The loop updates the slice in place; here the updated slice is returned. *)
Fixpoint protectRetainedPVs (volumes : list reclaimVolume) : kube (result (list reclaimVolume)) :=
  match volumes with
  | [] => Ret (inl [])
  | v :: rest =>
      try: v' ← protectRetainedPV v;
      try: rest' ← protectRetainedPVs rest;
      Ret (inl (v' :: rest'))
  end.

Definition validateReclaimPVC (sessionID : string) (v : reclaimVolume) : kube (option err) :=
  if UID (rv_pvc v) =s "" then Ret None else
  g ← call (GetPVC (Namespace (rv_pvc v)) (Name (rv_pvc v)));
  match g with
  | inr e => if IsNotFound e then Ret None else fail e
  | inl pvc =>
      let label := mget (pvc_Labels pvc) SessionKey in
      if ((pvc_UID pvc <>s UID (rv_pvc v)) || foreign_owner label sessionID
          || foreign_owner (mget (pvc_Annotations pvc) SessionKey) sessionID)%bool then
        fail (NewError ErrorConflict "cleanup" "PVC identity or ownership changed") else
      if negb (rv_delete v) then Ret None else
      if label <>s sessionID then
        fail (NewError ErrorConflict "cleanup" "PVC is no longer owned by this workflow") else
      try: current ← inspectPVCUnusedWithOperations (rv_pvc v) sessionID;
      match current with
      | Some p =>
          if pvc_UID p <>s UID (rv_pvc v) then
            fail (NewError ErrorConflict "cleanup" "PVC identity changed during consumer checks")
          else Ret None
      | None => Ret None
      end
  end.

Definition bound_elsewhere (pv : PV) (pvc : ObjectReference) : bool :=
  match pv_ClaimRef pv with
  | Some ref =>
      (bool_decide (pv_Phase pv = VolumeBound)
       && ((UID pvc =s "") || (UID ref <>s UID pvc) || (Name ref <>s Name pvc)
           || (Namespace ref <>s Namespace pvc)))%bool
  | None => false
  end.

Definition validateReclaimPV (sessionID : string) (v : reclaimVolume) : kube (option err) :=
  if Name (rv_pv v) =s "" then Ret None else
  if rv_policy v =s "" then
    fail (NewError ErrorPrecondition "cleanup"
      (sprint ["PV "; Name (rv_pv v); " has no recorded reclaim policy"])) else
  g ← call (GetPV (Name (rv_pv v)));
  match g with
  | inr e => if IsNotFound e then Ret None else fail e
  | inl pv =>
      let uncheckpointed :=
        (uncheckpointed_matches pv (rv_uncheckpointed v) && (pv_UID pv =s UID (rv_pv v)))%bool in
      check: Ret (if uncheckpointed then None else validateFinalizablePV pv (rv_pv v) sessionID (rv_policy v));
      if ((rv_role v <>s "") && (mget (pv_Labels pv) SessionKey =s sessionID)
          && (mget (pv_Labels pv) ResourceRoleLabel <>s rv_role v))%bool then
        fail (NewError ErrorConflict "cleanup" (sprint ["PV "; Name (rv_pv v); " role changed"])) else
      if (rv_delete v && (mget (pv_Labels pv) SessionKey <>s sessionID) && negb uncheckpointed)%bool then
        fail (NewError ErrorConflict "cleanup" "PV is no longer owned by this workflow") else
      if bound_elsewhere pv (rv_pvc v) then
        fail (NewError ErrorConflict "cleanup"
          "PV binding changed; refusing to reclaim another claim's storage")
      else Ret None
  end.

Definition validateReclaimVolume (sessionID : string) (v : reclaimVolume) (finalize : bool)
    : kube (option err) :=
  try: skip ← skipMissingReclaimPV v;
  if (skip : bool) then Ret None else
  if (negb (rv_delete v) && negb finalize)%bool then Ret None else
  check: validateReclaimPVC sessionID v;
  validateReclaimPV sessionID v.

Section storage.
Context `{ConflictRetry}.

Definition finalizeActivePV (sessionID : string) (ref : ObjectReference) (policy : string) : kube (option err) :=
  if policy =s "" then
    fail (NewError ErrorPrecondition "finalize active PV"
      (sprint ["PV "; Name ref; " has no recorded reclaim policy"])) else
  e ← RetryOnConflict (finalize_pv_once sessionID ref policy);
  report_update "finalize active PV" ("update PV " +:+ Name ref) e.

(** The volume is read once more before it is touched; a missing one is done. *)
Definition if_pv_exists (ref : ObjectReference) (k : kube (option err)) : kube (option err) :=
  if Name ref =s "" then Ret None else
  g ← call (GetPV (Name ref));
  match g with
  | inr e => if IsNotFound e then Ret None else fail e
  | inl _ => k
  end.

Definition reclaimStorageVolume (polls : nat) (sessionID : string) (v : reclaimVolume) (finalize : bool)
    : kube (option err) :=
  try: skip ← skipMissingReclaimPV v;
  if (skip : bool) then Ret None else
  if (negb (rv_delete v) && negb finalize)%bool then Ret None else
  check: validateReclaimVolume sessionID v finalize;
  if rv_delete v then
    check: (if UID (rv_pvc v) <>s "" then deleteManagedPVC sessionID (rv_pvc v) else Ret None);
    if_pv_exists (rv_pv v)
      (deleteReclaimedPV polls sessionID (rv_pv v) (rv_role v) (rv_policy v) (rv_uncheckpointed v))
  else
    check: (if UID (rv_pvc v) <>s "" then FinalizePVC (rv_pvc v) sessionID (rv_metadata v) else Ret None);
    if_pv_exists (rv_pv v) (finalizeActivePV sessionID (rv_pv v) (rv_policy v)).

(** ** Releasing a source that was not cut over (source_release.go) *)

Definition validateSourceOwnershipRelease (workflowID : string) (sourcePVC sourcePV : ObjectReference)
    (originalPolicy : string) : kube (option err) :=
  if ((Name sourcePVC =s "") || (Name sourcePV =s ""))%bool then Ret None else
  c ← call (GetPVC (Namespace sourcePVC) (Name sourcePVC));
  try: claim ← Ret (match c with
                    | inl pvc => inl (Some pvc)
                    | inr e =>
                        if IsNotFound e then inl None else
                        inr (WrapError ErrorKubernetes "cleanup"
                          (sprint ["read source PVC "; Namespace sourcePVC; "/"; Name sourcePVC]) e)
                    end);
  if match claim with Some pvc => pvc_UID pvc <>s UID sourcePVC | None => false end then
    fail (NewError ErrorConflict "cleanup"
      (sprint ["source PVC "; default "" (pvc_Namespace <$> claim); "/"; default "" (pvc_Name <$> claim);
               " identity changed"])) else
  g ← call (GetPV (Name sourcePV));
  match g with
  | inr e =>
      if IsNotFound e then Ret None else
      fail (WrapError ErrorKubernetes "cleanup" ("read source PV " +:+ Name sourcePV) e)
  | inl pv =>
      if pv_UID pv <>s UID sourcePV then
        fail (NewError ErrorConflict "cleanup"
          (sprint ["source PV "; pv_Name pv; " identity changed"])) else
      if mget (pv_Labels pv) SessionKey <>s workflowID then Ret None else
      check: Ret match claim with
                 | None => None
                 | Some pvc =>
                     if (foreign_owner (mget (pvc_Labels pvc) SessionKey) workflowID
                         || foreign_owner (mget (pvc_Annotations pvc) SessionKey) workflowID)%bool then
                       Some (NewError ErrorConflict "cleanup" "source PVC ownership changed")
                     else if ((pvc_VolumeName pvc <>s "") && (pvc_VolumeName pvc <>s Name sourcePV))%bool then
                       Some (NewError ErrorConflict "cleanup" "source PVC binding changed")
                     else None
                 end;
      if (bool_decide (pv_Phase pv = VolumeBound)
          && match pv_ClaimRef pv with
             | None => true
             | Some ref => ((UID ref <>s UID sourcePVC) || (Name ref <>s Name sourcePVC)
                            || (Namespace ref <>s Namespace sourcePVC))%bool
             end)%bool then
        fail (NewError ErrorConflict "cleanup" "source PV binding changed") else
      let role := mget (pv_Labels pv) ResourceRoleLabel in
      if role <>s ResourceRoleSource then
        fail (NewError ErrorConflict "cleanup"
          (sprint ["source PV "; pv_Name pv; " has unexpected session role "; quoted role])) else
      if negb (validReclaimPolicy originalPolicy) then
        fail (NewError ErrorPrecondition "cleanup"
          (sprint ["source PV "; pv_Name pv; " has no recorded reclaim policy"]))
      else Ret None
  end.

Definition empty_metadata : PVCMetadata :=
  {| meta_Labels := ∅; meta_Annotations := ∅; meta_OwnerReferences := [] |}.

Definition retained_source (pvc pv : ObjectReference) (policy : string) : reclaimVolume :=
  {| rv_uncheckpointed := None; rv_skipMissingPV := false; rv_role := ""; rv_pvc := pvc; rv_pv := pv;
     rv_policy := policy; rv_metadata := empty_metadata; rv_delete := false |}.

Definition releaseSourceOwnership (workflowID : string) (sourcePVC sourcePV : ObjectReference)
    (originalPolicy : string) : kube (option err) :=
  if ((Name sourcePVC =s "") || (Name sourcePV =s ""))%bool then Ret None else
  check: validateSourceOwnershipRelease workflowID sourcePVC sourcePV originalPolicy;
  check: ReleasePVC sourcePVC workflowID;
  g ← call (GetPV (Name sourcePV));
  match g with
  | inr e =>
      if IsNotFound e then Ret None else
      fail (WrapError ErrorKubernetes "cleanup" ("read source PV " +:+ Name sourcePV) e)
  | inl pv =>
      if pv_UID pv <>s UID sourcePV then
        fail (NewError ErrorConflict "cleanup"
          (sprint ["source PV "; pv_Name pv; " identity changed"])) else
      let recorded := mget (pv_Annotations pv) OriginalPolicyAnnotation in
      let policy := if recorded <>s "" then recorded else originalPolicy in
      if mget (pv_Labels pv) SessionKey <>s workflowID then Ret None else
      let role := mget (pv_Labels pv) ResourceRoleLabel in
      if role <>s ResourceRoleSource then
        fail (NewError ErrorConflict "cleanup"
          (sprint ["source PV "; pv_Name pv; " has unexpected session role "; quoted role])) else
      try: retained ← protectRetainedPVs [retained_source sourcePVC sourcePV policy];
      match retained with
      | v :: _ => finalizeActivePV workflowID sourcePV (rv_policy v)
      | [] => Ret None
      end
  end.
End storage.

(** ** Reservation Pods left behind (reservation_consumers.go) *)

Definition reservationPodSelector (id : string) : string :=
  sprint [ManagedByLabel; "="; ManagedByValue; ","; SessionKey; "="; id; ","; ResourceRoleLabel; "=";
          ResourceRoleReservationConsumer].

Definition own_consumer_pod (id : string) (pod : Pod) : bool :=
  ((mget (pod_Labels pod) ManagedByLabel =s ManagedByValue) && (mget (pod_Labels pod) SessionKey =s id)
   && (mget (pod_Labels pod) ResourceRoleLabel =s ResourceRoleReservationConsumer))%bool.

Definition pod_reference (namespace : string) (pod : Pod) : ObjectReference :=
  {| APIVersion := "v1"; Kind := "Pod"; Namespace := namespace; Name := pod_Name pod; UID := pod_UID pod;
     ResourceVersion := pod_ResourceVersion pod |}.

Definition inventory_namespace (id namespace : string) : kube (result (list ObjectReference)) :=
  l ← call (ListPodsMatching namespace (reservationPodSelector id));
  Ret match l with
      | inr e =>
          if IsNotFound e then inl [] else
          inr (WrapError ErrorKubernetes "cleanup" ("list reservation Pods in " +:+ namespace) e)
      | inl None =>
          inr (NewError ErrorKubernetes "cleanup" "reservation Pod list returned an empty object")
      | inl (Some pods) =>
          if forallb (own_consumer_pod id) pods then inl (map (pod_reference namespace) pods)
          else inr (NewError ErrorConflict "cleanup" "reservation Pod ownership changed")
      end.

(** Every namespace is listed before any result is looked at; the first error in
    namespace order is reported. *)
Fixpoint inventory_all (id : string) (namespaces : list string)
    : kube (list (result (list ObjectReference))) :=
  match namespaces with
  | [] => Ret []
  | ns :: rest => r ← inventory_namespace id ns; rs ← inventory_all id rest; Ret (r :: rs)
  end.

Definition concat_results (rs : list (result (list ObjectReference))) : result (list ObjectReference) :=
  foldr (fun r acc => match r with
                      | inr e => inr e
                      | inl refs => match acc with inl more => inl (refs ++ more) | inr e => inr e end
                      end) (inl []) rs.

Definition inventoryReservationPods (id : string) (namespaces : list string)
    : kube (result (list ObjectReference)) :=
  let namespaces := slices_Compact (slices_Sort namespaces) in
  if ((id =s "") || contains namespaces "")%bool then
    fail (NewError ErrorValidation "cleanup" "workflow identity and explicit namespaces are required") else
  rs ← inventory_all id namespaces;
  Ret (concat_results rs).

Fixpoint deleteReservationConsumers (polls : nat) (pods : list ObjectReference) : kube (option err) :=
  match pods with
  | [] => Ret None
  | pod :: rest =>
      check: checkpointFenceError;
      d ← call (DeletePod (Namespace pod) (Name pod) (UID pod) (Some (ResourceVersion pod)));
      check: Ret match d with
                 | Some e =>
                     if IsNotFound e then None else
                     Some (WrapError ErrorKubernetes "cleanup" ("delete reservation Pod " +:+ Name pod) e)
                 | None => None
                 end;
      check: checkpointFenceError;
      check: wait_error (WaitFor polls second
        (sprint ["reservation Pod "; Namespace pod; "/"; Name pod; " deletion"])
        (g ← call (GetPod (Namespace pod) (Name pod));
         Ret match g with
             | inr e => if IsNotFound e then ready true else inr e
             | inl current =>
                 if pod_UID current <>s UID pod then
                   inr (NewError ErrorConflict "cleanup"
                     "reservation Pod was replaced while waiting for deletion")
                 else ready false
             end));
      deleteReservationConsumers polls rest
  end.
