(* ===== verification/Reserver.v ===== *)
(** * Reserving a destination: internal/kube/reserver.go

    A reservation provisions the claim that will receive the data: it verifies
    the source identity, pins the source volume, creates the destination claim,
    lets the storage provision it by running a short-lived Pod on the target
    node, and pins the provisioned volume.  The checkpoint is a struct the caller
    owns; [ReserveVolume] returns it as it leaves it, together with its error.
    Log streaming has no effect on the cluster and is left out.

    [reserver_fuel] bounds the polls of a wait, as [fuel] of a [Switcher] does.
    The image reference grammar of github.com/distribution/reference is a
    parameter: [ParseNormalizedNamed] gives the canonical name and the tag. *)

From S2P Require Import Prelude Utf8 GoErrors Lifecycle KubeTypes Prog Api ResourceState Ownership PVBinding Sha256 Names NodeSelection GoFormat.

Class ImageGrammar := ParseNormalizedNamed : string -> result (string * option string).

Record Reserver := { reserver_poll : Z; reserver_fuel : nat; trustedToolImage : string }.

Definition NewReserver (polls : nat) : Reserver :=
  {| reserver_poll := 1000000000%Z; reserver_fuel := polls; trustedToolImage := "" |}.

Definition WithTrustedToolImage (r : Reserver) (image : string) : Reserver :=
  {| reserver_poll := reserver_poll r; reserver_fuel := reserver_fuel r; trustedToolImage := TrimSpace image |}.

Definition toolImage (r : Reserver) (requested : string) : string :=
  if trustedToolImage r <>s "" then trustedToolImage r else requested.

Record ReservationRequest := { SessionID : string; TargetNode : string; ToolImage : string }.

(** [v1alpha1.ClusterVolumeReservationStatus] *)
Record ReservationStatus := {
  rs_SourcePVCName : string;
  rs_DestinationPVC : option ObjectReference;
  rs_DestinationPV : option ObjectReference;
  rs_DestinationPolicy : string;
  rs_Reserved : bool
}.

#[global] Instance ReservationStatus_eq_dec : EqDecision ReservationStatus.
Proof. solve_decision. Defined.

(** ** Tool image (internal/kube/tool_image.go) *)

Definition DefaultToolImageRepository : string := "ghcr.io/labring-sigs/pvc-migrate".

Definition has_at (s : string) : bool := existsb (fun c => N.eqb (byte_val c) 64) (bytes s).

Definition NormalizeToolImage `{ImageGrammar} (value : string) : result string :=
  let value := TrimSpace value in
  let value := if value =s "" then DefaultToolImageRepository +:+ ":main" else value in
  if has_at value then
    inr (NewError ErrorValidation "tool image" "digest references are unsupported; use repository:tag")
  else
    match ParseNormalizedNamed value with
    | inr e =>
        inr (WrapError ErrorValidation "tool image"
          (sprint ["invalid image reference "; quoted value]) e)
    | inl (name, tag) =>
        let tag := default "" tag in
        if tag =s "" then
          inr (NewError ErrorValidation "tool image"
            (sprint ["image "; quoted value; " must include an explicit tag"]))
        else inl (name +:+ ":" +:+ tag)
    end.

(** ** Waiting *)

Definition r_waitFor (r : Reserver) (description : string) (condition : kube (result (bool * unit)))
    : kube (option err) :=
  wait_error (WaitFor (reserver_fuel r) (reserver_poll r) description condition).

(** ** Claim and volume predicates *)

Definition HasWritableAccessMode (modes : list string) : bool :=
  existsb (fun mode => (mode =s "ReadWriteOnce") || (mode =s "ReadWriteOncePod") || (mode =s "ReadWriteMany"))%bool
    modes.

Definition HasAccessMode (modes : list string) (wanted : string) : bool := contains modes wanted.

Definition effectiveVolumeMode (pvc : PVC) : string := default "Filesystem" (spec_VolumeMode (pvc_Spec pvc)).

Definition accessModesEqual (left_ right_ : list string) : bool :=
  bool_decide (slices_Sort left_ = slices_Sort right_).

Definition toolPodName (sessionID pvcName : string) : string :=
  of_bytes (default [] (BoundedName "pvc-migrate-bind" [sessionID; pvcName])).

(** The storage request, the zero quantity when it is missing. *)
Definition storage_request (pvc : PVC) : Quantity := default 0%Z (spec_StorageRequest (pvc_Spec pvc)).

Definition validateReservationPVOwnership (pv : PV) (sessionID expectedRole : string) (requireOwned : bool)
    : option err :=
  let owner := mget (pv_Labels pv) SessionKey in
  let role := mget (pv_Labels pv) ResourceRoleLabel in
  let managedBy := mget (pv_Labels pv) ManagedByLabel in
  if ((owner =s "") && (role =s "") && (managedBy =s "") && negb requireOwned)%bool then None
  else if ((owner <>s sessionID) || (role <>s expectedRole) || (managedBy <>s ManagedByValue))%bool then
    Some (NewError ErrorConflict "reserve volume"
      (sprint ["PV "; pv_Name pv; " has unexpected session ownership or role"]))
  else None.

Definition validateMissingReservationDestination (pvc pv : ObjectReference) (reserved : bool) : option err :=
  if (reserved || (UID pvc <>s "") || (Name pv <>s ""))%bool then
    Some (NewError ErrorConflict "reserve volume"
      (sprint ["recorded destination PVC "; Namespace pvc; "/"; Name pvc; " no longer exists"]))
  else None.

(** The volume's claim reference is the claim, by namespace, name and UID. *)
Definition claims_back (pv : PV) (pvc : PVC) : bool :=
  match pv_ClaimRef pv with
  | None => false
  | Some c => ((Namespace c =s pvc_Namespace pvc) && (Name c =s pvc_Name pvc) && (UID c =s pvc_UID pvc))%bool
  end.

Definition validateRetainedDestinationPV (pv : PV) (expectedUID : string) (pvc : PVC) (sessionID : string)
    : option err :=
  if pv_UID pv <>s expectedUID then
    Some (NewError ErrorConflict "reserve volume" "destination PV was replaced after retaining it")
  else
    match validateReservationPVOwnership pv sessionID ResourceRoleDestination true with
    | Some e => Some e
    | None =>
        if negb (claims_back pv pvc) then
          Some (NewError ErrorConflict "reserve volume" "destination PV binding changed after retaining it")
        else if negb (bool_decide (pv_ReclaimPolicy pv = ReclaimRetain)) then
          Some (NewError ErrorConflict "reserve volume"
            "destination PV reclaim policy changed after retaining it")
        else None
    end.

Definition validateReservationCheckpoint (sourcePVCName : string) (pvc : PVC)
    (checkpoint : ReservationStatus) : option err :=
  if ((rs_SourcePVCName checkpoint <>s "") && (rs_SourcePVCName checkpoint <>s sourcePVCName))%bool then
    Some (NewError ErrorConflict "reserve volume" "reservation checkpoint belongs to another source PVC")
  else
    match rs_DestinationPVC checkpoint with
    | Some ref =>
        if ((Name ref <>s pvc_Name pvc) || (Namespace ref <>s pvc_Namespace pvc))%bool then
          Some (NewError ErrorConflict "reserve volume"
            "reservation checkpoint differs from destination PVC manifest")
        else None
    | None => None
    end.

Definition validateReservationPod (pod : option Pod) (sessionID destinationPVC : string) : option err :=
  match pod with
  | None =>
      Some (NewError ErrorKubernetes "validate reservation Pod"
        "Kubernetes returned an incomplete reservation Pod identity")
  | Some pod =>
      if ((pod_Namespace pod =s "") || (pod_Name pod =s "") || (pod_UID pod =s ""))%bool then
        Some (NewError ErrorKubernetes "validate reservation Pod"
          "Kubernetes returned an incomplete reservation Pod identity")
      else if ((mget (pod_Labels pod) ManagedByLabel <>s ManagedByValue)
               || (mget (pod_Labels pod) SessionKey <>s sessionID)
               || (mget (pod_Labels pod) ResourceRoleLabel <>s ResourceRoleReservationConsumer))%bool then
        Some (NewError ErrorConflict "validate reservation Pod"
          (sprint ["tool Pod "; pod_Namespace pod; "/"; pod_Name pod; " is not owned by session ";
                   sessionID; " as a reservation consumer"]))
      else if negb (PodUsesPVC pod destinationPVC) then
        Some (NewError ErrorConflict "validate reservation Pod"
          (sprint ["tool Pod "; pod_Namespace pod; "/"; pod_Name pod; " does not mount destination PVC ";
                   destinationPVC]))
      else None
  end.

(** ** Identity of the destination claim *)

Section quantities.
Context `{QuantityText}.

Definition validateDestinationPVC (pvc expected : option PVC) (expectedUID : string) : option err :=
  match pvc, expected with
  | Some pvc, Some expected =>
      if ((pvc_Namespace pvc <>s pvc_Namespace expected) || (pvc_Name pvc <>s pvc_Name expected)
          || (pvc_UID pvc =s ""))%bool then
        Some (NewError ErrorConflict "reserve volume"
          "destination PVC identity is incomplete or differs from the planned manifest")
      else
      let claim := sprint ["destination PVC "; pvc_Namespace pvc; "/"; pvc_Name pvc] in
      let refuse (what : string) := Some (NewError ErrorConflict "reserve volume" (claim +:+ what)) in
      let sessionID := mget (pvc_Labels expected) SessionKey in
      if match pvc_DeletionTimestamp pvc with Some _ => true | None => false end then refuse " is terminating"
      else if ((mget (pvc_Labels pvc) ManagedByLabel <>s ManagedByValue)
               || (mget (pvc_Labels pvc) SessionKey <>s sessionID)
               || (mget (pvc_Labels pvc) ResourceRoleLabel <>s ResourceRoleDestination)
               || (mget (pvc_Annotations pvc) SessionKey <>s sessionID)
               || (mget (pvc_Annotations pvc) SourcePVCUIDAnnotation
                     <>s mget (pvc_Annotations expected) SourcePVCUIDAnnotation)
               || (mget (pvc_Annotations pvc) SourcePVAnnotation
                     <>s mget (pvc_Annotations expected) SourcePVAnnotation))%bool then
        refuse " belongs to another operation"
      else if ((expectedUID <>s "") && (pvc_UID pvc <>s expectedUID))%bool then refuse " UID changed"
      else if match spec_StorageClassName (pvc_Spec pvc), spec_StorageClassName (pvc_Spec expected) with
              | Some a, Some b => a <>s b
              | _, _ => true
              end then refuse " StorageClass changed"
      else if effectiveVolumeMode pvc <>s effectiveVolumeMode expected then refuse " VolumeMode changed"
      else if negb (accessModesEqual (spec_AccessModes (pvc_Spec pvc)) (spec_AccessModes (pvc_Spec expected)))
      then refuse " AccessModes changed"
      else if Z.ltb (storage_request pvc) (storage_request expected) then
        refuse (sprint [" capacity "; quantity_string (storage_request pvc); " is below ";
                        quantity_string (storage_request expected)])
      else None
  | _, _ =>
      Some (NewError ErrorConflict "reserve volume"
        "destination PVC identity is incomplete or differs from the planned manifest")
  end.

(** ** Identity of the source *)

Definition verifySourceIdentity (sessionID : string) (sourcePVC sourcePV : ObjectReference)
    (sourceCapacity : string) : kube (option err) :=
  c ← call (GetPVC (Namespace sourcePVC) (Name sourcePVC));
  match c with
  | inr e => fail (WrapError ErrorKubernetes "reserve volume" "read source PVC" e)
  | inl pvc =>
      if ((pvc_UID pvc <>s UID sourcePVC) || (pvc_VolumeName pvc <>s Name sourcePV)
          || negb (bool_decide (pvc_Phase pvc = ClaimBound)))%bool then
        fail (NewError ErrorConflict "reserve volume"
          (sprint ["source PVC "; pvc_Namespace pvc; "/"; pvc_Name pvc; " identity or binding changed"])) else
      match List.find (fun owner => foreign_owner owner sessionID)
              [mget (pvc_Annotations pvc) SessionKey; mget (pvc_Labels pvc) SessionKey] with
      | Some owner =>
          fail (NewError ErrorConflict "reserve volume"
            (sprint ["source PVC "; pvc_Namespace pvc; "/"; pvc_Name pvc; " belongs to session "; owner]))
      | None =>
          v ← call (GetPV (Name sourcePV));
          match v with
          | inr e => fail (WrapError ErrorKubernetes "reserve volume" "read source PV" e)
          | inl pv =>
              if ((pv_UID pv <>s UID sourcePV) || negb (claims_back pv pvc))%bool then
                fail (NewError ErrorConflict "reserve volume"
                  (sprint ["source PV "; pv_Name pv; " identity or claimRef changed"])) else
              match ValidateBoundVolumeCapacity (Some pvc) (Some pv) None with
              | Some e => fail (NewError ErrorConflict "reserve volume" (error_text e))
              | None =>
                  let changed :=
                    match ParseQuantity sourceCapacity, pv_Capacity pv with
                    | inl planned, Some actual => negb (Z.eqb actual planned)
                    | _, _ => true
                    end in
                  if ((sourceCapacity <>s "") && changed)%bool then
                    fail (NewError ErrorConflict "reserve volume"
                      (sprint ["source PV "; pv_Name pv;
                               " capacity changed after planning; generate a new plan"])) else
                  Ret (validateReservationPVOwnership pv sessionID ResourceRoleSource false)
              end
          end
      end
  end.

(** The manifest with the marks of the session and of the source. *)
Definition reservation_claim (desired : PVC) (sessionID : string) (sourcePVC sourcePV : ObjectReference) : PVC :=
  pvc_set_metadata desired
    (<[ResourceRoleLabel := ResourceRoleDestination]>
       (<[SessionKey := sessionID]> (<[ManagedByLabel := ManagedByValue]> (pvc_Labels desired))))
    (<[SourcePVAnnotation := Name sourcePV]>
       (<[SourcePVCUIDAnnotation := UID sourcePVC]>
          (<[SessionKey := sessionID]> (pvc_Annotations desired))))
    (pvc_OwnerReferences desired).

Definition prepareReservation (sessionID : string) (sourcePVC sourcePV : ObjectReference)
    (sourceCapacity : string) (desired : option PVC) : kube (result PVC) :=
  if sessionID =s "" then
    fail (NewError ErrorValidation "reserve volume" "session ID is required") else
  match desired with
  | None => fail (NewError ErrorValidation "reserve volume" "destination PVC manifest is required")
  | Some desired =>
      if ((Namespace sourcePVC =s "") || (Name sourcePVC =s "") || (UID sourcePVC =s "")
          || (Name sourcePV =s "") || (UID sourcePV =s "") || (pvc_Namespace desired =s "")
          || (pvc_Name desired =s ""))%bool then
        fail (NewError ErrorValidation "reserve volume"
          "source PVC, source PV, and destination PVC identities are required") else
      check: verifySourceIdentity sessionID sourcePVC sourcePV sourceCapacity;
      if negb (HasWritableAccessMode (spec_AccessModes (pvc_Spec desired))) then
        fail (NewError ErrorPrecondition "reserve volume"
          (sprint ["PVC "; Namespace sourcePVC; "/"; Name sourcePVC; " has no writable access mode"])) else
      if Z.leb (storage_request desired) 0 then
        fail (NewError ErrorValidation "reserve volume" "capacity must be positive") else
      Ret (inl (reservation_claim desired sessionID sourcePVC sourcePV))
  end.

Definition validateDestinationPlacement (destinationPVC : ObjectReference)
    (storageClass targetNode : string) (required : Quantity) : kube (option err) :=
  c ← call (GetPVC (Namespace destinationPVC) (Name destinationPVC));
  match c with
  | inr e =>
      if negb (IsNotFound e) then
        fail (WrapError ErrorKubernetes "reserve volume"
          (sprint ["read destination PVC "; Namespace destinationPVC; "/"; Name destinationPVC;
                   " before placement validation"]) e)
      else ValidateStorageClassPlacement true storageClass targetNode
  | inl existing =>
      if (bool_decide (pvc_Phase existing = ClaimBound) && (pvc_VolumeName existing <>s ""))%bool then
        v ← call (GetPV (pvc_VolumeName existing));
        match v with
        | inr e =>
            fail (WrapError ErrorKubernetes "reserve volume"
              "read existing destination PV before capacity validation" e)
        | inl pv =>
            match ValidateBoundVolumeCapacity (Some existing) (Some pv) (Some required) with
            | Some e => fail (NewError ErrorPrecondition "reserve volume" (error_text e))
            | None => Ret None
            end
        end
      else ValidateStorageClassPlacement true storageClass targetNode
  end.

Definition verifyDestinationIdentity (pvc : PVC) (sessionID : string)
    (destinationPVC destinationPV : ObjectReference) (requireOwned : bool) : kube (option err) :=
  let claim := sprint ["destination PVC "; pvc_Namespace pvc; "/"; pvc_Name pvc] in
  if ((UID destinationPVC <>s "") && (pvc_UID pvc <>s UID destinationPVC))%bool then
    fail (NewError ErrorConflict "reserve volume" (claim +:+ " UID changed")) else
  if (negb (bool_decide (pvc_Phase pvc = ClaimBound)) || (pvc_VolumeName pvc =s ""))%bool then
    fail (NewError ErrorConflict "reserve volume" (claim +:+ " binding changed")) else
  if ((Name destinationPV <>s "")
      && ((UID destinationPV =s "") || (pvc_VolumeName pvc <>s Name destinationPV)))%bool then
    fail (NewError ErrorConflict "reserve volume" (claim +:+ " binding changed")) else
  v ← call (GetPV (pvc_VolumeName pvc));
  match v with
  | inr e =>
      fail (WrapError ErrorKubernetes "reserve volume" ("read destination PV " +:+ pvc_VolumeName pvc) e)
  | inl pv =>
      if ((UID destinationPV <>s "") && (pv_UID pv <>s UID destinationPV))%bool then
        fail (NewError ErrorConflict "reserve volume"
          (sprint ["destination PV "; pv_Name pv; " identity changed"])) else
      match pv_DeletionTimestamp pv with
      | Some t =>
          fail (NewError ErrorPrecondition "reserve volume"
            (sprint ["destination PV "; pv_Name pv; " is terminating (deletion requested at ";
                     RFC3339 t; "); the transfer cannot proceed"]))
      | None =>
          check: Ret (validateReservationPVOwnership pv sessionID ResourceRoleDestination requireOwned);
          if negb (claims_back pv pvc) then
            fail (NewError ErrorConflict "reserve volume"
              (sprint ["destination PV "; pv_Name pv; " identity or claimRef changed"]))
          else Ret None
      end
  end.

(** ** Dry run *)

Definition reserveVolumeDryRun (sessionID : string) (destinationPVC destinationPV : ObjectReference)
    (reserved : bool) (pvc : PVC) : kube (option err) :=
  r ← call (CreatePVC pvc true);
  match r with
  | inl _ => Ret (validateMissingReservationDestination destinationPVC destinationPV reserved)
  | inr e =>
      if negb (IsAlreadyExists e) then
        fail (WrapError ErrorPrecondition "reserve volume dry-run"
          (sprint ["PVC "; pvc_Namespace pvc; "/"; pvc_Name pvc; " was rejected"]) e) else
      g ← call (GetPVC (pvc_Namespace pvc) (pvc_Name pvc));
      match g with
      | inr e =>
          fail (WrapError ErrorKubernetes "reserve volume dry-run"
            (sprint ["read existing PVC "; pvc_Namespace pvc; "/"; pvc_Name pvc]) e)
      | inl existing =>
          check: Ret (validateDestinationPVC (Some existing) (Some pvc) (UID destinationPVC));
          if (reserved && ((UID destinationPVC =s "") || (Name destinationPV =s "")
                           || (UID destinationPV =s "")))%bool then
            fail (NewError ErrorPrecondition "reserve volume"
              (sprint ["recorded destination identity for PVC "; pvc_Namespace existing; "/";
                       pvc_Name existing; " is incomplete"])) else
          if (reserved || (Name destinationPV <>s "") || bool_decide (pvc_Phase existing = ClaimBound))%bool then
            verifyDestinationIdentity existing sessionID destinationPVC destinationPV reserved
          else Ret None
      end
  end.

(** The destination references a checkpoint starts from. *)
Definition checkpoint_claim (pvc : PVC) (checkpoint : ReservationStatus) : ObjectReference :=
  default (PVCReference (Some pvc)) (rs_DestinationPVC checkpoint).
Definition checkpoint_volume (checkpoint : ReservationStatus) : ObjectReference :=
  default empty_reference (rs_DestinationPV checkpoint).

Definition ValidateVolumeReservation (request : ReservationRequest) (sourcePVC sourcePV : ObjectReference)
    (sourceCapacity : string) (desired : option PVC) (checkpoint : ReservationStatus) : kube (option err) :=
  try: pvc ← prepareReservation (SessionID request) sourcePVC sourcePV sourceCapacity desired;
  check: Ret (validateReservationCheckpoint (Name sourcePVC) pvc checkpoint);
  reserveVolumeDryRun (SessionID request) (checkpoint_claim pvc checkpoint) (checkpoint_volume checkpoint)
    (rs_Reserved checkpoint) pvc.
End quantities.

(** ** The reservation Pod *)

Definition zero_requests : list (string * Quantity) :=
  [("cpu", 0%Z); ("memory", 0%Z); ("ephemeral-storage", 0%Z)].
Definition zero_limits : list (string * Quantity) := [("cpu", 0%Z); ("memory", 0%Z)].

Definition reservation_pod (sessionID podName : string) (destinationPVC : ObjectReference)
    (hostname image : string) (tolerations : list Toleration) : Pod :=
  {| pod_Namespace := Namespace destinationPVC; pod_Name := podName; pod_UID := ""; pod_ResourceVersion := "";
     pod_Labels := <[ManagedByLabel := ManagedByValue]> (<[SessionKey := sessionID]>
                     {[ResourceRoleLabel := ResourceRoleReservationConsumer]});
     pod_OwnerReferences := []; pod_NodeName := ""; pod_NodeSelector := {[LabelHostname := hostname]};
     pod_Tolerations := tolerations; pod_RestartPolicy := "Never";
     pod_AutomountServiceAccountToken := Some false; pod_TerminationGracePeriodSeconds := Some 1%Z;
     pod_Containers :=
       [{| container_Name := "verify-volume"; container_Image := image;
           container_ImagePullPolicy := "IfNotPresent"; container_RunAsUser := Some 0%Z;
           container_RunAsGroup := Some 0%Z;
           container_Command := ["sh"; "-c"; "test -d /data && exec sleep 3600"];
           container_Requests := zero_requests; container_Limits := zero_limits;
           container_VolumeMounts := [("data", "/data")] |}];
     pod_Volumes := [Some (Name destinationPVC)]; pod_Phase := ""; pod_Conditions := [] |}.

Definition cleanupReservationPod (r : Reserver) (sessionID sourcePVCName : string)
    (destinationPVC : ObjectReference) : kube (option err) :=
  let namespace := Namespace destinationPVC in
  let name := toolPodName sessionID sourcePVCName in
  g ← call (GetPod namespace name);
  match g with
  | inr e =>
      if IsNotFound e then Ret None else
      fail (WrapError ErrorKubernetes "clean up reservation Pod"
        (sprint ["read tool Pod "; namespace; "/"; name]) e)
  | inl pod =>
      check: Ret (validateReservationPod (Some pod) sessionID (Name destinationPVC));
      d ← call (DeletePod namespace name (pod_UID pod) None);
      check: Ret match d with
                 | Some e =>
                     if IsNotFound e then None
                     else if IsConflict e then
                       Some (WrapError ErrorConflict "clean up reservation Pod"
                         (sprint ["tool Pod "; namespace; "/"; name; " changed while deleting"]) e)
                     else
                       Some (WrapError ErrorKubernetes "clean up reservation Pod"
                         (sprint ["delete tool Pod "; namespace; "/"; name]) e)
                 | None => None
                 end;
      check: fence;
      r_waitFor r (sprint ["reservation Pod "; namespace; "/"; name; " deletion"])
        (c ← call (GetPod namespace name);
         Ret match c with
             | inr e => if IsNotFound e then ready true else inr e
             | inl current =>
                 if pod_UID current <>s pod_UID pod then
                   inr (NewError ErrorConflict "clean up reservation Pod"
                     (sprint ["tool Pod "; namespace; "/"; name; " name was reused"]))
                 else ready false
             end)
  end.

(** Reading the Pod, or creating it; a lost race re-reads it. *)
Definition load_or_create_pod (pod : Pod) : kube (result (option Pod)) :=
  g ← call (GetPod (pod_Namespace pod) (pod_Name pod));
  let report (e : err) : result (option Pod) :=
    inr (WrapError ErrorKubernetes "provision target PVC"
      (sprint ["create tool Pod "; pod_Namespace pod; "/"; pod_Name pod]) e) in
  match g with
  | inl existing => Ret (inl (Some existing))
  | inr e =>
      if negb (IsNotFound e) then Ret (report e) else
      check: fence;
      c ← call (CreatePod pod);
      match c with
      | inl created => Ret (inl created)
      | inr e =>
          if negb (IsAlreadyExists e) then Ret (report e) else
          g ← call (GetPod (pod_Namespace pod) (pod_Name pod));
          Ret match g with inl existing => inl (Some existing) | inr e => report e end
      end
  end.

Section provision.
Context `{ImageGrammar}.

Definition provisionOnTarget (r : Reserver) (request : ReservationRequest) (sourcePVCName : string)
    (destinationPVC : ObjectReference) : kube (option err) :=
  match NormalizeToolImage (toolImage r (ToolImage request)) with
  | inr e => fail (WrapError ErrorValidation "provision target PVC" "validate tool image" e)
  | inl image =>
      if TargetNode request =s "" then
        fail (NewError ErrorPrecondition "provision target PVC" "target node is required") else
      n ← call (GetNode (TargetNode request));
      match n with
      | inr e => fail (WrapError ErrorKubernetes "provision target PVC" "read target node" e)
      | inl node =>
          let hostname := mget (node_Labels node) LabelHostname in
          if hostname =s "" then
            fail (NewError ErrorPrecondition "provision target PVC"
              (sprint ["node "; node_Name node; " lacks "; LabelHostname])) else
          let podName := toolPodName (SessionID request) sourcePVCName in
          let pod := reservation_pod (SessionID request) podName destinationPVC hostname image
                       (nodeTolerations node) in
          try: existing ← load_or_create_pod pod;
          check: fence;
          check: Ret (validateReservationPod existing (SessionID request) (Name destinationPVC));
          check: r_waitFor r
            (sprint ["reservation Pod "; pod_Namespace pod; "/"; pod_Name pod; " readiness"])
            (g ← call (GetPod (pod_Namespace pod) (pod_Name pod));
             Ret match g with
                 | inr e => inr e
                 | inl current =>
                     if pod_UID current <>s default "" (pod_UID <$> existing) then
                       inr (NewError ErrorConflict "provision target PVC"
                         (sprint ["tool Pod "; pod_Namespace pod; "/"; pod_Name pod;
                                  " was replaced while waiting for readiness"]))
                     else
                       match validateReservationPod (Some current) (SessionID request) (Name destinationPVC) with
                       | Some e => inr e
                       | None =>
                           if pod_Phase current =s "Failed" then
                             inr (NewError ErrorPrecondition "provision target PVC"
                               (sprint ["tool Pod "; pod_Namespace pod; "/"; pod_Name pod; " failed"]))
                           else ready (PodReady (Some current))
                       end
                 end);
          cleanupReservationPod r (SessionID request) sourcePVCName destinationPVC
      end
  end.
End provision.

(** ** Live reservation *)

(** What the reservation writes through its pointers: the destination claim and
    volume, the recorded policy and the Reserved flag. *)
Record Destination := {
  dest_PVC : ObjectReference;
  dest_PV : ObjectReference;
  dest_Policy : string;
  dest_Reserved : bool
}.

Definition dest_step := (Destination * option err)%type.

Definition with_identity (ref : ObjectReference) (pvc : PVC) : ObjectReference :=
  {| APIVersion := APIVersion ref; Kind := Kind ref; Namespace := Namespace ref; Name := Name ref;
     UID := pvc_UID pvc; ResourceVersion := pvc_ResourceVersion pvc |}.

Definition with_claim (d : Destination) (pvc : PVC) : Destination :=
  {| dest_PVC := with_identity (dest_PVC d) pvc; dest_PV := dest_PV d; dest_Policy := dest_Policy d;
     dest_Reserved := dest_Reserved d |}.

(** [if err := p; err != nil { return err }] where [d] is what the pointers hold. *)
Definition check_dest (d : Destination) (p : kube (option err)) (k : kube dest_step) : kube dest_step :=
  p ≫= fun e => match e with Some x => Ret (d, Some x) | None => k end.
Notation "'check{' d } p ; k" := (check_dest d p k)
  (at level 100, d at level 99, p at level 99, k at level 200, format "check{ d }  p ; '//' k").

Definition loadOrCreateReservationPVC (pvc : PVC) (destinationPVC destinationPV : ObjectReference)
    (reserved : bool) : kube (result (option PVC)) :=
  let report (e : err) : result (option PVC) :=
    inr (WrapError ErrorKubernetes "reserve volume"
      (sprint ["create PVC "; pvc_Namespace pvc; "/"; pvc_Name pvc]) e) in
  g ← call (GetPVC (pvc_Namespace pvc) (pvc_Name pvc));
  match g with
  | inl existing => Ret (inl (Some existing))
  | inr e =>
      if negb (IsNotFound e) then Ret (report e) else
      check: Ret (validateMissingReservationDestination destinationPVC destinationPV reserved);
      check: fence;
      c ← call (CreatePVC pvc false);
      Ret match c with inl created => inl created | inr e => report e end
  end.

Definition validateDestinationPVNode (pv : PV) (targetNode : string) : kube (option err) :=
  if targetNode =s "" then Ret None else
  n ← call (GetNode targetNode);
  match n with
  | inr e => fail (WrapError ErrorKubernetes "reserve volume" "read target node for PV topology" e)
  | inl node =>
      if negb (PVSupportsNode pv node) then
        fail (NewError ErrorPrecondition "reserve volume"
          (sprint ["destination PV "; pv_Name pv; " topology excludes target node "; node_Name node]))
      else Ret None
  end.

Section reserve.
Context `{ConflictRetry} `{QuantityText} `{ImageGrammar}.

Definition retainPV (name uid sessionID role : string) : kube (option err) :=
  if ((name =s "") || (uid =s "") || (sessionID =s "") || (role =s ""))%bool then
    fail (NewError ErrorValidation "retain PV" "PV name, UID, session ID, and role are required") else
  let ref := {| APIVersion := ""; Kind := ""; Namespace := ""; Name := name; UID := uid;
                ResourceVersion := "" |} in
  e ← RetryOnConflict (retain_once ref sessionID role);
  report_update "retain PV" ("update PV " +:+ name) e.

Definition finalizeLiveReservation (request : ReservationRequest) (pvc bound : PVC) (d : Destination)
    : kube dest_step :=
  let d := with_claim d bound in
  let selectedNode := mget (pvc_Annotations bound) pvcSelectedNodeAnnotation in
  if ((selectedNode <>s "") && (TargetNode request <>s "") && (selectedNode <>s TargetNode request))%bool then
    Ret (d, Some (NewError ErrorPrecondition "reserve volume"
      (sprint ["PVC selected node "; selectedNode; ", expected "; TargetNode request]))) else
  v ← call (GetPV (pvc_VolumeName bound));
  match v with
  | inr e => Ret (d, Some (WrapError ErrorKubernetes "reserve volume" "read destination PV" e))
  | inl pv =>
      if ((Name (dest_PV d) <>s "")
          && ((pv_Name pv <>s Name (dest_PV d)) || (UID (dest_PV d) =s "") || (pv_UID pv <>s UID (dest_PV d))))%bool
      then Ret (d, Some (NewError ErrorConflict "reserve volume"
             (sprint ["destination PV "; Name (dest_PV d); " identity changed"]))) else
      if negb (claims_back pv bound) then
        Ret (d, Some (NewError ErrorConflict "reserve volume"
          (sprint ["PV "; pv_Name pv; " claimRef does not match destination PVC UID"]))) else
      check{ d } validateDestinationPVNode pv (TargetNode request);
      check{ d } Ret (match ValidateBoundVolumeCapacity (Some bound) (Some pv) (Some (storage_request pvc)) with
                      | Some e => Some (NewError ErrorPrecondition "reserve volume" (error_text e))
                      | None => None
                      end);
      check{ d } retainPV (pv_Name pv) (pv_UID pv) (SessionID request) ResourceRoleDestination;
      c ← call (GetPV (pv_Name pv));
      match c with
      | inr e => Ret (d, Some (WrapError ErrorKubernetes "reserve volume" "read retained destination PV" e))
      | inl current =>
          check{ d } Ret (validateRetainedDestinationPV current (pv_UID pv) bound (SessionID request));
          let recorded := mget (pv_Annotations current) OriginalPolicyAnnotation in
          Ret ({| dest_PVC := dest_PVC d; dest_PV := PVReference (Some current);
                  dest_Policy := if recorded =s "" then policy_string (pv_ReclaimPolicy pv) else recorded;
                  dest_Reserved := true |}, None)
      end
  end.

Definition reserveVolumeLive (r : Reserver) (request : ReservationRequest) (sourcePVCName : string)
    (pvc : PVC) (d : Destination) : kube dest_step :=
  l ← loadOrCreateReservationPVC pvc (dest_PVC d) (dest_PV d) (dest_Reserved d);
  match l with
  | inr e => Ret (d, Some e)
  | inl existing =>
      check{ d } fence;
      check{ d } Ret (validateDestinationPVC existing (Some pvc) (UID (dest_PVC d)));
      match existing with
      | None => Ret (d, None)    (* rejected by the validation above *)
      | Some existing =>
          let d := with_claim d existing in
          check{ d } (if negb (bool_decide (pvc_Phase existing = ClaimBound)) then
                        provisionOnTarget r request sourcePVCName (dest_PVC d)
                      else cleanupReservationPod r (SessionID request) sourcePVCName (dest_PVC d));
          b ← call (GetPVC (pvc_Namespace pvc) (pvc_Name pvc));
          match b with
          | inr e => Ret (d, Some (WrapError ErrorKubernetes "reserve volume" "read bound destination PVC" e))
          | inl bound =>
              check{ d } Ret (validateDestinationPVC (Some bound) (Some pvc) (UID (dest_PVC d)));
              if (negb (bool_decide (pvc_Phase bound = ClaimBound)) || (pvc_VolumeName bound =s ""))%bool then
                Ret (d, Some (NewError ErrorPrecondition "reserve volume"
                  (sprint ["PVC "; pvc_Namespace bound; "/"; pvc_Name bound; " did not bind"]))) else
              finalizeLiveReservation request pvc bound d
          end
      end
  end.

(** The checkpoint after a live reservation, failed or not. *)
Definition record_destination (checkpoint : ReservationStatus) (sourcePVCName : string) (d : Destination)
    : ReservationStatus :=
  {| rs_SourcePVCName := sourcePVCName;
     rs_DestinationPVC := if UID (dest_PVC d) <>s "" then Some (dest_PVC d) else rs_DestinationPVC checkpoint;
     rs_DestinationPV := if UID (dest_PV d) <>s "" then Some (dest_PV d) else rs_DestinationPV checkpoint;
     rs_DestinationPolicy := dest_Policy d; rs_Reserved := dest_Reserved d |}.

(** A nil checkpoint is refused; otherwise the checkpoint as the call leaves it. *)
Definition ReserveVolume (r : Reserver) (request : ReservationRequest) (sourcePVC sourcePV : ObjectReference)
    (sourceCapacity : string) (desired : option PVC) (checkpoint : option ReservationStatus)
    : kube (option ReservationStatus * option err) :=
  match checkpoint with
  | None => Ret (None, Some (NewError ErrorValidation "reserve volume" "reservation status is required"))
  | Some checkpoint =>
      let give_back (e : err) : kube (option ReservationStatus * option err) := Ret (Some checkpoint, Some e) in
      p ← prepareReservation (SessionID request) sourcePVC sourcePV sourceCapacity desired;
      match p with
      | inr e => give_back e
      | inl pvc =>
          e ← (check: Ret (validateReservationCheckpoint (Name sourcePVC) pvc checkpoint);
               check: validateDestinationPlacement (PVCReference (Some pvc))
                        (default "" (spec_StorageClassName (pvc_Spec pvc))) (TargetNode request)
                        (storage_request pvc);
               check: AcquirePVC sourcePVC (SessionID request);
               retainPV (Name sourcePV) (UID sourcePV) (SessionID request) ResourceRoleSource);
          match e with
          | Some e => give_back e
          | None =>
              d ← reserveVolumeLive r request (Name sourcePVC) pvc
                    {| dest_PVC := checkpoint_claim pvc checkpoint; dest_PV := checkpoint_volume checkpoint;
                       dest_Policy := rs_DestinationPolicy checkpoint; dest_Reserved := rs_Reserved checkpoint |};
              Ret (Some (record_destination checkpoint (Name sourcePVC) d.1), d.2)
          end
      end
  end.
End reserve.
