(* ===== verification/CopyEngine.v ===== *)
(** * The copy engine

    internal/copyengine: the request of one copy attempt, its stable operation ID,
    the translation to a pv-migrate run ([PVMigrate.Copy]), the classification of its
    failure and the removal of its releases ([PVMigrate.Cleanup]); the chart values of
    kube/tool_image.go, tool_network_policy.go, resources.go and tool_scheduling.go
    that the requests carry.  pv-migrate and Helm are libraries: running a migration
    and uninstalling releases are requests ([ERun], [EUninstall]).  The answer to [ERun]
    has the error and whether the log handler saw ENOSPC, which also cancels the run.
    Loggers and writers are left out. *)

From S2P Require Import Prelude Utf8 GoErrors Lifecycle GoFormat Sha256 KubeTypes Prog Api ResourceState Quota Reserver TransferPath.
From Stdlib Require Import Ascii.

(** ** Requests (engine.go) *)

Definition ModeWarm : string := "warm".
Definition ModeFinal : string := "final".

Record AttemptIdentity := {
  ai_SessionID : string;
  ai_Source : ObjectReference;
  ai_Mode : string;
  ai_Attempt : Z
}.

Record CopySource := {
  cs_KubeconfigPath : string;
  cs_Context : string;
  cs_Path : string;
  cs_MountReadWrite : bool
}.

Record CopyDestination := {
  cd_Reference : ObjectReference;
  cd_KubeconfigPath : string;
  cd_Context : string;
  cd_Path : string
}.

Record CopyPolicy := {
  cp_Strategies : list string;
  cp_DeleteExtraneousFiles : bool;
  cp_VerifyChecksum : bool;
  cp_IgnoreSizes : bool;
  cp_Compress : bool;
  cp_BandwidthLimit : string;
  cp_RsyncMaxRetries : Z;
  cp_TolerateLiveSourceChurn : bool;
  cp_ToolNetworkPolicy : string
}.

Record CopyRuntime := {
  cr_ToolImage : string;
  cr_HelmTimeout : Z;
  cr_HelmValues : list string;
  cr_HelmStringValues : list string
}.

Record CopyRequest := {
  cq_Identity : AttemptIdentity;             (* embedded *)
  cq_Source : CopySource;
  cq_Destination : CopyDestination;
  cq_Policy : CopyPolicy;
  cq_Runtime : CopyRuntime
}.

Record CleanupRequest := {
  cl_Identity : AttemptIdentity;             (* embedded *)
  cl_DestinationNamespace : string;
  cl_KubeconfigPath : string;
  cl_Context : string;
  cl_DestinationKubeconfigPath : string;
  cl_DestinationContext : string;
  cl_Strategies : list string
}.

Record CopyProgress := {
  progress_Mode : string;
  progress_Attempt : Z;
  progress_State : string;
  progress_Message : string
}.

(** ** Operation ID *)

Definition OperationID (request : AttemptIdentity) : string :=
  let value := sprint [ai_SessionID request; "/"; Namespace (ai_Source request); "/"; Name (ai_Source request); "/";
                       ai_Mode request; "/"; show_Z (ai_Attempt request)] in
  "pm-" +:+ of_bytes (take 16 (sha256_hex value)).

(** ** Strategies (strategies.go, domain/workflow_registry.go) *)

Definition StrategyAuto : string := "auto".
Definition StrategyMount : string := "mount".
Definition StrategyClusterIP : string := "clusterip".
Definition StrategyLoadBalancer : string := "loadbalancer".
Definition StrategyNodePort : string := "nodeport".
Definition StrategyLocal : string := "local".

Definition is_auto (strategies : list string) : bool :=
  match strategies with [] => true | [strategy] => strategy =s StrategyAuto | _ => false end.

Definition ResolveStrategies (sourceNamespace destinationNamespace : string) (strategies : list string) : list string :=
  if is_auto strategies then
    if sourceNamespace =s destinationNamespace then [StrategyMount; StrategyClusterIP]
    else [StrategyClusterIP; StrategyLocal]
  else strategies.

(** The strategy constants of the pv-migrate library. *)
Class PVMigrateLibrary := pvmigrate_strategies : list string.

Definition strategyValue `{PVMigrateLibrary} (value : string) : result string :=
  if contains pvmigrate_strategies value then inl value
  else inr (NewError ErrorValidation "copy strategy" (sprint ["unsupported strategy "; quoted value])).

Fixpoint convert_strategies `{PVMigrateLibrary} (strategies : list string) : result (list string) :=
  match strategies with
  | [] => inl []
  | strategy :: rest =>
      match strategyValue strategy with
      | inr e => inr e
      | inl converted =>
          match convert_strategies rest with inr e => inr e | inl more => inl (converted :: more) end
      end
  end.

Definition ValidateStrategies `{PVMigrateLibrary} (strategies : list string) : option err :=
  match convert_strategies strategies with inl _ => None | inr e => Some e end.

(** ** Bandwidth limit (bandwidth.go): ^[0-9]+(\.[0-9]+)?[kKmMgG]?$ *)

Definition is_digit (c : ascii) : bool := byte_in 48 57 c.
Definition is_unit (c : ascii) : bool := contains (bytes "kKmMgG") c.

Definition unit_suffix (s : list ascii) : bool :=
  match s with [] => true | [c] => is_unit c | _ => false end.

Definition bandwidth_matches (s : list ascii) : bool :=
  match s with
  | c :: rest =>
      (is_digit c &&
       match drop_while is_digit rest with
       | d :: d1 :: rest' =>
           if Ascii.eqb d "."%char then (is_digit d1 && unit_suffix (drop_while is_digit rest'))%bool else false
       | tail => unit_suffix tail
       end)%bool
  | [] => false
  end.

Definition ValidateBandwidthLimit (value : string) : option err :=
  if value =s "" then Some (NewError ErrorValidation "bandwidth limit" "value is required")
  else if negb (bandwidth_matches (bytes value)) then
    Some (NewError ErrorValidation "bandwidth limit"
      (sprint [quoted value; " must be a rate in KiB/s or a fractional value with a K/M/G suffix, for example 10m"]))
  else None.

(** ** Chart values *)

Definition tool_components : list string := ["rsync"; "sshd"; "rclone"].

(** tool_image.go *)
Definition ToolImageHelmValues `{ImageGrammar} (image : string) : result (list string) :=
  match NormalizeToolImage image with
  | inr e => inr e
  | inl normalized =>
      match ParseNormalizedNamed normalized with
      | inr e => inr (WrapError ErrorInternal "tool image" "parse normalized image" e)
      | inl (name, tag) =>
          let tag := default "" tag in
          if tag =s "" then
            inr (NewError ErrorInternal "tool image" "normalized image does not contain a tag")
          else
            inl (concat (map (fun component => [component +:+ ".image.repository=" +:+ name;
                                                component +:+ ".image.tag=" +:+ tag]) tool_components))
      end
  end.

Definition ToolSecurityContextHelmValues : list string :=
  concat (map (fun component => [component +:+ ".securityContext.runAsUser=0";
                                 component +:+ ".securityContext.runAsGroup=0"]) tool_components).

(** resources.go *)
Definition ZeroResourceHelmValues : list string :=
  concat (map (fun component =>
    map (fun resourceName => component +:+ ".resources." +:+ resourceName +:+ "=0")
      ["requests.cpu"; "requests.memory"; "requests.ephemeral-storage"; "limits.cpu"; "limits.memory"])
    tool_components).

(** tool_network_policy.go *)
Definition ToolNetworkPolicyAuto : string := "auto".
Definition ToolNetworkPolicyOn : string := "on".
Definition ToolNetworkPolicyOff : string := "off".

Definition NormalizeToolNetworkPolicy (value : string) : result string :=
  let trimmed := TrimSpace value in
  if ((trimmed =s "") || (trimmed =s ToolNetworkPolicyAuto))%bool then inl ToolNetworkPolicyAuto
  else if ((trimmed =s ToolNetworkPolicyOn) || (trimmed =s ToolNetworkPolicyOff))%bool then inl trimmed
  else inr (NewError ErrorValidation "tool network policy"
              (sprint ["unsupported value "; value; "; use auto, on, or off"])).

Definition ResolveToolNetworkPolicy (spec controller : string) : string :=
  if spec <>s "" then spec else controller.

Definition boolString (value : bool) : string := if value then "true" else "false".

Definition ToolNetworkPolicyHelmValues (value : string) : list string :=
  match NormalizeToolNetworkPolicy value with
  | inr _ => []
  | inl mode =>
      if mode =s ToolNetworkPolicyAuto then []
      else map (fun component => component +:+ ".networkPolicy.enabled=" +:+ boolString (mode =s ToolNetworkPolicyOn))
             tool_components
  end.

(** tool_scheduling.go *)
Record HelmOverrides := { ho_Values : list string; ho_StringValues : list string }.

Definition TransferServiceAccountName : string := "pvc-migrate-transfer".

Definition TransferServiceAccountHelmValues : HelmOverrides := {|
  ho_Values := ["sshd.serviceAccount.create=false"; "rsync.serviceAccount.create=false"];
  ho_StringValues := ["sshd.serviceAccount.name=" +:+ TransferServiceAccountName;
                      "rsync.serviceAccount.name=" +:+ TransferServiceAccountName] |}.

(** ** Failures *)

(** [strings.ToLower] on ASCII letters *)
Definition lower_ascii (c : ascii) : ascii :=
  let n := nat_of_ascii c in
  if (Nat.leb 65 n && Nat.leb n 90)%bool then ascii_of_nat (n + 32) else c.
Fixpoint strings_ToLower (s : string) : string :=
  match s with "" => "" | String c rest => String (lower_ascii c) (strings_ToLower rest) end.

Definition containsDestinationNoSpace (value : string) : bool :=
  let lower := strings_ToLower value in
  (strings_Contains lower "no space left on device" || strings_Contains lower "enospc")%bool.

(** The chain of [errors.Unwrap], which does not enter a join. *)
Fixpoint isRsyncPartialTransferError (e : err) : bool :=
  (strings_Contains (error_text e) "the data mover exited with code 23"
   || match e with
      | EDomain _ _ _ (Some c) | EWrap _ c | EPodBlocker _ c | ENoSpace c => isRsyncPartialTransferError c
      | _ => false
      end)%bool.

Definition ctx_is (c : CtxError) (e : option err) : bool :=
  match e with Some x => is_context c x | None => false end.

Definition classifyRunError (contextErr : option err) (operationID : string) (e : err) (destinationNoSpace : bool)
    : err :=
  let message := sprint ["pv-migrate operation "; operationID; " failed"] in
  if destinationNoSpace then
    WrapError ErrorCopy "copy PVC" (message +:+ ": destination volume ran out of space (ENOSPC)") (ENoSpace e)
  else if (is_context DeadlineExceeded e || ctx_is DeadlineExceeded contextErr)%bool then
    WrapError ErrorTimeout "copy PVC" (message +:+ ": deadline exceeded") e
  else if (is_context Canceled e || ctx_is Canceled contextErr)%bool then
    WrapError ErrorTimeout "copy PVC" (message +:+ ": canceled") e
  else WrapError ErrorCopy "copy PVC" (message +:+ ": " +:+ error_text e) e.

(** ** Copy *)

Record PVMigratePVC := {
  pm_KubeconfigPath : string;
  pm_Context : string;
  pm_Namespace : string;
  pm_Name : string;
  pm_Path : string
}.

Record PVMigration := {
  pvm_ID : string;
  pvm_Source : PVMigratePVC;
  pvm_Dest : PVMigratePVC;
  pvm_DeleteExtraneousFiles : bool;
  pvm_IgnoreMounted : bool;
  pvm_SourceMountReadWrite : bool;
  pvm_NoCompress : bool;
  pvm_NoCleanupOnFailure : bool;
  pvm_IgnoreSizes : bool;
  pvm_RsyncExtraArgs : string;
  pvm_Strategies : list string;
  pvm_HelmTimeout : Z;
  pvm_HelmValues : list string;
  pvm_HelmStringValues : list string
}.

Inductive ereq :=
| ECtxErr
| EProgress (p : CopyProgress)
| ERun (migration : PVMigration)
| EUninstall (kubeconfig context namespace : string) (releases : list string).

Definition eresp (r : ereq) : Type :=
  match r with
  | ECtxErr => option err
  | EProgress _ => unit
  | ERun _ => (option err * bool)%type
  | EUninstall _ _ _ _ => option err
  end.

Notation engine := (prog ereq eresp).
Notation etrace := (history eresp).

Definition transferEnginePath (value : string) : string :=
  if ((value =s "") || (value =s VolumeRootPath))%bool then "" else value +:+ "/.".

Definition rsync_args (request : CopyRequest) : result string :=
  let args := "-HAXS --numeric-ids" +:+
    (if cp_VerifyChecksum (cq_Policy request) then " --checksum" else "") +:+
    (let path := cd_Path (cq_Destination request) in
     if ((path <>s "") && (path <>s VolumeRootPath))%bool then " --mkpath" else "") in
  let limit := cp_BandwidthLimit (cq_Policy request) in
  if limit <>s "" then
    match ValidateBandwidthLimit limit with
    | Some e => inr e
    | None => inl (args +:+ " --bwlimit=" +:+ limit)
    end
  else inl args.

Definition helm_values (request : CopyRequest) : list string :=
  ToolSecurityContextHelmValues ++ cr_HelmValues (cq_Runtime request)
  ++ ToolNetworkPolicyHelmValues (cp_ToolNetworkPolicy (cq_Policy request))
  ++ (if Z.ltb 0 (cp_RsyncMaxRetries (cq_Policy request))
      then ["rsync.maxRetries=" +:+ show_Z (cp_RsyncMaxRetries (cq_Policy request))] else [])
  ++ (if cp_IgnoreSizes (cq_Policy request) then ["rsync.maxRetries=0"] else []).

Definition dest_connection (request : CopyRequest) : string * string :=
  let d := cq_Destination request in
  let s := cq_Source request in
  if cd_KubeconfigPath d =s "" then
    (cs_KubeconfigPath s, if cd_Context d =s "" then cs_Context s else cd_Context d)
  else (cd_KubeconfigPath d, cd_Context d).

Definition pv_migration (request : CopyRequest) (strategies : list string) (rsyncArgs : string)
    (imageValues : list string) : PVMigration :=
  let source := ai_Source (cq_Identity request) in
  let destination := cd_Reference (cq_Destination request) in
  let policy := cq_Policy request in
  {| pvm_ID := OperationID (cq_Identity request);
     pvm_Source := {| pm_KubeconfigPath := cs_KubeconfigPath (cq_Source request);
                      pm_Context := cs_Context (cq_Source request);
                      pm_Namespace := Namespace source; pm_Name := Name source;
                      pm_Path := transferEnginePath (cs_Path (cq_Source request)) |};
     pvm_Dest := {| pm_KubeconfigPath := (dest_connection request).1;
                    pm_Context := (dest_connection request).2;
                    pm_Namespace := Namespace destination; pm_Name := Name destination;
                    pm_Path := transferEnginePath (cd_Path (cq_Destination request)) |};
     pvm_DeleteExtraneousFiles := cp_DeleteExtraneousFiles policy;
     pvm_IgnoreMounted := true;
     pvm_SourceMountReadWrite := cs_MountReadWrite (cq_Source request);
     pvm_NoCompress := negb (cp_Compress policy);
     pvm_NoCleanupOnFailure := false;
     pvm_IgnoreSizes := cp_IgnoreSizes policy;
     pvm_RsyncExtraArgs := rsyncArgs;
     pvm_Strategies := strategies;
     pvm_HelmTimeout := if Z.eqb (cr_HelmTimeout (cq_Runtime request)) 0 then 600000000000%Z
                        else cr_HelmTimeout (cq_Runtime request);
     pvm_HelmValues := helm_values request;
     pvm_HelmStringValues := imageValues ++ cr_HelmStringValues (cq_Runtime request) |}.

Section Copy.
Context `{PV : PVMigrateLibrary} `{IG : ImageGrammar}.

Definition report (progress : bool) (request : CopyRequest) (state message : string) : engine () :=
  if progress then
    call (EProgress {| progress_Mode := ai_Mode (cq_Identity request); progress_Attempt := ai_Attempt (cq_Identity request);
                       progress_State := state; progress_Message := message |})
  else Ret tt.

Definition PVMigrate_Copy (request : CopyRequest) (progress : bool) : engine (option err) :=
  try: strategies ← Ret (convert_strategies (cp_Strategies (cq_Policy request)));
  try: rsyncArgs ← Ret (rsync_args request);
  let operationID := OperationID (cq_Identity request) in
  try: imageValues ← Ret (ToolImageHelmValues (cr_ToolImage (cq_Runtime request)));
  _ ← report progress request "running" operationID;
  r ← call (ERun (pv_migration request strategies rsyncArgs imageValues));
  match (r.1 : option err) with
  | Some e =>
      contextErr ← call ECtxErr;
      let classified := classifyRunError contextErr operationID e r.2 in
      _ ← report progress request "failed" (error_text classified);
      if (cp_TolerateLiveSourceChurn (cq_Policy request) && isRsyncPartialTransferError classified)%bool then
        _ ← report progress request "completed" operationID; Ret None
      else Ret (Some classified)
  | None => _ ← report progress request "completed" operationID; Ret None
  end.
End Copy.

(** ** Cleanup (cleanup.go) *)

Definition copyReleaseNames (request : CleanupRequest) : list string :=
  let strategies := cl_Strategies request in
  let strategies :=
    if (Nat.eqb (length strategies) 0 || contains strategies "auto")%bool
    then ["mount"; "clusterip"; "nodeport"; "loadbalancer"; "local"] else strategies in
  concat (map (fun strategy =>
    let prefix := "pv-migrate-" +:+ OperationID (cl_Identity request) +:+ "-" +:+ strategy in
    if contains ["local"; "nodeport"; "loadbalancer"] strategy then [prefix +:+ "-src"; prefix +:+ "-dest"]
    else if contains ["mount"; "clusterip"] strategy then [prefix] else []) strategies).

Definition cleanup_targets (request : CleanupRequest) : list (string * string * string) :=
  let source := (cl_KubeconfigPath request, cl_Context request, Namespace (ai_Source (cl_Identity request))) in
  let config := cl_DestinationKubeconfigPath request in
  let context := cl_DestinationContext request in
  let destination :=
    if config =s "" then
      (cl_KubeconfigPath request, if context =s "" then cl_Context request else context, cl_DestinationNamespace request)
    else (config, context, cl_DestinationNamespace request) in
  if bool_decide (destination = source) then [source] else [source; destination].

Fixpoint uninstall_targets (releases : list string) (targets : list (string * string * string)) : engine (option err) :=
  match targets with
  | [] => Ret None
  | (config, context, namespace) :: rest =>
      e ← call (EUninstall config context namespace releases);
      match e with
      | Some x =>
          Ret (Some (EWrap (sprint ["clean up interrupted copy in namespace "; namespace; ": "; error_text x]) x))
      | None => uninstall_targets releases rest
      end
  end.

Definition PVMigrate_Cleanup (request : CleanupRequest) : engine (option err) :=
  uninstall_targets (copyReleaseNames request) (cleanup_targets request).
