(* ===== verification/Exec.v ===== *)
(** * Programs of the executors

    An executor talks to the cluster ([XKube]), saves its object through the store
    ([XSave]; the store's own part is modelled in WorkflowStore), asks the context
    detached from cancellation ([XDetachedErr]) and calls the services it was built
    with ([XService]): the prober of tool images, the reader of volume usage, the copy
    engine, the stream of tool logs and the timer.  Deleting the session's Lease and
    the stored object are requests too.  A nil dereference or an index out of range is
    the request [XPanic], after which nothing is returned.

    Everything here is generic in the workflow object; the class [WorkflowObject] says
    what an executor needs of it, and each kind of workflow has an instance.  Every
    operation takes the object in memory and returns it as it leaves it.  The file also
    has what the executors share of workflow_failure.go, lifecycle.go and copy.go:
    persisting a checkpoint and recording a failure. *)

From S2P Require Import Prelude Utf8 GoErrors Lifecycle KubeTypes Prog Api Quota CopyEngine.

(** ** Services *)

(** kube/tool_probe.go *)
Record ToolProbeTarget := {
  tt_Namespace : string;
  tt_NodeName : string;
  tt_PVCName : string;
  tt_SkipPVCMount : bool;
  tt_WritablePVCMount : bool;
  tt_RequiredPath : string;
  tt_CreatePath : bool;
  tt_Components : list string
}.

Record ToolImageProbeOptions := {
  po_OperationID : string;
  po_Image : string;
  po_Targets : list ToolProbeTarget;
  po_Timeout : Z
}.

Record ToolImageProbeResult := {
  pr_Target : ToolProbeTarget;
  pr_NodeName : string;
  pr_ImagePullSecrets : list string
}.

(** kube/volume_usage.go *)
Record VolumeUsageReadResult := { usage_UsedBytes : Z; usage_Source : string }.

Record ServiceAccount := {
  sa_Namespace : string;
  sa_Name : string;
  sa_Labels : gmap string string;
  sa_AutomountServiceAccountToken : option bool
}.

Inductive sreq :=
| SProbe (options : ToolImageProbeOptions)
| SReadUsage (sourcePVC sourcePV : ObjectReference)
| SGetNamespace (name : string)
| SGetServiceAccount (namespace name : string)
| SCreateServiceAccount (account : ServiceAccount)
| SUpdateServiceAccount (account : ServiceAccount)
| SCopy (request : CopyRequest)
| SCopyCleanup (request : CleanupRequest)
| SToolLogError                            (* Stop and ObservedError of the attempt's log stream *)
| SSleep (duration : Z)
| SShared (sourcePV : ObjectReference)      (* whether an OpenEBS LVM volume may be mounted twice *)
| SMapOrder                                (* whether a Go map of two keys starts with the first *)
| SDetachedTick.                           (* the poll tick under the detached context *)

Definition sresp (r : sreq) : Type :=
  match r with
  | SProbe _ => result (list ToolImageProbeResult)
  | SReadUsage _ _ => result VolumeUsageReadResult
  | SGetNamespace _ => option err
  | SMapOrder => bool
  | SShared _ => result bool
  | SGetServiceAccount _ _ | SCreateServiceAccount _ => result (option ServiceAccount)
  | SUpdateServiceAccount _ | SCopy _ | SCopyCleanup _ | SToolLogError | SSleep _ | SDetachedTick => option err
  end.

(** ** Requests *)

Inductive xreq (Obj : Type) :=
| XKube (r : req)
| XSave (object : Obj)
| XDetachedErr
| XDeleteLock
| XDeleteStored (object : Obj)
| XService (s : sreq)
| XPanic.
Arguments XKube {Obj} r.
Arguments XSave {Obj} object.
Arguments XDetachedErr {Obj}.
Arguments XDeleteLock {Obj}.
Arguments XDeleteStored {Obj} object.
Arguments XService {Obj} s.
Arguments XPanic {Obj}.

Definition xresp {Obj} (r : xreq Obj) : Type :=
  match r with
  | XKube r => resp r
  | XSave _ | XDetachedErr | XDeleteLock | XDeleteStored _ => option err
  | XService s => sresp s
  | XPanic => unit
  end.

Notation execOf Obj := (prog (xreq Obj) (@xresp Obj)).
Notation xtraceOf Obj := (history (@xresp Obj)).

(** What the executors need of a workflow object: its embedded status. *)
Class WorkflowObject (Obj : Type) := {
  wf_get : Obj -> WorkflowStatus;
  wf_put : Obj -> WorkflowStatus -> Obj;
  wf_get_put : forall o s, wf_get (wf_put o s) = s;
  wf_put_put : forall o s s', wf_put (wf_put o s) s' = wf_put o s'
}.

Section exec.
Context {Obj : Type}.
Notation exec := (execOf Obj).
Notation outcome := (Obj * option err)%type.

(** The goroutine ends without a result. *)
Definition panic {A} : exec A := Vis XPanic (fun _ => OutOfFuel).

(** A program that only talks to the cluster. *)
Fixpoint lift {A} (p : kube A) : exec A :=
  match p with
  | Ret a => Ret a
  | OutOfFuel => OutOfFuel
  | Vis r k => Vis (XKube r) (fun x => lift (k x))
  end.

(** The switcher's program with its callback, which may change the object [o]. *)
Fixpoint with_progress {O A} (callback : ActivationStatus -> O -> exec (O * option err)) (p : kube A) (o : O)
    : exec (O * A) :=
  match p with
  | Ret a => Ret (o, a)
  | OutOfFuel => OutOfFuel
  | Vis r k =>
      match r return (resp r -> kube A) -> exec (O * A) with
      | Progress (Some st) => fun k => r ← callback st o; with_progress callback (k r.2) r.1
      | Progress None => fun _ => panic
      | r => fun k => Vis (XKube r) (fun x => with_progress callback (k x) o)
      end k
  end.

Definition or_panic {A B} (x : option A) (k : A -> exec B) : exec B :=
  match x with Some a => k a | None => panic end.

Definition serve (s : sreq) : exec (sresp s) := call (XService s).

(** [if err := p; err != nil { return err }], the object as [p] leaves it. *)
Definition step_x (p : exec outcome) (k : Obj -> exec outcome) : exec outcome :=
  p ≫= fun r => match r.2 with Some e => Ret (r.1, Some e) | None => k r.1 end.
Definition check_x (o : Obj) (p : exec (option err)) (k : exec outcome) : exec outcome :=
  p ≫= fun e => match e with Some x => Ret (o, Some x) | None => k end.

(** ** Persisting (lifecycle.go) *)

Definition checkpoint_fence (detached : bool) : exec (option err) :=
  a ← (if detached then call XDetachedErr else call (XKube CtxErr));
  match a with
  | Some e => Ret (Some e)
  | None => b ← call (XKube FenceErr); Ret b
  end.

Definition persist (detached : bool) (o : Obj) : exec (option err) :=
  check: checkpoint_fence detached;
  e ← call (XSave o);
  match e with
  | Some x => Ret (Some x)
  | None => checkpoint_fence detached
  end.
End exec.

(** ** Failure *)

Fixpoint visit_no_space (e : err) : bool :=
  (is_sentinel ErrToolPodNoSpace e || containsDestinationNoSpace (error_text e)
   || match e with
      | EJoin es => existsb visit_no_space es
      | EDomain _ _ _ (Some c) | EWrap _ c | EPodBlocker _ c | ENoSpace c => visit_no_space c
      | _ => false
      end)%bool.

Definition isDestinationNoSpaceError (e : err) : bool := (as_no_space e || visit_no_space e)%bool.

Definition FailureDestinationCapacityExhausted : string := "DestinationCapacityExhausted".

Definition failureReason (e : err) : string :=
  if isDestinationNoSpaceError e then FailureDestinationCapacityExhausted else "".

Definition with_failure (s : WorkflowStatus) (category : ErrorCategory) (reason : string) : WorkflowStatus :=
  {| ws_ExecutionIntentHash := ws_ExecutionIntentHash s; ws_ErrorCategory := Some category; ws_Phase := ws_Phase s;
     ws_ResumeFrom := ws_ResumeFrom s; ws_FailureReason := reason; ws_ObservedGeneration := ws_ObservedGeneration s;
     ws_StartedAt := ws_StartedAt s; ws_UpdatedAt := ws_UpdatedAt s; ws_CompletedAt := ws_CompletedAt s;
     ws_Message := ws_Message s; ws_Conditions := ws_Conditions s; ws_History := ws_History s |}.

Definition with_message (s : WorkflowStatus) (message : string) (now : Time) : WorkflowStatus :=
  {| ws_ExecutionIntentHash := ws_ExecutionIntentHash s; ws_ErrorCategory := ws_ErrorCategory s;
     ws_Phase := ws_Phase s; ws_ResumeFrom := ws_ResumeFrom s; ws_FailureReason := "";
     ws_ObservedGeneration := ws_ObservedGeneration s; ws_StartedAt := ws_StartedAt s; ws_UpdatedAt := Some now;
     ws_CompletedAt := ws_CompletedAt s; ws_Message := BoundWorkflowMessage message;
     ws_Conditions := ws_Conditions s; ws_History := ws_History s |}.

Section failure.
Context {Obj : Type} `{WO : WorkflowObject Obj}.
Notation exec := (execOf Obj).
Notation outcome := (Obj * option err)%type.

(** [transition detached object next message] is the executor's own. *)
Definition recordWorkflowFailure (transition : bool -> Obj -> Phase -> string -> exec outcome)
    (o : Obj) (cause : err) (reason : string) (now : Time) : exec outcome :=
  f ← call (XKube FenceErr);
  match f with
  | Some e => Ret (o, errors_Join [Some cause; Some e])
  | None =>
      let failed := wf_put o (with_failure (wf_get o) (CategoryOf (Some cause)) reason) in
      c ← call (XKube CtxErr);
      r ← (if match c with Some e => is_context Canceled e | None => false end then
             let saved := wf_put failed (with_message (wf_get failed) (error_text cause) now) in
             e ← persist true saved; Ret (saved, e)
           else transition true failed PhaseFailed (error_text cause));
      Ret match r.2 with
          | Some e => (o, errors_Join [Some cause; Some e])
          | None => (r.1, Some cause)
          end
  end.
End failure.
