(* ===== verification/MigrationObject.v ===== *)
(** * The migration object and its validation

    The ClusterMigration of api/v1alpha1 (the fields its executor reads), and
    internal/app/migration_executor_validation.go with the volume checks it shares
    with reservations (reservation_executor_validation.go): what an executor accepts
    of a loaded object before it acts.  A map keyed by source claim is a [gmap];
    [clusterMigrationVolumeIndexes] keeps the last index of a name, as the code's
    map does. *)

From S2P Require Import Prelude Utf8 GoErrors Lifecycle PhaseMachines KubeTypes Prog Api NodeSelection GoFormat Reserver TransferPath CopyEngine Exec.

(** ** Unused storage (internal/domain/reclaim_policy.go) *)

Definition UnusedStorageKeep : string := "Keep".
Definition UnusedStorageDelete : string := "Delete".

Definition ValidateUnusedStoragePolicy (policy : string) : option err :=
  if ((policy <>s "") && (policy <>s UnusedStorageKeep) && (policy <>s UnusedStorageDelete))%bool then
    Some (NewError ErrorValidation "unused storage policy" "unusedStoragePolicy must be Keep or Delete")
  else None.

Definition DeletesUnusedStorage (policy : string) : bool := policy =s UnusedStorageDelete.

(** ** API types *)

Record VolumeSpec := {
  vs_SourcePVC : LocalResourceReference;
  vs_SourcePV : LocalResourceReference;
  vs_DestinationPVC : LocalResourceReference;
  vs_SourceReclaimPolicy : string;
  vs_SourcePVCSpec : PVCSpec;
  vs_SourcePVCMetadata : PVCMetadata;
  vs_Capacity : string;
  vs_SourceCapacity : string;
  vs_SourceUsedBytes : Z;
  vs_SourceUsageKnown : bool;
  vs_StorageClass : string;
  vs_AccessModes : list string;
  vs_VolumeMode : string;
  vs_ConcurrentConsumers : Z;
  vs_TransferScope : option TransferScope
}.

Record VolumeRequest := {
  vr_SourcePVC : LocalResourceReference;
  vr_SourcePV : option LocalResourceReference;
  vr_DestinationPVC : option LocalResourceReference;
  vr_Capacity : string;
  vr_TransferScope : option TransferScope
}.

(** The embedded MigrationSpec flattened, with the options that are read after planning. *)
Record ClusterMigrationSpec := {
  ms_UnusedStoragePolicy : string;
  ms_Volumes : list VolumeRequest;
  ms_SourceNamespace : string;
  ms_DestinationNamespace : string;
  ms_TemporaryNamespace : string;
  ms_SessionNamespace : string
}.

Record ClusterMigrationPlan := {
  plan_UnusedStoragePolicy : string;
  plan_SourceNamespace : string;
  plan_TemporaryNamespace : string;
  plan_DestinationNamespace : string;
  plan_SessionNamespace : string;
  plan_Volumes : list VolumeSpec;
  plan_SourceNode : string;
  plan_TargetNode : string;
  plan_ToolImage : string;
  plan_Strategies : list string;
  plan_VerifyChecksum : bool;
  plan_DeleteExtraneous : bool;
  plan_SkipSourceUsageCheck : bool
}.

Record MigrationSyncStatus := {
  sync_FinalCompletedAt : option Time;
  sync_Attempts : Z;
  sync_BytesCopied : Z;
  sync_ChecksumVerified : bool;
  sync_LastError : string
}.

Record ClusterMigrationVolumeStatus := {
  mv_Reservation : ReservationStatus;        (* embedded *)
  mv_Sync : MigrationSyncStatus;
  mv_Activation : ActivationStatus
}.

#[global] Instance MigrationSyncStatus_eq_dec : EqDecision MigrationSyncStatus.
Proof. solve_decision. Defined.
#[global] Instance ClusterMigrationVolumeStatus_eq_dec : EqDecision ClusterMigrationVolumeStatus.
Proof. solve_decision. Defined.

Record ClusterMigration := {
  mig_Name : string;
  mig_Namespace : string;
  mig_DeletionTimestamp : option Time;
  mig_Spec : ClusterMigrationSpec;
  mig_Plan : option ClusterMigrationPlan;
  mig_Status : WorkflowStatus;               (* embedded in the status *)
  mig_Volumes : list ClusterMigrationVolumeStatus
}.

Definition deletingWorkflow (object : ClusterMigration) : bool :=
  match mig_DeletionTimestamp object with Some _ => true | None => false end.

Definition volume_name (v : ClusterMigrationVolumeStatus) : string := rs_SourcePVCName (mv_Reservation v).
Definition planned_name (v : VolumeSpec) : string := local_Name (vs_SourcePVC v).

(** ** Lifecycle and plan *)

Definition invalid (message : string) : option err := Some (NewError ErrorValidation "migration" message).

Definition validateMigrationLifecycle (status : WorkflowStatus) : option err :=
  if (negb (ws_Phase status =p PhaseNone) && negb (ws_Phase status =p PhaseFailed)
      && negb (migrationPhase (ws_Phase status)))%bool then
    invalid "phase does not belong to offline migration"
  else if (negb (ws_ResumeFrom status =p PhaseNone) && negb (migrationPhase (ws_ResumeFrom status)))%bool then
    invalid "resume checkpoint does not belong to offline migration"
  else if ((ws_Phase status =p PhaseFailed) && (ws_ResumeFrom status =p PhaseNone))%bool then
    invalid "failed migration requires a resume checkpoint"
  else if ((ws_FailureReason status <>s "")
           && ((ws_FailureReason status <>s FailureDestinationCapacityExhausted)
               || negb (workflowResumePhase status =p PhaseFinalSyncing)))%bool then
    invalid "migration failure reason does not belong to the current stage"
  else None.

Definition or_default (value fallback : string) : string := if value =s "" then fallback else value.

Definition validateMigrationPlanNamespaces (spec : ClusterMigrationSpec) (plan : ClusterMigrationPlan) : option err :=
  let source := ms_SourceNamespace spec in
  if ((plan_SourceNamespace plan =s "") || (plan_TemporaryNamespace plan =s "")
      || (plan_SessionNamespace plan =s "") || (plan_SourceNamespace plan <>s source)
      || (plan_TemporaryNamespace plan <>s or_default (ms_TemporaryNamespace spec) source)
      || (plan_SessionNamespace plan <>s or_default (ms_SessionNamespace spec) source)
      || (plan_DestinationNamespace plan <>s or_default (ms_DestinationNamespace spec) source))%bool then
    invalid "migration plan namespace roles must match its spec and preserve source identities"
  else None.

Definition reservationReferenceMatches (request resolved : LocalResourceReference) : bool :=
  ((local_Name request =s local_Name resolved)
   && ((local_UID request =s "") || (local_UID request =s local_UID resolved))
   && ((local_ResourceVersion request =s "") || (local_ResourceVersion request =s local_ResourceVersion resolved))
   && ((local_Kind request =s "") || (local_Kind request =s local_Kind resolved))
   && ((local_APIVersion request =s "") || (local_APIVersion request =s local_APIVersion resolved)))%bool.

Definition matches_opt (request : option LocalResourceReference) (resolved : LocalResourceReference) : bool :=
  match request with Some ref => reservationReferenceMatches ref resolved | None => true end.

Fixpoint requested_loop (volumes : gmap string VolumeSpec) (requested : list string) (requests : list VolumeRequest)
    : option err :=
  match requests with
  | [] => None
  | request :: rest =>
      let name := local_Name (vr_SourcePVC request) in
      let mismatch := invalid "migration plan does not satisfy the requested identities" in
      match volumes !! name with
      | None => mismatch
      | Some volume =>
          if (contains requested name
              || negb (reservationReferenceMatches (vr_SourcePVC request) (vs_SourcePVC volume))
              || negb (matches_opt (vr_SourcePV request) (vs_SourcePV volume))
              || negb (matches_opt (vr_DestinationPVC request) (vs_DestinationPVC volume)))%bool then mismatch
          else requested_loop volumes (name :: requested) rest
      end
  end.

Definition validateMigrationRequestedVolumes (requests : list VolumeRequest) (volumes : gmap string VolumeSpec)
    : option err :=
  if negb (Nat.eqb (length requests) (size volumes)) then
    invalid "migration plan must cover exactly the requested volumes"
  else requested_loop volumes [] requests.

(** ** Checkpoints *)

Definition validateMigrationVolumeCheckpoint (volume : VolumeSpec) (checkpoint : ReservationStatus)
    (activation : ActivationStatus) (copyAttempts : Z) (destinationNamespace temporaryNamespace : string)
    : option err :=
  if match rs_DestinationPVC checkpoint with
     | Some ref => ((Name ref <>s local_Name (vs_DestinationPVC volume))
                    || (Namespace ref <>s temporaryNamespace) || (UID ref =s ""))%bool
     | None => false
     end then invalid "migration destination PVC checkpoint is invalid"
  else if match rs_DestinationPV checkpoint with
     | Some ref => ((Name ref =s "") || (UID ref =s "") || (Namespace ref <>s ""))%bool
     | None => false
     end then invalid "migration destination PV checkpoint is invalid"
  else if (rs_Reserved checkpoint
           && (bool_decide (rs_DestinationPVC checkpoint = None)
               || bool_decide (rs_DestinationPV checkpoint = None)))%bool then
    invalid "reserved migration volume requires destination PVC and PV identities"
  else if match ActivePVC activation with
     | Some ref => ((Name ref <>s planned_name volume) || (Namespace ref <>s destinationNamespace)
                    || (UID ref =s ""))%bool
     | None => false
     end then invalid "migration active PVC must preserve the source name in the destination namespace"
  else if Z.ltb copyAttempts 0 then invalid "migration copy attempts cannot be negative"
  else if (Z.ltb 0 copyAttempts && negb (rs_Reserved checkpoint))%bool then
    invalid "migration copy attempts require reserved destination identities"
  else if ((bool_decide (is_Some (ActivatedAt activation)) || bool_decide (is_Some (RolledBackAt activation)))
           && bool_decide (ActivePVC activation = None))%bool then
    invalid "completed migration cutover requires an active PVC identity"
  else None.

Definition early_phase (phase : Phase) : bool :=
  match phase with PhasePlanned | PhaseReserving | PhaseAborting | PhaseAborted => true | _ => false end.

Definition validateMigrationVolumePhase (reserved : bool) (finalCompletedAt activatedAt rolledBackAt : option Time)
    (phase : Phase) : option err :=
  if (negb (early_phase phase) && negb reserved)%bool then
    invalid "migration cannot advance before every volume is reserved"
  else if (match phase with
           | PhaseFinalSynced | PhaseActivating | PhaseActivated | PhaseResuming | PhaseCompleted => true
           | _ => false
           end && bool_decide (finalCompletedAt = None))%bool then
    invalid "migration cutover requires completed final sync for every volume"
  else match phase with
       | PhaseActivated | PhaseResuming | PhaseCompleted =>
           if bool_decide (activatedAt = None)
           then invalid "migration completion requires activation for every volume" else None
       | PhaseRolledBack =>
           if bool_decide (rolledBackAt = None)
           then invalid "migration rollback requires a restored checkpoint for every volume" else None
       | _ => None
       end.

Definition validate_checkpoint (volume : VolumeSpec) (checkpoint : ClusterMigrationVolumeStatus)
    (destinationNamespace temporaryNamespace : string) (phase : Phase) : option err :=
  match validateMigrationVolumeCheckpoint volume (mv_Reservation checkpoint) (mv_Activation checkpoint)
          (sync_Attempts (mv_Sync checkpoint)) destinationNamespace temporaryNamespace with
  | Some e => Some e
  | None =>
      validateMigrationVolumePhase (rs_Reserved (mv_Reservation checkpoint))
        (sync_FinalCompletedAt (mv_Sync checkpoint)) (ActivatedAt (mv_Activation checkpoint))
        (RolledBackAt (mv_Activation checkpoint)) phase
  end.

Fixpoint checkpoints_loop (volumes : gmap string VolumeSpec) (destinationNamespace temporaryNamespace : string)
    (phase : Phase) (seen : list string) (checkpoints : list ClusterMigrationVolumeStatus) : option err :=
  match checkpoints with
  | [] => None
  | checkpoint :: rest =>
      let name := volume_name checkpoint in
      let unknown := invalid "migration checkpoint contains an unknown or duplicate source PVC" in
      match volumes !! name with
      | None => unknown
      | Some volume =>
          if contains seen name then unknown else
          match validate_checkpoint volume checkpoint destinationNamespace temporaryNamespace phase with
          | Some e => Some e
          | None => checkpoints_loop volumes destinationNamespace temporaryNamespace phase (name :: seen) rest
          end
      end
  end.

Definition validateMigrationCheckpoints (volumes : gmap string VolumeSpec)
    (checkpoints : list ClusterMigrationVolumeStatus) (destinationNamespace temporaryNamespace : string)
    (phase : Phase) : option err :=
  if (Nat.eqb (length checkpoints) 0 && early_phase phase)%bool then None
  else if negb (Nat.eqb (length checkpoints) (size volumes)) then
    invalid "migration checkpoints must cover every planned volume"
  else checkpoints_loop volumes destinationNamespace temporaryNamespace phase [] checkpoints.

(** [indexes[name]]: the last index with that name. *)
Definition clusterMigrationVolumeIndexes (volumes : list ClusterMigrationVolumeStatus) : gmap string nat :=
  foldl (fun indexes iv => <[volume_name iv.2 := iv.1]> indexes) ∅ (imap pair volumes).

Section validation.
Context `{QT : QuantityText}.

Definition positive_quantity (capacity : string) : bool :=
  match ParseQuantity capacity with inl q => Z.ltb 0 q | inr _ => false end.

Fixpoint reservation_loop (sourceNamespace destinationNamespace : string) (volumes : gmap string VolumeSpec)
    (destinations : list string) (planned : list VolumeSpec) : result (gmap string VolumeSpec) :=
  let refuse message := inr (NewError ErrorValidation "reservation" message) in
  match planned with
  | [] => inl volumes
  | volume :: rest =>
      let name := planned_name volume in
      let destination := local_Name (vs_DestinationPVC volume) in
      if ((name =s "") || (local_UID (vs_SourcePVC volume) =s "") || (local_Name (vs_SourcePV volume) =s "")
          || (local_UID (vs_SourcePV volume) =s "") || (destination =s ""))%bool then
        refuse "planned volume requires source PVC/PV identities and a destination name"
      else if (bool_decide (is_Some (volumes !! name)) || contains destinations destination)%bool then
        refuse "planned source and destination PVC names must be unique"
      else if ((sourceNamespace =s destinationNamespace) && (name =s destination))%bool then
        refuse "destination PVC must differ from the source"
      else if negb (positive_quantity (vs_SourceCapacity volume) && positive_quantity (vs_Capacity volume)) then
        refuse "planned source and destination capacities must be positive quantities"
      else reservation_loop sourceNamespace destinationNamespace (<[name := volume]> volumes)
             (destination :: destinations) rest
  end.

Definition validateReservationVolumes (planned : list VolumeSpec) (sourceNamespace destinationNamespace : string)
    : result (gmap string VolumeSpec) :=
  reservation_loop sourceNamespace destinationNamespace ∅ [] planned.

(** [if check then e else None] *)
Definition unless (skip : bool) (e : option err) : option err := if skip then None else e.

Definition first_err (a b : option err) : option err := match a with Some e => Some e | None => b end.

Definition validate_plan (object : ClusterMigration) (plan : ClusterMigrationPlan) : option err :=
  let deleting := deletingWorkflow object in
  if (Nat.eqb (length (plan_Volumes plan)) 0 || (ws_Phase (mig_Status object) =p PhaseNone))%bool then
    invalid "migration plan requires volumes and a lifecycle phase"
  else
  first_err (unless deleting (validateMigrationPlanNamespaces (mig_Spec object) plan)) (
  first_err (ValidateUnusedStoragePolicy (plan_UnusedStoragePolicy plan)) (
  match validateReservationVolumes (plan_Volumes plan) (plan_SourceNamespace plan) (plan_TemporaryNamespace plan) with
  | inr e => Some e
  | inl volumes =>
      first_err (unless deleting (validateMigrationRequestedVolumes (ms_Volumes (mig_Spec object)) volumes))
        (validateMigrationCheckpoints volumes (mig_Volumes object) (plan_DestinationNamespace plan)
           (plan_TemporaryNamespace plan) (workflowResumePhase (mig_Status object)))
  end)).

Definition validateClusterMigrationObject (object : ClusterMigration) : option err :=
  if ((mig_Name object =s "") || (mig_Namespace object <>s ""))%bool then
    invalid "a named cluster-scoped migration is required"
  else
  first_err (validateMigrationLifecycle (mig_Status object)) (
  first_err (unless (deletingWorkflow object) (ValidateUnusedStoragePolicy (ms_UnusedStoragePolicy (mig_Spec object)))) (
  match mig_Plan object with
  | None =>
      let phase := workflowResumePhase (mig_Status object) in
      if (negb (Nat.eqb (length (mig_Volumes object)) 0)
          || (negb (phase =p PhaseNone) && negb (phase =p PhasePlanned) && negb (phase =p PhaseAborted)))%bool then
        invalid "migration progress requires an execution plan"
      else None
  | Some plan => validate_plan object plan
  end)).
End validation.
