(* ===== verification/Offline.v ===== *)
(** * Binding and offline verification

    internal/kube/switcher_pv_binding.go ([verifyBinding],
    [verifyPVCAndPVIdentity]), switcher_activation_recovery.go, the offline
    checks of switcher.go, switcher_rebind_recovery.go and
    switcher_rebind_validation.go: read-only checks that precede every
    destructive step. *)

From S2P Require Import Prelude Utf8 GoErrors Lifecycle KubeTypes Prog Api ResourceState Ownership PVBinding.

Section verify.
Context `{QuantityText}.

Definition claimref_matches (pv : PV) (pvc : PVC) : bool :=
  match pv_ClaimRef pv with
  | None => false
  | Some c =>
      ((UID c =s pvc_UID pvc) && (Namespace c =s pvc_Namespace pvc) && (Name c =s pvc_Name pvc))%bool
  end.

Definition verifyBinding (pvc : option PVC) (ref : ObjectReference) : kube (option err) :=
  match pvc with
  | None => fail (NewError ErrorValidation "verify binding" "PVC and PV identities are required")
  | Some pvc =>
      if ((pvc_Namespace pvc =s "") || (pvc_Name pvc =s "") || (pvc_UID pvc =s "")
          || (Name ref =s "") || (UID ref =s ""))%bool then
        fail (NewError ErrorValidation "verify binding" "PVC and PV identities are required") else
      if (negb (bool_decide (pvc_Phase pvc = ClaimBound)) || (pvc_VolumeName pvc <>s Name ref))%bool then
        fail (NewError ErrorConflict "verify binding"
          (sprint ["PVC "; pvc_Namespace pvc; "/"; pvc_Name pvc; " is not Bound to "; Name ref])) else
      r ← call (GetPV (Name ref));
      match r with
      | inr e => fail (WrapError ErrorKubernetes "verify binding" ("read PV " +:+ Name ref) e)
      | inl pv =>
          if pv_UID pv <>s UID ref then
            fail (NewError ErrorConflict "verify binding" (sprint ["PV "; Name ref; " UID changed"])) else
          if negb (claimref_matches pv pvc) then
            fail (NewError ErrorConflict "verify binding"
              (sprint ["PV "; Name ref; " claimRef does not match PVC UID "; pvc_UID pvc])) else
          match ValidateBoundVolumeCapacity (Some pvc) (Some pv) None with
          | Some e => fail (NewError ErrorConflict "verify binding" (error_text e))
          | None => Ret None
          end
      end
  end.

Definition verifyRetainedActivationPV (sessionID : string)
    (pvcRef pvRef reserve : ObjectReference) : kube (option err) :=
  r ← call (GetPV (Name pvRef));
  match r with
  | inr e =>
      fail (WrapError ErrorKubernetes "verify activation recovery" ("read PV " +:+ Name pvRef) e)
  | inl pv =>
      if ((pv_UID pv <>s UID pvRef) || bool_decide (pv_DeletionTimestamp pv <> None)
          || (mget (pv_Labels pv) SessionKey <>s sessionID)
          || negb (bool_decide (pv_ReclaimPolicy pv = ReclaimRetain)))%bool then
        fail (NewError ErrorConflict "verify activation recovery"
          (sprint ["PV "; Name pvRef; " identity, ownership, or retention changed after PVC deletion"])) else
      let claim := pv_ClaimRef pv in
      let original :=
        (claimref_is claim (Namespace pvcRef) (Name pvcRef)
         && (claimref_uid claim =s UID pvcRef))%bool in
      let reserved :=
        ((Name reserve <>s "") && claimref_is claim (Namespace reserve) (Name reserve)
         && (claimref_uid claim =s ""))%bool in
      if (negb original && negb reserved)%bool then
        fail (NewError ErrorConflict "verify activation recovery"
          (sprint ["PV "; Name pvRef; " claimRef changed after PVC deletion"]))
      else Ret None
  end.

Definition verifyPVCAndPVIdentity (pvcRef pvRef : ObjectReference) (role sessionID : string)
    (recoveryClaim : option ObjectReference) : kube (option err) :=
  if ((Namespace pvcRef =s "") || (Name pvcRef =s "") || (UID pvcRef =s ""))%bool then
    fail (NewError ErrorPrecondition "verify PVC offline" (role +:+ " PVC reference is incomplete")) else
  if ((Name pvRef =s "") || (UID pvRef =s ""))%bool then
    fail (NewError ErrorPrecondition "verify PVC offline" (role +:+ " PV reference is incomplete")) else
  r ← call (GetPVC (Namespace pvcRef) (Name pvcRef));
  match r with
  | inr e =>
      let read_error :=
        fail (WrapError ErrorKubernetes "verify PVC offline"
          (sprint ["read "; role; " PVC "; Namespace pvcRef; "/"; Name pvcRef]) e) in
      match recoveryClaim with
      | Some reserve =>
          if IsNotFound e then verifyRetainedActivationPV sessionID pvcRef pvRef reserve
          else read_error
      | None => read_error
      end
  | inl pvc =>
      if pvc_UID pvc <>s UID pvcRef then
        fail (NewError ErrorConflict "verify PVC offline"
          (sprint [role; " PVC "; pvc_Namespace pvc; "/"; pvc_Name pvc; " UID changed from ";
                   UID pvcRef; " to "; pvc_UID pvc])) else
      check: Ret (validatePVCDeletionFinalizers pvc "verify PVC offline");
      check: Ret (if sessionID <>s "" then
                    match List.find (fun owner => foreign_owner owner sessionID)
                            [mget (pvc_Annotations pvc) SessionKey; mget (pvc_Labels pvc) SessionKey] with
                    | Some owner =>
                        Some (NewError ErrorConflict "verify PVC offline"
                          (sprint [role; " PVC "; pvc_Namespace pvc; "/"; pvc_Name pvc;
                                   " belongs to session "; owner]))
                    | None => None
                    end
                  else None);
      if negb (bool_decide (pvc_Phase pvc = ClaimBound)) then
        fail (NewError ErrorPrecondition "verify PVC offline"
          (sprint [role; " PVC "; pvc_Namespace pvc; "/"; pvc_Name pvc; " is ";
                   claim_phase_string (pvc_Phase pvc)])) else
      if pvc_VolumeName pvc <>s Name pvRef then
        fail (NewError ErrorConflict "verify PVC offline"
          (sprint [role; " PVC "; pvc_Namespace pvc; "/"; pvc_Name pvc; " points to PV ";
                   pvc_VolumeName pvc; ", expected "; Name pvRef])) else
      v ← call (GetPV (Name pvRef));
      match v with
      | inr e =>
          fail (WrapError ErrorKubernetes "verify PVC offline"
            (sprint ["read "; role; " PV "; Name pvRef]) e)
      | inl pv =>
          if pv_UID pv <>s UID pvRef then
            fail (NewError ErrorConflict "verify PVC offline"
              (sprint [role; " PV "; pv_Name pv; " UID changed from "; UID pvRef; " to "; pv_UID pv])) else
          if ((sessionID <>s "") && foreign_owner (mget (pv_Labels pv) SessionKey) sessionID)%bool then
            fail (NewError ErrorConflict "verify PVC offline"
              (sprint [role; " PV "; pv_Name pv; " belongs to session ";
                       mget (pv_Labels pv) SessionKey])) else
          if negb (claimref_matches pv pvc) then
            fail (NewError ErrorConflict "verify PVC offline"
              (sprint [role; " PV "; pv_Name pv; " claimRef does not match PVC ";
                       pvc_Namespace pvc; "/"; pvc_Name pvc; " UID "; pvc_UID pvc]))
          else Ret None
      end
  end.

(** ** Offline verification of a set of volumes *)

Record offlineIdentityRead := {
  id_pvc : ObjectReference;
  id_pv : ObjectReference;
  id_role : string;
  id_recoveryClaim : option ObjectReference
}.

(** [addIdentity]: one entry per distinct (PVC, PV) pair, the first occurrence
    deciding the role and the reservation accepted in recovery. *)
Definition addIdentity (recovering : bool) (ids : list offlineIdentityRead)
    (entry : ObjectReference * ObjectReference * string * ObjectReference) : list offlineIdentityRead :=
  let '(pvc, pv, role, recoveryClaim) := entry in
  if existsb (fun i => bool_decide (id_pvc i = pvc) && bool_decide (id_pv i = pv))%bool ids then ids
  else ids ++ [{| id_pvc := pvc; id_pv := pv; id_role := role;
                  id_recoveryClaim := if recovering then Some recoveryClaim else None |}].

Definition volume_identities (v : PVCTransferBindings)
    : list (ObjectReference * ObjectReference * string * ObjectReference) :=
  [(SourcePVC v, SourcePV v, ResourceRoleSource, empty_reference);
   (DestinationPVC v, DestinationPV v, ResourceRoleDestination, SourcePVC v)].

Definition identities (recovering : bool) (volumes : list PVCTransferBindings) : list offlineIdentityRead :=
  foldl (addIdentity recovering) [] (concat (map volume_identities volumes)).

(** First occurrences, in order. *)
Fixpoint dedup (seen l : list string) : list string :=
  match l with
  | [] => []
  | x :: rest => if contains seen x then dedup seen rest else x :: dedup (x :: seen) rest
  end.

Definition volume_claims (v : PVCTransferBindings) : list ObjectReference := [SourcePVC v; DestinationPVC v].

Definition offline_namespaces (volumes : list PVCTransferBindings) : list string :=
  dedup [] (map Namespace (concat (map volume_claims volumes))).

Definition offline_pvNames (volumes : list PVCTransferBindings) : list string :=
  dedup [] (List.filter (fun n => n <>s "")
    (map Name (concat (map (fun v => [SourcePV v; DestinationPV v]) volumes)))).

(** Sequential execution of the parallel reads: every one is issued, whatever
    the others return. *)
Fixpoint run_all {A B} (f : A -> kube B) (l : list A) : kube (list B) :=
  match l with
  | [] => Ret []
  | x :: rest => b ← f x; bs ← run_all f rest; Ret (b :: bs)
  end.

Definition first_error (l : list (option err)) : option err := head (omap id l).

(** A nil list without an error is turned into an error of its own. *)
Definition list_pods (namespace : string) : kube (result (list Pod)) :=
  r ← call (ListPods namespace);
  Ret match r with
      | inr e => inr e
      | inl None => inr (EText (sprint ["list Pods in "; namespace; " returned an empty object"]))
      | inl (Some pods) => inl pods
      end.

Fixpoint lookup_pods (namespaces : list string) (lists : list (result (list Pod))) (namespace : string)
    : result (list Pod) :=
  match namespaces, lists with
  | n :: ns, l :: ls => if n =s namespace then l else lookup_pods ns ls namespace
  | _, _ => inl []
  end.

Definition check_pods (lookup : string -> result (list Pod)) (refs : list ObjectReference) : option err :=
  first_error (map (fun ref =>
    match lookup (Namespace ref) with
    | inr e => Some (WrapError ErrorKubernetes "verify PVC offline" ("list Pods in " +:+ Namespace ref) e)
    | inl pods => ensureNoConsumerInPods pods (Namespace ref) (Name ref)
    end) refs).

Definition verifyOfflineBindings (s : Switcher) (sessionID : string)
    (volumes : list PVCTransferBindings) (recovering : bool) : kube (option err) :=
  errs ← run_all (fun i => verifyPVCAndPVIdentity (id_pvc i) (id_pv i) (id_role i) sessionID
                             (id_recoveryClaim i)) (identities recovering volumes);
  check: Ret (first_error errs);
  let namespaces := offline_namespaces volumes in
  lists ← run_all list_pods namespaces;
  check: Ret (check_pods (lookup_pods namespaces lists) (concat (map volume_claims volumes)));
  ensureVolumesDetached s (offline_pvNames volumes).

Definition VerifyVolumeOffline (s : Switcher) (bindings : PVCTransferBindings) : kube (option err) :=
  verifyOfflineBindings s "" [bindings] false.

Definition VerifyVolumesOffline (s : Switcher) (volumes : list PVCTransferBindings) : kube (option err) :=
  verifyOfflineBindings s "" volumes false.

Definition VerifyVolumesOfflineForSession (s : Switcher) (sessionID : string)
    (volumes : list PVCTransferBindings) : kube (option err) :=
  if TrimSpace sessionID =s "" then
    fail (NewError ErrorValidation "verify PVC offline" "session ID is required")
  else verifyOfflineBindings s sessionID volumes false.

Definition VerifyActivationRecovery (s : Switcher) (sessionID : string)
    (volumes : list PVCTransferBindings) : kube (option err) :=
  if TrimSpace sessionID =s "" then
    fail (NewError ErrorValidation "verify activation recovery" "session ID is required")
  else verifyOfflineBindings s sessionID volumes true.

Definition VerifyPVCOffline (s : Switcher) (sessionID : string) (pvc pv : ObjectReference)
    : kube (option err) :=
  verifyOfflineBindings s sessionID
    [{| SourcePVC := pvc; SourcePV := pv; DestinationPVC := pvc; DestinationPV := pv |}] false.

(** ** Rebinding a claim under another name *)

Definition set_UID (ref : ObjectReference) (uid : string) : ObjectReference :=
  {| APIVersion := APIVersion ref; Kind := Kind ref; Namespace := Namespace ref; Name := Name ref;
     UID := uid; ResourceVersion := ResourceVersion ref |}.

Definition VerifyPVCRebindRecovery (s : Switcher) (sessionID : string)
    (from to pvRef : ObjectReference) : kube (option err) :=
  if ((sessionID =s "") || (Namespace from =s "") || (Name from =s "") || (UID from =s "")
      || (Namespace to =s "") || (Name to =s "") || (Name pvRef =s "") || (UID pvRef =s ""))%bool then
    fail (NewError ErrorPrecondition "verify PVC rebind recovery"
      "session and storage identities are required") else
  r ← call (GetPVC (Namespace from) (Name from));
  match r with
  | inl _ =>
      fail (NewError ErrorConflict "verify PVC rebind recovery" "source PVC reappeared during recovery")
  | inr e =>
      if negb (IsNotFound e) then
        fail (WrapError ErrorKubernetes "verify PVC rebind recovery" "read source PVC" e) else
      let finish (to : ObjectReference) : kube (option err) :=
        check: ensureNoConsumers (Namespace from) (Name from);
        check: ensureNoConsumers (Namespace to) (Name to);
        ensureDetached s (Name pvRef) in
      t ← call (GetPVC (Namespace to) (Name to));
      match t with
      | inr e =>
          if IsNotFound e then
            check: verifyRetainedActivationPV sessionID from pvRef to;
            finish to
          else fail (WrapError ErrorKubernetes "verify PVC rebind recovery" "read destination PVC" e)
      | inl target =>
          if (bool_decide (pvc_DeletionTimestamp target <> None)
              || (mget (pvc_Annotations target) SessionKey <>s sessionID)
              || ((UID to <>s "") && (pvc_UID target <>s UID to)))%bool then
            fail (NewError ErrorConflict "verify PVC rebind recovery"
              "destination PVC identity or ownership changed") else
          v ← call (GetPV (Name pvRef));
          match v with
          | inr e => fail (WrapError ErrorKubernetes "verify PVC rebind recovery" "read retained PV" e)
          | inl pv =>
              if ((pv_UID pv <>s UID pvRef) || bool_decide (pv_DeletionTimestamp pv <> None)
                  || (mget (pv_Labels pv) SessionKey <>s sessionID)
                  || negb (bool_decide (pv_ReclaimPolicy pv = ReclaimRetain)))%bool then
                fail (NewError ErrorConflict "verify PVC rebind recovery"
                  (sprint ["PV "; Name pvRef; " identity, ownership, or retention changed"])) else
              let to := set_UID to (pvc_UID target) in
              check: verifyPVCAndPVIdentity to pvRef ResourceRoleActive sessionID None;
              finish to
          end
      end
  end.

(** [v1alpha1.PVCSourceTemplate] *)
Record PVCSourceTemplate := {
  template_Spec : PVCSpec;
  template_Metadata : PVCMetadata;
  template_ReclaimPolicy : ReclaimPolicy
}.

Definition VerifyPVCSourceSnapshot (claim volume : ObjectReference) (template : PVCSourceTemplate)
    : kube (option err) :=
  r ← call (GetPVC (Namespace claim) (Name claim));
  match r with
  | inr e => fail (WrapError ErrorKubernetes "verify source snapshot" "read source PVC" e)
  | inl pvc =>
      if ((pvc_UID pvc <>s UID claim) || negb (bool_decide (pvc_Spec pvc = template_Spec template)))%bool then
        fail (NewError ErrorConflict "verify source snapshot"
          "source PVC identity or spec changed since planning") else
      if (negb (bool_decide (pvc_Labels pvc = meta_Labels (template_Metadata template)))
          || negb (bool_decide (PVCAnnotationsForRecreation (pvc_Annotations pvc)
                                = meta_Annotations (template_Metadata template)))
          || negb (bool_decide (pvc_OwnerReferences pvc
                                = meta_OwnerReferences (template_Metadata template))))%bool then
        fail (NewError ErrorConflict "verify source snapshot"
          "source PVC metadata changed since planning") else
      v ← call (GetPV (Name volume));
      match v with
      | inr e => fail (WrapError ErrorKubernetes "verify source snapshot" "read source PV" e)
      | inl pv =>
          if ((pv_UID pv <>s UID volume)
              || negb (bool_decide (pv_ReclaimPolicy pv = template_ReclaimPolicy template)))%bool then
            fail (NewError ErrorConflict "verify source snapshot"
              "source PV identity or reclaim policy changed since planning")
          else Ret None
      end
  end.

Definition VerifyPVCRebind (s : Switcher) (id : string) (from to pv : ObjectReference)
    (recovering : bool) : kube (option err) :=
  if ((Namespace from =s "") || (Name from =s "") || (UID from =s "")
      || (Namespace to =s "") || (Name to =s "") || (Name pv =s "") || (UID pv =s "")
      || ((Namespace from =s Namespace to) && (Name from =s Name to)))%bool then
    fail (NewError ErrorValidation "rebind PVC"
      "distinct PVC endpoints and source PVC/PV identities are required") else
  r ← call (GetPVC (Namespace from) (Name from));
  match r with
  | inr e =>
      if (IsNotFound e && recovering)%bool then VerifyPVCRebindRecovery s id from to pv
      else fail (WrapError ErrorKubernetes "rebind PVC"
             (sprint ["read source PVC "; Namespace from; "/"; Name from]) e)
  | inl source =>
      if pvc_UID source <>s UID from then
        fail (NewError ErrorConflict "rebind PVC" "source PVC UID changed") else
      t ← call (GetPVC (Namespace to) (Name to));
      match t with
      | inl _ => fail (NewError ErrorConflict "rebind PVC" "both PVC endpoints exist")
      | inr e =>
          if negb (IsNotFound e) then
            fail (WrapError ErrorKubernetes "rebind PVC"
              (sprint ["read destination PVC "; Namespace to; "/"; Name to]) e)
          else VerifyPVCOffline s id from pv
      end
  end.
End verify.
