(* ===== verification/Activation.v ===== *)
(** * Cutover: internal/kube/switcher_activation.go, switcher_active_pvc.go,
    switcher_rollback.go and switcher_rename.go

    The activation checkpoint is a struct shared between the switcher and the
    caller, whose progress callback persists it: the functions that change it
    return the struct as they leave it together with their error, and the
    [Progress] request carries its content at the time of the call.  [progress]
    is false for a nil callback. *)

From S2P Require Import Prelude Utf8 GoErrors Lifecycle KubeTypes Prog Api ResourceState Ownership PVBinding Offline.

Definition checked := (ActivationStatus * option err)%type.

(** [if err := p; err != nil { return err }] in a function that owns the
    checkpoint [st]. *)
Definition check_st (st : ActivationStatus) (p : kube (option err)) (k : kube checked) : kube checked :=
  p ≫= fun e => match e with Some x => Ret (st, Some x) | None => k end.
Notation "'check[' st ] p ; k" := (check_st st p k)
  (at level 100, st at level 99, p at level 99, k at level 200, format "check[ st ]  p ; '//' k").

(** The same for a step that may change the checkpoint. *)
Definition step_st (p : kube checked) (k : ActivationStatus -> kube checked) : kube checked :=
  p ≫= fun r => match r with (st, Some x) => Ret (st, Some x) | (st, None) => k st end.
Notation "'step:' st ← p ; k" := (step_st p (fun st => k))
  (at level 100, st binder, p at level 99, k at level 200, format "step:  st  ←  p ; '//' k").

(** ** Checkpoints *)

Definition saveActivationCheckpoint (status previous : ActivationStatus) (progress : bool)
    : kube checked :=
  e ← fence;
  e ← match e with None => callProgress progress (Some status) | Some _ => Ret e end;
  Ret (match e with Some _ => previous | None => status end, e).

Definition with_TemporaryPVCDeleted (st : ActivationStatus) : ActivationStatus :=
  {| TemporaryPVCDeleted := true; SourcePVCDeleted := SourcePVCDeleted st;
     DestinationReserved := DestinationReserved st; ActivePVC := ActivePVC st;
     ActivatedAt := ActivatedAt st; RolledBackAt := RolledBackAt st |}.

Definition with_SourcePVCDeleted (st : ActivationStatus) : ActivationStatus :=
  {| TemporaryPVCDeleted := TemporaryPVCDeleted st; SourcePVCDeleted := true;
     DestinationReserved := DestinationReserved st; ActivePVC := ActivePVC st;
     ActivatedAt := ActivatedAt st; RolledBackAt := RolledBackAt st |}.

Definition with_DestinationReserved (st : ActivationStatus) : ActivationStatus :=
  {| TemporaryPVCDeleted := TemporaryPVCDeleted st; SourcePVCDeleted := SourcePVCDeleted st;
     DestinationReserved := true; ActivePVC := ActivePVC st;
     ActivatedAt := ActivatedAt st; RolledBackAt := RolledBackAt st |}.

Definition with_Activated (st : ActivationStatus) (ref : ObjectReference) (now : Time) : ActivationStatus :=
  {| TemporaryPVCDeleted := true; SourcePVCDeleted := true; DestinationReserved := true;
     ActivePVC := Some ref; ActivatedAt := Some now; RolledBackAt := RolledBackAt st |}.

Definition with_RolledBack (st : ActivationStatus) (ref : ObjectReference) (now : Time) : ActivationStatus :=
  {| TemporaryPVCDeleted := TemporaryPVCDeleted st; SourcePVCDeleted := SourcePVCDeleted st;
     DestinationReserved := DestinationReserved st;
     ActivePVC := Some ref; ActivatedAt := ActivatedAt st; RolledBackAt := Some now |}.

(** ** The claim that is created *)

(** [BoundPVCManifest]; the fields set by the server are empty. *)
Definition BoundPVCManifest (sessionID : string) (claim : ObjectReference) (pvName : string)
    (sourceSpec : PVCSpec) (metadata : PVCMetadata) : PVC :=
  {| pvc_Namespace := Namespace claim; pvc_Name := Name claim; pvc_UID := "";
     pvc_ResourceVersion := ""; pvc_DeletionTimestamp := None;
     pvc_Labels := <[SessionKey := sessionID]> (<[ManagedByLabel := ManagedByValue]> (meta_Labels metadata));
     pvc_Annotations :=
       <[SessionKey := sessionID]> (PVCAnnotationsForRecreation (meta_Annotations metadata));
     pvc_Finalizers := [];
     pvc_OwnerReferences := meta_OwnerReferences metadata;
     pvc_Spec :=
       {| spec_AccessModes := spec_AccessModes sourceSpec; spec_Selector := None;
          spec_StorageRequest := spec_StorageRequest sourceSpec; spec_VolumeName := pvName;
          spec_StorageClassName := Some (default "" (spec_StorageClassName sourceSpec));
          spec_VolumeMode := spec_VolumeMode sourceSpec; spec_DataSource := None;
          spec_DataSourceRef := None;
          spec_VolumeAttributesClassName := spec_VolumeAttributesClassName sourceSpec |};
     pvc_Phase := ClaimPhaseNone; pvc_AllocatedStorage := None;
     pvc_CurrentVolumeAttributesClass := None; pvc_TargetVolumeAttributesClass := None |}.

(** The labels and annotation that mark a claim of the session. *)
Definition session_marked (p : PVC) (sessionID : string) : bool :=
  ((mget (pvc_Labels p) ManagedByLabel =s ManagedByValue)
   && (mget (pvc_Labels p) SessionKey =s sessionID)
   && (mget (pvc_Annotations p) SessionKey =s sessionID))%bool.

Definition validateBoundPVC (pvc : PVC) : kube (option err) :=
  r ← call (CreatePVC pvc true);
  match r with
  | inr e =>
      fail (WrapError ErrorPrecondition "validate active PVC"
        (sprint ["server-side dry-run rejected "; pvc_Namespace pvc; "/"; pvc_Name pvc]) e)
  | inl _ => Ret None
  end.

Definition createBoundPVC (s : Switcher) (sessionID : string) (pvc : PVC) : kube (result PVC) :=
  check: fence;
  c ← call (CreatePVC pvc false);
  c ← match c with
      | inr e =>
          if IsAlreadyExists e then
            g ← call (GetPVC (pvc_Namespace pvc) (pvc_Name pvc));
            Ret match g with inl p => inl (Some p) | inr e => inr e end
          else Ret (inr e)
      | inl x => Ret (inl x)
      end;
  match c with
  | inr e =>
      fail (WrapError ErrorKubernetes "create active PVC"
        (sprint ["create "; pvc_Namespace pvc; "/"; pvc_Name pvc]) e)
  | inl created =>
      check: fence;
      match created with
      | None =>
          fail (NewError ErrorKubernetes "create active PVC"
            (sprint ["create "; pvc_Namespace pvc; "/"; pvc_Name pvc; " returned an object without a UID"]))
      | Some created =>
          if pvc_UID created =s "" then
            fail (NewError ErrorKubernetes "create active PVC"
              (sprint ["create "; pvc_Namespace pvc; "/"; pvc_Name pvc; " returned an object without a UID"])) else
          if ((pvc_VolumeName created <>s pvc_VolumeName pvc) || negb (session_marked created sessionID))%bool then
            fail (NewError ErrorConflict "create active PVC"
              (sprint ["PVC "; pvc_Namespace created; "/"; pvc_Name created;
                       " exists with an unexpected binding"])) else
          waitFor s (sprint ["PVC "; pvc_Namespace created; "/"; pvc_Name created; " binding to PV ";
                             pvc_VolumeName pvc])
            (g ← call (GetPVC (pvc_Namespace created) (pvc_Name created));
             Ret match g with
                 | inr e => inr e
                 | inl current =>
                     if pvc_UID current <>s pvc_UID created then
                       inr (NewError ErrorConflict "create active PVC"
                         (sprint ["PVC "; pvc_Namespace current; "/"; pvc_Name current;
                                  " was replaced while waiting for binding"]))
                     else if negb (session_marked current sessionID) then
                       inr (NewError ErrorConflict "create active PVC"
                         (sprint ["PVC "; pvc_Namespace current; "/"; pvc_Name current;
                                  " ownership changed while waiting for binding"]))
                     else if pvc_VolumeName current <>s pvc_VolumeName pvc then
                       inr (NewError ErrorConflict "create active PVC"
                         ("PVC bound to PV " +:+ pvc_VolumeName current))
                     else inl (bool_decide (pvc_Phase current = ClaimBound), current)
                 end)
      end
  end.

Section switch.
Context `{ConflictRetry} `{QuantityText}.

(** ** Activation *)

(** [nil, nil] of the code is [inl None]. *)
Definition activePVC (sessionID activateNamespace : string)
    (sourcePVC sourcePV destinationPV : ObjectReference) : kube (result (option PVC)) :=
  r ← call (GetPVC activateNamespace (Name sourcePVC));
  match r with
  | inr e =>
      if IsNotFound e then Ret (inl None)
      else fail (WrapError ErrorKubernetes "activate volume" "read application PVC" e)
  | inl pvc =>
      if ((pvc_UID pvc =s UID sourcePVC) && (pvc_VolumeName pvc =s Name sourcePV))%bool then
        check: verifyBinding (Some pvc) sourcePV;
        Ret (inl None)
      else if ((pvc_VolumeName pvc =s Name destinationPV)
               && (mget (pvc_Annotations pvc) SessionKey =s sessionID))%bool then
        Ret (inl (Some pvc))
      else
        fail (NewError ErrorConflict "activate volume"
          (sprint ["PVC "; pvc_Namespace pvc; "/"; pvc_Name pvc; " has unexpected UID or binding"]))
  end.

Definition validateActivePVCRequest (pvc : option PVC) (requiredCapacity : string) : option err :=
  match pvc with
  | None => Some (NewError ErrorValidation "active PVC" "PVC is required")
  | Some pvc =>
      let invalid (e : err) :=
        Some (NewError ErrorValidation "active PVC"
          (sprint ["destination capacity "; quoted requiredCapacity; " is invalid: "; error_text e])) in
      match ParseQuantity requiredCapacity with
      | inr e => invalid e
      | inl capacity =>
          if Z.leb capacity 0 then invalid (EText "capacity must be positive") else
          let mismatch (actual : string) :=
            Some (NewError ErrorConflict "active PVC"
              (sprint ["PVC "; pvc_Namespace pvc; "/"; pvc_Name pvc; " requests "; actual;
                       ", session requires "; quantity_string capacity])) in
          match spec_StorageRequest (pvc_Spec pvc) with
          | None => mismatch "missing"
          | Some requested =>
              if Z.eqb requested capacity then None else mismatch (quantity_string requested)
          end
      end
  end.

(** [desired.Spec.Resources.Requests[storage]]: the zero quantity when absent. *)
Definition desired_capacity (desired : PVC) : Quantity :=
  default 0%Z (spec_StorageRequest (pvc_Spec desired)).

Definition completeActivation (sessionID : string) (volume : PVCTransferBindings) (desired : PVC)
    (status : ActivationStatus) (pvc : PVC) (progress : bool) : kube checked :=
  check[ status ] Ret (validateActivePVCRequest (Some pvc) (quantity_string (desired_capacity desired)));
  check[ status ] verifyBinding (Some pvc) (DestinationPV volume);
  check[ status ] markPVPair sessionID (SourcePV volume) (DestinationPV volume) false;
  now ← call Now;
  saveActivationCheckpoint (with_Activated status (PVCReference (Some pvc)) now) status progress.

Definition validateTemporaryActivationPVC (temporaryPVC : PVC) (volume : PVCTransferBindings)
    (status : ActivationStatus) : kube (option err) :=
  if TemporaryPVCDeleted status then
    fail (NewError ErrorConflict "activate volume"
      (sprint ["temporary destination PVC "; pvc_Namespace temporaryPVC; "/"; pvc_Name temporaryPVC;
               " reappeared after its deletion checkpoint"])) else
  if pvc_UID temporaryPVC <>s UID (DestinationPVC volume) then
    fail (NewError ErrorConflict "activate volume"
      (sprint ["temporary destination PVC "; pvc_Namespace temporaryPVC; "/"; pvc_Name temporaryPVC;
               " UID changed"])) else
  verifyBinding (Some temporaryPVC) (DestinationPV volume).

Definition deleteTemporaryActivationPVC (s : Switcher) (volume : PVCTransferBindings)
    (status : ActivationStatus) (progress : bool) : kube checked :=
  if TemporaryPVCDeleted status then Ret (status, None) else
  check[ status ] deletePVC s (DestinationPVC volume);
  check[ status ] ensureDetached s (Name (DestinationPV volume));
  saveActivationCheckpoint (with_TemporaryPVCDeleted status) status progress.

Definition deleteSourceActivationPVC (s : Switcher) (volume : PVCTransferBindings)
    (status : ActivationStatus) (progress : bool) : kube checked :=
  if SourcePVCDeleted status then Ret (status, None) else
  check[ status ] deletePVC s (SourcePVC volume);
  check[ status ] ensureDetached s (Name (SourcePV volume));
  saveActivationCheckpoint (with_SourcePVCDeleted status) status progress.

Definition reserveActivationDestination (s : Switcher) (sessionID : string) (volume : PVCTransferBindings)
    (desired : PVC) (status : ActivationStatus) (progress : bool) : kube checked :=
  if DestinationReserved status then Ret (status, None) else
  check[ status ] validateBoundPVC desired;
  check[ status ] reservePV s (DestinationPV volume) (pvc_Namespace desired) (pvc_Name desired) sessionID;
  saveActivationCheckpoint (with_DestinationReserved status) status progress.

Definition activateVolumeResources (s : Switcher) (sessionID activateNamespace : string)
    (volume : PVCTransferBindings) (desired : PVC) (status : ActivationStatus) (progress : bool)
    : kube checked :=
  check[ status ] ensureNoConsumers (Namespace (SourcePVC volume)) (Name (SourcePVC volume));
  check[ status ] ensureNoConsumers (Namespace (DestinationPVC volume)) (Name (DestinationPVC volume));
  check[ status ] ensureDetached s (Name (SourcePV volume));
  check[ status ] ensureDetached s (Name (DestinationPV volume));
  a ← activePVC sessionID activateNamespace (SourcePVC volume) (SourcePV volume) (DestinationPV volume);
  match a with
  | inr e => Ret (status, Some e)
  | inl (Some active) => completeActivation sessionID volume desired status active progress
  | inl None =>
      check[ status ] ensureRetain (SourcePV volume) sessionID ResourceRoleSource;
      check[ status ] ensureRetain (DestinationPV volume) sessionID ResourceRoleDestination;
      step: status ← deleteTemporaryActivationPVC s volume status progress;
      step: status ← deleteSourceActivationPVC s volume status progress;
      step: status ← reserveActivationDestination s sessionID volume desired status progress;
      c ← createBoundPVC s sessionID desired;
      match c with
      | inr e => Ret (status, Some e)
      | inl created => completeActivation sessionID volume desired status created progress
      end
  end.

(** The refusals of [ActivatePVC] before any request; [desired] and [status] are
    pointers that may be nil. *)
Definition validateActivatePVC (sessionID activateNamespace : string) (volume : PVCTransferBindings)
    (desired : option PVC) (status : option ActivationStatus)
    : result (PVC * ActivationStatus) :=
  match desired, status with
  | Some desired, Some status =>
      if ((sessionID =s "") || (activateNamespace =s ""))%bool then
        inr (NewError ErrorValidation "activate PVC"
          "workflow ID, activate namespace, desired PVC and activation checkpoint are required")
      else if ((Namespace (SourcePVC volume) =s "") || (Name (SourcePVC volume) =s "")
          || (UID (SourcePVC volume) =s "") || (Name (SourcePV volume) =s "")
          || (UID (SourcePV volume) =s "") || (Namespace (DestinationPVC volume) =s "")
          || (Name (DestinationPVC volume) =s "") || (UID (DestinationPVC volume) =s "")
          || (Name (DestinationPV volume) =s "") || (UID (DestinationPV volume) =s ""))%bool then
        inr (NewError ErrorPrecondition "activate PVC"
          "source and destination PVC/PV identities are required")
      else if ((pvc_Namespace desired <>s activateNamespace)
          || (pvc_Name desired <>s Name (SourcePVC volume))
          || (pvc_VolumeName desired <>s Name (DestinationPV volume))
          || (mget (pvc_Labels desired) SessionKey <>s sessionID)
          || (mget (pvc_Annotations desired) SessionKey <>s sessionID)
          || (mget (pvc_Labels desired) ManagedByLabel <>s ManagedByValue))%bool then
        inr (NewError ErrorConflict "activate PVC"
          "desired PVC differs from the recorded cutover identity or ownership")
      else if Z.leb (desired_capacity desired) 0 then
        inr (NewError ErrorValidation "activate PVC" "desired PVC capacity must be positive")
      else inl (desired, status)
  | _, _ =>
      inr (NewError ErrorValidation "activate PVC"
        "workflow ID, activate namespace, desired PVC and activation checkpoint are required")
  end.

Definition ActivatePVC (s : Switcher) (sessionID activateNamespace : string)
    (volume : PVCTransferBindings) (desired : option PVC) (status : option ActivationStatus)
    (progress : bool) : kube (option ActivationStatus * option err) :=
  match validateActivatePVC sessionID activateNamespace volume desired status with
  | inr e => Ret (status, Some e)
  | inl (desired, st) =>
      r ← (check[ st ] fence;
           t ← call (GetPVC (Namespace (DestinationPVC volume)) (Name (DestinationPVC volume)));
           let resources := activateVolumeResources s sessionID activateNamespace volume desired st progress in
           match t with
           | inr e =>
               if negb (IsNotFound e) then
                 Ret (st, Some (WrapError ErrorKubernetes "activate PVC" "read temporary destination PVC" e))
               else resources
           | inl temporaryPVC =>
               check[ st ] validateTemporaryActivationPVC temporaryPVC volume st;
               resources
           end);
      Ret (Some r.1, r.2)
  end.

(** ** Rollback *)

Definition completeRollback (sessionID : string) (volume : PVCTransferBindings)
    (status : ActivationStatus) (pvc : PVC) (progress : bool) : kube checked :=
  check[ status ] verifyBinding (Some pvc) (SourcePV volume);
  check[ status ] markPVPair sessionID (SourcePV volume) (DestinationPV volume) true;
  now ← call Now;
  saveActivationCheckpoint (with_RolledBack status (PVCReference (Some pvc)) now) status progress.

Definition removeActiveDestination (s : Switcher) (sessionID : string) (volume : PVCTransferBindings)
    (current : PVC) : kube (option err) :=
  if ((pvc_VolumeName current <>s Name (DestinationPV volume))
      || (mget (pvc_Annotations current) SessionKey <>s sessionID))%bool then
    fail (NewError ErrorConflict "rollback volume"
      (sprint ["PVC "; pvc_Namespace current; "/"; pvc_Name current;
               " is not the session's active destination"])) else
  check: verifyBinding (Some current) (DestinationPV volume);
  check: ensureRetain (DestinationPV volume) sessionID ResourceRoleDestination;
  check: deletePVC s {| APIVersion := ""; Kind := ""; Namespace := pvc_Namespace current;
                        Name := pvc_Name current; UID := pvc_UID current;
                        ResourceVersion := pvc_ResourceVersion current |};
  ensureDetached s (Name (DestinationPV volume)).

Definition validateRollbackPVC (sessionID : string) (volume : PVCTransferBindings)
    (desired : option PVC) (status : option ActivationStatus) : result (PVC * ActivationStatus) :=
  match desired, status with
  | Some desired, Some status =>
      if sessionID =s "" then
        inr (NewError ErrorValidation "rollback PVC"
          "workflow ID, desired PVC and activation checkpoint are required")
      else if ((Namespace (SourcePVC volume) =s "") || (Name (SourcePVC volume) =s "")
          || (UID (SourcePVC volume) =s "") || (Name (SourcePV volume) =s "")
          || (UID (SourcePV volume) =s "") || (Name (DestinationPV volume) =s "")
          || (UID (DestinationPV volume) =s ""))%bool then
        inr (NewError ErrorPrecondition "rollback PVC"
          "source PVC and source/destination PV identities are required")
      else if ((pvc_Namespace desired <>s Namespace (SourcePVC volume))
          || (pvc_Name desired <>s Name (SourcePVC volume))
          || (pvc_VolumeName desired <>s Name (SourcePV volume))
          || (mget (pvc_Labels desired) SessionKey <>s sessionID)
          || (mget (pvc_Annotations desired) SessionKey <>s sessionID)
          || (mget (pvc_Labels desired) ManagedByLabel <>s ManagedByValue))%bool then
        inr (NewError ErrorConflict "rollback PVC"
          "desired PVC differs from the recorded rollback identity or ownership")
      else if Z.leb (desired_capacity desired) 0 then
        inr (NewError ErrorValidation "rollback PVC" "desired PVC capacity must be positive")
      else inl (desired, status)
  | _, _ =>
      inr (NewError ErrorValidation "rollback PVC"
        "workflow ID, desired PVC and activation checkpoint are required")
  end.

(** Retiring the activated claim of a cross-namespace workflow. *)
Definition rollback_foreign (s : Switcher) (sessionID activateNamespace : string)
    (volume : PVCTransferBindings) : kube (option err) :=
  if activateNamespace =s Namespace (SourcePVC volume) then Ret None else
  r ← call (GetPVC activateNamespace (Name (SourcePVC volume)));
  match r with
  | inr e =>
      if IsNotFound e then Ret None
      else fail (WrapError ErrorKubernetes "rollback volume"
             (sprint ["read PVC "; activateNamespace; "/"; Name (SourcePVC volume)]) e)
  | inl active => removeActiveDestination s sessionID volume active
  end.

Definition rollback_rebind (s : Switcher) (sessionID : string) (volume : PVCTransferBindings)
    (manifest : PVC) (status : ActivationStatus) (progress : bool) : kube checked :=
  check[ status ] ensureRetain (SourcePV volume) sessionID ResourceRoleSource;
  check[ status ] ensureRetain (DestinationPV volume) sessionID ResourceRoleDestination;
  check[ status ] validateBoundPVC manifest;
  check[ status ] reservePV s (SourcePV volume) (Namespace (SourcePVC volume)) (Name (SourcePVC volume))
                    sessionID;
  c ← createBoundPVC s sessionID manifest;
  match c with
  | inr e => Ret (status, Some e)
  | inl recreated => completeRollback sessionID volume status recreated progress
  end.

Definition RollbackPVC (s : Switcher) (sessionID activateNamespace : string)
    (volume : PVCTransferBindings) (desired : option PVC) (status : option ActivationStatus)
    (progress : bool) : kube (option ActivationStatus * option err) :=
  match validateRollbackPVC sessionID volume desired status with
  | inr e => Ret (status, Some e)
  | inl (manifest, st) =>
      r ← (check[ st ] fence;
           check[ st ] rollback_foreign s sessionID activateNamespace volume;
           check[ st ] ensureNoConsumers (Namespace (SourcePVC volume)) (Name (SourcePVC volume));
           c ← call (GetPVC (Namespace (SourcePVC volume)) (Name (SourcePVC volume)));
           match c with
           | inl current =>
               if pvc_VolumeName current =s Name (SourcePV volume) then
                 let original := pvc_UID current =s UID (SourcePVC volume) in
                 let recovered := mget (pvc_Annotations current) SessionKey =s sessionID in
                 if (negb original && negb recovered)%bool then
                   Ret (st, Some (NewError ErrorConflict "rollback volume"
                     (sprint ["PVC "; pvc_Namespace current; "/"; pvc_Name current;
                              " is not the original or session-owned source PVC"])))
                 else completeRollback sessionID volume st current progress
               else
                 check[ st ] removeActiveDestination s sessionID volume current;
                 rollback_rebind s sessionID volume manifest st progress
           | inr e =>
               if negb (IsNotFound e) then
                 Ret (st, Some (WrapError ErrorKubernetes "rollback volume" "read active PVC" e))
               else rollback_rebind s sessionID volume manifest st progress
           end);
      Ret (Some r.1, r.2)
  end.

(** ** Renaming a claim *)

Definition validateRenamePVCRequest (sessionID : string) (sourcePVC sourcePV : ObjectReference)
    (destination : option PVC) : result PVC :=
  match destination with
  | None => inr (NewError ErrorValidation "rename PVC" "session and volume are required")
  | Some destination =>
      if sessionID =s "" then
        inr (NewError ErrorValidation "rename PVC" "session and volume are required")
      else if ((Namespace sourcePVC =s "") || (Name sourcePVC =s "") || (UID sourcePVC =s "")
          || (Name sourcePV =s "") || (UID sourcePV =s "")
          || (pvc_Namespace destination =s "") || (pvc_Name destination =s ""))%bool then
        inr (NewError ErrorPrecondition "rename PVC"
          "source PVC/PV identity and destination PVC name are required")
      else if ((pvc_VolumeName destination <>s Name sourcePV)
          || negb (session_marked destination sessionID))%bool then
        inr (NewError ErrorValidation "rename PVC"
          "destination manifest must retain the source PV and identify its owning session")
      else inl destination
  end.

(** The source claim, if it still exists, must be the recorded one and bound to
    the recorded volume. *)
Definition rename_source (sourcePVC sourcePV : ObjectReference) : kube (result (option PVC)) :=
  r ← call (GetPVC (Namespace sourcePVC) (Name sourcePVC));
  match r with
  | inr e =>
      if IsNotFound e then Ret (inl None)
      else fail (WrapError ErrorKubernetes "rename PVC" "read source PVC" e)
  | inl source =>
      if pvc_UID source <>s UID sourcePVC then
        fail (NewError ErrorConflict "rename PVC"
          (sprint ["source PVC "; pvc_Namespace source; "/"; pvc_Name source; " UID changed"])) else
      check: verifyBinding (Some source) sourcePV;
      Ret (inl (Some source))
  end.

(** The branch of a destination claim that already exists. *)
Definition rename_existing (sessionID : string) (sourcePV : ObjectReference) (source : option PVC)
    (existing : PVC) : kube (result PVC) :=
  let both :=
    match source with
    | Some src =>
        ((pvc_Namespace src <>s pvc_Namespace existing) || (pvc_Name src <>s pvc_Name existing))%bool
    | None => false
    end in
  if both then
    fail (NewError ErrorConflict "rename PVC"
      (sprint ["both source PVC "; default "" (pvc_Namespace <$> source); "/";
               default "" (pvc_Name <$> source); " and destination PVC ";
               pvc_Namespace existing; "/"; pvc_Name existing; " exist"])) else
  if ((pvc_VolumeName existing =s Name sourcePV)
      && (mget (pvc_Annotations existing) SessionKey =s sessionID))%bool then
    check: ensureNoConsumers (pvc_Namespace existing) (pvc_Name existing);
    check: verifyBinding (Some existing) sourcePV;
    check: ensureRetain sourcePV sessionID ResourceRoleActive;
    Ret (inl existing)
  else
    fail (NewError ErrorConflict "rename PVC"
      (sprint ["destination PVC "; pvc_Namespace existing; "/"; pvc_Name existing; " already exists"])).

Definition pvc_set_VolumeName (p : PVC) (name : string) : PVC :=
  {| pvc_Namespace := pvc_Namespace p; pvc_Name := pvc_Name p; pvc_UID := pvc_UID p;
     pvc_ResourceVersion := pvc_ResourceVersion p; pvc_DeletionTimestamp := pvc_DeletionTimestamp p;
     pvc_Labels := pvc_Labels p; pvc_Annotations := pvc_Annotations p;
     pvc_Finalizers := pvc_Finalizers p; pvc_OwnerReferences := pvc_OwnerReferences p;
     pvc_Spec :=
       {| spec_AccessModes := spec_AccessModes (pvc_Spec p); spec_Selector := spec_Selector (pvc_Spec p);
          spec_StorageRequest := spec_StorageRequest (pvc_Spec p); spec_VolumeName := name;
          spec_StorageClassName := spec_StorageClassName (pvc_Spec p);
          spec_VolumeMode := spec_VolumeMode (pvc_Spec p);
          spec_DataSource := spec_DataSource (pvc_Spec p);
          spec_DataSourceRef := spec_DataSourceRef (pvc_Spec p);
          spec_VolumeAttributesClassName := spec_VolumeAttributesClassName (pvc_Spec p) |};
     pvc_Phase := pvc_Phase p; pvc_AllocatedStorage := pvc_AllocatedStorage p;
     pvc_CurrentVolumeAttributesClass := pvc_CurrentVolumeAttributesClass p;
     pvc_TargetVolumeAttributesClass := pvc_TargetVolumeAttributesClass p |}.

Definition rename_rebind (s : Switcher) (sessionID : string) (sourcePVC sourcePV : ObjectReference)
    (destination : PVC) (progress : bool) : kube (result PVC) :=
  check: ensureRetain sourcePV sessionID ResourceRoleRename;
  check: deletePVC s sourcePVC;
  check: ensureDetached s (Name sourcePV);
  check: callProgress progress None;
  let destination := pvc_set_VolumeName destination (Name sourcePV) in
  check: validateBoundPVC destination;
  check: reservePV s sourcePV (pvc_Namespace destination) (pvc_Name destination) sessionID;
  try: created ← createBoundPVC s sessionID destination;
  check: verifyBinding (Some created) sourcePV;
  check: ensureRetain sourcePV sessionID ResourceRoleActive;
  Ret (inl created).

Definition RenamePVC (s : Switcher) (sessionID : string) (sourcePVC sourcePV : ObjectReference)
    (destination : option PVC) (progress : bool) : kube (result PVC) :=
  try: destination ← Ret (validateRenamePVCRequest sessionID sourcePVC sourcePV destination);
  check: ensureNoConsumers (Namespace sourcePVC) (Name sourcePVC);
  try: source ← rename_source sourcePVC sourcePV;
  r ← call (GetPVC (pvc_Namespace destination) (pvc_Name destination));
  match r with
  | inl existing => rename_existing sessionID sourcePV source existing
  | inr e =>
      if negb (IsNotFound e) then
        fail (WrapError ErrorKubernetes "rename PVC" "read destination PVC" e)
      else rename_rebind s sessionID sourcePVC sourcePV destination progress
  end.
End switch.
