(* ===== verification/MigrationStorage.v ===== *)
(** * Storage checks of the migration executor

    internal/app/migration_storage_identity.go, storage_rollback_recovery.go,
    migration_rollback_consumers.go, migration_pvc.go, migration_activation_admission.go
    and the admission preflight of workflow_support.go: what the executor reads before
    and after the switcher changes a volume.  [deleting] is
    [workflowDeletionInProgress] of the context. *)

From S2P Require Import Prelude Utf8 GoErrors Lifecycle PhaseMachines KubeTypes Prog Api ResourceState Ownership PVBinding NodeSelection GoFormat Quota PVCPolicy Reserver TransferPath MigrationObject Offline Activation.

Definition verifyMigrationPhase : string := "verify migration".
Definition verifyRollbackPhase : string := "verify rollback".
Definition verifySourceStoragePhase : string := "verify source storage".
Definition activationPreflightPhase : string := "activation preflight".

Definition incomplete (ref : ObjectReference) : bool :=
  ((Namespace ref =s "") || (Name ref =s "") || (UID ref =s ""))%bool.

(** ** Verification of a bound pair *)

Section checks.
Context (deleting : bool).

Definition deletionTolerantRead (e : err) : bool := (IsNotFound e && deleting)%bool.

(** Read a claim, then the volume it is bound to, and compare both with the record.
    [what] is "source", "restored" or "active" as in the messages; [check] the test
    on the claim. *)
Definition verify_pv (op what : string) (pvc : PVC) (expectedPV : ObjectReference) : kube (option err) :=
  g ← call (GetPV (Name expectedPV));
  Ret match g with
      | inr e =>
          if deletionTolerantRead e then None
          else Some (WrapError ErrorKubernetes op (sprint ["read "; what; " PV "; Name expectedPV]) e)
      | inl pv =>
          if pv_Name pv =s "" then
            Some (NewError ErrorKubernetes op
              (sprint ["read "; what; " PV "; Name expectedPV; " returned an empty object"]))
          else if ((pv_UID pv <>s UID expectedPV) || negb (claimref_matches pv pvc))%bool then
            Some (NewError ErrorConflict op (sprint [what; " PV "; pv_Name pv; " identity or claimRef changed"]))
          else None
      end.

Definition verifySourceStorage (sourcePVC sourcePV : ObjectReference) : kube (option err) :=
  let op := verifySourceStoragePhase in
  let at_ := sprint [Namespace sourcePVC; "/"; Name sourcePVC] in
  if incomplete sourcePVC then fail (NewError ErrorPrecondition op "source PVC reference is incomplete") else
  if ((Name sourcePV =s "") || (UID sourcePV =s ""))%bool then
    fail (NewError ErrorPrecondition op (sprint ["source PV reference for PVC "; at_; " is incomplete"])) else
  g ← call (GetPVC (Namespace sourcePVC) (Name sourcePVC));
  match g with
  | inr e =>
      if deletionTolerantRead e then Ret None
      else fail (WrapError ErrorKubernetes op (sprint ["read source PVC "; at_]) e)
  | inl pvc =>
      if pvc_Name pvc =s "" then
        fail (NewError ErrorKubernetes op (sprint ["read source PVC "; at_; " returned an empty object"])) else
      if ((pvc_UID pvc <>s UID sourcePVC) || negb (bool_decide (pvc_Phase pvc = ClaimBound))
          || (pvc_VolumeName pvc <>s Name sourcePV))%bool then
        fail (NewError ErrorConflict op
          (sprint ["source PVC "; pvc_Namespace pvc; "/"; pvc_Name pvc; " identity or binding changed"])) else
      verify_pv op "source" pvc sourcePV
  end.

Definition verifyRollbackStorageVolume (sessionID : string) (sourcePVC expectedPV : ObjectReference)
    (active : option ObjectReference) : kube (option err) :=
  let op := verifyRollbackPhase in
  let at_ := sprint [Namespace sourcePVC; "/"; Name sourcePVC] in
  match active with
  | None => fail (NewError ErrorPrecondition op (sprint ["PVC "; at_; " has no recorded restored identity"]))
  | Some active =>
      if incomplete active then
        fail (NewError ErrorPrecondition op (sprint ["PVC "; at_; " has no recorded restored identity"])) else
      if ((Namespace active <>s Namespace sourcePVC) || (Name active <>s Name sourcePVC))%bool then
        fail (NewError ErrorConflict op
          (sprint ["recorded restored PVC "; Namespace active; "/"; Name active;
                   " does not match source PVC "; at_])) else
      if ((Name expectedPV =s "") || (UID expectedPV =s ""))%bool then
        fail (NewError ErrorPrecondition op (sprint ["PVC "; at_; " has no recorded source PV identity"])) else
      g ← call (GetPVC (Namespace active) (Name active));
      match g with
      | inr e =>
          if deletionTolerantRead e then Ret None
          else fail (WrapError ErrorKubernetes op
                 (sprint ["read restored PVC "; Namespace active; "/"; Name active]) e)
      | inl pvc =>
          if pvc_Name pvc =s "" then
            fail (NewError ErrorKubernetes op
              (sprint ["read restored PVC "; Namespace active; "/"; Name active; " returned an empty object"])) else
          if ((pvc_UID pvc <>s UID active) || negb (bool_decide (pvc_Phase pvc = ClaimBound))
              || (pvc_VolumeName pvc <>s Name expectedPV))%bool then
            fail (NewError ErrorConflict op
              (sprint ["restored PVC "; pvc_Namespace pvc; "/"; pvc_Name pvc; " identity or binding changed"])) else
          if ((pvc_UID pvc <>s UID sourcePVC) && (mget (pvc_Annotations pvc) SessionKey <>s sessionID))%bool then
            fail (NewError ErrorConflict op
              (sprint ["restored PVC "; pvc_Namespace pvc; "/"; pvc_Name pvc;
                       " is not the original or session-owned PVC"])) else
          verify_pv op "restored" pvc expectedPV
      end
  end.

Definition verifyActiveStorageVolume (sessionID : string) (sourcePVC : ObjectReference) (destinationNamespace : string)
    (expectedPV : ObjectReference) (active : option ObjectReference) : kube (option err) :=
  let op := verifyMigrationPhase in
  let at_ := sprint [Namespace sourcePVC; "/"; Name sourcePVC] in
  let landed := sprint [destinationNamespace; "/"; Name sourcePVC] in
  match active with
  | None => fail (NewError ErrorPrecondition op (sprint ["PVC "; at_; " has no recorded active identity"]))
  | Some active =>
      if incomplete active then
        fail (NewError ErrorPrecondition op (sprint ["PVC "; at_; " has no recorded active identity"])) else
      if ((Namespace active <>s destinationNamespace) || (Name active <>s Name sourcePVC))%bool then
        fail (NewError ErrorConflict op
          (sprint ["recorded active PVC "; Namespace active; "/"; Name active;
                   " does not match activated PVC "; landed])) else
      if ((Name expectedPV =s "") || (UID expectedPV =s ""))%bool then
        fail (NewError ErrorPrecondition op (sprint ["PVC "; at_; " has no recorded destination PV identity"])) else
      g ← call (GetPVC destinationNamespace (Name sourcePVC));
      match g with
      | inr e =>
          if deletionTolerantRead e then Ret None
          else fail (WrapError ErrorKubernetes op (sprint ["read PVC "; landed]) e)
      | inl pvc =>
          let name := sprint [pvc_Namespace pvc; "/"; pvc_Name pvc] in
          if pvc_Name pvc =s "" then
            fail (NewError ErrorKubernetes op (sprint ["read PVC "; landed; " returned an empty object"])) else
          match pvc_DeletionTimestamp pvc, deleting with
          | Some t, false =>
              fail (NewError ErrorPrecondition op
                (sprint ["active PVC "; name; " is terminating (deletion requested at "; RFC3339 t;
                         "); the workload cannot resume onto it"]))
          | _, _ =>
              if (negb (bool_decide (pvc_Phase pvc = ClaimBound)) || (pvc_VolumeName pvc <>s Name expectedPV)
                  || (mget (pvc_Annotations pvc) SessionKey <>s sessionID))%bool then
                fail (NewError ErrorConflict op
                  (sprint ["PVC "; name; " is not active on destination PV "; Name expectedPV])) else
              if pvc_UID pvc <>s UID active then
                fail (NewError ErrorConflict op (sprint ["active PVC "; name; " UID changed"])) else
              verify_pv op "active" pvc expectedPV
          end
      end
  end.
End checks.

(** The active claim found by its name, before it was recorded; [true] when the claim
    exists at all. *)
Definition unrecordedActivePVC (sourcePVC sourcePV : ObjectReference) (destinationNamespace : string)
    : kube (result (option ObjectReference * bool)) :=
  let op := verifyMigrationPhase in
  let landed := sprint [destinationNamespace; "/"; Name sourcePVC] in
  g ← call (GetPVC destinationNamespace (Name sourcePVC));
  match g with
  | inr e =>
      if IsNotFound e then Ret (inl (None, false))
      else Ret (inr (WrapError ErrorKubernetes op (sprint ["read PVC "; landed]) e))
  | inl pvc =>
      if pvc_Name pvc =s "" then
        Ret (inr (NewError ErrorKubernetes op (sprint ["read PVC "; landed; " returned an empty object"]))) else
      if ((pvc_UID pvc =s UID sourcePVC) && (pvc_VolumeName pvc =s Name sourcePV))%bool
      then Ret (inl (None, true)) else Ret (inl (Some (PVCReference (Some pvc)), true))
  end.

Definition validateUnrecordedRollbackStorage `{QuantityText} (deleting : bool) (s : Switcher) (sessionID : string)
    (sourcePVC sourcePV destinationPV : ObjectReference) (active : option ObjectReference)
    : kube (result bool) :=
  g ← call (GetPVC (Namespace sourcePVC) (Name sourcePVC));
  let recovered (e : option err) : result bool := match e with Some x => inr x | None => inl true end in
  match g with
  | inr e =>
      if negb (IsNotFound e)
      then Ret (inr (WrapError ErrorKubernetes verifyRollbackPhase "read rollback PVC" e)) else
      match active with
      | None => Ret (inl false)
      | Some active =>
          if ((Name active =s "") || (UID active =s ""))%bool then Ret (inl false) else
          e ← VerifyActivationRecovery s sessionID
                [{| SourcePVC := active; SourcePV := destinationPV; DestinationPVC := sourcePVC;
                    DestinationPV := sourcePV |}];
          Ret (recovered e)
      end
  | inl pvc =>
      if pvc_VolumeName pvc <>s Name sourcePV then Ret (inl false) else
      e ← verifyRollbackStorageVolume deleting sessionID sourcePVC sourcePV (Some (PVCReference (Some pvc)));
      Ret (recovered e)
  end.

(** ** Consumers of the destination *)

Definition consumes (sessionID pvcName : string) (pod : Pod) : bool :=
  (((pod_Phase pod =s "Running") || (pod_Phase pod =s "Pending"))
   && negb ((mget (pod_Labels pod) "app.kubernetes.io/managed-by" =s "pvc-migrate")
            && (mget (pod_Labels pod) "migrate.sealos.io/session" =s sessionID))
   && PodUsesPVC pod pvcName)%bool.

(** A list call without an error returns a list. *)
Definition rollbackDestinationConsumed (namespace pvcName sessionID : string) : kube (option err) :=
  l ← call (ListPods namespace);
  match l with
  | inr e =>
      fail (WrapError ErrorKubernetes "migration rollback"
        (sprint ["list pods in "; namespace; " for destination consumer check"]) e)
  | inl pods =>
      match map pod_Name (List.filter (consumes sessionID pvcName) (default [] pods)) with
      | [] => Ret None
      | consumers =>
          fail (NewError ErrorConflict "migration rollback"
            (sprint ["destination PVC "; namespace; "/"; pvcName; " is still in use by pod(s) [";
                     strings_join " " consumers; "]; stop these consumers before rolling back"]))
      end
  end.

(** ** Manifests and admission *)

Section manifests.
Context `{QT : QuantityText}.

(** The claim of the source's name on the destination volume. *)
Definition migrationPVCManifest (workflowID : string) (sourcePVC sourcePV destinationPV : ObjectReference)
    (destinationNamespace : string) (sourceSpec : PVCSpec) (metadata : PVCMetadata) (storageClass capacity : string)
    : result PVC :=
  match ParseQuantity capacity with
  | inl quantity =>
      if Z.leb quantity 0 then
        inr (NewError ErrorValidation "active PVC"
          (sprint ["destination capacity "; quoted capacity; " must be a positive quantity"]))
      else
        let claim := {| APIVersion := APIVersion sourcePVC; Kind := Kind sourcePVC;
                        Namespace := destinationNamespace; Name := Name sourcePVC; UID := UID sourcePVC;
                        ResourceVersion := ResourceVersion sourcePVC |} in
        let pvc := BoundPVCManifest workflowID claim (Name destinationPV) sourceSpec metadata in
        let spec := pvc_Spec pvc in
        inl {| pvc_Namespace := pvc_Namespace pvc; pvc_Name := pvc_Name pvc; pvc_UID := pvc_UID pvc;
               pvc_ResourceVersion := pvc_ResourceVersion pvc; pvc_DeletionTimestamp := pvc_DeletionTimestamp pvc;
               pvc_Labels := pvc_Labels pvc;
               pvc_Annotations := <[RollbackPVAnnotation := Name sourcePV]> (pvc_Annotations pvc);
               pvc_Finalizers := pvc_Finalizers pvc; pvc_OwnerReferences := pvc_OwnerReferences pvc;
               pvc_Spec :=
                 {| spec_AccessModes := spec_AccessModes spec; spec_Selector := spec_Selector spec;
                    spec_StorageRequest := Some quantity; spec_VolumeName := spec_VolumeName spec;
                    spec_StorageClassName := Some storageClass; spec_VolumeMode := spec_VolumeMode spec;
                    spec_DataSource := spec_DataSource spec; spec_DataSourceRef := spec_DataSourceRef spec;
                    spec_VolumeAttributesClassName := spec_VolumeAttributesClassName spec |};
               pvc_Phase := pvc_Phase pvc; pvc_AllocatedStorage := pvc_AllocatedStorage pvc;
               pvc_CurrentVolumeAttributesClass := pvc_CurrentVolumeAttributesClass pvc;
               pvc_TargetVolumeAttributesClass := pvc_TargetVolumeAttributesClass pvc |}
  | inr _ =>
      inr (NewError ErrorValidation "active PVC"
        (sprint ["destination capacity "; quoted capacity; " must be a positive quantity"]))
  end.

Definition migrationActivationAdmission (namespace : string) (volume : VolumeSpec) (sourceExists : bool)
    : result PVCAdmissionChange :=
  let refuse := inr (NewError ErrorValidation "migration activation" "destination capacity must be positive") in
  match ParseQuantity (vs_Capacity volume) with
  | inr _ => refuse
  | inl quantity =>
      if Z.leb quantity 0 then refuse else
      let attributes := RequestedVolumeAttributesClassNames (vs_SourcePVCSpec volume) in
      inl {| change_Namespace := namespace; change_Name := planned_name volume; RequestedStorage := quantity;
             RequestedStorageClass := vs_StorageClass volume; Existing := sourceExists;
             ExistingUID := local_UID (vs_SourcePVC volume);
             ExistingStorage := default 0%Z (spec_StorageRequest (vs_SourcePVCSpec volume));
             ExistingStorageClass := default "" (spec_StorageClassName (vs_SourcePVCSpec volume));
             RequestedClassNames := attributes; ExistingClassNames := attributes |}
  end.

(** The executor groups its changes under one namespace, the destination's; no
    change, no group. *)
Definition validateMigrationPVCAdmission (namespace : string) (changes : list PVCAdmissionChange) : kube (option err) :=
  match changes with
  | [] => Ret None
  | _ =>
      r ← CheckPVCAdmissionPolicies changes;
      Ret match r with
          | inr e =>
              Some (WrapError ErrorKubernetes activationPreflightPhase
                ("check application PVC admission in " +:+ namespace) e)
          | inl report =>
              match QuotaViolations report, LimitRangeViolations report with
              | _ :: _, _ =>
                  Some (NewError ErrorPrecondition activationPreflightPhase
                    ("application PVC quota rejected the replacement: "
                     +:+ strings_join "; " (QuotaViolations report)))
              | [], _ :: _ =>
                  Some (NewError ErrorPrecondition activationPreflightPhase
                    ("application PVC LimitRange rejected the replacement: "
                     +:+ strings_join "; " (LimitRangeViolations report)))
              | [], [] => None
              end
          end
  end.
End manifests.
