(* ===== verification/CopyRunner.v ===== *)
(** * The copy runner and the usage check

    internal/app/volume_copy.go, volume_copy_runner.go, copy.go, copy_checkpoint.go and
    kube/volume_shrink.go, tool_scheduling.go, with the pull secrets of tool_probe.go and
    [RequireNamespace] of client.go: how an executor copies the data of one volume.  Each
    attempt is counted and saved before it starts, its tool Pods are deleted and awaited
    under a context detached from cancellation, and a further attempt follows only a
    confirmed release.

    Everything is generic in the workflow object; a [Cursor] says where the object keeps
    the attempts and the last error of the volume.  A Go map of two namespaces is
    iterated in an order that the environment chooses ([SMapOrder]).  Logging is left
    out. *)

From S2P Require Import Prelude Utf8 GoErrors Lifecycle GoFormat KubeTypes Prog Api ResourceState Quota Reserver TransferPath Offline CopyEngine Exec.

(** ** Backoff (volume_copy.go) *)

Definition MaxInt64 : Z := 9223372036854775807%Z.

(** [uint64(1) << uint(min(retryIndex, 62))] for an index of the retry loop. *)
Definition retryBackoffDelay (base retryIndex : Z) : Z :=
  if Z.leb base 0 then 0%Z
  else
    let multiple := Z.shiftl 1 (Z.min retryIndex 62) in
    if Z.gtb base (MaxInt64 / multiple) then MaxInt64 else (base * multiple)%Z.

(** ** Capacity (copy.go, volume_shrink.go) *)

(** [Quantity.Value]: rounded up to an integer away from zero. *)
Definition quantity_value (q : Quantity) : Z :=
  if Z.leb 0 q then ((q + 999999999) / 1000000000)%Z else (- ((- q + 999999999) / 1000000000))%Z.

Definition destinationCapacityIsSmaller `{QuantityText} (sourceCapacity destinationCapacity : string) : bool :=
  match ParseQuantity sourceCapacity, ParseQuantity destinationCapacity with
  | inl source, inl destination => Z.ltb destination source
  | _, _ => false
  end.

Definition ErrorOperationSourceUsageCheck : string := "source usage check".

Section shrink.
Context `{QT : QuantityText} {Obj : Type}.
Notation exec := (execOf Obj).

(** [reader] tells whether a usage reader is configured. *)
Definition VerifyVolumeShrinkUsage (reader : bool) (sourcePVC sourcePV : ObjectReference)
    (sourceCapacity destinationCapacity sourcePath : string) (skip : bool) : exec (option err) :=
  let claim := sprint ["PVC "; Namespace sourcePVC; "/"; Name sourcePVC] in
  match ParseQuantity sourceCapacity, ParseQuantity destinationCapacity with
  | inl source, inl destination =>
      if Z.leb source destination then Ret None
      else if skip then Ret None
      else if negb reader then
        Ret (Some (NewError ErrorPrecondition ErrorOperationSourceUsageCheck
          (sprint [claim; " has no trusted storage-backend CRD usage reader; pass --skip-source-usage-check only after independently verifying that its data fits destination capacity "; quantity_string destination])))
      else
        r ← serve (SReadUsage sourcePVC sourcePV);
        match r with
        | inr e =>
            Ret (Some (WrapError ErrorPrecondition ErrorOperationSourceUsageCheck
              (sprint [claim; " usage could not be read from its storage backend CRD; pass --skip-source-usage-check only after independently verifying that its data fits"]) e))
        | inl usage =>
            let used := usage_UsedBytes usage in
            if Z.ltb used 0 then
              Ret (Some (NewError ErrorPrecondition ErrorOperationSourceUsageCheck
                (sprint [claim; " storage backend returned invalid used bytes "; show_Z used])))
            else
              let trimmed := TrimSpace (usage_Source usage) in
              let usageSource := if trimmed =s "" then "the storage backend CRD" else trimmed in
              if Z.gtb used (quantity_value destination) then
                if ((sourcePath <>s "") && (sourcePath <>s VolumeRootPath))%bool then
                  Ret (Some (NewError ErrorConflict ErrorOperationSourceUsageCheck
                    (sprint [claim; " whole-volume usage is "; show_Z used; " bytes according to "; usageSource;
                             ", above destination capacity "; quantity_string destination;
                             "; this cannot prove that selected source directory "; quoted sourcePath;
                             " fits; abort this session and create a new one with a larger destination, or set skipSourceUsageCheck only after independently measuring the selected data"])))
                else
                  Ret (Some (NewError ErrorConflict ErrorOperationSourceUsageCheck
                    (sprint [claim; " uses "; show_Z used; " bytes according to "; usageSource;
                             ", above destination capacity "; quantity_string destination;
                             "; increase --destination-capacity or abort this shrink"])))
              else Ret None
        end
  | _, _ => Ret None
  end.
End shrink.

(** ** Configuration (volume_copy_runner.go) *)

Record VolumeCopyConfig := {
  vc_KubeconfigPath : string;
  vc_Context : string;
  vc_Retries : Z;
  vc_RetryBackoff : Z;
  vc_HelmTimeout : Z;
  vc_CopyTimeout : Z;
  vc_RsyncMaxRetries : Z;
  vc_ToolNetworkPolicy : string;
  vc_Compress : bool;
  vc_BandwidthLimit : string;
  vc_StreamToolLogs : bool;
  vc_TrustedToolImage : string
}.

Definition newVolumeCopyRunner (c : VolumeCopyConfig) : VolumeCopyConfig := {|
  vc_KubeconfigPath := vc_KubeconfigPath c; vc_Context := vc_Context c;
  vc_Retries := if Z.leb (vc_Retries c) 0 then 3%Z else vc_Retries c;
  vc_RetryBackoff := if Z.leb (vc_RetryBackoff c) 0 then 2000000000%Z else vc_RetryBackoff c;
  vc_HelmTimeout := if Z.leb (vc_HelmTimeout c) 0 then 600000000000%Z else vc_HelmTimeout c;
  vc_CopyTimeout := vc_CopyTimeout c; vc_RsyncMaxRetries := vc_RsyncMaxRetries c;
  vc_ToolNetworkPolicy := vc_ToolNetworkPolicy c; vc_Compress := vc_Compress c;
  vc_BandwidthLimit := vc_BandwidthLimit c; vc_StreamToolLogs := vc_StreamToolLogs c;
  vc_TrustedToolImage := vc_TrustedToolImage c |}.

Definition runner_toolImage (c : VolumeCopyConfig) (requested : string) : string :=
  let trusted := TrimSpace (vc_TrustedToolImage c) in
  if trusted <>s "" then trusted else requested.

(** ** Tool Pods *)

Definition AppInstanceLabel : string := "app.kubernetes.io/instance".
Definition AppComponentLabel : string := "app.kubernetes.io/component".
Definition ToolComponentRsync : string := "rsync".
Definition ToolComponentSSHD : string := "sshd".
Definition ToolComponentRclone : string := "rclone".

Definition pvmigrateToolInstance (pod : Pod) : option string :=
  let instance := mget (pod_Labels pod) AppInstanceLabel in
  if negb (HasPrefix instance "pv-migrate-") then None
  else if contains [ToolComponentSSHD; ToolComponentRsync; ToolComponentRclone] (mget (pod_Labels pod) AppComponentLabel)
  then Some instance else None.

Definition isPVMigrateToolForClaims (claims : list string) (pod : Pod) : bool :=
  (bool_decide (is_Some (pvmigrateToolInstance pod))
   && existsb (fun volume => match volume with Some name => contains claims name | None => false end)
        (pod_Volumes pod))%bool.

Definition isPVMigrateToolForOperation (operationID : string) (pod : Pod) : bool :=
  match pvmigrateToolInstance pod with
  | Some instance => ((operationID <>s "") && HasPrefix instance (sprint ["pv-migrate-"; operationID; "-"]))%bool
  | None => false
  end.

(** [map[string]map[string]struct{}]: the claims of each namespace. *)
Definition copy_claims (source destination : ObjectReference) : list (string * list string) :=
  if Namespace source =s Namespace destination then [(Namespace source, [Name source; Name destination])]
  else [(Namespace source, [Name source]); (Namespace destination, [Name destination])].

(** ** Probe results *)

Definition probedSourceNode (sourceNode : string) (source : ObjectReference) (results : list ToolImageProbeResult)
    : string :=
  if sourceNode <>s "" then sourceNode
  else match List.find (fun r => ((tt_Namespace (pr_Target r) =s Namespace source)
                                  && (tt_PVCName (pr_Target r) =s Name source)
                                  && contains (tt_Components (pr_Target r)) ToolComponentSSHD)%bool) results with
       | Some r => pr_NodeName r
       | None => ""
       end.

Definition probe_secrets (r : ToolImageProbeResult) : list string :=
  slices_Sort (dedup [] (List.filter (fun name => name <>s "") (pr_ImagePullSecrets r))).

(** [secretNames]: for each component its namespaces with their secrets, in the order of
    the results. *)
Notation secret_map := (gmap string (list (string * list string))).

Fixpoint add_secrets (namespace : string) (secrets components : list string) (acc : secret_map) : result secret_map :=
  match components with
  | [] => inl acc
  | component :: rest =>
      match acc !! component with
      | None => add_secrets namespace secrets rest acc
      | Some namespaces =>
          match List.find (fun e => e.1 =s namespace) namespaces with
          | Some previous =>
              if bool_decide (previous.2 = secrets) then add_secrets namespace secrets rest acc
              else inr (NewError ErrorPrecondition "tool image probe"
                     (sprint ["imagePullSecrets for tool component "; component;
                              " differ between probe Pods in namespace "; namespace]))
          | None => add_secrets namespace secrets rest (<[component := namespaces ++ [(namespace, secrets)]]> acc)
          end
      end
  end.

Fixpoint collect_secrets (results : list ToolImageProbeResult) (acc : secret_map) : result secret_map :=
  match results with
  | [] => inl acc
  | r :: rest =>
      match add_secrets (tt_Namespace (pr_Target r)) (probe_secrets r) (tt_Components (pr_Target r)) acc with
      | inr e => inr e
      | inl acc => collect_secrets rest acc
      end
  end.

Definition component_values (component : string) (entries : list (string * list string)) : result (list string) :=
  match entries with
  | [] => inl []
  | (_, selected) :: rest =>
      match List.find (fun e => negb (bool_decide (e.2 = selected))) rest with
      | Some (namespace, _) =>
          inr (NewError ErrorPrecondition "tool image probe"
            (sprint ["imagePullSecrets for tool component "; component; " differ between namespaces (including "; namespace;
                     "); create the same Secret names in every namespace or provide a shared pull credential"]))
      | None =>
          inl (imap (fun index name =>
            sprint [component; ".imagePullSecrets["; show_Z (Z.of_nat index); "].name="; name]) selected)
      end
  end.

Fixpoint secret_values (secretNames : secret_map) (components : list string) : result (list string) :=
  match components with
  | [] => inl []
  | component :: rest =>
      match component_values component (default [] (secretNames !! component)) with
      | inr e => inr e
      | inl values =>
          match secret_values secretNames rest with inr e => inr e | inl more => inl (values ++ more) end
      end
  end.

(** The inner maps are visited in the order of the results; in the code that order only
    decides which of several disagreeing namespaces the message names. *)
Definition ToolImagePullSecretHelmValues (results : list ToolImageProbeResult) : result (list string) :=
  let components := [ToolComponentRsync; ToolComponentSSHD; ToolComponentRclone] in
  match collect_secrets results (list_to_map (map (fun c => (c, [])) components)) with
  | inr e => inr e
  | inl secretNames => secret_values secretNames components
  end.

(** ** Scheduling *)

Definition hard_effect (taint : Taint) : bool :=
  ((taint_Effect taint =s "NoSchedule") || (taint_Effect taint =s "NoExecute"))%bool.

Definition taint_signature (taint : Taint) : string :=
  let nul := String (Ascii.ascii_of_nat 0) "" in
  sprint [taint_Key taint; nul; taint_Value taint; nul; taint_Effect taint].

Fixpoint toleration_values (component : string) (index : nat) (seen : list string) (taints : list Taint) : list string :=
  match taints with
  | [] => []
  | taint :: rest =>
      if negb (hard_effect taint) then toleration_values component index seen rest
      else if contains seen (taint_signature taint) then toleration_values component index seen rest
      else
        let prefix := sprint [component; ".tolerations["; show_Z (Z.of_nat index); "]"] in
        [prefix +:+ ".key=" +:+ taint_Key taint; prefix +:+ ".effect=" +:+ taint_Effect taint]
        ++ (if taint_Value taint =s "" then [prefix +:+ ".operator=Exists"]
            else [prefix +:+ ".operator=Equal"; prefix +:+ ".value=" +:+ taint_Value taint])
        ++ toleration_values component (S index) (taint_signature taint :: seen) rest
  end.

Definition ToolComponentTolerationHelmValues (component : string) (nodes : list Node) : list string :=
  toleration_values component 0 [] (concat (map node_Taints nodes)).

Record schedulingTarget := { st_component : string; st_nodes : list string; st_pinNode : bool }.

Definition scheduling_targets (sourceNode targetNode : string) (strategies : list string) : list schedulingTarget :=
  {| st_component := "rsync"; st_nodes := [targetNode]; st_pinNode := true |} ::
  (if contains strategies StrategyLocal
   then [{| st_component := "sshd"; st_nodes := [sourceNode; targetNode]; st_pinNode := false |}]
   else [{| st_component := "sshd"; st_nodes := [sourceNode]; st_pinNode := true |}]).

Definition named_nodes (names : list string) : list string := dedup [] (List.filter (fun n => n <>s "") names).

Definition node_read := (string * result Node)%type.

(** The nodes of one target and its selector values. *)
Fixpoint target_nodes (target : schedulingTarget) (reads : list node_read) (names : list string)
    : result (list Node * list string) :=
  match names with
  | [] => inl ([], [])
  | name :: rest =>
      match List.find (fun r => r.1 =s name) reads with
      | Some (_, inr e) => inr (WrapError ErrorKubernetes "copy scheduling" ("read node " +:+ name) e)
      | Some (_, inl node) =>
          if node_Name node =s "" then
            inr (NewError ErrorKubernetes "copy scheduling" (sprint ["read node "; name; " returned an empty object"]))
          else
            let hostname := mget (node_Labels node) LabelHostname in
            if (st_pinNode target && (hostname =s ""))%bool then
              inr (NewError ErrorPrecondition "copy scheduling" (sprint ["node "; name; " lacks "; LabelHostname]))
            else
              match target_nodes target reads rest with
              | inr e => inr e
              | inl (nodes, values) =>
                  inl (node :: nodes,
                       (if st_pinNode target
                        then [sprint [st_component target; ".nodeSelector.kubernetes\.io/hostname="; hostname]] else [])
                       ++ values)
              end
      | None => inl ([], [])                 (* every name was read *)
      end
  end.

Fixpoint target_values (reads : list node_read) (targets : list schedulingTarget) : result (list string) :=
  match targets with
  | [] => inl []
  | target :: rest =>
      match target_nodes target reads (named_nodes (st_nodes target)) with
      | inr e => inr e
      | inl (nodes, values) =>
          match target_values reads rest with
          | inr e => inr e
          | inl more => inl (values ++ ToolComponentTolerationHelmValues (st_component target) nodes ++ more)
          end
      end
  end.

(** ** Attempts *)

(** Where the object keeps the attempts and the last error of the volume: two pointers
    in the code. *)
Record Cursor (Obj : Type) := {
  cursor_attempts : Obj -> Z;
  cursor_error : Obj -> string;
  cursor_set : Obj -> Z -> string -> Obj
}.
Arguments cursor_attempts {Obj} c o.
Arguments cursor_error {Obj} c o.
Arguments cursor_set {Obj} c o attempts lastError.

Definition ErrorOperationCopyAttempt : string := "copy attempt".
Definition ErrorOperationCopyCapacity : string := "copy capacity".

Definition mergeToolLogError (copyErr observedErr : option err) : option err :=
  match copyErr with None => None | Some _ => errors_Join [copyErr; observedErr] end.

Definition transferServiceAccountLabel : string := "migrate.sealos.io/transfer-service-account".
Definition transferServiceAccountValue : string := "no-token".

Section runner.
Context `{LG : LabelGrammar} {Obj : Type}.
Notation exec := (execOf Obj).
Notation outcome := (Obj * option err)%type.

(** client.go *)
Definition RequireNamespace (name : string) : exec (option err) :=
  if name =s "" then Ret (Some (NewError ErrorValidation "require namespace" "namespace is empty"))
  else
    r ← serve (SGetNamespace name);
    Ret match (r : option err) with
        | None => None
        | Some e =>
            if IsNotFound e then
              Some (WrapError ErrorPrecondition "require namespace"
                (sprint ["namespace "; name; " does not exist; create it before running this command"]) e)
            else Some (WrapError ErrorKubernetes "require namespace" ("read namespace " +:+ name) e)
        end.

(** [errors.Join(ctx.Err(), LeaseFenceError(ctx))] *)
Definition fence_x (before : list (option err)) : exec (option err) :=
  a ← call (XKube CtxErr); b ← call (XKube FenceErr); Ret (errors_Join (before ++ [a; b])).

Definition transfer_account (namespace : string) : ServiceAccount :=
  {| sa_Namespace := namespace; sa_Name := TransferServiceAccountName;
     sa_Labels := <[ManagedByLabel := ManagedByValue]>
                    (<[transferServiceAccountLabel := transferServiceAccountValue]> ∅);
     sa_AutomountServiceAccountToken := Some false |}.

Definition ensure_account_once (namespace : string) : exec (option err) :=
  check: fence_x [];
  r ← serve (SGetServiceAccount namespace TransferServiceAccountName);
  r ← match (r : result (option ServiceAccount)) with
      | inr e =>
          if IsNotFound e then
            c ← serve (SCreateServiceAccount (transfer_account namespace));
            match (c : result (option ServiceAccount)) with
            | inr e' =>
                if IsAlreadyExists e' then serve (SGetServiceAccount namespace TransferServiceAccountName)
                else Ret (inr e')
            | inl account => Ret (inl account)
            end
          else Ret (inr e)
      | inl account => Ret (inl account)
      end;
  match (r : result (option ServiceAccount)) with
  | inr e => Ret (Some e)
  | inl None => Ret (Some (EText "kubernetes returned an empty ServiceAccount"))
  | inl (Some account) =>
      if ((mget (sa_Labels account) ManagedByLabel <>s ManagedByValue)
          || (mget (sa_Labels account) transferServiceAccountLabel <>s transferServiceAccountValue))%bool then
        Ret (Some (NewError ErrorConflict "transfer identity"
          (sprint ["ServiceAccount "; namespace; "/"; TransferServiceAccountName; " is not managed by pvc-migrate"])))
      else
      match sa_AutomountServiceAccountToken account with
      | Some false => fence_x [None]
      | _ =>
          check: fence_x [];
          u ← serve (SUpdateServiceAccount
                 {| sa_Namespace := sa_Namespace account; sa_Name := sa_Name account; sa_Labels := sa_Labels account;
                    sa_AutomountServiceAccountToken := Some false |});
          fence_x [u]
      end
  end.

(** [retry.RetryOnConflict] with [steps] repetitions *)
Fixpoint retry_x (steps : nat) (fn : exec (option err)) : exec (option err) :=
  match steps with
  | O => fn
  | S steps =>
      e ← fn;
      match e with
      | Some x => if IsConflict x then retry_x steps fn else Ret (Some x)
      | None => Ret None
      end
  end.

Definition EnsureTransferServiceAccount (steps : nat) (namespace : string) : exec (option err) :=
  let namespace := TrimSpace namespace in
  if namespace =s "" then Ret (Some (NewError ErrorValidation "transfer identity" "namespace is required"))
  else match IsDNS1123Label namespace with
  | (_ :: _) as problems =>
      Ret (Some (NewError ErrorValidation "transfer identity"
        (sprint ["namespace "; quoted namespace; " is invalid: "; strings_join "; " problems])))
  | [] =>
      e ← retry_x steps (ensure_account_once namespace);
      Ret match e with
          | None => None
          | Some x =>
              if bool_decide (CategoryOf (Some x) = ErrorConflict) then Some x
              else Some (WrapError ErrorKubernetes "transfer identity"
                     (sprint ["ensure ServiceAccount "; namespace; "/"; TransferServiceAccountName]) x)
          end
  end.

(** *** Releasing the tools *)

(** The order in which a map of at most two keys is visited. *)
Definition map_order {A} (l : list A) : exec (list A) :=
  match l with
  | [a; b] => first ← serve SMapOrder; Ret (if (first : bool) then [a; b] else [b; a])
  | _ => Ret l
  end.

Fixpoint release_scan (claims : list (string * list string)) : exec (result bool) :=
  match claims with
  | [] => Ret (inl true)
  | (namespace, names) :: rest =>
      r ← call (XKube (ListPods namespace));
      match (r : result (option (list Pod))) with
      | inr e => Ret (inr (WrapError ErrorKubernetes "copy cleanup" ("list Pods in " +:+ namespace) e))
      | inl None => panic
      | inl (Some pods) =>
          if existsb (isPVMigrateToolForClaims names) pods then Ret (inl false) else release_scan rest
      end
  end.

(** [kube.WaitFor] under the detached context. *)
Fixpoint release_loop (fuel : nat) (description : string) (claims : list (string * list string)) : exec (option err) :=
  match fuel with
  | O => OutOfFuel
  | S fuel =>
      c ← call XDetachedErr;
      match (c : option err) with
      | Some e => Ret (Some (waitContextError e description))
      | None =>
          claims' ← map_order claims;
          r ← release_scan claims';
          match r with
          | inr e =>
              c ← call XDetachedErr;
              Ret match (c : option err) with Some ce => Some (waitContextError ce description) | None => Some e end
          | inl true => Ret None
          | inl false =>
              d ← serve SDetachedTick;
              match (d : option err) with
              | Some e => Ret (Some (waitContextError e description))
              | None => release_loop fuel description claims
              end
          end
      end
  end.

Definition waitForCopyToolRelease (polls : nat) (source destination : ObjectReference) : exec (option err) :=
  release_loop polls (sprint ["pv-migrate tools to release PVC "; Namespace source; "/"; Name source])
    (copy_claims source destination).

Fixpoint tool_candidates (namespace : string) (names : list string) (operationID : string) (pods : list Pod)
    : result (list Pod) :=
  match pods with
  | [] => inl []
  | pod :: rest =>
      if negb (isPVMigrateToolForClaims names pod && isPVMigrateToolForOperation operationID pod)
      then tool_candidates namespace names operationID rest
      else if pod_UID pod =s "" then
        inr (NewError ErrorKubernetes "copy cleanup"
          (sprint ["copy tool Pod "; namespace; "/"; pod_Name pod; " has no UID"]))
      else match tool_candidates namespace names operationID rest with
           | inr e => inr e
           | inl more => inl (pod :: more)
           end
  end.

Fixpoint list_candidates (operationID : string) (claims : list (string * list string)) : exec (result (list Pod)) :=
  match claims with
  | [] => Ret (inl [])
  | (namespace, names) :: rest =>
      r ← call (XKube (ListPods namespace));
      match (r : result (option (list Pod))) with
      | inr e => Ret (inr (WrapError ErrorKubernetes "copy cleanup" ("list copy tool Pods in " +:+ namespace) e))
      | inl None => panic
      | inl (Some pods) =>
          try: candidates ← Ret (tool_candidates namespace names operationID pods);
          try: more ← list_candidates operationID rest;
          Ret (inl (candidates ++ more))
      end
  end.

(** [fenceError] with the failures so far *)
Definition delete_fence (failures : list err) : exec (option err) :=
  e ← checkpoint_fence true;
  Ret match e with
      | Some x => errors_Join [Some x; errors_Join (map Some failures)]
      | None => None
      end.

Fixpoint delete_candidates (failures : list err) (candidates : list Pod) : exec (option err) :=
  match candidates with
  | [] => Ret (errors_Join (map Some failures))
  | pod :: rest =>
      check: delete_fence failures;
      d ← call (XKube (DeletePod (pod_Namespace pod) (pod_Name pod) (pod_UID pod) None));
      match (d : option err) with
      | Some e =>
          if (negb (IsNotFound e) && negb (IsConflict e))%bool then
            delete_candidates (failures ++ [WrapError ErrorKubernetes "copy cleanup"
              (sprint ["delete copy tool Pod "; pod_Namespace pod; "/"; pod_Name pod]) e]) rest
          else check: delete_fence failures; delete_candidates failures rest
      | None => check: delete_fence failures; delete_candidates failures rest
      end
  end.

Definition deleteCopyToolPods (source destination : ObjectReference) (operationID : string) : exec (option err) :=
  claims ← map_order (copy_claims source destination);
  try: candidates ← list_candidates operationID claims;
  delete_candidates [] candidates.

Definition cleanupCopyToolPods (polls : nat) (source destination : ObjectReference) (operationID : string)
    : exec (option err) :=
  d ← deleteCopyToolPods source destination operationID;
  w ← waitForCopyToolRelease polls source destination;
  Ret (errors_Join [d; w]).

(** *** The values of the chart *)

Fixpoint read_nodes (names : list string) : exec (list node_read) :=
  match names with
  | [] => Ret []
  | name :: rest => r ← call (XKube (GetNode name)); more ← read_nodes rest; Ret ((name, r) :: more)
  end.

Definition helmSchedulingValues (sourceNode targetNode : string) (strategies : list string)
    : exec (result (list string)) :=
  let targets := scheduling_targets sourceNode targetNode strategies in
  reads ← read_nodes (named_nodes (concat (map st_nodes targets)));
  Ret match target_values reads targets with
      | inr e => inr e
      | inl values => inl (ZeroResourceHelmValues ++ values)
      end.

Definition ensure_accounts (steps : nat) (source destination : string) : exec (option err) :=
  check: EnsureTransferServiceAccount steps source;
  if source =s destination then Ret None else EnsureTransferServiceAccount steps destination.

(** *** Retrying *)

Section copy.
Context (config : VolumeCopyConfig) (steps polls : nat) (cursor : Cursor Obj).

Definition prepared_request (request : CopyRequest) (values : list string) : CopyRequest :=
  let policy := cq_Policy request in
  {| cq_Identity := cq_Identity request;
     cq_Source := {| cs_KubeconfigPath := vc_KubeconfigPath config; cs_Context := vc_Context config;
                     cs_Path := cs_Path (cq_Source request); cs_MountReadWrite := cs_MountReadWrite (cq_Source request) |};
     cq_Destination := cq_Destination request;
     cq_Policy := {| cp_Strategies := cp_Strategies policy; cp_DeleteExtraneousFiles := cp_DeleteExtraneousFiles policy;
                     cp_VerifyChecksum := cp_VerifyChecksum policy; cp_IgnoreSizes := cp_IgnoreSizes policy;
                     cp_Compress := vc_Compress config; cp_BandwidthLimit := cp_BandwidthLimit policy;
                     cp_RsyncMaxRetries := cp_RsyncMaxRetries policy;
                     cp_TolerateLiveSourceChurn := cp_TolerateLiveSourceChurn policy;
                     cp_ToolNetworkPolicy := cp_ToolNetworkPolicy policy |};
     cq_Runtime := {| cr_ToolImage := runner_toolImage config (cr_ToolImage (cq_Runtime request));
                      cr_HelmTimeout := vc_HelmTimeout config;
                      cr_HelmValues := cr_HelmValues (cq_Runtime request) ++ ho_Values TransferServiceAccountHelmValues;
                      cr_HelmStringValues := cr_HelmStringValues (cq_Runtime request) ++ values |} |}.

Definition attempt_request (request : CopyRequest) (attempt : Z) (mountReadWrite : bool) : CopyRequest :=
  let identity := cq_Identity request in
  let policy := cq_Policy request in
  {| cq_Identity := {| ai_SessionID := ai_SessionID identity; ai_Source := ai_Source identity; ai_Mode := ai_Mode identity;
                       ai_Attempt := attempt |};
     cq_Source := {| cs_KubeconfigPath := cs_KubeconfigPath (cq_Source request); cs_Context := cs_Context (cq_Source request);
                     cs_Path := cs_Path (cq_Source request); cs_MountReadWrite := mountReadWrite |};
     cq_Destination := cq_Destination request;
     cq_Policy := {| cp_Strategies := cp_Strategies policy; cp_DeleteExtraneousFiles := cp_DeleteExtraneousFiles policy;
                     cp_VerifyChecksum := cp_VerifyChecksum policy; cp_IgnoreSizes := cp_IgnoreSizes policy;
                     cp_Compress := cp_Compress policy; cp_BandwidthLimit := vc_BandwidthLimit config;
                     cp_RsyncMaxRetries := vc_RsyncMaxRetries config;
                     cp_TolerateLiveSourceChurn := cp_TolerateLiveSourceChurn policy;
                     cp_ToolNetworkPolicy := ResolveToolNetworkPolicy (cp_ToolNetworkPolicy policy)
                                               (vc_ToolNetworkPolicy config) |};
     cq_Runtime := cq_Runtime request |}.

(** After [attemptCancel] the context of an attempt with a bound of its own is done,
    whatever ended the copy. *)
Definition attempt_done : exec bool :=
  if Z.ltb 0 (vc_CopyTimeout config) then Ret true
  else c ← call (XKube CtxErr); Ret (match (c : option err) with Some _ => true | None => false end).

Definition classify_attempt (attempt : Z) (copyErr : option err) : exec (option err) :=
  match copyErr with
  | None => Ret None
  | Some e =>
      ended ← attempt_done;
      if (ended : bool) then
        c ← call (XKube CtxErr);
        Ret match (c : option err) with
            | None =>
                Some (WrapError ErrorTimeout ErrorOperationCopyAttempt
                  (sprint ["copy attempt "; show_Z attempt; " exceeded --copy-timeout ";
                           duration_string (vc_CopyTimeout config)]) e)
            | Some _ => Some e
            end
      else Ret (Some e)
  end.

(** One attempt: the copy and the release of its tools. *)
Definition copy_attempt (request : CopyRequest) : exec (option err * option err) :=
  copyErr ← serve (SCopy request);
  observed ← (if vc_StreamToolLogs config then serve SToolLogError else Ret None);
  copyErr ← classify_attempt (ai_Attempt (cq_Identity request)) (mergeToolLogError copyErr observed);
  cleanupErr ← cleanupCopyToolPods polls (ai_Source (cq_Identity request)) (cd_Reference (cq_Destination request))
                 (OperationID (cq_Identity request));
  Ret (copyErr, cleanupErr).

Definition no_space_error (request : CopyRequest) (capacityRecovery : string) (last : err) : err :=
  let destination := cd_Reference (cq_Destination request) in
  WrapError ErrorConflict ErrorOperationCopyCapacity
    (sprint ["destination PVC "; Namespace destination; "/"; Name destination; " ran out of space; ";
             if capacityRecovery =s ""
             then "abort and clean up this session, then create a new session with a larger --destination-capacity"
             else capacityRecovery]) last.

Context (capacityRecovery : string) (validate : Obj -> exec (option err)) (sourceMountReadWrite : exec (result bool)).

(** [remaining] attempts are left, the next one has index [retryIndex]. *)
Fixpoint retry_copies (remaining : nat) (retryIndex : Z) (request : CopyRequest) (last : option err) (o : Obj) : exec outcome :=
  match remaining with
  | O => Ret (o, last)
  | S remaining =>
      check_x o (validate o) (
      m ← sourceMountReadWrite;
      match m with
      | inr e => Ret (o, Some e)
      | inl mountReadWrite =>
          let previousError := cursor_error cursor o in
          let attempts := (cursor_attempts cursor o + 1)%Z in
          let o1 := cursor_set cursor o attempts "" in
          check_x o (persist false o1) (
          let attempt := attempt_request request attempts mountReadWrite in
          r ← copy_attempt attempt;
          match errors_Join [r.1; r.2] with
          | None => Ret (o1, None)
          | Some last =>
              let o2 := cursor_set cursor o1 attempts (error_text last) in
              s ← persist false o2;
              match s with
              | Some e =>
                  c ← call (XKube CtxErr);
                  Ret match (c : option err) with
                      | Some _ => (o2, Some last)
                      | None => (cursor_set cursor o2 attempts previousError, Some e)
                      end
              | None =>
                  if isDestinationNoSpaceError last then Ret (o2, Some (no_space_error attempt capacityRecovery last))
                  else if bool_decide (is_Some r.2) then Ret (o2, Some last)
                  else
                    match remaining with
                    | O => Ret (o2, Some last)
                    | S _ =>
                        d ← serve (SSleep (retryBackoffDelay (vc_RetryBackoff config) retryIndex));
                        match (d : option err) with
                        | Some e =>
                            Ret (o2, Some (WrapError ErrorTimeout "copy retry" "context ended during retry backoff" e))
                        | None => retry_copies remaining (retryIndex + 1) request (Some last) o2
                        end
                    end
              end
          end)
      end)
  end.

Definition copyWithRetry (request : CopyRequest) (sourceNode targetNode : string)
    (probeResults : list ToolImageProbeResult) (o : Obj) : exec outcome :=
  let identity := cq_Identity request in
  v ← helmSchedulingValues (probedSourceNode sourceNode (ai_Source identity) probeResults) targetNode
        (cp_Strategies (cq_Policy request));
  match v with
  | inr e => Ret (o, Some e)
  | inl values =>
      match ToolImagePullSecretHelmValues probeResults with
      | inr e => Ret (o, Some e)
      | inl secrets =>
          check_x o (ensure_accounts steps (Namespace (ai_Source identity))
                       (Namespace (cd_Reference (cq_Destination request)))) (
          retry_copies (Z.to_nat (vc_Retries config)) 0
            (prepared_request request (values ++ secrets ++ ho_StringValues TransferServiceAccountHelmValues)) None o)
      end
  end.
End copy.
End runner.
