(* ===== verification/SourceLoss.v ===== *)
(** * Sources that go away

    internal/app/workflow_deletion.go and source_loss_failure.go: whether the planned
    source claims are gone or terminating, what a live workflow does then
    ([failSourceDeleted], [validateFinalSyncSources]), and which checks a cleanup pass
    leaves out because the storage they would verify no longer exists. *)

From S2P Require Import Prelude GoErrors Lifecycle PhaseMachines KubeTypes Prog Api GoFormat MigrationObject MigrationStorage Reserver.

Record sourceTermination := { term_PVC : ObjectReference; term_Since : Time }.

Record plannedSourceScan := { scan_Deleted : bool; scan_Terminating : option sourceTermination }.

Definition probeSourcePVC (sourcePVC : ObjectReference) : kube (result plannedSourceScan) :=
  g ← call (GetPVC (Namespace sourcePVC) (Name sourcePVC));
  match g with
  | inr e =>
      if IsNotFound e then Ret (inl {| scan_Deleted := true; scan_Terminating := None |})
      else fail (WrapError ErrorKubernetes verifySourceStoragePhase
             (sprint ["read source PVC "; Namespace sourcePVC; "/"; Name sourcePVC]) e)
  | inl pvc =>
      Ret (inl {| scan_Deleted := false;
                  scan_Terminating :=
                    match pvc_DeletionTimestamp pvc with
                    | Some t => Some {| term_PVC := sourcePVC; term_Since := t |}
                    | None => None
                    end |})
  end.

Fixpoint scan_volumes (sourceNamespace : string) (terminating : option sourceTermination) (volumes : list VolumeSpec)
    : kube (result plannedSourceScan) :=
  match volumes with
  | [] => Ret (inl {| scan_Deleted := false; scan_Terminating := terminating |})
  | volume :: rest =>
      if planned_name volume =s "" then scan_volumes sourceNamespace terminating rest
      else
        try: probe ← probeSourcePVC (qualifiedResourceReference (vs_SourcePVC volume) sourceNamespace);
        if scan_Deleted probe then Ret (inl {| scan_Deleted := true; scan_Terminating := terminating |})
        else scan_volumes sourceNamespace
               (match terminating with Some _ => terminating | None => scan_Terminating probe end) rest
  end.

Definition scanPlannedSourcePVCs (sourceNamespace : string) (volumes : list VolumeSpec) : kube (result plannedSourceScan) :=
  scan_volumes sourceNamespace None volumes.

(** ** Loss during a live workflow *)

Definition sourceLossFailure (operation : string) : err :=
  NewError ErrorPrecondition operation "source PVC no longer exists; the migration cannot continue".

Definition sourceTerminationFailure (operation : string) (termination : sourceTermination) : err :=
  NewError ErrorPrecondition operation
    (sprint ["source PVC "; Namespace (term_PVC termination); "/"; Name (term_PVC termination);
             " is terminating (deletion requested at "; RFC3339 (term_Since termination);
             "); the migration cannot continue"]).

Definition validateFinalSyncSources (sourceNamespace : string) (volumes : list VolumeSpec) (operation : string)
    : kube (option err) :=
  try: scan ← scanPlannedSourcePVCs sourceNamespace volumes;
  Ret (if scan_Deleted scan then Some (sourceLossFailure operation)
       else match scan_Terminating scan with
            | Some t => Some (sourceTerminationFailure operation t)
            | None => None
            end).

(** The cause [failSourceDeleted] records under the lock, if any. *)
Definition source_loss_cause (status : WorkflowStatus) (volumes : list VolumeSpec) (sourceNamespace operation : string)
    : kube (result (option err)) :=
  if negb (sourceLossRelevant status) then Ret (inl None)
  else
    try: scan ← scanPlannedSourcePVCs sourceNamespace volumes;
    Ret (inl (if scan_Deleted scan then Some (sourceLossFailure operation)
              else match scan_Terminating scan with
                   | Some t => if sourceTerminationRelevant status
                               then Some (sourceTerminationFailure operation t) else None
                   | None => None
                   end)).

(** ** Storage that is already going *)

Definition gone_or_terminating_pv (what name : string) : kube (result bool) :=
  v ← call (GetPV name);
  match v with
  | inr e =>
      if IsNotFound e then Ret (inl true)
      else fail (WrapError ErrorKubernetes verifySourceStoragePhase (sprint ["read "; what; " PV "; name]) e)
  | inl pv => Ret (inl (bool_decide (is_Some (pv_DeletionTimestamp pv))))
  end.

Definition deletionSourceMissing (sourceNamespace : string) (volume : VolumeSpec) : kube (result bool) :=
  if planned_name volume =s "" then Ret (inl false)
  else
    try: probe ← probeSourcePVC (qualifiedResourceReference (vs_SourcePVC volume) sourceNamespace);
    if (scan_Deleted probe || bool_decide (is_Some (scan_Terminating probe)))%bool then Ret (inl true)
    else gone_or_terminating_pv "source" (local_Name (vs_SourcePV volume)).

Definition deletionDestinationSettling (destinationPVC destinationPV : ObjectReference) : kube (result bool) :=
  g ← call (GetPVC (Namespace destinationPVC) (Name destinationPVC));
  match g with
  | inr e =>
      if IsNotFound e then Ret (inl true)
      else fail (WrapError ErrorKubernetes verifySourceStoragePhase
             (sprint ["read destination PVC "; Namespace destinationPVC; "/"; Name destinationPVC]) e)
  | inl pvc =>
      if bool_decide (is_Some (pvc_DeletionTimestamp pvc)) then Ret (inl true)
      else gone_or_terminating_pv "destination" (Name destinationPV)
  end.

Fixpoint deletionSourcePairSettling (sourceNamespace : string) (volumes : list VolumeSpec) : kube (result bool) :=
  match volumes with
  | [] => Ret (inl false)
  | volume :: rest =>
      try: settling ← deletionSourceMissing sourceNamespace volume;
      if (settling : bool) then Ret (inl true) else deletionSourcePairSettling sourceNamespace rest
  end.

Definition deletionValidationSkip (sourceNamespace : string) (volume : VolumeSpec)
    (destinationPVC destinationPV : ObjectReference) : kube (result bool) :=
  try: skip ← deletionSourceMissing sourceNamespace volume;
  if (skip : bool) then Ret (inl true) else deletionDestinationSettling destinationPVC destinationPV.

Definition copyDeletionValidationSkip (sourceNamespace : string) (volume : VolumeSpec) (checkpoint : ReservationStatus)
    : kube (result bool) :=
  match rs_DestinationPVC checkpoint, rs_DestinationPV checkpoint with
  | Some pvc, Some pv => deletionValidationSkip sourceNamespace volume pvc pv
  | _, _ => deletionSourceMissing sourceNamespace volume
  end.
