(* ===== verification/Executor.v ===== *)
(** * The migration executor: cutover and rollback

    internal/app/migration_executor.go ([transition], [fail]),
    migration_executor_activation.go, the rollback of migration_executor_lifecycle.go,
    migration_activation.go, migration_rollback.go, workflow_failure.go and lifecycle.go.

    The requests, the saving of checkpoints and the recording of failures are those of
    Exec.  The progress callback handed to the switcher runs inside the switcher's
    program: [with_progress] replaces the request [Progress] by the callback. *)

From S2P Require Import Prelude Utf8 GoErrors Lifecycle PhaseMachines KubeTypes Prog Api ResourceState Ownership PVBinding NodeSelection GoFormat Quota PVCPolicy Reserver TransferPath MigrationObject Offline Activation MigrationStorage CopyEngine Exec.

Notation exec := (execOf ClusterMigration).
Notation xtrace := (xtraceOf ClusterMigration).
Notation outcome := (ClusterMigration * option err)%type.

(** ** The object *)

Definition set_status (o : ClusterMigration) (s : WorkflowStatus) : ClusterMigration :=
  {| mig_Name := mig_Name o; mig_Namespace := mig_Namespace o; mig_DeletionTimestamp := mig_DeletionTimestamp o;
     mig_Spec := mig_Spec o; mig_Plan := mig_Plan o; mig_Status := s; mig_Volumes := mig_Volumes o |}.

Definition set_activation (o : ClusterMigration) (i : nat) (st : ActivationStatus) : ClusterMigration :=
  {| mig_Name := mig_Name o; mig_Namespace := mig_Namespace o; mig_DeletionTimestamp := mig_DeletionTimestamp o;
     mig_Spec := mig_Spec o; mig_Plan := mig_Plan o; mig_Status := mig_Status o;
     mig_Volumes := alter (fun v => {| mv_Reservation := mv_Reservation v; mv_Sync := mv_Sync v;
                                       mv_Activation := st |}) i (mig_Volumes o) |}.

(** [object.Status.Volumes[indexes[name]]]: a name without an index reads index 0. *)
Definition checkpoint_index (o : ClusterMigration) (volume : VolumeSpec) : nat :=
  default 0 (clusterMigrationVolumeIndexes (mig_Volumes o) !! planned_name volume).

Definition checkpoint_of (o : ClusterMigration) (volume : VolumeSpec) : option ClusterMigrationVolumeStatus :=
  mig_Volumes o !! checkpoint_index o volume.

(** [None] is a nil dereference. *)
Definition plannedMigrationBindings (sourceNamespace : string) (volume : VolumeSpec) (checkpoint : ReservationStatus)
    : option PVCTransferBindings :=
  match rs_DestinationPVC checkpoint, rs_DestinationPV checkpoint with
  | Some pvc, Some pv =>
      Some {| SourcePVC := qualifiedResourceReference (vs_SourcePVC volume) sourceNamespace;
              SourcePV := qualifiedResourceReference (vs_SourcePV volume) "";
              DestinationPVC := pvc; DestinationPV := pv |}
  | _, _ => None
  end.

(** The checkpoint and the bindings of a planned volume. *)
Definition bound_checkpoint (o : ClusterMigration) (plan : ClusterMigrationPlan) (volume : VolumeSpec)
    : option (ClusterMigrationVolumeStatus * PVCTransferBindings) :=
  match checkpoint_of o volume with
  | None => None
  | Some status =>
      match plannedMigrationBindings (plan_SourceNamespace plan) volume (mv_Reservation status) with
      | None => None
      | Some binding => Some (status, binding)
      end
  end.

(** ** Transitions *)

Definition exec_transition (detached : bool) (o : ClusterMigration) (next : Phase) (message : string) : exec outcome :=
  match validateMigrationTransition (workflowResumePhase (mig_Status o)) next with
  | Some e => Ret (o, Some e)
  | None =>
      s ← match ws_StartedAt (mig_Status o) with
          | Some _ => Ret (mig_Status o)
          | None => t ← call (XKube Now); Ret (with_StartedAt (mig_Status o) t)
          end;
      t ← call (XKube Now);
      let o' := set_status o (RecordWorkflowTransition s next message t) in
      e ← persist detached o';
      Ret match e with Some x => (o, Some x) | None => (o', None) end
  end.

(** ** Failure *)

#[global, refine] Instance ClusterMigration_workflow : WorkflowObject ClusterMigration :=
  {| wf_get := mig_Status; wf_put := set_status |}.
Proof. all: done. Defined.

Definition exec_fail (o : ClusterMigration) (cause : err) : exec outcome :=
  let reason := if workflowResumePhase (mig_Status o) =p PhaseFinalSyncing then failureReason cause else "" in
  t ← call (XKube Now);
  recordWorkflowFailure exec_transition o cause reason t.

(** [if err := p; err != nil { return m.fail(ctx, object, err) }] *)
Definition step_or_fail (p : exec outcome) (k : ClusterMigration -> exec outcome) : exec outcome :=
  p ≫= fun r => match r.2 with Some e => exec_fail r.1 e | None => k r.1 end.

(** ** Activation *)

(** The callback: publish the checkpoint of volume [i], save, take it back on error. *)
Definition save_activation (i : nat) (st : ActivationStatus) (o : ClusterMigration) : exec outcome :=
  let o' := set_activation o i st in
  e ← persist false o';
  Ret match e with Some x => (o, Some x) | None => (o', None) end.

Section executor.
Context `{CR : ConflictRetry} `{QT : QuantityText}.
Context (s : Switcher) (deleting : bool).

Definition verifyActiveVolumes (o : ClusterMigration) : exec (option err) :=
  or_panic (mig_Plan o) (fun plan =>
  (fix loop (volumes : list VolumeSpec) : exec (option err) :=
     match volumes with
     | [] => Ret None
     | volume :: rest =>
         or_panic (bound_checkpoint o plan volume) (fun '(status, binding) =>
         check: lift (verifyActiveStorageVolume deleting (mig_Name o) (SourcePVC binding)
                        (plan_DestinationNamespace plan) (DestinationPV binding)
                        (ActivePVC (mv_Activation status)));
         loop rest)
     end) (plan_Volumes plan)).

(** What one volume contributes to the preflight: a change to admit and a pair to
    verify offline, or nothing when it is active already. *)
Definition activation_candidate (o : ClusterMigration) (plan : ClusterMigrationPlan) (volume : VolumeSpec)
    : exec (result (option (PVCAdmissionChange * PVCTransferBindings))) :=
  or_panic (bound_checkpoint o plan volume) (fun '(status, binding) =>
  let activation := mv_Activation status in
  let verify active := lift (verifyActiveStorageVolume deleting (mig_Name o) (SourcePVC binding)
                               (plan_DestinationNamespace plan) (DestinationPV binding) active) in
  if (bool_decide (is_Some (ActivatedAt activation)) || bool_decide (is_Some (ActivePVC activation)))%bool then
    check: verify (ActivePVC activation);
    Ret (inl None)
  else
  try: found ← lift (unrecordedActivePVC (SourcePVC binding) (SourcePV binding) (plan_DestinationNamespace plan));
  match found with
  | (Some active, _) =>
      check: verify (Some active);
      check: lift (VerifyVolumesOfflineForSession s (mig_Name o)
                     [{| SourcePVC := active; SourcePV := DestinationPV binding; DestinationPVC := active;
                         DestinationPV := DestinationPV binding |}]);
      Ret (inl None)
  | (None, found) =>
      try: change ← Ret (migrationActivationAdmission (plan_DestinationNamespace plan) volume
                           (found && negb (SourcePVCDeleted activation))%bool);
      Ret (inl (Some (change, binding)))
  end).

Fixpoint activation_candidates (o : ClusterMigration) (plan : ClusterMigrationPlan) (volumes : list VolumeSpec)
    : exec (result (list (PVCAdmissionChange * PVCTransferBindings))) :=
  match volumes with
  | [] => Ret (inl [])
  | volume :: rest =>
      try: candidate ← activation_candidate o plan volume;
      try: more ← activation_candidates o plan rest;
      Ret (inl match candidate with Some c => c :: more | None => more end)
  end.

Definition ValidateActivation (o : ClusterMigration) : exec (option err) :=
  check: Ret (validateClusterMigrationObject o);
  let phase := workflowResumePhase (mig_Status o) in
  match phase with
  | PhaseActivated | PhaseCompleted | PhaseResuming => verifyActiveVolumes o
  | PhaseFinalSynced | PhaseActivating =>
      or_panic (mig_Plan o) (fun plan =>
      try: candidates ← activation_candidates o plan (plan_Volumes plan);
      check: lift (validateMigrationPVCAdmission (plan_DestinationNamespace plan) (map fst candidates));
      let offline := map snd candidates in
      if ((phase =p PhaseActivating) || (ws_Phase (mig_Status o) =p PhaseFailed))%bool
      then lift (VerifyActivationRecovery s (mig_Name o) offline)
      else lift (VerifyVolumesOfflineForSession s (mig_Name o) offline))
  | _ =>
      Ret (Some (NewError ErrorPrecondition "migration activation"
        "migration must complete final sync before activation"))
  end.

Definition activateMigrationVolume (o : ClusterMigration) (plan : ClusterMigrationPlan) (i : nat)
    (binding : PVCTransferBindings) (desired : PVC) (status : ActivationStatus) : exec outcome :=
  if bool_decide (is_Some (ActivatedAt status)) then
    e ← lift (verifyActiveStorageVolume deleting (mig_Name o) (SourcePVC binding) (plan_DestinationNamespace plan)
                (DestinationPV binding) (ActivePVC status));
    Ret (o, e)
  else
    r ← with_progress (save_activation i)
          (ActivatePVC s (mig_Name o) (plan_DestinationNamespace plan) binding (Some desired) (Some status) true) o;
    Ret (r.1, r.2.2).

Definition activate_volume (o : ClusterMigration) (plan : ClusterMigrationPlan) (volume : VolumeSpec) : exec outcome :=
  or_panic (bound_checkpoint o plan volume) (fun '(status, binding) =>
  match migrationPVCManifest (mig_Name o) (SourcePVC binding) (SourcePV binding) (DestinationPV binding)
          (plan_DestinationNamespace plan) (vs_SourcePVCSpec volume) (vs_SourcePVCMetadata volume)
          (vs_StorageClass volume) (vs_Capacity volume) with
  | inr e => Ret (o, Some e)
  | inl desired =>
      activateMigrationVolume o plan (checkpoint_index o volume) binding desired (mv_Activation status)
  end).

Fixpoint activate_volumes (plan : ClusterMigrationPlan) (volumes : list VolumeSpec) (o : ClusterMigration) : exec outcome :=
  match volumes with
  | [] => exec_transition false o PhaseActivated "offline migration volumes are active"
  | volume :: rest => step_or_fail (activate_volume o plan volume) (activate_volumes plan rest)
  end.

Definition activate (o : ClusterMigration) : exec outcome :=
  check_x o (ValidateActivation o) (
  let phase := ws_Phase (mig_Status o) in
  let resume := workflowResumePhase (mig_Status o) in
  if ((phase =p PhaseActivated) || (phase =p PhaseCompleted))%bool then Ret (o, None) else
  if resume =p PhaseCompleted then exec_transition false o PhaseCompleted "migration completion revalidated" else
  if resume =p PhaseActivated then exec_transition false o PhaseActivated "migration activation revalidated" else
  step_x (exec_transition false o PhaseActivating "activating offline migration volumes") (fun o =>
  or_panic (mig_Plan o) (fun plan => activate_volumes plan (plan_Volumes plan) o))).

(** ** Rollback *)

Definition verifyRestoredVolumes (o : ClusterMigration) : exec (option err) :=
  or_panic (mig_Plan o) (fun plan =>
  (fix loop (volumes : list VolumeSpec) : exec (option err) :=
     match volumes with
     | [] => Ret None
     | volume :: rest =>
         or_panic (checkpoint_of o volume) (fun status =>
         check: lift (verifyRollbackStorageVolume deleting (mig_Name o)
                        (qualifiedResourceReference (vs_SourcePVC volume) (plan_SourceNamespace plan))
                        (qualifiedResourceReference (vs_SourcePV volume) "") (ActivePVC (mv_Activation status)));
         loop rest)
     end) (plan_Volumes plan)).

(** A volume that is rolled back, recovered or active needs no offline check. *)
Definition rollback_candidate (o : ClusterMigration) (plan : ClusterMigrationPlan) (phase : Phase) (volume : VolumeSpec)
    : exec (result (option PVCTransferBindings)) :=
  or_panic (bound_checkpoint o plan volume) (fun '(status, binding) =>
  let activation := mv_Activation status in
  let verify active := lift (verifyActiveStorageVolume deleting (mig_Name o) (SourcePVC binding)
                               (plan_DestinationNamespace plan) (DestinationPV binding) active) in
  if bool_decide (is_Some (RolledBackAt activation)) then
    check: lift (verifyRollbackStorageVolume deleting (mig_Name o) (SourcePVC binding) (SourcePV binding)
                   (ActivePVC activation));
    Ret (inl None)
  else
  try: recovered ←
    (if phase =p PhaseRollingBack then
       lift (validateUnrecordedRollbackStorage deleting s (mig_Name o) (SourcePVC binding) (SourcePV binding)
               (DestinationPV binding) (ActivePVC activation))
     else Ret (inl false));
  if (recovered : bool) then Ret (inl None) else
  if (bool_decide (is_Some (ActivatedAt activation)) || bool_decide (is_Some (ActivePVC activation)))%bool then
    check: verify (ActivePVC activation);
    Ret (inl None)
  else
  if phase =p PhaseActivating then
    try: found ← lift (unrecordedActivePVC (SourcePVC binding) (SourcePV binding) (plan_DestinationNamespace plan));
    match found.1 with
    | Some active => check: verify (Some active); Ret (inl None)
    | None => Ret (inl (Some binding))
    end
  else Ret (inl (Some binding))).

Fixpoint rollback_candidates (o : ClusterMigration) (plan : ClusterMigrationPlan) (phase : Phase)
    (volumes : list VolumeSpec) : exec (result (list PVCTransferBindings)) :=
  match volumes with
  | [] => Ret (inl [])
  | volume :: rest =>
      try: candidate ← rollback_candidate o plan phase volume;
      try: more ← rollback_candidates o plan phase rest;
      Ret (inl match candidate with Some c => c :: more | None => more end)
  end.

Definition ValidateRollback (o : ClusterMigration) : exec (option err) :=
  check: Ret (validateClusterMigrationObject o);
  let phase := workflowResumePhase (mig_Status o) in
  match phase with
  | PhaseRolledBack => verifyRestoredVolumes o
  | PhaseFinalSynced | PhaseActivating | PhaseActivated | PhaseResuming | PhaseCompleted | PhaseRollingBack =>
      or_panic (mig_Plan o) (fun plan =>
      try: offline ← rollback_candidates o plan phase (plan_Volumes plan);
      if ((phase =p PhaseActivating) || (phase =p PhaseRollingBack))%bool
      then lift (VerifyActivationRecovery s (mig_Name o) offline)
      else lift (VerifyVolumesOfflineForSession s (mig_Name o) offline))
  | _ => Ret (Some (NewError ErrorPrecondition "rollback migration" "migration phase cannot roll back"))
  end.

Fixpoint destinations_unconsumed (o : ClusterMigration) (plan : ClusterMigrationPlan) (volumes : list VolumeSpec)
    : exec (option err) :=
  match volumes with
  | [] => Ret None
  | volume :: rest =>
      check: lift (rollbackDestinationConsumed (plan_DestinationNamespace plan) (planned_name volume) (mig_Name o));
      destinations_unconsumed o plan rest
  end.

Definition rollbackMigrationVolume (o : ClusterMigration) (plan : ClusterMigrationPlan) (i : nat)
    (binding : PVCTransferBindings) (desired : PVC) (status : ActivationStatus) : exec outcome :=
  r ← with_progress (save_activation i)
        (RollbackPVC s (mig_Name o) (plan_DestinationNamespace plan) binding (Some desired) (Some status) true) o;
  Ret (r.1, r.2.2).

Definition rollback_volume (o : ClusterMigration) (plan : ClusterMigrationPlan) (volume : VolumeSpec) : exec outcome :=
  or_panic (bound_checkpoint o plan volume) (fun '(status, binding) =>
  if bool_decide (is_Some (RolledBackAt (mv_Activation status))) then Ret (o, None) else
  let manifest := BoundPVCManifest (mig_Name o) (SourcePVC binding) (Name (SourcePV binding))
                    (vs_SourcePVCSpec volume) (vs_SourcePVCMetadata volume) in
  let desired := pvc_set_metadata manifest (pvc_Labels manifest)
                   (<[RollbackPVAnnotation := Name (DestinationPV binding)]> (pvc_Annotations manifest))
                   (pvc_OwnerReferences manifest) in
  rollbackMigrationVolume o plan (checkpoint_index o volume) binding desired (mv_Activation status)).

(** [volumes] are the planned volumes in reverse. *)
Fixpoint rollback_volumes (plan : ClusterMigrationPlan) (volumes : list VolumeSpec) (o : ClusterMigration) : exec outcome :=
  match volumes with
  | [] =>
      e ← verifyRestoredVolumes o;
      match e with
      | Some x => exec_fail o x
      | None =>
          exec_transition false o PhaseRolledBack "source volumes restored; workload remains caller-managed"
      end
  | volume :: rest => step_or_fail (rollback_volume o plan volume) (rollback_volumes plan rest)
  end.

Definition rollback (o : ClusterMigration) : exec outcome :=
  check_x o (ValidateRollback o) (
  let phase := ws_Phase (mig_Status o) in
  if phase =p PhaseRolledBack then Ret (o, None) else
  check_x o
    (match mig_Plan o with
     | Some plan =>
         if ((phase =p PhaseCompleted) || (phase =p PhaseActivated))%bool
         then destinations_unconsumed o plan (plan_Volumes plan) else Ret None
     | None => Ret None
     end) (
  step_x (exec_transition false o PhaseRollingBack "rolling back offline migration volumes") (fun o =>
  or_panic (mig_Plan o) (fun plan => rollback_volumes plan (rev (plan_Volumes plan)) o)))).
End executor.
