(* ===== verification/SwitcherRules.v ===== *)
(** * Proof rules of the switcher

    What each step of the cutover code has observed when it succeeds, and which
    obligation it puts on the guard for each write it issues.  The rules are
    generic in the guard [G], so the theorems on activation, rollback and rename
    reuse them with different guards. *)

From S2P Require Import Prelude Utf8 GoErrors Lifecycle KubeTypes Prog Api ResourceState Ownership PVBinding Offline Activation.

(** ** Observations *)

(** A Pod list without a consumer of the claim. *)
Definition no_consumers (namespace claim : string) (h : trace) : Prop :=
  exists pods, Ev (ListPods namespace) (inl (Some pods)) ∈ h /\
    Forall (fun pod => PodPreventsSafePVCDeletion pod claim = false) pods.

(** An attachment list in which the volume is attached nowhere. *)
Definition detached (pvName : string) (h : trace) : Prop :=
  exists items, Ev ListVolumeAttachments (inl (Some items)) ∈ h /\
    Forall (fun a => ~ (va_PersistentVolumeName a = Some pvName /\ va_Attached a = true)) items.

(** The volume recorded by [ref] was read, or read and then written, with [P]. *)
Definition pv_seen (ref : ObjectReference) (P : PV -> Prop) (h : trace) : Prop :=
  exists pv, pv_UID pv = UID ref /\ P pv /\
    (Ev (GetPV (Name ref)) (inl pv) ∈ h \/
     exists pv0, Ev (GetPV (Name ref)) (inl pv0) ∈ h /\ pv_Name pv = pv_Name pv0 /\
       pv_ResourceVersion pv = pv_ResourceVersion pv0 /\ exists q, Ev (UpdatePV pv) (inl q) ∈ h).

(** Safe to lose its claim: policy Retain, marked by the session, and the
    original policy recorded for the finalizer. *)
Definition retain_marked (sid : string) (pv : PV) : Prop :=
  pv_ReclaimPolicy pv = ReclaimRetain /\ mget (pv_Labels pv) SessionKey = sid /\
  mget (pv_Annotations pv) OriginalPolicyAnnotation <> "".

Definition retained (ref : ObjectReference) (sid : string) : trace -> Prop :=
  pv_seen ref (retain_marked sid).

Definition reserved (ref : ObjectReference) (namespace claim : string) : trace -> Prop :=
  pv_seen ref (fun pv => claimref_is (pv_ClaimRef pv) namespace claim = true).

(** The claim was Bound to the recorded volume, which pointed back at it and
    covered its request. *)
Definition binding_seen (p : PVC) (ref : ObjectReference) (h : trace) : Prop :=
  pvc_Phase p = ClaimBound /\ pvc_VolumeName p = Name ref /\
  exists pv, Ev (GetPV (Name ref)) (inl pv) ∈ h /\ pv_UID pv = UID ref /\
    claimref_matches pv p = true /\
    (forall q, spec_StorageRequest (pvc_Spec p) = Some q -> (0 < q)%Z ->
       exists c, pv_Capacity pv = Some c /\ (q <= c)%Z).

(** ** Observations persist *)

Section persist.
Context (h h' : trace) (Hs : h `suffix_of` h').

Lemma no_consumers_mono ns c : no_consumers ns c h -> no_consumers ns c h'.
Proof. intros (pods & Hp & Hf). exists pods. split; [by eapply suffix_elem|done]. Qed.

Lemma detached_mono n : detached n h -> detached n h'.
Proof. intros (items & Hp & Hf). exists items. split; [by eapply suffix_elem|done]. Qed.

Lemma pv_seen_mono ref P : pv_seen ref P h -> pv_seen ref P h'.
Proof.
  intros (pv & Hu & HP & Hor). exists pv. split_and!; [done|done|].
  destruct Hor as [Hg|(pv0 & H1 & H2 & H3 & q & H4)]; [left; by eapply suffix_elem|].
  right. exists pv0. split_and!; try done; [by eapply suffix_elem|]. exists q. by eapply suffix_elem.
Qed.

Lemma claim_absent_mono ref : claim_absent ref h -> claim_absent ref h'.
Proof. intros (e & He & Hi). exists e. split; [done|by eapply suffix_elem]. Qed.

Lemma binding_seen_mono p ref : binding_seen p ref h -> binding_seen p ref h'.
Proof.
  intros (H1 & H2 & pv & H3 & H4). split_and!; [done|done|]. exists pv.
  split; [by eapply suffix_elem|done].
Qed.
End persist.

Create HintDb seen discriminated.
#[export] Hint Resolve no_consumers_mono detached_mono pv_seen_mono claim_absent_mono
  binding_seen_mono : seen.

(** ** What [retained_pv] writes *)

Lemma markPVSession_session labels sid role :
  mget (markPVSession labels sid role).1 SessionKey = sid.
Proof. apply (markPVSession_labels labels sid role). Qed.

Lemma set_label_changed acc kv : acc.2 = true -> (set_label acc kv).2 = true.
Proof. destruct acc as [l b]. unfold set_label; simpl. intros ->. by case_test. Qed.

Lemma foldl_set_label_changed l acc : acc.2 = true -> (foldl set_label acc l).2 = true.
Proof. revert acc. induction l as [|kv l IH]; intros acc Ha; simpl; [done|]. by apply IH, set_label_changed. Qed.

Lemma set_label_unchanged acc kv : (set_label acc kv).2 = false -> set_label acc kv = acc.
Proof. destruct acc as [l b]. unfold set_label; simpl. by case_test. Qed.

Lemma foldl_set_label_unchanged l acc : (foldl set_label acc l).2 = false -> foldl set_label acc l = acc.
Proof.
  revert acc. induction l as [|kv l IH]; intros acc Hf; simpl in *; [done|].
  assert (foldl set_label (set_label acc kv) l = set_label acc kv) as Heq by (by apply IH).
  rewrite Heq in Hf |- *. by apply set_label_unchanged.
Qed.

(** Session labels, role, pair and the original policy; Retain. *)
Lemma retained_pv_marked pv sid role pairs :
  retain_marked sid (retained_pv pv sid role pairs).1.
Proof.
  unfold retained_pv, retain_marked.
  pose proof (markPVSession_session (pv_Labels pv) sid role) as Hl.
  destruct (markPVSession (pv_Labels pv) sid role) as [labels ch] eqn:E1.
  destruct (foldl _ (pv_Annotations pv, ch) pairs) as [ann ch'] eqn:E2.
  destruct (mget ann OriginalPolicyAnnotation =s "") eqn:E3; cbn -[policy_string].
  - split_and!; [done|done|]. rewrite mget_insert. apply policy_string_nonempty.
  - split_and!; [done|done|]. by bool_prop.
Qed.

Lemma retained_pv_identity pv sid role pairs :
  let pv' := (retained_pv pv sid role pairs).1 in
  pv_Name pv' = pv_Name pv /\ pv_UID pv' = pv_UID pv /\
  pv_ResourceVersion pv' = pv_ResourceVersion pv /\ pv_ClaimRef pv' = pv_ClaimRef pv /\
  pv_Capacity pv' = pv_Capacity pv.
Proof.
  cbv zeta. unfold retained_pv. destruct (markPVSession _ _ _), (foldl _ _ _). by case_test.
Qed.

(** When nothing changes, the volume that was read is already as required. *)
Lemma retained_pv_unchanged pv sid role pairs :
  (retained_pv pv sid role pairs).2 = false -> retain_marked sid pv.
Proof.
  unfold retained_pv, retain_marked.
  pose proof (markPVSession_session (pv_Labels pv) sid role) as Hl.
  unfold markPVSession in *.
  destruct (foldl set_label (pv_Labels pv, false) _) as [labels ch] eqn:E1.
  destruct (foldl _ (pv_Annotations pv, ch) pairs) as [ann ch'] eqn:E2.
  destruct (mget ann OriginalPolicyAnnotation =s "") eqn:E3;
    destruct (bool_decide_reflect (pv_ReclaimPolicy pv = ReclaimRetain)); cbn; try done.
  intros ->. bool_prop.
  assert (ch = false) as ->.
  { destruct ch; [|done]. pose proof (foldl_set_label_changed pairs (pv_Annotations pv, true) eq_refl) as Hc.
    rewrite E2 in Hc. done. }
  pose proof (foldl_set_label_unchanged pairs (pv_Annotations pv, false)) as Ha. rewrite E2 in Ha.
  specialize (Ha eq_refl) as [= ->].
  pose proof (foldl_set_label_unchanged
    [(ManagedByLabel, ManagedByValue); (SessionKey, sid); (ResourceRoleLabel, role)] (pv_Labels pv, false)) as Hb.
  rewrite E1 in Hb. specialize (Hb eq_refl) as [= ->].
  done.
Qed.

(** The recorded original policy is written once and then kept. *)
Lemma set_label_ne_other acc kv k : kv.1 <> k -> mget (set_label acc kv).1 k = mget acc.1 k.
Proof. intros Hk. apply mget_lookup. by apply set_label_lookup_ne. Qed.

Lemma retained_pv_original pv sid role other :
  let a := mget (pv_Annotations pv) OriginalPolicyAnnotation in
  forall pairs, pairs = [] \/ pairs = [(PairedPVAnnotation, other)] ->
  mget (pv_Annotations (retained_pv pv sid role pairs).1) OriginalPolicyAnnotation =
  if a =s "" then policy_string (pv_ReclaimPolicy pv) else a.
Proof.
  cbv zeta. intros pairs Hp. unfold retained_pv.
  destruct (markPVSession (pv_Labels pv) sid role) as [labels ch].
  assert (mget (foldl set_label (pv_Annotations pv, ch) pairs).1 OriginalPolicyAnnotation
          = mget (pv_Annotations pv) OriginalPolicyAnnotation) as Hm.
  { destruct Hp as [->| ->]; cbn [foldl]; [done|]. by rewrite set_label_ne_other. }
  destruct (foldl set_label (pv_Annotations pv, ch) pairs) as [ann ch']. cbn [fst] in Hm. rewrite Hm.
  case_test; cbn -[policy_string]; [apply mget_insert|done].
Qed.

(** ** Rules *)

Lemma no_consumer_pods pods ns c :
  ensureNoConsumerInPods pods ns c = None ->
  Forall (fun pod => PodPreventsSafePVCDeletion pod c = false) pods.
Proof.
  induction pods as [|pod pods IH]; simpl; [by constructor|]. case_test; [done|]. auto.
Qed.

Lemma attachments_clear name items :
  existsb (attachment_holds [name]) items = false ->
  Forall (fun a => ~ (va_PersistentVolumeName a = Some name /\ va_Attached a = true)) items.
Proof.
  induction items as [|a items IH]; simpl; [by constructor|].
  rewrite orb_false_iff. intros [Ha Hi]. constructor; [|by apply IH].
  intros [Hn Hat]. unfold attachment_holds in Ha. rewrite Hn, Hat in Ha. simpl in Ha.
  apply contains_false in Ha. set_solver.
Qed.

Section rules.
Context (G : trace -> req -> Prop) (HG : reads_ok G) (s : Switcher).

(** The shared end of the retried updates. *)
Lemma wp_report op msg (p : kube (option err)) P h :
  wp G p (on_ok P) h -> wp G (p ≫= report_update op msg) (on_ok P) h.
Proof.
  intros Hp. apply wp_bind_2. eapply wp_mono; [exact Hp|]. intros [e|] h' _ HP; [|done].
  unfold report_update. by case_test.
Qed.

Lemma wp_waitFor_ description (condition : kube (result (bool * unit))) P h :
  (forall h', h `suffix_of` h' ->
     wp G condition (fun r h'' => forall u, r = inl (true, u) -> P h'') h') ->
  wp G (waitFor_ s description condition) (on_ok P) h.
Proof.
  intros Hc. apply wp_bind_2. eapply wp_mono; [apply (wp_WaitFor G HG _ _ _ _ (fun _ => P)), Hc|].
  intros [u|e] h' _ Hr He; [by apply (Hr u)|done].
Qed.

Lemma wp_ensureNoConsumers ns c h : wp G (ensureNoConsumers ns c) (on_ok (no_consumers ns c)) h.
Proof.
  apply wp_bind_2, wp_call; [done|done|done|]. intros [[pods|]|e]; [|done|done].
  intros Hp. exists pods. split; [left|by eapply no_consumer_pods].
Qed.

Lemma wp_ensureDetached name h :
  name <> "" -> wp G (ensureDetached s name) (on_ok (detached name)) h.
Proof.
  intros Hn. unfold ensureDetached. case_test; bool_prop; [done|].
  apply wp_waitFor_. intros h' _. apply wp_bind_2, wp_call; [done|done|done|].
  intros [[items|]|e]; intros u; [|done|done]. intros [= Hi]. exists items. split; [left|].
  apply attachments_clear. by apply negb_true_iff in Hi.
Qed.

(** A delete is issued right behind a passed fence and the read of a claim with
    the recorded UID and no custom finalizer, with that UID and the version
    just read as preconditions; success means the claim is gone. *)
Lemma wp_deletePVC ref h :
  (forall pvc, pvc_UID pvc = UID ref -> validatePVCDeletionFinalizers pvc "delete PVC" = None ->
     G (Ev FenceErr None :: Ev CtxErr None :: Ev (GetPVC (Namespace ref) (Name ref)) (inl pvc) :: h)
       (DeletePVC (Namespace ref) (Name ref) (pvc_UID pvc) (pvc_ResourceVersion pvc))) ->
  wp G (deletePVC s ref) (on_ok (claim_absent ref)) h.
Proof.
  intros Hd. unfold deletePVC. case_test; [done|].
  apply wp_bind_2, wp_call; [done|done|done|]. intros [pvc|e].
  - case_test; [done|]. bool_prop. apply wp_check_Ret.
    destruct (validatePVCDeletionFinalizers pvc _) eqn:Hf; [done|].
    apply wp_check, wp_fence; [done| |done]. apply wp_bind_2. split; [by apply Hd|]. intros d.
    apply wp_check_Ret. destruct (match d with Some e => _ | None => None end); [done|].
    apply wp_check, wp_fence; [done| |done]. apply wp_waitFor_. intros h' _.
    apply wp_bind_2, wp_call; [done|done|done|]. intros [current|e] u.
    + by case_test.
    + case_test; [|done]. intros _. exists e. split; [done|left].
  - case_test; [|done]. intros _. exists e. split; [done|left].
Qed.

(** *** Retaining *)

Lemma pv_seen_got (ref : ObjectReference) (P : PV -> Prop) pv h :
  pv_UID pv = UID ref -> P pv -> pv_seen ref P (Ev (GetPV (Name ref)) (inl pv) :: h).
Proof. intros. exists pv. split_and!; [done|done|]. left. left. Qed.

Lemma pv_seen_put (ref : ObjectReference) (P : PV -> Prop) pv pv' (h : trace) :
  pv_UID pv' = UID ref -> pv_Name pv' = pv_Name pv ->
  pv_ResourceVersion pv' = pv_ResourceVersion pv -> P pv' ->
  Ev (GetPV (Name ref)) (inl pv) ∈ h ->
  (exists q, Ev (UpdatePV pv') (inl q) ∈ h) -> pv_seen ref P h.
Proof. intros. exists pv'. split_and!; [done|done|]. right. by exists pv. Qed.

(** Obligation of a retaining update. *)
Definition retain_ok (ref : ObjectReference) (sid role : string) (pairs : list (string * string))
    (h : trace) : Prop :=
  forall pv h', h `suffix_of` h' -> pv_UID pv = UID ref ->
    mget (pv_Labels pv) SessionKey = "" \/ mget (pv_Labels pv) SessionKey = sid ->
    G (Ev FenceErr None :: Ev CtxErr None :: Ev (GetPV (Name ref)) (inl pv) :: h')
      (UpdatePV (retained_pv pv sid role pairs).1).

Lemma wp_retain_read ref sid role pairs pv h :
  retain_ok ref sid role pairs h -> pv_UID pv = UID ref ->
  foreign_owner (mget (pv_Labels pv) SessionKey) sid = false ->
  wp G (let '(pv', changed) := retained_pv pv sid role pairs in
        if negb changed then Ret None else fenced_update_pv pv')
     (on_ok (retained ref sid)) (Ev (GetPV (Name ref)) (inl pv) :: h).
Proof.
  intros Hok Hu Hf. apply foreign_owner_false in Hf.
  pose proof (retained_pv_identity pv sid role pairs) as (H1 & H2 & H3 & _).
  pose proof (retained_pv_marked pv sid role pairs) as Hm.
  pose proof (retained_pv_unchanged pv sid role pairs) as Hun.
  specialize (Hok pv h ltac:(done) Hu Hf).
  destruct (retained_pv pv sid role pairs) as [pv' changed]. simpl in *.
  destruct changed; simpl.
  - apply wp_fenced_update_pv; [done|done|]. intros q.
    apply (pv_seen_put ref _ pv pv'); [by rewrite H2|done|done|done|set_solver|exists q; set_solver].
  - intros _. apply pv_seen_got; [done|auto].
Qed.

Lemma wp_retain_retry `{ConflictRetry} ref sid role h :
  retain_ok ref sid role [] h ->
  wp G (RetryOnConflict (retain_once ref sid role)) (on_ok (retained ref sid)) h.
Proof.
  intros Hok. apply wp_retry. intros h' Hs. unfold retain_once.
  apply wp_try, wp_call; [done|done|done|]. intros [pv|e]; [|done].
  case_test; [done|]. bool_prop. case_test; [done|].
  apply wp_retain_read; [|done|done]. intros pv' h'' Hs'. apply Hok. by etrans.
Qed.

Lemma wp_ensureRetain `{ConflictRetry} ref sid role h :
  retain_ok ref sid role [] h -> wp G (ensureRetain ref sid role) (on_ok (retained ref sid)) h.
Proof.
  intros Hok. unfold ensureRetain. case_test; [done|]. by apply wp_report, wp_retain_retry.
Qed.

Lemma wp_mark_item `{ConflictRetry} sid (rb : bool) ref role other h :
  retain_ok ref sid role [(PairedPVAnnotation, other)] h ->
  wp G (mark_item sid rb ref role other)
     (on_ok (fun h' => retained ref sid h' \/ (rb = true /\ role = ResourceRoleRollback))) h.
Proof.
  intros Hok. apply wp_report. apply wp_retry. intros h' Hs. unfold mark_once.
  apply wp_bind_2, wp_call; [done|done|done|]. intros [pv|e].
  - case_test; [done|]. bool_prop. case_test; [done|].
    eapply wp_mono; [apply wp_retain_read; [|done|done]|].
    + intros pv' h'' Hs'. apply Hok. by etrans.
    + intros r h'' _ Hr Hn. left. by apply Hr.
  - case_test; [|done]. bool_prop. intros _. by right.
Qed.

Lemma wp_markPVPair `{ConflictRetry} sid src dst (rb : bool) h :
  let active := if rb then src else dst in
  let rollback := if rb then dst else src in
  retain_ok active sid ResourceRoleActive [(PairedPVAnnotation, Name rollback)] h ->
  retain_ok rollback sid ResourceRoleRollback [(PairedPVAnnotation, Name active)] h ->
  wp G (markPVPair sid src dst rb)
     (on_ok (fun h' => retained active sid h' /\ (retained rollback sid h' \/ rb = true))) h.
Proof.
  cbv zeta. intros H1 H2. unfold markPVPair. case_test; [done|].
  assert ((if rb then (src, dst) else (dst, src)) = (if rb then src else dst, if rb then dst else src))
    as -> by (by destruct rb).
  apply wp_check. eapply wp_mono; [by apply wp_mark_item|]. intros [e|] h1 Hs1 Ha; [done|].
  apply wp_check. eapply wp_mono; [apply wp_mark_item|].
  { intros pv h' Hs'. apply H2. by etrans. }
  intros [e|] h2 Hs2 Hb; [done|]. intros _.
  destruct (Ha eq_refl) as [Ha'|[_ ?]]; [|done]. split; [by eapply pv_seen_mono|].
  destruct (Hb eq_refl) as [Hb'|[Hb' _]]; [by left|by right].
Qed.
End rules.

(** *** Reserving and creating *)

(** Why a reservation may overwrite the claim reference of a volume: it named
    another claim, or the claim it named was read as gone. *)
Definition claimref_stale (pv : PV) (ns claim : string) (h : trace) : Prop :=
  claimref_is (pv_ClaimRef pv) ns claim = false \/
  exists e h0, IsNotFound e = true /\ h = Ev (GetPVC ns claim) (inr e) :: h0.

Section rules.
Context (G : trace -> req -> Prop) (HG : reads_ok G) (s : Switcher).

Definition reserve_ok (ref : ObjectReference) (ns claim sid : string) (h : trace) : Prop :=
  forall pv h0 h', h `suffix_of` h0 -> pv_UID pv = UID ref ->
    mget (pv_Labels pv) SessionKey = "" \/ mget (pv_Labels pv) SessionKey = sid ->
    Ev (GetPV (Name ref)) (inl pv) :: h0 `suffix_of` h' -> claimref_stale pv ns claim h' ->
    G (Ev FenceErr None :: Ev CtxErr None :: h')
      (UpdatePV (pv_set_ClaimRef pv (Some (reservation ns claim)))).

Lemma reservation_is ns claim : claimref_is (Some (reservation ns claim)) ns claim = true.
Proof. simpl. by rewrite !String.eqb_refl. Qed.

Lemma wp_reserve_update ref ns claim sid pv h0 h :
  reserve_ok ref ns claim sid h0 -> pv_UID pv = UID ref ->
  mget (pv_Labels pv) SessionKey = "" \/ mget (pv_Labels pv) SessionKey = sid ->
  Ev (GetPV (Name ref)) (inl pv) :: h0 `suffix_of` h -> claimref_stale pv ns claim h ->
  wp G (fenced_update_pv (pv_set_ClaimRef pv (Some (reservation ns claim))))
     (on_ok (reserved ref ns claim)) h.
Proof.
  intros Hok Hu Ho Hs Hst. apply wp_fenced_update_pv; [done|by eapply Hok|]. intros q.
  eapply (pv_seen_put ref _ pv (pv_set_ClaimRef pv _)); [done|done|done|apply reservation_is| |exists q; set_solver].
  do 5 right. eapply suffix_elem; [exact Hs|left].
Qed.

Lemma wp_updatePVReservation ref ns claim sid h :
  reserve_ok ref ns claim sid h ->
  wp G (updatePVReservation ref ns claim sid) (on_ok (reserved ref ns claim)) h.
Proof.
  intros Hok. unfold updatePVReservation. apply wp_try, wp_call; [done|done|done|].
  intros [pv|e]; [|done]. case_test; [done|]. bool_prop. case_test; [done|].
  apply foreign_owner_false in Heqb0. case_test.
  - assert (reserved ref ns claim (Ev (GetPV (Name ref)) (inl pv) :: h)) as Hr by (by apply pv_seen_got).
    apply wp_bind_2, wp_call; [done|done|done|]. intros [current|e].
    + case_test; [|done]. intros _. eapply pv_seen_mono; [|exact Hr]. by apply suffix_cons_r.
    + case_test; [done|]. bool_prop. case_test.
      * intros _. eapply pv_seen_mono; [|exact Hr]. by apply suffix_cons_r.
      * eapply wp_reserve_update; [done|done|done|by apply suffix_cons_r|]. right. eauto.
  - eapply wp_reserve_update; [done|done|done|done|]. by left.
Qed.

Lemma wp_reservePV `{ConflictRetry} ref ns claim sid h :
  reserve_ok ref ns claim sid h ->
  wp G (reservePV s ref ns claim sid) (on_ok (reserved ref ns claim)) h.
Proof.
  intros Hok. unfold reservePV. case_test; [done|]. apply wp_check.
  eapply wp_mono with (Q := on_ok (fun _ => True)).
  { apply wp_waitFor_; [done|]. intros h' _.
    apply wp_try, wp_call; [done|done|done|]. intros [pv|e]; [|done].
    case_test; [done|]. case_test; [done|]. apply wp_bind_2, wp_call; [done|done|done|].
    intros [c|e]; by case_test. }
  intros [e|] h1 Hs1 _; [done|]. apply wp_report. apply wp_retry. intros h2 Hs2.
  apply wp_updatePVReservation. intros pv h0 h' Hs0. apply Hok. by do 2 (etrans; [eassumption|]).
Qed.

Lemma wp_validateBoundPVC pvc h : wp G (validateBoundPVC pvc) (on_ok (fun _ => True)) h.
Proof. apply wp_bind_2, wp_call; [done|done|done|]. by intros [x|e]. Qed.

Definition bound_claim (p desired : PVC) (sid : string) (h : trace) : Prop :=
  pvc_Phase p = ClaimBound /\ pvc_VolumeName p = pvc_VolumeName desired /\
  session_marked p sid = true /\ exists ns name, Ev (GetPVC ns name) (inl p) ∈ h.

Lemma wp_createBoundPVC sid pvc h :
  G (Ev FenceErr None :: Ev CtxErr None :: h) (CreatePVC pvc false) ->
  wp G (createBoundPVC s sid pvc) (on_val (fun p => bound_claim p pvc sid)) h.
Proof.
  intros Hc. unfold createBoundPVC. apply wp_check, wp_fence; [done| |by intros e a b c].
  apply wp_bind_2. split; [done|]. intros c. apply wp_bind_2.
  eapply wp_mono with (Q := fun _ _ => True).
  { destruct c as [x|e]; [done|]. case_test; [|done]. by apply wp_bind_2, wp_call. }
  intros [created|e] h1 _ _; [|by intros a]. apply wp_check, wp_fence; [done| |by intros e a b].
  destruct created as [created|]; [|by intros a].
  case_test; [by intros a|]. case_test; [by intros a|].
  apply (wp_WaitFor G HG). intros h2 _. apply wp_bind_2, wp_call; [done|done|done|].
  intros [current|e] p; [|done].
  repeat (case_test; [done|]). intros [= Hp <-]. bool_prop.
  apply bool_decide_eq_true in Hp. split_and!; [done|done|done|]. eexists _, _. left.
Qed.

Lemma wp_verifyBinding `{QuantityText} p ref h :
  wp G (verifyBinding (Some p) ref) (on_ok (binding_seen p ref)) h.
Proof.
  unfold verifyBinding. case_test; [done|]. case_test; [done|]. bool_prop.
  apply bool_decide_eq_true in H0. apply wp_bind_2, wp_call; [done|done|done|].
  intros [pv|e]; [|done]. case_test; [done|]. bool_prop. case_test; [done|]. bool_prop.
  destruct (ValidateBoundVolumeCapacity (Some p) (Some pv) None) eqn:Hv; [done|].
  intros _. apply bound_capacity_None in Hv as [Hv _].
  split_and!; [done|done|]. exists pv. split_and!; [left|done|done|]. intros q. by apply Hv.
Qed.
End rules.

(** ** Checkpoints *)

(** The checkpoint the callback last persisted, [d] before the first. *)
Fixpoint last_saved (d : ActivationStatus) (h : trace) : ActivationStatus :=
  match h with
  | [] => d
  | Ev r x :: rest =>
      match r as r0 return resp r0 -> ActivationStatus with
      | Progress (Some st) =>
          fun e : option err => match e with None => st | Some _ => last_saved d rest end
      | _ => fun _ => last_saved d rest
      end x
  end.

(** No checkpoint is written by the program. *)
Fixpoint quiet {A} (p : kube A) : Prop :=
  match p with
  | Ret _ | OutOfFuel => True
  | Vis r k => is_progress r = false /\ forall x, quiet (k x)
  end.

Lemma last_saved_skip d r x h : is_progress r = false -> last_saved d (Ev r x :: h) = last_saved d h.
Proof. by destruct r. Qed.

Lemma wp_quiet {A} G (p : kube A) Q h d :
  quiet p -> wp G p Q h -> wp G p (fun a h' => Q a h' /\ last_saved d h' = last_saved d h) h.
Proof.
  revert h. induction p as [a| |r k IH]; intros h; [done|done|].
  intros [Hr Hk] [HG Hw]. split; [done|]. intros x. eapply wp_mono; [by apply IH|].
  intros a h' _ [Hq He]. split; [done|]. by rewrite He, last_saved_skip.
Qed.

Section quiet.
Lemma quiet_bind {A B} (p : kube A) (f : A -> kube B) :
  quiet p -> (forall a, quiet (f a)) -> quiet (p ≫= f).
Proof.
  induction p as [a| |r k IH]; intros Hp Hf; [by apply Hf|done|].
  destruct Hp as [Hr Hk]. split; [done|]. intros x. by apply IH.
Qed.

Lemma quiet_wait_loop {A} n d (c : kube (result (bool * A))) : quiet c -> quiet (wait_loop n d c).
Proof.
  intros Hc. induction n as [|n IH]; [done|]. split; [done|]. intros [e|]; [done|].
  apply quiet_bind; [done|]. intros [[[|] a]|e]; [done| |].
  - split; [done|]. by intros [e|].
  - split; [done|]. by intros [e'|].
Qed.

Lemma quiet_WaitFor {A} n i d (c : kube (result (bool * A))) : quiet c -> quiet (WaitFor n i d c).
Proof. intros Hc. unfold WaitFor. case_test; [done|]. by apply quiet_wait_loop. Qed.

Lemma quiet_retry `{ConflictRetry} fn : quiet fn -> quiet (RetryOnConflict fn).
Proof.
  intros Hf. destruct (retry_law fn) as [steps ->]. induction steps as [|n IH]; [done|].
  apply quiet_bind; [done|]. intros [e|]; [|done]. by case_test.
Qed.
End quiet.

(** Splits a program along its control flow. *)
Ltac quiet_tac :=
  repeat first
    [ exact I
    | match goal with |- quiet (call _) => by (split; [reflexivity|intros ?; exact I]) end
    | apply quiet_retry
    | apply quiet_WaitFor
    | apply quiet_bind; [|intros ?]
    | match goal with
      | |- quiet (check _ _) => unfold check
      | |- quiet (try _ _) => unfold try
      | |- quiet (if ?b then _ else _) => destruct b
      | |- quiet (match ?x with _ => _ end) => destruct x
      end ].

Section quiet_ops.
Context `{ConflictRetry} `{QuantityText} (s : Switcher).

Lemma quiet_fence : quiet fence.
Proof. unfold fence. quiet_tac. Qed.

Lemma quiet_fenced_update pv : quiet (fenced_update_pv pv).
Proof. unfold fenced_update_pv, fence, fence_after. quiet_tac. Qed.

Lemma quiet_ensureNoConsumers ns c : quiet (ensureNoConsumers ns c).
Proof. unfold ensureNoConsumers. quiet_tac. Qed.

Lemma quiet_ensureDetached n : quiet (ensureDetached s n).
Proof. unfold ensureDetached, ensureVolumesDetached, waitFor_, wait_error, waitFor. quiet_tac. Qed.

Lemma quiet_deletePVC ref : quiet (deletePVC s ref).
Proof. unfold deletePVC, fence, waitFor_, wait_error, waitFor. quiet_tac. Qed.

Lemma quiet_ensureRetain ref sid role : quiet (ensureRetain ref sid role).
Proof. unfold ensureRetain, retain_once, report_update. quiet_tac; apply quiet_fenced_update. Qed.

Lemma quiet_markPVPair sid src dst rb : quiet (markPVPair sid src dst rb).
Proof. unfold markPVPair, mark_item, mark_once, report_update. quiet_tac; apply quiet_fenced_update. Qed.

Lemma quiet_reservePV ref ns claim sid : quiet (reservePV s ref ns claim sid).
Proof.
  unfold reservePV, waitForPVReservation, pvReadyForReservation, updatePVReservation, report_update,
    waitFor_, wait_error, waitFor.
  quiet_tac; apply quiet_fenced_update.
Qed.

Lemma quiet_validateBoundPVC p : quiet (validateBoundPVC p).
Proof. unfold validateBoundPVC. quiet_tac. Qed.

Lemma quiet_createBoundPVC sid p : quiet (createBoundPVC s sid p).
Proof. unfold createBoundPVC, fence, waitFor. quiet_tac. Qed.

Lemma quiet_verifyBinding p ref : quiet (verifyBinding p ref).
Proof. unfold verifyBinding. quiet_tac. Qed.

Lemma quiet_activePVC sid ns a b c : quiet (activePVC sid ns a b c).
Proof. unfold activePVC. quiet_tac. apply quiet_verifyBinding. Qed.

Lemma quiet_removeActiveDestination sid v p : quiet (removeActiveDestination s sid v p).
Proof.
  unfold removeActiveDestination. quiet_tac; auto using quiet_verifyBinding, quiet_ensureRetain,
    quiet_deletePVC, quiet_ensureDetached.
Qed.
End quiet_ops.
#[export] Hint Resolve quiet_fence quiet_ensureNoConsumers quiet_ensureDetached quiet_deletePVC
  quiet_ensureRetain quiet_markPVPair quiet_reservePV quiet_validateBoundPVC quiet_createBoundPVC
  quiet_verifyBinding quiet_activePVC quiet_removeActiveDestination : seen.
