(* ===== verification/SwitcherSafety.v ===== *)
(** * Safety of activation

    For every server and every interleaving of other clients: which writes
    [ActivatePVC] may issue and in which circumstances, what its checkpoints
    record, and what its success means. *)

From S2P Require Import Prelude Utf8 GoErrors Lifecycle KubeTypes Prog Api ResourceState Ownership PVBinding Offline Activation SwitcherRules.

(** ** Rules for the steps that carry the checkpoint *)

Section rules.
Context (G : trace -> req -> Prop) (HG : reads_ok G).
Context (d : ActivationStatus) (progress : bool).

(** The checkpoint in memory is the one last persisted. *)
Definition saved (st : ActivationStatus) (h : trace) : Prop :=
  progress = true -> st = last_saved d h.

Lemma saved_same st h h' : saved st h -> last_saved d h' = last_saved d h -> saved st h'.
Proof. intros Hs He Hp. rewrite He. by apply Hs. Qed.

Lemma wp_check_st st p k P (Q : checked -> trace -> Prop) h :
  quiet p -> wp G p (on_ok P) h -> saved st h ->
  (forall e h', h `suffix_of` h' -> saved st h' -> Q (st, Some e) h') ->
  (forall h', h `suffix_of` h' -> saved st h' -> P h' -> wp G k Q h') ->
  wp G (check_st st p k) Q h.
Proof.
  intros Hq Hp Hst He Hk. apply wp_bind_2. eapply wp_mono; [apply (wp_quiet _ _ _ _ d Hq Hp)|].
  intros [e|] h' Hs [HP Hl].
  - apply He; [done|]. by eapply saved_same.
  - apply Hk; [done|by eapply saved_same|by apply HP].
Qed.

Lemma wp_step_st p k (Q Q' : checked -> trace -> Prop) h :
  wp G p Q' h ->
  (forall st e h', h `suffix_of` h' -> Q' (st, Some e) h' -> Q (st, Some e) h') ->
  (forall st h', h `suffix_of` h' -> Q' (st, None) h' -> wp G (k st) Q h') ->
  wp G (step_st p k) Q h.
Proof.
  intros Hp He Hk. apply wp_bind_2. eapply wp_mono; [exact Hp|].
  intros [st [e|]] h' Hs HP; [by apply He|by apply Hk].
Qed.

Lemma wp_save st prev (Q : checked -> trace -> Prop) h :
  saved prev h ->
  (progress = true -> G (Ev FenceErr None :: Ev CtxErr None :: h) (Progress (Some st))) ->
  (forall h', h `suffix_of` h' -> saved st h' -> Q (st, None) h') ->
  (forall e h', h `suffix_of` h' -> saved prev h' -> Q (prev, Some e) h') ->
  wp G (saveActivationCheckpoint st prev progress) Q h.
Proof.
  intros Hprev Hg Hok Herr. unfold saveActivationCheckpoint. apply wp_bind_2, wp_fence; [done| |].
  - apply wp_bind_2. unfold callProgress. destruct progress eqn:Hp.
    + split; [by apply Hg|]. intros [e|].
      * apply Herr; [by do 3 apply suffix_cons_r|]. intros _. simpl. rewrite <- Hprev; done.
      * apply Hok; [by do 3 apply suffix_cons_r|]. by intros _.
    + apply Hok; [by do 2 apply suffix_cons_r|]. intros ?. congruence.
  - intros e a b. apply Herr; [by do 2 apply suffix_cons_r|]. intros Hp. simpl. by apply Hprev.
Qed.
End rules.

(** ** Guards on volume updates *)

(** A volume is written only behind a passed fence, from a read of one of the
    recorded volumes (same UID) that carried no other session, keeping its name
    and version: either pinned to Retain with its claim reference and recorded
    original policy kept, or reserved for the claim when its claim reference was
    stale. *)
Definition pv_update_ok (refs : list ObjectReference) (sid ns claim : string) (h : trace) (pv' : PV)
    : Prop :=
  exists ref pv h1,
    ref ∈ refs /\ h = Ev FenceErr None :: Ev CtxErr None :: h1 /\
    Ev (GetPV (Name ref)) (inl pv) ∈ h1 /\ pv_UID pv = UID ref /\
    (mget (pv_Labels pv) SessionKey = "" \/ mget (pv_Labels pv) SessionKey = sid) /\
    pv_Name pv' = pv_Name pv /\ pv_UID pv' = pv_UID pv /\ pv_ResourceVersion pv' = pv_ResourceVersion pv /\
    ((retain_marked sid pv' /\ pv_ClaimRef pv' = pv_ClaimRef pv /\
      mget (pv_Annotations pv') OriginalPolicyAnnotation =
        (if mget (pv_Annotations pv) OriginalPolicyAnnotation =s ""
         then policy_string (pv_ReclaimPolicy pv)
         else mget (pv_Annotations pv) OriginalPolicyAnnotation)) \/
     (pv' = pv_set_ClaimRef pv (Some (reservation ns claim)) /\ claimref_stale pv ns claim h1)).

Section pv_updates.
Context (G : trace -> req -> Prop) (refs : list ObjectReference) (sid ns claim : string).
Hypothesis HG : forall h pv, pv_update_ok refs sid ns claim h pv -> G h (UpdatePV pv).

Lemma retain_ok_guard ref role other pairs h :
  ref ∈ refs -> pairs = [] \/ pairs = [(PairedPVAnnotation, other)] -> retain_ok G ref sid role pairs h.
Proof.
  intros Hr Hp pv h' Hs Hu Ho. apply HG.
  pose proof (retained_pv_identity pv sid role pairs) as (H1 & H2 & H3 & H4 & _).
  exists ref, pv, (Ev (GetPV (Name ref)) (inl pv) :: h').
  split_and!; try done; [left|]. left. split_and!; [apply retained_pv_marked|done|].
  by apply (retained_pv_original pv sid role other).
Qed.

Lemma reserve_ok_guard ref h : ref ∈ refs -> reserve_ok G ref ns claim sid h.
Proof.
  intros Hr pv h0 h' Hs Hu Ho Hs' Hst. apply HG. exists ref, pv, h'.
  split_and!; try done; [eapply suffix_elem; [exact Hs'|left]|]. right. done.
Qed.
End pv_updates.

(** ** Activation *)

Section activation.
Context `{ConflictRetry} `{QuantityText}.
Context (s : Switcher) (sid activateNamespace : string) (v : PVCTransferBindings) (desired : PVC).
Context (st0 : ActivationStatus) (progress : bool).

Definition ref_key (ref : ObjectReference) : string * string * string := (Namespace ref, Name ref, UID ref).

(** Gone according to an earlier checkpoint or to an observation. *)
Definition claim_gone (flag : bool) (ref : ObjectReference) (h : trace) : Prop :=
  flag = true \/ claim_absent ref h.

Definition offline_seen (h : trace) : Prop :=
  no_consumers (Namespace (SourcePVC v)) (Name (SourcePVC v)) h /\
  no_consumers (Namespace (DestinationPVC v)) (Name (DestinationPVC v)) h /\
  detached (Name (SourcePV v)) h /\ detached (Name (DestinationPV v)) h.

Definition both_retained (h : trace) : Prop :=
  retained (SourcePV v) sid h /\ retained (DestinationPV v) sid h.

(** The delete of a claim: behind the fence, right after a read that gave the UID
    and version it is conditioned on and showed no custom finalizer; both volumes
    offline and pinned to Retain; the temporary claim first. *)
Definition delete_ok (h : trace) (ns name uid rv : string) : Prop :=
  exists pvc h0,
    h = Ev FenceErr None :: Ev CtxErr None :: Ev (GetPVC ns name) (inl pvc) :: h0 /\
    pvc_UID pvc = uid /\ pvc_ResourceVersion pvc = rv /\
    (forall f, f ∈ pvc_Finalizers pvc -> f = "" \/ f = PVCProtectionFinalizer) /\
    offline_seen h0 /\ both_retained h0 /\
    ((ns, name, uid) = ref_key (DestinationPVC v) \/
     ((ns, name, uid) = ref_key (SourcePVC v) /\
      claim_gone (TemporaryPVCDeleted st0) (DestinationPVC v) h0)).

Definition create_ok (h : trace) (p : PVC) : Prop :=
  just_fenced h /\ p = desired /\ offline_seen h /\ both_retained h /\
  claim_gone (TemporaryPVCDeleted st0) (DestinationPVC v) h /\
  claim_gone (SourcePVCDeleted st0) (SourcePVC v) h /\
  (DestinationReserved st0 = true \/ reserved (DestinationPV v) (pvc_Namespace desired) (pvc_Name desired) h).

(** A finished cutover: the recorded claim carries the session, was verified
    bound to the destination volume, which pointed back at it and covers it, and
    requests exactly the desired capacity; both volumes are pinned. *)
Definition activated (st : ActivationStatus) (h : trace) : Prop :=
  exists p now,
    ActivePVC st = Some (PVCReference (Some p)) /\ ActivatedAt st = Some now /\
    TemporaryPVCDeleted st = true /\ SourcePVCDeleted st = true /\ DestinationReserved st = true /\
    RolledBackAt st = RolledBackAt st0 /\
    mget (pvc_Annotations p) SessionKey = sid /\
    spec_StorageRequest (pvc_Spec p) = Some (desired_capacity desired) /\
    binding_seen p (DestinationPV v) h /\ both_retained h.

(** An intermediate checkpoint: every flag it adds was observed. *)
Definition progressed (st : ActivationStatus) (h : trace) : Prop :=
  ActivePVC st = ActivePVC st0 /\ ActivatedAt st = ActivatedAt st0 /\ RolledBackAt st = RolledBackAt st0 /\
  (TemporaryPVCDeleted st = true -> claim_gone (TemporaryPVCDeleted st0) (DestinationPVC v) h) /\
  (SourcePVCDeleted st = true -> claim_gone (SourcePVCDeleted st0) (SourcePVC v) h) /\
  (DestinationReserved st = true ->
     DestinationReserved st0 = true \/
     reserved (DestinationPV v) (pvc_Namespace desired) (pvc_Name desired) h).

Definition activation_guard (h : trace) (r : req) : Prop :=
  match r with
  | DeletePVC ns name uid rv => delete_ok h ns name uid rv
  | CreatePVC p false => create_ok h p
  | UpdatePV pv =>
      pv_update_ok [SourcePV v; DestinationPV v] sid (pvc_Namespace desired) (pvc_Name desired) h pv
  | UpdatePVC _ => False
  | Progress (Some st) => just_fenced h /\ (progressed st h \/ activated st h)
  | Progress None => False
  | r => is_write r = false
  end.

Definition activation_post (r : checked) (h : trace) : Prop :=
  saved st0 progress r.1 h /\ (r.2 = None -> activated r.1 h).

(** *** Observations persist *)

Lemma claim_gone_mono flag ref h h' :
  h `suffix_of` h' -> claim_gone flag ref h -> claim_gone flag ref h'.
Proof. intros Hs [?|?]; [by left|right; by eapply claim_absent_mono]. Qed.

Lemma offline_seen_mono h h' : h `suffix_of` h' -> offline_seen h -> offline_seen h'.
Proof. intros Hs (H1 & H2 & H3 & H4). split_and!; eauto with seen. Qed.

Lemma both_retained_mono h h' : h `suffix_of` h' -> both_retained h -> both_retained h'.
Proof. intros Hs [H1 H2]. split; by eapply pv_seen_mono. Qed.

Lemma progressed_mono st h h' : h `suffix_of` h' -> progressed st h -> progressed st h'.
Proof.
  intros Hs (H1 & H2 & H3 & H4 & H5 & H6). split_and!; try done.
  - intros Ht. eapply claim_gone_mono; [done|auto].
  - intros Ht. eapply claim_gone_mono; [done|auto].
  - intros Ht. destruct (H6 Ht) as [?|?]; [by left|right; by eapply pv_seen_mono].
Qed.

Lemma activated_mono st h h' : h `suffix_of` h' -> activated st h -> activated st h'.
Proof.
  intros Hs (p & now & H1 & H2 & H3 & H4 & H5 & H6 & H7 & H8 & H9 & H10).
  exists p, now. split_and!; try done; [by eapply binding_seen_mono|by eapply both_retained_mono].
Qed.

Lemma guard_reads : reads_ok activation_guard.
Proof. intros h r Hw Hp. by case_req r. Qed.

Lemma guard_updates h pv :
  pv_update_ok [SourcePV v; DestinationPV v] sid (pvc_Namespace desired) (pvc_Name desired) h pv ->
  activation_guard h (UpdatePV pv).
Proof. done. Qed.

Lemma just_fenced_intro h : just_fenced (Ev FenceErr None :: Ev CtxErr None :: h).
Proof. by exists h. Qed.

Lemma fence_suffix (h : trace) : h `suffix_of` Ev FenceErr None :: Ev CtxErr None :: h.
Proof. by do 2 apply suffix_cons_r. Qed.

(** *** Steps *)

Lemma active_request_None p q :
  validateActivePVCRequest (Some p) (quantity_string q) = None ->
  spec_StorageRequest (pvc_Spec p) = Some q.
Proof.
  unfold validateActivePVCRequest. rewrite quantity_roundtrip. case_test; [done|].
  destruct (spec_StorageRequest (pvc_Spec p)) as [r|]; [|done].
  destruct (Z.eqb_spec r q); [by subst|done].
Qed.

Lemma wp_completeActivation st p h :
  saved st0 progress st h -> RolledBackAt st = RolledBackAt st0 ->
  mget (pvc_Annotations p) SessionKey = sid ->
  wp activation_guard (completeActivation sid v desired st p progress) activation_post h.
Proof.
  intros Hst Hrb Hann. pose proof guard_reads as HG. unfold completeActivation.
  eapply (wp_check_st _ st0 progress _ _ _
    (fun _ => spec_StorageRequest (pvc_Spec p) = Some (desired_capacity desired))); [done| |done|done|].
  { apply wp_Ret. intros Hv. by apply active_request_None. }
  intros h1 Hs1 Hst1 Hreq.
  eapply wp_check_st; [auto with seen|by apply wp_verifyBinding|done|done|].
  intros h2 Hs2 Hst2 Hb.
  eapply wp_check_st; [auto with seen|apply wp_markPVPair; [done|..]|done|done|].
  { eapply retain_ok_guard; [apply guard_updates|set_solver|by right]. }
  { eapply retain_ok_guard; [apply guard_updates|set_solver|by right]. }
  intros h3 Hs3 Hst3 [Hm1 [Hm2|?]]; [|done].
  apply wp_bind_2, wp_call; [done|done|done|]. intros now.
  assert (forall h', h3 `suffix_of` h' -> activated (with_Activated st (PVCReference (Some p)) now) h') as Hact.
  { intros h' Hs'. exists p, now. split_and!; try done.
    - eapply binding_seen_mono; [|exact Hb]. by etrans.
    - split; by eapply pv_seen_mono. }
  apply wp_save with (d := st0); [done| |..].
  - by eapply saved_same.
  - intros _. split; [apply just_fenced_intro|]. right. apply Hact. by do 3 apply suffix_cons_r.
  - intros h' Hs' Hsv. split; [done|]. intros _. apply Hact. by eapply suffix_cons_l.
  - intros e h' Hs' Hsv. by split.
Qed.

(** Both sides of the cutover, checked and pinned. *)
Definition prepared (h : trace) : Prop := offline_seen h /\ both_retained h.

Lemma prepared_mono h h' : h `suffix_of` h' -> prepared h -> prepared h'.
Proof. intros Hs [H1 H2]. split; [by eapply offline_seen_mono|by eapply both_retained_mono]. Qed.

Definition step_post (flag : ActivationStatus -> bool) (r : checked) (h : trace) : Prop :=
  saved st0 progress r.1 h /\ progressed r.1 h /\ (r.2 = None -> flag r.1 = true).

Section steps.
Hypothesis Hsrc : Name (SourcePV v) <> "".
Hypothesis Hdst : Name (DestinationPV v) <> "".

Lemma delete_guard ref pvc h :
  pvc_UID pvc = UID ref -> validatePVCDeletionFinalizers pvc "delete PVC" = None ->
  prepared h ->
  ref = DestinationPVC v \/
    (ref = SourcePVC v /\ claim_gone (TemporaryPVCDeleted st0) (DestinationPVC v) h) ->
  activation_guard
    (Ev FenceErr None :: Ev CtxErr None :: Ev (GetPVC (Namespace ref) (Name ref)) (inl pvc) :: h)
    (DeletePVC (Namespace ref) (Name ref) (pvc_UID pvc) (pvc_ResourceVersion pvc)).
Proof.
  intros Hu Hf [Ho Hr] Hor. exists pvc, h.
  split_and!; [done|done|done|by eapply deletion_finalizers_None|done|done|].
  rewrite Hu. destruct Hor as [->|[-> Hg]]; [by left|right; done].
Qed.

Lemma wp_check_step flag st p k P h :
  quiet p -> wp activation_guard p (on_ok P) h -> saved st0 progress st h -> progressed st h ->
  (forall h', h `suffix_of` h' -> saved st0 progress st h' -> progressed st h' -> P h' ->
     wp activation_guard k (step_post flag) h') ->
  wp activation_guard (check_st st p k) (step_post flag) h.
Proof.
  intros Hq Hp Hst Hpr Hk. eapply wp_check_st; [done|done|done|..].
  - intros e h' Hs Hsv. split_and!; [done|by eapply progressed_mono|done].
  - intros h' Hs Hsv HP. apply Hk; [done|done|by eapply progressed_mono|done].
Qed.

Lemma wp_save_step (flag : ActivationStatus -> bool) st st' h :
  saved st0 progress st h -> progressed st h -> progressed st' h -> flag st' = true ->
  wp activation_guard (saveActivationCheckpoint st' st progress) (step_post flag) h.
Proof.
  intros Hst Hpr Hpr' Hf. pose proof guard_reads as HG.
  apply wp_save with (d := st0); [done|done|..].
  - intros _. split; [apply just_fenced_intro|]. left. eapply progressed_mono; [apply fence_suffix|done].
  - intros h' Hs' Hsv. split_and!; [done|by eapply progressed_mono|done].
  - intros e h' Hs' Hsv. split_and!; [done|by eapply progressed_mono|done].
Qed.

Lemma wp_deleteTemporary st h :
  saved st0 progress st h -> progressed st h -> prepared h ->
  wp activation_guard (deleteTemporaryActivationPVC s v st progress)
     (step_post TemporaryPVCDeleted) h.
Proof.
  intros Hst Hpr Hp. pose proof guard_reads as HG. unfold deleteTemporaryActivationPVC.
  case_test; [by split_and!|].
  eapply wp_check_step; [auto with seen|apply wp_deletePVC; [done|]|done|done|].
  { intros pvc Hu Hf. apply delete_guard; [done|done|done|by left]. }
  intros h1 Hs1 Hst1 Hpr1 Habs.
  eapply wp_check_step; [auto with seen|by apply wp_ensureDetached|done|done|].
  intros h2 Hs2 Hst2 Hpr2 _. apply wp_save_step; [done|done| |done].
  destruct Hpr2 as (P1 & P2 & P3 & P4 & P5 & P6). split_and!; try done.
  intros _. right. by eapply claim_absent_mono.
Qed.

Lemma wp_deleteSource st h :
  saved st0 progress st h -> progressed st h -> prepared h -> TemporaryPVCDeleted st = true ->
  wp activation_guard (deleteSourceActivationPVC s v st progress)
     (step_post (fun st => TemporaryPVCDeleted st && SourcePVCDeleted st)%bool) h.
Proof.
  intros Hst Hpr Hp Ht. pose proof guard_reads as HG. unfold deleteSourceActivationPVC.
  case_test; [split_and!; [done|done|]; intros _; cbn [fst]; by rewrite Ht, Heqb|].
  eapply wp_check_step; [auto with seen|apply wp_deletePVC; [done|]|done|done|].
  { intros pvc Hu Hf. apply delete_guard; [done|done|done|]. right. split; [done|].
    destruct Hpr as (_ & _ & _ & Hg & _). auto. }
  intros h1 Hs1 Hst1 Hpr1 Habs.
  eapply wp_check_step; [auto with seen|by apply wp_ensureDetached|done|done|].
  intros h2 Hs2 Hst2 Hpr2 _. apply wp_save_step; [done|done| |by cbn; rewrite Ht].
  destruct Hpr2 as (P1 & P2 & P3 & P4 & P5 & P6). split_and!; try done.
  intros _. right. by eapply claim_absent_mono.
Qed.

Definition all_flags (st : ActivationStatus) : bool :=
  (TemporaryPVCDeleted st && SourcePVCDeleted st && DestinationReserved st)%bool.

Lemma wp_reserveDestination st h :
  saved st0 progress st h -> progressed st h ->
  TemporaryPVCDeleted st = true -> SourcePVCDeleted st = true ->
  wp activation_guard (reserveActivationDestination s sid v desired st progress) (step_post all_flags) h.
Proof.
  intros Hst Hpr Ht Hs. pose proof guard_reads as HG. unfold reserveActivationDestination.
  case_test; [split_and!; [done|done|]; intros _; unfold all_flags; cbn [fst]; by rewrite Ht, Hs, Heqb|].
  eapply wp_check_step; [auto with seen|by apply wp_validateBoundPVC|done|done|].
  intros h1 Hs1 Hst1 Hpr1 _.
  eapply wp_check_step; [auto with seen|apply wp_reservePV; [done|]|done|done|].
  { eapply reserve_ok_guard; [apply guard_updates|set_solver]. }
  intros h2 Hs2 Hst2 Hpr2 Hres.
  apply wp_save_step; [done|done| |by unfold all_flags; cbn; rewrite Ht, Hs].
  destruct Hpr2 as (P1 & P2 & P3 & P4 & P5 & P6). split_and!; try done. intros _. by right.
Qed.

(** *** The whole activation *)

Lemma wp_activePVC h :
  wp activation_guard
     (activePVC sid activateNamespace (SourcePVC v) (SourcePV v) (DestinationPV v))
     (on_val (fun a _ => forall p, a = Some p -> mget (pvc_Annotations p) SessionKey = sid)) h.
Proof.
  pose proof guard_reads as HG. unfold activePVC. apply wp_bind_2, wp_call; [done|done|done|].
  intros [p|e].
  - case_test.
    + apply wp_check. eapply wp_mono; [by apply wp_verifyBinding|].
      intros [e|] h' _ _; intros a; [done|]. by intros [= <-].
    + case_test; bool_prop; intros a; [|done]. intros [= <-] p'. by intros [= <-].
  - case_test; intros a; [|done]. by intros [= <-].
Qed.

Lemma wp_activate_rebind st h :
  saved st0 progress st h -> progressed st h -> offline_seen h ->
  wp activation_guard
    (check[ st ] ensureRetain (SourcePV v) sid ResourceRoleSource;
     check[ st ] ensureRetain (DestinationPV v) sid ResourceRoleDestination;
     step: st ← deleteTemporaryActivationPVC s v st progress;
     step: st ← deleteSourceActivationPVC s v st progress;
     step: st ← reserveActivationDestination s sid v desired st progress;
     c ← createBoundPVC s sid desired;
     match c with
     | inr e => Ret (st, Some e)
     | inl created => completeActivation sid v desired st created progress
     end) activation_post h.
Proof.
  intros Hst Hpr Ho. pose proof guard_reads as HG.
  eapply wp_check_st; [auto with seen|apply wp_ensureRetain; [done|]|done|by split|].
  { eapply (retain_ok_guard _ _ _ _ _ guard_updates _ _ ""); [set_solver|by left]. }
  intros h1 Hs1 Hst1 Hr1.
  eapply wp_check_st; [auto with seen|apply wp_ensureRetain; [done|]|done|by split|].
  { eapply (retain_ok_guard _ _ _ _ _ guard_updates _ _ ""); [set_solver|by left]. }
  intros h2 Hs2 Hst2 Hr2.
  assert (prepared h2) as Hp2.
  { split; [eapply offline_seen_mono; [|done]; by etrans|]. split; [by eapply pv_seen_mono|done]. }
  eapply wp_step_st; [apply wp_deleteTemporary; [done| |done]|..].
  { eapply progressed_mono; [|done]. by etrans. }
  { intros st' e h' _ (Hsv & _). by split. }
  intros st3 h3 Hs3 (Hst3 & Hpr3 & Ht3). specialize (Ht3 eq_refl). cbn in *.
  assert (prepared h3) as Hp3 by (by eapply prepared_mono).
  eapply wp_step_st; [by apply wp_deleteSource|..].
  { intros st' e h' _ (Hsv & _). by split. }
  intros st4 h4 Hs4 (Hst4 & Hpr4 & Ht4). specialize (Ht4 eq_refl). cbn in *. bool_prop.
  assert (prepared h4) as Hp4 by (by eapply prepared_mono).
  eapply wp_step_st; [by apply wp_reserveDestination|..].
  { intros st' e h' _ (Hsv & _). by split. }
  intros st5 h5 Hs5 (Hst5 & Hpr5 & Ht5). specialize (Ht5 eq_refl). unfold all_flags in Ht5. cbn in *. bool_prop.
  assert (prepared h5) as [Ho5 Hr5] by (by eapply prepared_mono).
  apply wp_bind_2. eapply wp_mono; [eapply wp_quiet with (d := st0); [auto with seen|apply wp_createBoundPVC; [done|]]|].
  { destruct Hpr5 as (P1 & P2 & P3 & P4 & P5 & P6). pose proof (fence_suffix h5) as Hf.
    split_and!; [apply just_fenced_intro|done|by eapply offline_seen_mono|by eapply both_retained_mono| | |].
    - eapply claim_gone_mono; [done|auto].
    - eapply claim_gone_mono; [done|auto].
    - destruct P6 as [?|?]; [done|by left|right; by eapply pv_seen_mono]. }
  intros [created|e] h6 Hs6 [Hc Hl].
  - destruct (Hc created eq_refl) as (_ & _ & Hm & _). unfold session_marked in Hm. bool_prop.
    apply wp_completeActivation; [by eapply saved_same| |done]. by destruct Hpr5 as (_ & _ & ? & _).
  - split; [by eapply saved_same|done].
Qed.

Lemma wp_activateVolumeResources h :
  saved st0 progress st0 h ->
  wp activation_guard
     (activateVolumeResources s sid activateNamespace v desired st0 progress) activation_post h.
Proof.
  intros Hst. pose proof guard_reads as HG. unfold activateVolumeResources.
  eapply wp_check_st; [auto with seen|by apply wp_ensureNoConsumers|done|by split|]. intros h1 Hs1 Hst1 Hn1.
  eapply wp_check_st; [auto with seen|by apply wp_ensureNoConsumers|done|by split|]. intros h2 Hs2 Hst2 Hn2.
  eapply wp_check_st; [auto with seen|by apply wp_ensureDetached|done|by split|]. intros h3 Hs3 Hst3 Hn3.
  eapply wp_check_st; [auto with seen|by apply wp_ensureDetached|done|by split|]. intros h4 Hs4 Hst4 Hn4.
  assert (offline_seen h4) as Ho4.
  { split_and!; [|by eapply no_consumers_mono; [|exact Hn2]; etrans|by eapply detached_mono|done].
    eapply no_consumers_mono; [|exact Hn1]. by do 2 (etrans; [eassumption|]). }
  apply wp_bind_2. eapply wp_mono; [eapply wp_quiet with (d := st0); [auto with seen|apply wp_activePVC]|].
  intros [[active|]|e] h5 Hs5 [Ha Hl].
  - apply wp_completeActivation; [by eapply saved_same|done|by apply (Ha (Some active))].
  - apply wp_activate_rebind; [by eapply saved_same| |by eapply offline_seen_mono].
    split_and!; [done|done|done|by left|by left|by left].
  - split; [by eapply saved_same|done].
Qed.
End steps.

Lemma validateActivatePVC_inl desired' status d st :
  validateActivatePVC sid activateNamespace v desired' status = inl (d, st) ->
  desired' = Some d /\ status = Some st /\ sid <> "" /\ Name (SourcePV v) <> "" /\
  Name (DestinationPV v) <> "" /\ pvc_Namespace d = activateNamespace /\
  pvc_Name d = Name (SourcePVC v) /\ pvc_VolumeName d = Name (DestinationPV v) /\
  (0 < desired_capacity d)%Z.
Proof.
  unfold validateActivatePVC. destruct desired' as [d'|], status as [st'|]; try done.
  repeat (case_test; [done|]). intros [= <- <-]. bool_prop. done.
Qed.

Definition outcome_post (r : option ActivationStatus * option err) (h : trace) : Prop :=
  exists st, r.1 = Some st /\ activation_post (st, r.2) h.

Lemma wp_ActivatePVC :
  wp activation_guard
    (ActivatePVC s sid activateNamespace v (Some desired) (Some st0) progress) outcome_post [].
Proof.
  pose proof guard_reads as HG. unfold ActivatePVC.
  destruct (validateActivatePVC _ _ _ _ _) as [[d st]|e] eqn:Hv.
  2: { exists st0. split; [done|]. split; done. }
  apply validateActivatePVC_inl in Hv as ([= <-] & [= <-] & _ & Hsrc & Hdst & _).
  apply wp_bind_2. eapply wp_mono with (Q := activation_post).
  2: { intros [st e] h _ Hp. by exists st. }
  eapply (wp_check_st _ st0 progress _ _ _ (fun _ => True)); [auto with seen|by apply wp_fence|done|by split|].
  intros h1 Hs1 Hst1 _.
  apply wp_bind_2, wp_call; [done|done|done|]. intros [t|e].
  - eapply (wp_check_st _ st0 progress _ _ _ (fun _ => True)); [| |by eapply saved_same|by split|].
    { unfold validateTemporaryActivationPVC. quiet_tac. auto with seen. }
    { unfold validateTemporaryActivationPVC. repeat (case_test; [done|]).
      eapply wp_mono; [by apply wp_verifyBinding|]. done. }
    intros h2 Hs2 Hst2 _. by apply wp_activateVolumeResources.
  - case_test; [|by apply wp_activateVolumeResources]. split; [by eapply saved_same|done].
Qed.

(** The trace and the outcome of a run of [ActivatePVC] against a server. *)
Definition activate_run {W} (server : handler W) (w : W) :=
  run server (ActivatePVC s sid activateNamespace v (Some desired) (Some st0) progress) w [].

Lemma activate_guarded {W} (server : handler W) w :
  calls_ok activation_guard [] (activate_run server w).2.
Proof. by apply (wp_adequate _ server _ _ w [] wp_ActivatePVC). Qed.

Lemma activate_outcome {W} (server : handler W) w r :
  (activate_run server w).1.1 = Some r -> outcome_post r (activate_run server w).2.
Proof. by apply (wp_adequate _ server _ _ w [] wp_ActivatePVC). Qed.

(** C1: no claim is deleted before its data is safe.  Against any server and any
    concurrent client, [ActivatePVC] deletes only the recorded temporary or
    source claim, conditioned on the UID and version it has just read behind a
    passed lease fence; by then both claims were seen without consumers, both
    volumes detached, and both volumes of the recorded UIDs seen or written with
    policy Retain, this session's mark and their original policy recorded; the
    source claim goes only after the temporary one. *)
Theorem activate_deletes_safely {W} (server : handler W) w :
  calls_ok (fun h r =>
    match r with DeletePVC ns name uid rv => delete_ok h ns name uid rv | _ => True end)
    [] (activate_run server w).2.
Proof.
  eapply calls_ok_mono; [|apply activate_guarded]. intros h r Hg. by destruct r.
Qed.


(** Volumes are updated only within the session.  Every volume write starts
    from a read of the recorded source or destination volume (same UID, no other
    session's mark), keeps name, UID and version for optimistic concurrency, and
    either pins it to Retain, keeping its claim reference and never overwriting a
    recorded original policy, or reserves it when its claim reference is stale. *)
Theorem activate_updates_own_volumes {W} (server : handler W) w :
  calls_ok (fun h r =>
    match r with
    | UpdatePV pv =>
        pv_update_ok [SourcePV v; DestinationPV v] sid (pvc_Namespace desired) (pvc_Name desired) h pv
    | _ => True
    end) [] (activate_run server w).2.
Proof.
  eapply calls_ok_mono; [|apply activate_guarded]. intros h r Hg. by destruct r.
Qed.


End activation.
