(* ===== verification/ReserverSafety.v ===== *)
(** * Safety of reservations

    Against every server: which writes [ReserveVolume] may issue, in which
    circumstances, and what a successful reservation has observed. *)

From S2P Require Import Prelude Utf8 GoErrors Lifecycle KubeTypes Prog Api ResourceState Ownership PVBinding Offline Activation Sha256 Names NodeSelection GoFormat Reserver SwitcherRules SwitcherSafety.

(** ** Observations *)

(** The source claim was Bound to the source volume, which pointed back at it;
    neither belonged to another session. *)
Definition source_verified (sid : string) (sourcePVC sourcePV : ObjectReference) (h : trace) : Prop :=
  exists pvc pv,
    Ev (GetPVC (Namespace sourcePVC) (Name sourcePVC)) (inl pvc) ∈ h /\ pvc_UID pvc = UID sourcePVC /\
    pvc_VolumeName pvc = Name sourcePV /\ pvc_Phase pvc = ClaimBound /\
    foreign_owner (mget (pvc_Annotations pvc) SessionKey) sid = false /\
    foreign_owner (mget (pvc_Labels pvc) SessionKey) sid = false /\
    Ev (GetPV (Name sourcePV)) (inl pv) ∈ h /\ pv_UID pv = UID sourcePV /\ claims_back pv pvc = true.

(** The session took the source: its claim carries the session's mark and its
    volume is pinned to Retain. *)
Definition source_taken (sid : string) (sourcePVC sourcePV : ObjectReference) (h : trace) : Prop :=
  source_verified sid sourcePVC sourcePV h /\
  claim_seen sourcePVC (fun p => mget (pvc_Annotations p) SessionKey = sid) h /\
  retained sourcePV sid h.

Definition ref_of (name uid : string) : ObjectReference :=
  {| APIVersion := ""; Kind := ""; Namespace := ""; Name := name; UID := uid; ResourceVersion := "" |}.

(** A volume of the destination claim: read with a claim reference to a claim
    that was read Bound, belongs to the reservation and satisfies its manifest. *)
Definition destination_volume_of `{QuantityText} (manifest : PVC) (pv : PV) (h : trace) : Prop :=
  exists bound, Ev (GetPVC (pvc_Namespace manifest) (pvc_Name manifest)) (inl bound) ∈ h /\
    pvc_Phase bound = ClaimBound /\ validateDestinationPVC (Some bound) (Some manifest) (pvc_UID bound) = None /\
    Ev (GetPV (pvc_VolumeName bound)) (inl pv) ∈ h /\ claims_back pv bound = true.

Section guard.
Context `{CR : ConflictRetry} `{QT : QuantityText} `{IG : ImageGrammar}.
Context (r : Reserver) (request : ReservationRequest) (sourcePVC sourcePV : ObjectReference).
Context (sourceCapacity : string) (desired : PVC) (st0 : ReservationStatus).

Notation sid := (SessionID request).
Definition manifest : PVC := reservation_claim desired sid sourcePVC sourcePV.

(** A volume is written only to pin it: behind a passed fence, from a read of
    the source volume or of the volume the destination claim is bound to, free or
    of this session. *)
Definition pin_ok (h : trace) (pv' : PV) : Prop :=
  exists pv role h1,
    h = Ev FenceErr None :: Ev CtxErr None :: h1 /\
    (mget (pv_Labels pv) SessionKey = "" \/ mget (pv_Labels pv) SessionKey = sid) /\
    pv' = (retained_pv pv sid role []).1 /\
    ((role = ResourceRoleSource /\ Ev (GetPV (Name sourcePV)) (inl pv) ∈ h1 /\ pv_UID pv = UID sourcePV) \/
     (role = ResourceRoleDestination /\ source_taken sid sourcePVC sourcePV h1 /\
      exists seen, destination_volume_of manifest seen h1 /\
        Ev (GetPV (pv_Name seen)) (inl pv) ∈ h1 /\ pv_UID pv = pv_UID seen)).

(** The destination claim is created once: it was read as missing, no earlier
    reservation of it is recorded, and the source is taken. *)
Definition claim_create_ok (h : trace) (p : PVC) : Prop :=
  just_fenced h /\ p = manifest /\ source_taken sid sourcePVC sourcePV h /\
  claim_absent (PVCReference (Some manifest)) h /\
  rs_Reserved st0 = false /\ default "" (UID <$> rs_DestinationPVC st0) = "" /\
  default "" (Name <$> rs_DestinationPV st0) = "".

(** The reservation Pod of this session and claim. *)
Definition own_pod (pod : Pod) : Prop :=
  validateReservationPod (Some pod) sid (pvc_Name manifest) = None.

Definition reserve_guard (h : trace) (q : req) : Prop :=
  match q with
  | CreatePVC p false => claim_create_ok h p
  | UpdatePVC p' =>
      claim_update_guard sourcePVC (fun p p' =>
        mget (pvc_Annotations p) SessionKey = "" /\ p' = acquired p sid) h (UpdatePVC p') /\
      source_verified sid sourcePVC sourcePV h
  | UpdatePV pv => source_verified sid sourcePVC sourcePV h /\ pin_ok h pv
  | CreatePod pod =>
      just_fenced h /\ source_taken sid sourcePVC sourcePV h /\
      pod_Namespace pod = pvc_Namespace manifest /\ pod_Name pod = toolPodName sid (Name sourcePVC) /\
      pod_Volumes pod = [Some (pvc_Name manifest)]
  | DeletePod ns name uid rv =>
      source_taken sid sourcePVC sourcePV h /\ ns = pvc_Namespace manifest /\
      name = toolPodName sid (Name sourcePVC) /\
      exists pod h1, h = Ev (GetPod ns name) (inl pod) :: h1 /\ pod_UID pod = uid /\ own_pod pod
  | q => is_write q = false
  end.

(** A finished reservation: the destination claim was read Bound and as planned;
    its volume pointed back at it, is large enough and, for a pinned target,
    reachable from the node; and then was read again, unchanged in identity and
    binding, with policy Retain and this session's mark. *)
Definition reserved_ok (st : ReservationStatus) (h : trace) : Prop :=
  exists bound pv current,
    Ev (GetPVC (pvc_Namespace manifest) (pvc_Name manifest)) (inl bound) ∈ h /\
    pvc_Phase bound = ClaimBound /\ validateDestinationPVC (Some bound) (Some manifest) (pvc_UID bound) = None /\
    Ev (GetPV (pvc_VolumeName bound)) (inl pv) ∈ h /\ claims_back pv bound = true /\
    (exists c, pv_Capacity pv = Some c /\ (storage_request manifest <= c)%Z) /\
    (TargetNode request <> "" ->
       exists node, Ev (GetNode (TargetNode request)) (inl node) ∈ h /\ PVSupportsNode pv node = true) /\
    Ev (GetPV (pv_Name pv)) (inl current) ∈ h /\ pv_UID current = pv_UID pv /\
    claims_back current bound = true /\ pv_ReclaimPolicy current = ReclaimRetain /\
    mget (pv_Labels current) SessionKey = sid /\
    rs_Reserved st = true /\ rs_SourcePVCName st = Name sourcePVC /\
    (exists ref, rs_DestinationPVC st = Some ref /\ UID ref = pvc_UID bound) /\
    (UID (PVReference (Some current)) <> "" -> rs_DestinationPV st = Some (PVReference (Some current))) /\
    source_taken sid sourcePVC sourcePV h.

Lemma reserve_reads : reads_ok reserve_guard.
Proof. intros h q Hw Hp. by case_req q. Qed.

(** ** Observations persist *)

Lemma source_verified_mono h h' :
  h `suffix_of` h' -> source_verified sid sourcePVC sourcePV h -> source_verified sid sourcePVC sourcePV h'.
Proof.
  intros Hs (pvc & pv & H1 & H2 & H3 & H4 & H5 & H6 & H7 & H8 & H9). exists pvc, pv.
  split_and!; try done; by eapply suffix_elem.
Qed.

Lemma claim_seen_mono ref P h h' : h `suffix_of` h' -> claim_seen ref P h -> claim_seen ref P h'.
Proof.
  intros Hs (p & Hu & HP & Hor). exists p. split_and!; [done|done|].
  destruct Hor; [left|right]; by eapply suffix_elem.
Qed.

Lemma source_taken_mono h h' :
  h `suffix_of` h' -> source_taken sid sourcePVC sourcePV h -> source_taken sid sourcePVC sourcePV h'.
Proof.
  intros Hs (H1 & H2 & H3). split_and!;
    [by eapply source_verified_mono|by eapply claim_seen_mono|by eapply pv_seen_mono].
Qed.

Lemma destination_volume_mono pv h h' :
  h `suffix_of` h' -> destination_volume_of manifest pv h -> destination_volume_of manifest pv h'.
Proof.
  intros Hs (b & H1 & H2 & H3 & H4 & H5). exists b. split_and!; try done; by eapply suffix_elem.
Qed.

(** ** The steps *)

Notation wpg := (wp reserve_guard).

Lemma wp_r_waitFor description (condition : kube (result (bool * unit))) P h :
  (forall h', h `suffix_of` h' ->
     wpg condition (fun r h'' => forall u, r = inl (true, u) -> P h'') h') ->
  wpg (r_waitFor r description condition) (on_ok P) h.
Proof.
  intros Hc. apply wp_bind_2.
  eapply wp_mono; [apply (wp_WaitFor _ reserve_reads _ _ _ _ (fun _ => P)), Hc|].
  intros [u|e] h' _ Hr He; [by apply (Hr u)|done].
Qed.

Lemma wp_verifySourceIdentity h :
  wpg (verifySourceIdentity sid sourcePVC sourcePV sourceCapacity)
    (on_ok (source_verified sid sourcePVC sourcePV)) h.
Proof.
  apply wp_bind_2, wp_call; [apply reserve_reads|done|done|]. intros [pvc|e]; [|done].
  case_test; [done|]. bool_prop.
  cbn [List.find]. destruct (foreign_owner (mget (pvc_Annotations pvc) _) _) eqn:Ha; [done|].
  destruct (foreign_owner (mget (pvc_Labels pvc) _) _) eqn:Hl; [done|].
  apply wp_bind_2, wp_call; [apply reserve_reads|done|done|]. intros [pv|e]; [|done].
  case_test; [done|]. bool_prop. destruct (ValidateBoundVolumeCapacity _ _ _); [done|].
  case_test; [done|]. intros _. exists pvc, pv. split_and!; try done; [set_solver|by eapply bool_decide_eq_true_1|left].
Qed.

Lemma wp_prepareReservation h :
  wpg (prepareReservation sid sourcePVC sourcePV sourceCapacity (Some desired))
    (on_val (fun p h' => p = manifest /\ sid <> "" /\ (0 < storage_request manifest)%Z /\
       Name sourcePV <> "" /\ source_verified sid sourcePVC sourcePV h')) h.
Proof.
  unfold prepareReservation. do 2 (case_test; [done|]). bool_prop.
  apply wp_check. eapply wp_mono; [apply wp_verifySourceIdentity|]. intros [e|] h' _ Hv; [done|].
  do 2 (case_test; [done|]). bool_prop. intros p [= <-]. split_and!; try done. by apply Hv.
Qed.

(** Placement checks only read. *)
Lemma wp_placement ref class node q h :
  wpg (validateDestinationPlacement ref class node q) (fun _ _ => True) h.
Proof. unfold validateDestinationPlacement, ValidateStorageClassPlacement. wp_reads reserve_reads. Qed.

Lemma wp_Acquire h :
  source_verified sid sourcePVC sourcePV h ->
  wpg (AcquirePVC sourcePVC sid)
    (on_ok (claim_seen sourcePVC (fun p => mget (pvc_Annotations p) SessionKey = sid))) h.
Proof.
  intros Hv. eapply wp_guard_mono; [apply wp_AcquirePVC|]. intros h' q Hs Hq.
  case_req q; try done. split; [done|]. by eapply source_verified_mono.
Qed.

Lemma wp_retainPV name uid role h :
  retain_ok reserve_guard (ref_of name uid) sid role [] h ->
  wpg (retainPV name uid sid role) (on_ok (retained (ref_of name uid) sid)) h.
Proof.
  intros Hok. unfold retainPV. case_test; [done|].
  apply wp_report, wp_retain_retry; [apply reserve_reads|done].
Qed.

Lemma wp_retain_source h :
  source_verified sid sourcePVC sourcePV h ->
  wpg (retainPV (Name sourcePV) (UID sourcePV) sid ResourceRoleSource)
    (on_ok (retained sourcePV sid)) h.
Proof.
  intros Hv. apply wp_retainPV. intros pv h' Hs Hu Hl. split.
  - eapply source_verified_mono, Hv. by do 3 apply suffix_cons_r.
  - exists pv, ResourceRoleSource, (Ev (GetPV (Name sourcePV)) (inl pv) :: h').
    split_and!; [done|done|done|]. left. split_and!; [done|left|done].
Qed.

(** *** The reservation Pod *)

Definition names_claim (ref : ObjectReference) : Prop :=
  Namespace ref = pvc_Namespace manifest /\ Name ref = pvc_Name manifest.

Lemma wp_wait_any description (condition : kube (result (bool * unit))) h :
  (forall h', h `suffix_of` h' -> wpg condition (fun _ _ => True) h') ->
  wpg (r_waitFor r description condition) (fun _ _ => True) h.
Proof.
  intros Hc. eapply wp_mono; [apply (wp_r_waitFor _ _ (fun _ => True))|done].
  intros h' Hs. by eapply wp_mono; [apply Hc|].
Qed.

Lemma wp_cleanupReservationPod ref h :
  names_claim ref -> source_taken sid sourcePVC sourcePV h ->
  wpg (cleanupReservationPod r sid (Name sourcePVC) ref) (fun _ _ => True) h.
Proof.
  intros [Hns Hn] Ht. unfold cleanupReservationPod. rewrite Hns, Hn.
  apply wp_bind_2, wp_call; [apply reserve_reads|done|done|]. intros [pod|e]; [|by case_test].
  apply wp_check_Ret. destruct (validateReservationPod _ _ _) eqn:Hv; [done|].
  apply wp_step; [|intros d].
  { split_and!; [|done|done|by exists pod, h]. by eapply source_taken_mono, Ht; apply suffix_cons_r. }
  apply wp_check_Ret. destruct (match d with Some _ => _ | None => _ end); [done|].
  apply wp_check, wp_fence; [apply reserve_reads| |done].
  apply wp_wait_any. intros h' _. wp_reads reserve_reads.
Qed.

Lemma wp_load_or_create_pod pod h :
  source_taken sid sourcePVC sourcePV h ->
  pod_Namespace pod = pvc_Namespace manifest -> pod_Name pod = toolPodName sid (Name sourcePVC) ->
  pod_Volumes pod = [Some (pvc_Name manifest)] ->
  wpg (load_or_create_pod pod) (fun _ _ => True) h.
Proof.
  intros Ht H1 H2 H3. apply wp_bind_2, wp_call; [apply reserve_reads|done|done|].
  intros [existing|e]; [done|]. case_test; [done|].
  apply wp_check, wp_fence; [apply reserve_reads| |done].
  apply wp_step; [|intros c; wp_reads reserve_reads].
  split_and!; [apply just_fenced_intro| |done|done|done].
  eapply source_taken_mono, Ht. by do 3 apply suffix_cons_r.
Qed.

Lemma wp_provisionOnTarget ref h :
  names_claim ref -> source_taken sid sourcePVC sourcePV h ->
  wpg (provisionOnTarget r request (Name sourcePVC) ref) (fun _ _ => True) h.
Proof.
  intros Hn Ht. unfold provisionOnTarget. destruct (NormalizeToolImage _) as [image|e]; [|done].
  case_test; [done|]. apply wp_bind_2, wp_call; [apply reserve_reads|done|done|].
  intros [node|e]; [|done]. case_test; [done|]. cbv zeta.
  apply wp_try, wp_extends. destruct Hn as [Hns Hn].
  eapply wp_mono; [apply wp_load_or_create_pod; [|done|done|by simpl; rewrite Hn]|].
  { by eapply source_taken_mono, Ht; apply suffix_cons_r. }
  intros [existing|e] h1 Hs1 _ _; [|done].
  apply wp_check, wp_fence; [apply reserve_reads| |done].
  apply wp_check_Ret. destruct (validateReservationPod _ _ _); [done|].
  apply wp_check, wp_extends. eapply wp_mono; [apply wp_wait_any|].
  { intros h' _. wp_reads reserve_reads. }
  intros [e|] h2 Hs2 _ _; [done|]. apply wp_cleanupReservationPod; [done|].
  eapply source_taken_mono, Ht. etrans; [|exact Hs2]. do 2 apply suffix_cons_r.
  etrans; [|exact Hs1]. by apply suffix_cons_r.
Qed.

(** *** The live reservation *)

Definition live_post (o : dest_step) (h : trace) : Prop :=
  match o.2 with
  | Some _ => dest_Reserved o.1 = rs_Reserved st0
  | None => reserved_ok (record_destination st0 (Name sourcePVC) o.1) h
  end.

Lemma wp_check_dest d p k P h :
  dest_Reserved d = rs_Reserved st0 -> wpg p (on_ok P) h ->
  (forall h', h `suffix_of` h' -> P h' -> wpg k live_post h') -> wpg (check_dest d p k) live_post h.
Proof.
  intros Hd Hp Hk. apply wp_bind_2. eapply wp_mono; [exact Hp|].
  intros [e|] h' Hs HP; [done|]. by apply Hk; [|apply HP].
Qed.

Lemma wp_check_dest_pure d e k h :
  dest_Reserved d = rs_Reserved st0 -> (e = None -> wpg k live_post h) ->
  wpg (check_dest d (Ret e) k) live_post h.
Proof. intros Hd Hk. destruct e; [done|by apply Hk]. Qed.

Lemma validateDestinationPVC_own pvc expected uid :
  validateDestinationPVC (Some pvc) (Some expected) uid = None ->
  validateDestinationPVC (Some pvc) (Some expected) (pvc_UID pvc) = None /\ pvc_UID pvc <> "" /\
  pvc_Namespace pvc = pvc_Namespace expected /\ pvc_Name pvc = pvc_Name expected.
Proof.
  unfold validateDestinationPVC. case_test; [done|]. bool_prop. rewrite String.eqb_refl, andb_false_r.
  repeat case_test; done.
Qed.

Lemma validateRetained_ok pv uid pvc :
  validateRetainedDestinationPV pv uid pvc sid = None ->
  pv_UID pv = uid /\ claims_back pv pvc = true /\ pv_ReclaimPolicy pv = ReclaimRetain /\
  mget (pv_Labels pv) SessionKey = sid.
Proof.
  unfold validateRetainedDestinationPV, validateReservationPVOwnership. rewrite andb_false_r.
  case_test; [done|]. cbv iota. case_test; [done|]. cbv iota. do 2 (case_test; [done|]). bool_prop. intros _.
  split_and!; try done. by eapply bool_decide_eq_true_1.
Qed.

Lemma wp_destination_node pv h :
  wpg (validateDestinationPVNode pv (TargetNode request))
    (on_ok (fun h' => TargetNode request <> "" ->
       exists node, Ev (GetNode (TargetNode request)) (inl node) ∈ h' /\ PVSupportsNode pv node = true)) h.
Proof.
  unfold validateDestinationPVNode. case_test; bool_prop; [by intros _ ?|].
  apply wp_bind_2, wp_call; [apply reserve_reads|done|done|]. intros [node|e]; [|done].
  case_test; bool_prop; [done|]. intros _ _. exists node. split; [left|done].
Qed.

Lemma wp_retain_destination pv h :
  source_taken sid sourcePVC sourcePV h -> destination_volume_of manifest pv h ->
  wpg (retainPV (pv_Name pv) (pv_UID pv) sid ResourceRoleDestination) (on_ok (fun _ => True)) h.
Proof.
  intros Ht Hd. eapply wp_mono; [apply wp_retainPV|done]. intros cur h' Hs Hu Hl.
  assert (h `suffix_of` Ev (GetPV (pv_Name pv)) (inl cur) :: h') as Hs' by (by apply suffix_cons_r).
  split; [eapply source_verified_mono, Ht; by do 2 apply suffix_cons_r|].
  exists cur, ResourceRoleDestination, (Ev (GetPV (pv_Name pv)) (inl cur) :: h').
  split_and!; [done|done|done|]. right. split_and!; [done|by eapply source_taken_mono|].
  exists pv. split_and!; [|left|done]. by eapply destination_volume_mono.
Qed.

Lemma wp_finalizeLiveReservation bound d h :
  source_taken sid sourcePVC sourcePV h ->
  Ev (GetPVC (pvc_Namespace manifest) (pvc_Name manifest)) (inl bound) ∈ h ->
  pvc_Phase bound = ClaimBound -> pvc_UID bound <> "" ->
  validateDestinationPVC (Some bound) (Some manifest) (pvc_UID bound) = None ->
  dest_Reserved d = rs_Reserved st0 ->
  wpg (finalizeLiveReservation request manifest bound d) live_post h.
Proof.
  intros Ht Hb Hph Hu Hv Hd. unfold finalizeLiveReservation. case_test; [done|].
  apply wp_bind_2, wp_call; [apply reserve_reads|done|done|]. intros [pv|e]; [|done].
  case_test; [done|]. case_test; [done|]. bool_prop.
  set (h1 := Ev (GetPV (pvc_VolumeName bound)) (inl pv) :: h).
  assert (h `suffix_of` h1) as Hs1 by (by apply suffix_cons_r).
  assert (destination_volume_of manifest pv h1) as Hdv.
  { exists bound. split_and!; try done; [set_solver|left]. }
  eapply wp_check_dest; [done|apply wp_destination_node|]. intros h2 Hs2 Hnode.
  apply wp_check_dest_pure; [done|]. intros Hcap.
  destruct (ValidateBoundVolumeCapacity _ _ _) eqn:Hc in Hcap; [done|].
  apply bound_capacity_None in Hc as [_ Hc]. destruct (Hc _ eq_refl) as [_ Hcap'].
  eapply wp_check_dest; [done|apply wp_retain_destination|].
  { eapply source_taken_mono, Ht. by etrans. }
  { by eapply destination_volume_mono. }
  intros h3 Hs3 _. apply wp_bind_2, wp_call; [apply reserve_reads|done|done|]. intros [current|e]; [|done].
  apply wp_check_dest_pure; [done|]. intros (Hcu & Hcb & Hpol & Hlab)%validateRetained_ok.
  assert (h1 `suffix_of` Ev (GetPV (pv_Name pv)) (inl current) :: h3) as Hs by (apply suffix_cons_r; by etrans).
  exists bound, pv, current. split_and!; try done.
  all: try (eapply suffix_elem; [exact Hs|set_solver]).
  - intros (node & Hn & Hsup)%Hnode. exists node. split; [|done].
    eapply suffix_elem; [|exact Hn]. by apply suffix_cons_r.
  - left.
  - eexists. split; [unfold record_destination; cbn; by case_test; bool_prop|done].
  - intros Hn. unfold record_destination. cbn. case_test; [done|]. by bool_prop.
  - eapply source_taken_mono, Ht. by etrans.
Qed.

(** Where the live reservation starts from. *)
Definition start : Destination :=
  {| dest_PVC := checkpoint_claim manifest st0; dest_PV := checkpoint_volume st0;
     dest_Policy := rs_DestinationPolicy st0; dest_Reserved := rs_Reserved st0 |}.

Lemma missing_ok :
  validateMissingReservationDestination (dest_PVC start) (dest_PV start) (dest_Reserved start) = None ->
  rs_Reserved st0 = false /\ default "" (UID <$> rs_DestinationPVC st0) = "" /\
  default "" (Name <$> rs_DestinationPV st0) = "".
Proof.
  unfold validateMissingReservationDestination. case_test; [done|]. bool_prop. intros _. simpl in *.
  unfold checkpoint_claim, checkpoint_volume in *.
  by destruct (rs_DestinationPVC st0), (rs_DestinationPV st0).
Qed.

Lemma wp_loadOrCreateReservationPVC h :
  source_taken sid sourcePVC sourcePV h ->
  wpg (loadOrCreateReservationPVC manifest (dest_PVC start) (dest_PV start) (dest_Reserved start))
    (fun _ _ => True) h.
Proof.
  intros Ht. apply wp_bind_2, wp_call; [apply reserve_reads|done|done|]. intros [existing|e]; [done|].
  case_test; [done|]. bool_prop. apply wp_check_Ret. destruct (validateMissingReservationDestination _ _ _) eqn:Hm; [done|].
  apply missing_ok in Hm. apply wp_check, wp_fence; [apply reserve_reads| |done].
  apply wp_step; [|done]. split_and!; [apply just_fenced_intro|done| | |apply Hm..].
  - eapply source_taken_mono, Ht. by do 3 apply suffix_cons_r.
  - exists e. split; [done|]. set_solver.
Qed.

Lemma wp_reserveVolumeLive h :
  source_taken sid sourcePVC sourcePV h -> names_claim (dest_PVC start) ->
  wpg (reserveVolumeLive r request (Name sourcePVC) manifest start) live_post h.
Proof.
  intros Ht Hn. apply wp_bind_2. eapply wp_mono; [by apply wp_loadOrCreateReservationPVC|].
  intros [existing|e] h1 Hs1 _; [|done].
  eapply (wp_check_dest _ _ _ (fun _ => True)); [done|apply wp_fence; [apply reserve_reads|done|done]|].
  intros h2 Hs2 _. apply wp_check_dest_pure; [done|]. intros Hv1.
  destruct existing as [existing|]; [|done]. cbv zeta.
  assert (source_taken sid sourcePVC sourcePV h2) as Ht2 by (eapply source_taken_mono, Ht; by etrans).
  eapply (wp_check_dest _ _ _ (fun _ => True)); [done| |].
  { eapply wp_mono; [case_test; [by apply wp_provisionOnTarget|by apply wp_cleanupReservationPod]|done]. }
  intros h3 Hs3 _. apply wp_bind_2, wp_call; [apply reserve_reads|done|done|]. intros [bound|e]; [|done].
  apply wp_check_dest_pure; [done|]. intros (Hv & Hu & _)%validateDestinationPVC_own.
  case_test; [done|]. bool_prop. apply wp_finalizeLiveReservation; try done; [|left|by eapply bool_decide_eq_true_1].
  eapply source_taken_mono, Ht2. by apply suffix_cons_r.
Qed.

(** *** The operation *)

Definition reserve_post (o : option ReservationStatus * option err) (h : trace) : Prop :=
  exists st, o.1 = Some st /\
    match o.2 with Some _ => rs_Reserved st = rs_Reserved st0 | None => reserved_ok st h end.

Lemma checkpoint_names :
  validateReservationCheckpoint (Name sourcePVC) manifest st0 = None -> names_claim (dest_PVC start).
Proof.
  unfold validateReservationCheckpoint. case_test; [done|]. simpl. unfold checkpoint_claim.
  destruct (rs_DestinationPVC st0) as [ref|]; [|done]. case_test; [done|]. by bool_prop.
Qed.

Lemma wp_ReserveVolume h :
  wpg (ReserveVolume r request sourcePVC sourcePV sourceCapacity (Some desired) (Some st0)) reserve_post h.
Proof.
  apply wp_bind_2. eapply wp_mono; [apply wp_prepareReservation|].
  intros [pvc|e] h1 _ Hp; [|by exists st0]. destruct (Hp pvc eq_refl) as (-> & Hsid & Hq & Hpv & Hsv).
  apply wp_bind_2. eapply (wp_mono _ _ (on_ok (fun h' => source_taken sid sourcePVC sourcePV h' /\
    names_claim (dest_PVC start)))).
  - apply wp_check_Ret. destruct (validateReservationCheckpoint _ _ _) eqn:Hc; [done|].
    apply checkpoint_names in Hc. apply wp_check. eapply wp_mono; [apply wp_placement|].
    intros [e|] h2 Hs2 _; [done|]. assert (source_verified sid sourcePVC sourcePV h2) as Hsv2
      by (by eapply source_verified_mono).
    apply wp_check. eapply wp_mono; [by apply wp_Acquire|]. intros [e|] h3 Hs3 Ha; [done|].
    assert (source_verified sid sourcePVC sourcePV h3) as Hsv3 by (by eapply source_verified_mono).
    eapply wp_mono; [by apply wp_retain_source|]. intros [e|] h4 Hs4 Hr; [done|]. intros _.
    split; [|done]. split_and!; [by eapply source_verified_mono| |by apply Hr].
    eapply claim_seen_mono; [done|by apply Ha].
  - intros [e|] h2 Hs2 Hok; [by exists st0|]. destruct (Hok eq_refl) as [Ht Hn].
    apply wp_bind_2. eapply wp_mono; [by apply wp_reserveVolumeLive|].
    intros [d [e|]] h3 Hs3 Hl; eexists; (split; [done|exact Hl]).
Qed.

Definition reserve_run {W} (server : handler W) (w : W) :=
  run server (ReserveVolume r request sourcePVC sourcePV sourceCapacity (Some desired) (Some st0)) w [].

(** C22: a reservation writes only what it may.  Against any server and any
    concurrent client, every write of [ReserveVolume] comes after the source claim
    was read Bound to the recorded volume, which pointed back at it, both free of
    other sessions, and is one of: the session annotation on the recorded, unowned
    source claim; a volume pinned to Retain behind a passed fence, namely the
    source volume or the volume a claim accepted as the planned destination is
    bound to; the planned destination claim, created once, behind a fence, only
    when it was read as missing and no earlier reservation of it is recorded; the
    session's own short-lived Pod in the destination namespace; and the deletion of
    that Pod, conditioned on the UID just read.  No claim or volume is deleted. *)
Theorem reserve_writes_safely {W} (server : handler W) w :
  calls_ok reserve_guard [] (reserve_run server w).2.
Proof. by apply (wp_adequate _ server _ _ w [] (wp_ReserveVolume [])). Qed.

(** C23: a reservation reported as done is done, and a failed one never marks the
    checkpoint as reserved.  On success the destination claim was read Bound and as
    planned, its volume pointed back at it, covers the planned capacity, is
    reachable from the requested node, and was read again with the same identity
    and binding, policy Retain and this session's mark; the checkpoint names that
    claim and volume, and the source is taken.  On an error the checkpoint's
    Reserved flag is what it was. *)
Theorem reserve_result_sound {W} (server : handler W) w o :
  (reserve_run server w).1.1 = Some o -> reserve_post o (reserve_run server w).2.
Proof. by apply (wp_adequate _ server _ _ w [] (wp_ReserveVolume [])). Qed.
End guard.
