(* ===== verification/ReclaimSafety.v ===== *)
(** * Safety of reclaiming storage

    Against every server: which claims and volumes the cleanup may delete or
    change, and what it has observed of them by then. *)

From S2P Require Import Prelude GoErrors Lifecycle KubeTypes Prog Api ResourceState Ownership PVBinding Offline Activation SwitcherRules Reclaim.

(** ** Observations *)

(** The recorded claim was read, no Pod but the workflow's own reservation Pod
    keeps it in use, and the volume it is bound to is attached nowhere. *)
Definition claim_unused (sid : string) (ref : ObjectReference) (h : trace) : Prop :=
  exists p pods,
    Ev (GetPVC (Namespace ref) (Name ref)) (inl p) ∈ h /\ pvc_UID p = UID ref /\
    Ev (ListPods (Namespace ref)) (inl (Some pods)) ∈ h /\
    Forall (fun pod => blocking_pod ref sid pod = false) pods /\
    (pvc_VolumeName p = "" \/ detached (pvc_VolumeName p) h).

Lemma claim_unused_mono sid ref h h' : h `suffix_of` h' -> claim_unused sid ref h -> claim_unused sid ref h'.
Proof.
  intros Hs (p & pods & H1 & H2 & H3 & H4 & H5). exists p, pods.
  split_and!; try done; try (by eapply suffix_elem).
  destruct H5 as [?|?]; [by left|right; by eapply detached_mono].
Qed.

(** A volume the workflow may delete: the recorded UID, marked by the session with
    the expected role (or, when the reservation was never checkpointed, unmarked and
    pointing at the recorded claim), not in use, and with the recorded original
    policy. *)
Definition reclaimable (sid : string) (v : reclaimVolume) (pv : PV) : Prop :=
  cleanupPVIdentityMatches pv (rv_pv v) sid (rv_role v) (rv_uncheckpointed v) = true /\
  free_phase (pv_Phase pv) = true /\
  reclaimPVPolicyMatches pv (rv_policy v) (rv_uncheckpointed v) = true.

(** A volume the workflow may give back. *)
Definition releasable (sid : string) (v : reclaimVolume) (pv : PV) : Prop :=
  pv_UID pv = UID (rv_pv v) /\ mget (pv_Labels pv) SessionKey = sid /\
  finalizable_role (mget (pv_Labels pv) ResourceRoleLabel) = true.

Section guard.
Context `{CR : ConflictRetry} (polls : nat) (sid : string) (v : reclaimVolume) (finalize : bool).

Notation pv_read pv := (Ev (GetPV (Name (rv_pv v))) (inl pv)).

(** The claim was inspected: unused or absent; or its volume, allowed to be
    missing, was, and the inspection skipped. *)
Definition inspected (h : trace) : Prop :=
  claim_unused sid (rv_pvc v) h \/ claim_absent (rv_pvc v) h \/
  (rv_skipMissingPV v = true /\
   exists e, IsNotFound e = true /\ Ev (GetPV (Name (rv_pv v))) (inr e) ∈ h).

Lemma inspected_mono h h' : h `suffix_of` h' -> inspected h -> inspected h'.
Proof.
  intros Hs [?|[?|(Hk & e & He & Hi)]].
  - left. by eapply claim_unused_mono.
  - right; left. by eapply claim_absent_mono.
  - right; right. split; [done|]. exists e. split; [done|by eapply suffix_elem].
Qed.

(** The claim goes right behind a passed fence and a read of it with the recorded
    UID and the session's label, with that UID and version as preconditions, once
    it was inspected. *)
Definition claim_delete_ok (h : trace) (ns name uid rv : string) : Prop :=
  rv_delete v = true /\ ns = Namespace (rv_pvc v) /\ name = Name (rv_pvc v) /\ uid = UID (rv_pvc v) /\
  inspected h /\
  exists p h0, h = Ev FenceErr None :: Ev CtxErr None :: Ev (GetPVC ns name) (inl p) :: h0 /\
    pvc_UID p = uid /\ pvc_ResourceVersion p = rv /\ mget (pvc_Labels p) SessionKey = sid.

(** The volume goes right behind a passed fence: what is deleted is a reclaimable
    volume that was read with the policy it had before the workflow, or what the
    server returned when that policy was restored on it. *)
Definition volume_delete_ok (h : trace) (name uid rv : string) : Prop :=
  rv_delete v = true /\ just_fenced h /\
  exists pv target, pv_read pv ∈ h /\ reclaimable sid v pv /\
    name = pv_Name target /\ uid = pv_UID target /\ rv = pv_ResourceVersion target /\
    ((target = pv /\ live_policy pv = rv_policy v) \/
     exists p, policy_string p = rv_policy v /\ Ev (UpdatePV (pv_set_policy pv p)) (inl (Some target)) ∈ h).

(** A volume is written right behind a passed fence, with the recorded policy: a
    reclaimable one to be deleted, otherwise one of the workflow's own, stripped of
    its marks. *)
Definition volume_update_ok (h : trace) (pv' : PV) : Prop :=
  just_fenced h /\
  exists pv p, pv_read pv ∈ h /\ policy_string p = rv_policy v /\
    ((rv_delete v = true /\ reclaimable sid v pv /\ pv' = pv_set_policy pv p) \/
     (rv_delete v = false /\ releasable sid v pv /\ pv' = pv_set_policy (stripped_pv pv) p)).

Definition reclaim_guard (h : trace) (q : req) : Prop :=
  match q with
  | DeletePVC ns name uid rv => claim_delete_ok h ns name uid rv
  | DeletePV name uid rv => volume_delete_ok h name uid rv
  | UpdatePV pv => volume_update_ok h pv
  | UpdatePVUnsupported pv' policy =>
      just_fenced h /\ rv_delete v = false /\ policy = rv_policy v /\
      exists pv, pv_read pv ∈ h /\ releasable sid v pv /\ pv' = stripped_pv pv
  | UpdatePVC p' =>
      rv_delete v = false /\ finalize = true /\
      claim_update_guard (rv_pvc v) (fun p p' => unowned_or sid p /\ p' = finalized p (rv_metadata v)) h (UpdatePVC p')
  | q => is_write q = false
  end.

Lemma reclaim_reads : reads_ok reclaim_guard.
Proof. intros h q Hw Hp. by case_req q. Qed.

Notation wpg := (wp reclaim_guard).

(** ** The steps *)

Lemma wp_checkpointFence (Q : option err -> trace -> Prop) h :
  Q None (Ev FenceErr None :: Ev CtxErr None :: h) ->
  (forall e h', h `suffix_of` h' -> Q (Some e) h') -> wpg checkpointFenceError Q h.
Proof.
  intros H1 H2. apply wp_step; [by apply reclaim_reads|]. intros [e|].
  - apply H2. by apply suffix_cons_r.
  - apply wp_call; [apply reclaim_reads|done|done|]. intros [e|]; [|done]. apply H2.
    by do 2 apply suffix_cons_r.
Qed.

(** Only reads: nothing to prove of the guard. *)
Lemma wp_wait_true description (condition : kube (result (bool * unit))) h :
  (forall h', wpg condition (fun _ _ => True) h') ->
  wpg (wait_error (WaitFor polls second description condition)) (fun _ _ => True) h.
Proof.
  intros Hc. apply wp_bind_2.
  eapply wp_mono; [apply (wp_WaitFor _ reclaim_reads _ _ _ _ (fun _ _ => True))|done].
  intros h' _. by eapply wp_mono; [apply Hc|].
Qed.

Lemma blocked_pods pods :
  List.find (blocking_pod (rv_pvc v) sid) pods = None ->
  Forall (fun pod => blocking_pod (rv_pvc v) sid pod = false) pods.
Proof. intros Hf. apply Forall_forall. intros pod Hp. by eapply find_none; [|apply list_elem_of_In]. Qed.

Lemma find_attached name items :
  List.find (attachment_holds [name]) items = None ->
  Forall (fun a => ~ (va_PersistentVolumeName a = Some name /\ va_Attached a = true)) items.
Proof.
  intros Hf. apply attachments_clear. destruct (existsb _ items) eqn:He; [|done].
  apply existsb_exists in He as (a & Ha & Hh). by rewrite (find_none _ _ Hf a Ha) in Hh.
Qed.

Lemma wp_blocked_by pod h : wpg (blocked_by (rv_pvc v) sid pod) (fun _ _ => True) h.
Proof.
  assert (forall b c h', wpg (cleanupPodBlockerError (rv_pvc v) pod sid b c) (fun _ _ => True) h') as Hb.
  { intros b c h'. apply wp_bind_2. apply (wp_mono _ _ (fun _ _ => True)); [|by intros [[] ?]].
    unfold resolveCleanupPodOwner, resolveCleanupReplicaSetOwner. wp_reads reclaim_reads. }
  unfold blocked_by. by case_test.
Qed.

Lemma wp_inspect h :
  wpg (inspectPVCUnusedWithOperations (rv_pvc v) sid)
    (on_val (fun _ h' => claim_unused sid (rv_pvc v) h' \/ claim_absent (rv_pvc v) h')) h.
Proof.
  apply wp_bind_2, wp_call; [apply reclaim_reads|done|done|]. intros [p|e].
  2:{ case_test; [|done]. intros _ _. right. exists e. split; [done|left]. }
  do 3 (case_test; [done|]). bool_prop.
  apply wp_bind_2, wp_call; [apply reclaim_reads|done|done|]. intros lp.
  apply wp_bind_2. apply (wp_mono _ _ (fun a h' => forall items, a = inl items -> pvc_VolumeName p <> "" ->
    Ev ListVolumeAttachments (inl (Some items)) ∈ h')).
  { case_test; bool_prop; [by intros items _ ?|].
    apply wp_bind_2, wp_call; [apply reclaim_reads|done|done|]. intros [[items|]|e]; try done.
    intros items' [= <-] _. left. }
  intros a h' Hs Ha. destruct lp as [[pods|]|e]; [|done|done]. cbn [listed].
  destruct (List.find (blocking_pod _ _) pods) eqn:Hf.
  { apply wp_bind_2. by eapply wp_mono; [apply wp_blocked_by|]. }
  apply blocked_pods in Hf.
  assert (pvc_VolumeName p = "" \/ detached (pvc_VolumeName p) h' -> claim_unused sid (rv_pvc v) h') as Hc.
  { intros Hd. exists p, pods. split_and!; try done; eapply suffix_elem; try exact Hs; set_solver. }
  case_test; bool_prop; [intros _ _; left; auto|]. destruct a as [items|e]; [|done].
  destruct (List.find (attachment_holds _) items) eqn:Hat; [done|]. intros _ _. left. apply Hc. right.
  exists items. split; [by apply Ha|by apply find_attached].
Qed.

(** The checks before a deletion saw the claim unused, or absent. *)
Lemma wp_validateReclaimPVC h :
  wpg (validateReclaimPVC sid v)
    (on_ok (fun h' => rv_delete v = true -> UID (rv_pvc v) <> "" ->
       claim_unused sid (rv_pvc v) h' \/ claim_absent (rv_pvc v) h')) h.
Proof.
  unfold validateReclaimPVC. case_test; bool_prop; [by intros _ _ ?|].
  apply wp_bind_2, wp_call; [apply reclaim_reads|done|done|]. intros [p|e].
  2:{ case_test; [|done]. intros _ _ _. right. exists e. split; [done|left]. }
  case_test; [done|]. destruct (rv_delete v); cbn [negb]; [|done].
  case_test; [done|]. apply wp_try. eapply wp_mono; [apply wp_inspect|].
  intros [[q|]|e] h' _ Hc; [|by intros _ _ _; apply (Hc None)|done].
  case_test; [done|]. intros _ _ _. by apply (Hc (Some q)).
Qed.

Lemma wp_skipMissing h :
  wpg (skipMissingReclaimPV v) (on_val (fun skip h' => skip = true -> inspected h')) h.
Proof.
  unfold skipMissingReclaimPV. destruct (rv_skipMissingPV v) eqn:Hk; cbn [negb]; [|by intros a [= <-]].
  apply wp_bind_2, wp_call; [apply reclaim_reads|done|done|]. intros [pv|e]; [by intros a [= <-]|].
  intros a. case_test; [|done]. intros _ _. right; right. split; [done|]. exists e. split; [done|left].
Qed.

Lemma wp_validateReclaimPV h : wpg (validateReclaimPV sid v) (fun _ _ => True) h.
Proof.
  unfold validateReclaimPV. do 2 (case_test; [done|]).
  apply wp_bind_2, wp_call; [apply reclaim_reads|done|done|]. intros [pv|e]; [|by case_test].
  apply wp_check_Ret. by repeat case_match.
Qed.

Lemma wp_validateReclaimVolume h :
  wpg (validateReclaimVolume sid v finalize)
    (on_ok (fun h' => rv_delete v = true -> UID (rv_pvc v) <> "" -> inspected h')) h.
Proof.
  apply wp_try. eapply wp_mono; [apply wp_skipMissing|]. intros [skip|e] h1 _ Hsk; [|done].
  destruct skip; [intros _ _ _; by apply (Hsk true)|].
  case_test; [bool_prop; intros _ Hd; congruence|].
  apply wp_check. eapply wp_mono; [apply wp_validateReclaimPVC|]. intros [e|] h2 _ Hc; [done|].
  eapply wp_mono; [apply wp_validateReclaimPV|]. intros r h3 Hs _ _ Hd Hu.
  eapply inspected_mono; [exact Hs|]. destruct (Hc eq_refl Hd Hu); [by left|by right; left].
Qed.

Lemma wp_deleteManagedPVC h :
  rv_delete v = true -> inspected h ->
  wpg (deleteManagedPVC sid (rv_pvc v)) (fun _ _ => True) h.
Proof.
  intros Hd Hi. apply wp_check, wp_checkpointFence; [|done].
  apply wp_bind_2, wp_call; [apply reclaim_reads|done|done|]. intros [p|e]; [|by case_test].
  case_test; [done|]. bool_prop. apply wp_check, wp_checkpointFence; [|done]. apply wp_step.
  - split_and!; try done.
    + eapply inspected_mono, Hi. by do 5 apply suffix_cons_r.
    + by eexists p, _.
  - intros d. apply wp_check_Ret. destruct (match d with Some _ => _ | None => _ end); [done|].
    by apply wp_checkpointFence.
Qed.

(** *** Deleting the volume *)

Lemma policy_of_string_Some s p : policy_of_string s = Some p -> policy_string p = s.
Proof. unfold policy_of_string. repeat case_test; bool_prop; intros [= <-]; done. Qed.

Lemma policy_of_string_valid s : validReclaimPolicy s = true -> is_Some (policy_of_string s).
Proof.
  unfold validReclaimPolicy, policy_of_string. rewrite !orb_true_iff, !String.eqb_eq.
  intros [[->| ->]| ->]; by eexists.
Qed.

Lemma wp_join_fence e (Q : option err -> trace -> Prop) h :
  (e = None -> Q None (Ev FenceErr None :: Ev CtxErr None :: h)) ->
  (forall e' h', h `suffix_of` h' -> Q (Some e') h') -> wpg (join_fence e) Q h.
Proof.
  intros H1 H2. apply wp_bind_2, wp_checkpointFence.
  - destruct e as [e|]; [apply H2; by do 2 apply suffix_cons_r|by apply H1].
  - intros e' h' Hs. unfold errors_Join. destruct e; by apply H2.
Qed.

(** What the attempt to restore the policy hands on. *)
Definition prepared_ok (target : PV) (h : trace) : Prop :=
  exists pv, pv_read pv ∈ h /\ reclaimable sid v pv /\
    ((target = pv /\ live_policy pv = rv_policy v) \/
     exists p, policy_string p = rv_policy v /\ Ev (UpdatePV (pv_set_policy pv p)) (inl (Some target)) ∈ h).

Lemma prepared_ok_mono target h h' : h `suffix_of` h' -> prepared_ok target h -> prepared_ok target h'.
Proof.
  intros Hs (pv & H1 & H2 & H3). exists pv. split_and!; [by eapply suffix_elem|done|].
  destruct H3 as [?|(p & Hp & He)]; [by left|right; exists p; split; [done|by eapply suffix_elem]].
Qed.

Lemma wp_restore_attempt h :
  rv_delete v = true -> validReclaimPolicy (rv_policy v) = true ->
  wpg (restore_attempt (rv_pv v) sid (rv_role v) (rv_policy v) (rv_uncheckpointed v))
    (on_val (fun o h' => forall target, o = Some target -> prepared_ok target h')) h.
Proof.
  intros Hd [p Hp]%policy_of_string_valid. apply wp_check, wp_checkpointFence; [|done].
  apply wp_bind_2, wp_call; [apply reclaim_reads|done|done|].
  intros [pv|e]; [|case_test; [by intros a [= <-]|done]]. case_test; [done|]. bool_prop.
  assert (reclaimable sid v pv) as Hr by done. case_test; bool_prop.
  { intros o [= <-] target [= <-]. exists pv. split_and!; [left|done|by left]. }
  apply wp_check, wp_checkpointFence; [|done].
  unfold update_pv_policy. rewrite Hp. apply policy_of_string_Some in Hp. apply wp_step.
  { split; [by eexists|]. exists pv, p. split_and!; [set_solver|done|by left]. }
  intros u. apply wp_bind_2, wp_join_fence.
  - destruct u as [o|e]; [|done]. intros _ o' [= <-] target ->. exists pv.
    split_and!; [set_solver|done|]. right. exists p. split; [done|set_solver].
  - by intros e' h' _.
Qed.

Lemma wp_restoreReclaimedPVPolicy h :
  rv_delete v = true ->
  wpg (restoreReclaimedPVPolicy (rv_pv v) sid (rv_role v) (rv_policy v) (rv_uncheckpointed v))
    (on_val (fun o h' => forall target, o = Some target -> prepared_ok target h')) h.
Proof.
  intros Hd. unfold restoreReclaimedPVPolicy. case_test; [done|]. bool_prop. apply wp_bind_2.
  eapply wp_mono; [apply wp_retry_value; intros h' _; by apply wp_restore_attempt|].
  intros [o|e] h' _ Ho; [by intros o' [= <-]; apply Ho|by case_test].
Qed.

Lemma wp_waitForPVDeletion h : wpg (waitForPVDeletion polls (rv_pv v)) (fun _ _ => True) h.
Proof.
  apply wp_bind_2. eapply wp_mono; [apply wp_wait_true|done]. intros h'. wp_reads reclaim_reads.
Qed.

Lemma wp_delete_released h :
  rv_delete v = true ->
  wpg (delete_released polls sid (rv_pv v) (rv_role v) (rv_policy v) (rv_uncheckpointed v)) (fun _ _ => True) h.
Proof.
  intros Hd. apply wp_try. eapply wp_mono; [by apply wp_restoreReclaimedPVPolicy|].
  intros [[target|]|e] h1 _ Hp; [|done|done].
  apply wp_check, wp_checkpointFence; [|done]. apply wp_step.
  - split_and!; [done|by eexists|]. destruct (Hp _ eq_refl target eq_refl) as (pv & H1 & H2 & H3).
    exists pv, target. split_and!; try done; [set_solver|].
    destruct H3 as [?|(p & ? & ?)]; [by left|right; exists p; split; [done|set_solver]].
  - intros d. apply wp_check_Ret. destruct (match d with Some _ => _ | None => _ end); [done|].
    apply wp_check, wp_checkpointFence; [apply wp_waitForPVDeletion|done].
Qed.

Lemma wp_deleteReclaimedPV h :
  rv_delete v = true ->
  wpg (deleteReclaimedPV polls sid (rv_pv v) (rv_role v) (rv_policy v) (rv_uncheckpointed v)) (fun _ _ => True) h.
Proof.
  intros Hd. apply wp_check, wp_checkpointFence; [|done].
  apply wp_bind_2, wp_call; [apply reclaim_reads|done|done|]. intros [pv|e]; [|by case_test].
  case_test; [done|]. apply wp_try. apply (wp_mono _ _ (fun _ _ => True)).
  - case_test; [|done]. apply wp_check. apply (wp_mono _ _ (fun _ _ => True)).
    { unfold validateDeletingPVClaim. wp_reads reclaim_reads. }
    intros [e|] h1 _ _; [done|]. apply wp_bind_2. eapply wp_mono; [apply wp_wait_true|].
    { intros h'. unfold reclaimedPVReleased. wp_reads reclaim_reads. }
    intros [e|] h2 _ _; [done|]. wp_reads reclaim_reads.
  - intros [[released|]|e] h1 _ _; [|done|done]. case_test; [done|]. by apply wp_delete_released.
Qed.

(** *** Giving the volume back *)

Lemma wp_finalizeActivePV h :
  rv_delete v = false -> wpg (finalizeActivePV sid (rv_pv v) (rv_policy v)) (on_ok (fun _ => True)) h.
Proof.
  intros Hd. unfold finalizeActivePV. case_test; [done|]. apply wp_report, wp_retry. intros h' _.
  apply wp_check, wp_checkpointFence; [|done].
  apply wp_bind_2, wp_call; [apply reclaim_reads|done|done|]. intros [pv|e]; [|done].
  case_test; [done|]. case_test; [done|]. case_test; [done|]. bool_prop.
  assert (releasable sid v pv) as Hr by done.
  apply wp_check, wp_checkpointFence; [|done].
  unfold update_pv_policy. destruct (policy_of_string (rv_policy v)) as [p|] eqn:Hp.
  - apply policy_of_string_Some in Hp. apply wp_step.
    + split; [by eexists|]. exists pv, p. split_and!; [set_solver|done|by right].
    + intros u. by apply wp_join_fence.
  - apply wp_bind_2, wp_step.
    + split_and!; [by eexists|done|done|]. exists pv. split_and!; [set_solver|done|done].
    + intros u. by apply wp_join_fence.
Qed.

Lemma wp_if_pv_exists (k : kube (option err)) h :
  (forall h', wpg k (fun _ _ => True) h') -> wpg (if_pv_exists (rv_pv v) k) (fun _ _ => True) h.
Proof.
  intros Hk. unfold if_pv_exists. case_test; [done|].
  apply wp_bind_2, wp_call; [apply reclaim_reads|done|done|]. intros [pv|e]; [apply Hk|by case_test].
Qed.

Lemma wp_finalize_claim h :
  rv_delete v = false -> finalize = true ->
  wpg (FinalizePVC (rv_pvc v) sid (rv_metadata v)) (fun _ _ => True) h.
Proof.
  intros Hd Hf. eapply wp_mono; [|done]. eapply wp_guard_mono; [apply wp_FinalizePVC|].
  intros h' q _ Hq. case_req q; done.
Qed.

Lemma wp_reclaimStorageVolume h :
  wpg (reclaimStorageVolume polls sid v finalize) (fun _ _ => True) h.
Proof.
  apply wp_try. eapply wp_mono; [apply wp_skipMissing|]. intros [[|]|e] h1 _ _; [done| |done].
  case_test; [done|]. apply wp_check. eapply wp_mono; [apply wp_validateReclaimVolume|].
  intros [e|] h2 _ Hi; [done|]. specialize (Hi eq_refl). destruct (rv_delete v) eqn:Hd.
  - apply wp_check. apply (wp_mono _ _ (fun _ _ => True)).
    { case_test; [|done]. bool_prop. apply wp_deleteManagedPVC; [done|auto]. }
    intros [e|] h3 _ _; [done|]. apply wp_if_pv_exists. intros h4. by apply wp_deleteReclaimedPV.
  - apply wp_check. apply (wp_mono _ _ (fun _ _ => True)).
    { case_test; [|done]. apply wp_finalize_claim; [done|]. by destruct finalize. }
    intros [e|] h3 _ _; [done|]. apply wp_if_pv_exists. intros h4.
    by eapply wp_mono; [apply wp_finalizeActivePV|].
Qed.

End guard.
