(* ===== verification/StoreRefinement.v ===== *)
(** * The stores implement a versioned register

    Abstractly, a store keeps for each key one object with a version (UID and
    resourceVersion), and saving is an atomic compare-and-swap: at one instant the
    stored object has exactly the version the caller loaded and the caller's spec,
    and is replaced by the caller's status under a new version.  [swap] is that step;
    [save_refines] says that a save, run while other clients act, performs it once if
    it reports success and at most once otherwise.

    The server is a parameter: [api_laws] states the optimistic concurrency of the
    Kubernetes API.  [env] relates two states between which other clients acted. *)

From S2P Require Import Prelude GoErrors Lifecycle KubeTypes Prog WorkflowStore.

(** ** Running against a stateful server *)

Section sp.
Context {E : Type} {R : E -> Type} {W : Type} (H : handler (E := E) (R := R) W).

(** The result and the final state satisfy [Q]. *)
Definition sp {A} (p : prog E R A) (w : W) (Q : A -> W -> Prop) : Prop :=
  forall h a w' h', run H p w h = (Some a, w', h') -> Q a w'.

Lemma sp_Ret {A} (a : A) w (Q : A -> W -> Prop) : Q a w -> sp (Ret a) w Q.
Proof. by intros HQ h a' w' h' [= <- <- _]. Qed.

Lemma sp_bind {A B} (p : prog E R A) (f : A -> prog E R B) w (Q : B -> W -> Prop) :
  sp p w (fun a w' => sp (f a) w' Q) -> sp (p ≫= f) w Q.
Proof.
  intros Hp h b w' h'. rewrite run_bind. destruct (run H p w h) as [[[a|] w1] h1] eqn:Hr; [|done].
  by apply (Hp h a w1 h1 Hr).
Qed.

Lemma sp_call r w (Q : R r -> W -> Prop) : Q (H r w).1 (H r w).2 -> sp (call r) w Q.
Proof. intros HQ h a w' h' Hr. cbn in Hr. by injection Hr as <- <- _. Qed.

Lemma sp_step {A} r (k : R r -> prog E R A) w (Q : A -> W -> Prop) :
  sp (k (H r w).1) (H r w).2 Q -> sp (call r ≫= k) w Q.
Proof. intros Hk. by apply sp_bind, sp_call. Qed.

(** Total: the program returns, from any history, and its result satisfies [Q]. *)
Definition returns {A} (p : prog E R A) (w : W) (Q : A -> W -> Prop) : Prop :=
  forall h, exists a w' h', run H p w h = (Some a, w', h') /\ Q a w'.

Lemma ret_Ret {A} (a : A) w (Q : A -> W -> Prop) : Q a w -> returns (Ret a) w Q.
Proof. intros HQ h. by exists a, w, h. Qed.

Lemma ret_bind {A B} (p : prog E R A) (f : A -> prog E R B) w (Q : B -> W -> Prop) :
  returns p w (fun a w' => returns (f a) w' Q) -> returns (p ≫= f) w Q.
Proof.
  intros Hp h. destruct (Hp h) as (a & w1 & h1 & Hr & Hf). destruct (Hf h1) as (b & w2 & h2 & Hr2 & HQ).
  exists b, w2, h2. split; [|done]. by rewrite run_bind, Hr.
Qed.

Lemma ret_step {A} r (k : R r -> prog E R A) w x w' (Q : A -> W -> Prop) :
  H r w = (x, w') -> returns (k x) w' Q -> returns (call r ≫= k) w Q.
Proof.
  intros Hr Hk h. destruct (Hk (Ev r x :: h)) as (a & w2 & h2 & Hr2 & HQ). exists a, w2, h2.
  split; [|done]. cbn. by rewrite Hr.
Qed.

Lemma sp_mono {A} (p : prog E R A) w (Q Q' : A -> W -> Prop) :
  sp p w Q -> (forall a w', Q a w' -> Q' a w') -> sp p w Q'.
Proof. intros Hp HQ h a w' h' Hr. eauto. Qed.
End sp.

Section register.
Context {Spec Status : Type} `{EqDecision Spec}.
Notation Wf := (Workflow Spec Status).
Notation server W := (handler (E := wreq Spec Status) (R := wresp) W).

(** ** The server *)

Record api_laws {W} (H : server W) (cms : W -> gmap (string * string) ConfigMap)
    (crs : W -> gmap (string * string) Wf) (env : W -> W -> Prop) : Prop := {
  env_refl : forall w, env w w;
  env_trans : forall w1 w2 w3, env w1 w2 -> env w2 w3 -> env w1 w3;
  (** a version identifies one content of an object *)
  env_cm_version : forall w w' k c c', env w w' -> cms w !! k = Some c -> cms w' !! k = Some c' ->
    cm_ResourceVersion c = cm_ResourceVersion c' -> c = c';
  env_cr_version : forall w w' k c c', env w w' -> crs w !! k = Some c -> crs w' !! k = Some c' ->
    wf_ResourceVersion c = wf_ResourceVersion c' -> c = c';
  (** the context and the fence are read; others may act meanwhile *)
  law_ctx : forall w, env w (H WCtxErr w).2;
  law_fence : forall w, env w (H WFenceErr w).2;
  (** a get answers with the object as it is at that moment, or with an error *)
  law_get_cm : forall w ns n, let xw := H (GetConfigMap ns n) w in
    env w xw.2 /\ match xw.1 with
                  | inl c => cms xw.2 !! (ns, n) = Some c
                  | inr e => IsNotFound e = true -> cms xw.2 !! (ns, n) = None
                  end;
  law_get_cr : forall w ns n, let xw := H (GetWorkflow ns n) w in
    env w xw.2 /\ match xw.1 with
                  | inl c => crs xw.2 !! (ns, n) = Some c
                  | inr e => IsNotFound e = true -> crs xw.2 !! (ns, n) = None
                  end;
  (** an update replaces the object if its version is the one sent; when it reports an
      error it may or may not have been applied *)
  law_update_cm : forall w c, let xw := H (UpdateConfigMap c) w in
    let put c' := exists wm old, env w wm /\ cms wm !! (cm_Namespace c, cm_Name c) = Some old /\
      cm_ResourceVersion old = cm_ResourceVersion c /\ cm_ResourceVersion c' <> cm_ResourceVersion c /\
      cm_Namespace c' = cm_Namespace c /\ cm_Name c' = cm_Name c /\ cm_UID c' = cm_UID old /\
      cm_Labels c' = cm_Labels c /\ cm_Data c' = cm_Data c /\
      cms xw.2 = <[(cm_Namespace c, cm_Name c) := c']> (cms wm) /\ crs xw.2 = crs wm in
    match xw.1 with inl c' => put c' | inr _ => env w xw.2 \/ exists c', put c' end;
  (** a status update replaces the status alone *)
  law_update_status : forall w o, let xw := H (UpdateWorkflowStatus o) w in
    let put o' := exists wm old, env w wm /\ crs wm !! (wf_Namespace o, wf_Name o) = Some old /\
      wf_ResourceVersion old = wf_ResourceVersion o /\ wf_ResourceVersion o' <> wf_ResourceVersion o /\
      wf_UID o' = wf_UID old /\ wf_Spec o' = wf_Spec old /\ wf_Status o' = wf_Status o /\
      crs xw.2 = <[(wf_Namespace o, wf_Name o) := o']> (crs wm) /\ cms xw.2 = cms wm in
    match xw.1 with inl o' => put o' | inr _ => env w xw.2 \/ exists o', put o' end
}.

(** ** The abstract register *)

(** Compare and swap: [view] is the register of the object's key. *)
Definition swap {W} (view : W -> string * string -> option Wf) (object : Wf) (w w' : W) (new : Wf) : Prop :=
  let key := (wf_Namespace object, wf_Name object) in
  exists cur, view w key = Some cur /\
    wf_UID cur = wf_UID object /\ wf_ResourceVersion cur = wf_ResourceVersion object /\
    wf_Spec cur = wf_Spec object /\
    view w' key = Some new /\
    wf_UID new = wf_UID object /\ wf_ResourceVersion new <> wf_ResourceVersion object /\
    wf_Spec new = wf_Spec object /\ wf_Status new = wf_Status object /\
    forall k, k.2 <> wf_Name object -> view w' k = view w k.

(** A save that returns [o] in state [w'] swapped exactly once on success, at most
    once on an error; on success the caller's object has the new version. *)
Definition save_refines {W} (view : W -> string * string -> option Wf) (env : W -> W -> Prop)
    (object : Wf) (w : W) (o : Wf * option err) (w' : W) : Prop :=
  let swapped new := exists w1 w2, env w w1 /\ swap view object w1 w2 new /\ env w2 w' in
  match o.2 with
  | None => exists new, swapped new /\ wf_UID o.1 = wf_UID new /\ wf_ResourceVersion o.1 = wf_ResourceVersion new /\
              wf_Spec o.1 = wf_Spec object /\ wf_Status o.1 = wf_Status object
  | Some _ => o.1 = object /\ (env w w' \/ exists new, swapped new)
  end.

(** What a store promises of [Save], for a view of the server state. *)
Class RegisterStore {W} (H : server W) (env : W -> W -> Prop) (view : W -> string * string -> option Wf)
    (s : StoreOps Spec Status) : Prop :=
  save_law : forall object w, sp H (st_Save s object) w (save_refines view env object w).

(** ** Rules *)

Section rules.
Context {W : Type} (H : server W) (cms : W -> gmap (string * string) ConfigMap).
Context (crs : W -> gmap (string * string) Wf) (env : W -> W -> Prop) (L : api_laws H cms crs env).

Lemma sp_wfence w (Q : option err -> W -> Prop) :
  (forall e w', env w w' -> Q e w') -> sp H wfence w Q.
Proof.
  intros HQ. apply (sp_step H WCtxErr), (sp_step H WFenceErr), sp_Ret, HQ.
  eapply (env_trans _ _ _ _ L); [apply (law_ctx _ _ _ _ L)|apply (law_fence _ _ _ _ L)].
Qed.

Lemma sp_check_obj object p k w (Q : Wf * option err -> W -> Prop) :
  sp H p w (fun e w' => match e with Some x => Q (object, Some x) w' | None => sp H k w' Q end) ->
  sp H (check_obj object p k) w Q.
Proof. intros Hp. apply sp_bind. eapply sp_mono; [exact Hp|]. intros [e|] w' HQ; [by apply sp_Ret|done]. Qed.

Lemma sp_try_obj {A} object (p : prog _ _ (result A)) k w (Q : Wf * option err -> W -> Prop) :
  sp H p w (fun r w' => match r with inr x => Q (object, Some x) w' | inl a => sp H (k a) w' Q end) ->
  sp H (try_obj object p k) w Q.
Proof. intros Hp. apply sp_bind. eapply sp_mono; [exact Hp|]. intros [a|e] w' HQ; [done|by apply sp_Ret]. Qed.

(** A check that computes: on failure the object is returned as it is. *)
Lemma sp_check_pure object e k w (Q : Wf * option err -> W -> Prop) :
  (forall x, e = Some x -> Q (object, Some x) w) -> (e = None -> sp H k w Q) ->
  sp H (check_obj object (Ret e) k) w Q.
Proof. intros He Hk. apply sp_check_obj, sp_Ret. destruct e; auto. Qed.

Lemma sp_try_pure {A} object (r : result A) k w (Q : Wf * option err -> W -> Prop) :
  (forall x, r = inr x -> Q (object, Some x) w) -> (forall a, r = inl a -> sp H (k a) w Q) ->
  sp H (try_obj object (Ret r) k) w Q.
Proof. intros He Hk. apply sp_try_obj, sp_Ret. destruct r; auto. Qed.

Lemma version_ok (object : Wf) uid rv :
  checkWorkflowStorageVersion object uid rv = None -> wf_UID object = uid /\ wf_ResourceVersion object = rv.
Proof. unfold checkWorkflowStorageVersion. case_test; [done|]. by bool_prop. Qed.

Lemma definition_ok (previous object : Wf) :
  unchangedWorkflowDefinition previous object = None -> wf_Spec previous = wf_Spec object.
Proof. unfold unchangedWorkflowDefinition. by case_bool_decide. Qed.

(** *** Custom resources *)

Definition crd_view (gvk : GroupVersionKind) (w : W) (k : string * string) : option Wf :=
  (fun o => with_GVK o gvk) <$> crs w !! k.

(** The step an applied status update makes. *)
Lemma status_swap_from gvk object o o' w1 w2 w3 :
  crs w1 !! (wf_Namespace object, wf_Name object) = Some o -> env w1 w2 ->
  wf_UID object = wf_UID o -> wf_ResourceVersion object = wf_ResourceVersion o -> wf_Spec o = wf_Spec object ->
  (exists wm old, env w2 wm /\ crs wm !! (wf_Namespace object, wf_Name object) = Some old /\
      wf_ResourceVersion old = wf_ResourceVersion object /\ wf_ResourceVersion o' <> wf_ResourceVersion object /\
      wf_UID o' = wf_UID old /\ wf_Spec o' = wf_Spec old /\ wf_Status o' = wf_Status object /\
      crs w3 = <[(wf_Namespace object, wf_Name object) := o']> (crs wm) /\ cms w3 = cms wm) ->
  exists wm, env w2 wm /\ swap (crd_view gvk) object wm w3 (with_GVK o' gvk).
Proof.
  intros Ho He12 Hu Hv Hs (wm & old & He & Hold & Hrv & Hne & Huid & Hsp & Hst & Hcrs & _).
  exists wm. split; [done|].
  assert (o = old) as <-.
  { eapply (env_cr_version _ _ _ _ L); [by apply (env_trans _ _ _ _ L w1 w2 wm)|done|done|congruence]. }
  exists (with_GVK o gvk). unfold crd_view. rewrite Hold, Hcrs, lookup_insert_eq. cbn.
  split_and!; try done; try congruence.
  intros [kns kn] Hk. cbn in Hk. rewrite lookup_insert_ne; [done|]. intros [= _ ?]. congruence.
Qed.

Lemma refused view object w w' x : env w w' -> save_refines view env object w (object, Some x) w'.
Proof. intros He. split; [done|by left]. Qed.

(** Success and failure after the write. *)
Lemma swapped_ok view object w w1 w2 w3 new (o : Wf) :
  env w w1 -> swap view object w1 w2 new -> env w2 w3 ->
  wf_UID o = wf_UID new -> wf_ResourceVersion o = wf_ResourceVersion new ->
  wf_Spec o = wf_Spec object -> wf_Status o = wf_Status object ->
  save_refines view env object w (o, None) w3.
Proof. intros. exists new. split_and!; try done. by exists w1, w2. Qed.

Lemma swapped_lost view object w w1 w2 w3 new x :
  env w w1 -> swap view object w1 w2 new -> env w2 w3 -> save_refines view env object w (object, Some x) w3.
Proof. intros. split; [done|]. right. exists new, w1, w2. done. Qed.

Notation etrans := (env_trans _ _ _ _ L).

#[global] Instance crd_register gvk : RegisterStore H env (crd_view gvk) (crd_store gvk).
Proof.
  intros object w. cbn [st_Save crd_store]. unfold crd_Save.
  apply sp_check_pure; [intros x _; apply refused, (env_refl _ _ _ _ L)|intros _].
  apply sp_try_obj. apply (sp_step H (GetWorkflow (wf_Namespace object) (wf_Name object))), sp_Ret.
  destruct (law_get_cr _ _ _ _ L w (wf_Namespace object) (wf_Name object)) as [He1 Hg].
  destruct (H (GetWorkflow _ _) w) as [[o|e] w1]; cbn [fst snd] in *; [|by apply refused].
  apply sp_check_pure; [intros x _; by apply refused|]. intros [Hu Hv]%version_ok.
  apply sp_check_pure; [intros x _; by apply refused|]. intros Hs%definition_ok. cbn in Hu, Hv, Hs.
  apply sp_check_obj, sp_wfence. intros [x|] w2 He2; [by apply refused, (etrans w w1 w2)|].
  unfold try_obj. apply (sp_step H (UpdateWorkflowStatus object)).
  assert (env w w2) as He by (by apply (etrans w w1 w2)).
  pose proof (law_update_status _ _ _ _ L w2 object) as Hup.
  destruct (H (UpdateWorkflowStatus object) w2) as [[o'|x] w3]; cbv zeta in Hup; cbn [fst snd] in Hup |- *.
  - destruct (status_swap_from gvk object o o' w1 w2 w3) as (wm & Hem & Hsw); try done.
    apply sp_check_obj, sp_wfence. intros [y|] w4 He4.
    + eapply swapped_lost; [|exact Hsw|exact He4]. by apply (etrans w w2 wm).
    + apply sp_Ret. eapply swapped_ok; [|exact Hsw|exact He4|done..]. by apply (etrans w w2 wm).
  - apply sp_Ret. destruct Hup as [He3|(o' & Hup)]; [by apply refused, (etrans w w2 w3)|].
    destruct (status_swap_from gvk object o o' w1 w2 w3) as (wm & Hem & Hsw); try done.
    eapply swapped_lost; [|exact Hsw|apply (env_refl _ _ _ _ L)]. by apply (etrans w w2 wm).
Qed.

(** *** ConfigMaps *)

Section configmap.
Context `{WorkflowCodec Spec Status} (namespace : string) (gvk : GroupVersionKind).

Definition cm_view (w : W) (k : string * string) : option Wf :=
  match cms w !! (namespace, SessionConfigMapName k.2) with
  | Some cm => match decode namespace gvk cm k.1 k.2 with inl o => Some o | inr _ => None end
  | None => None
  end.

Lemma decode_ok cm ns n o :
  decode namespace gvk cm ns n = inl o ->
  cm_Name cm = SessionConfigMapName n /\ cm_Namespace cm = namespace /\
  mget (cm_Labels cm) ManagedByLabel = ManagedByValue /\ mget (cm_Labels cm) SessionKey = n /\
  wf_UID o = cm_UID cm /\ wf_ResourceVersion o = cm_ResourceVersion cm.
Proof.
  unfold decode. case_test; [done|]. bool_prop. destruct (Decode _) as [[x [|]]|e]; [done| |done].
  case_test; [done|]. by intros [= <-].
Qed.

(** What was encoded decodes to the object, with the version of its ConfigMap. *)
Lemma decode_encoded cm object data :
  cm_Name cm = SessionConfigMapName (wf_Name object) -> cm_Namespace cm = namespace ->
  mget (cm_Labels cm) ManagedByLabel = ManagedByValue -> mget (cm_Labels cm) SessionKey = wf_Name object ->
  cm_Data cm = {[SessionDataKey := data]} -> encode gvk object = inl data ->
  decode namespace gvk cm (wf_Namespace object) (wf_Name object) = inl (copy_version_cm (with_GVK object gvk) cm).
Proof.
  intros H1 H2 H3 H4 H5 He. unfold decode. rewrite H1, H2, H3, H4, H5, !String.eqb_refl. cbn [negb orb].
  assert (mget {[SessionDataKey := data]} SessionDataKey = data) as -> by (unfold mget; by rewrite lookup_singleton_eq).
  rewrite (codec_roundtrip _ _ He). cbn [wf_GVK with_GVK wf_Name wf_Namespace].
  rewrite bool_decide_true, !String.eqb_refl by done. cbn. by rewrite andb_false_r.
Qed.

Lemma session_name_inj a b : SessionConfigMapName a = SessionConfigMapName b -> a = b.
Proof. apply (inj (String.append "pvc-migrate-session-")). Qed.

Lemma data_swap_from object existing previous data c' w1 w2 w3 :
  cms w1 !! (namespace, SessionConfigMapName (wf_Name object)) = Some existing -> env w1 w2 ->
  decode namespace gvk existing (wf_Namespace object) (wf_Name object) = inl previous ->
  wf_UID object = cm_UID existing -> wf_ResourceVersion object = cm_ResourceVersion existing ->
  wf_Spec previous = wf_Spec object -> encode gvk object = inl data ->
  (exists wm old, env w2 wm /\ cms wm !! (cm_Namespace existing, cm_Name existing) = Some old /\
     cm_ResourceVersion old = cm_ResourceVersion existing /\ cm_ResourceVersion c' <> cm_ResourceVersion existing /\
     cm_Namespace c' = cm_Namespace existing /\ cm_Name c' = cm_Name existing /\ cm_UID c' = cm_UID old /\
     cm_Labels c' = cm_Labels existing /\ cm_Data c' = {[SessionDataKey := data]} /\
     cms w3 = <[(cm_Namespace existing, cm_Name existing) := c']> (cms wm) /\ crs w3 = crs wm) ->
  exists wm, env w2 wm /\ swap cm_view object wm w3 (copy_version_cm (with_GVK object gvk) c').
Proof.
  intros Hex He12 Hd Hu Hv Hs Henc (wm & old & He & Hold & Hrv & Hne & Hcn & Hcm & Hcu & Hcl & Hcd & Hcms & _).
  destruct (decode_ok _ _ _ _ Hd) as (Hn & Hns & Hl1 & Hl2 & _ & _). rewrite Hns, Hn in *.
  assert (existing = old) as <-.
  { eapply (env_cm_version _ _ _ _ L); [by apply (env_trans _ _ _ _ L w1 w2 wm)|done|done|congruence]. }
  exists wm. split; [done|]. exists previous. unfold cm_view. cbn [fst snd].
  destruct (decode_ok _ _ _ _ Hd) as (_ & _ & _ & _ & Hpu & Hpv).
  rewrite Hold, Hd, Hcms, lookup_insert_eq. split_and!; try congruence; try done.
  - rewrite (decode_encoded c' object data); try congruence.
  - cbn. congruence.
  - cbn. congruence.
  - intros k Hk. rewrite lookup_insert_ne; [done|]. intros Hk'. apply Hk. symmetry.
    apply session_name_inj. by apply (f_equal snd) in Hk'.
Qed.

#[global] Instance configmap_register : RegisterStore H env cm_view (configmap_store namespace gvk).
Proof.
  intros object w. cbn [st_Save configmap_store]. unfold cm_Save.
  apply sp_check_pure; [intros x _; apply refused, (env_refl _ _ _ _ L)|intros _].
  unfold try_obj at 1. apply (sp_step H (GetConfigMap namespace (SessionConfigMapName (wf_Name object)))).
  destruct (law_get_cm _ _ _ _ L w namespace (SessionConfigMapName (wf_Name object))) as [He1 Hg].
  destruct (H (GetConfigMap _ _) w) as [[existing|e] w1]; cbn [fst snd] in *; [|by apply sp_Ret, refused].
  apply sp_try_pure; [intros x _; by apply refused|]. intros previous Hd.
  apply sp_check_pure; [intros x _; by apply refused|]. intros [Hu Hv]%version_ok.
  apply sp_check_pure; [intros x _; by apply refused|intros _].
  apply sp_check_pure; [intros x _; by apply refused|]. intros Hs%definition_ok.
  apply sp_try_pure; [intros x _; by apply refused|]. intros data Henc.
  apply sp_check_obj, sp_wfence. intros [x|] w2 He2; [by apply refused, (etrans w w1 w2)|].
  assert (env w w2) as He by (by apply (etrans w w1 w2)).
  unfold try_obj. apply (sp_step H (UpdateConfigMap (with_data existing data))).
  pose proof (law_update_cm _ _ _ _ L w2 (with_data existing data)) as Hup.
  destruct (H (UpdateConfigMap _) w2) as [[c'|x] w3]; cbv zeta in Hup; cbn [fst snd] in Hup |- *.
  - destruct (data_swap_from object existing previous data c' w1 w2 w3) as (wm & Hem & Hsw); try done.
    apply sp_check_obj, sp_wfence. intros [y|] w4 He4.
    + eapply swapped_lost; [|exact Hsw|exact He4]. by apply (etrans w w2 wm).
    + apply sp_Ret. eapply swapped_ok; [|exact Hsw|exact He4|done..]. by apply (etrans w w2 wm).
  - apply sp_Ret. destruct Hup as [He3|(c' & Hup)]; [by apply refused, (etrans w w2 w3)|].
    destruct (data_swap_from object existing previous data c' w1 w2 w3) as (wm & Hem & Hsw); try done.
    eapply swapped_lost; [|exact Hsw|apply (env_refl _ _ _ _ L)]. by apply (etrans w w2 wm).
Qed.
End configmap.

End rules.

(** ** Deletion converges *)

(** A server with a live lease on which at most [busy w] more updates lose a race
    against other writers of an object that is being deleted; such a writer keeps the
    object's identity and deletion mark. *)
Record contended {W} (H : server W) (crs : W -> gmap (string * string) Wf) (busy : W -> nat) : Prop := {
  live_ctx : forall w, H WCtxErr w = (None, w);
  live_fence : forall w, H WFenceErr w = (None, w);
  get_exact : forall w ns n c, crs w !! (ns, n) = Some c -> H (GetWorkflow ns n) w = (inl c, w);
  update_busy : forall w o c, crs w !! (wf_Namespace o, wf_Name o) = Some c -> 0 < busy w ->
    exists e w' c', H (UpdateWorkflow o) w = (inr e, w') /\ IsConflict e = true /\ S (busy w') = busy w /\
      crs w' !! (wf_Namespace o, wf_Name o) = Some c' /\ wf_UID c' = wf_UID c /\
      wf_Namespace c' = wf_Namespace c /\ wf_Name c' = wf_Name c /\
      (is_Some (wf_DeletionTimestamp c) -> is_Some (wf_DeletionTimestamp c'));
  update_free : forall w o c, crs w !! (wf_Namespace o, wf_Name o) = Some c -> busy w = 0 ->
    wf_ResourceVersion c = wf_ResourceVersion o ->
    exists o' w', H (UpdateWorkflow o) w = (inl o', w') /\
      wf_DeletionTimestamp o' = wf_DeletionTimestamp c /\ wf_Finalizers o' = wf_Finalizers o /\
      (crs w' !! (wf_Namespace o, wf_Name o) = Some o' \/ crs w' !! (wf_Namespace o, wf_Name o) = None)
}.

Definition same_object (a b : Wf) : Prop :=
  wf_Namespace a = wf_Namespace b /\ wf_Name a = wf_Name b /\ wf_UID a = wf_UID b.

(** No finalizer of the program keeps the object. *)
Definition unprotected (c : option Wf) : Prop :=
  forall o f, c = Some o -> f ∈ wf_Finalizers o -> own_finalizer f = false.

Section deletion.
Context {W : Type} (H : server W) (crs : W -> gmap (string * string) Wf) (busy : W -> nat).
Context (L : contended H crs busy) (gvk : GroupVersionKind).

Lemma ret_wfence {A} (k : option err -> prog _ _ A) w Q : returns H (k None) w Q -> returns H (wfence ≫= k) w Q.
Proof.
  intros Hk. apply ret_bind. apply (ret_step H WCtxErr _ _ None w), (ret_step H WFenceErr _ _ None w), ret_Ret;
    [apply (live_ctx _ _ _ L)|apply (live_fence _ _ _ L)|done].
Qed.

Lemma removed_finalizers l f : f ∈ removeSessionFinalizer l -> own_finalizer f = false.
Proof. unfold removeSessionFinalizer. rewrite list_elem_of_In, filter_In. intros [_ Hf]. by apply negb_true_iff. Qed.

Lemma delete_loop_converges attempts object w c :
  crs w !! (wf_Namespace object, wf_Name object) = Some c -> same_object c object ->
  is_Some (wf_DeletionTimestamp c) -> busy w < attempts ->
  returns H (delete_loop gvk attempts object) w (fun o w' =>
    o.2 = None /\ unprotected (crs w' !! (wf_Namespace object, wf_Name object))).
Proof.
  revert w c. induction attempts as [|attempts IH]; intros w c Hc (Hns & Hn & Hu) Hdel Hb; [lia|].
  pose proof (get_exact _ _ _ L w _ _ c Hc) as Hget. cbn [delete_loop].
  apply ret_bind. unfold crd_Load.
  eapply (ret_step H (GetWorkflow (wf_Namespace object) (wf_Name object))); [exact Hget|]. apply ret_Ret.
  cbn [with_GVK wf_UID]. rewrite Hu, String.eqb_refl. cbn [negb].
  destruct (wf_DeletionTimestamp c) as [t|] eqn:Ht; [|by destruct Hdel].
  unfold check_obj at 1. apply ret_bind, ret_Ret. cbn [with_GVK wf_DeletionTimestamp]. rewrite Ht.
  unfold check_obj at 1. apply ret_wfence.
  set (o := with_metadata _ _ _ _).
  assert (crs w !! (wf_Namespace o, wf_Name o) = Some c) as Ho by (cbn; by rewrite Hns, Hn).
  destruct (decide (busy w = 0)) as [Hz|Hz].
  - destruct (update_free _ _ _ L w o c Ho Hz eq_refl) as (o' & w' & Hup & Hd' & Hf' & Hcr).
    eapply (ret_step H (UpdateWorkflow o)); [exact Hup|]. unfold check_obj at 1. apply ret_wfence.
    rewrite Hd', Ht. apply ret_Ret. split; [done|]. cbn in Hcr. rewrite Hns, Hn in Hcr.
    intros x f Hx Hf. destruct Hcr as [Hcr|Hcr]; rewrite Hcr in Hx; [|done]. injection Hx as <-.
    rewrite Hf' in Hf. by apply removed_finalizers in Hf.
  - destruct (update_busy _ _ _ L w o c Ho) as (e & w' & c' & Hup & Hconf & Hbw & Hcr & Hu' & Hns' & Hn' & Hd'); [lia|].
    eapply (ret_step H (UpdateWorkflow o)); [exact Hup|]. cbv beta iota. rewrite Hconf. cbn in Hcr. rewrite Hns, Hn in Hcr.
    eapply IH; [exact Hcr|by split_and!; congruence|apply Hd'; rewrite Ht; by eexists|lia].
Qed.

(** C31: deleting a workflow that is already being deleted converges.  On a server
    with a live lease where fewer than five updates lose a race, [Delete] of the
    custom-resource store returns success, however stale the caller's version is, as
    long as the UID is the caller's; afterwards the object is gone or no finalizer of
    the program, current or legacy, keeps it. *)
Theorem deletion_converges object w h c :
  crs w !! (wf_Namespace object, wf_Name object) = Some c -> same_object c object ->
  is_Some (wf_DeletionTimestamp c) -> requireWorkflowStorageVersion object = None -> busy w < 5 ->
  exists object' w' h', run H (crd_Delete gvk object) w h = (Some (object', None), w', h') /\
    unprotected (crs w' !! (wf_Namespace object, wf_Name object)).
Proof.
  intros Hc Hu Hd Hr Hb.
  assert (returns H (crd_Delete gvk object) w (fun o w' =>
    o.2 = None /\ unprotected (crs w' !! (wf_Namespace object, wf_Name object)))) as Hret.
  { unfold crd_Delete. rewrite Hr. by eapply delete_loop_converges. }
  destruct (Hret h) as ([object' e] & w' & h' & Hrun & He & Hun). cbn in He. subst e. by exists object', w', h'.
Qed.
End deletion.
End register.
