(* ===== verification/OwnerSafety.v ===== *)
(** * Names and their owners: what the lookups establish

    Rules for the programs of WorkflowOwners, what an answer of the finders and of the
    lockers says about the cluster, and the exactness of the collision check. *)

From S2P Require Import Prelude GoErrors Lifecycle KubeTypes Prog Api WorkflowStore WorkflowOwners.

(** ** Rules *)

(** The cluster requests of a trace. *)
Definition kube_event (e : event oresp) (k : trace) : trace :=
  match e with
  | Ev r x => match r return oresp r -> trace with OKube r => fun x => Ev r x :: k | _ => fun _ => k end x
  end.

Fixpoint kproj (h : otrace) : trace :=
  match h with [] => [] | e :: h => kube_event e (kproj h) end.

Lemma kproj_suffix h h' : h `suffix_of` h' -> kproj h `suffix_of` kproj h'.
Proof.
  intros [l ->]. induction l as [|[r x] l IH]; [done|]. cbn. destruct r; try exact IH. by apply suffix_cons_r.
Qed.

(** Requests that change nothing. *)
Definition o_read (r : oreq) : bool :=
  match r with
  | OKube r => negb (is_write r) && negb (is_progress r)
  | OListPVs _ | OListPVCs _ _ | OListPods _ _ | OGetWorkflow _ _ _ | OGetTyped _ _ _ | OLoadRecord _ _
  | OGetConfigMap _ _ => true
  | _ => false
  end.

Definition o_reads (G : otrace -> oreq -> Prop) : Prop := forall h r, o_read r = true -> G h r.

Section rules.
Context (G : otrace -> oreq -> Prop).

Lemma wp_oask q {A} (k : oresp q -> orphan A) Q h :
  G h q -> (forall x, wp G (k x) Q (Ev q x :: h)) -> wp G (call q ≫= k) Q h.
Proof. by split. Qed.

(** A program of the cluster under its own guard. *)
Lemma wp_olift (K : trace -> req -> Prop) {A} (p : kube A) (Q : A -> trace -> Prop) h :
  (forall h' r, h `suffix_of` h' -> K (kproj h') r -> G h' (OKube r)) ->
  wp K p Q (kproj h) -> wp G (olift p) (fun a h' => Q a (kproj h')) h.
Proof.
  revert h. induction p as [a| |r k IH]; intros h HK; [done|done|]. intros [Hr Hk]. split; [by apply HK|].
  intros x. apply IH; [|apply Hk]. intros h' q Hs. apply HK. by eapply suffix_cons_l.
Qed.

Lemma wp_olift_then (K : trace -> req -> Prop) {A B} (p : kube A) (P : A -> trace -> Prop) (k : A -> orphan B) Q h :
  (forall h' r, h `suffix_of` h' -> K (kproj h') r -> G h' (OKube r)) ->
  wp K p P (kproj h) -> (forall a h', h `suffix_of` h' -> P a (kproj h') -> wp G (k a) Q h') ->
  wp G (olift p ≫= k) Q h.
Proof. intros HK Hp Hk. apply wp_bind_2. eapply wp_mono; [by eapply wp_olift|]. intros a h' Hs. by apply Hk. Qed.
End rules.

(** ** Owners *)

Section owners.
Context (id : string) (namespaces : list string).

(** A lookup of a custom resource was answered that there is none. *)
Definition no_workflow (resource namespace : string) (h : otrace) : Prop :=
  exists e, IsNotFound e = true /\ Ev (OGetWorkflow resource namespace id) (inr e) ∈ h.

Definition crd_absent (resources : list crdResource) (h : otrace) : Prop :=
  forall r w n, r ∈ resources -> ControllerResourceForKind (crd_kind r) = Some w -> n ∈ lookup_names r namespaces ->
    no_workflow (cr_Resource w) n h.

Definition no_record (namespace : string) (h : otrace) : Prop :=
  exists e, IsNotFound e = true /\ Ev (OLoadRecord namespace id) (inr e) ∈ h.

Definition records_absent (h : otrace) : Prop := forall n, n ∈ namespaces -> n <> "" -> no_record n h.

(** The record that an owner summarizes. *)
Definition record_seen (owner : WorkflowOwner) (h : otrace) : Prop :=
  exists n object, n ∈ namespaces /\ n <> "" /\ Ev (OLoadRecord n id) (inl object) ∈ h /\
    owner = workflowOwner object id n SessionBackendConfigMap.

Lemma no_workflow_mono r n h h' : h `suffix_of` h' -> no_workflow r n h -> no_workflow r n h'.
Proof. intros Hs (e & He & Hin). exists e. split; [done|]. by eapply suffix_elem. Qed.

Context (G : otrace -> oreq -> Prop) (HG : o_reads G).

Lemma wp_find_in resource names h :
  wp G (find_in resource id names)
    (fun r h' => (r = inl None -> forall n, n ∈ names -> no_workflow resource n h') /\
                 (forall o, r = inl (Some o) -> owner_Backend o = SessionBackendCRD)) h.
Proof.
  revert h. induction names as [|n names IH]; intros h; cbn [find_in].
  { split; [|done]. intros _ n Hn. by apply not_elem_of_nil in Hn. }
  apply wp_oask; [by apply HG|]. intros [object|e].
  { split; [done|]. by intros o [= <-]. }
  destruct (IsNotFound e) eqn:He; [|done]. eapply wp_mono; [apply IH|]. intros r h' Hs [H1 H2]. split; [|done].
  intros Hr m [->|Hm]%elem_of_cons; [|by apply H1]. exists e. split; [done|]. eapply suffix_elem; [exact Hs|left].
Qed.

Lemma wp_find_kinds resources h :
  wp G (find_kinds resources id namespaces)
    (fun r h' => (r = inl None -> crd_absent resources h') /\
                 (forall o, r = inl (Some o) -> owner_Backend o = SessionBackendCRD)) h.
Proof.
  revert h. induction resources as [|c l IH]; intros h; cbn [find_kinds].
  { split; [|done]. intros _ r w n Hr. by apply not_elem_of_nil in Hr. }
  destruct (ControllerResourceForKind (crd_kind c)) as [w|] eqn:Hw.
  - apply wp_try. eapply wp_mono; [apply wp_find_in|]. intros [[o|]|e] h1 Hs1 [H1 H2]; [| |done].
    { split; [done|]. intros o' [= <-]. by apply H2. }
    eapply wp_mono; [apply IH|]. intros r h2 Hs2 [H3 H4]. split; [|done].
    intros Hr r' w' n [->|Hin]%elem_of_cons Hw' Hn; [|by eapply H3]. rewrite Hw in Hw'. injection Hw' as <-.
    eapply no_workflow_mono; [exact Hs2|]. by apply H1.
  - eapply wp_mono; [apply IH|]. intros r h2 Hs2 [H3 H4]. split; [|done].
    intros Hr r' w' n [->|Hin]%elem_of_cons Hw' Hn; [|by eapply H3]. by rewrite Hw in Hw'.
Qed.

Lemma wp_ConfigMapFind names h :
  names ⊆ namespaces ->
  wp G (ConfigMapFind id names)
    (fun r h' => (r = inl None -> forall n, n ∈ names -> n <> "" -> no_record n h') /\
                 (forall o, r = inl (Some o) -> record_seen o h')) h.
Proof.
  revert h. induction names as [|n names IH]; intros h Hsub; cbn [ConfigMapFind].
  { split; [|done]. intros _ n Hn. by apply not_elem_of_nil in Hn. }
  assert (names ⊆ namespaces) as Hsub' by set_solver.
  destruct (n =s "") eqn:Hn.
  { bool_prop. eapply wp_mono; [by apply IH|]. intros r h' _ [H1 H2]. split; [|done].
    intros Hr m [->|Hm]%elem_of_cons Hne; [done|by apply H1]. }
  bool_prop. apply wp_oask; [by apply HG|]. intros [object|e].
  { split; [done|]. intros o [= <-]. exists n, object. split_and!; [set_solver|done|left|done]. }
  destruct (IsNotFound e) eqn:He; [|done]. eapply wp_mono; [by apply IH|]. intros r h' Hs [H1 H2]. split; [|done].
  intros Hr m [->|Hm]%elem_of_cons Hne; [|by apply H1]. exists e. split; [done|]. eapply suffix_elem; [exact Hs|left].
Qed.

(** What the composition of both finders establishes. *)
Definition owner_answer_ok (r : result (option WorkflowOwner)) (h : otrace) : Prop :=
  match r with
  | inl None => crd_absent workflowCRDResourceRegistry h /\ records_absent h
  | inl (Some o) => owner_Backend o = SessionBackendCRD \/ record_seen o h
  | inr _ => True
  end.

Lemma wp_CompositeFind h : wp G (CompositeFind id namespaces) owner_answer_ok h.
Proof.
  cbn [CompositeFind find_first]. unfold CRDFind. apply wp_bind_2. eapply wp_mono; [apply wp_find_kinds|].
  intros [[o|]|e] h1 Hs1 [H1 H2].
  - left. by apply H2.
  - apply wp_bind_2. eapply wp_mono; [by apply (wp_ConfigMapFind namespaces)|].
    intros [[o|]|e] h2 Hs2 [H3 H4]; [right; by apply H4| |done].
    split; [|intros n; by apply H3]. intros r w n Hr Hw Hn. eapply no_workflow_mono; [done|]. by eapply H1.
  - apply wp_bind_2. eapply wp_mono; [by apply (wp_ConfigMapFind namespaces)|].
    intros [[o|]|e'] h2 Hs2 [H3 H4]; [right; by apply H4|done|done].
Qed.
End owners.

(** ** Lockers *)

Definition configmap_absent (namespace id : string) (h : otrace) : Prop :=
  exists e, IsNotFound e = true /\ Ev (OGetConfigMap namespace (SessionConfigMapName id)) (Some e) ∈ h.

Lemma wp_configmap_free G id namespace h :
  o_reads G ->
  wp G (checkConfigMapNameCollision id [namespace] true)
    (fun e h' => e = None -> configmap_absent namespace id h') h.
Proof.
  intros HG. cbn [checkConfigMapNameCollision]. apply wp_oask; [by apply HG|]. intros [e|]; [|done].
  unfold absent_or_hidden. cbn [negb]. rewrite andb_false_r, orb_false_r.
  destruct (IsNotFound e) eqn:He; [|done]. intros _. exists e. split; [done|left].
Qed.

(** ** Collisions *)

Section collisions.
Context (kinds : list string) (id currentKind : string) (namespaces : list string) (failOnForbidden : bool).

Definition asked (q : oreq) (h : otrace) : Prop := exists x, Ev q x ∈ h.

(** The answer says that the name is free there. *)
Definition answered_free (e : event oresp) : Prop :=
  match e with
  | Ev q x =>
      match q return oresp q -> Prop with
      | OGetConfigMap _ _ | OGetTyped _ _ _ => fun x =>
          match x with Some e => absent_or_hidden failOnForbidden e = true | None => False end
      | _ => fun _ => True
      end x
  end.

(** The places of the objects of a kind whose name would collide. *)
Definition collides_at (r : crdResource) (n : string) : Prop :=
  r ∈ workflowCRDResourceRegistry /\ (kinds = [] \/ crd_kind r ∈ kinds) /\ crd_kind r <> currentKind /\
  (if crd_cluster r then n = "" else n ∈ namespaces).

(** The record in every namespace and the objects of every other kind were looked up,
    and every answer says that the name is free. *)
Definition name_free (h : otrace) : Prop :=
  Forall answered_free h /\
  (forall n, n ∈ namespaces -> asked (OGetConfigMap n (SessionConfigMapName id)) h) /\
  (forall r n, collides_at r n -> asked (OGetTyped (crd_kind r) n id) h).

Lemma lookups_collide r n : (r, n) ∈ lookups_of kinds namespaces currentKind <-> collides_at r n.
Proof.
  unfold lookups_of, collides_at. cbv zeta. rewrite list_elem_of_In, in_flat_map.
  assert (forall x, In x (if bool_decide (kinds = []) then workflowCRDResourceRegistry
            else List.filter (fun r => contains kinds (crd_kind r)) workflowCRDResourceRegistry) <->
          x ∈ workflowCRDResourceRegistry /\ (kinds = [] \/ crd_kind x ∈ kinds)) as Hk.
  { intros x. case_bool_decide; [rewrite list_elem_of_In; tauto|]. rewrite filter_In, list_elem_of_In.
    unfold contains. rewrite bool_decide_eq_true. tauto. }
  split.
  - intros (x & Hx & Hin). apply Hk in Hx as [Hx Hkind]. destruct (crd_kind x =s currentKind) eqn:Hc; [done|].
    bool_prop. apply list_elem_of_In in Hin. destruct (crd_cluster x) eqn:Hcl.
    + apply list_elem_of_singleton in Hin. injection Hin as -> ->. by rewrite Hcl.
    + apply list_elem_of_fmap in Hin as (m & [= -> ->] & Hm). by rewrite Hcl.
  - intros (Hr & Hkind & Hc & Hn). exists r. split; [by apply Hk|]. apply String.eqb_neq in Hc. rewrite Hc.
    apply list_elem_of_In. destruct (crd_cluster r); [subst; by left|]. apply list_elem_of_fmap. by exists n.
Qed.

(** The lookups do read their key. *)
Lemma lookup_key r n : collides_at r n -> resourceKey r n id = (n, id).
Proof. intros (_ & _ & _ & Hn). unfold resourceKey. destruct (crd_cluster r); [by subst|done]. Qed.

Definition lookup_only (h : otrace) (q : oreq) : Prop := o_read q = true.

Lemma free_cons q x (h : otrace) : Forall answered_free (Ev q x :: h) <-> answered_free (Ev q x) /\ Forall answered_free h.
Proof. apply Forall_cons. Qed.

Lemma asked_mono q h h' : h `suffix_of` h' -> asked q h -> asked q h'.
Proof. intros Hs [x Hx]. exists x. by eapply suffix_elem. Qed.

Lemma free_suffix h h' : h `suffix_of` h' -> Forall answered_free h' -> Forall answered_free h.
Proof. intros [k ->] Hf. by apply Forall_app in Hf as [_ ?]. Qed.

Lemma wp_configmaps names h :
  Forall answered_free h ->
  wp lookup_only (checkConfigMapNameCollision id names failOnForbidden)
    (fun e h' => match e with
                 | None => Forall answered_free h' /\ forall n, n ∈ names -> asked (OGetConfigMap n (SessionConfigMapName id)) h'
                 | Some _ => ~ Forall answered_free h'
                 end) h.
Proof.
  revert h. induction names as [|n names IH]; intros h Hh; cbn [checkConfigMapNameCollision].
  { split; [done|]. intros n Hn. by apply not_elem_of_nil in Hn. }
  apply wp_oask; [done|]. intros [e|].
  2:{ by intros [Hf _]%free_cons. }
  destruct (absent_or_hidden failOnForbidden e) eqn:He.
  - eapply wp_mono; [by apply IH, free_cons|]. intros [x|] h' Hs; [done|]. intros [Hf Hn]. split; [done|].
    intros m [->|Hm]%elem_of_cons; [|by apply Hn]. exists (Some e). eapply suffix_elem; [exact Hs|left].
  - intros [Hf _]%free_cons. cbn in Hf. congruence.
Qed.

Lemma wp_read_lookups lookups h :
  (forall r n, (r, n) ∈ lookups -> resourceKey r n id = (n, id)) ->
  wp lookup_only (read_lookups id lookups)
    (fun answers h' => (forall r n, (r, n) ∈ lookups -> asked (OGetTyped (crd_kind r) n id) h') /\
       ((first_collision id failOnForbidden lookups answers = None /\ Forall answered_free h) <->
        Forall answered_free h')) h.
Proof.
  revert h. induction lookups as [|[r n] lookups IH]; intros h Hkey; cbn [read_lookups].
  { split; [|by cbn; tauto]. intros r n Hn. by apply not_elem_of_nil in Hn. }
  rewrite (Hkey r n) by left. cbn [fst snd]. apply wp_oask; [done|]. intros a. apply wp_bind_2.
  eapply wp_mono; [apply IH; intros ???; apply Hkey; by right|]. intros answers h' Hs [Has Hf]. apply wp_Ret. split.
  - intros r' n' [[= -> ->]|Hin]%elem_of_cons; [|by apply Has]. exists a. eapply suffix_elem; [exact Hs|left].
  - rewrite <- Hf, free_cons. cbn [first_collision answered_free]. destruct a as [e|]; [|intuition done].
    destruct (absent_or_hidden failOnForbidden e); intuition done.
Qed.

(** C36: a workflow name is accepted exactly when no other workflow can have it.  For a
    named workflow with explicit namespaces, the check reports no error if and only if
    the session record in every namespace and the objects of every other kind, in every
    namespace or in the cluster, were looked up and every answer was that there is none
    (or, when the caller tolerates it, that it may not be read). *)
Theorem name_check_exact {W} (server : handler (R := oresp) W) w e :
  id <> "" -> currentKind <> "" -> namespaces <> [] -> "" ∉ namespaces ->
  let out := run server (CheckWorkflowIdentityCollision kinds id currentKind namespaces failOnForbidden) w [] in
  calls_ok lookup_only [] out.2 /\ (out.1.1 = Some e -> e = None <-> name_free out.2).
Proof.
  intros Hid Hk Hn Hne. cbv zeta.
  assert (wp lookup_only (CheckWorkflowIdentityCollision kinds id currentKind namespaces failOnForbidden)
            (fun e h' => e = None <-> name_free h') []) as Hwp.
  2:{ destruct (wp_adequate _ server _ _ w [] Hwp) as [Hc Hq]. split; [done|]. apply Hq. }
  unfold CheckWorkflowIdentityCollision, contains.
  apply String.eqb_neq in Hid as ->. apply String.eqb_neq in Hk as ->. rewrite bool_decide_false by done.
  rewrite bool_decide_false by done. cbn [orb]. apply wp_check.
  eapply wp_mono; [by apply wp_configmaps|]. intros [x|] h1 _; [by intros Hf; split; [|intros [? _]]|].
  intros [Hf Hm]. apply wp_bind_2. eapply wp_mono.
  { apply wp_read_lookups. intros r n Hr. by apply lookup_key, lookups_collide. }
  intros answers h2 Hs [Has Hex]. apply wp_Ret. split; [|intros [Hf2 _]; by apply Hex in Hf2 as [? _]].
  intros Hnone. assert (Forall answered_free h2) as Hf2 by (by apply Hex). split_and!; [done| |].
  - intros n Hin. eapply asked_mono; [exact Hs|]. by apply Hm.
  - intros r n Hr. by apply Has, lookups_collide.
Qed.
End collisions.

(** ** The locker of custom resources *)

(** The Lease was acquired. *)
Definition lease_taken (namespace id : string) (h : otrace) : Prop := Ev (OAcquireLease namespace id) None ∈ h.

(** What a program may ask while it takes the lock. *)
Definition locking (namespace id : string) (h : otrace) (q : oreq) : Prop :=
  match q with
  | OAcquireLease ns i => ns = namespace /\ i = id /\ configmap_absent namespace id h
  | OReleaseLease => lease_taken namespace id h
  | q => o_read q = true
  end.

Lemma locking_reads namespace id : o_reads (locking namespace id).
Proof. intros h q Hq. by destruct q. Qed.

Definition lease_answer (e : event oresp) : option (option err) :=
  match e with Ev q x => match q return oresp q -> option (option err) with OAcquireLease _ _ => fun x => Some x | _ => fun _ => None end x end.

(** The Lease is not among the requests so far. *)
Ltac no_lease H :=
  unfold lease_taken in H;
  repeat (apply elem_of_cons in H as [H|H]; [apply (f_equal lease_answer) in H; discriminate H|]);
  by apply not_elem_of_nil in H.

(** C35: a lock on a custom resource excludes a session record of the same name.  The
    Lease is asked for only after the record was found absent; success means that it was
    acquired and the record found absent again afterwards, and a Lease acquired in vain
    is released. *)
Theorem crd_lock_excludes_record {W} (server : handler (R := oresp) W) w namespace id e :
  let out := run server (CRDWorkflowLocker_Acquire namespace id) w [] in
  calls_ok (locking namespace id) [] out.2 /\
  (out.1.1 = Some e ->
     (e = None -> exists h1 h0, out.2 = h1 ++ Ev (OAcquireLease namespace id) None :: h0 /\ configmap_absent namespace id h1) /\
     (is_Some e -> lease_taken namespace id out.2 -> exists x h0, out.2 = Ev OReleaseLease x :: h0)).
Proof.
  cbv zeta.
  assert (wp (locking namespace id) (CRDWorkflowLocker_Acquire namespace id) (fun e h' =>
     (e = None -> exists h1 h0, h' = h1 ++ Ev (OAcquireLease namespace id) None :: h0 /\ configmap_absent namespace id h1) /\
     (is_Some e -> lease_taken namespace id h' -> exists x h0, h' = Ev OReleaseLease x :: h0)) []) as Hwp.
  2:{ destruct (wp_adequate _ server _ _ w [] Hwp) as [Hc Hq]. split; [done|]. apply Hq. }
  unfold CRDWorkflowLocker_Acquire. cbn [checkConfigMapNameCollision].
  assert (forall x, absent_or_hidden true x = IsNotFound x) as Habs.
  { intros x. unfold absent_or_hidden. cbn [negb]. by rewrite andb_false_r, orb_false_r. }
  assert (forall x h, IsNotFound x = true -> configmap_absent namespace id
            (Ev (OGetConfigMap namespace (SessionConfigMapName id)) (Some x) :: h)) as Hgone.
  { intros x h Hx. exists x. split; [done|left]. }
  apply wp_check, wp_oask; [done|]. intros [e1|]; [|by split; [|intros _ Hin; no_lease Hin]]. rewrite Habs.
  destruct (IsNotFound e1) eqn:He1; [|by split; [|intros _ Hin; no_lease Hin]].
  apply wp_check, wp_oask; [by split_and!; [| |apply Hgone]|]. intros [e2|]; [by split; [|intros _ Hin; no_lease Hin]|].
  apply wp_bind_2, wp_oask; [done|]. intros [e3|].
  - rewrite Habs. destruct (IsNotFound e3) eqn:He3.
    + apply wp_Ret. split; [|by intros [? ?]]. intros _. eexists [_], _. split; [done|by apply Hgone].
    + apply wp_oask; [right; left|]. intros r. apply wp_Ret. split; [by destruct r|]. intros _ _. by eexists _, _.
  - apply wp_oask; [right; left|]. intros r. apply wp_Ret. split; [by destruct r|]. intros _ _. by eexists _, _.
Qed.
