(* ===== verification/MigrationCleanup.v ===== *)
(** * What a finished migration may reclaim

    internal/app/reservation_recovery.go, reserved_destination_cleanup.go and
    migration_reclaim_volume.go, and the cleanup options: for a terminal phase, which
    copy of the data is in use and kept, and which volumes the cleanup hands to
    [reclaimStorageVolume].  [terminal] stands for the context values that mark a
    deletion or finalize pass. *)

From S2P Require Import Prelude GoErrors Lifecycle KubeTypes Prog Api ResourceState Ownership PVBinding NodeSelection Reserver Offline Activation SwitcherRules Reclaim MigrationObject.

(** ** Options *)

Record MigrationCleanupOptions := {
  UnusedStoragePolicy : string;
  Finalize : bool;
  DeleteSession : bool
}.

Definition validateMigrationCleanupOptions (phase : Phase) (planned : bool) (options : MigrationCleanupOptions)
    : option err :=
  match ValidateUnusedStoragePolicy (UnusedStoragePolicy options) with
  | Some e => Some e
  | None =>
      if (DeleteSession options && negb (Finalize options))%bool then
        Some (NewError ErrorPrecondition "migration cleanup" "deleting the session requires finalization")
      else if (planned && negb (phase_eqb phase PhaseCompleted) && negb (phase_eqb phase PhaseRolledBack)
               && negb (phase_eqb phase PhaseAborted))%bool then
        Some (NewError ErrorPrecondition "migration cleanup"
          "migration is still active; abort or rollback before cleanup")
      else None
  end.

(** ** Recovery of a reservation (reservation_recovery.go) *)

Definition recovery_conflict (message : string) : err := NewError ErrorConflict "reservation recovery" message.

Definition validateReservationRecoveryRequest (id : string) (source destination : ObjectReference)
    (checkpoint : ReservationStatus) : option err :=
  if ((Name destination =s "") || (Namespace destination =s "") || (UID source =s "") || (id =s ""))%bool then
    Some (NewError ErrorValidation "reservation recovery"
      "workflow, source identity and destination PVC are required")
  else if ((Namespace source =s Namespace destination) && (Name source =s Name destination))%bool then
    Some (recovery_conflict "destination PVC aliases the source")
  else
    match rs_DestinationPVC checkpoint with
    | Some ref =>
        if ((Name ref <>s Name destination) || (Namespace ref <>s Namespace destination))%bool then
          Some (recovery_conflict "checkpoint destination differs from the planned PVC")
        else None
    | None => None
    end.

Definition reservationPVCRecoveryIdentityMatches (destination : ObjectReference)
    (checkpoint : option ObjectReference) (pvc : PVC) : bool :=
  (((UID destination =s "") || (UID destination =s pvc_UID pvc))
   && match checkpoint with
      | None => true
      | Some ref => (UID ref =s "") || (UID ref =s pvc_UID pvc)
      end)%bool.

(** Empty or the given value. *)
Definition blank_or (value expected : string) : bool := ((value =s "") || (value =s expected))%bool.

Definition reservationPVCRecoveryOwned (pvc : PVC) (id sourceUID : string) (known : bool) : bool :=
  let labels := pvc_Labels pvc in
  let annotations := pvc_Annotations pvc in
  if known then
    (blank_or (mget labels SessionKey) id && blank_or (mget annotations SessionKey) id
     && blank_or (mget labels ResourceRoleLabel) ResourceRoleDestination
     && blank_or (mget annotations SourcePVCUIDAnnotation) sourceUID)%bool
  else
    ((mget labels ManagedByLabel =s ManagedByValue) && (mget labels SessionKey =s id)
     && (mget labels ResourceRoleLabel =s ResourceRoleDestination) && (mget annotations SessionKey =s id)
     && (mget annotations SourcePVCUIDAnnotation =s sourceUID))%bool.

Definition reservationPVCRecoveryAllowed (terminal : bool) (pvc : PVC) (id sourceUID : string) (known : bool)
    : bool :=
  if reservationPVCRecoveryOwned pvc id sourceUID known then true else
  let unowned :=
    ((mget (pvc_Labels pvc) ManagedByLabel =s "") && (mget (pvc_Labels pvc) SessionKey =s "")
     && (mget (pvc_Labels pvc) ResourceRoleLabel =s "") && (mget (pvc_Annotations pvc) SessionKey =s ""))%bool in
  (terminal && unowned)%bool.

Definition reservationPVRecoveryOwned (pv : PV) (id : string) (expected : option ObjectReference)
    (recordedPolicy : string) : bool :=
  if ((mget (pv_Labels pv) ManagedByLabel =s ManagedByValue) && (mget (pv_Labels pv) SessionKey =s id)
      && (mget (pv_Labels pv) ResourceRoleLabel =s ResourceRoleDestination))%bool then true else
  match expected with
  | None => false
  | Some ref =>
      ((UID ref =s pv_UID pv) && (mget (pv_Labels pv) SessionKey =s "")
       && (mget (pv_Labels pv) ResourceRoleLabel =s "") && (mget (pv_Annotations pv) SessionKey =s "")
       && (mget (pv_Annotations pv) OriginalPolicyAnnotation =s "") && validReclaimPolicy recordedPolicy
       && (live_policy pv =s recordedPolicy))%bool
  end.

(** The volume's reference and policy; [None] when the volume is gone. *)
Definition recoverReservationPV (id : string) (claim : ObjectReference) (pvName : string)
    (expected : option ObjectReference) (recordedPolicy : string) (allowUnownedPV : bool)
    : kube (result (option (ObjectReference * string))) :=
  if match expected with Some ref => Name ref <>s pvName | None => false end then
    fail (recovery_conflict "destination PVC now binds a different PV") else
  g ← call (GetPV pvName);
  match g with
  | inr e => if IsNotFound e then Ret (inl None) else fail e
  | inl pv =>
      if match expected with Some ref => (UID ref <>s "") && (UID ref <>s pv_UID pv) | None => false end%bool then
        fail (recovery_conflict "destination PV was replaced") else
      if negb match pv_ClaimRef pv with
              | Some ref => (Namespace ref =s Namespace claim) && (Name ref =s Name claim) && (UID ref =s UID claim)
              | None => false
              end%bool then
        fail (recovery_conflict (sprint ["destination PV "; pv_Name pv; " ClaimRef does not match its PVC"])) else
      if (negb (reservationPVRecoveryOwned pv id expected recordedPolicy)
          && (negb allowUnownedPV || negb (uncheckpointedDestinationPVMatches pv claim)))%bool then
        fail (recovery_conflict "destination PV ownership changed") else
      let recorded := mget (pv_Annotations pv) OriginalPolicyAnnotation in
      let policy := if recorded =s "" then live_policy pv else recorded in
      if (negb (validReclaimPolicy policy) || ((recordedPolicy <>s "") && (recordedPolicy <>s policy))
          || (negb (bool_decide (pv_ReclaimPolicy pv = ReclaimRetain)) && (live_policy pv <>s policy)))%bool then
        fail (recovery_conflict "destination PV original reclaim policy changed") else
      Ret (inl (Some (PVReference (Some pv), policy)))
  end.

Definition with_destination (st : ReservationStatus) (pvc pv : option ObjectReference) (policy : string)
    : ReservationStatus :=
  {| rs_SourcePVCName := rs_SourcePVCName st; rs_DestinationPVC := pvc; rs_DestinationPV := pv;
     rs_DestinationPolicy := policy; rs_Reserved := rs_Reserved st |}.

Definition recoverReservationVolume (terminal : bool) (id : string) (source destination : ObjectReference)
    (checkpoint : ReservationStatus) (allowUnownedPV : bool) : kube (result ReservationStatus) :=
  check: Ret (validateReservationRecoveryRequest id source destination checkpoint);
  g ← call (GetPVC (Namespace destination) (Name destination));
  match g with
  | inr e => if IsNotFound e then Ret (inl checkpoint) else fail e
  | inl pvc =>
      if negb (reservationPVCRecoveryIdentityMatches destination (rs_DestinationPVC checkpoint) pvc) then
        fail (recovery_conflict "destination PVC was replaced") else
      let known := ((UID destination <>s "")
                    || (default "" (UID <$> rs_DestinationPVC checkpoint) <>s ""))%bool in
      if negb (reservationPVCRecoveryAllowed terminal pvc id (UID source) known) then
        fail (recovery_conflict "destination PVC ownership changed") else
      let ref := PVCReference (Some pvc) in
      let found := with_destination checkpoint (Some ref) (rs_DestinationPV checkpoint)
                     (rs_DestinationPolicy checkpoint) in
      if pvc_VolumeName pvc =s "" then Ret (inl found) else
      try: recovered ← recoverReservationPV id ref (pvc_VolumeName pvc) (rs_DestinationPV checkpoint)
                         (rs_DestinationPolicy checkpoint) (allowUnownedPV && negb (rs_Reserved checkpoint))%bool;
      Ret (inl match recovered with
               | Some (pv, policy) => with_destination checkpoint (Some ref) (Some pv) policy
               | None => found
               end)
  end.

(** ** The destination of a workflow that never cut over
    (reserved_destination_cleanup.go) *)

Definition prepareReservedDestination (terminal : bool) (id : string) (source destination : ObjectReference)
    (sourcePVUID : string) (checkpoint : ReservationStatus) (deleteDestination : bool)
    : kube (result (ReservationStatus * reclaimVolume)) :=
  try: recovered ← recoverReservationVolume terminal id source destination checkpoint true;
  if match rs_DestinationPV recovered with Some pv => UID pv =s sourcePVUID | None => false end then
    fail (NewError ErrorConflict "destination cleanup" "destination PV aliases source storage") else
  Ret (inl (recovered,
    {| rv_uncheckpointed := if rs_Reserved recovered then None else rs_DestinationPVC recovered;
       rv_skipMissingPV := false; rv_role := ResourceRoleDestination;
       rv_pvc := default empty_reference (rs_DestinationPVC recovered);
       rv_pv := default empty_reference (rs_DestinationPV recovered);
       rv_policy := rs_DestinationPolicy recovered; rv_metadata := empty_metadata;
       rv_delete := deleteDestination |})).

(** ** Which volumes to reclaim (migration_reclaim_volume.go) *)

(** The destination as the checkpoint records it. *)
Definition checkpointed_destination (checkpoint : ReservationStatus) : reclaimVolume :=
  {| rv_uncheckpointed := None; rv_skipMissingPV := false; rv_role := ResourceRoleDestination;
     rv_pvc := default empty_reference (rs_DestinationPVC checkpoint);
     rv_pv := default empty_reference (rs_DestinationPV checkpoint);
     rv_policy := rs_DestinationPolicy checkpoint; rv_metadata := empty_metadata; rv_delete := false |}.

(** The destination after a completed cutover: the copy in use. *)
Definition active_destination (d : reclaimVolume) (activePVC : option ObjectReference) (metadata : PVCMetadata)
    : reclaimVolume :=
  {| rv_uncheckpointed := rv_uncheckpointed d; rv_skipMissingPV := rv_skipMissingPV d;
     rv_role := ResourceRoleActive; rv_pvc := default (rv_pvc d) activePVC; rv_pv := rv_pv d;
     rv_policy := rv_policy d; rv_metadata := metadata; rv_delete := false |}.

(** The destination after a rollback: the copy that lost. *)
Definition lost_destination (d : reclaimVolume) (deleteUnused : bool) : reclaimVolume :=
  {| rv_uncheckpointed := rv_uncheckpointed d; rv_skipMissingPV := rv_skipMissingPV d;
     rv_role := ResourceRoleRollback; rv_pvc := rv_pvc d; rv_pv := rv_pv d; rv_policy := rv_policy d;
     rv_metadata := rv_metadata d; rv_delete := deleteUnused |}.

Definition kept (d : reclaimVolume) : reclaimVolume :=
  {| rv_uncheckpointed := rv_uncheckpointed d; rv_skipMissingPV := rv_skipMissingPV d; rv_role := rv_role d;
     rv_pvc := rv_pvc d; rv_pv := rv_pv d; rv_policy := rv_policy d; rv_metadata := rv_metadata d;
     rv_delete := false |}.

Definition reclaim_source (phase : Phase) (source pv : ObjectReference) (policy : string)
    (metadata : PVCMetadata) (activePVC : option ObjectReference) (deleteUnused : bool) : reclaimVolume :=
  let completed := phase_eqb phase PhaseCompleted in
  {| rv_uncheckpointed := None; rv_skipMissingPV := phase_eqb phase PhaseAborted;
     rv_role := if completed then ResourceRoleRollback else "";
     rv_pvc := if completed then empty_reference else default source activePVC;
     rv_pv := pv;
     rv_policy := if (completed && negb deleteUnused)%bool then policy_string ReclaimRetain else policy;
     rv_metadata := metadata;
     rv_delete := (completed && deleteUnused)%bool |}.

Definition has_volume (d : reclaimVolume) : bool := ((Name (rv_pvc d) <>s "") || (Name (rv_pv d) <>s ""))%bool.

Definition prepareMigrationReclaimVolume (terminal : bool) (owner : string) (phase : Phase)
    (sourceNamespace temporaryNamespace : string) (planned : VolumeSpec) (checkpoint : ReservationStatus)
    (activePVC : option ObjectReference) (deleteUnused : bool)
    : kube (result (ReservationStatus * list reclaimVolume)) :=
  let source := qualifiedResourceReference (vs_SourcePVC planned) sourceNamespace in
  let sourcePV := qualifiedResourceReference (vs_SourcePV planned) "" in
  let aborted := phase_eqb phase PhaseAborted in
  try: deleteUnused ←
    (if (aborted && bool_decide (activePVC = None))%bool then
       probe ← call (GetPVC (Namespace source) (Name source));
       Ret match probe with
           | inl _ => inl deleteUnused
           | inr e => if IsNotFound e then inl false else inr e
           end
     else Ret (inl deleteUnused));
  try: prepared ←
    (if aborted then
       prepareReservedDestination terminal owner source
         (qualifiedResourceReference (vs_DestinationPVC planned) temporaryNamespace)
         (local_UID (vs_SourcePV planned)) checkpoint deleteUnused
     else Ret (inl (checkpoint, checkpointed_destination checkpoint)));
  let '(recovered, destination) := prepared in
  policy ← resolvedSourcePolicy sourcePV (vs_SourceReclaimPolicy planned);
  let src := reclaim_source phase source sourcePV policy (vs_SourcePVCMetadata planned) activePVC deleteUnused in
  let destination :=
    if phase_eqb phase PhaseCompleted then active_destination destination activePVC (vs_SourcePVCMetadata planned)
    else if phase_eqb phase PhaseRolledBack then lost_destination destination deleteUnused
    else destination in
  let unreserved := (aborted && negb (rs_Reserved checkpoint) && bool_decide (activePVC = None))%bool in
  let destination := if unreserved then kept destination else destination in
  check: (if unreserved
          then validateSourceOwnershipRelease owner source sourcePV (vs_SourceReclaimPolicy planned)
          else Ret None);
  Ret (inl (recovered,
    (if unreserved then [] else [src]) ++ (if has_volume destination then [destination] else []))).

(** ** The copy in use is kept *)

Definition reads_only (h : trace) (q : req) : Prop := is_write q = false.

Lemma reads_only_ok : reads_ok reads_only.
Proof. by intros h q Hw _. Qed.

Section prepare.
Context (terminal : bool) (owner : string) (phase : Phase) (sourceNamespace temporaryNamespace : string).
Context (planned : VolumeSpec) (checkpoint : ReservationStatus) (activePVC : option ObjectReference).
Context (deleteUnused : bool).

Notation source := (qualifiedResourceReference (vs_SourcePVC planned) sourceNamespace).
Notation sourcePV := (qualifiedResourceReference (vs_SourcePV planned) "").

(** The source claim was there, or the workflow recorded the claim in use. *)
Definition source_alive (h : trace) : Prop :=
  activePVC <> None \/
  (rs_Reserved checkpoint = true /\ exists p, Ev (GetPVC (Namespace source) (Name source)) (inl p) ∈ h).

Definition deletable (v : reclaimVolume) (h : trace) : Prop :=
  deleteUnused = true /\ rv_skipMissingPV v = false /\
  match phase with
  | PhaseCompleted => rv_role v = ResourceRoleRollback /\ rv_pv v = sourcePV /\ UID (rv_pvc v) = ""
  | PhaseRolledBack =>
      rv_role v = ResourceRoleRollback /\ rv_pv v = default empty_reference (rs_DestinationPV checkpoint) /\
      rv_pvc v = default empty_reference (rs_DestinationPVC checkpoint)
  | PhaseAborted =>
      rv_role v = ResourceRoleDestination /\ (Name (rv_pv v) = "" \/ UID (rv_pv v) <> UID sourcePV) /\
      source_alive h
  | _ => False
  end.

Definition prepare_post (o : result (ReservationStatus * list reclaimVolume)) (h : trace) : Prop :=
  forall recovered volumes v, o = inl (recovered, volumes) -> v ∈ volumes -> rv_delete v = true -> deletable v h.

Lemma wp_recoverReservation id src dst allow h :
  wp reads_only (recoverReservationVolume terminal id src dst checkpoint allow) (fun _ _ => True) h.
Proof.
  apply wp_check_Ret. destruct (validateReservationRecoveryRequest _ _ _ _); [done|].
  apply wp_bind_2, wp_call; [apply reads_only_ok|done|done|]. intros [pvc|e]; [|by case_test].
  cbv zeta. do 3 (wp_if; [done|]). apply wp_try. apply (wp_mono _ _ (fun _ _ => True)).
  - unfold recoverReservationPV. wp_reads reads_only_ok.
  - by intros [[[pv policy]|]|e] h' _ _.
Qed.

(** The destination of an aborted workflow never aliases the source volume. *)
Definition staged_ok (delete : bool) (d : reclaimVolume) : Prop :=
  rv_skipMissingPV d = false /\ rv_role d = ResourceRoleDestination /\ rv_delete d = delete /\
  (Name (rv_pv d) = "" \/ UID (rv_pv d) <> UID sourcePV).

Lemma wp_prepareReserved id src dst delete h :
  wp reads_only (prepareReservedDestination terminal id src dst (local_UID (vs_SourcePV planned)) checkpoint delete)
    (on_val (fun p _ => staged_ok delete p.2)) h.
Proof.
  apply wp_try. eapply wp_mono; [apply wp_recoverReservation|]. intros [r|e] h' _ _; [|done].
  destruct (rs_DestinationPV r) as [pv|] eqn:Hpv.
  - destruct (UID pv =s _) eqn:Hu; [done|]. bool_prop. intros p [= <-]. split_and!; try done. by right.
  - intros p [= <-]. split_and!; try done. by left.
Qed.

Lemma wp_release h :
  wp reads_only (validateSourceOwnershipRelease owner source sourcePV (vs_SourceReclaimPolicy planned))
    (fun _ _ => True) h.
Proof.
  unfold validateSourceOwnershipRelease. case_test; [done|].
  apply wp_bind_2, wp_call; [apply reads_only_ok|done|done|]. intros c. apply wp_try.
  destruct (match c with inl _ => _ | inr _ => _ end) as [claim|e]; [|done].
  apply wp_Ret. cbv beta iota. wp_if; [done|]. apply wp_bind_2, wp_call; [apply reads_only_ok|done|done|].
  intros [pv|e]; [|by case_test]. do 2 (wp_if; [done|]). apply wp_check_Ret.
  cbv zeta. repeat case_match; try done; wp_reads reads_only_ok.
Qed.

(** The probe of an aborted workflow's source. *)
Lemma wp_probe h :
  wp reads_only
    (if (phase_eqb phase PhaseAborted && bool_decide (activePVC = None))%bool then
       probe ← call (GetPVC (Namespace source) (Name source));
       Ret match probe with
           | inl _ => inl deleteUnused
           | inr e => if IsNotFound e then inl false else inr e
           end
     else Ret (inl deleteUnused))
    (on_val (fun d h' => d = true -> deleteUnused = true /\
       (phase = PhaseAborted -> activePVC <> None \/
          exists p, Ev (GetPVC (Namespace source) (Name source)) (inl p) ∈ h'))) h.
Proof.
  wp_if.
  - apply wp_bind_2, wp_call; [apply reads_only_ok|done|done|]. intros [p|e] d.
    + intros [= <-] Hd. split; [done|]. intros _. right. exists p. left.
    + case_test; [|done]. by intros [= <-].
  - intros d [= <-] Hd. split; [done|]. intros ->. left. intros ->. done.
Qed.

Lemma wp_resolvedPolicy ref policy h : wp reads_only (resolvedSourcePolicy ref policy) (fun _ _ => True) h.
Proof. unfold resolvedSourcePolicy. wp_reads reads_only_ok. Qed.

Lemma phase_eqb_spec p q : reflect (p = q) (phase_eqb p q).
Proof. apply bool_decide_reflect. Qed.

Lemma source_deletable policy delete h :
  (delete = true -> deleteUnused = true) ->
  let src := reclaim_source phase source sourcePV policy (vs_SourcePVCMetadata planned) activePVC delete in
  rv_delete src = true -> deletable src h.
Proof.
  intros Hd. cbn. unfold deletable. destruct (phase_eqb_spec phase PhaseCompleted) as [->|]; [|done].
  cbn. intros ->. by split_and!; auto.
Qed.

(** What becomes of the destination, by phase. *)
Definition final_destination (dst : reclaimVolume) (delete : bool) : reclaimVolume :=
  let d :=
    if phase_eqb phase PhaseCompleted then active_destination dst activePVC (vs_SourcePVCMetadata planned)
    else if phase_eqb phase PhaseRolledBack then lost_destination dst delete
    else dst in
  if (phase_eqb phase PhaseAborted && negb (rs_Reserved checkpoint) && bool_decide (activePVC = None))%bool
  then kept d else d.

Lemma destination_deletable dst delete h h' :
  (delete = true -> deleteUnused = true /\
     (phase = PhaseAborted -> activePVC <> None \/
        exists p, Ev (GetPVC (Namespace source) (Name source)) (inl p) ∈ h)) ->
  (if phase_eqb phase PhaseAborted then staged_ok delete dst else dst = checkpointed_destination checkpoint) ->
  h `suffix_of` h' -> rv_delete (final_destination dst delete) = true -> deletable (final_destination dst delete) h'.
Proof.
  unfold final_destination, deletable. intros Hd Hp Hs.
  destruct (phase_eqb_spec phase PhaseCompleted) as [->|Hc]; [done|].
  destruct (phase_eqb_spec phase PhaseRolledBack) as [->|Hr].
  { destruct (phase_eqb_spec PhaseRolledBack PhaseAborted); [done|]. subst dst. cbn. intros ->. by split_and!; try apply Hd. }
  destruct (phase_eqb_spec phase PhaseAborted) as [->|Ha]; [|by subst dst; rewrite andb_false_l].
  destruct Hp as (H1 & H2 & H3 & H4). cbn.
  destruct (rs_Reserved checkpoint) eqn:Hres; cbn.
  - rewrite H3. intros ->. destruct (Hd eq_refl) as [Hu Hal]. split_and!; try done.
    destruct (Hal eq_refl) as [?|(p & Hp)]; [by left|right]. split; [done|].
    exists p. by eapply suffix_elem.
  - case_bool_decide; [done|]. rewrite H3. intros ->. destruct (Hd eq_refl). split_and!; try done. by left.
Qed.

Lemma wp_prepareMigrationReclaimVolume h :
  wp reads_only
    (prepareMigrationReclaimVolume terminal owner phase sourceNamespace temporaryNamespace planned checkpoint
       activePVC deleteUnused) prepare_post h.
Proof.
  unfold prepareMigrationReclaimVolume. cbv zeta. apply wp_try. eapply wp_mono; [apply wp_probe|].
  intros [delete|e] h1 _ Hd; [|done]. specialize (Hd delete eq_refl).
  apply wp_try. apply (wp_mono _ _ (on_val (fun p _ =>
    if phase_eqb phase PhaseAborted then staged_ok delete p.2
    else p.2 = checkpointed_destination checkpoint))).
  { destruct (phase_eqb phase PhaseAborted); [apply wp_prepareReserved|by intros p [= <-]]. }
  intros [[recovered dst]|e] h2 Hs2 Hp; [|done]. specialize (Hp _ eq_refl). cbn [snd] in Hp.
  apply wp_bind_2. eapply wp_mono; [apply wp_resolvedPolicy|]. intros policy h3 Hs3 _.
  apply wp_check. apply (wp_mono _ _ (fun _ _ => True)); [wp_if; [apply wp_release|done]|].
  intros [e|] h4 Hs4 _; [done|]. intros r volumes v [= <- <-] [Hv|Hv]%elem_of_app Hdel.
  - case_test; [by apply not_elem_of_nil in Hv|]. apply list_elem_of_singleton in Hv as ->.
    apply source_deletable; [intros ->; by apply Hd|done].
  - destruct (has_volume _); [|by apply not_elem_of_nil in Hv]. apply list_elem_of_singleton in Hv as ->.
    eapply destination_deletable; [exact Hd|exact Hp|etrans; [exact Hs2|by etrans]|exact Hdel].
Qed.

End prepare.
