(* ===== verification/OrphanCleanup.v ===== *)
(** * Recovery of sessions whose record was lost

    internal/app/orphan_cleanup.go and the plan it fills (domain/plan.go): from the marks
    on a claim and its volume, the planner reconstructs what a session left behind, and
    the cleanup deletes the unused copy, strips the marks and removes the session's
    record and Lease.  The finder of workflow owners and the locker are those of
    WorkflowOwners, as internal/cli/root.go composes them.

    [PlanOrphanCleanup] never returns an error, only failed checks; the model returns the
    plan alone.  The resources of a mode are threaded beside the plan and stored in it on
    every return, where the code shares a pointer.  Under the lock the held Lease is
    always in the context, so the branch for a Lease that is not held does not exist
    here.  Logging is left out. *)

From S2P Require Import Prelude GoErrors Lifecycle GoFormat KubeTypes Prog Api ResourceState Ownership PVBinding Reclaim WorkflowStore WorkflowOwners.

(** ** The plan *)

Inductive CheckSeverity := SeverityInfo | SeverityWarning | SeverityError.

Record Check := {
  check_Name : string;
  check_Severity : CheckSeverity;
  check_Passed : bool;
  check_Message : string
}.

Definition orphanPassed (name message : string) : Check :=
  {| check_Name := name; check_Severity := SeverityInfo; check_Passed := true; check_Message := message |}.
Definition orphanFailed (name message : string) : Check :=
  {| check_Name := name; check_Severity := SeverityError; check_Passed := false; check_Message := message |}.
Definition orphanWarning (name message : string) : Check :=
  {| check_Name := name; check_Severity := SeverityWarning; check_Passed := true; check_Message := message |}.

Record OrphanPreActivationCleanup := {
  pre_SourcePVC : ObjectReference;
  pre_SourcePV : ObjectReference;
  pre_DestinationPVC : ObjectReference;
  pre_DestinationPV : ObjectReference;
  pre_DestinationPolicy : string
}.

Record OrphanPostActivationCleanup := {
  post_SourcePVC : ObjectReference;
  post_ActivePV : ObjectReference;
  post_RollbackPV : ObjectReference;
  post_RollbackPolicy : string
}.

Inductive OrphanCleanupMode :=
| NoMode
| PreActivation (resources : OrphanPreActivationCleanup)
| PostActivation (resources : OrphanPostActivationCleanup)
| RecordsOnly.

Record OrphanCleanupPlan := {
  op_SessionID : string;
  op_SessionNamespace : string;
  op_Mode : OrphanCleanupMode;
  op_Checks : list Check;
  op_Ready : bool
}.

Definition AddCheck (p : OrphanCleanupPlan) (c : Check) : OrphanCleanupPlan :=
  {| op_SessionID := op_SessionID p; op_SessionNamespace := op_SessionNamespace p; op_Mode := op_Mode p;
     op_Checks := op_Checks p ++ [c];
     op_Ready := match check_Severity c with
                 | SeverityError => (op_Ready p && check_Passed c)%bool
                 | _ => op_Ready p
                 end |}.

(** A check that is added when its condition holds. *)
Definition add_if (b : bool) (c : Check) (p : OrphanCleanupPlan) : OrphanCleanupPlan := if b then AddCheck p c else p.

Definition with_mode (p : OrphanCleanupPlan) (mode : OrphanCleanupMode) : OrphanCleanupPlan :=
  {| op_SessionID := op_SessionID p; op_SessionNamespace := op_SessionNamespace p; op_Mode := mode;
     op_Checks := op_Checks p; op_Ready := op_Ready p |}.

Record OrphanCleanupOptions := {
  oo_SessionID : string;
  oo_SessionNamespace : string;
  oo_SourceNamespace : string;
  oo_SourcePVC : string
}.

(** A name as messages show it. *)
Definition claim_text (pvc : PVC) : string := sprint [pvc_Namespace pvc; "/"; pvc_Name pvc].

(** ** Selectors *)

Definition sessionOwnedSelector (sessionID : string) : string :=
  sprint [ManagedByLabel; "="; ManagedByValue; ","; SessionKey; "="; sessionID].

Definition preActivationDestinationSelector (sessionID : string) : string :=
  sprint [sessionOwnedSelector sessionID; ","; ResourceRoleLabel; "="; ResourceRoleDestination].

Definition preActivationSourceSelector (sessionID : string) : string :=
  sprint [sessionOwnedSelector sessionID; ","; ResourceRoleLabel; "="; ResourceRoleSource].

(** ** The record of the session *)

(** A record of a kind that this build does not serve. *)
Definition stale_record (owner : WorkflowOwner) : bool :=
  ((owner_Backend owner =s SessionBackendConfigMap) && (cr_Resource (owner_Resource owner) =s ""))%bool.

Definition find_owner (options : OrphanCleanupOptions) : orphan (result (option WorkflowOwner)) :=
  CompositeFind (oo_SessionID options) [oo_SessionNamespace options; oo_SourceNamespace options].

Definition checkOrphanSessionRecord (options : OrphanCleanupOptions) : orphan Check :=
  r ← find_owner options;
  Ret match r with
      | inl (Some owner) =>
          let session := sprint ["session "; owner_SessionNamespace owner; "/"; owner_ID owner] in
          if stale_record owner then
            orphanPassed "session-record"
              (sprint [session; " uses a kind this build no longer serves; orphan ownership recovery applies and removes the stale record"])
          else
            orphanFailed "session-record"
              (sprint [session; " still exists in the "; owner_Backend owner; " backend (phase "; owner_Phase owner;
                       "); use the owning workflow lifecycle commands after reading its status"])
      | inr e => orphanFailed "session-record" ("read workflow records: " +:+ error_text e)
      | inl None => orphanPassed "session-record" "workflow records are absent; orphan ownership recovery is required"
      end.

(** ** Planning: the source claim is gone *)

Definition planDeletedSourceOrphan (plan : OrphanCleanupPlan) (options : OrphanCleanupOptions)
    : orphan OrphanCleanupPlan :=
  let selector := sessionOwnedSelector (oo_SessionID options) in
  let source := sprint ["source PVC "; oo_SourceNamespace options; "/"; oo_SourcePVC options] in
  l ← call (OListPVs selector);
  match l with
  | inr e => Ret (AddCheck plan (orphanFailed "source-pv" ("list session PVs: " +:+ error_text e)))
  | inl pvs =>
      c ← call (OListPVCs "" selector);
      match c with
      | inr e => Ret (AddCheck plan (orphanFailed "destination-pvc" ("list session PVCs: " +:+ error_text e)))
      | inl pvcs =>
          if (bool_decide (pvs = []) && bool_decide (pvcs = []))%bool then
            let plan := with_mode plan RecordsOnly in
            let plan := AddCheck plan (orphanWarning "source-pvc"
                          (sprint [source; " is already deleted; no session-owned storage remains"])) in
            Ret (AddCheck plan (orphanPassed "resources" "stale session record and lease will be removed"))
          else
            let remaining :=
              map (fun pv => sprint ["PV "; pv_Name pv; " (role "; mget (pv_Labels pv) ResourceRoleLabel; ")"]) pvs ++
              map (fun p => sprint ["PVC "; claim_text p; " (role "; mget (pvc_Labels p) ResourceRoleLabel; ")"]) pvcs in
            Ret (AddCheck plan (orphanFailed "current-ownership"
              (sprint [source; " is deleted but session-owned storage remains: "; strings_join ", " remaining;
                       "; remove these resources or restore the source PVC before retrying"])))
      end
  end.

(** ** Planning: after the cutover *)

Definition post_resources (pvc : PVC) (active : PV) (rollback : ObjectReference) (policy : string)
    : OrphanPostActivationCleanup :=
  {| post_SourcePVC := PVCReference (Some pvc); post_ActivePV := PVReference (Some active);
     post_RollbackPV := rollback; post_RollbackPolicy := policy |}.

(** The live policy is Retain or the one recorded before the workflow. *)
Definition policy_restorable (pv : PV) (policy : string) : bool :=
  (bool_decide (pv_ReclaimPolicy pv = ReclaimRetain) || (live_policy pv =s policy))%bool.

Definition rollback_checks (options : OrphanCleanupOptions) (active rollback : PV) (policy : string)
    (plan : OrphanCleanupPlan) : OrphanCleanupPlan :=
  let name := sprint ["rollback PV "; pv_Name rollback] in
  add_if (negb (policy_restorable rollback policy))
    (orphanFailed "rollback-policy"
      (sprint [name; " reclaim policy must be Retain or its recorded original policy before deletion"]))
  (add_if (negb (validReclaimPolicy policy))
    (orphanFailed "rollback-policy" (sprint [name; " has no valid original reclaim policy"]))
  (add_if (negb (free_phase (pv_Phase rollback)))
    (orphanFailed "rollback-state"
      (sprint [name; " phase "; volume_phase_string (pv_Phase rollback); " must be Released or Available"]))
  (add_if (mget (pv_Annotations rollback) PairedPVAnnotation <>s pv_Name active)
    (orphanFailed "pv-pair" (sprint [name; " does not point back to active PV "; pv_Name active]))
  (add_if ((mget (pv_Labels rollback) SessionKey <>s oo_SessionID options)
           || (mget (pv_Labels rollback) ResourceRoleLabel <>s ResourceRoleRollback))%bool
    (orphanFailed "rollback-ownership"
      (sprint [name; " must carry session="; oo_SessionID options; " and role=rollback"])) plan)))).

(** What is added when every check passed. *)
Definition post_ready (options : OrphanCleanupOptions) (pvc : PVC) (active : PV) (rollbackName : string)
    (ownershipMarkers : nat) (plan : OrphanCleanupPlan) : OrphanCleanupPlan :=
  let plan :=
    add_if (Nat.eqb ownershipMarkers 0
            && negb ((mget (pv_Labels active) SessionKey =s oo_SessionID options)
                     && (mget (pv_Labels active) ResourceRoleLabel =s ResourceRoleActive)))%bool
      (orphanFailed "source-ownership"
        (sprint ["source PVC "; claim_text pvc; " has no ownership marker for orphan session "; oo_SessionID options]))
      plan in
  add_if (op_Ready plan)
    (orphanPassed "resources"
      (sprint ["validated active PVC "; claim_text pvc; ", active PV "; pv_Name active; ", and rollback PV ";
               rollbackName])) plan.

Definition planPostActivationOrphan (plan : OrphanCleanupPlan) (options : OrphanCleanupOptions) (pvc : PVC)
    (active : PV) (ownershipMarkers : nat) : orphan OrphanCleanupPlan :=
  let blank := PostActivation (post_resources pvc active empty_reference "") in
  let recorded := mget (pvc_Annotations pvc) RollbackPVAnnotation in
  let paired := mget (pv_Annotations active) PairedPVAnnotation in
  let rollbackName := if recorded =s "" then paired else recorded in
  if rollbackName =s "" then
    Ret (AddCheck (with_mode plan blank)
      (orphanFailed "rollback-pv" "source PVC and active PV have no rollback PV reference"))
  else
  let plan := add_if (recorded =s "")
    (orphanWarning "rollback-pv"
      ("source PVC metadata is already finalized; active PV records rollback PV " +:+ rollbackName))
    (with_mode plan blank) in
  let plan := add_if (paired <>s rollbackName)
    (orphanFailed "pv-pair" (sprint ["active PV "; pv_Name active; " does not point to rollback PV "; rollbackName]))
    plan in
  g ← call (OKube (GetPV rollbackName));
  match g with
  | inr e =>
      if IsNotFound e then
        let missing := {| APIVersion := CoreAPIVersion; Kind := KindPersistentVolume; Namespace := "";
                          Name := rollbackName; UID := ""; ResourceVersion := "" |} in
        let plan := AddCheck (with_mode plan (PostActivation (post_resources pvc active missing "")))
          (orphanWarning "rollback-pv"
            (sprint ["rollback PV "; rollbackName; " is already absent; deletion will remain idempotent"])) in
        Ret (post_ready options pvc active rollbackName ownershipMarkers plan)
      else
        Ret (AddCheck plan (orphanFailed "rollback-pv" (sprint ["read rollback PV "; rollbackName; ": "; error_text e])))
  | inl rollback =>
      let policy := mget (pv_Annotations rollback) OriginalPolicyAnnotation in
      let plan := with_mode plan (PostActivation (post_resources pvc active (PVReference (Some rollback)) policy)) in
      Ret (post_ready options pvc active rollbackName ownershipMarkers
             (rollback_checks options active rollback policy plan))
  end.

(** ** Planning: before the cutover *)

Section pre.
Context (options : OrphanCleanupOptions) (pvc : PVC) (sourcePV : PV).
Notation resources := OrphanPreActivationCleanup.

Definition pre_blank : resources :=
  {| pre_SourcePVC := PVCReference (Some pvc); pre_SourcePV := PVReference (Some sourcePV);
     pre_DestinationPVC := empty_reference; pre_DestinationPV := empty_reference; pre_DestinationPolicy := "" |}.

Definition with_destination_pvc (r : resources) (ref : ObjectReference) : resources :=
  {| pre_SourcePVC := pre_SourcePVC r; pre_SourcePV := pre_SourcePV r; pre_DestinationPVC := ref;
     pre_DestinationPV := pre_DestinationPV r; pre_DestinationPolicy := pre_DestinationPolicy r |}.

Definition with_destination_pv (r : resources) (ref : ObjectReference) (policy : string) : resources :=
  {| pre_SourcePVC := pre_SourcePVC r; pre_SourcePV := pre_SourcePV r; pre_DestinationPVC := pre_DestinationPVC r;
     pre_DestinationPV := ref; pre_DestinationPolicy := policy |}.

Definition matching_claims (destinationPVCs : list PVC) : list PVC :=
  List.filter (fun c => mget (pvc_Annotations c) SourcePVCUIDAnnotation =s pvc_UID pvc) destinationPVCs.

Definition matchPreActivationDestinationPVC (r : resources) (destinationPVCs : list PVC)
    : list PVC * list string * resources :=
  let matching := matching_claims destinationPVCs in
  let pvToPVC := List.filter (fun n => n <>s "") (map pvc_VolumeName destinationPVCs) in
  (matching, pvToPVC, match matching with [c] => with_destination_pvc r (PVCReference (Some c)) | _ => r end).

Definition validatePreActivationDestinationPVC (destination : PVC) (plan : OrphanCleanupPlan) : OrphanCleanupPlan :=
  add_if (negb ((mget (pvc_Annotations destination) SessionKey =s oo_SessionID options)
                && (pvc_UID destination <>s "")))%bool
    (orphanFailed "destination-ownership"
      (sprint ["destination PVC "; claim_text destination; " ownership or UID is incomplete"])) plan.

Definition destinationPVForPVC (plan : OrphanCleanupPlan) (ref : ObjectReference)
    : orphan (OrphanCleanupPlan * option PV) :=
  g ← call (OKube (GetPVC (Namespace ref) (Name ref)));
  match g with
  | inl claim =>
      if pvc_VolumeName claim =s "" then Ret (plan, None) else
      v ← call (OKube (GetPV (pvc_VolumeName claim)));
      Ret match v with
          | inl pv => (plan, Some pv)
          | inr e =>
              if IsNotFound e then
                (AddCheck plan (orphanWarning "destination-pv"
                   (sprint ["destination PV "; pvc_VolumeName claim; " is already absent"])), None)
              else
                (AddCheck plan (orphanFailed "destination-pv"
                   (sprint ["read destination PV "; pvc_VolumeName claim; ": "; error_text e])), None)
          end
  | inr e =>
      Ret (add_if (negb (IsNotFound e))
             (orphanFailed "destination-pvc"
               (sprint ["read destination PVC "; Namespace ref; "/"; Name ref; ": "; error_text e])) plan, None)
  end.

(** The volumes that no listed destination claim names. *)
Definition unclaimed (pvToPVC : list string) (destinationPVs : list PV) : list PV :=
  List.filter (fun pv => negb (contains pvToPVC (pv_Name pv))) destinationPVs.

Definition resolvePreActivationDestinationPV (plan : OrphanCleanupPlan) (r : resources) (sourcePVs : list PV)
    (destinationPVs : list PV) (pvToPVC : list string) : orphan (OrphanCleanupPlan * resources * option PV) :=
  if Name (pre_DestinationPVC r) <>s "" then
    a ← destinationPVForPVC plan (pre_DestinationPVC r); Ret (a.1, r, a.2)
  else
    let orphanPVs := unclaimed pvToPVC destinationPVs in
    Ret match orphanPVs, sourcePVs with
        | [destinationPV], [_] =>
            let r := match pv_ClaimRef destinationPV with
                     | Some ref =>
                         with_destination_pvc r
                           {| APIVersion := CoreAPIVersion; Kind := KindPersistentVolumeClaim;
                              Namespace := Namespace ref; Name := Name ref; UID := UID ref; ResourceVersion := "" |}
                     | None => r
                     end in
            (AddCheck plan (orphanWarning "destination-pvc"
               "destination PVC is already absent; its retained PV will be removed"), r, Some destinationPV)
        | [], _ => (plan, r, None)
        | _, _ =>
            (AddCheck plan (orphanFailed "destination-pv"
               (sprint [show_Z (Z.of_nat (length orphanPVs));
                        " unclaimed destination PVs cannot be mapped safely to source PVC "; claim_text pvc])), r, None)
        end.

Definition claimref_matches (claimRef : option ObjectReference) (ref : ObjectReference) : bool :=
  match claimRef with
  | Some c => ((Namespace c =s Namespace ref) && (Name c =s Name ref) && (UID c =s UID ref))%bool
  | None => false
  end.

Definition validatePreActivationDestinationPV (r : resources) (destinationPV : PV) (policy : string)
    (plan : OrphanCleanupPlan) : OrphanCleanupPlan :=
  let name := sprint ["destination PV "; pv_Name destinationPV] in
  add_if ((UID (pre_DestinationPVC r) <>s "") && negb (claimref_matches (pv_ClaimRef destinationPV) (pre_DestinationPVC r)))%bool
    (orphanFailed "destination-claim" (sprint [name; " claimRef does not match destination PVC identity"]))
  (add_if (negb (policy_restorable destinationPV policy))
    (orphanFailed "destination-policy"
      (sprint [name; " reclaim policy must be Retain or its recorded original policy before deletion"]))
  (add_if (negb (validReclaimPolicy policy))
    (orphanFailed "destination-policy" (sprint [name; " has no valid original reclaim policy"]))
  (add_if ((mget (pv_Labels destinationPV) ManagedByLabel <>s ManagedByValue)
           || (mget (pv_Labels destinationPV) SessionKey <>s oo_SessionID options)
           || (mget (pv_Labels destinationPV) ResourceRoleLabel <>s ResourceRoleDestination))%bool
    (orphanFailed "destination-ownership" (sprint [name; " ownership changed"])) plan))).

Definition addPreActivationReadyCheck (r : resources) (plan : OrphanCleanupPlan) : OrphanCleanupPlan :=
  add_if (op_Ready plan)
    (orphanPassed "resources"
      (sprint ["validated pre-activation source PVC "; claim_text pvc; ", source PV "; Name (pre_SourcePV r);
               ", destination PVC "; Namespace (pre_DestinationPVC r); "/"; Name (pre_DestinationPVC r);
               ", and destination PV "; Name (pre_DestinationPV r)])) plan.

Definition addPreActivationResourceChecks (sourcePVs : list PV) (destinationPVCs matchingPVCs : list PVC)
    (r : resources) (plan : OrphanCleanupPlan) : OrphanCleanupPlan :=
  let others := Nat.ltb (length matchingPVCs) (length destinationPVCs) in
  addPreActivationReadyCheck r
    (add_if others
      (if Nat.eqb (length sourcePVs) 1 then
         orphanFailed "other-resources" "single-volume orphan ownership includes an unrelated destination PVC"
       else
         orphanWarning "other-resources"
           "the orphan session owns additional destination PVCs; clean each source PVC before the final Lease is removed")
      plan).

Definition planPreActivationOrphan (plan : OrphanCleanupPlan) : orphan OrphanCleanupPlan :=
  let id := oo_SessionID options in
  let r := pre_blank in
  let finish (r : resources) (plan : OrphanCleanupPlan) : OrphanCleanupPlan := with_mode plan (PreActivation r) in
  if ((mget (pvc_Annotations pvc) RollbackPVAnnotation <>s "")
      || (mget (pv_Annotations sourcePV) PairedPVAnnotation <>s ""))%bool then
    Ret (finish r (AddCheck plan (orphanFailed "activation-state"
      "source-role resources contain rollback pairing metadata; activation state is ambiguous"))) else
  s ← call (OListPVs (preActivationSourceSelector id));
  match s with
  | inr e => Ret (finish r (AddCheck plan (orphanFailed "source-pv" ("list source PVs: " +:+ error_text e))))
  | inl sourcePVs =>
  c ← call (OListPVCs "" (preActivationDestinationSelector id));
  match c with
  | inr e => Ret (finish r (AddCheck plan (orphanFailed "destination-pvc" ("list destination PVCs: " +:+ error_text e))))
  | inl destinationPVCs =>
  let '(matching, pvToPVC, r) := matchPreActivationDestinationPVC r destinationPVCs in
  if Nat.ltb 1 (length matching) then
    Ret (finish r (AddCheck plan (orphanFailed "destination-pvc"
      (sprint ["found "; show_Z (Z.of_nat (length matching)); " destination PVCs for source PVC UID "; pvc_UID pvc]))))
  else
  let plan := match matching with [d] => validatePreActivationDestinationPVC d plan | _ => plan end in
  v ← call (OListPVs (preActivationDestinationSelector id));
  match v with
  | inr e => Ret (finish r (AddCheck plan (orphanFailed "destination-pv" ("list destination PVs: " +:+ error_text e))))
  | inl destinationPVs =>
  a ← resolvePreActivationDestinationPV plan r sourcePVs destinationPVs pvToPVC;
  let '(plan, r, destinationPV) := a in
  let '(plan, r) :=
    match destinationPV with
    | Some pv =>
        let policy := mget (pv_Annotations pv) OriginalPolicyAnnotation in
        let r := with_destination_pv r (PVReference (Some pv)) policy in
        (validatePreActivationDestinationPV r pv policy plan, r)
    | None => (plan, r)
    end in
  u ← (if Name (pre_DestinationPVC r) <>s "" then olift (inspectPVCUnusedWithOperations (pre_DestinationPVC r) id)
       else Ret (inl None));
  let plan := match u with
              | inr e => AddCheck plan (orphanFailed "destination-consumers" (error_text e))
              | inl _ => plan
              end in
  Ret (finish r (addPreActivationResourceChecks sourcePVs destinationPVCs matching r plan))
  end end end.
End pre.

(** ** Planning *)

(** The marks of a session on the source claim: who owns it, where. *)
Definition source_marks (pvc : PVC) : list (string * string) :=
  [("PVC annotation", mget (pvc_Annotations pvc) SessionKey); ("PVC label", mget (pvc_Labels pvc) SessionKey)].

Definition ownership_markers (sessionID : string) (pvc : PVC) : nat :=
  length (List.filter (fun m => m.2 =s sessionID) (source_marks pvc)).

Definition mark_checks (options : OrphanCleanupOptions) (pvc : PVC) (plan : OrphanCleanupPlan) : OrphanCleanupPlan :=
  let sessionID := oo_SessionID options in
  let plan := foldl (fun plan m =>
    add_if (negb (m.2 =s sessionID) && (m.2 <>s ""))%bool
      (orphanFailed "source-ownership"
        (sprint ["source PVC "; claim_text pvc; " "; m.1; " belongs to session "; m.2])) plan) plan (source_marks pvc) in
  add_if (negb (Nat.eqb (ownership_markers sessionID pvc) 0) && (mget (pvc_Labels pvc) SessionKey =s ""))%bool
    (orphanWarning "source-ownership"
      (sprint ["source PVC "; claim_text pvc; " has annotation ownership for session "; sessionID;
               "; its session label is absent"])) plan.

(** The claim reference of the volume names exactly this claim. *)
Definition claim_matches (pvc : PVC) (current : PV) : bool :=
  match pv_ClaimRef current with
  | Some ref =>
      ((pvc_UID pvc <>s "") && (Namespace ref =s pvc_Namespace pvc) && (Name ref =s pvc_Name pvc)
       && (UID ref <>s "") && (UID ref =s pvc_UID pvc))%bool
  | None => false
  end.

Definition volume_checks (options : OrphanCleanupOptions) (pvc : PVC) (current : PV) (plan : OrphanCleanupPlan)
    : OrphanCleanupPlan :=
  let name := "current PV " +:+ pv_Name current in
  let originalPolicy := mget (pv_Annotations current) OriginalPolicyAnnotation in
  add_if (Nat.eqb (ownership_markers (oo_SessionID options) pvc) 0)
    (orphanWarning "source-ownership"
      (sprint ["source PVC "; claim_text pvc;
               " metadata is already finalized; current PV ownership still proves session "; oo_SessionID options]))
  (add_if (negb (policy_restorable current originalPolicy))
    (orphanFailed "current-policy"
      (sprint [name; " reclaim policy must be Retain or its recorded original policy "; quoted originalPolicy;
               " during orphan cleanup"]))
  (add_if (negb (validReclaimPolicy originalPolicy))
    (orphanFailed "current-policy" (sprint [name; " has no valid "; OriginalPolicyAnnotation; " annotation"]))
  (add_if (negb (claim_matches pvc current))
    (orphanFailed "current-claim"
      (sprint [name; " claimRef does not match PVC "; claim_text pvc; " UID "; pvc_UID pvc])) plan))).

(** The claim exists and names its volume. *)
Definition plan_volume (plan : OrphanCleanupPlan) (options : OrphanCleanupOptions) (pvc : PVC)
    : orphan OrphanCleanupPlan :=
  g ← call (OKube (GetPV (pvc_VolumeName pvc)));
  match g with
  | inr e =>
      Ret (AddCheck plan (orphanFailed "current-pv"
        (sprint ["read current PV "; pvc_VolumeName pvc; ": "; error_text e])))
  | inl current =>
      if mget (pv_Labels current) SessionKey <>s oo_SessionID options then
        Ret (AddCheck plan (orphanFailed "current-ownership"
          (sprint ["current PV "; pv_Name current; " must carry session="; oo_SessionID options])))
      else
        let plan := volume_checks options pvc current plan in
        let role := mget (pv_Labels current) ResourceRoleLabel in
        if role =s ResourceRoleSource then planPreActivationOrphan options pvc current plan
        else if role =s ResourceRoleActive then
          planPostActivationOrphan plan options pvc current (ownership_markers (oo_SessionID options) pvc)
        else
          Ret (AddCheck plan (orphanFailed "current-ownership"
            (sprint ["current PV "; pv_Name current; " has unsupported orphan role "; quoted role])))
  end.

Section planning.
Context `{LG : LabelGrammar} (options : OrphanCleanupOptions).

Definition option_checks : OrphanCleanupPlan :=
  let plan := {| op_SessionID := oo_SessionID options; op_SessionNamespace := oo_SessionNamespace options;
                 op_Mode := NoMode; op_Checks := []; op_Ready := true |} in
  let problems := IsDNS1123Label (oo_SessionID options) in
  add_if ((oo_SessionNamespace options =s "") || (oo_SourceNamespace options =s "") || (oo_SourcePVC options =s ""))%bool
    (orphanFailed "identity" "session namespace, source namespace, and source PVC are required")
    (add_if (negb (bool_decide (problems = []))) (orphanFailed "session-id" (strings_join "; " problems)) plan).

Definition PlanOrphanCleanup : orphan OrphanCleanupPlan :=
  let plan := option_checks in
  if negb (op_Ready plan) then Ret plan else
  c ← checkOrphanSessionRecord options;
  let plan := AddCheck plan c in
  g ← call (OKube (GetPVC (oo_SourceNamespace options) (oo_SourcePVC options)));
  match g with
  | inr e =>
      if IsNotFound e then planDeletedSourceOrphan plan options
      else Ret (AddCheck plan (orphanFailed "source-pvc" ("read source PVC: " +:+ error_text e)))
  | inl pvc =>
      let plan := mark_checks options pvc plan in
      if (negb (bool_decide (pvc_Phase pvc = ClaimBound)) || (pvc_VolumeName pvc =s ""))%bool then
        Ret (AddCheck plan (orphanFailed "source-pvc"
          (sprint ["source PVC "; claim_text pvc; " must be Bound with a volumeName"])))
      else plan_volume plan options pvc
  end.
End planning.

(** ** Cleaning up *)

Definition oc_conflict (message : string) : err := NewError ErrorConflict "cleanup orphan" message.

Definition oc_kube (message : string) (e : err) : err := WrapError ErrorKubernetes "cleanup orphan" message e.

(** The error of a write unless the object is gone. *)
Definition unless_gone (e : option err) (message : string) : option err :=
  match e with
  | Some x => if IsNotFound x then None else Some (oc_kube message x)
  | None => None
  end.

Definition destination_owned (pvc : PVC) (sessionID sourcePVCUID : string) : bool :=
  ((mget (pvc_Labels pvc) ManagedByLabel =s ManagedByValue) && (mget (pvc_Labels pvc) SessionKey =s sessionID)
   && (mget (pvc_Labels pvc) ResourceRoleLabel =s ResourceRoleDestination)
   && (mget (pvc_Annotations pvc) SessionKey =s sessionID)
   && (mget (pvc_Annotations pvc) SourcePVCUIDAnnotation =s sourcePVCUID))%bool.

Definition deleteOrphanDestinationPVC (sessionID sourcePVCUID : string) (ref : ObjectReference) : kube (option err) :=
  let claim := sprint [Namespace ref; "/"; Name ref] in
  g ← call (GetPVC (Namespace ref) (Name ref));
  match g with
  | inr e => if IsNotFound e then Ret None else fail (oc_kube ("read destination PVC " +:+ claim) e)
  | inl pvc =>
      if ((pvc_UID pvc <>s UID ref) || (pvc_ResourceVersion pvc <>s ResourceVersion ref)
          || negb (destination_owned pvc sessionID sourcePVCUID))%bool then
        fail (oc_conflict (sprint ["destination PVC "; claim; " identity or ownership changed"])) else
      check: checkpointFenceError;
      d ← call (DeletePVC (Namespace ref) (Name ref) (pvc_UID pvc) (pvc_ResourceVersion pvc));
      check: Ret (unless_gone d ("delete destination PVC " +:+ claim));
      checkpointFenceError
  end.

(** The marks removed from a source claim. *)
Definition orphan_finalized_pvc (pvc : PVC) : PVC :=
  pvc_set_metadata pvc
    (delete ResourceRoleLabel (delete SessionKey
       (if mget (pvc_Labels pvc) ManagedByLabel =s ManagedByValue then delete ManagedByLabel (pvc_Labels pvc)
        else pvc_Labels pvc)))
    (delete SourcePVCUIDAnnotation (delete SourcePVAnnotation (delete RollbackPVAnnotation
       (delete SessionKey (pvc_Annotations pvc)))))
    (pvc_OwnerReferences pvc).

(** Already without the session's marks. *)
Definition orphan_clean (pvc : PVC) : bool :=
  ((mget (pvc_Labels pvc) ManagedByLabel =s "") && (mget (pvc_Labels pvc) ResourceRoleLabel =s "")
   && (mget (pvc_Annotations pvc) SessionKey =s "") && (mget (pvc_Annotations pvc) RollbackPVAnnotation =s ""))%bool.

Definition finalizeOrphanPVC (sessionID : string) (ref : ObjectReference) : kube (option err) :=
  let claim := sprint [Namespace ref; "/"; Name ref] in
  g ← call (GetPVC (Namespace ref) (Name ref));
  match g with
  | inr e => fail (oc_kube ("read source PVC " +:+ claim) e)
  | inl pvc =>
      let annotationOwner := mget (pvc_Annotations pvc) SessionKey in
      let labelOwner := mget (pvc_Labels pvc) SessionKey in
      if ((pvc_UID pvc <>s UID ref) || (pvc_ResourceVersion pvc <>s ResourceVersion ref)
          || foreign_owner annotationOwner sessionID || foreign_owner labelOwner sessionID)%bool then
        fail (oc_conflict (sprint ["source PVC "; claim; " identity or ownership changed"])) else
      if negb ((annotationOwner =s sessionID) || (labelOwner =s sessionID))%bool then
        (if orphan_clean pvc then Ret None
         else fail (oc_conflict (sprint ["source PVC "; claim; " has unexpected metadata after ownership cleanup"])))
      else
        check: checkpointFenceError;
        u ← call (UpdatePVC (orphan_finalized_pvc pvc));
        check: Ret match u with Some e => Some (oc_kube ("finalize source PVC " +:+ claim) e) | None => None end;
        checkpointFenceError
  end.

Definition orphanPVRoleName (role : string) : string :=
  if role =s ResourceRoleSource then "source"
  else if role =s ResourceRoleDestination then "destination"
  else if role =s ResourceRoleActive then "active" else "orphan".

(** The marks removed from a volume that is kept, and its policy restored. *)
Definition orphan_finalized_pv (pv : PV) : PV :=
  pv_set_metadata pv (delete ResourceRoleLabel (delete SessionKey (delete ManagedByLabel (pv_Labels pv))))
    (delete PairedPVAnnotation (delete OriginalPolicyAnnotation (pv_Annotations pv))) (pv_ReclaimPolicy pv).

Definition finalizeOrphanPV (sessionID : string) (ref : ObjectReference) (expectedRole : string) : kube (option err) :=
  let name := sprint [orphanPVRoleName expectedRole; " PV "; Name ref] in
  g ← call (GetPV (Name ref));
  match g with
  | inr e => fail (oc_kube ("read " +:+ name) e)
  | inl pv =>
      if ((pv_UID pv <>s UID ref) || (pv_ResourceVersion pv <>s ResourceVersion ref)
          || (mget (pv_Labels pv) SessionKey <>s sessionID)
          || (mget (pv_Labels pv) ResourceRoleLabel <>s expectedRole))%bool then
        fail (oc_conflict (name +:+ " identity or ownership changed")) else
      let policy := mget (pv_Annotations pv) OriginalPolicyAnnotation in
      if negb (validReclaimPolicy policy) then
        fail (NewError ErrorPrecondition "cleanup orphan" (name +:+ " has no valid original reclaim policy")) else
      check: checkpointFenceError;
      u ← update_pv_policy (orphan_finalized_pv pv) policy;
      check: Ret match error_of u with Some e => Some (oc_kube ("finalize " +:+ name) e) | None => None end;
      checkpointFenceError
  end.

(** The volume kept for a rollback, as it may be deleted. *)
Definition rollback_deletable (pv : PV) (ref : ObjectReference) (sessionID : string) : bool :=
  ((pv_UID pv =s UID ref) && (pv_ResourceVersion pv =s ResourceVersion ref)
   && (mget (pv_Labels pv) SessionKey =s sessionID)
   && (mget (pv_Labels pv) ResourceRoleLabel =s ResourceRoleRollback) && free_phase (pv_Phase pv))%bool.

Definition rollback_policy_kept (pv : PV) (policy : string) : bool :=
  (validReclaimPolicy policy && (mget (pv_Annotations pv) OriginalPolicyAnnotation =s policy)
   && policy_restorable pv policy)%bool.

Section cleanup.
Context `{CR : ConflictRetry} (polls : nat).

(** After the policy was restored on [pv]. *)
Definition delete_rollback (pv : PV) (ref : ObjectReference) : kube (option err) :=
  check: checkpointFenceError;
  d ← call (DeletePV (pv_Name pv) (pv_UID pv) (pv_ResourceVersion pv));
  check: Ret (unless_gone d ("delete rollback PV " +:+ pv_Name pv));
  check: checkpointFenceError;
  waitForPVDeletion polls ref.

Definition deleteOrphanRollbackPV (sessionID : string) (ref : ObjectReference) (policy : string)
    : orphan (option err) :=
  g ← call (OKube (GetPV (Name ref)));
  match g with
  | inr e => if IsNotFound e then Ret None else fail (oc_kube ("read rollback PV " +:+ Name ref) e)
  | inl pv =>
      if negb (rollback_deletable pv ref sessionID) then
        fail (oc_conflict (sprint ["rollback PV "; Name ref; " identity, ownership, or released state changed"])) else
      if negb (rollback_policy_kept pv policy) then
        fail (oc_conflict (sprint ["rollback PV "; Name ref; " original reclaim policy changed"])) else
      if live_policy pv =s policy then olift (delete_rollback pv ref) else
      check: olift checkpointFenceError;
      u ← olift (update_pv_policy pv policy);
      match u with
      | inr e => fail (oc_kube ("restore reclaim policy for rollback PV " +:+ Name ref) e)
      | inl (Some pv) => olift (delete_rollback pv ref)
      | inl None => _ ← call OPanic; OutOfFuel
      end
  end.

Definition cleanupPostActivationOrphan (sessionID : string) (r : OrphanPostActivationCleanup) : orphan (option err) :=
  check: deleteOrphanRollbackPV sessionID (post_RollbackPV r) (post_RollbackPolicy r);
  check: olift (finalizeOrphanPVC sessionID (post_SourcePVC r));
  olift (finalizeOrphanPV sessionID (post_ActivePV r) ResourceRoleActive).

(** The destination claim and its volume. *)
Definition delete_destination_claim (sessionID : string) (r : OrphanPreActivationCleanup) : kube (option err) :=
  if Namespace (pre_DestinationPVC r) =s "" then Ret None else
  try: pods ← inventoryReservationPods sessionID [Namespace (pre_DestinationPVC r)];
  check: deleteReservationConsumers polls pods;
  try: _ ← inspectPVCUnusedWithOperations (pre_DestinationPVC r) sessionID;
  deleteOrphanDestinationPVC sessionID (UID (pre_SourcePVC r)) (pre_DestinationPVC r).

Definition delete_destination_volume (sessionID : string) (r : OrphanPreActivationCleanup) : kube (option err) :=
  if Name (pre_DestinationPV r) =s "" then Ret None else
  deleteReclaimedPV polls sessionID (pre_DestinationPV r) ResourceRoleDestination (pre_DestinationPolicy r) None.

Definition cleanupPreActivationOrphan (sessionID : string) (r : OrphanPreActivationCleanup) : orphan (option err) :=
  olift (
  check: delete_destination_claim sessionID r;
  check: delete_destination_volume sessionID r;
  check: finalizeOrphanPVC sessionID (pre_SourcePVC r);
  finalizeOrphanPV sessionID (pre_SourcePV r) ResourceRoleSource).

Definition deleteStaleSessionRecord (options : OrphanCleanupOptions) : orphan (option err) :=
  r ← find_owner options;
  match r with
  | inr e => Ret (Some e)
  | inl (Some owner) =>
      if negb (stale_record owner) then Ret None else
      let name := SessionConfigMapName (oo_SessionID options) in
      d ← call (ODeleteConfigMap (owner_SessionNamespace owner) name);
      Ret (unless_gone d (sprint ["delete stale session record "; owner_SessionNamespace owner; "/"; name]))
  | inl None => Ret None
  end.

(** A claim that still carries the session. *)
Definition claim_of_session (sessionID : string) (pvc : PVC) : bool :=
  ((mget (pvc_Labels pvc) SessionKey =s sessionID) || (mget (pvc_Annotations pvc) SessionKey =s sessionID))%bool.

Definition hasOrphanSessionResources (sessionID : string) : orphan (result bool) :=
  let selector := sprint [SessionKey; "="; sessionID] in
  c ← call (OListPVCs "" "");
  match c with
  | inr e => fail (oc_kube "list remaining PVC ownership" e)
  | inl pvcs =>
      if existsb (claim_of_session sessionID) pvcs then Ret (inl true) else
      v ← call (OListPVs selector);
      match v with
      | inr e => fail (oc_kube "list remaining PV ownership" e)
      | inl (_ :: _) => Ret (inl true)
      | inl [] =>
          p ← call (OListPods "" selector);
          Ret match p with
              | inr e => inr (oc_kube "list remaining Pod ownership" e)
              | inl pods => inl (negb (bool_decide (pods = [])))
              end
      end
  end.

(** The record and the Lease go last. *)
Definition delete_session_record (options : OrphanCleanupOptions) : orphan (option err) :=
  check: deleteStaleSessionRecord options;
  try: remaining ← hasOrphanSessionResources (oo_SessionID options);
  if (remaining : bool) then Ret None else
  check: olift checkpointFenceError;
  call ODeleteLease.

Definition cleanup_mode (options : OrphanCleanupOptions) (mode : OrphanCleanupMode) : orphan (option err) :=
  match mode with
  | PreActivation r => cleanupPreActivationOrphan (oo_SessionID options) r
  | PostActivation r => cleanupPostActivationOrphan (oo_SessionID options) r
  | RecordsOnly => Ret None
  | NoMode => fail (NewError ErrorInternal "cleanup orphan" ("unsupported orphan cleanup mode " +:+ quoted ""))
  end.

Context `{LG : LabelGrammar} (options : OrphanCleanupOptions).

(** Under the lock: the plan that was made and the error. *)
Definition cleanup_locked : orphan (option OrphanCleanupPlan * option err) :=
  plan ← PlanOrphanCleanup options;
  e ← (if negb (op_Ready plan) then
         fail (NewError ErrorPrecondition "cleanup orphan" "orphan cleanup plan contains failed checks")
       else
         check: cleanup_mode options (op_Mode plan);
         delete_session_record options);
  Ret (Some plan, e).

(** [withSessionIDLock] with the locker of root.go *)
Definition CleanupOrphan : orphan (option OrphanCleanupPlan * option err) :=
  if ((oo_SessionNamespace options =s "") || (oo_SessionID options =s ""))%bool then
    Ret (None, Some (NewError ErrorValidation "cleanup orphan" "session namespace and id are required"))
  else
    e ← CRDWorkflowLocker_Acquire (oo_SessionNamespace options) (oo_SessionID options);
    match e with
    | Some x => Ret (None, Some x)
    | None =>
        r ← cleanup_locked;
        f ← call (OKube FenceErr);
        u ← call OReleaseLease;
        Ret (r.1, errors_Join [errors_Join [r.2; f]; u])
    end.
End cleanup.
