(* ===== verification/Planning.v ===== *)
(** * The planner's choice of a target node

    internal/planner/capacity.go (what the CSI drivers publish about free space),
    scheduling.go (whether a Pod fits a node) and the part of planner_target_node.go that
    picks a node.  Listing the capacity objects is I/O: its answer is an argument.
    [metav1.LabelSelectorAsSelector] is a parameter (class [LabelSelectors]).  Of a Pod,
    a node and a volume only what these functions read is modelled; a scheduling problem
    is data, its text is left out. *)

From S2P Require Import Prelude Utf8 GoErrors Lifecycle GoFormat TransferPath Prog KubeTypes Api ResourceState NodeSelection OrphanCleanup.

(** ** Data *)

(** [metav1.LabelSelector] and its conversion, [None] if that fails *)
Class LabelSelectors := {
  LabelSelector : Type;
  LabelSelectorAsSelector : LabelSelector -> option (gmap string string -> bool)
}.

Record CSIStorageCapacity `{LabelSelectors} := {
  cap_Namespace : string;
  cap_Name : string;
  cap_StorageClassName : string;
  cap_NodeTopology : option LabelSelector;
  cap_Capacity : option Quantity;
  cap_MaximumVolumeSize : option Quantity
}.

(** A node with what it has to give. *)
Record PlanNode := {
  pn_Node : Node;
  pn_Allocatable : gmap string Quantity
}.

Notation node_name n := (node_Name (pn_Node n)).

Record PlannedVolume := {
  pnv_SourcePVC : ObjectReference;
  pnv_SourcePV : ObjectReference;
  pnv_Capacity : string;
  pnv_StorageClass : string;
  pnv_CSIProvisioner : string
}.

Definition CapacityAwarenessAuto : string := "auto".
Definition CapacityAwarenessRequire : string := "require".
Definition CapacityAwarenessOff : string := "off".

Inductive StorageCapacityStatus := StorageCapacitySufficient | StorageCapacityInsufficient | StorageCapacityUnknown.

#[global] Instance StorageCapacityStatus_eq_dec : EqDecision StorageCapacityStatus.
Proof. solve_decision. Defined.

Record StorageCapacityReport := {
  scr_StorageClass : string;
  scr_CSIProvisioner : string;
  scr_TargetNode : string;
  scr_RequestedCapacity : string;
  scr_LargestVolume : string;
  scr_ReportedCapacity : string;
  scr_MaximumVolumeSize : string;
  scr_PublishedObjects : nat;
  scr_MatchingObjects : nat;
  scr_Status : StorageCapacityStatus;
  scr_Message : string
}.

Record capacityDemand := {
  dm_storageClass : string;
  dm_provisioner : string;
  dm_total : Quantity;
  dm_largest : Quantity;
  dm_volumes : nat
}.

Record capacityEvaluation := {
  ev_report : StorageCapacityReport;
  ev_surplus : Quantity
}.

Record storageCapacityInventory `{LabelSelectors} := {
  inv_mode : string;
  inv_loaded : bool;
  inv_items : list CSIStorageCapacity;
  inv_err : option err
}.

Definition show_nat (n : nat) : string := show_Z (Z.of_nat n).

Definition passed (name message : string) : Check :=
  {| check_Name := name; check_Severity := SeverityInfo; check_Passed := true; check_Message := message |}.
Definition failed (name message : string) : Check :=
  {| check_Name := name; check_Severity := SeverityError; check_Passed := false; check_Message := message |}.

(** ** Stable sorting *)

(** [slices.SortStableFunc]; [Lt], [Eq] and [Gt] stand for a negative, zero and positive
    result. *)
Fixpoint insert_by {A} (cmp : A -> A -> comparison) (x : A) (l : list A) : list A :=
  match l with
  | [] => [x]
  | y :: rest => match cmp x y with Gt => y :: insert_by cmp x rest | _ => x :: l end
  end.

Definition sort_by {A} (cmp : A -> A -> comparison) (l : list A) : list A := foldr (insert_by cmp) [] l.

(** The later criterion decides ties of the first. *)
Definition then_compare (c d : comparison) : comparison := match c with Eq => d | _ => c end.

(** ** Capacity (capacity.go) *)

Definition validCapacityAwareness (value : string) : bool :=
  ((value =s CapacityAwarenessAuto) || (value =s CapacityAwarenessRequire) || (value =s CapacityAwarenessOff))%bool.

Section capacity.
Context `{QT : QuantityText} `{LS : LabelSelectors}.

Definition loadStorageCapacity (mode : string) (answer : result (option (list CSIStorageCapacity)))
    : storageCapacityInventory :=
  let unread e := {| inv_mode := mode; inv_loaded := false; inv_items := []; inv_err := e |} in
  if ((mode =s CapacityAwarenessOff) || negb (validCapacityAwareness mode))%bool then unread None
  else
    match answer with
    | inr e => unread (Some e)
    | inl None => unread (Some (EText "CSIStorageCapacity list returned an empty object"))
    | inl (Some items) => {| inv_mode := mode; inv_loaded := true; inv_items := items; inv_err := None |}
    end.

Definition volume_claim (volume : PlannedVolume) : string :=
  sprint [Namespace (pnv_SourcePVC volume); "/"; Name (pnv_SourcePVC volume)].

Definition demand_of (volume : PlannedVolume) (previous : option capacityDemand) (capacity : Quantity) : capacityDemand :=
  let demand := default {| dm_storageClass := pnv_StorageClass volume; dm_provisioner := pnv_CSIProvisioner volume;
                           dm_total := 0%Z; dm_largest := 0%Z; dm_volumes := 0 |} previous in
  {| dm_storageClass := dm_storageClass demand; dm_provisioner := dm_provisioner demand;
     dm_total := (dm_total demand + capacity)%Z; dm_largest := if Z.ltb (dm_largest demand) capacity then capacity else dm_largest demand;
     dm_volumes := S (dm_volumes demand) |}.

Fixpoint add_demands (demands : gmap string capacityDemand) (volumes : list PlannedVolume)
    : result (gmap string capacityDemand) :=
  match volumes with
  | [] => inl demands
  | volume :: rest =>
      match ParseQuantity (pnv_Capacity volume) with
      | inr e =>
          inr (EWrap (sprint ["parse PVC "; volume_claim volume; " capacity "; quoted (pnv_Capacity volume); ": "; error_text e]) e)
      | inl capacity =>
          if Z.leb capacity 0 then
            inr (EText (sprint ["PVC "; volume_claim volume; " capacity "; quantity_string capacity; " must be positive"]))
          else
            let class := pnv_StorageClass volume in
            add_demands (<[class := demand_of volume (demands !! class) capacity]> demands) rest
      end
  end.

Definition capacityDemands (volumes : list PlannedVolume) : result (gmap string capacityDemand) := add_demands ∅ volumes.

Definition compare_objects (a b : CSIStorageCapacity) : comparison :=
  then_compare (String.compare (cap_Namespace a) (cap_Namespace b)) (String.compare (cap_Name a) (cap_Name b)).

Definition capacityObjectsForClass (items : list CSIStorageCapacity) (storageClass : string) : list CSIStorageCapacity :=
  sort_by compare_objects (List.filter (fun item => cap_StorageClassName item =s storageClass) items).

(** The labels a topology is matched against: the host name defaults to the node's name. *)
Definition topology_labels (node : PlanNode) : gmap string string :=
  let labels := node_Labels (pn_Node node) in
  match labels !! LabelHostname with
  | Some _ => labels
  | None => if node_name node <>s "" then <[LabelHostname := node_name node]> labels else labels
  end.

(** Whether an object applies to the node, [None] if its topology is invalid. *)
Definition object_applies (node : PlanNode) (item : CSIStorageCapacity) : option bool :=
  match cap_NodeTopology item with
  | None => Some true
  | Some topology =>
      match LabelSelectorAsSelector topology with
      | None => None
      | Some selector => Some (selector (topology_labels node))
      end
  end.

Definition matchingCapacityObjects (objects : list CSIStorageCapacity) (node : PlanNode) : list CSIStorageCapacity * nat :=
  (List.filter (fun item => bool_decide (object_applies node item = Some true)) objects,
   length (List.filter (fun item => bool_decide (object_applies node item = None)) objects)).

(** [maxCapacity], [maxVolume], [unknown], [sufficient] and [surplus] *)
Record capacityMatches := {
  cm_maxCapacity : option Quantity;
  cm_maxVolume : option Quantity;
  cm_unknown : bool;
  cm_sufficient : bool;
  cm_surplus : Quantity
}.

Definition larger (current : option Quantity) (value : Quantity) : option Quantity :=
  match current with
  | None => Some value
  | Some m => if Z.ltb m value then Some value else Some m
  end.

Definition size_exceeded (demand : capacityDemand) (item : CSIStorageCapacity) : bool :=
  match cap_MaximumVolumeSize item with Some m => Z.ltb m (dm_largest demand) | None => false end.

Definition match_object (demand : capacityDemand) (acc : capacityMatches) (item : CSIStorageCapacity) : capacityMatches :=
  let maxCapacity :=
    match cap_Capacity item with
    | Some c => if Z.ltb 0 c then larger (cm_maxCapacity acc) c else cm_maxCapacity acc
    | None => cm_maxCapacity acc
    end in
  let maxVolume := match cap_MaximumVolumeSize item with Some m => larger (cm_maxVolume acc) m | None => cm_maxVolume acc end in
  let result unknown sufficient surplus :=
    {| cm_maxCapacity := maxCapacity; cm_maxVolume := maxVolume; cm_unknown := unknown; cm_sufficient := sufficient;
       cm_surplus := surplus |} in
  let unchanged := result (cm_unknown acc) (cm_sufficient acc) (cm_surplus acc) in
  if size_exceeded demand item then unchanged
  else
    match cap_Capacity item with
    | None => result true (cm_sufficient acc) (cm_surplus acc)
    | Some c =>
        if (Z.leb c 0 || Z.ltb c (dm_total demand))%bool then unchanged
        else
          let candidate := (c - dm_total demand)%Z in
          result (cm_unknown acc) true (if Z.ltb (cm_surplus acc) candidate then candidate else cm_surplus acc)
    end.

Definition no_matches : capacityMatches :=
  {| cm_maxCapacity := None; cm_maxVolume := None; cm_unknown := false; cm_sufficient := false; cm_surplus := 0%Z |}.

Definition evaluateCapacityMatches (matching : list CSIStorageCapacity) (demand : capacityDemand) : capacityMatches :=
  foldl (match_object demand) no_matches matching.

(** The report without what was found out. *)
Definition blank_report (node : PlanNode) (demand : capacityDemand) : StorageCapacityReport :=
  {| scr_StorageClass := dm_storageClass demand; scr_CSIProvisioner := dm_provisioner demand; scr_TargetNode := node_name node;
     scr_RequestedCapacity := quantity_string (dm_total demand); scr_LargestVolume := quantity_string (dm_largest demand);
     scr_ReportedCapacity := ""; scr_MaximumVolumeSize := ""; scr_PublishedObjects := 0; scr_MatchingObjects := 0;
     scr_Status := StorageCapacityUnknown; scr_Message := "" |}.

Definition concluded (report : StorageCapacityReport) (published matching : nat) (reported maximum : string)
    (status : StorageCapacityStatus) (message : string) : StorageCapacityReport :=
  {| scr_StorageClass := scr_StorageClass report; scr_CSIProvisioner := scr_CSIProvisioner report;
     scr_TargetNode := scr_TargetNode report; scr_RequestedCapacity := scr_RequestedCapacity report;
     scr_LargestVolume := scr_LargestVolume report; scr_ReportedCapacity := reported; scr_MaximumVolumeSize := maximum;
     scr_PublishedObjects := published; scr_MatchingObjects := matching; scr_Status := status; scr_Message := message |}.

Definition without_surplus (report : StorageCapacityReport) : capacityEvaluation :=
  {| ev_report := report; ev_surplus := 0%Z |}.

(** The conclusion from the matching objects.  The text of the largest volume size is
    read back; it is the text of a quantity. *)
Definition evaluate_matches (node : PlanNode) (demand : capacityDemand) (published : nat) (matching : list CSIStorageCapacity)
    : capacityEvaluation :=
  let class := dm_storageClass demand in
  let found := evaluateCapacityMatches matching demand in
  let reported := match cm_maxCapacity found with Some q => quantity_string q | None => "" end in
  let maximum := match cm_maxVolume found with Some q => quantity_string q | None => "" end in
  let conclude status message :=
    {| ev_report := concluded (blank_report node demand) published (length matching) reported maximum status message;
       ev_surplus := cm_surplus found |} in
  if cm_sufficient found then
    conclude StorageCapacitySufficient
      (sprint ["StorageClass "; class; " reports at least "; reported; " available on target node "; node_name node; " for ";
               show_nat (dm_volumes demand); " PVC(s)"])
  else if cm_unknown found then
    conclude StorageCapacityUnknown
      (sprint ["StorageClass "; class; " has no reported available capacity for target node "; node_name node]
       +:+ if maximum <>s "" then sprint ["; maximumVolumeSize="; maximum; " permits the largest request"] else "")
  else
    conclude StorageCapacityInsufficient
      (if ((maximum <>s "")
           && match ParseQuantity maximum with inl m => Z.ltb m (dm_largest demand) | inr _ => false end)%bool then
         sprint ["StorageClass "; class; " maximumVolumeSize="; maximum; " is below the largest requested volume ";
                 quantity_string (dm_largest demand)]
       else
         sprint ["StorageClass "; class; " reports insufficient capacity for "; quantity_string (dm_total demand);
                 " requested on target node "; node_name node]).

Definition evaluate (inventory : option storageCapacityInventory) (node : PlanNode) (demand : capacityDemand)
    : capacityEvaluation :=
  let report := blank_report node demand in
  let class := dm_storageClass demand in
  let unavailable := "CSIStorageCapacity lookup is unavailable" in
  match inventory with
  | None => without_surplus (concluded report 0 0 "" "" StorageCapacityUnknown unavailable)
  | Some inventory =>
      if negb (inv_loaded inventory) then
        without_surplus (concluded report 0 0 "" "" StorageCapacityUnknown
          match inv_err inventory with
          | Some e => sprint ["read CSIStorageCapacity: "; error_text e]
          | None => unavailable
          end)
      else
        let objects := capacityObjectsForClass (inv_items inventory) class in
        let '(matching, invalidTopology) := matchingCapacityObjects objects node in
        if Nat.eqb (length objects) 0 then
          without_surplus (concluded report 0 0 "" "" StorageCapacityUnknown
            (sprint ["StorageClass "; class;
                     " has no published CSIStorageCapacity object; backend capacity is unknown"]))
        else if Nat.eqb (length matching) 0 then
          without_surplus
            (if Nat.ltb 0 invalidTopology then
               concluded report (length objects) 0 "" "" StorageCapacityUnknown
                 (sprint ["StorageClass "; class; " has "; show_nat invalidTopology;
                          " invalid CSIStorageCapacity topology object(s); target node "; node_name node;
                          " cannot be verified"])
             else
               concluded report (length objects) 0 "" "" StorageCapacityInsufficient
                 (sprint ["no CSIStorageCapacity object for StorageClass "; class; " matches target node "; node_name node]))
        else evaluate_matches node demand (length objects) matching
  end.

Record capacityScores := {
  cs_known : nat;
  cs_unknown : nat;
  cs_surplus : Quantity;
  cs_compatible : bool
}.

Definition score_demand (inventory : option storageCapacityInventory) (node : PlanNode) (acc : capacityScores)
    (demand : capacityDemand) : capacityScores :=
  let evaluation := evaluate inventory node demand in
  match scr_Status (ev_report evaluation) with
  | StorageCapacitySufficient =>
      {| cs_known := S (cs_known acc); cs_unknown := cs_unknown acc;
         cs_surplus := (cs_surplus acc + ev_surplus evaluation)%Z; cs_compatible := cs_compatible acc |}
  | StorageCapacityInsufficient =>
      {| cs_known := cs_known acc; cs_unknown := cs_unknown acc; cs_surplus := cs_surplus acc; cs_compatible := false |}
  | StorageCapacityUnknown =>
      {| cs_known := cs_known acc; cs_unknown := S (cs_unknown acc); cs_surplus := cs_surplus acc;
         cs_compatible := cs_compatible acc |}
  end.

Definition no_scores : capacityScores := {| cs_known := 0; cs_unknown := 0; cs_surplus := 0%Z; cs_compatible := true |}.

(** The loop runs over a map; its result does not depend on the order.  When the demands
    cannot be computed the map is nil. *)
Definition capacityScore (inventory : option storageCapacityInventory) (node : PlanNode) (volumes : list PlannedVolume)
    : capacityScores :=
  match inventory with
  | None => no_scores
  | Some i =>
      if ((inv_mode i =s CapacityAwarenessOff) || negb (inv_loaded i))%bool then no_scores
      else
        match capacityDemands volumes with
        | inr _ => no_scores
        | inl demands => foldl (score_demand inventory node) no_scores (map snd (map_to_list demands))
        end
  end.

Definition CheckNameStorageCapacity : string := "storage-capacity".

Definition capacity_check (mode : string) (report : StorageCapacityReport) : Check :=
  let check severity ok :=
    {| check_Name := CheckNameStorageCapacity; check_Severity := severity; check_Passed := ok;
       check_Message := scr_Message report |} in
  match scr_Status report with
  | StorageCapacitySufficient => check SeverityInfo true
  | StorageCapacityInsufficient => check SeverityError false
  | StorageCapacityUnknown =>
      if mode =s CapacityAwarenessRequire then check SeverityError false else check SeverityWarning true
  end.

(** The reports and the checks that are added. *)
Definition checkStorageCapacity (node : PlanNode) (volumes : list PlannedVolume)
    (inventory : option storageCapacityInventory) (mode : string) : list StorageCapacityReport * list Check :=
  match capacityDemands volumes with
  | inr e =>
      let required := mode =s CapacityAwarenessRequire in
      ([], [{| check_Name := CheckNameStorageCapacity;
               check_Severity := if required then SeverityError else SeverityWarning;
               check_Passed := negb required; check_Message := error_text e |}])
  | inl demands =>
      let reports :=
        map (fun demand => ev_report (evaluate inventory node demand))
          (omap (fun class => demands !! class) (slices_Sort (map fst (map_to_list demands)))) in
      (reports, map (capacity_check mode) reports)
  end.
End capacity.

(** ** Scheduling (scheduling.go) *)

Record PodVolume := {
  pvol_Name : string;
  pvol_HostPath : bool;                        (* of that kind *)
  pvol_Ephemeral : bool
}.

(** Of the affinity, the terms of the required node affinity; of a container, its
    requests. *)
Record PodSpec := {
  ps_NodeName : string;
  ps_SchedulerName : string;
  ps_NodeSelector : gmap string string;
  ps_RequiredNodeAffinity : option (list NodeSelectorTerm);
  ps_Tolerations : list Toleration;
  ps_Volumes : list PodVolume;
  ps_Containers : list (gmap string Quantity);
  ps_InitContainers : list (gmap string Quantity);
  ps_Overhead : gmap string Quantity
}.

Inductive schedulingIssue :=
| CustomScheduler (name : string)
| NodeLocalVolume (name : string)
| EphemeralVolume (name : string)
| SelectorUnsatisfied (key expected : string)
| AffinityUnsatisfied
| UntoleratedTaint (taint : Taint)
| RequestExceeds (resource : string) (request allocatable : Quantity).

Definition volume_issue (sourceNode targetNode : string) (volume : PodVolume) : option schedulingIssue :=
  if (pvol_HostPath volume && (sourceNode <>s targetNode))%bool then Some (NodeLocalVolume (pvol_Name volume))
  else if pvol_Ephemeral volume then Some (EphemeralVolume (pvol_Name volume))
  else None.

Definition podMigrationIssues (spec : PodSpec) (sourceNode targetNode : string) : list schedulingIssue :=
  (if ((ps_SchedulerName spec <>s "") && (ps_SchedulerName spec <>s "default-scheduler"))%bool
   then [CustomScheduler (ps_SchedulerName spec)] else [])
  ++ omap (volume_issue sourceNode targetNode) (ps_Volumes spec).

(** [all] is nil for a field. *)
Definition selectorRequirementMatches (requirement : NodeSelectorRequirement) (actual : string)
    (all : option (gmap string string)) : bool :=
  let exists_ :=
    match all with
    | None => actual <>s ""
    | Some labels => bool_decide (is_Some (labels !! requirement_Key requirement))
    end in
  let op := requirement_Operator requirement in
  if op =s "In" then (exists_ && contains (requirement_Values requirement) actual)%bool
  else if op =s "NotIn" then (negb exists_ || negb (contains (requirement_Values requirement) actual))%bool
  else if op =s "Exists" then exists_
  else if op =s "DoesNotExist" then negb exists_
  else if ((op =s "Gt") || (op =s "Lt"))%bool then
    match requirement_Values requirement with
    | [value] =>
        match ParseInt actual, ParseInt value with
        | Some l, Some r => if op =s "Gt" then Z.ltb r l else Z.ltb l r
        | _, _ => false
        end
    | _ => false
    end
  else false.

Definition nodeSelectorTermMatches (term : NodeSelectorTerm) (node : Node) : bool :=
  (forallb (fun requirement =>
      selectorRequirementMatches requirement (mget (node_Labels node) (requirement_Key requirement))
        (Some (node_Labels node))) (MatchExpressions term)
   && forallb (fun requirement =>
      selectorRequirementMatches requirement
        (if requirement_Key requirement =s "metadata.name" then node_Name node else "") None) (MatchFields term))%bool.

Definition toleration_covers (taint : Taint) (toleration : Toleration) : bool :=
  if ((toleration_Effect toleration <>s "") && (toleration_Effect toleration <>s taint_Effect taint))%bool then false
  else if toleration_Operator toleration =s "Exists" then
    ((toleration_Key toleration =s "") || (toleration_Key toleration =s taint_Key taint))%bool
  else ((toleration_Key toleration =s taint_Key taint) && (toleration_Value toleration =s taint_Value taint))%bool.

Definition tolerates (tolerations : list Toleration) (taint : Taint) : bool := existsb (toleration_covers taint) tolerations.

Definition hard_taint_effect (taint : Taint) : bool :=
  ((taint_Effect taint =s "NoSchedule") || (taint_Effect taint =s "NoExecute"))%bool.

Definition schedulingIssues (spec : PodSpec) (node : Node) : list schedulingIssue :=
  omap (fun key =>
      let expected := mget (ps_NodeSelector spec) key in
      if mget (node_Labels node) key <>s expected then Some (SelectorUnsatisfied key expected) else None)
    (slices_Sort (map fst (map_to_list (ps_NodeSelector spec))))
  ++ match ps_RequiredNodeAffinity spec with
     | Some terms =>
         if existsb (fun term => nodeSelectorTermMatches term node) terms then [] else [AffinityUnsatisfied]
     | None => []
     end
  ++ map UntoleratedTaint
       (List.filter (fun taint => hard_taint_effect taint && negb (tolerates (ps_Tolerations spec) taint))%bool (node_Taints node)).

Definition addResourceList (target source : gmap string Quantity) : gmap string Quantity :=
  union_with (fun current value => Some (current + value)%Z) target source.

(** An init container runs alone: the larger request counts. *)
Definition raise_requests (requests container : gmap string Quantity) : gmap string Quantity :=
  union_with (fun current request => Some (if Z.ltb current request then request else current)) requests container.

Definition podResourceRequests (spec : PodSpec) : gmap string Quantity :=
  addResourceList
    (foldl raise_requests (foldl addResourceList ∅ (ps_Containers spec)) (ps_InitContainers spec))
    (ps_Overhead spec).

(** The problems, here by resource name, and whether every request could be compared. *)
Definition resourceFitIssues (spec : PodSpec) (node : PlanNode) : list schedulingIssue * bool :=
  let requests := map_to_list (podResourceRequests spec) in
  if Nat.eqb (length requests) 0 then ([], true)
  else if Nat.eqb (size (pn_Allocatable node)) 0 then ([], false)
  else
    (omap (fun r =>
         match pn_Allocatable node !! r.1 with
         | Some allocatable => if Z.ltb allocatable r.2 then Some (RequestExceeds r.1 r.2 allocatable) else None
         | None => None
         end) requests,
     forallb (fun r => bool_decide (is_Some (pn_Allocatable node !! r.1))) requests).

(** ** Selection (planner_target_node.go) *)

Definition WorkloadStandalone : string := "StandalonePod".
Definition LabelTopologyZone : string := "topology.kubernetes.io/zone".
Definition LabelFailureDomainBetaZone : string := "failure-domain.beta.kubernetes.io/zone".

Definition availabilityZone (node : option Node) : string :=
  match node with
  | None => ""
  | Some node =>
      let zone := TrimSpace (mget (node_Labels node) LabelTopologyZone) in
      if zone <>s "" then zone else TrimSpace (mget (node_Labels node) LabelFailureDomainBetaZone)
  end.

Definition hardTaintCount (node : Node) : nat := length (List.filter hard_taint_effect (node_Taints node)).

Definition with_placement (spec : PodSpec) (nodeName : string) (selector : gmap string string) : PodSpec :=
  {| ps_NodeName := nodeName; ps_SchedulerName := ps_SchedulerName spec; ps_NodeSelector := selector;
     ps_RequiredNodeAffinity := ps_RequiredNodeAffinity spec; ps_Tolerations := ps_Tolerations spec;
     ps_Volumes := ps_Volumes spec; ps_Containers := ps_Containers spec; ps_InitContainers := ps_InitContainers spec;
     ps_Overhead := ps_Overhead spec |}.

(** A standalone Pod is recreated without its node and host name. *)
Definition recreated_spec (spec : PodSpec) (node : Node) : PodSpec :=
  let hostname := mget (ps_NodeSelector spec) LabelHostname in
  with_placement spec ""
    (if ((hostname <>s "") && (hostname <>s mget (node_Labels node) LabelHostname))%bool
     then delete LabelHostname (ps_NodeSelector spec) else ps_NodeSelector spec).

Definition schedulingIssuesForTarget (sourcePod : PodSpec) (workloadKind : string) (node : PlanNode) : list schedulingIssue :=
  if workloadKind =s WorkloadStandalone then
    let spec := recreated_spec sourcePod (pn_Node node) in
    schedulingIssues spec (pn_Node node) ++ (resourceFitIssues spec node).1
  else schedulingIssues sourcePod (pn_Node node).

Record targetNodeCandidate := {
  tc_node : PlanNode;
  tc_distinctFromSrc : bool;
  tc_taintPenalty : nat;
  tc_sourcePVMatches : nat;
  tc_capacityKnown : nat;
  tc_capacityUnknown : nat;
  tc_capacitySurplus : Quantity;
  tc_resourceUnknown : nat
}.

(** Better candidates first. *)
Definition compareTargetNodeCandidates (a b : targetNodeCandidate) : comparison :=
  then_compare (Nat.compare (tc_capacityKnown b) (tc_capacityKnown a))
  (then_compare (Nat.compare (tc_capacityUnknown a) (tc_capacityUnknown b))
  (then_compare (Nat.compare (tc_resourceUnknown a) (tc_resourceUnknown b))
  (then_compare (Z.compare (tc_capacitySurplus b) (tc_capacitySurplus a))
  (then_compare (Nat.compare (Nat.b2n (tc_distinctFromSrc b)) (Nat.b2n (tc_distinctFromSrc a)))
  (then_compare (Nat.compare (tc_taintPenalty a) (tc_taintPenalty b))
  (then_compare (Nat.compare (tc_sourcePVMatches b) (tc_sourcePVMatches a))
  (String.compare (node_name (tc_node a)) (node_name (tc_node b))))))))).

Section selection.
Context `{QT : QuantityText} `{LS : LabelSelectors}.
Context (workloadKind : string) (sourcePod : option PodSpec) (sourceNode sourceZone : string).
Context (volumes : list PlannedVolume) (sourcePVs : gmap string PV) (storageClasses : gmap string StorageClass).
Context (capacityInventory : option storageCapacityInventory).

Definition standalone : bool := workloadKind =s WorkloadStandalone.

(** What the Pod says of the node: [None] if it cannot run there, otherwise whether its
    resources could not be verified. *)
Definition pod_fits (node : PlanNode) : option nat :=
  match sourcePod with
  | None => Some 0
  | Some spec =>
      if negb (Nat.eqb (length (schedulingIssuesForTarget spec workloadKind node)) 0) then None
      else
        let '(resourceIssues, known) :=
          if standalone then resourceFitIssues (with_placement spec "" (ps_NodeSelector spec)) node else ([], true) in
        if negb (Nat.eqb (length resourceIssues) 0) then None
        else if negb (Nat.eqb (length (podMigrationIssues spec sourceNode (node_name node))) 0) then None
        else Some (if known then 0 else 1)
  end.

Definition class_allows (node : PlanNode) (volume : PlannedVolume) : bool :=
  match storageClasses !! pnv_StorageClass volume with
  | Some sc => StorageClassAllowsNode (Some sc) (Some (pn_Node node))
  | None => true
  end.

Definition source_supports (node : PlanNode) (volume : PlannedVolume) : bool :=
  match sourcePVs !! Name (pnv_SourcePV volume) with
  | Some pv => PVSupportsNode pv (pn_Node node)
  | None => false
  end.

Definition targetNodeCandidateFor (node : PlanNode) : option targetNodeCandidate :=
  if (negb (NodeReadyAndSchedulable (Some (pn_Node node)))
      || ((sourceZone <>s "") && (availabilityZone (Some (pn_Node node)) <>s sourceZone)))%bool then None
  else
    match pod_fits node with
    | None => None
    | Some resourceUnknown =>
        if negb (forallb (class_allows node) volumes) then None
        else
          let scores := capacityScore capacityInventory node volumes in
          if negb (cs_compatible scores) then None
          else
            Some {| tc_node := node; tc_distinctFromSrc := ((sourceNode =s "") || (node_name node <>s sourceNode))%bool;
                    tc_taintPenalty := hardTaintCount (pn_Node node);
                    tc_sourcePVMatches := length (List.filter (source_supports node) volumes);
                    tc_capacityKnown := cs_known scores; tc_capacityUnknown := cs_unknown scores;
                    tc_capacitySurplus := cs_surplus scores; tc_resourceUnknown := resourceUnknown |}
    end.

Definition CheckNameTargetNode : string := "target-node".
Definition CheckNameTargetNodeSelection : string := "target-node-selection".

(** [nil] accepts every node. *)
Definition placed (placement : option (string -> bool)) (candidate : targetNodeCandidate) : bool :=
  match placement with Some accepts => accepts (node_name (tc_node candidate)) | None => true end.

Definition no_candidate_message (placementRejected : nat) : string :=
  sprint ["no Ready and schedulable node satisfies Pod scheduling and destination StorageClass topology";
          (if Nat.ltb 0 placementRejected then " and the recreated Pod's placement constraints" else "");
          match capacityInventory with
          | Some i => if (inv_loaded i && Nat.ltb 0 (length (inv_items i)))%bool
                      then " with sufficient CSI-reported capacity" else ""
          | None => ""
          end].

Definition selection_reasons (placement : option (string -> bool)) (candidates : nat) (selected : targetNodeCandidate)
    : list string :=
  ["topology-compatible Ready node"]
  ++ (match placement with Some _ => ["satisfies the recreated Pod's placement constraints"] | None => [] end)
  ++ (if Nat.ltb 0 (tc_capacityKnown selected)
      then [sprint ["CSI capacity verified for "; show_nat (tc_capacityKnown selected); " StorageClass(es)"]] else [])
  ++ (if sourceNode =s "" then []
      else if node_name (tc_node selected) <>s sourceNode then ["distinct from source " +:+ sourceNode]
      else if Nat.eqb candidates 1 then [sprint ["only compatible node; source node "; sourceNode; " is retained"]]
      else []).

(** The node and the check that is added. *)
Definition selectTargetNodeFromNodesWithZone (nodes : list PlanNode) (listErr : option err)
    (placement : option (string -> bool)) : option PlanNode * Check :=
  if Nat.eqb (length volumes) 0 then
    (None, failed CheckNameTargetNode "target node auto-selection requires at least one valid source PVC")
  else
  match listErr with
  | Some e => (None, failed CheckNameTargetNode (sprint ["list nodes for auto-selection: "; error_text e]))
  | None =>
      let compatible := omap targetNodeCandidateFor nodes in
      let candidates := List.filter (placed placement) compatible in
      match sort_by compareTargetNodeCandidates candidates with
      | [] => (None, failed CheckNameTargetNode (no_candidate_message (length compatible - length candidates)))
      | selected :: _ =>
          (Some (tc_node selected),
           passed CheckNameTargetNodeSelection
             (sprint ["auto selected target node "; node_name (tc_node selected); " (";
                      strings_join ", " (selection_reasons placement (length candidates) selected); ")"]))
      end
  end.
End selection.

(** ** Sorting facts *)

(** A comparison that orders its arguments up to ties. *)
Record orders {A} (cmp : A -> A -> comparison) : Prop := {
  ord_sym : forall a b, cmp b a = CompOpp (cmp a b);
  ord_eq : forall a b c, cmp a b = Eq -> cmp a c = cmp b c;
  ord_lt : forall a b c, cmp a b = Lt -> cmp b c = Lt -> cmp a c = Lt
}.

Lemma orders_by {A B} (f : A -> B) cmp : orders cmp -> orders (fun a b => cmp (f a) (f b)).
Proof. intros [H1 H2 H3]. split; eauto. Qed.

Lemma orders_flip {A} (cmp : A -> A -> comparison) : orders cmp -> orders (fun a b => cmp b a).
Proof.
  intros [H1 H2 H3]. split; [done| |eauto]. intros a b c H. rewrite (H1 a c), (H1 b c). f_equal. apply H2.
  by rewrite (H1 b a), H.
Qed.

Lemma orders_then {A} (c d : A -> A -> comparison) :
  orders c -> orders d -> orders (fun a b => then_compare (c a b) (d a b)).
Proof.
  intros [C1 C2 C3] [D1 D2 D3]. unfold then_compare. split.
  - intros a b. rewrite (C1 a b), (D1 a b). by destruct (c a b).
  - intros a b e. destruct (c a b) eqn:E; [|done|done]. intros H. by rewrite (C2 _ _ e E), (D2 _ _ e H).
  - intros a b e. destruct (c a b) eqn:E1; [|destruct (c b e) eqn:E2; intros ? ?|done].
    + rewrite (C2 _ _ e E1). destruct (c b e); eauto.
    + by rewrite (C1 e a), (C2 e b a), (C1 a b), E1 by (by rewrite (C1 b e), E2).
    + by rewrite (C3 a b e).
    + done.
Qed.

Lemma orders_nat : orders Nat.compare.
Proof.
  split.
  - intros a b. apply Nat.compare_antisym.
  - by intros a b c ->%Nat.compare_eq_iff.
  - intros a b c. rewrite !Nat.compare_lt_iff. lia.
Qed.

Lemma orders_Z : orders Z.compare.
Proof.
  split.
  - intros a b. apply Z.compare_antisym.
  - by intros a b c ->%Z.compare_eq_iff.
  - intros a b c. rewrite !Z.compare_lt_iff. lia.
Qed.

Lemma orders_string : orders String.compare.
Proof.
  split.
  - intros a b. apply String.compare_antisym.
  - by intros a b c ->%String.compare_eq_iff.
  - induction a as [|x a IH]; intros [|y b] [|z c]; simpl; try done. unfold Ascii.compare.
    destruct (N.compare_spec (Ascii.N_of_ascii x) (Ascii.N_of_ascii y)) as [E1|E1|E1]; [|intros _|done];
    destruct (N.compare_spec (Ascii.N_of_ascii y) (Ascii.N_of_ascii z)) as [E2|E2|E2]; try done; intros H;
      try (rewrite (proj2 (N.compare_lt_iff _ _)) by lia; done).
    rewrite (proj2 (N.compare_eq_iff _ _)) by lia. by apply IH.
Qed.

#[local] Hint Resolve orders_nat orders_Z orders_string : core.

Lemma candidates_ordered : orders compareTargetNodeCandidates.
Proof.
  unfold compareTargetNodeCandidates.
  apply (orders_then (fun a b => Nat.compare (tc_capacityKnown b) (tc_capacityKnown a))); [apply orders_flip, orders_by; auto|].
  apply (orders_then (fun a b => Nat.compare (tc_capacityUnknown a) (tc_capacityUnknown b))); [apply orders_by; auto|].
  apply (orders_then (fun a b => Nat.compare (tc_resourceUnknown a) (tc_resourceUnknown b))); [apply orders_by; auto|].
  apply (orders_then (fun a b => Z.compare (tc_capacitySurplus b) (tc_capacitySurplus a))); [apply orders_flip, orders_by; auto|].
  apply (orders_then (fun a b => Nat.compare (Nat.b2n (tc_distinctFromSrc b)) (Nat.b2n (tc_distinctFromSrc a))));
    [apply orders_flip, (orders_by (fun a => Nat.b2n (tc_distinctFromSrc a))); auto|].
  apply (orders_then (fun a b => Nat.compare (tc_taintPenalty a) (tc_taintPenalty b))); [apply orders_by; auto|].
  apply (orders_then (fun a b => Nat.compare (tc_sourcePVMatches b) (tc_sourcePVMatches a))); [apply orders_flip, orders_by; auto|].
  apply (orders_by (fun a => node_name (tc_node a))). auto.
Qed.

Section sorting.
Context {A : Type} (cmp : A -> A -> comparison) (Hcmp : orders cmp).

Lemma ord_refl a : cmp a a = Eq.
Proof. pose proof (ord_sym _ Hcmp a a) as H. by destruct (cmp a a). Qed.

Lemma ord_trans a b c : cmp a b <> Gt -> cmp b c <> Gt -> cmp a c <> Gt.
Proof.
  destruct (cmp a b) eqn:E1; [|destruct (cmp b c) eqn:E2|done].
  - by rewrite (ord_eq _ Hcmp _ _ c E1).
  - intros _ _. rewrite (ord_sym _ Hcmp c a), (ord_eq _ Hcmp c b a), (ord_sym _ Hcmp a b), E1; [done|].
    by rewrite (ord_sym _ Hcmp b c), E2.
  - intros _ _. by rewrite (ord_lt _ Hcmp a b c).
  - done.
Qed.

Lemma ord_total a b : cmp a b = Gt -> cmp b a <> Gt.
Proof. intros H. by rewrite (ord_sym _ Hcmp a b), H. Qed.

Lemma insert_by_perm x l : insert_by cmp x l ≡ₚ x :: l.
Proof.
  induction l as [|y l IH]; simpl; [done|]. destruct (cmp x y); [done|done|]. rewrite IH. apply Permutation_swap.
Qed.

Lemma sort_by_perm l : sort_by cmp l ≡ₚ l.
Proof. induction l as [|x l IH]; simpl; [done|]. by rewrite insert_by_perm, IH. Qed.

Lemma insert_by_head x l y :
  (forall z, z ∈ l -> cmp y z <> Gt) -> head l = Some y ->
  forall w, head (insert_by cmp x l) = Some w -> forall z, z ∈ x :: l -> cmp w z <> Gt.
Proof.
  destruct l as [|y' l]; [done|]. intros Hmin [= ->] w. simpl.
  destruct (cmp x y) eqn:E; simpl; intros [= <-] z; intros [->|Hz]%elem_of_cons.
  - by rewrite ord_refl.
  - apply (ord_trans x y z); [by rewrite E|by apply Hmin].
  - by rewrite ord_refl.
  - apply (ord_trans x y z); [by rewrite E|by apply Hmin].
  - by apply ord_total.
  - by apply Hmin.
Qed.

Lemma sort_by_head l w : head (sort_by cmp l) = Some w -> w ∈ l /\ forall z, z ∈ l -> cmp w z <> Gt.
Proof.
  intros Hw. split.
  { rewrite <- (sort_by_perm l). destruct (sort_by cmp l); [done|]. injection Hw as <-. left. }
  revert w Hw. induction l as [|x l IH]; [done|]. intros w Hw z Hz.
  destruct (head (sort_by cmp l)) as [y|] eqn:Hy.
  - eapply (insert_by_head x (sort_by cmp l) y); [|done|exact Hw|].
    + intros z' Hz'. apply (IH y eq_refl). by rewrite <- (sort_by_perm l).
    + rewrite (sort_by_perm l). exact Hz.
  - destruct (sort_by cmp l) eqn:Hs; [|done]. pose proof (sort_by_perm l) as Hp. rewrite Hs in Hp.
    apply Permutation_nil_l in Hp as <-. injection Hw as <-.
    apply list_elem_of_singleton in Hz as ->. by rewrite ord_refl.
Qed.
End sorting.

(** ** Capacity is judged exactly *)

Section exact.
Context `{QT : QuantityText} `{LS : LabelSelectors}.
Implicit Types (item : CSIStorageCapacity) (demand : capacityDemand) (node : PlanNode).

(** An object that has room for the demand, and one that does not say. *)
Definition fits demand item : bool :=
  (negb (size_exceeded demand item)
   && match cap_Capacity item with Some c => Z.ltb 0 c && Z.leb (dm_total demand) c | None => false end)%bool.
Definition unreported demand item : bool :=
  (negb (size_exceeded demand item) && bool_decide (cap_Capacity item = None))%bool.

Lemma match_object_spec demand acc item :
  let acc' := match_object demand acc item in
  cm_sufficient acc' = (cm_sufficient acc || fits demand item)%bool /\
  cm_unknown acc' = (cm_unknown acc || unreported demand item)%bool /\
  cm_surplus acc' =
    (if fits demand item then Z.max (cm_surplus acc) (default 0 (cap_Capacity item) - dm_total demand) else cm_surplus acc)%Z.
Proof.
  unfold match_object, fits, unreported. cbv zeta. destruct (size_exceeded demand item); cbn; [by rewrite !orb_false_r|].
  destruct (cap_Capacity item) as [c|]; cbn; [|by rewrite orb_false_r, orb_true_r].
  destruct (Z.leb_spec c 0), (Z.ltb_spec c (dm_total demand)), (Z.ltb_spec 0 c), (Z.leb_spec (dm_total demand) c); cbn;
    try lia; rewrite ?orb_false_r, ?orb_true_r; try done.
  split_and!; [done|done|]. destruct (Z.ltb_spec (cm_surplus acc) (c - dm_total demand)); lia.
Qed.

Lemma surplus_zero demand (l : list CSIStorageCapacity) :
  existsb (fits demand) l = false -> cm_surplus (foldl (match_object demand) no_matches l) = 0%Z.
Proof.
  induction l as [|j l IH] using rev_ind; [done|]. rewrite foldl_app, existsb_app. cbn [foldl existsb].
  rewrite orb_false_r. intros [Hl Hj]%orb_false_iff.
  pose proof (match_object_spec demand (foldl (match_object demand) no_matches l) j) as (_ & _ & ->). rewrite Hj. by apply IH.
Qed.

Lemma evaluateCapacityMatches_spec demand (l : list CSIStorageCapacity) :
  let found := evaluateCapacityMatches l demand in
  cm_sufficient found = existsb (fits demand) l /\ cm_unknown found = existsb (unreported demand) l /\
  (forall item c, item ∈ l -> fits demand item = true -> cap_Capacity item = Some c -> (c - dm_total demand <= cm_surplus found)%Z) /\
  (cm_sufficient found = true -> exists item c, item ∈ l /\ fits demand item = true /\ cap_Capacity item = Some c /\
     (c - dm_total demand = cm_surplus found)%Z).
Proof.
  cbv zeta. unfold evaluateCapacityMatches. induction l as [|item l IH] using rev_ind.
  { cbn. split_and!; [done|done|by intros ? ? ?%not_elem_of_nil|done]. }
  rewrite foldl_app. cbn [foldl]. destruct IH as (I1 & I2 & I3 & I4).
  pose proof (match_object_spec demand (foldl (match_object demand) no_matches l) item) as (S1 & S2 & S3).
  rewrite !existsb_app. cbn [existsb]. rewrite !orb_false_r, S1, S2, S3, I1, I2. split_and!; [done|done| |].
  - intros i c [Hi| ->%list_elem_of_singleton]%elem_of_app Hf Hc.
    + pose proof (I3 i c Hi Hf Hc). case_match; lia.
    + rewrite Hf, Hc. cbn. lia.
  - intros Hs. destruct (fits demand item) eqn:Hf; [|rewrite orb_false_r in Hs].
    + assert (exists c, cap_Capacity item = Some c /\ (0 <= c - dm_total demand)%Z) as (c & Hc & Hle).
      { unfold fits in Hf. destruct (cap_Capacity item) as [c|]; [|by rewrite andb_false_r in Hf]. exists c.
        apply andb_true_iff in Hf as [_ Hf]. apply andb_true_iff in Hf as [_ Hf%Z.leb_le]. split; [done|lia]. }
      rewrite Hc. cbn. destruct (Z.max_spec (cm_surplus (foldl (match_object demand) no_matches l)) (c - dm_total demand))
        as [[_ Hm]|[Hge Hm]]; rewrite Hm.
      { exists item, c. split_and!; [set_solver|done|done|done]. }
      destruct (existsb (fits demand) l) eqn:Hl.
      * destruct (I4 ltac:(by rewrite I1)) as (i & c' & Hi & Hf' & Hc' & Heq). exists i, c'. split_and!; [set_solver|done..].
      * exists item, c. split_and!; [set_solver|done|done|].
        assert (cm_surplus (foldl (match_object demand) no_matches l) = 0%Z) as H0; [|lia].
        by apply surplus_zero.
    + destruct (I4 ltac:(by rewrite I1)) as (i & c' & Hi & Hf' & Hc' & Heq). exists i, c'. split_and!; [set_solver|done..].
Qed.

(** The objects of a class, and those that apply to a node. *)
Definition published (inventory : storageCapacityInventory) demand item : Prop :=
  item ∈ inv_items inventory /\ cap_StorageClassName item = dm_storageClass demand.
Definition applicable (inventory : storageCapacityInventory) node demand item : Prop :=
  published inventory demand item /\ object_applies node item = Some true.

Lemma elem_of_class (inventory : storageCapacityInventory) demand item :
  item ∈ capacityObjectsForClass (inv_items inventory) (dm_storageClass demand) <-> published inventory demand item.
Proof.
  unfold capacityObjectsForClass, published. rewrite sort_by_perm, list_elem_of_In, filter_In, <- list_elem_of_In.
  by rewrite String.eqb_eq.
Qed.

Lemma elem_of_matching (objects : list CSIStorageCapacity) node item :
  item ∈ (matchingCapacityObjects objects node).1 <-> item ∈ objects /\ object_applies node item = Some true.
Proof. cbn. rewrite list_elem_of_In, filter_In, <- list_elem_of_In, bool_decide_eq_true. done. Qed.

Lemma existsb_elem {A} (f : A -> bool) l : existsb f l = true <-> exists x, x ∈ l /\ f x = true.
Proof. rewrite existsb_exists. by setoid_rewrite <- list_elem_of_In. Qed.

Lemma existsb_none {A} (f : A -> bool) l : existsb f l = false <-> forall x, x ∈ l -> f x = false.
Proof.
  rewrite <- not_true_iff_false, existsb_elem. split.
  - intros H x Hx. apply not_true_iff_false. intros Hf. apply H. by exists x.
  - intros H (x & Hx & Hf). by rewrite (H x Hx) in Hf.
Qed.

(** Of a loaded inventory: what decides the status. *)
Definition insufficient (inventory : storageCapacityInventory) node demand : Prop :=
  (exists item, published inventory demand item) /\
  (forall item, applicable inventory node demand item -> fits demand item = false /\ unreported demand item = false) /\
  ((exists item, applicable inventory node demand item) \/
   forall item, published inventory demand item -> object_applies node item <> None).

Lemma no_objects {A} (l : list A) : length l = 0 <-> forall x, ~ x ∈ l.
Proof.
  destruct l as [|y l]; split; try done.
  - by intros _ x ?%not_elem_of_nil.
  - intros H. exfalso. apply (H y). left.
Qed.

(** The verdict: exactly when it is sufficient, with the largest surplus, and exactly when
    it is insufficient. *)
Definition judged (inventory : storageCapacityInventory) node demand (evaluation : capacityEvaluation) : Prop :=
  (scr_Status (ev_report evaluation) = StorageCapacitySufficient <->
     exists item, applicable inventory node demand item /\ fits demand item = true) /\
  (scr_Status (ev_report evaluation) = StorageCapacityInsufficient <-> insufficient inventory node demand) /\
  (scr_Status (ev_report evaluation) = StorageCapacitySufficient ->
     (exists item c, applicable inventory node demand item /\ fits demand item = true /\ cap_Capacity item = Some c /\
        ev_surplus evaluation = (c - dm_total demand)%Z) /\
     forall item c, applicable inventory node demand item -> fits demand item = true -> cap_Capacity item = Some c ->
       (c - dm_total demand <= ev_surplus evaluation)%Z).

Lemma elem_of_applicable (inventory : storageCapacityInventory) node demand item :
  item ∈ (matchingCapacityObjects (capacityObjectsForClass (inv_items inventory) (dm_storageClass demand)) node).1
  <-> applicable inventory node demand item.
Proof. rewrite elem_of_matching, elem_of_class. done. Qed.

Lemma topologies_read (inventory : storageCapacityInventory) node demand :
  (matchingCapacityObjects (capacityObjectsForClass (inv_items inventory) (dm_storageClass demand)) node).2 = 0
  <-> forall item, published inventory demand item -> object_applies node item <> None.
Proof.
  cbn. rewrite no_objects. setoid_rewrite <- elem_of_class. split.
  - intros H item Hi Hn. apply (H item). rewrite list_elem_of_In, filter_In, <- list_elem_of_In. by rewrite Hn.
  - intros H item. rewrite list_elem_of_In, filter_In, <- list_elem_of_In, bool_decide_eq_true. intros [Hi Hn]. by apply (H item).
Qed.

Lemma evaluate_matches_judged (inventory : storageCapacityInventory) node demand n (matching : list CSIStorageCapacity) :
  (forall item, item ∈ matching <-> applicable inventory node demand item) -> length matching <> 0 ->
  (exists item, published inventory demand item) -> judged inventory node demand (evaluate_matches node demand n matching).
Proof.
  intros Hmatch Hz Hpub.
  assert (exists item, applicable inventory node demand item) as Happ.
  { destruct matching as [|item rest]; [done|]. exists item. apply Hmatch. left. }
  unfold judged, evaluate_matches. cbv zeta.
  destruct (evaluateCapacityMatches_spec demand matching) as (S1 & S2 & S3 & S4).
  destruct (cm_sufficient _) eqn:Es.
  { cbn. symmetry in S1. apply existsb_elem in S1 as (item & Hi & Hf). split_and!.
    - split; [|done]. intros _. exists item. by rewrite <- Hmatch.
    - split; [done|]. intros (_ & Hall & _). destruct (Hall item) as [Hff _]; [by apply Hmatch|]. by rewrite Hf in Hff.
    - intros _. split.
      + destruct (S4 eq_refl) as (i & c & Hi' & Hf' & Hc & Heq). exists i, c. rewrite <- Hmatch. by split_and!.
      + intros i c Ha. apply Hmatch in Ha. by apply S3. }
  symmetry in S1. rewrite existsb_none in S1.
  assert (~ exists item, applicable inventory node demand item /\ fits demand item = true) as Hno.
  { intros (item & Ha & Hf). rewrite <- Hmatch in Ha. by rewrite (S1 item Ha) in Hf. }
  destruct (cm_unknown _) eqn:Eu; cbn; split_and!; try done.
  - split; [done|]. intros (_ & Hall & _). symmetry in S2. apply existsb_elem in S2 as (item & Hi & Hf).
    destruct (Hall item) as [_ Hff]; [by apply Hmatch|]. by rewrite Hf in Hff.
  - split; [|done]. intros _. symmetry in S2. rewrite existsb_none in S2. split; [done|]. split; [|by left].
    intros item Ha. apply Hmatch in Ha. split; [by apply S1|by apply S2].
Qed.

Lemma evaluate_judged (inventory : storageCapacityInventory) node demand :
  inv_loaded inventory = true -> judged inventory node demand (evaluate (Some inventory) node demand).
Proof.
  intros Hl. unfold evaluate. rewrite Hl. cbn [negb].
  pose proof (elem_of_applicable inventory node demand) as Hmatch. pose proof (topologies_read inventory node demand) as Hinv.
  destruct (matchingCapacityObjects _ node) as [matching invalid]. cbn [fst snd] in *.
  destruct (Nat.eqb_spec (length (capacityObjectsForClass (inv_items inventory) (dm_storageClass demand))) 0) as [He|He].
  { rewrite no_objects in He. setoid_rewrite elem_of_class in He. split_and!; [| |done].
    - split; [done|]. intros (item & [Hp _] & _). by destruct (He item).
    - split; [done|]. intros ((item & Hp) & _). by destruct (He item). }
  assert (exists item, published inventory demand item) as Hpub.
  { destruct (capacityObjectsForClass (inv_items inventory) (dm_storageClass demand)) as [|item rest] eqn:Hc; [done|].
    exists item. apply elem_of_class. rewrite Hc. left. }
  destruct (Nat.eqb_spec (length matching) 0) as [Hz|Hz]; [|by apply evaluate_matches_judged].
  rewrite no_objects in Hz. setoid_rewrite Hmatch in Hz.
  assert (~ exists item, applicable inventory node demand item /\ fits demand item = true) as Hno.
  { intros (item & Ha & _). by destruct (Hz item). }
  destruct (Nat.ltb_spec 0 invalid) as [Hi|Hi]; split_and!; try done.
  - split; [done|]. intros (_ & _ & [(item & Ha)|Hall]); [by destruct (Hz item)|]. apply Hinv in Hall. lia.
  - split; [|done]. intros _. split; [done|]. split; [by intros item Ha; destruct (Hz item)|]. right. apply Hinv. lia.
Qed.
End exact.

(** C34: the capacity of a node is judged exactly by what the drivers publish.  For a
    loaded inventory, any node and any demand, the verdict is sufficient if and only if
    some published object of the class applies to the node (its topology selects it),
    reports a positive capacity that covers the whole demand and does not exclude the
    largest volume; the surplus is then the largest such excess.  It is insufficient if
    and only if objects of the class are published, every applicable one is too small or
    excludes the volume, and either one applies or every topology could be read; in all
    other cases, and without an inventory, it is unknown. *)
Theorem capacity_status_exact `{QT : QuantityText} `{LS : LabelSelectors} (inventory : storageCapacityInventory)
    (node : PlanNode) (demand : capacityDemand) :
  scr_Status (ev_report (evaluate None node demand)) = StorageCapacityUnknown /\
  (inv_loaded inventory = false -> scr_Status (ev_report (evaluate (Some inventory) node demand)) = StorageCapacityUnknown) /\
  (inv_loaded inventory = true -> judged inventory node demand (evaluate (Some inventory) node demand)).
Proof. split; [done|]. split; [intros H; cbn; by rewrite H|apply evaluate_judged]. Qed.

(** ** The best node is chosen *)

Lemma omap_perm {A B} (f : A -> option B) (l l' : list A) : l ≡ₚ l' -> omap f l ≡ₚ omap f l'.
Proof.
  induction 1 as [|x l l' _ IH|x y l|l l' l'' _ IH1 _ IH2]; cbn; [done| | |by etrans].
  - by destruct (f x); [constructor|].
  - destruct (f x), (f y); done || constructor.
Qed.

Lemma filter_perm {A} (f : A -> bool) (l l' : list A) : l ≡ₚ l' -> List.filter f l ≡ₚ List.filter f l'.
Proof.
  induction 1 as [|x l l' _ IH|x y l|l l' l'' _ IH1 _ IH2]; cbn; [done| | |by etrans].
  - by destruct (f x); [constructor|].
  - destruct (f x), (f y); done || constructor.
Qed.

Section choice.
Context `{QT : QuantityText} `{LS : LabelSelectors}.
Context (workloadKind : string) (sourcePod : option PodSpec) (sourceNode sourceZone : string).
Context (volumes : list PlannedVolume) (sourcePVs : gmap string PV) (storageClasses : gmap string StorageClass).
Context (inventory : option storageCapacityInventory).
Notation candidate_of :=
  (targetNodeCandidateFor workloadKind sourcePod sourceNode sourceZone volumes sourcePVs storageClasses inventory).
Notation select :=
  (selectTargetNodeFromNodesWithZone workloadKind sourcePod sourceNode sourceZone volumes sourcePVs storageClasses inventory).

Definition candidates (nodes : list PlanNode) (placement : option (string -> bool)) : list targetNodeCandidate :=
  List.filter (placed placement) (omap candidate_of nodes).

Lemma elem_of_candidates nodes placement c :
  c ∈ candidates nodes placement <-> (exists node, node ∈ nodes /\ candidate_of node = Some c) /\ placed placement c = true.
Proof.
  unfold candidates. rewrite list_elem_of_In, filter_In, <- list_elem_of_In, list_elem_of_omap. done.
Qed.

Lemma candidates_perm nodes nodes' placement : nodes ≡ₚ nodes' -> candidates nodes placement ≡ₚ candidates nodes' placement.
Proof. intros H. by apply filter_perm, omap_perm. Qed.

(** What makes a node a candidate. *)
Lemma candidate_ok node c :
  candidate_of node = Some c ->
  tc_node c = node /\ NodeReadyAndSchedulable (Some (pn_Node node)) = true /\
  (sourceZone = "" \/ availabilityZone (Some (pn_Node node)) = sourceZone) /\
  is_Some (pod_fits workloadKind sourcePod sourceNode node) /\ Forall (fun v => class_allows storageClasses node v = true) volumes /\
  cs_compatible (capacityScore inventory node volumes) = true /\
  tc_capacityKnown c = cs_known (capacityScore inventory node volumes).
Proof.
  unfold targetNodeCandidateFor. case_test; [done|]. destruct (pod_fits _ _ _ node) as [u|] eqn:Hp; [|done].
  destruct (negb (forallb _ volumes)) eqn:Hf; [done|]. destruct (negb (cs_compatible _)) eqn:Hc; [done|]. intros [= <-].
  apply orb_false_iff in Heqb as [Hr Hz]. apply negb_false_iff in Hr, Hf, Hc. cbn. split_and!; try done.
  - destruct (String.eqb_spec sourceZone ""); [by left|]. cbn in Hz. apply negb_false_iff, String.eqb_eq in Hz. by right.
  - apply Forall_forall. rewrite forallb_forall in Hf. intros v Hv. apply Hf. by apply list_elem_of_In.
Qed.

Lemma compare_name a b : compareTargetNodeCandidates a b = Eq -> node_name (tc_node a) = node_name (tc_node b).
Proof.
  unfold compareTargetNodeCandidates, then_compare. repeat case_match; try done. by intros ?%String.compare_eq_iff.
Qed.

Lemma compare_known a b : compareTargetNodeCandidates a b <> Gt -> tc_capacityKnown b <= tc_capacityKnown a.
Proof.
  unfold compareTargetNodeCandidates. destruct (Nat.compare_spec (tc_capacityKnown b) (tc_capacityKnown a)); cbn; [lia|lia|done].
Qed.

(** Two best candidates are the same. *)
Lemma best_unique nodes placement a b :
  NoDup (map (fun n => node_name n) nodes) -> a ∈ candidates nodes placement -> b ∈ candidates nodes placement ->
  compareTargetNodeCandidates a b <> Gt -> compareTargetNodeCandidates b a <> Gt -> a = b.
Proof.
  intros Hnd ((na & Ha & Hca) & _)%elem_of_candidates ((nb & Hb & Hcb) & _)%elem_of_candidates H1 H2.
  assert (compareTargetNodeCandidates a b = Eq) as Heq%compare_name.
  { pose proof (ord_sym _ candidates_ordered a b) as Hs. destruct (compareTargetNodeCandidates a b); [done| |done].
    by rewrite Hs in H2. }
  pose proof (candidate_ok na a Hca) as (Ea & _). pose proof (candidate_ok nb b Hcb) as (Eb & _). rewrite Ea, Eb in Heq.
  assert (na = nb) as ->; [|congruence].
  apply list_elem_of_lookup in Ha as [i Hi], Hb as [j Hj].
  assert (i = j) as ->; [|congruence]. eapply NoDup_lookup; [exact Hnd| |].
  - rewrite list_lookup_fmap, Hi. done.
  - rewrite list_lookup_fmap, Hj. cbn. by rewrite Heq.
Qed.

Lemma select_spec nodes placement node check :
  select nodes None placement = (Some node, check) ->
  exists best, best ∈ candidates nodes placement /\ tc_node best = node /\
    (forall c, c ∈ candidates nodes placement -> compareTargetNodeCandidates best c <> Gt).
Proof.
  unfold selectTargetNodeFromNodesWithZone. case_test; [done|]. fold (candidates nodes placement).
  destruct (sort_by _ _) as [|best rest] eqn:Hs; [done|]. intros [= <- _].
  destruct (sort_by_head _ candidates_ordered (candidates nodes placement) best) as [Hin Hmin]; [by rewrite Hs|]. by exists best.
Qed.

Lemma select_perm nodes nodes' listErr placement :
  NoDup (map (fun n => node_name n) nodes) -> nodes ≡ₚ nodes' -> select nodes listErr placement = select nodes' listErr placement.
Proof.
  intros Hnd Hp. unfold selectTargetNodeFromNodesWithZone. case_test; [done|]. destruct listErr; [done|].
  fold (candidates nodes placement) (candidates nodes' placement).
  pose proof (candidates_perm nodes nodes' placement Hp) as Hc.
  rewrite (Permutation_length (omap_perm candidate_of _ _ Hp)), (Permutation_length Hc).
  destruct (sort_by _ (candidates nodes placement)) as [|a ra] eqn:Ha, (sort_by _ (candidates nodes' placement)) as [|b rb] eqn:Hb.
  - done.
  - exfalso. pose proof (sort_by_perm compareTargetNodeCandidates (candidates nodes placement)) as H1.
    pose proof (sort_by_perm compareTargetNodeCandidates (candidates nodes' placement)) as H2. rewrite Ha in H1. rewrite Hb in H2.
    apply (Permutation_nil_cons (l := rb) (x := b)). by rewrite H1, H2.
  - exfalso. pose proof (sort_by_perm compareTargetNodeCandidates (candidates nodes placement)) as H1.
    pose proof (sort_by_perm compareTargetNodeCandidates (candidates nodes' placement)) as H2. rewrite Ha in H1. rewrite Hb in H2.
    apply (Permutation_nil_cons (l := ra) (x := a)). by rewrite H1, H2.
  - destruct (sort_by_head _ candidates_ordered (candidates nodes placement) a) as [Ia Ma]; [by rewrite Ha|].
    destruct (sort_by_head _ candidates_ordered (candidates nodes' placement) b) as [Ib Mb]; [by rewrite Hb|].
    rewrite <- Hc in Ib. assert (a = b) as ->; [|done]. eapply best_unique; [done|done|done|by apply Ma|]. apply Mb. by rewrite <- Hc.
Qed.
End choice.

(** ** A chosen node passes the capacity check *)

Section accepted.
Context `{QT : QuantityText} `{LS : LabelSelectors}.
Context (volumes : list PlannedVolume) (inventory : option storageCapacityInventory).
Implicit Types (node : PlanNode) (demands : gmap string capacityDemand).

Notation status node demand := (scr_Status (ev_report (evaluate inventory node demand))).

Definition capacity_accepted node (mode : string) : Prop :=
  Forall (fun check => check_Passed check = true) (checkStorageCapacity node volumes inventory mode).2.

Lemma elem_of_values demands d :
  d ∈ omap (fun class => demands !! class) (slices_Sort (map fst (map_to_list demands))) <-> d ∈ map snd (map_to_list demands).
Proof.
  rewrite list_elem_of_omap. setoid_rewrite elem_slices_Sort. rewrite !list_elem_of_fmap. split.
  - intros (class & _ & Hd). exists (class, d). split; [done|]. by apply elem_of_map_to_list.
  - intros ((class & d') & -> & Hin). exists class. split; [|by apply elem_of_map_to_list]. apply list_elem_of_fmap.
    by exists (class, d').
Qed.

Lemma score_spec node acc (ds : list capacityDemand) :
  let scores := foldl (score_demand inventory node) acc ds in
  cs_known scores = cs_known acc + length (List.filter (fun d => bool_decide (status node d = StorageCapacitySufficient)) ds) /\
  (cs_compatible scores = true <->
   cs_compatible acc = true /\ Forall (fun d => status node d <> StorageCapacityInsufficient) ds).
Proof.
  cbv zeta. revert acc. induction ds as [|d ds IH]; intros acc; cbn [foldl List.filter length].
  { split; [lia|]. rewrite Forall_nil. naive_solver. }
  destruct (IH (score_demand inventory node acc d)) as [-> ->]. rewrite Forall_cons. unfold score_demand.
  destruct (status node d) eqn:Hs; cbn [cs_known cs_compatible bool_decide decide length]; (split; [|naive_solver]).
  - rewrite bool_decide_eq_true_2 by done. cbn [length]. lia.
  - rewrite bool_decide_eq_false_2 by done. lia.
  - rewrite bool_decide_eq_false_2 by done. lia.
Qed.

Lemma filter_all {A} (f : A -> bool) l : length (List.filter f l) = length l -> Forall (fun x => f x = true) l.
Proof.
  induction l as [|x l IH]; [by constructor|]. cbn. pose proof (filter_length_le f l). destruct (f x) eqn:Hf; cbn; [|lia].
  intros [= Hlen]. by constructor; [|apply IH].
Qed.

Lemma accepted_auto node mode :
  mode <> CapacityAwarenessRequire ->
  (forall demands, capacityDemands volumes = inl demands ->
     Forall (fun d => status node d <> StorageCapacityInsufficient) (map snd (map_to_list demands))) ->
  capacity_accepted node mode.
Proof.
  intros Hm%String.eqb_neq Hd. unfold capacity_accepted, checkStorageCapacity. destruct (capacityDemands volumes) as [demands|e].
  - cbn [snd]. apply Forall_map, Forall_map, Forall_forall. intros d Hin%elem_of_values. unfold capacity_check.
    pose proof (proj1 (Forall_forall _ _) (Hd demands eq_refl) d Hin) as Hs. unfold compose. cbv beta zeta. rewrite Hm. cbv beta in Hs.
    by destruct (status node d).
  - cbn. rewrite Hm. by repeat constructor.
Qed.

Lemma accepted_require node :
  capacity_accepted node CapacityAwarenessRequire <->
  exists demands, capacityDemands volumes = inl demands /\
    Forall (fun d => status node d = StorageCapacitySufficient) (map snd (map_to_list demands)).
Proof.
  unfold capacity_accepted, checkStorageCapacity. destruct (capacityDemands volumes) as [demands|e]; cbn.
  - rewrite !Forall_map, Forall_forall. setoid_rewrite Forall_forall. split.
    + intros H. exists demands. split; [done|]. intros d Hd%elem_of_values. specialize (H d Hd). unfold capacity_check in H.
      by destruct (status node d).
    + intros (? & [= <-] & H) d Hd%elem_of_values. unfold capacity_check. by rewrite (H d Hd).
  - split; [|by intros (? & ? & _)]. by inversion 1.
Qed.
End accepted.


(** C33: a node that is selected automatically passes the capacity check of the finished
    plan.  In the mode auto it always does; in the mode require it does whenever any
    candidate would, since candidates whose capacity is known for more storage classes
    come first. *)
Theorem selected_node_accepted `{QT : QuantityText} `{LS : LabelSelectors} workloadKind sourcePod sourceNode sourceZone volumes
    sourcePVs storageClasses (inventory : storageCapacityInventory) placement nodes node check :
  selectTargetNodeFromNodesWithZone workloadKind sourcePod sourceNode sourceZone volumes sourcePVs storageClasses
    (Some inventory) nodes None placement = (Some node, check) ->
  (inv_mode inventory = CapacityAwarenessAuto -> capacity_accepted volumes (Some inventory) node CapacityAwarenessAuto) /\
  (inv_mode inventory = CapacityAwarenessRequire ->
   forall other c, other ∈ nodes ->
     targetNodeCandidateFor workloadKind sourcePod sourceNode sourceZone volumes sourcePVs storageClasses (Some inventory) other
       = Some c ->
     placed placement c = true -> capacity_accepted volumes (Some inventory) other CapacityAwarenessRequire ->
     capacity_accepted volumes (Some inventory) node CapacityAwarenessRequire).
Proof.
  intros Hs. destruct (select_spec _ _ _ _ _ _ _ _ _ _ _ _ Hs) as (best & Hin & Hnode & Hmin).
  apply elem_of_candidates in Hin as ((n & Hn & Hc) & Hp).
  pose proof (candidate_ok _ _ _ _ _ _ _ _ _ _ Hc) as (En & _ & _ & _ & _ & Hcomp & Hknown). rewrite Hnode in En. subst n.
  split.
  - intros Hmode. apply accepted_auto; [done|]. intros demands Hd. unfold capacityScore in Hcomp. rewrite Hmode, Hd in Hcomp.
    cbn in Hcomp. destruct (inv_loaded inventory) eqn:Hl; cbn in Hcomp.
    + by apply score_spec in Hcomp as [_ ?].
    + apply Forall_true. intros d. cbn. by rewrite Hl.
  - intros Hmode other c Ho Hco Hpl Hacc. apply accepted_require in Hacc as (demands & Hd & Hall). apply accepted_require.
    exists demands. split; [done|].
    assert (c ∈ candidates workloadKind sourcePod sourceNode sourceZone volumes sourcePVs storageClasses (Some inventory) nodes
              placement) as Hcin by (apply elem_of_candidates; split; [by exists other|done]).
    apply Hmin, compare_known in Hcin.
    pose proof (candidate_ok _ _ _ _ _ _ _ _ _ _ Hco) as (_ & _ & _ & _ & _ & _ & Hknown').
    rewrite Hknown, Hknown' in Hcin. unfold capacityScore in Hcin. rewrite Hmode, Hd in Hcin.
    change (CapacityAwarenessRequire =s CapacityAwarenessOff) with false in Hcin. cbn [orb] in Hcin.
    destruct (inv_loaded inventory) eqn:Hl; cbn [negb] in Hcin.
    2: { eapply Forall_impl; [exact Hall|]. intros d H. cbn in H. by rewrite Hl in H. }
    rewrite !(proj1 (score_spec _ _ _ _)) in Hcin. cbn [cs_known no_scores Nat.add] in Hcin.
    eapply Forall_impl; [apply filter_all|cbn; intros d; apply bool_decide_eq_true].
    apply Nat.le_antisymm; [apply filter_length_le|]. etrans; [|exact Hcin].
    rewrite forallb_filter_id; [done|]. apply forallb_forall. intros d Hin. apply bool_decide_eq_true.
    apply (proj1 (Forall_forall _ _) Hall). by apply list_elem_of_In.
Qed.

(** ** The two readings of a node affinity

    The planner reads the affinity of a Pod with its own matcher, the reserver that of a
    volume with another ([term_matches]).  They agree on every node that has its host name
    label, for terms that name no field but the node's name. *)

Lemma requirement_agrees (requirement : NodeSelectorRequirement) (actual : string) (exists_ : bool) all :
  exists_ = match all with None => actual <>s "" | Some labels => bool_decide (is_Some (labels !! requirement_Key requirement)) end ->
  (exists_ = false -> actual = "") ->
  selectorRequirementMatches requirement actual all = nodeRequirementMatches requirement actual exists_.
Proof.
  intros Hex Hno. unfold selectorRequirementMatches, nodeRequirementMatches. rewrite <- Hex. cbv zeta.
  repeat case_test; try done;
    (destruct (requirement_Values requirement) as [|v [|? ?]]; try done; destruct exists_; [done|]; by rewrite (Hno eq_refl)).
Qed.

Theorem affinity_matchers_agree (node : Node) (term : NodeSelectorTerm) :
  is_Some (node_Labels node !! LabelHostname) ->
  Forall (fun requirement => requirement_Key requirement <> "metadata.uid") (MatchFields term) ->
  nodeSelectorTermMatches term node = term_matches node term.
Proof.
  intros Hhost Huid. unfold nodeSelectorTermMatches, term_matches. f_equal.
  - induction (MatchExpressions term) as [|r l IH]; [done|]. cbn. rewrite IH. f_equal. unfold node_label_value, mget.
    destruct (node_Labels node !! requirement_Key r) as [v|] eqn:Hv; cbn.
    + apply requirement_agrees; [|done]. by rewrite Hv.
    + destruct (String.eqb_spec (requirement_Key r) LabelHostname) as [He|_].
      { rewrite He in Hv. rewrite Hv in Hhost. by destruct Hhost. }
      apply requirement_agrees; [|done]. by rewrite Hv.
  - induction Huid as [|r l Hr _ IH]; [done|]. cbn. rewrite IH. f_equal. unfold nodeFieldValue.
    destruct (String.eqb_spec (requirement_Key r) "metadata.name") as [He|_].
    + apply requirement_agrees; [done|]. intros H%negb_false_iff%String.eqb_eq. done.
    + apply String.eqb_neq in Hr. rewrite Hr. by apply requirement_agrees.
Qed.
