(* ===== verification/CleanupExecutor.v ===== *)
(** * Cleanup of a finished migration

    internal/app/migration_executor_cleanup.go: what is to be reclaimed is prepared
    without a write ([prepareCleanup]), recovered identities are saved, the workflow's
    own reservation Pods are deleted, the sources of unreserved volumes are released,
    each volume is reclaimed, and last the Lease and the stored object go.

    [polls] bounds the waits, [terminal] stands for the context values that mark a
    deletion or finalize pass, and [held] says whether the context carries the lock. *)

From S2P Require Import Prelude GoErrors Lifecycle PhaseMachines KubeTypes Prog Api ResourceState Ownership PVBinding NodeSelection GoFormat Quota PVCPolicy Reserver TransferPath Reclaim MigrationObject Offline Activation MigrationStorage MigrationCleanup CopyEngine Exec Executor.

Definition set_volumes (o : ClusterMigration) (volumes : list ClusterMigrationVolumeStatus) : ClusterMigration :=
  {| mig_Name := mig_Name o; mig_Namespace := mig_Namespace o; mig_DeletionTimestamp := mig_DeletionTimestamp o;
     mig_Spec := mig_Spec o; mig_Plan := mig_Plan o; mig_Status := mig_Status o; mig_Volumes := volumes |}.

Definition set_reservation (volumes : list ClusterMigrationVolumeStatus) (i : nat) (st : ReservationStatus)
    : list ClusterMigrationVolumeStatus :=
  alter (fun v => {| mv_Reservation := st; mv_Sync := mv_Sync v; mv_Activation := mv_Activation v |}) i volumes.

(** A checkpoint with nothing but the name. *)
Definition blank_checkpoint (volume : VolumeSpec) : ClusterMigrationVolumeStatus :=
  {| mv_Reservation := {| rs_SourcePVCName := planned_name volume; rs_DestinationPVC := None;
                          rs_DestinationPV := None; rs_DestinationPolicy := ""; rs_Reserved := false |};
     mv_Sync := {| sync_FinalCompletedAt := None; sync_Attempts := 0; sync_BytesCopied := 0;
                   sync_ChecksumVerified := false; sync_LastError := "" |};
     mv_Activation := {| TemporaryPVCDeleted := false; SourcePVCDeleted := false; DestinationReserved := false;
                         ActivePVC := None; ActivatedAt := None; RolledBackAt := None |} |}.

(** The checkpoints the preparation starts from. *)
Definition cleanup_checkpoints (o : ClusterMigration) (plan : ClusterMigrationPlan) : list ClusterMigrationVolumeStatus :=
  if (Nat.eqb (length (mig_Volumes o)) 0 && (workflowResumePhase (mig_Status o) =p PhaseAborted))%bool
  then map blank_checkpoint (plan_Volumes plan) else mig_Volumes o.

(** The recorded policy, unless the command overrides it. *)
Definition cleanup_policy (plan : ClusterMigrationPlan) (options : MigrationCleanupOptions) : string :=
  if UnusedStoragePolicy options <>s "" then UnusedStoragePolicy options else plan_UnusedStoragePolicy plan.

(** ** Shared by every cleanup *)

Section shared.
Context `{CR : ConflictRetry} {Obj : Type} (polls : nat) (held : bool).

Fixpoint validate_volumes (sid : string) (finalize : bool) (volumes : list reclaimVolume) : execOf Obj (option err) :=
  match volumes with
  | [] => Ret None
  | v :: rest =>
      check: lift (validateReclaimVolume sid v finalize);
      validate_volumes sid finalize rest
  end.

Fixpoint reclaim_volumes (sid : string) (finalize : bool) (volumes : list reclaimVolume) : execOf Obj (option err) :=
  match volumes with
  | [] => Ret None
  | v :: rest =>
      check: lift (reclaimStorageVolume polls sid v finalize);
      reclaim_volumes sid finalize rest
  end.

(** The Lease and the stored object go last. *)
Definition delete_session (o : Obj) : execOf Obj (Obj * option err) :=
  check_x o (if held then call XDeleteLock else Ret None) (
  e ← call (XDeleteStored o);
  Ret (o, e)).
End shared.

Section cleanup.
Context `{CR : ConflictRetry} `{QT : QuantityText} (polls : nat) (terminal held : bool).

Definition prepare_volume (o : ClusterMigration) (plan : ClusterMigrationPlan) (deleteUnused : bool)
    (planned : VolumeSpec) (checkpoint : ClusterMigrationVolumeStatus)
    : exec (result (ReservationStatus * list reclaimVolume)) :=
  lift (prepareMigrationReclaimVolume terminal (mig_Name o) (workflowResumePhase (mig_Status o))
          (plan_SourceNamespace plan) (plan_TemporaryNamespace plan) planned (mv_Reservation checkpoint)
          (ActivePVC (mv_Activation checkpoint)) deleteUnused).

(** [preview] are the checkpoints so far, with recovered identities. *)
Fixpoint prepare_volumes (o : ClusterMigration) (plan : ClusterMigrationPlan) (deleteUnused : bool)
    (indexes : gmap string nat) (planned : list VolumeSpec) (preview : list ClusterMigrationVolumeStatus)
    : exec (result (list ClusterMigrationVolumeStatus * list reclaimVolume)) :=
  match planned with
  | [] => Ret (inl (preview, []))
  | volume :: rest =>
      match indexes !! planned_name volume with
      | None =>
          fail (NewError ErrorValidation "migration cleanup" "migration volume checkpoint is missing")
      | Some i =>
          or_panic (preview !! i) (fun checkpoint =>
          try: prepared ← prepare_volume o plan deleteUnused volume checkpoint;
          try: more ← prepare_volumes o plan deleteUnused indexes rest (set_reservation preview i prepared.1);
          Ret (inl (more.1, prepared.2 ++ more.2)))
      end
  end.

Definition prepareCleanup (o : ClusterMigration) (options : MigrationCleanupOptions)
    : exec (result (ClusterMigration * list reclaimVolume * list ObjectReference)) :=
  check: Ret (validateClusterMigrationObject o);
  let phase := workflowResumePhase (mig_Status o) in
  check: Ret (validateMigrationCleanupOptions phase (bool_decide (is_Some (mig_Plan o))) options);
  match mig_Plan o with
  | None => Ret (inl (o, [], []))
  | Some plan =>
      let start := cleanup_checkpoints o plan in
      try: prepared ← prepare_volumes o plan (DeletesUnusedStorage (cleanup_policy plan options))
                        (clusterMigrationVolumeIndexes start) (plan_Volumes plan) start;
      try: pods ← lift (inventoryReservationPods (mig_Name o) [plan_TemporaryNamespace plan]);
      try: volumes ← lift (protectRetainedPVs prepared.2);
      check: validate_volumes (mig_Name o) (Finalize options) volumes;
      Ret (inl (set_volumes o prepared.1, volumes, pods))
  end.

(** After an abort, the sources of volumes that were never reserved. *)
Fixpoint release_sources (o : ClusterMigration) (plan : ClusterMigrationPlan) (volumes : list VolumeSpec)
    : exec (option err) :=
  match volumes with
  | [] => Ret None
  | volume :: rest =>
      or_panic (checkpoint_of o volume) (fun checkpoint =>
      if (rs_Reserved (mv_Reservation checkpoint)
          || bool_decide (is_Some (ActivePVC (mv_Activation checkpoint))))%bool
      then release_sources o plan rest
      else
        check: lift (releaseSourceOwnership (mig_Name o)
                       (qualifiedResourceReference (vs_SourcePVC volume) (plan_SourceNamespace plan))
                       (qualifiedResourceReference (vs_SourcePV volume) "") (vs_SourceReclaimPolicy volume));
        release_sources o plan rest)
  end.

(** Saved only if a checkpoint changed, and taken back if that fails. *)
Definition save_preview (o preview : ClusterMigration) : exec outcome :=
  if bool_decide (mig_Volumes preview = mig_Volumes o) then Ret (o, None) else
  e ← persist false preview;
  Ret match e with Some x => (o, Some x) | None => (preview, None) end.

Definition cleanup (o : ClusterMigration) (options : MigrationCleanupOptions) : exec outcome :=
  r ← prepareCleanup o options;
  match r with
  | inr e => Ret (o, Some e)
  | inl (preview, volumes, pods) =>
      step_x (save_preview o preview) (fun o =>
      check_x o (lift (deleteReservationConsumers polls pods)) (
      check_x o
        (match mig_Plan o with
         | Some plan =>
             if workflowResumePhase (mig_Status o) =p PhaseAborted
             then release_sources o plan (plan_Volumes plan) else Ret None
         | None => Ret None
         end) (
      check_x o (reclaim_volumes polls (mig_Name o) (Finalize options) volumes) (
      if DeleteSession options then delete_session held o else Ret (o, None)))))
  end.
End cleanup.
