(* ===== verification/MigrationSync.v ===== *)
(** * The migration executor: reservation, final sync, abort and the whole run

    internal/app/migration_executor.go ([reserve], [ValidateReservation]),
    migration_executor_sync.go, migration_executor_lifecycle.go ([run], [Validate],
    [abort], [RequestResume], [FinalizeDeleted]), migration_reservation.go,
    migration_final_probe.go, volume_reservation.go, copy_checkpoint.go, the tool targets
    and manifests of workflow_support.go and [FailSourceDeleted].  Cutover and rollback
    are those of Executor, cleanup that of CleanupExecutor.

    The exported methods run these bodies under the session lock.  [deleting] is the
    context value that marks the deletion of the workflow. *)

From S2P Require Import Prelude Utf8 GoErrors Lifecycle PhaseMachines KubeTypes Prog Api ResourceState Ownership PVBinding NodeSelection GoFormat Quota PVCPolicy Reserver TransferPath Reclaim MigrationObject Offline Activation MigrationStorage MigrationCleanup CopyEngine Exec CopyRunner SourceLoss Executor CleanupExecutor.

(** ** Configuration *)

Record MigrationExecutorConfig := {
  mc_Transfer : VolumeCopyConfig;
  mc_VolumeUsageReader : bool;               (* whether one is configured *)
  mc_ToolImageProber : bool;
  mc_ProbeTimeout : Z
}.

Definition newMigrationResources (c : MigrationExecutorConfig) : MigrationExecutorConfig :=
  let transfer := newVolumeCopyRunner (mc_Transfer c) in
  {| mc_Transfer := transfer; mc_VolumeUsageReader := mc_VolumeUsageReader c; mc_ToolImageProber := mc_ToolImageProber c;
     mc_ProbeTimeout := if Z.leb (mc_ProbeTimeout c) 0 then vc_HelmTimeout transfer else mc_ProbeTimeout c |}.

(** ** Tool targets and manifests (workflow_support.go) *)

Definition toolProbeTargetsForNamespaces (namespaces : list string) (nodeName : string) (components : list string)
    : list ToolProbeTarget :=
  map (fun namespace =>
    {| tt_Namespace := namespace; tt_NodeName := nodeName; tt_PVCName := ""; tt_SkipPVCMount := false;
       tt_WritablePVCMount := false; tt_RequiredPath := ""; tt_CreatePath := false; tt_Components := components |})
    namespaces.

Definition reservationToolProbeTargets (namespaces : list string) (targetNode : string) : list ToolProbeTarget :=
  if targetNode =s "" then [] else toolProbeTargetsForNamespaces namespaces targetNode [].

Definition sessionNeedsSourceSSHD (strategies : list string) : bool :=
  match strategies with
  | [] => true
  | _ => existsb (fun strategy => strategy <>s StrategyMount) strategies
  end.

Definition reservationManifest `{QuantityText} (destination : ObjectReference) (requestedCapacity storageClass mode : string)
    (accessModes : list string) : result PVC :=
  match ParseQuantity requestedCapacity with
  | inr e => inr (WrapError ErrorValidation "reserve volume" "parse capacity" e)
  | inl capacity =>
      inl {| pvc_Namespace := Namespace destination; pvc_Name := Name destination; pvc_UID := "";
             pvc_ResourceVersion := ""; pvc_DeletionTimestamp := None; pvc_Labels := ∅; pvc_Annotations := ∅;
             pvc_Finalizers := []; pvc_OwnerReferences := [];
             pvc_Spec := {| spec_AccessModes := accessModes; spec_Selector := None;
                            spec_StorageRequest := Some capacity; spec_VolumeName := "";
                            spec_StorageClassName := Some storageClass; spec_VolumeMode := Some mode;
                            spec_DataSource := None; spec_DataSourceRef := None;
                            spec_VolumeAttributesClassName := None |};
             pvc_Phase := ClaimPhaseNone; pvc_AllocatedStorage := None; pvc_CurrentVolumeAttributesClass := None;
             pvc_TargetVolumeAttributesClass := None |}
  end.

(** The probe targets of one volume (migration_final_probe.go). *)
Definition volume_probe_targets (sourceNamespace destinationNamespace sourceNode targetNode : string)
    (strategies : list string) (volume : VolumeSpec) : list ToolProbeTarget :=
  let source := SourceTransferPath (vs_TransferScope volume) in
  let destination := DestinationTransferPath (vs_TransferScope volume) in
  {| tt_Namespace := sourceNamespace; tt_NodeName := sourceNode; tt_PVCName := planned_name volume;
     tt_SkipPVCMount := false; tt_WritablePVCMount := true;
     tt_RequiredPath := if source <>s VolumeRootPath then source else ""; tt_CreatePath := false;
     tt_Components := if sessionNeedsSourceSSHD strategies then [ToolComponentSSHD] else [] |} ::
  (if destination <>s VolumeRootPath then
     [{| tt_Namespace := destinationNamespace; tt_NodeName := targetNode;
         tt_PVCName := local_Name (vs_DestinationPVC volume); tt_SkipPVCMount := false; tt_WritablePVCMount := true;
         tt_RequiredPath := destination; tt_CreatePath := true; tt_Components := [ToolComponentRsync] |}]
   else []).

Definition final_probe_targets (plan : ClusterMigrationPlan) : list ToolProbeTarget :=
  let strategies := plan_Strategies plan in
  toolProbeTargetsForNamespaces [plan_TemporaryNamespace plan] (plan_TargetNode plan)
    (ToolComponentRsync :: (if contains strategies StrategyLocal then [ToolComponentSSHD] else []))
  ++ concat (map (volume_probe_targets (plan_SourceNamespace plan) (plan_TemporaryNamespace plan)
                    (plan_SourceNode plan) (plan_TargetNode plan) strategies) (plan_Volumes plan)).

(** ** Checkpoints in the object *)

Definition set_sync (o : ClusterMigration) (i : nat) (f : MigrationSyncStatus -> MigrationSyncStatus) : ClusterMigration :=
  set_volumes o (alter (fun v => {| mv_Reservation := mv_Reservation v; mv_Sync := f (mv_Sync v);
                                    mv_Activation := mv_Activation v |}) i (mig_Volumes o)).

Definition sync_at (o : ClusterMigration) (i : nat) : option MigrationSyncStatus := mv_Sync <$> mig_Volumes o !! i.

(** [&status.Sync.Attempts] and [&status.Sync.LastError] of volume [i] *)
Definition sync_cursor (i : nat) : Cursor ClusterMigration := {|
  cursor_attempts o := default 0%Z (sync_Attempts <$> sync_at o i);
  cursor_error o := default "" (sync_LastError <$> sync_at o i);
  cursor_set o attempts lastError :=
    set_sync o i (fun s => {| sync_FinalCompletedAt := sync_FinalCompletedAt s; sync_Attempts := attempts;
                              sync_BytesCopied := sync_BytesCopied s; sync_ChecksumVerified := sync_ChecksumVerified s;
                              sync_LastError := lastError |}) |}.

(** [checkpointFinalCopy] (copy_checkpoint.go) *)
Definition final_copied (verifyChecksum : bool) (now : Time) (s : MigrationSyncStatus) : MigrationSyncStatus :=
  {| sync_FinalCompletedAt := Some now; sync_Attempts := sync_Attempts s; sync_BytesCopied := sync_BytesCopied s;
     sync_ChecksumVerified := verifyChecksum; sync_LastError := "" |}.

Definition checkpointFinalCopy (o : ClusterMigration) (i : nat) (verifyChecksum : bool) (now : Time) : exec outcome :=
  let o' := set_sync o i (final_copied verifyChecksum now) in
  e ← persist false o';
  Ret match e with Some x => (o, Some x) | None => (o', None) end.

(** A final sync that is repeated starts over. *)
Definition reset_sync (o : ClusterMigration) : ClusterMigration :=
  set_volumes o (map (fun v =>
    {| mv_Reservation := mv_Reservation v;
       mv_Sync := {| sync_FinalCompletedAt := None; sync_Attempts := sync_Attempts (mv_Sync v);
                     sync_BytesCopied := sync_BytesCopied (mv_Sync v); sync_ChecksumVerified := false;
                     sync_LastError := sync_LastError (mv_Sync v) |};
       mv_Activation := mv_Activation v |}) (mig_Volumes o)).

Definition validateMigrationCopyRetry (reason : string) : option err :=
  if reason =s FailureDestinationCapacityExhausted then
    Some (NewError ErrorConflict "migration final sync"
      "destination capacity was exhausted; abort and clean up this migration before creating one with larger storage")
  else None.

Definition migrationFinalSyncPhase (phase : Phase) : bool :=
  match phase with PhaseReserved | PhaseFinalSyncing | PhaseFinalSynced => true | _ => false end.

Section executor.
Context `{CR : ConflictRetry} `{QT : QuantityText} `{IG : ImageGrammar} `{LG : LabelGrammar}.
Context (config : MigrationExecutorConfig) (s : Switcher) (reserver : Reserver) (steps polls : nat)
        (deleting terminal held : bool).

Notation transfer := (mc_Transfer config).

Definition reservation_request (o : ClusterMigration) (plan : ClusterMigrationPlan) : ReservationRequest :=
  {| SessionID := mig_Name o; TargetNode := plan_TargetNode plan; ToolImage := runner_toolImage transfer (plan_ToolImage plan) |}.

(** ** Reservation *)

Definition validateReservationVolume (request : ReservationRequest) (sourceNamespace destinationNamespace : string)
    (volume : VolumeSpec) (checkpoint : ReservationStatus) (skipSourceUsageCheck : bool) : exec (option err) :=
  let source := qualifiedResourceReference (vs_SourcePVC volume) sourceNamespace in
  let pv := qualifiedResourceReference (vs_SourcePV volume) "" in
  check: VerifyVolumeShrinkUsage (mc_VolumeUsageReader config) source pv (vs_SourceCapacity volume) (vs_Capacity volume)
           (SourceTransferPath (vs_TransferScope volume)) skipSourceUsageCheck;
  try: desired ← Ret (reservationManifest (qualifiedResourceReference (vs_DestinationPVC volume) destinationNamespace)
                        (vs_Capacity volume) (vs_StorageClass volume) (vs_VolumeMode volume) (vs_AccessModes volume));
  lift (ValidateVolumeReservation request source pv (vs_SourceCapacity volume) (Some desired) checkpoint).

Fixpoint validate_reservations (o : ClusterMigration) (plan : ClusterMigrationPlan) (volumes : list VolumeSpec)
    : exec (option err) :=
  match volumes with
  | [] => Ret None
  | volume :: rest =>
      let blank := mv_Reservation (blank_checkpoint volume) in
      or_panic
        (match clusterMigrationVolumeIndexes (mig_Volumes o) !! planned_name volume with
         | Some i => mv_Reservation <$> mig_Volumes o !! i
         | None => Some blank
         end) (fun checkpoint =>
      check: validateReservationVolume (reservation_request o plan) (plan_SourceNamespace plan)
               (plan_TemporaryNamespace plan) volume checkpoint (plan_SkipSourceUsageCheck plan);
      validate_reservations o plan rest)
  end.

Definition ValidateReservation (o : ClusterMigration) : exec (option err) :=
  check: Ret (validateClusterMigrationObject o);
  let phase := workflowResumePhase (mig_Status o) in
  if negb ((phase =p PhasePlanned) || (phase =p PhaseReserving) || (phase =p PhaseReserved)) then
    fail (NewError ErrorPrecondition "reserve migration" "migration phase cannot reserve storage")
  else
  match mig_Plan o with
  | None => fail (NewError ErrorPrecondition "reserve migration" "migration requires execution planning")
  | Some plan => validate_reservations o plan (plan_Volumes plan)
  end.

(** [reserveVolumeCheckpoint] (volume_reservation.go) on volume [i] *)
Definition complete_reservation (st : ReservationStatus) : bool :=
  (rs_Reserved st
   && match rs_DestinationPVC st, rs_DestinationPV st with
      | Some pvc, Some pv => ((UID pvc <>s "") && (UID pv <>s ""))%bool
      | _, _ => false
      end)%bool.

Definition reserveVolumeCheckpoint (request : ReservationRequest) (sourcePVC sourcePV : ObjectReference)
    (sourceCapacity : string) (desired : PVC) (i : nat) (o : ClusterMigration) : exec outcome :=
  or_panic (mig_Volumes o !! i) (fun volume =>
  check_x o (checkpoint_fence false) (
  r ← lift (ReserveVolume reserver request sourcePVC sourcePV sourceCapacity (Some desired) (Some (mv_Reservation volume)));
  or_panic r.1 (fun checkpoint =>
  let o' := set_volumes o (set_reservation (mig_Volumes o) i checkpoint) in
  e ← persist false o';
  Ret match e with
      | Some saveErr => (o, errors_Join [r.2; Some saveErr])
      | None =>
          match r.2 with
          | Some x => (o', Some x)
          | None =>
              (o', if complete_reservation checkpoint then None
                   else Some (NewError ErrorInternal "reserve volume" "reserver did not produce a complete checkpoint"))
          end
      end))).

Definition reserve_volume (o : ClusterMigration) (plan : ClusterMigrationPlan) (volume : VolumeSpec) : exec outcome :=
  or_panic (checkpoint_of o volume) (fun status =>
  if rs_Reserved (mv_Reservation status) then Ret (o, None) else
  match reservationManifest (qualifiedResourceReference (vs_DestinationPVC volume) (plan_TemporaryNamespace plan))
          (vs_Capacity volume) (vs_StorageClass volume) (vs_VolumeMode volume) (vs_AccessModes volume) with
  | inr e => Ret (o, Some e)
  | inl desired =>
      reserveVolumeCheckpoint (reservation_request o plan)
        (qualifiedResourceReference (vs_SourcePVC volume) (plan_SourceNamespace plan))
        (qualifiedResourceReference (vs_SourcePV volume) "") (vs_SourceCapacity volume) desired
        (checkpoint_index o volume) o
  end).

Fixpoint reserve_volumes (plan : ClusterMigrationPlan) (volumes : list VolumeSpec) (o : ClusterMigration) : exec outcome :=
  match volumes with
  | [] => exec_transition false o PhaseReserved "migration destination storage is provisioned and retained"
  | volume :: rest => step_or_fail (reserve_volume o plan volume) (reserve_volumes plan rest)
  end.

(** The checkpoints of a first reservation. *)
Definition start_volumes (o : ClusterMigration) (plan : ClusterMigrationPlan) : ClusterMigration :=
  match mig_Volumes o with
  | [] => set_volumes o (map blank_checkpoint (plan_Volumes plan))
  | _ => o
  end.

Definition probe (o : ClusterMigration) (plan : ClusterMigrationPlan) (targets : list ToolProbeTarget)
    : exec (result (list ToolImageProbeResult)) :=
  if mc_ToolImageProber config then
    serve (SProbe {| po_OperationID := mig_Name o; po_Image := runner_toolImage transfer (plan_ToolImage plan);
                     po_Targets := targets; po_Timeout := mc_ProbeTimeout config |})
  else Ret (inl []).

Definition reserve (o : ClusterMigration) : exec outcome :=
  check_x o (ValidateReservation o) (
  if ws_Phase (mig_Status o) =p PhaseReserved then Ret (o, None) else
  if ((ws_Phase (mig_Status o) =p PhaseFailed) && (ws_ResumeFrom (mig_Status o) =p PhaseReserved))%bool then
    exec_transition false o PhaseReserved "migration reservation revalidated"
  else
  or_panic (mig_Plan o) (fun plan =>
  p ← probe o plan (reservationToolProbeTargets [plan_TemporaryNamespace plan] (plan_TargetNode plan));
  match p with
  | inr e => Ret (o, Some e)
  | inl _ =>
      t ← exec_transition false (start_volumes o plan) PhaseReserving "reserving migration destination storage";
      match t.2 with
      | Some e => Ret (o, Some e)
      | None =>
          let o' := t.1 in
          n ← RequireNamespace (plan_TemporaryNamespace plan);
          match n with
          | Some e => exec_fail o' e
          | None => reserve_volumes plan (plan_Volumes plan) o'
          end
      end
  end)).

(** ** Final sync *)

Definition validateReservedVolume (o : ClusterMigration) (plan : ClusterMigrationPlan) (binding : PVCTransferBindings)
    (volume : VolumeSpec) (checkpoint : ReservationStatus) : kube (option err) :=
  try: desired ← Ret (reservationManifest (DestinationPVC binding) (vs_Capacity volume) (vs_StorageClass volume)
                        (vs_VolumeMode volume) (vs_AccessModes volume));
  ValidateVolumeReservation (reservation_request o plan) (SourcePVC binding) (SourcePV binding) (vs_SourceCapacity volume)
    (Some desired) checkpoint.

Fixpoint final_sync_bindings (o : ClusterMigration) (plan : ClusterMigrationPlan) (volumes : list VolumeSpec)
    : exec (result (list PVCTransferBindings)) :=
  match volumes with
  | [] => Ret (inl [])
  | volume :: rest =>
      or_panic (bound_checkpoint o plan volume) (fun '(status, binding) =>
      check: VerifyVolumeShrinkUsage (mc_VolumeUsageReader config) (SourcePVC binding) (SourcePV binding)
               (vs_SourceCapacity volume) (vs_Capacity volume) (SourceTransferPath (vs_TransferScope volume))
               (plan_SkipSourceUsageCheck plan);
      check: lift (validateReservedVolume o plan binding volume (mv_Reservation status));
      try: more ← final_sync_bindings o plan rest;
      Ret (inl (binding :: more)))
  end.

Definition ValidateFinalSync (o : ClusterMigration) : exec (option err) :=
  check: Ret (validateClusterMigrationObject o);
  check: Ret (validateMigrationCopyRetry (ws_FailureReason (mig_Status o)));
  let refused := NewError ErrorPrecondition "migration final sync" "migration must have reserved storage before final sync" in
  if negb (migrationFinalSyncPhase (workflowResumePhase (mig_Status o))) then fail refused else
  match mig_Plan o with
  | None => fail refused
  | Some plan =>
      check: lift (validateFinalSyncSources (plan_SourceNamespace plan) (plan_Volumes plan) "migration final sync");
      try: bindings ← final_sync_bindings o plan (plan_Volumes plan);
      lift (VerifyVolumesOfflineForSession s (mig_Name o) bindings)
  end.

Definition interrupted_request (o : ClusterMigration) (plan : ClusterMigrationPlan) (binding : PVCTransferBindings)
    (attempts : Z) : CleanupRequest :=
  {| cl_Identity := {| ai_SessionID := mig_Name o; ai_Source := SourcePVC binding; ai_Mode := ModeFinal;
                       ai_Attempt := attempts |};
     cl_DestinationNamespace := Namespace (DestinationPVC binding);
     cl_KubeconfigPath := vc_KubeconfigPath transfer; cl_Context := vc_Context transfer;
     cl_DestinationKubeconfigPath := ""; cl_DestinationContext := ""; cl_Strategies := plan_Strategies plan |}.

Definition cleanup_interrupted (o : ClusterMigration) (plan : ClusterMigrationPlan) (volume : VolumeSpec) : exec (option err) :=
  match clusterMigrationVolumeIndexes (mig_Volumes o) !! planned_name volume with
  | None => Ret None
  | Some i =>
      or_panic (mig_Volumes o !! i) (fun status =>
      let sync := mv_Sync status in
      if (Z.eqb (sync_Attempts sync) 0 || bool_decide (is_Some (sync_FinalCompletedAt sync)))%bool then Ret None
      else
      or_panic (plannedMigrationBindings (plan_SourceNamespace plan) volume (mv_Reservation status)) (fun binding =>
      try: skipValidation ← lift (deletionValidationSkip (plan_SourceNamespace plan) volume (DestinationPVC binding)
                                    (DestinationPV binding));
      check: (if (skipValidation : bool) then Ret None
              else lift (validateReservedVolume o plan binding volume (mv_Reservation status)));
      let request := interrupted_request o plan binding (sync_Attempts sync) in
      e ← serve (SCopyCleanup request);
      match (e : option err) with
      | Some x => Ret (Some x)
      | None =>
          cleanupCopyToolPods polls (SourcePVC binding) (DestinationPVC binding) (OperationID (cl_Identity request))
      end))
  end.

Fixpoint cleanup_interrupted_all (o : ClusterMigration) (plan : ClusterMigrationPlan) (volumes : list VolumeSpec)
    : exec (option err) :=
  match volumes with
  | [] => Ret None
  | volume :: rest => check: cleanup_interrupted o plan volume; cleanup_interrupted_all o plan rest
  end.

Definition cleanupInterruptedFinalSync (o : ClusterMigration) : exec (option err) :=
  or_panic (mig_Plan o) (fun plan => cleanup_interrupted_all o plan (plan_Volumes plan)).

Definition final_copy_request (o : ClusterMigration) (plan : ClusterMigrationPlan) (volume : VolumeSpec)
    (binding : PVCTransferBindings) : CopyRequest :=
  {| cq_Identity := {| ai_SessionID := mig_Name o; ai_Source := SourcePVC binding; ai_Mode := ModeFinal; ai_Attempt := 0 |};
     cq_Source := {| cs_KubeconfigPath := ""; cs_Context := ""; cs_Path := SourceTransferPath (vs_TransferScope volume);
                     cs_MountReadWrite := false |};
     cq_Destination := {| cd_Reference := DestinationPVC binding; cd_KubeconfigPath := ""; cd_Context := "";
                          cd_Path := DestinationTransferPath (vs_TransferScope volume) |};
     cq_Policy := {| cp_Strategies := plan_Strategies plan; cp_DeleteExtraneousFiles := plan_DeleteExtraneous plan;
                     cp_VerifyChecksum := plan_VerifyChecksum plan;
                     cp_IgnoreSizes := destinationCapacityIsSmaller (vs_SourceCapacity volume) (vs_Capacity volume);
                     cp_Compress := false; cp_BandwidthLimit := ""; cp_RsyncMaxRetries := 0;
                     cp_TolerateLiveSourceChurn := false; cp_ToolNetworkPolicy := "" |};
     cq_Runtime := {| cr_ToolImage := plan_ToolImage plan; cr_HelmTimeout := 0; cr_HelmValues := []; cr_HelmStringValues := [] |} |}.

(** What is verified again before every attempt. *)
Definition validate_attempt (o : ClusterMigration) (plan : ClusterMigrationPlan) (volume : VolumeSpec)
    (binding : PVCTransferBindings) (checkpoint : ReservationStatus) : kube (option err) :=
  check: validateReservedVolume o plan binding volume checkpoint;
  VerifyVolumeOffline s binding.

Definition sync_volume (o : ClusterMigration) (plan : ClusterMigrationPlan) (probes : list ToolImageProbeResult)
    (volume : VolumeSpec) (k : ClusterMigration -> exec outcome) : exec outcome :=
  or_panic (checkpoint_of o volume) (fun status =>
  if bool_decide (is_Some (sync_FinalCompletedAt (mv_Sync status))) then k o else
  or_panic (plannedMigrationBindings (plan_SourceNamespace plan) volume (mv_Reservation status)) (fun binding =>
  let i := checkpoint_index o volume in
  step_or_fail
    (copyWithRetry transfer steps polls (sync_cursor i) ""
       (fun o' => lift (validate_attempt o' plan volume binding (mv_Reservation status))) (Ret (inl false))
       (final_copy_request o plan volume binding) (plan_SourceNode plan) (plan_TargetNode plan) probes o)
    (fun o =>
  t ← call (XKube Now);
  step_x (checkpointFinalCopy o i (plan_VerifyChecksum plan) t) k))).

Fixpoint sync_volumes (plan : ClusterMigrationPlan) (probes : list ToolImageProbeResult) (volumes : list VolumeSpec)
    (o : ClusterMigration) : exec outcome :=
  match volumes with
  | [] => exec_transition false o PhaseFinalSynced "offline migration final sync completed"
  | volume :: rest => sync_volume o plan probes volume (sync_volumes plan probes rest)
  end.

Definition finalSync (o : ClusterMigration) : exec outcome :=
  let refused := Ret (o, Some (NewError ErrorPrecondition "migration final sync" "migration phase cannot run final sync")) in
  if negb (migrationFinalSyncPhase (workflowResumePhase (mig_Status o))) then refused else
  match mig_Plan o with
  | None => refused
  | Some plan =>
      match validateMigrationCopyRetry (ws_FailureReason (mig_Status o)) with
      | Some e => Ret (o, Some e)
      | None =>
          check_x o (cleanupInterruptedFinalSync o) (
          check_x o (ValidateFinalSync o) (
          p ← probe o plan (final_probe_targets plan);
          match p with
          | inr e => Ret (o, Some e)
          | inl probes =>
              let start := if ws_Phase (mig_Status o) =p PhaseFinalSynced then reset_sync o else o in
              t ← exec_transition false start PhaseFinalSyncing "running offline migration final sync";
              match t.2 with
              | Some e => Ret (o, Some e)
              | None => sync_volumes plan probes (plan_Volumes plan) t.1
              end
          end))
      end
  end.

(** ** Abort *)

Fixpoint verify_sources (plan : ClusterMigrationPlan) (volumes : list VolumeSpec) : exec (option err) :=
  match volumes with
  | [] => Ret None
  | volume :: rest =>
      check: lift (verifySourceStorage deleting (qualifiedResourceReference (vs_SourcePVC volume) (plan_SourceNamespace plan))
                     (qualifiedResourceReference (vs_SourcePV volume) ""));
      verify_sources plan rest
  end.

Definition ValidateAbort (o : ClusterMigration) : exec (option err) :=
  check: Ret (validateClusterMigrationObject o);
  match workflowResumePhase (mig_Status o) with
  | PhaseAborted => Ret None
  | PhaseNone | PhasePlanned | PhaseReserving | PhaseReserved | PhaseFinalSyncing | PhaseFinalSynced | PhaseAborting =>
      match mig_Plan o with
      | None => Ret None
      | Some plan =>
          try: settling ← (if deleting then lift (deletionSourcePairSettling (plan_SourceNamespace plan) (plan_Volumes plan))
                           else Ret (inl false));
          if (settling : bool) then Ret None else verify_sources plan (plan_Volumes plan)
      end
  | _ => fail (NewError ErrorPrecondition "abort migration" "migration cutover requires rollback")
  end.

Definition abort (o : ClusterMigration) : exec outcome :=
  check_x o (ValidateAbort o) (
  if ws_Phase (mig_Status o) =p PhaseAborted then Ret (o, None) else
  match mig_Plan o with
  | None => exec_transition false o PhaseAborted "migration aborted before execution planning"
  | Some _ =>
      step_x (exec_transition false o PhaseAborting "stopping offline migration tools") (fun o =>
      e ← cleanupInterruptedFinalSync o;
      match e with
      | Some x => exec_fail o x
      | None => exec_transition false o PhaseAborted "migration aborted; reserved volumes are retained for cleanup"
      end)
  end).

(** ** The whole run *)

Definition complete (o : ClusterMigration) : exec outcome :=
  e ← verifyActiveVolumes deleting o;
  match e with
  | Some x => exec_fail o x
  | None => exec_transition false o PhaseCompleted "offline migration completed"
  end.

Definition activate_then (o : ClusterMigration) : exec outcome :=
  step_x (activate s deleting o) complete.
Definition sync_then (o : ClusterMigration) : exec outcome :=
  step_x (finalSync o) activate_then.
Definition reserve_then (o : ClusterMigration) : exec outcome :=
  step_x (reserve o) sync_then.

Definition run_migration (o : ClusterMigration) : exec outcome :=
  match workflowResumePhase (mig_Status o) with
  | PhasePlanned | PhaseReserving => reserve_then o
  | PhaseReserved | PhaseFinalSyncing => sync_then o
  | PhaseFinalSynced | PhaseActivating => activate_then o
  | PhaseActivated | PhaseResuming => complete o
  | PhaseCompleted =>
      check_x o (verifyActiveVolumes deleting o) (
      if ws_Phase (mig_Status o) =p PhaseCompleted then Ret (o, None)
      else exec_transition false o PhaseCompleted "offline migration completion revalidated")
  | PhaseRollingBack => rollback s deleting o
  | PhaseRolledBack =>
      check_x o (verifyRestoredVolumes deleting o) (
      if ws_Phase (mig_Status o) =p PhaseRolledBack then Ret (o, None)
      else exec_transition false o PhaseRolledBack "offline migration rollback revalidated")
  | PhaseAborting => abort o
  | PhaseAborted => Ret (o, None)
  | _ => Ret (o, Some (NewError ErrorPrecondition "migration" "migration requires execution planning"))
  end.

Definition Validate (o : ClusterMigration) : exec (option err) :=
  check: Ret (validateClusterMigrationObject o);
  match mig_Plan o with
  | None => Ret None
  | Some _ =>
      match workflowResumePhase (mig_Status o) with
      | PhasePlanned | PhaseReserving => ValidateReservation o
      | PhaseReserved | PhaseFinalSyncing => ValidateFinalSync o
      | PhaseFinalSynced | PhaseActivating => ValidateActivation s deleting o
      | PhaseActivated | PhaseResuming | PhaseCompleted => verifyActiveVolumes deleting o
      | PhaseRollingBack | PhaseRolledBack => ValidateRollback s deleting o
      | PhaseAborting => ValidateAbort o
      | PhaseAborted => Ret None
      | _ => fail (NewError ErrorValidation "migration" "migration phase has no execution preflight")
      end
  end.

Definition RequestResume (o : ClusterMigration) : exec outcome :=
  check_x o (Validate o) (
  if negb (ws_Phase (mig_Status o) =p PhaseFailed) then Ret (o, None) else
  t ← call (XKube Now);
  match ReactivateWorkflow (mig_Status o) "migration resume requested" t with
  | inr e => Ret (o, Some e)
  | inl status =>
      let o' := set_status o status in
      e ← persist false o';
      Ret match e with Some x => (o, Some x) | None => (o', None) end
  end).

(** ** Losing the source, deletion *)

Definition FailSourceDeleted (o : ClusterMigration) : exec outcome :=
  match mig_Plan o with
  | None => Ret (o, None)
  | Some plan =>
      c ← lift (source_loss_cause (mig_Status o) (plan_Volumes plan) (plan_SourceNamespace plan) "migration");
      match c with
      | inr e => Ret (o, Some e)
      | inl None => Ret (o, None)
      | inl (Some cause) => exec_fail o cause
      end
  end.

(** Statuses of older releases say Failed without a resume checkpoint. *)
Definition with_ResumeFrom (st : WorkflowStatus) (phase : Phase) : WorkflowStatus :=
  {| ws_ExecutionIntentHash := ws_ExecutionIntentHash st; ws_ErrorCategory := ws_ErrorCategory st; ws_Phase := ws_Phase st;
     ws_ResumeFrom := phase; ws_FailureReason := ws_FailureReason st; ws_ObservedGeneration := ws_ObservedGeneration st;
     ws_StartedAt := ws_StartedAt st; ws_UpdatedAt := ws_UpdatedAt st; ws_CompletedAt := ws_CompletedAt st;
     ws_Message := ws_Message st; ws_Conditions := ws_Conditions st; ws_History := ws_History st |}.

Definition repaired_status (st : WorkflowStatus) : WorkflowStatus :=
  if ((ws_Phase st =p PhaseFailed) && (ws_ResumeFrom st =p PhaseNone))%bool then with_ResumeFrom st PhasePlanned else st.

Definition deleting_condition (now : Time) : WorkflowCondition :=
  {| cond_Type := "Deleting"; cond_Status := "True"; cond_Reason := "CleaningUp";
     cond_Message := "Releasing migration storage ownership before deletion"; cond_LastTransitionTime := now |}.

Definition finalize_options : MigrationCleanupOptions :=
  {| UnusedStoragePolicy := ""; Finalize := true; DeleteSession := true |}.

(** Under the lock. *)
Definition finalize_locked (o : ClusterMigration) : exec outcome :=
  t ← call (XKube Now);
  let marked := set_status o (SetWorkflowCondition (mig_Status o) (deleting_condition t)) in
  check_x o (persist false marked) (
  let phase := workflowResumePhase (mig_Status marked) in
  step_x
    (if ((phase =p PhaseCompleted) || (phase =p PhaseRolledBack) || (phase =p PhaseAborted))%bool then Ret (marked, None)
     else if deletionRequiresConvergence phase then run_migration marked else abort marked) (fun o =>
  cleanup polls terminal held o finalize_options)).

Definition FinalizeDeleted (object : option ClusterMigration) : exec (option ClusterMigration * option err) :=
  let required := NewError ErrorPrecondition "finalize migration" "workflow deletion is required" in
  match object with
  | None => Ret (None, Some required)
  | Some o =>
      let o := if deletingWorkflow o then set_status o (repaired_status (mig_Status o)) else o in
      match validateClusterMigrationObject o with
      | Some e => Ret (Some o, Some e)
      | None =>
          if negb (deletingWorkflow o) then Ret (Some o, Some required)
          else r ← finalize_locked o; Ret (Some r.1, r.2)
      end
  end.
End executor.
