(* ===== verification/StagedObjects.v ===== *)
(** * Copies and reservations as API objects

    The Copy, ClusterCopy, Reservation and ClusterReservation of api/v1alpha1 (of the
    metadata, what the executors read), and what an executor accepts of a loaded object:
    internal/app/copy_executor_validation.go, namespaced_copy_validation.go,
    reservation_executor_validation.go and namespaced_reservation_validation.go.

    A namespaced object refers to its claims without a namespace; its checkpoints are
    qualified before they reach the reserver and made local again before they are stored
    ([qualifiedReservationCheckpoint], [localReservationCheckpoint]).  An embedded Go
    struct is a field of the record; the volume status of a reservation has nothing but
    the embedded checkpoint and is that checkpoint. *)

From S2P Require Import Prelude Utf8 GoErrors Lifecycle PhaseMachines KubeTypes Prog Api NodeSelection GoFormat Reserver TransferPath CopyEngine Exec MigrationObject.

(** ** Intent (api/v1alpha1/workflow_intent.go) *)

Record TransferOptions := {
  to_UnusedStoragePolicy : string;
  to_DestinationCapacity : string;
  to_SourcePath : string;
  to_DestinationPath : string;
  to_DestinationStorageClass : string;
  to_SourceNode : string;
  to_TargetNode : string;
  to_CapacityAwareness : string;
  to_ToolNetworkPolicy : string;
  to_Strategies : list string;
  to_VerifyChecksum : bool;
  to_DeleteExtraneous : option bool;
  to_AllowVolumeShrink : bool;
  to_SkipSourceUsageCheck : bool;
  to_CopyTimeout : option string
}.

(** [TransferOptions.DeleteExtraneousValue]: omitted means true. *)
Definition DeleteExtraneousValue (o : TransferOptions) : bool := default true (to_DeleteExtraneous o).

Record CopySpec := {
  cys_Options : TransferOptions;             (* embedded *)
  cys_Volumes : list VolumeRequest;
  cys_Pod : option LocalResourceReference;
  cys_Online : bool
}.

Record ReservationSpec := {
  rvs_Options : TransferOptions;             (* embedded *)
  rvs_Volumes : list VolumeRequest;
  rvs_Pod : option LocalResourceReference
}.

Record ClusterCopySpec := {
  ccs_Spec : CopySpec;                       (* embedded *)
  ccs_SourceNamespace : string;
  ccs_DestinationNamespace : string;
  ccs_SessionNamespace : string
}.

Record ClusterReservationSpec := {
  crs_Spec : ReservationSpec;                (* embedded *)
  crs_SourceNamespace : string;
  crs_DestinationNamespace : string;
  crs_SessionNamespace : string
}.

#[global] Instance LocalResourceReference_eq_dec : EqDecision LocalResourceReference.
Proof. solve_decision. Defined.
#[global] Instance TransferScope_eq_dec : EqDecision TransferScope.
Proof. solve_decision. Defined.
#[global] Instance VolumeRequest_eq_dec : EqDecision VolumeRequest.
Proof. solve_decision. Defined.
#[global] Instance TransferOptions_eq_dec : EqDecision TransferOptions.
Proof. solve_decision. Defined.
#[global] Instance CopySpec_eq_dec : EqDecision CopySpec.
Proof. solve_decision. Defined.
#[global] Instance ClusterCopySpec_eq_dec : EqDecision ClusterCopySpec.
Proof. solve_decision. Defined.

(** ** Plans (workflow_types.go, cluster_workflow_types.go) *)

Record ReservationPlan := {
  rvp_Volumes : list VolumeSpec;
  rvp_SourceNode : string;
  rvp_TargetNode : string;
  rvp_ToolImage : string;
  rvp_Strategies : list string;
  rvp_VerifyChecksum : bool;
  rvp_UnusedStoragePolicy : string;
  rvp_DeleteExtraneous : bool;
  rvp_SkipSourceUsageCheck : bool
}.

Record CopyPlan := {
  cyp_Volumes : list VolumeSpec;
  cyp_SourceNode : string;
  cyp_TargetNode : string;
  cyp_ToolImage : string;
  cyp_Strategies : list string;
  cyp_VerifyChecksum : bool;
  cyp_DeleteExtraneous : bool;
  cyp_UnusedStoragePolicy : string;
  cyp_SkipSourceUsageCheck : bool;
  cyp_Online : bool
}.

Record ClusterReservationPlan := {
  crp_Plan : ReservationPlan;                (* embedded *)
  crp_SourceNamespace : string;
  crp_DestinationNamespace : string;
  crp_SessionNamespace : string
}.

Record ClusterCopyPlan := {
  ccp_Plan : CopyPlan;                       (* embedded *)
  ccp_SourceNamespace : string;
  ccp_DestinationNamespace : string;
  ccp_SessionNamespace : string
}.

(** ** Checkpoints *)

Record VolumeReservationStatus := {
  lr_SourcePVCName : string;
  lr_DestinationPVC : option LocalResourceReference;
  lr_DestinationPV : option LocalResourceReference;
  lr_DestinationPolicy : string;
  lr_Reserved : bool
}.

Record CopySyncStatus := {
  cps_WarmCompletedAt : option Time;
  cps_Attempts : Z;
  cps_BytesCopied : Z;
  cps_LastError : string
}.

Record CopyVolumeStatus := {
  cyv_Reservation : VolumeReservationStatus; (* embedded *)
  cyv_Sync : CopySyncStatus
}.

Record ClusterCopyVolumeStatus := {
  ccv_Reservation : ReservationStatus;       (* embedded *)
  ccv_Sync : CopySyncStatus
}.

#[global] Instance VolumeReservationStatus_eq_dec : EqDecision VolumeReservationStatus.
Proof. solve_decision. Defined.
#[global] Instance CopySyncStatus_eq_dec : EqDecision CopySyncStatus.
Proof. solve_decision. Defined.
#[global] Instance CopyVolumeStatus_eq_dec : EqDecision CopyVolumeStatus.
Proof. solve_decision. Defined.
#[global] Instance ClusterCopyVolumeStatus_eq_dec : EqDecision ClusterCopyVolumeStatus.
Proof. solve_decision. Defined.

(** ** Objects *)

Record Copy := {
  cy_Name : string;
  cy_Namespace : string;
  cy_DeletionTimestamp : option Time;
  cy_Spec : CopySpec;
  cy_SourceNode : string;
  cy_Plan : option CopyPlan;
  cy_Status : WorkflowStatus;                (* embedded in the status *)
  cy_Volumes : list CopyVolumeStatus
}.

Record ClusterCopy := {
  cc_Name : string;
  cc_Namespace : string;
  cc_DeletionTimestamp : option Time;
  cc_Spec : ClusterCopySpec;
  cc_SourceNode : string;
  cc_Plan : option ClusterCopyPlan;
  cc_Status : WorkflowStatus;
  cc_Volumes : list ClusterCopyVolumeStatus
}.

Record Reservation := {
  rsv_Name : string;
  rsv_Namespace : string;
  rsv_DeletionTimestamp : option Time;
  rsv_Spec : ReservationSpec;
  rsv_Plan : option ReservationPlan;
  rsv_Status : WorkflowStatus;
  rsv_Volumes : list VolumeReservationStatus
}.

Record ClusterReservation := {
  crv_Name : string;
  crv_Namespace : string;
  crv_DeletionTimestamp : option Time;
  crv_Spec : ClusterReservationSpec;
  crv_Plan : option ClusterReservationPlan;
  crv_Status : WorkflowStatus;
  crv_Volumes : list ReservationStatus
}.

Definition deleted (t : option Time) : bool := bool_decide (is_Some t).

(** ** Indexes *)

(** [indexes[name]]: the last index with that name. *)
Definition volumeIndexes {A} (name : A -> string) (volumes : list A) : gmap string nat :=
  foldl (fun indexes iv => <[name iv.2 := iv.1]> indexes) ∅ (imap pair volumes).

Definition clusterCopyVolumeIndexes : list ClusterCopyVolumeStatus -> gmap string nat :=
  volumeIndexes (fun v => rs_SourcePVCName (ccv_Reservation v)).
Definition copyVolumeIndexes : list CopyVolumeStatus -> gmap string nat :=
  volumeIndexes (fun v => lr_SourcePVCName (cyv_Reservation v)).
Definition clusterReservationVolumeIndexes : list ReservationStatus -> gmap string nat :=
  volumeIndexes rs_SourcePVCName.
Definition reservationVolumeIndexes : list VolumeReservationStatus -> gmap string nat :=
  volumeIndexes lr_SourcePVCName.

(** ** Scope of a checkpoint (namespaced_reservation_validation.go) *)

Definition qualifiedReservationCheckpoint (local : VolumeReservationStatus) (namespace : string) : ReservationStatus :=
  {| rs_SourcePVCName := lr_SourcePVCName local;
     rs_DestinationPVC := (fun ref => qualifiedResourceReference ref namespace) <$> lr_DestinationPVC local;
     rs_DestinationPV := (fun ref => qualifiedResourceReference ref "") <$> lr_DestinationPV local;
     rs_DestinationPolicy := lr_DestinationPolicy local; rs_Reserved := lr_Reserved local |}.

Definition localReservationCheckpoint (checkpoint : ReservationStatus) (namespace : string)
    : result VolumeReservationStatus :=
  let foreign (ref : option ObjectReference) (ns : string) :=
    match ref with Some ref => Namespace ref <>s ns | None => false end in
  if foreign (rs_DestinationPVC checkpoint) namespace then
    inr (NewError ErrorConflict "reservation checkpoint" "destination PVC is outside the workflow namespace")
  else if foreign (rs_DestinationPV checkpoint) "" then
    inr (NewError ErrorConflict "reservation checkpoint" "destination PV must be cluster-scoped")
  else
    inl {| lr_SourcePVCName := rs_SourcePVCName checkpoint;
           lr_DestinationPVC := localResourceReference <$> rs_DestinationPVC checkpoint;
           lr_DestinationPV := localResourceReference <$> rs_DestinationPV checkpoint;
           lr_DestinationPolicy := rs_DestinationPolicy checkpoint; lr_Reserved := rs_Reserved checkpoint |}.

(** ** Lifecycles *)

Definition reservation_invalid (message : string) : option err := Some (NewError ErrorValidation "reservation" message).
Definition copy_invalid (message : string) : option err := Some (NewError ErrorValidation "copy" message).

Definition validateReservationLifecycle (status : WorkflowStatus) : option err :=
  if negb (match ws_Phase status with
           | PhaseNone | PhasePlanned | PhaseReserving | PhaseReserved | PhaseAborting | PhaseAborted | PhaseFailed => true
           | _ => false
           end) then reservation_invalid "phase does not belong to reservation"
  else if negb (match ws_ResumeFrom status with
                | PhaseNone | PhasePlanned | PhaseReserving | PhaseReserved | PhaseAborting => true
                | _ => false
                end) then reservation_invalid "resume checkpoint does not belong to reservation"
  else if ((ws_Phase status =p PhaseFailed) && (ws_ResumeFrom status =p PhaseNone))%bool then
    reservation_invalid "failed reservation has no resume checkpoint"
  else if ws_FailureReason status <>s "" then reservation_invalid "reservation has an unsupported failure reason"
  else None.

Definition copyPhase (phase : Phase) : bool :=
  match phase with
  | PhaseNone | PhasePlanned | PhaseReserving | PhaseReserved | PhaseWarmCopying | PhaseWarmCopied | PhaseAborting
  | PhaseAborted | PhaseFailed => true
  | _ => false
  end.

Definition validateCopyLifecycle (status : WorkflowStatus) : option err :=
  if negb (forallb copyPhase [ws_Phase status; ws_ResumeFrom status]) then copy_invalid "phase does not belong to copy"
  else if ((ws_Phase status =p PhaseFailed)
           && ((ws_ResumeFrom status =p PhaseNone) || (ws_ResumeFrom status =p PhaseFailed)))%bool then
    copy_invalid "failed copy requires a valid resume checkpoint"
  else if ((ws_FailureReason status <>s "")
           && (negb (ws_Phase status =p PhaseFailed)
               || (ws_FailureReason status <>s FailureDestinationCapacityExhausted)))%bool then
    copy_invalid "copy failure reason is invalid"
  else None.

(** ** Requests *)

(** The planned volume of a request, if it satisfies the request. *)
Definition request_satisfied (volumes : gmap string VolumeSpec) (request : VolumeRequest) : bool :=
  match volumes !! local_Name (vr_SourcePVC request) with
  | None => false
  | Some volume =>
      (reservationReferenceMatches (vr_SourcePVC request) (vs_SourcePVC volume)
       && matches_opt (vr_SourcePV request) (vs_SourcePV volume)
       && matches_opt (vr_DestinationPVC request) (vs_DestinationPVC volume))%bool
  end.

Definition validateCopyRequestedVolumes (requests : list VolumeRequest) (volumes : gmap string VolumeSpec) : option err :=
  if forallb (request_satisfied volumes) requests then None
  else copy_invalid "planned volume does not satisfy the requested identity".

Definition validate_reservation_requests (requests : list VolumeRequest) (volumes : gmap string VolumeSpec) : option err :=
  if forallb (request_satisfied volumes) requests then None
  else reservation_invalid "planned volume does not satisfy the requested identity".

(** ** Checkpoints of a reservation *)

(** A claim that differs from the planned one, a volume without identity; the namespaces
    are those of qualified references. *)
Definition wrong_pvc (volume : VolumeSpec) (namespace : string) (ref : option ObjectReference) : bool :=
  match ref with
  | Some ref => ((Name ref <>s local_Name (vs_DestinationPVC volume)) || (Namespace ref <>s namespace) || (UID ref =s ""))%bool
  | None => false
  end.
Definition wrong_pv (ref : option ObjectReference) : bool :=
  match ref with
  | Some ref => ((Name ref =s "") || (Namespace ref <>s "") || (UID ref =s ""))%bool
  | None => false
  end.

(** The same of local references. *)
Definition wrong_local_pvc (volume : VolumeSpec) (ref : option LocalResourceReference) : bool :=
  match ref with
  | Some ref => ((local_Name ref <>s local_Name (vs_DestinationPVC volume)) || (local_UID ref =s ""))%bool
  | None => false
  end.
Definition wrong_local_pv (ref : option LocalResourceReference) : bool :=
  match ref with Some ref => ((local_Name ref =s "") || (local_UID ref =s ""))%bool | None => false end.

Definition missing {A} (x : option A) : bool := match x with Some _ => false | None => true end.

Fixpoint cluster_reservation_loop (volumes : gmap string VolumeSpec) (destinationNamespace : string) (phase : Phase)
    (seen : list string) (checkpoints : list ReservationStatus) : option err :=
  match checkpoints with
  | [] => None
  | checkpoint :: rest =>
      let name := rs_SourcePVCName checkpoint in
      let unknown := reservation_invalid "reservation checkpoint contains an unknown or duplicate source PVC" in
      match volumes !! name with
      | None => unknown
      | Some volume =>
          if contains seen name then unknown
          else if wrong_pvc volume destinationNamespace (rs_DestinationPVC checkpoint) then
            reservation_invalid "reservation checkpoint destination PVC identity is invalid"
          else if wrong_pv (rs_DestinationPV checkpoint) then
            reservation_invalid "reservation checkpoint destination PV identity is invalid"
          else if (rs_Reserved checkpoint
                   && (missing (rs_DestinationPVC checkpoint) || missing (rs_DestinationPV checkpoint)))%bool then
            reservation_invalid "reserved volume requires destination PVC and PV identities"
          else if ((phase =p PhaseReserved) && negb (rs_Reserved checkpoint))%bool then
            reservation_invalid (sprint ["PVC "; name; " has not completed reservation"])
          else cluster_reservation_loop volumes destinationNamespace phase (name :: seen) rest
      end
  end.

Definition validateClusterReservationCheckpoints (volumes : gmap string VolumeSpec) (checkpoints : list ReservationStatus)
    (destinationNamespace : string) (phase : Phase) : option err :=
  if (Nat.eqb (length checkpoints) 0 && negb (phase =p PhaseReserved))%bool then None
  else if negb (Nat.eqb (length checkpoints) (size volumes)) then
    reservation_invalid "reservation checkpoint must cover every planned volume"
  else cluster_reservation_loop volumes destinationNamespace phase [] checkpoints.

Fixpoint reservation_checkpoint_loop (volumes : gmap string VolumeSpec) (phase : Phase)
    (seen : list string) (checkpoints : list VolumeReservationStatus) : option err :=
  match checkpoints with
  | [] => None
  | checkpoint :: rest =>
      let name := lr_SourcePVCName checkpoint in
      let unknown := reservation_invalid "reservation checkpoint contains an unknown or duplicate source PVC" in
      match volumes !! name with
      | None => unknown
      | Some volume =>
          if contains seen name then unknown
          else if wrong_local_pvc volume (lr_DestinationPVC checkpoint) then
            reservation_invalid "reservation checkpoint destination PVC identity is invalid"
          else if wrong_local_pv (lr_DestinationPV checkpoint) then
            reservation_invalid "reservation checkpoint destination PV identity is invalid"
          else if (lr_Reserved checkpoint
                   && (missing (lr_DestinationPVC checkpoint) || missing (lr_DestinationPV checkpoint)))%bool then
            reservation_invalid "reserved volume requires destination PVC and PV identities"
          else if ((phase =p PhaseReserved) && negb (lr_Reserved checkpoint))%bool then
            reservation_invalid "reservation has an incomplete volume checkpoint"
          else reservation_checkpoint_loop volumes phase (name :: seen) rest
      end
  end.

Definition validateReservationCheckpoints (volumes : gmap string VolumeSpec) (checkpoints : list VolumeReservationStatus)
    (phase : Phase) : option err :=
  if (Nat.eqb (length checkpoints) 0 && negb (phase =p PhaseReserved))%bool then None
  else if negb (Nat.eqb (length checkpoints) (size volumes)) then
    reservation_invalid "reservation checkpoint must cover every planned volume"
  else reservation_checkpoint_loop volumes phase [] checkpoints.

(** ** Checkpoints of a copy *)

Definition requires_reserved (phase : Phase) : bool :=
  match phase with PhaseReserved | PhaseWarmCopying | PhaseWarmCopied => true | _ => false end.

(** The checks on the synchronization of one volume. *)
Definition wrong_sync (phase : Phase) (reserved : bool) (sync : CopySyncStatus) : bool :=
  (Z.ltb (cps_Attempts sync) 0 || (Z.ltb 0 (cps_Attempts sync) && negb reserved)
   || (negb (missing (cps_WarmCompletedAt sync)) && negb reserved)
   || ((phase =p PhaseWarmCopied) && missing (cps_WarmCompletedAt sync)))%bool.

Definition validate_cluster_copy_checkpoint (phase : Phase) (destinationNamespace : string) (volume : VolumeSpec)
    (checkpoint : ClusterCopyVolumeStatus) : option err :=
  let reservation := ccv_Reservation checkpoint in
  if wrong_pvc volume destinationNamespace (rs_DestinationPVC reservation) then
    copy_invalid "copy destination PVC checkpoint is invalid"
  else if wrong_pv (rs_DestinationPV reservation) then copy_invalid "copy destination PV checkpoint is invalid"
  else if (requires_reserved phase && negb (rs_Reserved reservation))%bool then
    copy_invalid "copy phase requires reserved volumes"
  else if (rs_Reserved reservation
           && (missing (rs_DestinationPVC reservation) || missing (rs_DestinationPV reservation)))%bool then
    copy_invalid "reserved copy volume requires destination identities"
  else if wrong_sync phase (rs_Reserved reservation) (ccv_Sync checkpoint) then
    copy_invalid "copy synchronization checkpoint is invalid"
  else None.

Definition validate_copy_checkpoint (phase : Phase) (volume : VolumeSpec) (checkpoint : CopyVolumeStatus) : option err :=
  let reservation := cyv_Reservation checkpoint in
  if wrong_local_pvc volume (lr_DestinationPVC reservation) then copy_invalid "copy destination PVC checkpoint is invalid"
  else if wrong_local_pv (lr_DestinationPV reservation) then copy_invalid "copy destination PV checkpoint is invalid"
  else if (requires_reserved phase && negb (lr_Reserved reservation))%bool then
    copy_invalid "copy phase requires reserved volumes"
  else if (lr_Reserved reservation
           && (missing (lr_DestinationPVC reservation) || missing (lr_DestinationPV reservation)))%bool then
    copy_invalid "reserved copy volume requires destination identities"
  else if wrong_sync phase (lr_Reserved reservation) (cyv_Sync checkpoint) then
    copy_invalid "copy synchronization checkpoint is invalid"
  else None.

(** The loop over the planned volumes; an index of the map is in range. *)
Fixpoint copy_checkpoint_loop {A} (indexes : gmap string nat) (checkpoints : list A) (check : VolumeSpec -> A -> option err)
    (volumes : list VolumeSpec) : option err :=
  match volumes with
  | [] => None
  | volume :: rest =>
      match indexes !! planned_name volume ≫= fun i => checkpoints !! i with
      | None => copy_invalid "copy checkpoint is missing a planned source"
      | Some checkpoint =>
          match check volume checkpoint with
          | Some e => Some e
          | None => copy_checkpoint_loop indexes checkpoints check rest
          end
      end
  end.

Definition validate_copy_checkpoints {A} (indexes : gmap string nat) (checkpoints : list A)
    (check : VolumeSpec -> A -> option err) (volumes : list VolumeSpec) (phase : Phase) : option err :=
  if (Nat.eqb (length checkpoints) 0 && negb (requires_reserved phase))%bool then None
  else if negb (Nat.eqb (length checkpoints) (length volumes)) then
    copy_invalid "copy checkpoint must cover every planned volume"
  else if negb (Nat.eqb (size indexes) (length checkpoints)) then
    copy_invalid "copy checkpoint has duplicate source identities"
  else copy_checkpoint_loop indexes checkpoints check volumes.

Definition validateClusterCopyCheckpoints (volumes : list VolumeSpec) (destinationNamespace : string)
    (checkpoints : list ClusterCopyVolumeStatus) (phase : Phase) : option err :=
  validate_copy_checkpoints (clusterCopyVolumeIndexes checkpoints) checkpoints
    (validate_cluster_copy_checkpoint phase destinationNamespace) volumes phase.

Definition validateCopyCheckpoints (volumes : list VolumeSpec) (checkpoints : list CopyVolumeStatus) (phase : Phase)
    : option err :=
  validate_copy_checkpoints (copyVolumeIndexes checkpoints) checkpoints (validate_copy_checkpoint phase) volumes phase.

(** ** Objects *)

(** Progress without a plan. *)
Definition unplanned_phase (phase : Phase) : bool :=
  match phase with PhaseNone | PhasePlanned | PhaseAborted => true | _ => false end.

Section validation.
Context `{QT : QuantityText}.

Definition validateClusterReservationObject (object : ClusterReservation) : option err :=
  if ((crv_Name object =s "") || (crv_Namespace object <>s ""))%bool then
    reservation_invalid "a named cluster-scoped reservation is required"
  else
  first_err (validateReservationLifecycle (crv_Status object)) (
  let phase := workflowResumePhase (crv_Status object) in
  let deleting := deleted (crv_DeletionTimestamp object) in
  let spec := crv_Spec object in
  match crv_Plan object with
  | None =>
      if (negb (Nat.eqb (length (crv_Volumes object)) 0) || negb (unplanned_phase phase))%bool then
        reservation_invalid "reservation progress requires an execution plan"
      else None
  | Some cluster =>
      let plan := crp_Plan cluster in
      if Nat.eqb (length (rvp_Volumes plan)) 0 then
        reservation_invalid "reservation plan requires at least one volume"
      else if ws_Phase (crv_Status object) =p PhaseNone then
        reservation_invalid "planned reservation requires a lifecycle phase"
      else if ((crp_SourceNamespace cluster =s "") || (crp_DestinationNamespace cluster =s ""))%bool then
        reservation_invalid "reservation plan namespaces must match its spec"
      else
      first_err (unless deleting
        (if ((crp_SourceNamespace cluster <>s crs_SourceNamespace spec)
             || (crp_DestinationNamespace cluster <>s crs_DestinationNamespace spec))%bool then
           reservation_invalid "reservation plan namespaces must match its spec"
         else ValidateUnusedStoragePolicy (to_UnusedStoragePolicy (rvs_Options (crs_Spec spec))))) (
      first_err (ValidateUnusedStoragePolicy (rvp_UnusedStoragePolicy plan)) (
      match validateReservationVolumes (rvp_Volumes plan) (crp_SourceNamespace cluster)
              (crp_DestinationNamespace cluster) with
      | inr e => Some e
      | inl volumes =>
          first_err (unless deleting (validate_reservation_requests (rvs_Volumes (crs_Spec spec)) volumes))
            (validateClusterReservationCheckpoints volumes (crv_Volumes object) (crp_DestinationNamespace cluster) phase)
      end))
  end).

Definition validateReservationObject (object : Reservation) : option err :=
  if ((rsv_Name object =s "") || (rsv_Namespace object =s ""))%bool then
    reservation_invalid "a named namespaced reservation is required"
  else
  first_err (validateReservationLifecycle (rsv_Status object)) (
  let phase := workflowResumePhase (rsv_Status object) in
  let deleting := deleted (rsv_DeletionTimestamp object) in
  match rsv_Plan object with
  | None =>
      if (negb (Nat.eqb (length (rsv_Volumes object)) 0) || negb (unplanned_phase phase))%bool then
        reservation_invalid "reservation progress requires an execution plan"
      else None
  | Some plan =>
      if ((ws_Phase (rsv_Status object) =p PhaseNone) || Nat.eqb (length (rvp_Volumes plan)) 0)%bool then
        reservation_invalid "planned reservation requires a lifecycle phase and volumes"
      else
      first_err (unless deleting (ValidateUnusedStoragePolicy (to_UnusedStoragePolicy (rvs_Options (rsv_Spec object))))) (
      first_err (ValidateUnusedStoragePolicy (rvp_UnusedStoragePolicy plan)) (
      match validateReservationVolumes (rvp_Volumes plan) (rsv_Namespace object) (rsv_Namespace object) with
      | inr e => Some e
      | inl volumes =>
          first_err (unless deleting (validate_reservation_requests (rvs_Volumes (rsv_Spec object)) volumes))
            (validateReservationCheckpoints volumes (rsv_Volumes object) phase)
      end))
  end).

(** The runtime placement contradicts the planned one. *)
Definition wrong_source_node (recorded planned : string) : bool :=
  ((recorded <>s "") && (planned <>s "") && (recorded <>s planned))%bool.

Definition validateClusterCopyObject (object : ClusterCopy) : option err :=
  if ((cc_Name object =s "") || (cc_Namespace object <>s ""))%bool then
    copy_invalid "a named cluster-scoped copy is required"
  else
  first_err (validateCopyLifecycle (cc_Status object)) (
  let phase := workflowResumePhase (cc_Status object) in
  let deleting := deleted (cc_DeletionTimestamp object) in
  let spec := cc_Spec object in
  match cc_Plan object with
  | None =>
      if (negb (Nat.eqb (length (cc_Volumes object)) 0) || (cc_SourceNode object <>s "")
          || negb (unplanned_phase phase))%bool then
        copy_invalid "copy execution progress requires a plan"
      else None
  | Some cluster =>
      let plan := ccp_Plan cluster in
      if ((ws_Phase (cc_Status object) =p PhaseNone) || Nat.eqb (length (cyp_Volumes plan)) 0
          || (ccp_SourceNamespace cluster =s "") || (ccp_DestinationNamespace cluster =s ""))%bool then
        copy_invalid "copy plan must match its spec and contain resolved volumes"
      else
      first_err (ValidateUnusedStoragePolicy (cyp_UnusedStoragePolicy plan)) (
      first_err (unless deleting
        (if ((ccp_SourceNamespace cluster <>s ccs_SourceNamespace spec)
             || (ccp_DestinationNamespace cluster <>s ccs_DestinationNamespace spec)
             || negb (Bool.eqb (cyp_Online plan) (cys_Online (ccs_Spec spec))))%bool then
           copy_invalid "copy plan must match its spec and contain resolved volumes"
         else ValidateUnusedStoragePolicy (to_UnusedStoragePolicy (cys_Options (ccs_Spec spec))))) (
      match validateReservationVolumes (cyp_Volumes plan) (ccp_SourceNamespace cluster)
              (ccp_DestinationNamespace cluster) with
      | inr e => Some e
      | inl volumes =>
          first_err (unless deleting (validateCopyRequestedVolumes (cys_Volumes (ccs_Spec spec)) volumes)) (
          if wrong_source_node (cc_SourceNode object) (cyp_SourceNode plan) then
            copy_invalid "copy source placement differs from the planned node"
          else validateClusterCopyCheckpoints (cyp_Volumes plan) (ccp_DestinationNamespace cluster) (cc_Volumes object) phase)
      end))
  end).

Definition validateCopyObject (object : Copy) : option err :=
  if ((cy_Name object =s "") || (cy_Namespace object =s ""))%bool then
    copy_invalid "a named namespaced copy is required"
  else
  first_err (validateCopyLifecycle (cy_Status object)) (
  let phase := workflowResumePhase (cy_Status object) in
  let deleting := deleted (cy_DeletionTimestamp object) in
  let spec := cy_Spec object in
  match cy_Plan object with
  | None =>
      if (negb (Nat.eqb (length (cy_Volumes object)) 0) || (cy_SourceNode object <>s "")
          || negb (unplanned_phase phase))%bool then
        copy_invalid "copy execution progress requires a plan"
      else None
  | Some plan =>
      if ((ws_Phase (cy_Status object) =p PhaseNone) || Nat.eqb (length (cyp_Volumes plan)) 0)%bool then
        copy_invalid "copy plan must match its spec and contain resolved volumes"
      else
      first_err (ValidateUnusedStoragePolicy (cyp_UnusedStoragePolicy plan)) (
      first_err (unless deleting
        (if negb (Bool.eqb (cyp_Online plan) (cys_Online spec)) then
           copy_invalid "copy plan must match its spec and contain resolved volumes"
         else ValidateUnusedStoragePolicy (to_UnusedStoragePolicy (cys_Options spec)))) (
      match validateReservationVolumes (cyp_Volumes plan) (cy_Namespace object) (cy_Namespace object) with
      | inr e => Some e
      | inl volumes =>
          first_err (unless deleting (validateCopyRequestedVolumes (cys_Volumes spec) volumes)) (
          if wrong_source_node (cy_SourceNode object) (cyp_SourceNode plan) then
            copy_invalid "copy source placement differs from the planned node"
          else validateCopyCheckpoints (cyp_Volumes plan) (cy_Volumes object) phase)
      end))
  end).
End validation.
