(* ===== verification/Staged.v ===== *)
(** * Executors that stage a destination

    What the executors of copies and reservations share, in both scopes:
    internal/app/copy_executor.go, namespaced_copy.go, reservation_executor.go and
    namespaced_reservation.go ([transition], [fail], the reservation loop), the lifecycle
    files ([RequestResume], [FinalizeDeleted]) and the cleanup files ([prepareCleanup],
    [cleanup]).  The four executors run the same steps on different objects;
    [StagedWorkflow] is what the steps need of an object, StagedInstances gives the four
    instances and StagedLaws proves the laws the theorems rely on.

    Checkpoints are seen as qualified references ([sw_checkpoints]); recording one in a
    namespaced object fails when it lies outside the object's namespace ([sw_record]).
    The exported methods run these bodies under the session lock (WorkflowLock); [held]
    says whether the context carries the lock and [terminal] stands for the context
    values that mark a deletion or finalize pass. *)

From S2P Require Import Prelude Utf8 GoErrors Lifecycle PhaseMachines KubeTypes Prog Api ResourceState Ownership PVBinding NodeSelection GoFormat Quota PVCPolicy Reserver TransferPath Reclaim MigrationObject Offline Activation MigrationStorage MigrationCleanup CopyEngine Exec CopyRunner SourceLoss Executor CleanupExecutor MigrationSync StagedObjects.

(** ** The interface *)

(** What the shared steps read of a plan; the namespaces of a namespaced object are its
    own. *)
Record StagedPlan := {
  sp_Volumes : list VolumeSpec;
  sp_SourceNamespace : string;
  sp_DestinationNamespace : string;
  sp_TargetNode : string;
  sp_ToolImage : string;
  sp_UnusedStoragePolicy : string;
  sp_SkipSourceUsageCheck : bool
}.

(** The texts of the executors. *)
Record StagedTexts := {
  sx_operation : string;
  sx_reserving : string;
  sx_reserved : string;
  sx_resume : string;
  sx_abortUnplanned : string;
  sx_aborting : string;
  sx_aborted : string;
  sx_deleting : string
}.

Class StagedWorkflow (Obj : Type) := {
  sw_status :: WorkflowObject Obj;
  sw_texts : StagedTexts;
  sw_delivered : Phase;                            (* the phase of a finished workflow *)
  sw_joinFence : bool;                             (* how the fence between volumes is asked *)
  sw_Name : Obj -> string;
  sw_deleting : Obj -> bool;
  sw_plan : Obj -> option StagedPlan;
  sw_checkpoints : Obj -> list ReservationStatus;
  sw_start : Obj -> Obj;                           (* blank checkpoints, if there are none *)
  sw_record : Obj -> nat -> ReservationStatus -> result Obj;
  sw_sameProgress : Obj -> Obj -> bool;            (* [reflect.DeepEqual] of the statuses *)
  sw_validateObject : Obj -> option err;
  sw_validateTransition : Obj -> Phase -> option err;
  sw_failureReason : err -> string
}.

Record StagedCleanupOptions := {
  so_UnusedStoragePolicy : string;
  so_Finalize : bool;
  so_DeleteSession : bool
}.

Definition finalize_staged : StagedCleanupOptions :=
  {| so_UnusedStoragePolicy := ""; so_Finalize := true; so_DeleteSession := true |}.

(** A checkpoint with nothing but the name. *)
Definition blank_reservation (volume : VolumeSpec) : ReservationStatus :=
  {| rs_SourcePVCName := planned_name volume; rs_DestinationPVC := None; rs_DestinationPV := None;
     rs_DestinationPolicy := ""; rs_Reserved := false |}.

Definition checkpointIndexes : list ReservationStatus -> gmap string nat := volumeIndexes rs_SourcePVCName.

(** [indexes[name]]: a name without an index reads 0. *)
Definition index_of (indexes : gmap string nat) (volume : VolumeSpec) : nat :=
  default 0 (indexes !! planned_name volume).

Definition source_ref (plan : StagedPlan) (volume : VolumeSpec) : ObjectReference :=
  qualifiedResourceReference (vs_SourcePVC volume) (sp_SourceNamespace plan).
Definition source_pv (volume : VolumeSpec) : ObjectReference := qualifiedResourceReference (vs_SourcePV volume) "".
Definition destination_ref (plan : StagedPlan) (volume : VolumeSpec) : ObjectReference :=
  qualifiedResourceReference (vs_DestinationPVC volume) (sp_DestinationNamespace plan).

Definition staged_manifest `{QuantityText} (plan : StagedPlan) (volume : VolumeSpec) : result PVC :=
  reservationManifest (destination_ref plan volume) (vs_Capacity volume) (vs_StorageClass volume)
    (vs_VolumeMode volume) (vs_AccessModes volume).

(** Complete as the executors of copies and reservations require it. *)
Definition staged_complete (st : ReservationStatus) : bool :=
  (rs_Reserved st && negb (missing (rs_DestinationPVC st)) && negb (missing (rs_DestinationPV st)))%bool.

Section executor.
Context `{CR : ConflictRetry} `{QT : QuantityText} `{IG : ImageGrammar} {Obj : Type} `{SW : StagedWorkflow Obj}.
Context (reserver : Reserver) (polls : nat) (terminal held : bool).
Notation exec := (execOf Obj).
Notation outcome := (Obj * option err)%type.
Notation texts := (sw_texts (Obj := Obj)).
Notation delivered := (sw_delivered (Obj := Obj)).
Implicit Types o : Obj.

Definition staged_phase o : Phase := ws_Phase (wf_get o).
Definition staged_resume o : Phase := workflowResumePhase (wf_get o).
Definition staged_planned o : bool := bool_decide (is_Some (sw_plan o)).

(** ** Transitions *)

Definition staged_transition (detached : bool) o (next : Phase) (message : string) : exec outcome :=
  match sw_validateTransition o next with
  | Some e => Ret (o, Some e)
  | None =>
      s ← match ws_StartedAt (wf_get o) with
          | Some _ => Ret (wf_get o)
          | None => t ← call (XKube Now); Ret (with_StartedAt (wf_get o) t)
          end;
      t ← call (XKube Now);
      let o' := wf_put o (RecordWorkflowTransition s next message t) in
      e ← persist detached o';
      Ret match e with Some x => (o, Some x) | None => (o', None) end
  end.

Definition staged_fail o (cause : err) : exec outcome :=
  t ← call (XKube Now);
  recordWorkflowFailure staged_transition o cause (sw_failureReason cause) t.

(** ** Reservation *)

Definition staged_request o (plan : StagedPlan) (image : string) : ReservationRequest :=
  {| SessionID := sw_Name o; TargetNode := sp_TargetNode plan; ToolImage := image |}.

Definition volume_fence : exec (option err) :=
  if sw_joinFence (Obj := Obj) then fence_x [] else checkpoint_fence false.

(** The checkpoint the reserver returned is saved whether or not it failed. *)
Definition save_checkpoint o (i : nat) (checkpoint : ReservationStatus) (failure : option err)
    (k : Obj -> exec outcome) : exec outcome :=
  match sw_record o i checkpoint with
  | inr scopeErr => staged_fail o (default scopeErr (errors_Join [failure; Some scopeErr]))
  | inl o' =>
      s ← persist false o';
      match s with
      | Some saveErr => Ret (o, errors_Join [failure; Some saveErr])
      | None =>
          match failure with
          | Some e => staged_fail o' e
          | None =>
              if staged_complete checkpoint then k o'
              else staged_fail o' (NewError ErrorInternal (sx_operation texts)
                     "reserver did not produce a complete checkpoint")
          end
      end
  end.

Definition staged_reserve_volume (image : string) (plan : StagedPlan) (indexes : gmap string nat) (volume : VolumeSpec)
    (k : Obj -> exec outcome) o : exec outcome :=
  check_x o volume_fence (
  or_panic (sw_checkpoints o !! index_of indexes volume) (fun status =>
  if rs_Reserved status then k o else
  match staged_manifest plan volume with
  | inr e => staged_fail o e
  | inl desired =>
      r ← lift (ReserveVolume reserver (staged_request o plan image) (source_ref plan volume) (source_pv volume)
                  (vs_SourceCapacity volume) (Some desired) (Some status));
      or_panic r.1 (fun checkpoint => save_checkpoint o (index_of indexes volume) checkpoint r.2 k)
  end)).

Fixpoint staged_reserve_volumes (image : string) (plan : StagedPlan) (indexes : gmap string nat)
    (volumes : list VolumeSpec) o : exec outcome :=
  match volumes with
  | [] => staged_transition false o PhaseReserved (sx_reserved texts)
  | volume :: rest => staged_reserve_volume image plan indexes volume (staged_reserve_volumes image plan indexes rest) o
  end.

Definition staged_reserve (image : string) (plan : StagedPlan) o : exec outcome :=
  t ← staged_transition false (sw_start o) PhaseReserving (sx_reserving texts);
  match t.2 with
  | Some e => Ret (o, Some e)
  | None =>
      n ← RequireNamespace (sp_DestinationNamespace plan);
      match n with
      | Some e => staged_fail t.1 e
      | None =>
          staged_reserve_volumes image plan (checkpointIndexes (sw_checkpoints t.1)) (sp_Volumes plan) t.1
      end
  end.

(** ** Resume *)

Definition staged_RequestResume (validate : Obj -> exec (option err)) o : exec outcome :=
  check_x o (Ret (sw_validateObject o)) (
  check_x o (validate o) (
  if negb (staged_phase o =p PhaseFailed) then Ret (o, None) else
  t ← call (XKube Now);
  match ReactivateWorkflow (wf_get o) (sx_resume texts) t with
  | inr e => Ret (o, Some e)
  | inl st =>
      let o' := wf_put o st in
      e ← persist false o';
      Ret match e with Some x => (o, Some x) | None => (o', None) end
  end)).

(** ** Cleanup *)

Definition finished o : bool := ((staged_phase o =p delivered) || (staged_phase o =p PhaseAborted))%bool.

Definition validate_staged_options o (options : StagedCleanupOptions) : option err :=
  let operation := sx_operation texts +:+ " cleanup" in
  first_err (ValidateUnusedStoragePolicy (so_UnusedStoragePolicy options)) (
  if (so_DeleteSession options && negb (so_Finalize options))%bool then
    Some (NewError ErrorPrecondition operation "deleting the session requires finalization")
  else if (staged_planned o && negb (finished o))%bool then
    Some (NewError ErrorPrecondition operation (sx_operation texts +:+ " is still active; abort before cleanup"))
  else None).

Definition staged_policy (plan : StagedPlan) (options : StagedCleanupOptions) : string :=
  if so_UnusedStoragePolicy options <>s "" then so_UnusedStoragePolicy options else sp_UnusedStoragePolicy plan.

(** Only an aborted workflow has an unused destination to reclaim. *)
Definition deletes_unused o (plan : StagedPlan) (options : StagedCleanupOptions) : bool :=
  (DeletesUnusedStorage (staged_policy plan options) && (staged_phase o =p PhaseAborted))%bool.

Fixpoint prepare_destinations (id : string) (plan : StagedPlan) (deleteUnused : bool) (indexes : gmap string nat)
    (volumes : list VolumeSpec) (preview : Obj) : exec (result (Obj * list reclaimVolume)) :=
  match volumes with
  | [] => Ret (inl (preview, []))
  | volume :: rest =>
      check: lift (validateSourceOwnershipRelease id (source_ref plan volume) (source_pv volume)
                     (vs_SourceReclaimPolicy volume));
      or_panic (sw_checkpoints preview !! index_of indexes volume) (fun checkpoint =>
      try: prepared ← lift (prepareReservedDestination terminal id (source_ref plan volume) (destination_ref plan volume)
                              (local_UID (vs_SourcePV volume)) checkpoint deleteUnused);
      try: preview ← Ret (sw_record preview (index_of indexes volume) prepared.1);
      try: more ← prepare_destinations id plan deleteUnused indexes rest preview;
      Ret (inl (more.1, prepared.2 :: more.2)))
  end.

Definition staged_prepareCleanup o (options : StagedCleanupOptions)
    : exec (result (Obj * list reclaimVolume * list ObjectReference)) :=
  check: Ret (sw_validateObject o);
  check: Ret (validate_staged_options o options);
  match sw_plan o with
  | None => Ret (inl (o, [], []))
  | Some plan =>
      let preview := sw_start o in
      try: prepared ← prepare_destinations (sw_Name o) plan (deletes_unused o plan options)
                        (checkpointIndexes (sw_checkpoints preview)) (sp_Volumes plan) preview;
      try: volumes ← lift (protectRetainedPVs prepared.2);
      try: pods ← lift (inventoryReservationPods (sw_Name o) [sp_DestinationNamespace plan]);
      check: validate_volumes (sw_Name o) (so_Finalize options) volumes;
      Ret (inl (prepared.1, volumes, pods))
  end.

(** Saved only if the status changed, and taken back if that fails. *)
Definition staged_save_preview o (preview : Obj) : exec outcome :=
  if sw_sameProgress o preview then Ret (o, None) else
  e ← persist false preview;
  Ret match e with Some x => (o, Some x) | None => (preview, None) end.

(** Without finalization, a source whose destination is reserved stays held. *)
Fixpoint release_staged (plan : StagedPlan) (finalize : bool) (indexes : gmap string nat) o (volumes : list VolumeSpec)
    : exec (option err) :=
  match volumes with
  | [] => Ret None
  | volume :: rest =>
      or_panic (if finalize then Some false else rs_Reserved <$> sw_checkpoints o !! index_of indexes volume)
        (fun skip =>
      if (skip : bool) then release_staged plan finalize indexes o rest
      else
        check: lift (releaseSourceOwnership (sw_Name o) (source_ref plan volume) (source_pv volume)
                       (vs_SourceReclaimPolicy volume));
        release_staged plan finalize indexes o rest)
  end.

Definition staged_cleanup o (options : StagedCleanupOptions) : exec outcome :=
  r ← staged_prepareCleanup o options;
  match r with
  | inr e => Ret (o, Some e)
  | inl (preview, volumes, pods) =>
      step_x (staged_save_preview o preview) (fun o =>
      check_x o (lift (deleteReservationConsumers polls pods)) (
      check_x o
        (match sw_plan o with
         | Some plan =>
             release_staged plan (so_Finalize options) (checkpointIndexes (sw_checkpoints o)) o (sp_Volumes plan)
         | None => Ret None
         end) (
      check_x o (reclaim_volumes polls (sw_Name o) (so_Finalize options) volumes) (
      if so_DeleteSession options then delete_session held o else Ret (o, None)))))
  end.

(** ** Deletion *)

Definition staged_condition (now : Time) : WorkflowCondition :=
  {| cond_Type := "Deleting"; cond_Status := "True"; cond_Reason := "CleaningUp"; cond_Message := sx_deleting texts;
     cond_LastTransitionTime := now |}.

(** Under the lock. *)
Definition staged_finalize_locked (abort : Obj -> exec outcome) o : exec outcome :=
  t ← call (XKube Now);
  let marked := wf_put o (SetWorkflowCondition (wf_get o) (staged_condition t)) in
  check_x o (persist false marked) (
  step_x (if finished marked then Ret (marked, None) else abort marked) (fun o => staged_cleanup o finalize_staged)).

Definition staged_FinalizeDeleted (abort : Obj -> exec outcome) (object : option Obj)
    : exec (option Obj * option err) :=
  let required := NewError ErrorPrecondition ("finalize " +:+ sx_operation texts) "workflow deletion is required" in
  match object with
  | None => Ret (None, Some required)
  | Some o =>
      let o := if sw_deleting o then wf_put o (repaired_status (wf_get o)) else o in
      match sw_validateObject o with
      | Some e => Ret (Some o, Some e)
      | None =>
          if negb (sw_deleting o) then Ret (Some o, Some required)
          else r ← staged_finalize_locked abort o; Ret (Some r.1, r.2)
      end
  end.
End executor.
