(* ===== verification/ReservationExecutor.v ===== *)
(** * The reservation executors

    internal/app/reservation_executor.go and namespaced_reservation.go ([Run],
    [Validate]), with the abort of reservation_executor_lifecycle.go and
    namespaced_reservation_lifecycle.go: destination storage is provisioned volume by
    volume and kept.  The reservation loop, resume, cleanup and deletion are those of
    Staged; everything is generic in the scope of the object. *)

From S2P Require Import Prelude Utf8 GoErrors Lifecycle PhaseMachines KubeTypes Prog Api ResourceState Ownership PVBinding NodeSelection GoFormat Quota PVCPolicy Reserver TransferPath Reclaim MigrationObject Offline Activation MigrationStorage MigrationCleanup CopyEngine Exec CopyRunner SourceLoss Executor CleanupExecutor MigrationSync StagedObjects Staged.

Record ReservationExecutorConfig := {
  rc_VolumeUsageReader : bool;               (* whether one is configured *)
  rc_ToolImageProber : bool;
  rc_TrustedToolImage : string;
  rc_ProbeTimeout : Z
}.

(** The trusted image, if there is one. *)
Definition reservation_image (config : ReservationExecutorConfig) (planned : string) : string :=
  let trusted := TrimSpace (rc_TrustedToolImage config) in if trusted <>s "" then trusted else planned.

Section executor.
Context `{CR : ConflictRetry} `{QT : QuantityText} `{IG : ImageGrammar} {Obj : Type} `{SW : StagedWorkflow Obj}.
Context (config : ReservationExecutorConfig) (reserver : Reserver) (polls : nat) (terminal held : bool).
Notation exec := (execOf Obj).
Notation outcome := (Obj * option err)%type.
Notation texts := (sw_texts (Obj := Obj)).
Implicit Types o : Obj.

(** ** Validation *)

Definition validate_reserved_volume o (plan : StagedPlan) (volume : VolumeSpec) (checkpoint : ReservationStatus)
    : exec (option err) :=
  check: VerifyVolumeShrinkUsage (rc_VolumeUsageReader config) (source_ref plan volume) (source_pv volume)
           (vs_SourceCapacity volume) (vs_Capacity volume) (SourceTransferPath (vs_TransferScope volume))
           (sp_SkipSourceUsageCheck plan);
  try: desired ← Ret (staged_manifest plan volume);
  lift (ValidateVolumeReservation (staged_request o plan (sp_ToolImage plan)) (source_ref plan volume) (source_pv volume)
          (vs_SourceCapacity volume) (Some desired) checkpoint).

Fixpoint validate_reserved_volumes o (plan : StagedPlan) (volumes : list VolumeSpec) : exec (option err) :=
  match volumes with
  | [] => Ret None
  | volume :: rest =>
      or_panic
        (match sw_checkpoints o with
         | [] => Some (blank_reservation volume)
         | checkpoints => checkpoints !! index_of (checkpointIndexes checkpoints) volume
         end) (fun checkpoint =>
      check: validate_reserved_volume o plan volume checkpoint;
      validate_reserved_volumes o plan rest)
  end.

Definition reservation_Validate o : exec (option err) :=
  check: Ret (sw_validateObject o);
  if ((staged_resume o =p PhaseAborted) || (staged_resume o =p PhaseAborting))%bool then Ret None else
  match sw_plan o with
  | None => Ret None
  | Some plan => validate_reserved_volumes o plan (sp_Volumes plan)
  end.

(** ** Abort *)

Definition reservation_abort o : exec outcome :=
  check_x o (Ret (sw_validateObject o)) (
  if staged_phase o =p PhaseAborted then Ret (o, None) else
  if negb (staged_planned o) then staged_transition false o PhaseAborted (sx_abortUnplanned texts) else
  step_x (staged_transition false o PhaseAborting (sx_aborting texts)) (fun o =>
  staged_transition false o PhaseAborted (sx_aborted texts))).

(** ** Run *)

Definition reservation_probe o (plan : StagedPlan) : exec (option err) :=
  if rc_ToolImageProber config then
    r ← serve (SProbe {| po_OperationID := sw_Name o; po_Image := reservation_image config (sp_ToolImage plan);
                         po_Targets := reservationToolProbeTargets [sp_DestinationNamespace plan] (sp_TargetNode plan);
                         po_Timeout := rc_ProbeTimeout config |});
    Ret match r with inr e => Some e | inl _ => None end
  else Ret None.

Definition reservation_run o : exec outcome :=
  if staged_resume o =p PhaseAborted then Ret (o, None) else
  if staged_resume o =p PhaseAborting then reservation_abort o else
  match sw_plan o with
  | None => Ret (o, Some (NewError ErrorPrecondition "reservation" "reservation requires execution planning"))
  | Some plan =>
      v ← reservation_Validate o;
      match v with
      | Some e => staged_fail o e
      | None =>
          if staged_phase o =p PhaseReserved then Ret (o, None) else
          p ← reservation_probe o plan;
          match p with
          | Some e => staged_fail o e
          | None => staged_reserve reserver (reservation_image config (sp_ToolImage plan)) plan o
          end
      end
  end.

Definition reservation_Run o : exec outcome :=
  check_x o (Ret (sw_validateObject o)) (reservation_run o).

Definition reservation_Abort o : exec outcome :=
  check_x o (Ret (sw_validateObject o)) (reservation_abort o).

Definition reservation_RequestResume : Obj -> exec outcome := staged_RequestResume reservation_Validate.

Definition reservation_FinalizeDeleted : option Obj -> exec (option Obj * option err) :=
  staged_FinalizeDeleted polls terminal held reservation_abort.
End executor.
