(* ===== verification/CopyExecutor.v ===== *)
(** * The copy executors

    internal/app/copy_resources.go, copy_executor.go, copy_executor_validation.go,
    copy_executor_transfer.go, copy_executor_lifecycle.go and their namespaced
    counterparts, with [validateCopyConsumersFromPods] of copy.go, [checkpointWarmCopy]
    of copy_checkpoint.go and [warmCopyProbeError] of workflow_support.go: destinations
    are reserved, then every volume is copied once per pass, while its consumers run when
    the plan is online.  The reservation loop, resume, cleanup and deletion are those of
    Staged; everything is generic in the scope of the object.

    Whether an OpenEBS LVM volume may be mounted twice is asked of the driver
    ([SShared]). *)

From S2P Require Import Prelude Utf8 GoErrors Lifecycle PhaseMachines KubeTypes Prog Api ResourceState Ownership PVBinding NodeSelection GoFormat Quota PVCPolicy Reserver TransferPath Reclaim MigrationObject Offline Activation MigrationStorage MigrationCleanup CopyEngine Exec CopyRunner SourceLoss Executor CleanupExecutor MigrationSync StagedObjects Staged.

(** ** Consumers of the source (copy.go) *)

Definition copy_preflight (message : string) : result string :=
  inr (NewError ErrorPrecondition "copy preflight" message).

Definition validateCopyConsumersFromPods (online : bool) (source : ObjectReference) (accessModes : list string)
    (pods : list Pod) (listErr : option err) (sourceNode : string) : result string :=
  match listErr with
  | Some e => inr (WrapError ErrorKubernetes "copy preflight" ("list PVC consumers in " +:+ Namespace source) e)
  | None =>
      let active := List.filter (fun pod => ActivePodUsesPVC pod (Name source)) pods in
      let scheduled := List.filter (fun pod => pod_NodeName pod <>s "") active in
      let nodes := dedup [] (map pod_NodeName scheduled) in
      let claim := sprint [Namespace source; "/"; Name source] in
      if Nat.eqb (length active) 0 then inl ""
      else if negb online then
        copy_preflight (sprint ["offline copy requires PVC "; claim; " to have zero active Pod consumers"])
      else if HasAccessMode accessModes "ReadWriteOncePod" then
        copy_preflight (sprint ["active RWOP PVC "; claim; " cannot be warm-copied"])
      else if (HasAccessMode accessModes "ReadWriteOnce" && negb (Nat.eqb (length scheduled) (length active)))%bool then
        copy_preflight (sprint ["every active consumer of RWO PVC "; claim; " must be scheduled before online copy"])
      else
      match nodes with
      | [] => inl ""
      | [node] =>
          if ((sourceNode <>s "") && (node <>s sourceNode))%bool then
            inr (NewError ErrorConflict "copy preflight"
              (sprint ["PVC "; claim; " consumer runs on "; node; ", session source node is "; sourceNode]))
          else inl node
      | _ => copy_preflight (sprint ["online copy consumers for PVC "; claim; " moved across multiple nodes"])
      end
  end.

(** ** Mount failures of the probe (kube/tool_probe.go, workflow_support.go) *)

Definition IsConcurrentMountFailureMessage (message : string) : bool :=
  existsb (strings_Contains (strings_ToLower message))
    ["already mounted"; "multi-attach"; "already in use by another pod"; "already in use by pod";
     "readwriteoncepod access mode"; "volume is already exclusively attached"].

Definition OperationCopy : string := "Copy".
Definition OperationMigratePod : string := "MigratePod".
Definition ErrorOperationWarmCopyMountProbe : string := "warm-copy mount probe".

Definition probed_claims (targets : list ToolProbeTarget) : list string :=
  dedup [] (map (fun t => sprint [tt_Namespace t; "/"; tt_PVCName t])
    (List.filter (fun t => ((tt_PVCName t <>s "") && negb (tt_SkipPVCMount t))%bool) targets)).

Definition warmCopyProbeError (operation : string) (targets : list ToolProbeTarget) (e : err) : err :=
  if negb (IsConcurrentMountFailureMessage (error_text e)) then e
  else
    match probed_claims targets with
    | [] => e
    | pvcs =>
        let recovery :=
          if operation =s OperationCopy then
            "rerun the copy without --online after the source PVC has no active Pod consumers"
          else if operation =s OperationMigratePod then "rerun the migration with --precopy-passes 0"
          else "disable warm copy after making sure the source PVC has no active Pod consumers" in
        WrapError ErrorPrecondition ErrorOperationWarmCopyMountProbe
          (sprint ["second-Pod mount failed for source PVC(s) "; strings_join "," (slices_Sort pvcs);
                   " while the source workload is active: "; error_text e;
                   "; abort this pre-cutover session, clean its retained resources, and "; recovery]) e
    end.

(** ** The interface *)

(** The plan of a copy with the namespaces it works in. *)
Record ScopedCopyPlan := {
  scp_Plan : CopyPlan;
  scp_SourceNamespace : string;
  scp_DestinationNamespace : string
}.

Definition staged_plan (plan : ScopedCopyPlan) : StagedPlan :=
  {| sp_Volumes := cyp_Volumes (scp_Plan plan); sp_SourceNamespace := scp_SourceNamespace plan;
     sp_DestinationNamespace := scp_DestinationNamespace plan; sp_TargetNode := cyp_TargetNode (scp_Plan plan);
     sp_ToolImage := cyp_ToolImage (scp_Plan plan); sp_UnusedStoragePolicy := cyp_UnusedStoragePolicy (scp_Plan plan);
     sp_SkipSourceUsageCheck := cyp_SkipSourceUsageCheck (scp_Plan plan) |}.

Class CopyWorkflow (Obj : Type) := {
  cw_staged :: StagedWorkflow Obj;
  cw_plan : Obj -> option ScopedCopyPlan;
  cw_SourceNode : Obj -> string;
  cw_set_SourceNode : Obj -> string -> Obj;
  cw_sync : Obj -> list CopySyncStatus;                                    (* one per checkpoint *)
  cw_set_sync : Obj -> nat -> (CopySyncStatus -> CopySyncStatus) -> Obj
}.

Record CopyExecutorConfig := {
  xc_Transfer : VolumeCopyConfig;
  xc_ToolImageProber : bool;                 (* whether one is configured *)
  xc_VolumeUsageReader : bool;
  xc_SharedVolumeManager : bool;
  xc_ProbeTimeout : Z
}.

Definition newCopyResources (c : CopyExecutorConfig) : CopyExecutorConfig :=
  {| xc_Transfer := newVolumeCopyRunner (xc_Transfer c); xc_ToolImageProber := xc_ToolImageProber c;
     xc_VolumeUsageReader := xc_VolumeUsageReader c; xc_SharedVolumeManager := xc_SharedVolumeManager c;
     xc_ProbeTimeout := xc_ProbeTimeout c |}.

Definition validateCopyRetry (reason : string) : option err :=
  if reason =s FailureDestinationCapacityExhausted then
    Some (NewError ErrorConflict "copy"
      "destination capacity was exhausted; abort and clean up this copy before creating one with larger storage")
  else None.

(** A pass that is repeated starts over. *)
Definition restarted (s : CopySyncStatus) : CopySyncStatus :=
  {| cps_WarmCompletedAt := None; cps_Attempts := cps_Attempts s; cps_BytesCopied := 0; cps_LastError := "" |}.

Definition warm_copied (now : Time) (s : CopySyncStatus) : CopySyncStatus :=
  {| cps_WarmCompletedAt := Some now; cps_Attempts := cps_Attempts s; cps_BytesCopied := cps_BytesCopied s;
     cps_LastError := "" |}.

Section executor.
Context `{CR : ConflictRetry} `{QT : QuantityText} `{IG : ImageGrammar} `{LG : LabelGrammar}.
Context {Obj : Type} `{CW : CopyWorkflow Obj}.
Context (config : CopyExecutorConfig) (reserver : Reserver) (steps polls : nat) (terminal held : bool).
Notation exec := (execOf Obj).
Notation outcome := (Obj * option err)%type.
Notation texts := (sw_texts (Obj := Obj)).
Notation transfer := (xc_Transfer config).
Implicit Types o : Obj.

(** ** Resources (copy_resources.go) *)

Definition copy_image (planned : string) : string := runner_toolImage transfer planned.

Definition copy_validateVolume (request : ReservationRequest) (plan : StagedPlan) (volume : VolumeSpec)
    (checkpoint : ReservationStatus) : kube (option err) :=
  try: desired ← Ret (staged_manifest plan volume);
  ValidateVolumeReservation request (source_ref plan volume) (source_pv volume) (vs_SourceCapacity volume) (Some desired)
    checkpoint.

(** Whether the source is an OpenEBS LVM volume, and whether it may be mounted twice. *)
Definition sharedSource (sourcePV : ObjectReference) : exec (result (bool * bool)) :=
  if negb (xc_SharedVolumeManager config) then Ret (inl (false, false)) else
  g ← call (XKube (GetPV (Name sourcePV)));
  match (g : result PV) with
  | inr e => Ret (inr e)
  | inl pv =>
      if pv_UID pv <>s UID sourcePV then Ret (inr (NewError ErrorConflict "copy" "source PV identity changed"))
      else if negb (bool_decide (pv_CSIDriver pv = Some OpenEBSLVMCSIDriver)) then Ret (inl (false, false))
      else
        s ← serve (SShared sourcePV);
        Ret match (s : result bool) with inr e => inr e | inl shared => inl (true, shared) end
  end.

Definition copy_probe (id image : string) (targets : list ToolProbeTarget) : exec (result (list ToolImageProbeResult)) :=
  if (negb (xc_ToolImageProber config) || Nat.eqb (length targets) 0)%bool then Ret (inl [])
  else
    serve (SProbe {| po_OperationID := id; po_Image := copy_image image; po_Targets := targets;
                     po_Timeout := if Z.leb (xc_ProbeTimeout config) 0 then vc_HelmTimeout transfer
                                   else xc_ProbeTimeout config |}).

Definition empty_inventory : err := NewError ErrorKubernetes "copy" "source Pod inventory returned an empty object".

Definition validateConsumers (source : ObjectReference) (accessModes : list string) (online : bool) (node : string)
    : kube (option err) :=
  r ← call (ListPods (Namespace source));
  match (r : result (option (list Pod))) with
  | inr e => Ret (Some e)
  | inl None => Ret (Some empty_inventory)
  | inl (Some pods) =>
      Ret match validateCopyConsumersFromPods online source accessModes pods None node with
          | inr e => Some e
          | inl _ => None
          end
  end.

(** The rest of one volume of [validateStorage]: its usage, its reservation, and that an
    LVM volume in use may be mounted twice. *)
Definition validate_stored_volume (request : ReservationRequest) (plan : StagedPlan) (pods : list Pod)
    (volume : VolumeSpec) (checkpoint : ReservationStatus) : exec (option err) :=
  let source := source_ref plan volume in
  check: VerifyVolumeShrinkUsage (xc_VolumeUsageReader config) source (source_pv volume) (vs_SourceCapacity volume)
           (vs_Capacity volume) (SourceTransferPath (vs_TransferScope volume)) (sp_SkipSourceUsageCheck plan);
  check: lift (copy_validateVolume request plan volume checkpoint);
  if (existsb (fun pod => ActivePodUsesPVC pod (Name source)) pods && xc_SharedVolumeManager config)%bool then
    try: mounting ← sharedSource (source_pv volume);
    Ret (if (mounting.1 && negb mounting.2)%bool then
           Some (NewError ErrorPrecondition "copy"
             (sprint ["active OpenEBS LVM source PVC "; Namespace source; "/"; Name source;
                      " requires shared mounting for online copy"]))
         else None)
  else Ret None.

Fixpoint validate_stored_volumes (request : ReservationRequest) (plan : StagedPlan) (online : bool) (pods : list Pod)
    (checkpoints : gmap string ReservationStatus) (volumes : list VolumeSpec) (node : string) : exec (result string) :=
  match volumes with
  | [] => Ret (inl node)
  | volume :: rest =>
      try: inferred ← Ret (validateCopyConsumersFromPods online (source_ref plan volume) (vs_AccessModes volume) pods
                             None node);
      let node := if node =s "" then inferred else node in
      check: validate_stored_volume request plan pods volume
               (default (blank_reservation volume) (checkpoints !! planned_name volume));
      validate_stored_volumes request plan online pods checkpoints rest node
  end.

Definition validateStorage (id : string) (plan : ScopedCopyPlan) (sourceNode : string)
    (checkpoints : gmap string ReservationStatus) : exec (result string) :=
  let node := if sourceNode =s "" then cyp_SourceNode (scp_Plan plan) else sourceNode in
  let request := {| SessionID := id; TargetNode := cyp_TargetNode (scp_Plan plan);
                    ToolImage := copy_image (cyp_ToolImage (scp_Plan plan)) |} in
  r ← call (XKube (ListPods (scp_SourceNamespace plan)));
  match (r : result (option (list Pod))) with
  | inr e => Ret (inr e)
  | inl None => Ret (inr empty_inventory)
  | inl (Some pods) =>
      validate_stored_volumes request (staged_plan plan) (cyp_Online (scp_Plan plan)) pods checkpoints
        (cyp_Volumes (scp_Plan plan)) node
  end.

Fixpoint volume_targets (plan : ScopedCopyPlan) (sourceNode : string) (volumes : list VolumeSpec)
    : exec (result (list ToolProbeTarget)) :=
  match volumes with
  | [] => Ret (inl [])
  | volume :: rest =>
      try: mounting ← sharedSource (source_pv volume);
      let strategies := cyp_Strategies (scp_Plan plan) in
      let path := SourceTransferPath (vs_TransferScope volume) in
      let destination := DestinationTransferPath (vs_TransferScope volume) in
      try: more ← volume_targets plan sourceNode rest;
      Ret (inl (
        {| tt_Namespace := scp_SourceNamespace plan; tt_NodeName := sourceNode; tt_PVCName := planned_name volume;
           tt_SkipPVCMount := false; tt_WritablePVCMount := mounting.2;
           tt_RequiredPath := if path <>s VolumeRootPath then path else ""; tt_CreatePath := false;
           tt_Components := if sessionNeedsSourceSSHD strategies then [ToolComponentSSHD] else [] |} ::
        (if destination <>s VolumeRootPath then
           [{| tt_Namespace := scp_DestinationNamespace plan; tt_NodeName := cyp_TargetNode (scp_Plan plan);
               tt_PVCName := local_Name (vs_DestinationPVC volume); tt_SkipPVCMount := false;
               tt_WritablePVCMount := true; tt_RequiredPath := destination; tt_CreatePath := true;
               tt_Components := [ToolComponentRsync] |}]
         else []) ++ more))
  end.

Definition probeTargets (plan : ScopedCopyPlan) (sourceNode : string) : exec (result (list ToolProbeTarget)) :=
  let node := cyp_TargetNode (scp_Plan plan) in
  try: volumes ← volume_targets plan sourceNode (cyp_Volumes (scp_Plan plan));
  Ret (inl ((if node <>s "" then
               toolProbeTargetsForNamespaces [scp_DestinationNamespace plan] node
                 (ToolComponentRsync :: (if contains (cyp_Strategies (scp_Plan plan)) StrategyLocal
                                         then [ToolComponentSSHD] else []))
             else []) ++ volumes)).

(** ** Validation of an object *)

(** [checkpoints[volume.SourcePVCName] = ...] *)
Definition checkpoint_map (checkpoints : list ReservationStatus) : gmap string ReservationStatus :=
  foldl (fun m c => <[rs_SourcePVCName c := c]> m) ∅ checkpoints.

Definition validateResources o (plan : ScopedCopyPlan) : exec (result string) :=
  validateStorage (sw_Name o) plan (cw_SourceNode o) (checkpoint_map (sw_checkpoints o)).

Definition copy_Validate o : exec (option err) :=
  check: Ret (sw_validateObject o);
  match cw_plan o with
  | None => Ret None
  | Some plan =>
      if staged_resume o =p PhaseAborted then Ret None else
      check: Ret (validateCopyRetry (ws_FailureReason (wf_get o)));
      r ← validateResources o plan;
      Ret match r with inr e => Some e | inl _ => None end
  end.

(** ** Interrupted attempts *)

Definition copy_request o (plan : ScopedCopyPlan) : ReservationRequest :=
  staged_request o (staged_plan plan) (copy_image (cyp_ToolImage (scp_Plan plan))).

Definition warm_cleanup_request o (plan : ScopedCopyPlan) (volume : VolumeSpec) (attempts : Z) : CleanupRequest :=
  {| cl_Identity := {| ai_SessionID := sw_Name o; ai_Source := source_ref (staged_plan plan) volume; ai_Mode := ModeWarm;
                       ai_Attempt := attempts |};
     cl_DestinationNamespace := scp_DestinationNamespace plan;
     cl_KubeconfigPath := vc_KubeconfigPath transfer; cl_Context := vc_Context transfer;
     cl_DestinationKubeconfigPath := ""; cl_DestinationContext := ""; cl_Strategies := cyp_Strategies (scp_Plan plan) |}.

Definition cleanup_interrupted_copy o (plan : ScopedCopyPlan) (volume : VolumeSpec) : exec (option err) :=
  match checkpointIndexes (sw_checkpoints o) !! planned_name volume with
  | None => Ret None
  | Some i =>
      or_panic (sw_checkpoints o !! i) (fun checkpoint =>
      or_panic (cw_sync o !! i) (fun sync =>
      if (Z.eqb (cps_Attempts sync) 0 || negb (missing (cps_WarmCompletedAt sync)))%bool then Ret None else
      try: skip ← lift (copyDeletionValidationSkip (scp_SourceNamespace plan) volume checkpoint);
      check: (if (skip : bool) then Ret None
              else lift (copy_validateVolume (copy_request o plan) (staged_plan plan) volume checkpoint));
      let request := warm_cleanup_request o plan volume (cps_Attempts sync) in
      e ← serve (SCopyCleanup request);
      match (e : option err) with
      | Some x => Ret (Some x)
      | None =>
          or_panic (rs_DestinationPVC checkpoint) (fun destination =>
          cleanupCopyToolPods polls (source_ref (staged_plan plan) volume) destination (OperationID (cl_Identity request)))
      end))
  end.

Fixpoint cleanup_interrupted_copies o (plan : ScopedCopyPlan) (volumes : list VolumeSpec) : exec (option err) :=
  match volumes with
  | [] => Ret None
  | volume :: rest => check: cleanup_interrupted_copy o plan volume; cleanup_interrupted_copies o plan rest
  end.

Definition cleanupInterrupted o : exec (option err) :=
  or_panic (cw_plan o) (fun plan => cleanup_interrupted_copies o plan (cyp_Volumes (scp_Plan plan))).

(** ** Abort *)

Definition copy_abort o : exec outcome :=
  if staged_phase o =p PhaseAborted then Ret (o, None) else
  if negb (staged_planned o) then staged_transition false o PhaseAborted (sx_abortUnplanned texts) else
  step_x (staged_transition false o PhaseAborting (sx_aborting texts)) (fun o =>
  check_x o (cleanupInterrupted o) (
  staged_transition false o PhaseAborted (sx_aborted texts))).

(** ** The copies *)

Definition warm_request o (plan : ScopedCopyPlan) (volume : VolumeSpec) (destination : ObjectReference) : CopyRequest :=
  let p := scp_Plan plan in
  {| cq_Identity := {| ai_SessionID := sw_Name o; ai_Source := source_ref (staged_plan plan) volume; ai_Mode := ModeWarm;
                       ai_Attempt := 0 |};
     cq_Source := {| cs_KubeconfigPath := ""; cs_Context := ""; cs_Path := SourceTransferPath (vs_TransferScope volume);
                     cs_MountReadWrite := false |};
     cq_Destination := {| cd_Reference := destination; cd_KubeconfigPath := ""; cd_Context := "";
                          cd_Path := DestinationTransferPath (vs_TransferScope volume) |};
     cq_Policy := {| cp_Strategies := cyp_Strategies p; cp_DeleteExtraneousFiles := cyp_DeleteExtraneous p;
                     cp_VerifyChecksum := cyp_VerifyChecksum p;
                     cp_IgnoreSizes := destinationCapacityIsSmaller (vs_SourceCapacity volume) (vs_Capacity volume);
                     cp_Compress := false; cp_BandwidthLimit := ""; cp_RsyncMaxRetries := 0;
                     cp_TolerateLiveSourceChurn := false; cp_ToolNetworkPolicy := "" |};
     cq_Runtime := {| cr_ToolImage := cyp_ToolImage p; cr_HelmTimeout := 0; cr_HelmValues := []; cr_HelmStringValues := [] |} |}.

(** [&status.Sync.Attempts] and [&status.Sync.LastError] of volume [i] *)
Definition warm_cursor (i : nat) : Cursor Obj := {|
  cursor_attempts o := default 0%Z (cps_Attempts <$> cw_sync o !! i);
  cursor_error o := default "" (cps_LastError <$> cw_sync o !! i);
  cursor_set o attempts lastError :=
    cw_set_sync o i (fun s => {| cps_WarmCompletedAt := cps_WarmCompletedAt s; cps_Attempts := attempts;
                                 cps_BytesCopied := cps_BytesCopied s; cps_LastError := lastError |}) |}.

(** What is verified again before every attempt; the runner changes neither the source
    node nor the reservation. *)
Definition validate_warm_attempt o (plan : ScopedCopyPlan) (volume : VolumeSpec) (checkpoint : ReservationStatus)
    : kube (option err) :=
  check: validateConsumers (source_ref (staged_plan plan) volume) (vs_AccessModes volume) (cyp_Online (scp_Plan plan))
           (cw_SourceNode o);
  copy_validateVolume (copy_request o plan) (staged_plan plan) volume checkpoint.

Definition warm_mount (volume : VolumeSpec) : exec (result bool) :=
  try: mounting ← sharedSource (source_pv volume);
  Ret (inl mounting.2).

(** [checkpointWarmCopy] (copy_checkpoint.go) *)
Definition checkpointWarmCopy o (i : nat) (now : Time) : exec outcome :=
  let o' := cw_set_sync o i (warm_copied now) in
  e ← persist false o';
  Ret match e with Some x => (o, Some x) | None => (o', None) end.

Definition copy_volume (plan : ScopedCopyPlan) (indexes : gmap string nat) (probes : list ToolImageProbeResult)
    (volume : VolumeSpec) (k : Obj -> exec outcome) o : exec outcome :=
  check_x o (checkpoint_fence false) (
  let i := index_of indexes volume in
  or_panic (sw_checkpoints o !! i) (fun checkpoint =>
  or_panic (cw_sync o !! i) (fun sync =>
  if negb (missing (cps_WarmCompletedAt sync)) then k o else
  or_panic (rs_DestinationPVC checkpoint) (fun destination =>
  r ← copyWithRetry transfer steps polls (warm_cursor i) ""
        (fun o' => lift (validate_warm_attempt o' plan volume checkpoint)) (warm_mount volume)
        (warm_request o plan volume destination) (cw_SourceNode o) (cyp_TargetNode (scp_Plan plan)) probes o;
  match r.2 with
  | Some e => staged_fail r.1 e
  | None =>
      t ← call (XKube Now);
      step_x (checkpointWarmCopy r.1 i t) k
  end)))).

Fixpoint copy_volumes (plan : ScopedCopyPlan) (indexes : gmap string nat) (probes : list ToolImageProbeResult)
    (volumes : list VolumeSpec) o : exec outcome :=
  match volumes with
  | [] => staged_transition false o PhaseWarmCopied "copy completed for all volumes"
  | volume :: rest => copy_volume plan indexes probes volume (copy_volumes plan indexes probes rest) o
  end.

Definition copyVolumes o : exec outcome :=
  check_x o (Ret (sw_validateObject o)) (
  or_panic (cw_plan o) (fun plan =>
  g ← probeTargets plan (cw_SourceNode o);
  match g with
  | inr e => staged_fail o e
  | inl targets =>
      p ← copy_probe (sw_Name o) (cyp_ToolImage (scp_Plan plan)) targets;
      match p with
      | inr e => staged_fail o (warmCopyProbeError OperationCopy targets e)
      | inl probes =>
          step_x (staged_transition false o PhaseWarmCopying "copying reserved volumes") (fun o =>
          copy_volumes plan (checkpointIndexes (sw_checkpoints o)) probes (cyp_Volumes (scp_Plan plan)) o)
      end
  end)).

(** ** Run *)

Definition copy_reserve (plan : ScopedCopyPlan) o : exec outcome :=
  let node := cyp_TargetNode (scp_Plan plan) in
  let reserve := staged_reserve reserver (copy_image (cyp_ToolImage (scp_Plan plan))) (staged_plan plan) o in
  if (xc_ToolImageProber config && (node <>s ""))%bool then
    p ← copy_probe (sw_Name o) (cyp_ToolImage (scp_Plan plan))
          (reservationToolProbeTargets [scp_DestinationNamespace plan] node);
    match p with inr e => staged_fail o e | inl _ => reserve end
  else reserve.

(** The placement inferred from online consumers. *)
Definition record_source_node o (node : string) : exec outcome :=
  if cw_SourceNode o =s node then Ret (o, None) else
  let o' := cw_set_SourceNode o node in
  e ← persist false o';
  Ret match e with Some x => (o, Some x) | None => (o', None) end.

Definition copy_run o : exec outcome :=
  let phase := staged_resume o in
  if ((phase =p PhaseAborted) || (phase =p PhaseWarmCopied))%bool then Ret (o, None) else
  if phase =p PhaseAborting then copy_abort o else
  match cw_plan o with
  | None => Ret (o, Some (NewError ErrorPrecondition "copy" "copy requires execution planning"))
  | Some plan =>
      check_x o (Ret (validateCopyRetry (ws_FailureReason (wf_get o)))) (
      check_x o (if phase =p PhaseWarmCopying then cleanupInterrupted o else Ret None) (
      v ← validateResources o plan;
      match v with
      | inr e => staged_fail o e
      | inl node =>
          step_x (record_source_node o node) (fun o =>
          step_x (if ((phase =p PhasePlanned) || (phase =p PhaseReserving))%bool then copy_reserve plan o
                  else Ret (o, None)) copyVolumes)
      end))
  end.

Definition copy_Run o : exec outcome := check_x o (Ret (sw_validateObject o)) (copy_run o).

Definition copy_Abort o : exec outcome := check_x o (Ret (sw_validateObject o)) (copy_abort o).

(** ** Another pass *)

Definition restart_all o : Obj :=
  foldl (fun o i => cw_set_sync o i restarted) o (seq 0 (length (cw_sync o))).

Definition RequestCopyPass o : exec outcome :=
  check_x o (Ret (sw_validateObject o)) (
  if negb (staged_phase o =p PhaseWarmCopied) then
    Ret (o, Some (NewError ErrorPrecondition "copy" "another pass requires a completed copy"))
  else
  check_x o (copy_Validate o) (
  t ← staged_transition false (restart_all o) PhaseWarmCopying "another copy pass requested";
  Ret match t.2 with Some e => (o, Some e) | None => t end)).

Definition copy_RequestResume : Obj -> exec outcome := staged_RequestResume copy_Validate.

Definition copy_FinalizeDeleted : option Obj -> exec (option Obj * option err) :=
  staged_FinalizeDeleted polls terminal held copy_abort.
End executor.
