(* ===== verification/Identity.v ===== *)
(** * Executors that give a claim another identity

    internal/app/rename_executor.go, move_executor.go and identity_cleanup.go.  The two
    executors run the same steps on different objects: both rebind one volume to a claim
    of another name through the switcher's [RenamePVC], record the claim in use, and roll
    back by renaming the other way.  [IdentityWorkflow] is what the steps need of an
    object; RenameMove gives the two instances, and the laws the theorems rely on.

    The exported methods run these bodies under the session lock; [held] says whether the
    context carries the lock.  Progress is reported to a callback that saves the object
    unchanged ([with_save]). *)

From S2P Require Import Prelude Utf8 GoErrors Lifecycle PhaseMachines KubeTypes Prog Api ResourceState Ownership PVBinding NodeSelection GoFormat Reserver Offline Activation Reclaim CopyEngine Exec MigrationObject Executor MigrationSync.

(** ** The interface *)

(** The plan with qualified references. *)
Record IdentityPlan := {
  ip_From : ObjectReference;
  ip_To : ObjectReference;
  ip_PV : ObjectReference;
  ip_Template : PVCSourceTemplate
}.

(** The texts of the two executors. *)
Record IdentityTexts := {
  it_Operation : string;        (* [domain.Operation] *)
  it_Name : string;
  it_Start : string;
  it_Completed : string;
  it_Restored : string;
  it_Resume : string;
  it_AbortUnplanned : string;
  it_Aborting : string;
  it_Aborted : string
}.

Class IdentityWorkflow (Obj : Type) := {
  iw_status :: WorkflowObject Obj;
  iw_texts : IdentityTexts;
  iw_rebindPhase : Phase;
  iw_Name : Obj -> string;
  iw_deleting : Obj -> bool;
  iw_plan : Obj -> option IdentityPlan;
  iw_active : Obj -> option ObjectReference;
  iw_activated : Obj -> PVC -> Time -> Obj;       (* [ActivePVC] and [ActivatedAt] recorded *)
  iw_restored : Obj -> PVC -> Time -> Obj;        (* [ActivePVC] and [RolledBackAt] recorded *)
  iw_validateIdentity : Obj -> option err;        (* what [locked] requires *)
  iw_validateStatus : Obj -> option err;
  iw_validateObject : Obj -> option err
}.

(** What the executors rely on: the status is independent of the rest; recording a claim
    changes nothing else and names that claim; and an accepted object has the planned
    destination in use in phase Completed or RollingBack, and the source when it is rolled
    back. *)
Class IdentityLaws (Obj : Type) `{IW : IdentityWorkflow Obj} := {
  il_rebind : iw_rebindPhase = PhaseRenaming \/ iw_rebindPhase = PhaseMoving;
  il_put_name : forall o st, iw_Name (wf_put o st) = iw_Name o;
  il_put_plan : forall o st, iw_plan (wf_put o st) = iw_plan o;
  il_put_active : forall o st, iw_active (wf_put o st) = iw_active o;
  il_activated_status : forall o p t, wf_get (iw_activated o p t) = wf_get o;
  il_activated_name : forall o p t, iw_Name (iw_activated o p t) = iw_Name o;
  il_activated_plan : forall o p t, iw_plan (iw_activated o p t) = iw_plan o;
  il_activated_active : forall o p t, exists a,
    iw_active (iw_activated o p t) = Some a /\ Name a = pvc_Name p /\ UID a = pvc_UID p;
  il_restored_status : forall o p t, wf_get (iw_restored o p t) = wf_get o;
  il_restored_name : forall o p t, iw_Name (iw_restored o p t) = iw_Name o;
  il_restored_plan : forall o p t, iw_plan (iw_restored o p t) = iw_plan o;
  il_restored_active : forall o p t, exists a,
    iw_active (iw_restored o p t) = Some a /\ Name a = pvc_Name p /\ UID a = pvc_UID p;
  il_valid_active : forall o plan,
    iw_validateObject o = None -> iw_plan o = Some plan ->
    workflowResumePhase (wf_get o) = PhaseCompleted \/ workflowResumePhase (wf_get o) = PhaseRollingBack ->
    exists a, iw_active o = Some a /\ Name a = Name (ip_To plan) /\ Namespace a = Namespace (ip_To plan) /\ UID a <> "";
  il_valid_restored : forall o plan,
    iw_validateObject o = None -> iw_plan o = Some plan -> workflowResumePhase (wf_get o) = PhaseRolledBack ->
    exists a, iw_active o = Some a /\ Name a = Name (ip_From plan) /\ Namespace a = Namespace (ip_From plan)
}.

Record IdentityCleanupOptions := { ic_Finalize : bool; ic_DeleteSession : bool }.

Definition validateIdentityCleanup (phase : Phase) (options : IdentityCleanupOptions) : option err :=
  if (negb (phase =p PhaseCompleted) && negb (phase =p PhaseAborted) && negb (phase =p PhaseRolledBack))%bool then
    Some (NewError ErrorPrecondition "cleanup" (sprint ["session phase "; phase_string phase; " is still active"]))
  else if (ic_DeleteSession options && negb (ic_Finalize options))%bool then
    Some (NewError ErrorPrecondition "cleanup" "deleting the session requires --finalize")
  else None.

Definition invalidWorkflowResumePhase (phase : Phase) (operation : string) : err :=
  NewError ErrorPrecondition ("resume " +:+ operation)
    (sprint ["phase "; phase_string phase; " cannot be resumed for operation "; operation]).

(** A volume that is bound to another claim. *)
Definition bound_to_other (pv : PV) (claim : ObjectReference) : bool :=
  match pv_ClaimRef pv with
  | Some ref =>
      (bool_decide (pv_Phase pv = VolumeBound)
       && ((UID ref <>s UID claim) || (Name ref <>s Name claim) || (Namespace ref <>s Namespace claim)))%bool
  | None => false
  end.

Definition validateRetainedIdentity (id : string) (claim volume : ObjectReference) (policy : string) : kube (option err) :=
  g ← call (GetPVC (Namespace claim) (Name claim));
  check: match g with
         | inr e => if IsNotFound e then Ret None else fail e
         | inl pvc =>
             if ((pvc_UID pvc <>s UID claim) || foreign_owner (mget (pvc_Labels pvc) SessionKey) id
                 || foreign_owner (mget (pvc_Annotations pvc) SessionKey) id)%bool then
               fail (NewError ErrorConflict "finalize PVC" "PVC identity or ownership changed")
             else Ret None
         end;
  v ← call (GetPV (Name volume));
  match v with
  | inr e => if IsNotFound e then Ret None else fail e
  | inl pv =>
      check: Ret (validateFinalizablePV pv volume id policy);
      if bound_to_other pv claim then fail (NewError ErrorConflict "finalize PV" "PV binding changed") else Ret None
  end.

(** [to.UID, to.ResourceVersion = "", ""] *)
Definition without_identity (ref : ObjectReference) : ObjectReference :=
  {| APIVersion := APIVersion ref; Kind := Kind ref; Namespace := Namespace ref; Name := Name ref; UID := "";
     ResourceVersion := "" |}.

Definition identity_condition (now : Time) : WorkflowCondition :=
  {| cond_Type := "Deleting"; cond_Status := "True"; cond_Reason := "ConvergingStorage";
     cond_Message := "Recovering PVC identity and releasing workflow resources before deletion";
     cond_LastTransitionTime := now |}.

Definition finalize_identity : IdentityCleanupOptions := {| ic_Finalize := true; ic_DeleteSession := true |}.

Section executor.
Context `{CR : ConflictRetry} `{QT : QuantityText} {Obj : Type} `{IW : IdentityWorkflow Obj}.
Context (s : Switcher) (held : bool).
Notation exec := (execOf Obj).
Notation outcome := (Obj * option err)%type.
Notation texts := (iw_texts (Obj := Obj)).
Notation rebindPhase := (iw_rebindPhase (Obj := Obj)).
Implicit Types o : Obj.

Definition phase_of o : Phase := ws_Phase (wf_get o).
Definition resume_of o : Phase := workflowResumePhase (wf_get o).
Definition planned o : bool := bool_decide (is_Some (iw_plan o)).

(** A switcher program whose progress callback saves the object. *)
Fixpoint with_save {A} (o : Obj) (p : kube A) : exec A :=
  match p with
  | Ret a => Ret a
  | OutOfFuel => OutOfFuel
  | Vis r k =>
      match r return (resp r -> kube A) -> exec A with
      | Progress _ => fun k => e ← persist false o; with_save o (k e)
      | r => fun k => Vis (XKube r) (fun x => with_save o (k x))
      end k
  end.

Definition identity_transition (detached : bool) o (next : Phase) (message : string) : exec outcome :=
  st ← match ws_StartedAt (wf_get o) with
       | Some _ => Ret (wf_get o)
       | None => t ← call (XKube Now); Ret (with_StartedAt (wf_get o) t)
       end;
  t ← call (XKube Now);
  match TransitionIdentity st (planned o) rebindPhase next message t with
  | inr e => Ret (o, Some e)
  | inl st' =>
      let o' := wf_put o st' in
      e ← persist detached o';
      Ret match e with Some x => (o, Some x) | None => (o', None) end
  end.

Definition identity_fail o (cause : err) : exec outcome :=
  t ← call (XKube Now);
  recordWorkflowFailure identity_transition o cause "" t.

(** [switcher.RenamePVC] with the manifest of the plan *)
Definition rebind o (plan : IdentityPlan) (from to : ObjectReference) : exec (result PVC) :=
  with_save o
    (RenamePVC s (iw_Name o) from (ip_PV plan)
       (Some (BoundPVCManifest (iw_Name o) to (Name (ip_PV plan)) (template_Spec (ip_Template plan))
                (template_Metadata (ip_Template plan)))) true).

(** *** Abort *)

Definition identity_ValidateAbort o : option err :=
  match iw_validateObject o with
  | Some e => Some e
  | None => if planned o then validateIdentityAbort (wf_get o) else None
  end.

Definition identity_abort o : exec outcome :=
  match identity_ValidateAbort o with
  | Some e => Ret (o, Some e)
  | None =>
      if phase_of o =p PhaseAborted then Ret (o, None) else
      if negb (planned o) then identity_transition false o PhaseAborted (it_AbortUnplanned texts) else
      step_x (identity_transition false o PhaseAborting (it_Aborting texts)) (fun o =>
      identity_transition false o PhaseAborted (it_Aborted texts))
  end.

(** *** Rollback *)

Definition identity_ValidateRollback o : kube (option err) :=
  check: Ret (iw_validateObject o);
  check: Ret (validateIdentityRollback (wf_get o));
  if phase_of o =p PhaseRolledBack then Ret None else
  match iw_plan o, iw_active o with
  | Some plan, Some active =>
      VerifyPVCRebind s (iw_Name o) active (without_identity (ip_From plan)) (ip_PV plan)
        (resume_of o =p PhaseRollingBack)
  | _, _ => fail (NewError ErrorPrecondition ("rollback " +:+ it_Name texts) "completed PVC identity is required")
  end.

Definition identity_rollback o : exec outcome :=
  check_x o (lift (identity_ValidateRollback o)) (
  if phase_of o =p PhaseRolledBack then Ret (o, None) else
  step_x (identity_transition false o PhaseRollingBack "restoring PVC identity") (fun o =>
  or_panic (iw_plan o) (fun plan =>
  or_panic (iw_active o) (fun active =>
  r ← rebind o plan active (without_identity (ip_From plan));
  match r with
  | inr e => identity_fail o e
  | inl pvc =>
      t ← call (XKube Now);
      u ← identity_transition false (iw_restored o pvc t) PhaseRolledBack (it_Restored texts);
      Ret match u.2 with Some e => (o, Some e) | None => u end
  end)))).

(** *** Run *)

Definition identity_ValidateResume o : kube (option err) :=
  check: Ret (iw_validateObject o);
  let phase := resume_of o in
  match iw_plan o with
  | None =>
      if (negb (phase =p PhaseNone) && negb (phase =p PhasePlanned))%bool then
        fail (invalidWorkflowResumePhase phase (it_Operation texts))
      else Ret None
  | Some plan =>
      if ((phase =p PhasePlanned) || (phase =p rebindPhase))%bool then
        check: (if phase =p PhasePlanned then VerifyPVCSourceSnapshot (ip_From plan) (ip_PV plan) (ip_Template plan)
                else Ret None);
        VerifyPVCRebind s (iw_Name o) (ip_From plan) (ip_To plan) (ip_PV plan) (phase =p rebindPhase)
      else if phase =p PhaseRollingBack then identity_ValidateRollback o
      else if phase =p PhaseAborting then Ret (identity_ValidateAbort o)
      else if ((phase =p PhaseCompleted) || (phase =p PhaseAborted) || (phase =p PhaseRolledBack))%bool then Ret None
      else fail (invalidWorkflowResumePhase phase (it_Operation texts))
  end.

Definition identity_forward o : exec outcome :=
  check_x o (lift (identity_ValidateResume o)) (
  match iw_plan o with
  | None => Ret (o, Some (NewError ErrorPrecondition (it_Name texts) "workflow requires execution planning"))
  | Some plan =>
      step_x (identity_transition false o rebindPhase (it_Start texts)) (fun o =>
      r ← rebind o plan (ip_From plan) (ip_To plan);
      match r with
      | inr e => identity_fail o e
      | inl pvc =>
          t ← call (XKube Now);
          u ← identity_transition false (iw_activated o pvc t) PhaseCompleted (it_Completed texts);
          Ret match u.2 with Some e => (o, Some e) | None => u end
      end)
  end).

Definition identity_run o : exec outcome :=
  let phase := resume_of o in
  if ((phase =p PhaseCompleted) || (phase =p PhaseAborted) || (phase =p PhaseRolledBack))%bool then Ret (o, None)
  else if phase =p PhaseRollingBack then identity_rollback o
  else if phase =p PhaseAborting then identity_abort o
  else if ((phase =p PhasePlanned) || (phase =p rebindPhase))%bool then identity_forward o
  else Ret (o, Some (invalidWorkflowResumePhase phase (it_Operation texts))).

(** [Run]: every error of a workflow that has not failed yet is recorded. *)
Definition identity_Run o : exec outcome :=
  r ← match iw_validateObject o with Some e => Ret (o, Some e) | None => identity_run o end;
  match r.2 with
  | Some e => if phase_of r.1 =p PhaseFailed then Ret r else identity_fail r.1 e
  | None => Ret r
  end.

Definition identity_RequestResume o : exec outcome :=
  check_x o (lift (identity_ValidateResume o)) (
  if negb (phase_of o =p PhaseFailed) then Ret (o, None) else
  t ← call (XKube Now);
  match ReactivateWorkflow (wf_get o) (it_Resume texts) t with
  | inr e => Ret (o, Some e)
  | inl st =>
      let o' := wf_put o st in
      e ← persist false o';
      Ret match e with Some x => (o, Some x) | None => (o', None) end
  end).

(** *** Cleanup *)

(** [renameActivePVC], [moveActivePVC] *)
Definition active_claim o (plan : IdentityPlan) : ObjectReference := default (ip_From plan) (iw_active o).

Definition identity_ValidateCleanup o (options : IdentityCleanupOptions) : kube (option err) :=
  check: Ret (iw_validateObject o);
  match iw_plan o with
  | None => Ret None
  | Some plan =>
      check: Ret (validateIdentityCleanup (phase_of o) options);
      if negb (ic_Finalize options) then Ret None else
      validateRetainedIdentity (iw_Name o) (active_claim o plan) (ip_PV plan)
        (policy_string (template_ReclaimPolicy (ip_Template plan)))
  end.

(** The claim and the volume are given back. *)
Definition release_identity o (plan : IdentityPlan) : kube (option err) :=
  check: FinalizePVC (active_claim o plan) (iw_Name o) (template_Metadata (ip_Template plan));
  policy ← resolvedSourcePolicy (ip_PV plan) (policy_string (template_ReclaimPolicy (ip_Template plan)));
  e ← finalizeActivePV (iw_Name o) (ip_PV plan) policy;
  Ret match e with Some x => if IsNotFound x then None else Some x | None => None end.

Definition identity_cleanup o (options : IdentityCleanupOptions) : exec outcome :=
  check_x o (lift (identity_ValidateCleanup o options)) (
  check_x o
    (match iw_plan o with
     | Some plan => if ic_Finalize options then lift (release_identity o plan) else Ret None
     | None => Ret None
     end) (
  if ic_DeleteSession options then
    check_x o (if held then call XDeleteLock else Ret None) (
    e ← call (XDeleteStored o);
    Ret (o, e))
  else Ret (o, None))).

(** *** Deletion *)

(** Under the lock. *)
Definition identity_finalize_locked o : exec outcome :=
  check_x o (Ret (iw_validateStatus o)) (
  t ← call (XKube Now);
  let marked := wf_put o (SetWorkflowCondition (wf_get o) (identity_condition t)) in
  check_x o (persist false marked) (
  let phase := resume_of marked in
  step_x
    (if ((phase =p rebindPhase) || (phase =p PhaseRollingBack))%bool then identity_run marked
     else if ((phase =p PhaseCompleted) || (phase =p PhaseAborted) || (phase =p PhaseRolledBack))%bool
     then Ret (marked, None)
     else identity_abort marked) (fun o =>
  identity_cleanup o finalize_identity))).

Definition identity_FinalizeDeleted (object : option Obj) : exec (option Obj * option err) :=
  let required := NewError ErrorPrecondition ("finalize " +:+ it_Name texts) "workflow deletion is required" in
  match object with
  | None => Ret (None, Some required)
  | Some o =>
      if negb (iw_deleting o) then Ret (Some o, Some required) else
      let o := wf_put o (repaired_status (wf_get o)) in
      match iw_validateIdentity o with
      | Some e => Ret (Some o, Some e)
      | None => r ← identity_finalize_locked o; Ret (Some r.1, r.2)
      end
  end.
End executor.
