(* ===== verification/RenameMove.v ===== *)
(** * The Rename and Move objects

    The API types of the two identity workflows (api/v1alpha1), what their executors
    accept of an object (rename_executor.go, move_validation.go), and the two instances
    of [IdentityWorkflow] with the laws its theorems use. *)

From S2P Require Import Prelude Utf8 GoErrors Lifecycle PhaseMachines KubeTypes Prog Api ResourceState Ownership PVBinding NodeSelection GoFormat Reserver Offline Activation Reclaim CopyEngine Exec MigrationObject Executor MigrationSync Identity.

(** ** Rename *)

Record RenameSpec := {
  rns_SourcePVC : LocalResourceReference;
  rns_SourcePV : option LocalResourceReference;
  rns_DestinationPVC : LocalResourceReference
}.

Record RenamePlan := {
  rnp_SourcePVC : LocalResourceReference;
  rnp_SourcePV : LocalResourceReference;
  rnp_DestinationPVC : LocalResourceReference;
  rnp_SourceTemplate : PVCSourceTemplate
}.

Record RenameActivationStatus := {
  rna_ActivePVC : option LocalResourceReference;
  rna_ActivatedAt : option Time;
  rna_RolledBackAt : option Time
}.

Record Rename := {
  rn_Name : string;
  rn_Namespace : string;
  rn_Generation : Z;
  rn_DeletionTimestamp : option Time;
  rn_Spec : RenameSpec;
  rn_Plan : option RenamePlan;
  rn_Status : WorkflowStatus;                (* embedded in the status *)
  rn_Activation : RenameActivationStatus
}.

Definition rn_put (o : Rename) (st : WorkflowStatus) : Rename :=
  {| rn_Name := rn_Name o; rn_Namespace := rn_Namespace o; rn_Generation := rn_Generation o;
     rn_DeletionTimestamp := rn_DeletionTimestamp o; rn_Spec := rn_Spec o; rn_Plan := rn_Plan o; rn_Status := st;
     rn_Activation := rn_Activation o |}.

Definition rn_set_activation (o : Rename) (a : RenameActivationStatus) : Rename :=
  {| rn_Name := rn_Name o; rn_Namespace := rn_Namespace o; rn_Generation := rn_Generation o;
     rn_DeletionTimestamp := rn_DeletionTimestamp o; rn_Spec := rn_Spec o; rn_Plan := rn_Plan o;
     rn_Status := rn_Status o; rn_Activation := a |}.

(** Refusals of a validation. *)
Definition refused (what message : string) : option err := Some (NewError ErrorValidation what message).

Definition validateRenameIdentity (o : Rename) : option err :=
  if ((rn_Name o =s "") || (rn_Namespace o =s ""))%bool then refused "rename" "workflow name and namespace are required"
  else None.

(** [expected] names a volume, and its UID if that is given. *)
Definition other_volume (expected : option LocalResourceReference) (planned : LocalResourceReference) : bool :=
  match expected with
  | None => false
  | Some e =>
      ((local_Name e <>s local_Name planned)
       || ((local_UID e <>s "") && (local_UID e <>s local_UID planned)))%bool
  end.

Definition validateRenameSpec (spec : RenameSpec) (plan : option RenamePlan) : option err :=
  let source := local_Name (rns_SourcePVC spec) in
  let destination := local_Name (rns_DestinationPVC spec) in
  if ((source =s "") || (destination =s "") || (source =s destination))%bool then
    refused "rename" "distinct source and destination PVC names are required"
  else
  match plan with
  | None => None
  | Some plan =>
      if ((local_Name (rnp_SourcePVC plan) <>s source) || (local_Name (rnp_DestinationPVC plan) <>s destination))%bool then
        refused "rename" "plan endpoints differ from the requested PVC identity"
      else if ((local_UID (rns_SourcePVC spec) <>s "")
               && (local_UID (rns_SourcePVC spec) <>s local_UID (rnp_SourcePVC plan)))%bool then
        refused "rename" "planned source PVC differs from the requested identity"
      else if other_volume (rns_SourcePV spec) (rnp_SourcePV plan) then
        refused "rename" "planned source PV differs from the requested identity"
      else None
  end.

Definition validateRenameActivation (phase : Phase) (plan : RenamePlan) (active : option LocalResourceReference)
    : option err :=
  let named name := match active with Some a => local_Name a =s name | None => false end in
  let source := local_Name (rnp_SourcePVC plan) in
  let destination := local_Name (rnp_DestinationPVC plan) in
  if match active with Some a => ((local_Name a =s "") || (local_UID a =s ""))%bool | None => false end then
    refused "rename" "active PVC identity is incomplete"
  else if (bool_decide (is_Some active) && negb (named source) && negb (named destination))%bool then
    refused "rename" "active PVC is outside the planned rename endpoints"
  else if (((phase =p PhaseCompleted) || (phase =p PhaseRollingBack)) && negb (named destination))%bool then
    refused "rename" "completed rename requires the destination PVC checkpoint"
  else if ((phase =p PhaseRolledBack) && negb (named source))%bool then
    refused "rename" "completed rollback requires the restored source PVC checkpoint"
  else None.

Definition rn_fresh (a : RenameActivationStatus) : bool :=
  match rna_ActivePVC a, rna_ActivatedAt a, rna_RolledBackAt a with None, None, None => true | _, _, _ => false end.

(** A policy that is not recorded is excluded by the type. *)
Definition recorded_policy (policy : ReclaimPolicy) : bool :=
  match policy with ReclaimRetain | ReclaimDelete => true | ReclaimRecycle => false end.

Definition validateRenameStatus (o : Rename) : option err :=
  let st := rn_Status o in
  if ((ws_Phase st =p PhaseNone) && negb (bool_decide (is_Some (rn_Plan o))) && rn_fresh (rn_Activation o))%bool then None
  else
  match ValidateIdentityLifecycle st PhaseRenaming with
  | Some e => Some e
  | None =>
      let phase := workflowResumePhase st in
      match rn_Plan o with
      | None =>
          if (negb (rn_fresh (rn_Activation o)) || (negb (phase =p PhasePlanned) && negb (phase =p PhaseAborted)))%bool
          then refused "rename" "execution requires a persisted plan"
          else None
      | Some plan =>
          let source := local_Name (rnp_SourcePVC plan) in
          let destination := local_Name (rnp_DestinationPVC plan) in
          if ((source =s "") || (destination =s "") || (source =s destination))%bool then
            refused "rename" "source and destination PVC names must be distinct and nonempty"
          else if ((local_UID (rnp_SourcePVC plan) =s "") || (local_Name (rnp_SourcePV plan) =s "")
                   || (local_UID (rnp_SourcePV plan) =s ""))%bool then
            refused "rename" "plan and checkpoint do not match the requested PVC identity"
          else if negb (recorded_policy (template_ReclaimPolicy (rnp_SourceTemplate plan))) then
            refused "rename" "source reclaim policy must be recorded"
          else validateRenameActivation phase plan (rna_ActivePVC (rn_Activation o))
      end
  end.

Definition validateRenameObject (o : Rename) : option err :=
  match validateRenameIdentity o with
  | Some e => Some e
  | None =>
      if bool_decide (is_Some (rn_DeletionTimestamp o)) then validateRenameStatus o else
      let observed := ws_ObservedGeneration (rn_Status o) in
      if (negb (Z.eqb observed 0) && negb (Z.eqb observed (rn_Generation o)))%bool then
        Some (NewError ErrorConflict "rename" "workflow spec changed after planning")
      else
      match validateRenameSpec (rn_Spec o) (rn_Plan o) with
      | Some e => Some e
      | None => validateRenameStatus o
      end
  end.

(** ** Move *)

Record MoveSpec := {
  mvs_SourceNamespace : string;
  mvs_DestinationNamespace : string;
  mvs_SessionNamespace : string;
  mvs_SourcePVC : LocalResourceReference;
  mvs_SourcePV : option LocalResourceReference;
  mvs_DestinationPVC : option LocalResourceReference
}.

Record MoveIdentity := {
  mvi_SourcePVC : LocalResourceReference;
  mvi_SourcePV : LocalResourceReference;
  mvi_DestinationPVC : LocalResourceReference;
  mvi_SourceTemplate : PVCSourceTemplate
}.

Record MovePlan := {
  mvp_SourceNamespace : string;
  mvp_DestinationNamespace : string;
  mvp_SessionNamespace : string;
  mvp_Identity : MoveIdentity
}.

Record MoveActivationStatus := {
  mva_ActivePVC : option ObjectReference;
  mva_ActivatedAt : option Time;
  mva_RolledBackAt : option Time
}.

Record Move := {
  mo_Name : string;
  mo_Namespace : string;
  mo_Generation : Z;
  mo_DeletionTimestamp : option Time;
  mo_Spec : MoveSpec;
  mo_Plan : option MovePlan;
  mo_Status : WorkflowStatus;                (* embedded in the status *)
  mo_Activation : MoveActivationStatus
}.

Definition mo_put (o : Move) (st : WorkflowStatus) : Move :=
  {| mo_Name := mo_Name o; mo_Namespace := mo_Namespace o; mo_Generation := mo_Generation o;
     mo_DeletionTimestamp := mo_DeletionTimestamp o; mo_Spec := mo_Spec o; mo_Plan := mo_Plan o; mo_Status := st;
     mo_Activation := mo_Activation o |}.

Definition mo_set_activation (o : Move) (a : MoveActivationStatus) : Move :=
  {| mo_Name := mo_Name o; mo_Namespace := mo_Namespace o; mo_Generation := mo_Generation o;
     mo_DeletionTimestamp := mo_DeletionTimestamp o; mo_Spec := mo_Spec o; mo_Plan := mo_Plan o;
     mo_Status := mo_Status o; mo_Activation := a |}.

(** The claim name defaults to that of the source. *)
Definition requested_name (spec : MoveSpec) : string :=
  match mvs_DestinationPVC spec with
  | Some d => if local_Name d <>s "" then local_Name d else local_Name (mvs_SourcePVC spec)
  | None => local_Name (mvs_SourcePVC spec)
  end.

Definition validateMoveSpec (spec : MoveSpec) (plan : option MovePlan) (storageNamespace : string) : option err :=
  let conflict message := Some (NewError ErrorConflict "move" message) in
  let source := local_Name (mvs_SourcePVC spec) in
  let destination := requested_name spec in
  if ((mvs_SourceNamespace spec =s "") || (mvs_DestinationNamespace spec =s "") || (source =s "")
      || ((mvs_SourceNamespace spec =s mvs_DestinationNamespace spec) && (source =s destination)))%bool then
    refused "move" "distinct source and destination PVC identities are required"
  else if ((mvs_SessionNamespace spec <>s "") && (mvs_SessionNamespace spec <>s storageNamespace))%bool then
    conflict "storage namespace differs from spec.sessionNamespace"
  else
  match plan with
  | None => None
  | Some plan =>
      if ((mvp_SourceNamespace plan <>s mvs_SourceNamespace spec)
          || (mvp_DestinationNamespace plan <>s mvs_DestinationNamespace spec))%bool then
        conflict "plan namespaces differ from the requested namespaces"
      else
      let identity := mvp_Identity plan in
      if ((local_Name (mvi_SourcePVC identity) <>s source) || (local_Name (mvi_DestinationPVC identity) <>s destination))%bool then
        conflict "plan endpoints differ from the requested PVC identities"
      else if ((local_UID (mvs_SourcePVC spec) <>s "")
               && (local_UID (mvs_SourcePVC spec) <>s local_UID (mvi_SourcePVC identity)))%bool then
        conflict "planned source PVC differs from the requested identity"
      else if other_volume (mvs_SourcePV spec) (mvi_SourcePV identity) then
        conflict "planned PV differs from the requested identity"
      else if match mvs_DestinationPVC spec with
              | Some d => ((local_UID d <>s "") && (local_UID d <>s local_UID (mvi_DestinationPVC identity)))%bool
              | None => false
              end then
        conflict "planned destination PVC differs from the requested identity"
      else None
  end.

Definition validateMoveActivation (phase : Phase) (plan : MovePlan) (active : option ObjectReference) : option err :=
  match active with
  | None =>
      if ((phase =p PhaseCompleted) || (phase =p PhaseRollingBack) || (phase =p PhaseRolledBack))%bool then
        refused "move" "completed move requires an active PVC checkpoint"
      else None
  | Some active =>
      if ((UID active =s "") || (Name active =s "") || (Namespace active =s ""))%bool then
        refused "move" "active PVC identity is incomplete"
      else
      let source := ((Name active =s local_Name (mvi_SourcePVC (mvp_Identity plan)))
                     && (Namespace active =s mvp_SourceNamespace plan))%bool in
      let destination := ((Name active =s local_Name (mvi_DestinationPVC (mvp_Identity plan)))
                          && (Namespace active =s mvp_DestinationNamespace plan))%bool in
      if (negb source && negb destination)%bool then refused "move" "active PVC is outside the planned endpoints"
      else if (((phase =p PhaseCompleted) || (phase =p PhaseRollingBack)) && negb destination)%bool then
        refused "move" "completed move requires the destination PVC checkpoint"
      else if ((phase =p PhaseRolledBack) && negb source)%bool then
        refused "move" "completed rollback requires the source PVC checkpoint"
      else None
  end.

Definition mo_fresh (a : MoveActivationStatus) : bool :=
  match mva_ActivePVC a, mva_ActivatedAt a, mva_RolledBackAt a with None, None, None => true | _, _, _ => false end.

Definition validateMoveStatus (o : Move) (storageNamespace : string) : option err :=
  let st := mo_Status o in
  if ((ws_Phase st =p PhaseNone) && negb (bool_decide (is_Some (mo_Plan o))) && mo_fresh (mo_Activation o))%bool then None
  else
  match ValidateIdentityLifecycle st PhaseMoving with
  | Some e => Some e
  | None =>
      let phase := workflowResumePhase st in
      match mo_Plan o with
      | None =>
          if (negb (mo_fresh (mo_Activation o)) || (negb (phase =p PhasePlanned) && negb (phase =p PhaseAborted)))%bool
          then refused "move" "execution requires a persisted plan"
          else None
      | Some plan =>
          let identity := mvp_Identity plan in
          let source := local_Name (mvi_SourcePVC identity) in
          let destination := local_Name (mvi_DestinationPVC identity) in
          if ((mvp_SourceNamespace plan =s "") || (mvp_DestinationNamespace plan =s "")
              || (mvp_SessionNamespace plan <>s storageNamespace))%bool then
            refused "move" "plan must retain source, destination and storage namespaces"
          else if ((source =s "") || (destination =s "")
                   || ((mvp_SourceNamespace plan =s mvp_DestinationNamespace plan) && (source =s destination)))%bool then
            refused "move" "planned PVC identities must be distinct"
          else if ((local_UID (mvi_SourcePVC identity) =s "") || (local_Name (mvi_SourcePV identity) =s "")
                   || (local_UID (mvi_SourcePV identity) =s ""))%bool then
            refused "move" "plan and checkpoint do not match the source identity"
          else if negb (recorded_policy (template_ReclaimPolicy (mvi_SourceTemplate identity))) then
            refused "move" "source reclaim policy must be recorded"
          else validateMoveActivation phase plan (mva_ActivePVC (mo_Activation o))
      end
  end.

(** What [locked] requires, and the first check of [validateMoveObject]. *)
Definition validateMoveIdentity (o : Move) (storageNamespace : string) : option err :=
  if ((mo_Name o =s "") || (mo_Namespace o <>s "") || (storageNamespace =s ""))%bool then
    refused "move" "cluster-scoped workflow name and storage namespace are required"
  else None.

Definition validateMoveObject (o : Move) (storageNamespace : string) : option err :=
  match validateMoveIdentity o storageNamespace with
  | Some e => Some e
  | None =>
      match validateMoveStatus o storageNamespace with
      | Some e => Some e
      | None =>
          if bool_decide (is_Some (mo_DeletionTimestamp o)) then None else
          let observed := ws_ObservedGeneration (mo_Status o) in
          if (negb (Z.eqb observed 0) && negb (Z.eqb observed (mo_Generation o)))%bool then
            Some (NewError ErrorConflict "move" "workflow spec changed after planning")
          else validateMoveSpec (mo_Spec o) (mo_Plan o) storageNamespace
      end
  end.

(** ** The instances *)

Definition rename_texts : IdentityTexts :=
  {| it_Operation := "Rename"; it_Name := "rename"; it_Start := "renaming PVC while retaining its PV";
     it_Completed := "PVC rename completed"; it_Restored := "PVC name restored"; it_Resume := "rename resume requested";
     it_AbortUnplanned := "workflow aborted before execution planning"; it_Aborting := "aborting rename";
     it_Aborted := "rename aborted; storage resources are retained for cleanup" |}.

Definition move_texts : IdentityTexts :=
  {| it_Operation := "Move"; it_Name := "move"; it_Start := "moving PVC while retaining its PV";
     it_Completed := "PVC move completed"; it_Restored := "PVC namespace and name restored";
     it_Resume := "move resume requested"; it_AbortUnplanned := "move aborted; storage resources retained";
     it_Aborting := "aborting move"; it_Aborted := "move aborted; storage resources retained" |}.

#[global, refine] Instance Rename_workflow : WorkflowObject Rename := {| wf_get := rn_Status; wf_put := rn_put |}.
Proof. all: done. Defined.

#[global, refine] Instance Move_workflow : WorkflowObject Move := {| wf_get := mo_Status; wf_put := mo_put |}.
Proof. all: done. Defined.

Definition rename_activated (o : Rename) (pvc : PVC) (now : Time) : Rename :=
  rn_set_activation o {| rna_ActivePVC := Some (localResourceReference (PVCReference (Some pvc)));
                         rna_ActivatedAt := Some now; rna_RolledBackAt := rna_RolledBackAt (rn_Activation o) |}.
Definition rename_restored (o : Rename) (pvc : PVC) (now : Time) : Rename :=
  rn_set_activation o {| rna_ActivePVC := Some (localResourceReference (PVCReference (Some pvc)));
                         rna_ActivatedAt := rna_ActivatedAt (rn_Activation o); rna_RolledBackAt := Some now |}.
Definition move_activated (o : Move) (pvc : PVC) (now : Time) : Move :=
  mo_set_activation o {| mva_ActivePVC := Some (PVCReference (Some pvc)); mva_ActivatedAt := Some now;
                         mva_RolledBackAt := mva_RolledBackAt (mo_Activation o) |}.
Definition move_restored (o : Move) (pvc : PVC) (now : Time) : Move :=
  mo_set_activation o {| mva_ActivePVC := Some (PVCReference (Some pvc)); mva_ActivatedAt := mva_ActivatedAt (mo_Activation o);
                         mva_RolledBackAt := Some now |}.

Definition rename_plan (o : Rename) : option IdentityPlan :=
  plan ← rn_Plan o;
  Some {| ip_From := qualifiedResourceReference (rnp_SourcePVC plan) (rn_Namespace o);
          ip_To := qualifiedResourceReference (rnp_DestinationPVC plan) (rn_Namespace o);
          ip_PV := qualifiedResourceReference (rnp_SourcePV plan) ""; ip_Template := rnp_SourceTemplate plan |}.

Definition move_plan (o : Move) : option IdentityPlan :=
  plan ← mo_Plan o;
  Some {| ip_From := qualifiedResourceReference (mvi_SourcePVC (mvp_Identity plan)) (mvp_SourceNamespace plan);
          ip_To := qualifiedResourceReference (mvi_DestinationPVC (mvp_Identity plan)) (mvp_DestinationNamespace plan);
          ip_PV := qualifiedResourceReference (mvi_SourcePV (mvp_Identity plan)) "";
          ip_Template := mvi_SourceTemplate (mvp_Identity plan) |}.

Definition rename_active (o : Rename) : option ObjectReference :=
  (fun a => qualifiedResourceReference a (rn_Namespace o)) <$> rna_ActivePVC (rn_Activation o).
Definition move_active (o : Move) : option ObjectReference := mva_ActivePVC (mo_Activation o).

#[global] Instance rename_identity : IdentityWorkflow Rename := {|
  iw_texts := rename_texts; iw_rebindPhase := PhaseRenaming; iw_Name := rn_Name;
  iw_deleting o := bool_decide (is_Some (rn_DeletionTimestamp o)); iw_plan := rename_plan; iw_active := rename_active;
  iw_activated := rename_activated; iw_restored := rename_restored; iw_validateIdentity := validateRenameIdentity;
  iw_validateStatus := validateRenameStatus; iw_validateObject := validateRenameObject |}.

(** The executor keeps its objects in [storageNamespace]. *)
#[global] Instance move_identity (storageNamespace : string) : IdentityWorkflow Move := {|
  iw_texts := move_texts; iw_rebindPhase := PhaseMoving; iw_Name := mo_Name;
  iw_deleting o := bool_decide (is_Some (mo_DeletionTimestamp o)); iw_plan := move_plan; iw_active := move_active;
  iw_activated := move_activated; iw_restored := move_restored;
  iw_validateIdentity o := validateMoveIdentity o storageNamespace;
  iw_validateStatus o := validateMoveStatus o storageNamespace;
  iw_validateObject o := validateMoveObject o storageNamespace |}.

(** *** The laws *)

Lemma rename_valid_status o : validateRenameObject o = None -> validateRenameStatus o = None.
Proof.
  unfold validateRenameObject. destruct (validateRenameIdentity o); [done|]. case_test; [done|]. case_test; [done|].
  by destruct (validateRenameSpec _ _).
Qed.

(** The claim in use of an accepted, planned object, by phase. *)
Definition in_use (phase : Phase) (plan : IdentityPlan) (active : option ObjectReference) : Prop :=
  (phase = PhaseCompleted \/ phase = PhaseRollingBack -> exists a, active = Some a /\
     Name a = Name (ip_To plan) /\ Namespace a = Namespace (ip_To plan) /\ UID a <> "") /\
  (phase = PhaseRolledBack -> exists a, active = Some a /\
     Name a = Name (ip_From plan) /\ Namespace a = Namespace (ip_From plan)).

Lemma rename_valid_active o plan :
  validateRenameObject o = None -> rename_plan o = Some plan ->
  in_use (workflowResumePhase (rn_Status o)) plan (rename_active o).
Proof.
  intros Hv%rename_valid_status Hp. unfold rename_plan in Hp. unfold validateRenameStatus in Hv.
  destruct (rn_Plan o) as [pl|]; [|done]. injection Hp as <-. rewrite andb_false_r in Hv. cbn in Hv.
  destruct (ValidateIdentityLifecycle _ _); [done|]. do 3 (case_test; [done|]). unfold validateRenameActivation in Hv.
  unfold rename_active. destruct (rna_ActivePVC (rn_Activation o)) as [a|].
  2: { split; [intros [He|He]|intros He]; by rewrite He in Hv. }
  do 2 (case_test; [done|]). assert (local_UID a <> "") as Hu by (by bool_prop).
  split; intros He; eexists; (split; [done|]); cbn; split_and!; try done; apply String.eqb_eq.
  - by destruct He as [He|He]; rewrite He in Hv; destruct (local_Name a =s local_Name (rnp_DestinationPVC pl)).
  - by rewrite He in Hv; destruct (local_Name a =s local_Name (rnp_SourcePVC pl)).
Qed.

Lemma move_valid_active sn o plan :
  validateMoveObject o sn = None -> move_plan o = Some plan ->
  in_use (workflowResumePhase (mo_Status o)) plan (move_active o).
Proof.
  intros Hv Hp. unfold validateMoveObject in Hv. destruct (validateMoveIdentity _ _); [done|].
  destruct (validateMoveStatus o sn) eqn:Hs; [done|]. clear Hv. unfold move_plan in Hp. unfold validateMoveStatus in Hs.
  destruct (mo_Plan o) as [pl|]; [|done]. injection Hp as <-. rewrite andb_false_r in Hs. cbn in Hs.
  destruct (ValidateIdentityLifecycle _ _); [done|]. do 4 (case_test; [done|]). unfold validateMoveActivation in Hs.
  unfold move_active. destruct (mva_ActivePVC (mo_Activation o)) as [a|].
  2: { split; [intros [He|He]|intros He]; by rewrite He in Hs. }
  do 2 (case_test; [done|]).
  destruct ((Name a =s local_Name (mvi_SourcePVC (mvp_Identity pl))) && (Namespace a =s mvp_SourceNamespace pl))%bool eqn:Hsrc,
    ((Name a =s local_Name (mvi_DestinationPVC (mvp_Identity pl))) && (Namespace a =s mvp_DestinationNamespace pl))%bool eqn:Hdst;
    (split; [intros [He|He]|intros He]; rewrite He in Hs; try done; bool_prop; exists a; by split_and!).
Qed.

#[global] Instance rename_laws : IdentityLaws Rename.
Proof.
  split; try done; [by left|by intros; eexists|by intros; eexists|..]; intros o plan Hv Hp Hphase.
  all: by apply (rename_valid_active o plan Hv Hp).
Qed.

#[global] Instance move_laws storage : IdentityLaws Move (IW := move_identity storage).
Proof.
  split; try done; [by right|by intros; eexists|by intros; eexists|..]; intros o plan Hv Hp Hphase.
  all: by apply (move_valid_active storage o plan Hv Hp).
Qed.

(** ** The executors of Move

    Those of Rename are the steps of Identity at [rename_identity]. *)

Section move.
Context `{CR : ConflictRetry} `{QT : QuantityText} (storageNamespace : string) (s : Switcher) (held : bool).
#[local] Existing Instance move_identity.
Notation mo := (move_identity storageNamespace).

Definition mo_transition := identity_transition (IW := mo).
Definition mo_fail := identity_fail (IW := mo).
Definition mo_rebind := rebind (IW := mo) s.
Definition mo_ValidateAbort := identity_ValidateAbort (IW := mo).
Definition mo_abort := identity_abort (IW := mo).
Definition mo_ValidateRollback := identity_ValidateRollback (IW := mo) s.
Definition mo_rollback := identity_rollback (IW := mo) s.
Definition mo_ValidateResume := identity_ValidateResume (IW := mo) s.
Definition mo_run := identity_run (IW := mo) s.
Definition mo_Run := identity_Run (IW := mo) s.
Definition mo_RequestResume := identity_RequestResume (IW := mo) s.
Definition mo_ValidateCleanup := identity_ValidateCleanup (IW := mo).
Definition mo_cleanup := identity_cleanup (IW := mo) held.
Definition mo_FinalizeDeleted := identity_FinalizeDeleted (IW := mo) s held.
End move.
