(* ===== verification/SwitcherTermination.v ===== *)
(** * Termination of the cutover operations

    Every wait of the switcher polls until its condition holds or the context is
    done, and every retry is bounded, so under a context with a deadline each
    operation returns, whatever the server answers.  The fuel of the model is
    enough as soon as it exceeds the number of poll ticks left. *)

From S2P Require Import Prelude Utf8 GoErrors Lifecycle KubeTypes Prog Api ResourceState Ownership PVBinding Offline Activation SwitcherRules SwitcherSafety.

Section termination.
Context `{ConflictRetry} `{QuantityText}.
Context {W : Type} (server : handler W) (m : W -> nat) (D : deadline server m) (s : Switcher).

Notation ret := (returns_within server m (fuel s)).

Lemma ret_fenced_update_pv pv : ret (fenced_update_pv pv).
Proof. unfold fenced_update_pv. returns_tac. Qed.

Lemma ret_ensureNoConsumers ns c : ret (ensureNoConsumers ns c).
Proof. unfold ensureNoConsumers. returns_tac. Qed.

Lemma ret_ensureDetached n : ret (ensureDetached s n).
Proof. unfold ensureDetached, ensureVolumesDetached, waitFor_, wait_error, waitFor. returns_tac. Qed.

Lemma ret_deletePVC ref : ret (deletePVC s ref).
Proof. unfold deletePVC, waitFor_, wait_error, waitFor. returns_tac. Qed.

Lemma ret_ensureRetain ref sid role : ret (ensureRetain ref sid role).
Proof. unfold ensureRetain, retain_once, report_update. returns_tac; apply ret_fenced_update_pv. Qed.

Lemma ret_markPVPair sid src dst rb : ret (markPVPair sid src dst rb).
Proof.
  unfold markPVPair, mark_item, mark_once, report_update. returns_tac; apply ret_fenced_update_pv.
Qed.

Lemma ret_reservePV ref ns claim sid : ret (reservePV s ref ns claim sid).
Proof.
  unfold reservePV, waitForPVReservation, pvReadyForReservation, updatePVReservation, report_update,
    waitFor_, wait_error, waitFor.
  returns_tac; apply ret_fenced_update_pv.
Qed.

Lemma ret_validateBoundPVC p : ret (validateBoundPVC p).
Proof. unfold validateBoundPVC. returns_tac. Qed.

Lemma ret_createBoundPVC sid p : ret (createBoundPVC s sid p).
Proof. unfold createBoundPVC, waitFor. returns_tac. Qed.

Lemma ret_verifyBinding p ref : ret (verifyBinding p ref).
Proof. unfold verifyBinding. returns_tac. Qed.

Lemma ret_save st prev pr : ret (saveActivationCheckpoint st prev pr).
Proof. unfold saveActivationCheckpoint, callProgress. returns_tac. Qed.

#[local] Hint Resolve ret_fenced_update_pv ret_ensureNoConsumers ret_ensureDetached ret_deletePVC
  ret_ensureRetain ret_markPVPair ret_reservePV ret_validateBoundPVC ret_createBoundPVC
  ret_verifyBinding ret_save : term.

Lemma ret_check_st st p k : ret p -> ret k -> ret (check_st st p k).
Proof. intros Hp Hk. apply returns_bind; [done|]. intros [e|]; [apply returns_Ret|done]. Qed.

Lemma ret_step_st p k : ret p -> (forall st, ret (k st)) -> ret (step_st p k).
Proof. intros Hp Hk. apply returns_bind; [done|]. intros [st [e|]]; [apply returns_Ret|done]. Qed.

Ltac ret_tac :=
  repeat first [ progress eauto 1 with term | apply ret_check_st | apply ret_step_st; [|intros ?]
               | progress returns_tac ].

Lemma ret_completeActivation sid v d st p pr : ret (completeActivation sid v d st p pr).
Proof. unfold completeActivation. ret_tac. Qed.

Lemma ret_completeRollback sid v st p pr : ret (completeRollback sid v st p pr).
Proof. unfold completeRollback. ret_tac. Qed.

Lemma ret_removeActiveDestination sid v p : ret (removeActiveDestination s sid v p).
Proof. unfold removeActiveDestination. ret_tac. Qed.

#[local] Hint Resolve ret_completeActivation ret_completeRollback ret_removeActiveDestination : term.

Lemma ret_ActivatePVC sid ns v d st pr : ret (ActivatePVC s sid ns v d st pr).
Proof.
  unfold ActivatePVC, validateTemporaryActivationPVC, activateVolumeResources, activePVC,
    deleteTemporaryActivationPVC, deleteSourceActivationPVC, reserveActivationDestination.
  ret_tac.
Qed.

Lemma ret_RollbackPVC sid ns v d st pr : ret (RollbackPVC s sid ns v d st pr).
Proof. unfold RollbackPVC, rollback_foreign, rollback_rebind. ret_tac. Qed.

Lemma ret_RenamePVC sid a b d pr : ret (RenamePVC s sid a b d pr).
Proof.
  unfold RenamePVC, rename_source, rename_existing, rename_rebind, callProgress. ret_tac.
Qed.

(** C27: cutover, rollback and rename terminate.  Under a context that allows
    fewer poll ticks than the model's fuel, [ActivatePVC], [RollbackPVC] and
    [RenamePVC] return a result against every server, from every state and for
    every input: no wait polls forever and no retry loops. *)
Theorem switcher_returns sid ns v source sourcePV d st pr w :
  m w < fuel s ->
  (exists r, (run server (ActivatePVC s sid ns v d st pr) w []).1.1 = Some r) /\
  (exists r, (run server (RollbackPVC s sid ns v d st pr) w []).1.1 = Some r) /\
  (exists r, (run server (RenamePVC s sid source sourcePV d pr) w []).1.1 = Some r).
Proof.
  intros Hw. split_and!.
  - destruct (ret_ActivatePVC sid ns v d st pr w [] Hw) as (r & w' & h' & -> & _). by exists r.
  - destruct (ret_RollbackPVC sid ns v d st pr w [] Hw) as (r & w' & h' & -> & _). by exists r.
  - destruct (ret_RenamePVC sid source sourcePV d pr w [] Hw) as (r & w' & h' & -> & _). by exists r.
Qed.
End termination.
