(* ===== verification/RebindSafety.v ===== *)
(** * Safety of rollback and rename

    The counterparts of the activation theorems for [RollbackPVC] and
    [RenamePVC]: which claim they may delete, when they create its replacement,
    and what their success means, against every server. *)

From S2P Require Import Prelude Utf8 GoErrors Lifecycle KubeTypes Prog Api ResourceState Ownership PVBinding Offline Activation SwitcherRules SwitcherSafety.

(** A delete issued behind a passed fence, right after the read it is
    conditioned on, of a claim without custom finalizers. *)
Definition conditioned_delete (h : trace) (ns name uid rv : string) (h0 : trace) : Prop :=
  exists pvc,
    h = Ev FenceErr None :: Ev CtxErr None :: Ev (GetPVC ns name) (inl pvc) :: h0 /\
    pvc_UID pvc = uid /\ pvc_ResourceVersion pvc = rv /\
    (forall f, f ∈ pvc_Finalizers pvc -> f = "" \/ f = PVCProtectionFinalizer).

Section rollback.
Context `{ConflictRetry} `{QuantityText}.
Context (s : Switcher) (sid activateNamespace : string) (v : PVCTransferBindings) (manifest : PVC).
Context (st0 : ActivationStatus) (progress : bool).

(** The claim rollback may delete: read under the source claim's name, bound to
    the destination volume with matching identities on both sides, marked by
    this session; and the destination volume already pinned. *)
Definition retire_ok (h : trace) (ns name uid rv : string) : Prop :=
  exists h0 current ns',
    conditioned_delete h ns name uid rv h0 /\
    Ev (GetPVC ns' (Name (SourcePVC v))) (inl current) ∈ h0 /\
    ns = pvc_Namespace current /\ name = pvc_Name current /\ uid = pvc_UID current /\
    mget (pvc_Annotations current) SessionKey = sid /\
    binding_seen current (DestinationPV v) h0 /\ retained (DestinationPV v) sid h0.

Definition restore_ok (h : trace) (p : PVC) : Prop :=
  just_fenced h /\ p = manifest /\ retained (SourcePV v) sid h /\ retained (DestinationPV v) sid h /\
  reserved (SourcePV v) (Namespace (SourcePVC v)) (Name (SourcePVC v)) h /\
  no_consumers (Namespace (SourcePVC v)) (Name (SourcePVC v)) h.

(** A finished rollback: the recorded claim was verified bound to the source
    volume, which is pinned; the activation part of the checkpoint is kept. *)
Definition rolled_back (st : ActivationStatus) (h : trace) : Prop :=
  exists p now,
    st = with_RolledBack st0 (PVCReference (Some p)) now /\
    (pvc_UID p = UID (SourcePVC v) \/ mget (pvc_Annotations p) SessionKey = sid) /\
    binding_seen p (SourcePV v) h /\ retained (SourcePV v) sid h.

Definition rollback_guard (h : trace) (r : req) : Prop :=
  match r with
  | DeletePVC ns name uid rv => retire_ok h ns name uid rv
  | CreatePVC p false => restore_ok h p
  | UpdatePV pv =>
      pv_update_ok [SourcePV v; DestinationPV v] sid (Namespace (SourcePVC v)) (Name (SourcePVC v)) h pv
  | UpdatePVC _ => False
  | Progress (Some st) => just_fenced h /\ rolled_back st h
  | Progress None => False
  | r => is_write r = false
  end.

Definition rollback_post (r : checked) (h : trace) : Prop :=
  saved st0 progress r.1 h /\ (r.2 = None -> rolled_back r.1 h) /\ (r.2 <> None -> r.1 = st0).

Lemma rollback_reads : reads_ok rollback_guard.
Proof. intros h r Hw Hp. by case_req r. Qed.

Lemma rollback_updates h pv :
  pv_update_ok [SourcePV v; DestinationPV v] sid (Namespace (SourcePVC v)) (Name (SourcePVC v)) h pv ->
  rollback_guard h (UpdatePV pv).
Proof. done. Qed.

Lemma wp_completeRollback p h :
  saved st0 progress st0 h ->
  pvc_UID p = UID (SourcePVC v) \/ mget (pvc_Annotations p) SessionKey = sid ->
  wp rollback_guard (completeRollback sid v st0 p progress) rollback_post h.
Proof.
  intros Hst Hown. pose proof rollback_reads as HG. unfold completeRollback.
  eapply wp_check_st; [auto with seen|by apply wp_verifyBinding|done|by split|].
  intros h1 Hs1 Hst1 Hb.
  eapply wp_check_st; [auto with seen|apply wp_markPVPair; [done|..]|done|by split|].
  { eapply retain_ok_guard; [apply rollback_updates|set_solver|by right]. }
  { eapply retain_ok_guard; [apply rollback_updates|set_solver|by right]. }
  intros h2 Hs2 Hst2 [Hm _].
  apply wp_bind_2, wp_call; [done|done|done|]. intros now.
  assert (forall h', h2 `suffix_of` h' -> rolled_back (with_RolledBack st0 (PVCReference (Some p)) now) h') as Hr.
  { intros h' Hs'. exists p, now. split_and!; [done|done| |by eapply pv_seen_mono].
    eapply binding_seen_mono; [|exact Hb]. by etrans. }
  apply wp_save with (d := st0); [done|by eapply saved_same|..].
  - intros _. split; [apply just_fenced_intro|]. apply Hr. by do 3 apply suffix_cons_r.
  - intros h' Hs' Hsv. split_and!; [done| |done]. intros _. apply Hr. by eapply suffix_cons_l.
  - intros e h' Hs' Hsv. by split_and!.
Qed.

Lemma wp_removeActiveDestination current ns' h :
  Name (DestinationPV v) <> "" ->
  Ev (GetPVC ns' (Name (SourcePVC v))) (inl current) ∈ h ->
  wp rollback_guard (removeActiveDestination s sid v current) (on_ok (fun _ => True)) h.
Proof.
  intros Hn Hc. pose proof rollback_reads as HG. unfold removeActiveDestination.
  case_test; [done|]. bool_prop.
  apply wp_check. eapply wp_mono; [by apply wp_verifyBinding|]. intros [e|] h1 Hs1 Hb; [done|].
  apply wp_check. eapply wp_mono; [apply wp_ensureRetain; [done|]|].
  { eapply (retain_ok_guard _ _ _ _ _ rollback_updates _ _ ""); [set_solver|by left]. }
  intros [e|] h2 Hs2 Hr; [done|].
  apply wp_check. eapply wp_mono; [apply wp_deletePVC; [done|]|].
  { intros pvc Hu Hf. exists h2, current, ns'. cbn in *. split_and!; try done.
    - exists pvc. split_and!; try done. by eapply deletion_finalizers_None.
    - eapply suffix_elem; [|exact Hc]. by etrans.
    - eapply binding_seen_mono; [done|by apply Hb].
    - by apply Hr. }
  intros [e|] h3 Hs3 _; [done|]. eapply wp_mono; [by apply wp_ensureDetached|done].
Qed.

Lemma quiet_rollback_foreign : quiet (rollback_foreign s sid activateNamespace v).
Proof. unfold rollback_foreign. quiet_tac. apply quiet_removeActiveDestination. Qed.

Lemma wp_rollback_foreign h :
  Name (DestinationPV v) <> "" ->
  wp rollback_guard (rollback_foreign s sid activateNamespace v) (on_ok (fun _ => True)) h.
Proof.
  intros Hn. pose proof rollback_reads as HG. unfold rollback_foreign. case_test; [done|].
  apply wp_bind_2, wp_call; [done|done|done|]. intros [active|e]; [|by case_test].
  eapply wp_removeActiveDestination; [done|left].
Qed.

Lemma wp_rollback_rebind h :
  saved st0 progress st0 h -> no_consumers (Namespace (SourcePVC v)) (Name (SourcePVC v)) h ->
  wp rollback_guard (rollback_rebind s sid v manifest st0 progress) rollback_post h.
Proof.
  intros Hst Hnc. pose proof rollback_reads as HG. unfold rollback_rebind.
  eapply wp_check_st; [auto with seen|apply wp_ensureRetain; [done|]|done|by split|].
  { eapply (retain_ok_guard _ _ _ _ _ rollback_updates _ _ ""); [set_solver|by left]. }
  intros h1 Hs1 Hst1 Hr1.
  eapply wp_check_st; [auto with seen|apply wp_ensureRetain; [done|]|done|by split|].
  { eapply (retain_ok_guard _ _ _ _ _ rollback_updates _ _ ""); [set_solver|by left]. }
  intros h2 Hs2 Hst2 Hr2.
  eapply wp_check_st; [auto with seen|by apply wp_validateBoundPVC|done|by split|].
  intros h3 Hs3 Hst3 _.
  eapply wp_check_st; [auto with seen|apply wp_reservePV; [done|]|done|by split|].
  { eapply reserve_ok_guard; [apply rollback_updates|set_solver]. }
  intros h4 Hs4 Hst4 Hres.
  apply wp_bind_2.
  eapply wp_mono; [eapply wp_quiet with (d := st0); [auto with seen|apply wp_createBoundPVC; [done|]]|].
  { assert (h2 `suffix_of` Ev FenceErr None :: Ev CtxErr None :: h4) as Hs.
    { etrans; [|apply fence_suffix]. by etrans. }
    split_and!; [apply just_fenced_intro|done| |by eapply pv_seen_mono| |].
    - eapply pv_seen_mono; [|exact Hr1]. by etrans.
    - eapply pv_seen_mono; [apply fence_suffix|done].
    - eapply no_consumers_mono; [|exact Hnc]. by do 2 (etrans; [eassumption|]). }
  intros [created|e] h5 Hs5 [Hc Hl].
  - destruct (Hc created eq_refl) as (_ & _ & Hm & _). unfold session_marked in Hm. bool_prop.
    apply wp_completeRollback; [by eapply saved_same|by right].
  - split_and!; [by eapply saved_same|done|done].
Qed.

Lemma validateRollbackPVC_inl desired' status d st :
  validateRollbackPVC sid v desired' status = inl (d, st) ->
  desired' = Some d /\ status = Some st /\ sid <> "" /\ Name (SourcePV v) <> "" /\
  Name (DestinationPV v) <> "" /\ pvc_VolumeName d = Name (SourcePV v).
Proof.
  unfold validateRollbackPVC. destruct desired' as [d'|], status as [st'|]; try done.
  repeat (case_test; [done|]). intros [= <- <-]. bool_prop. done.
Qed.

Lemma wp_RollbackPVC :
  wp rollback_guard
    (RollbackPVC s sid activateNamespace v (Some manifest) (Some st0) progress)
    (fun r h => exists st, r.1 = Some st /\ rollback_post (st, r.2) h) [].
Proof.
  pose proof rollback_reads as HG. unfold RollbackPVC.
  destruct (validateRollbackPVC _ _ _ _) as [[d st]|e] eqn:Hv.
  2: { exists st0. by split_and!. }
  apply validateRollbackPVC_inl in Hv as ([= <-] & [= <-] & _ & Hsrc & Hdst & _).
  apply wp_bind_2. eapply wp_mono with (Q := rollback_post).
  2: { intros [st e] h _ Hp. by exists st. }
  eapply (wp_check_st _ st0 progress _ _ _ (fun _ => True)); [auto with seen|by apply wp_fence|done|by split|].
  intros h1 Hs1 Hst1 _.
  eapply wp_check_st; [apply quiet_rollback_foreign|by apply wp_rollback_foreign|done|by split|].
  intros h2 Hs2 Hst2 _.
  eapply wp_check_st; [auto with seen|by apply wp_ensureNoConsumers|done|by split|].
  intros h3 Hs3 Hst3 Hnc.
  apply wp_bind_2, wp_call; [done|done|done|]. intros [current|e].
  - case_test.
    + case_test; [split_and!; [by eapply saved_same|done|done]|].
      apply wp_completeRollback; [by eapply saved_same|].
      apply andb_false_iff in Heqb0 as [?|?]; bool_prop; auto.
    + eapply wp_check_st; [auto with seen|eapply wp_removeActiveDestination; [done|left]|by eapply saved_same
        |by split|].
      intros h4 Hs4 Hst4 _. apply wp_rollback_rebind; [done|].
      eapply no_consumers_mono; [|exact Hnc]. by eapply suffix_cons_l.
  - case_test; [split_and!; [by eapply saved_same|done|done]|].
    apply wp_rollback_rebind; [by eapply saved_same|].
    eapply no_consumers_mono; [|exact Hnc]. by apply suffix_cons_r.
Qed.

Definition rollback_run {W} (server : handler W) (w : W) :=
  run server (RollbackPVC s sid activateNamespace v (Some manifest) (Some st0) progress) w [].

(** C5: rollback never destroys the source.  Against any server, [RollbackPVC]
    deletes only a claim of the source claim's name that it verified, on both
    sides and by UID, to be bound to the destination volume and that carries this
    session; the destination volume is pinned to Retain first, and the delete is
    fenced and conditioned on the identity just read.  It recreates the source
    claim from the given manifest only with both volumes pinned and the source
    volume reserved, and updates only the two recorded volumes. *)
Theorem rollback_never_deletes_source {W} (server : handler W) w :
  calls_ok rollback_guard [] (rollback_run server w).2.
Proof. by apply (wp_adequate _ server _ _ w [] wp_RollbackPVC). Qed.

End rollback.

Section rename.
Context `{ConflictRetry} `{QuantityText}.
Context (s : Switcher) (sid : string) (sourcePVC sourcePV : ObjectReference) (dest : PVC) (progress : bool).

Definition rename_delete_ok (h : trace) (ns name uid rv : string) : Prop :=
  exists h0,
    conditioned_delete h ns name uid rv h0 /\ (ns, name, uid) = ref_key sourcePVC /\
    no_consumers (Namespace sourcePVC) (Name sourcePVC) h0 /\ retained sourcePV sid h0.

Definition rename_create_ok (h : trace) (p : PVC) : Prop :=
  just_fenced h /\ p = pvc_set_VolumeName dest (Name sourcePV) /\
  claim_absent sourcePVC h /\ detached (Name sourcePV) h /\ retained sourcePV sid h /\
  reserved sourcePV (pvc_Namespace dest) (pvc_Name dest) h.

Definition rename_guard (h : trace) (r : req) : Prop :=
  match r with
  | DeletePVC ns name uid rv => rename_delete_ok h ns name uid rv
  | CreatePVC p false => rename_create_ok h p
  | UpdatePV pv => pv_update_ok [sourcePV] sid (pvc_Namespace dest) (pvc_Name dest) h pv
  | UpdatePVC _ => False
  | Progress st =>
      st = None /\ claim_absent sourcePVC h /\ detached (Name sourcePV) h /\ retained sourcePV sid h
  | r => is_write r = false
  end.

Definition renamed (p : PVC) (h : trace) : Prop :=
  mget (pvc_Annotations p) SessionKey = sid /\ binding_seen p sourcePV h /\ retained sourcePV sid h.

Lemma rename_reads : reads_ok rename_guard.
Proof. intros h r Hw Hp. by case_req r. Qed.

Lemma rename_updates h pv :
  pv_update_ok [sourcePV] sid (pvc_Namespace dest) (pvc_Name dest) h pv -> rename_guard h (UpdatePV pv).
Proof. done. Qed.

Lemma wp_rename_retain role h :
  wp rename_guard (ensureRetain sourcePV sid role) (on_ok (retained sourcePV sid)) h.
Proof.
  apply wp_ensureRetain; [apply rename_reads|].
  eapply (retain_ok_guard _ _ _ _ _ rename_updates _ _ ""); [set_solver|by left].
Qed.

Lemma wp_rename_existing source existing h :
  wp rename_guard (rename_existing sid sourcePV source existing) (on_val renamed) h.
Proof.
  pose proof rename_reads as HG. unfold rename_existing. case_test; [by intros a|].
  case_test; [|by intros a]. bool_prop.
  apply wp_check. eapply wp_mono; [by apply wp_ensureNoConsumers|]. intros [e|] h1 Hs1 _; [by intros a|].
  apply wp_check. eapply wp_mono; [by apply wp_verifyBinding|]. intros [e|] h2 Hs2 Hb; [by intros a|].
  apply wp_check. eapply wp_mono; [apply wp_rename_retain|]. intros [e|] h3 Hs3 Hr; [by intros a|].
  intros a [= <-]. split_and!; [done|eapply binding_seen_mono; [done|by apply Hb]|by apply Hr].
Qed.

Lemma wp_rename_rebind h :
  Name sourcePV <> "" -> no_consumers (Namespace sourcePVC) (Name sourcePVC) h ->
  wp rename_guard (rename_rebind s sid sourcePVC sourcePV dest progress) (on_val renamed) h.
Proof.
  intros Hn Hnc. pose proof rename_reads as HG. unfold rename_rebind.
  apply wp_check. eapply wp_mono; [apply wp_rename_retain|]. intros [e|] h1 Hs1 Hr1; [by intros a|].
  specialize (Hr1 eq_refl).
  apply wp_check. eapply wp_mono; [apply wp_deletePVC; [done|]|].
  { intros pvc Hu Hf. exists h1. split_and!; [|by rewrite Hu|by eapply no_consumers_mono|done].
    exists pvc. split_and!; try done. by eapply deletion_finalizers_None. }
  intros [e|] h2 Hs2 Ha2; [by intros a|]. specialize (Ha2 eq_refl).
  apply wp_check. eapply wp_mono; [by apply wp_ensureDetached|]. intros [e|] h3 Hs3 Hd3; [by intros a|].
  specialize (Hd3 eq_refl).
  assert (claim_absent sourcePVC h3) as Ha3 by (by eapply claim_absent_mono).
  assert (retained sourcePV sid h3) as Hr3 by (eapply pv_seen_mono; [|exact Hr1]; by etrans).
  apply wp_check. eapply wp_mono with (Q := fun _ _ => True).
  { unfold callProgress. destruct progress; [|done]. by split_and!. }
  intros [e|] h4 Hs4 _; [by intros a|].
  apply wp_check. eapply wp_mono; [by apply wp_validateBoundPVC|]. intros [e|] h5 Hs5 _; [by intros a|].
  apply wp_check. eapply wp_mono; [apply wp_reservePV; [done|]|].
  { eapply reserve_ok_guard; [apply rename_updates|set_solver]. }
  intros [e|] h6 Hs6 Hv6; [by intros a|]. specialize (Hv6 eq_refl).
  apply wp_try. eapply wp_mono; [apply wp_createBoundPVC; [done|]|].
  { assert (h3 `suffix_of` Ev FenceErr None :: Ev CtxErr None :: h6) as Hs.
    { etrans; [|apply fence_suffix]. by do 2 (etrans; [eassumption|]). }
    split_and!; [apply just_fenced_intro|done|by eapply claim_absent_mono|by eapply detached_mono
      |by eapply pv_seen_mono|]. eapply pv_seen_mono; [apply fence_suffix|done]. }
  intros [created|e] h7 Hs7 Hc; [|by intros a].
  destruct (Hc created eq_refl) as (_ & _ & Hm & _). unfold session_marked in Hm. bool_prop.
  apply wp_check. eapply wp_mono; [by apply wp_verifyBinding|]. intros [e|] h8 Hs8 Hb; [by intros a|].
  apply wp_check. eapply wp_mono; [apply wp_rename_retain|]. intros [e|] h9 Hs9 Hr; [by intros a|].
  intros a [= <-]. split_and!; [done|eapply binding_seen_mono; [done|by apply Hb]|by apply Hr].
Qed.

Lemma wp_rename_source h :
  wp rename_guard (rename_source sourcePVC sourcePV) (fun _ _ => True) h.
Proof.
  pose proof rename_reads as HG. unfold rename_source. apply wp_bind_2, wp_call; [done|done|done|].
  intros [p|e]; [|by case_test]. case_test; [done|]. apply wp_check.
  eapply wp_mono; [by apply wp_verifyBinding|]. by intros [e|].
Qed.

Lemma wp_RenamePVC :
  wp rename_guard (RenamePVC s sid sourcePVC sourcePV (Some dest) progress) (on_val renamed) [].
Proof.
  pose proof rename_reads as HG. unfold RenamePVC. apply wp_try, wp_Ret.
  destruct (validateRenamePVCRequest _ _ _ _) as [d|e] eqn:Hv; [|by intros a].
  assert (d = dest /\ Name sourcePV <> "") as [-> Hn].
  { revert Hv. unfold validateRenamePVCRequest. repeat (case_test; [done|]). intros [= ->].
    bool_prop. done. }
  apply wp_check. eapply wp_mono; [by apply wp_ensureNoConsumers|]. intros [e|] h1 Hs1 Hnc; [by intros a|].
  apply wp_try. eapply wp_mono; [apply wp_rename_source|]. intros [source|e] h2 Hs2 _; [|by intros a].
  apply wp_bind_2, wp_call; [done|done|done|]. intros [existing|e]; [apply wp_rename_existing|].
  case_test; [by intros a|]. apply wp_rename_rebind; [done|].
  eapply no_consumers_mono; [|by apply Hnc]. by apply suffix_cons_r.
Qed.

Definition rename_run {W} (server : handler W) (w : W) :=
  run server (RenamePVC s sid sourcePVC sourcePV (Some dest) progress) w [].

(** Renaming keeps the volume.  Against any server, [RenamePVC] deletes only
    the recorded source claim, fenced and conditioned on the identity just read,
    after it was seen without consumers and its volume pinned to Retain for this
    session; it reports progress and creates the renamed claim only after the
    source claim was observed absent and the volume detached, with the volume
    reserved for it; a returned claim carries this session and was verified bound
    to the same volume, still pinned. *)
Theorem rename_keeps_volume {W} (server : handler W) w :
  calls_ok rename_guard [] (rename_run server w).2 /\
  (forall p, (rename_run server w).1.1 = Some (inl p) -> renamed p (rename_run server w).2).
Proof.
  destruct (wp_adequate _ server _ _ w [] wp_RenamePVC) as [Hc Hq]. split; [exact Hc|].
  intros p Hp. by apply (Hq (inl p)).
Qed.
End rename.
