(* ===== verification/ObjectValidity.v ===== *)
(** * What a valid migration object guarantees

    An object that passes [validateClusterMigrationObject] has, once its phase is past
    reservation, exactly one checkpoint for each planned volume, found by the index
    map, with the identities the executor dereferences. *)

From S2P Require Import Prelude Utf8 GoErrors Lifecycle PhaseMachines KubeTypes Prog Api ResourceState Ownership PVBinding NodeSelection GoFormat Quota PVCPolicy Reserver TransferPath MigrationObject Offline Activation MigrationStorage Executor.

(** ** Loops *)

Lemma checkpoints_loop_None volumes dn tn phase seen l :
  checkpoints_loop volumes dn tn phase seen l = None <->
  NoDup (map volume_name l) /\ (forall n, n ∈ map volume_name l -> n ∉ seen) /\
  Forall (fun c => exists v, volumes !! volume_name c = Some v /\ validate_checkpoint v c dn tn phase = None) l.
Proof.
  revert seen. induction l as [|c l IH]; intros seen; cbn [checkpoints_loop map].
  - split; [|done]. intros _. split_and!; [constructor|set_solver|constructor].
  - rewrite NoDup_cons, Forall_cons. destruct (volumes !! volume_name c) as [v|] eqn:Hv.
    2: { split; [done|]. intros (_ & _ & (v & Hv' & _) & _). congruence. }
    destruct (contains seen (volume_name c)) eqn:Hc.
    { split; [done|]. intros (_ & Hs & _). exfalso. apply (Hs (volume_name c)); [left|]. by apply contains_true. }
    destruct (validate_checkpoint v c dn tn phase) as [e|] eqn:He.
    { split; [done|]. intros (_ & _ & (v' & Hv' & He') & _). congruence. }
    rewrite IH. assert (volume_name c ∉ seen) as Hns by (by apply contains_false).
    split.
    + intros (Hnd & Hs & Hf). split_and!; try done; [|set_solver|by exists v].
      intros Hin. apply (Hs _ Hin). left.
    + intros ((Hni & Hnd) & Hs & (_ & Hf)). split_and!; try done.
      intros n Hn. rewrite not_elem_of_cons. split; [congruence|]. apply Hs. by right.
Qed.

Section reservation.
Context `{QT : QuantityText}.

Lemma reservation_loop_inl sn dn vols dests planned out :
  reservation_loop sn dn vols dests planned = inl out ->
  (forall v, v ∈ planned -> out !! planned_name v = Some v) /\
  (forall n v, vols !! n = Some v -> out !! n = Some v) /\
  (forall n v, out !! n = Some v -> vols !! n = Some v \/ (n = planned_name v /\ v ∈ planned)) /\
  size out = size vols + length planned.
Proof.
  revert vols dests. induction planned as [|v planned IH]; intros vols dests; cbn.
  - intros [= <-]. split_and!; [set_solver|done|by left|lia].
  - case_test; [done|]. case_test; [done|]. case_test; [done|]. case_test; [done|]. intros Hl.
    apply orb_false_iff in Heqb0 as [Hnew _]. apply bool_decide_eq_false in Hnew.
    apply eq_None_not_Some in Hnew. destruct (IH _ _ Hl) as (H1 & H2 & H3 & H4). split_and!.
    + intros u [->|Hu]%elem_of_cons; [|by apply H1]. apply H2. by rewrite lookup_insert_eq.
    + intros n u Hu. apply H2. rewrite lookup_insert_ne; [done|]. congruence.
    + intros n u Hu. destruct (H3 n u Hu) as [Hi|[Hn Hin]]; [|right; split; [done|by right]].
      apply lookup_insert_Some in Hi as [[<- ->]|[_ Hi]]; [right; split; [done|left]|by left].
    + rewrite H4, map_size_insert_None by done. lia.
Qed.
End reservation.

(** ** The index map *)

Lemma indexes_snoc l c :
  clusterMigrationVolumeIndexes (l ++ [c]) = <[volume_name c := length l]> (clusterMigrationVolumeIndexes l).
Proof.
  unfold clusterMigrationVolumeIndexes. rewrite imap_app, foldl_app. cbn. by rewrite Nat.add_0_r.
Qed.

Lemma indexes_lookup l i c :
  NoDup (map volume_name l) -> l !! i = Some c -> clusterMigrationVolumeIndexes l !! volume_name c = Some i.
Proof.
  revert i c. induction l as [|d l IH] using rev_ind; intros i c Hnd Hi; [done|].
  rewrite map_app in Hnd. apply NoDup_app in Hnd as (Hnd & Hdis & _). rewrite indexes_snoc.
  apply lookup_app_Some in Hi as [Hi|[Hlen Hi]].
  - rewrite lookup_insert_ne; [by apply IH|]. intros Heq. apply (Hdis (volume_name c)).
    + apply list_elem_of_fmap. exists c. split; [done|]. by eapply list_elem_of_lookup_2.
    + cbn. rewrite Heq. left.
  - apply list_lookup_singleton_Some in Hi as [Hz <-]. rewrite lookup_insert_eq. f_equal. lia.
Qed.

(** Names without repetition inside a map of the same size cover the map. *)
Lemma names_cover (names : list string) (volumes : gmap string VolumeSpec) n :
  NoDup names -> (forall m, m ∈ names -> is_Some (volumes !! m)) -> length names = size volumes ->
  is_Some (volumes !! n) -> n ∈ names.
Proof.
  intros Hnd Hin Hlen Hn.
  assert (list_to_set names ⊆ dom volumes) as Hsub.
  { intros m. rewrite elem_of_list_to_set, elem_of_dom. apply Hin. }
  assert (size (list_to_set names : gset string) = length names) as Hsz by (by apply size_list_to_set).
  assert (list_to_set names = dom volumes) as Heq.
  { apply leibniz_equiv, set_subseteq_size_equiv; [done|]. rewrite size_dom. lia. }
  apply elem_of_dom in Hn. rewrite <- Heq in Hn. by apply elem_of_list_to_set in Hn.
Qed.

(** ** Valid objects *)

Lemma first_err_None a b : first_err a b = None <-> a = None /\ b = None.
Proof. destruct a; cbn; intuition congruence. Qed.

Section valid.
Context `{QT : QuantityText}.

Definition valid (o : ClusterMigration) : Prop := validateClusterMigrationObject o = None.

Lemma valid_plan o plan :
  valid o -> mig_Plan o = Some plan -> validate_plan o plan = None.
Proof.
  unfold valid, validateClusterMigrationObject. intros Hv Hp. case_test; [done|].
  rewrite !first_err_None in Hv. destruct Hv as (_ & _ & Hv). by rewrite Hp in Hv.
Qed.

Lemma valid_checkpoints o plan :
  valid o -> mig_Plan o = Some plan ->
  exists volumes,
    validateReservationVolumes (plan_Volumes plan) (plan_SourceNamespace plan) (plan_TemporaryNamespace plan) = inl volumes /\
    validateMigrationCheckpoints volumes (mig_Volumes o) (plan_DestinationNamespace plan)
      (plan_TemporaryNamespace plan) (workflowResumePhase (mig_Status o)) = None.
Proof.
  intros Hv Hp. pose proof (valid_plan o plan Hv Hp) as Hpl. unfold validate_plan in Hpl. case_test; [done|].
  rewrite !first_err_None in Hpl. destruct Hpl as (_ & _ & Hpl).
  destruct (validateReservationVolumes _ _ _) as [volumes|e]; [|done]. exists volumes.
  by apply first_err_None in Hpl as [_ Hpl].
Qed.

(** Past reservation every planned volume has its own, validated checkpoint. *)
Lemma valid_checkpoint o plan volume :
  valid o -> mig_Plan o = Some plan -> early_phase (workflowResumePhase (mig_Status o)) = false ->
  volume ∈ plan_Volumes plan ->
  exists c, checkpoint_of o volume = Some c /\ volume_name c = planned_name volume /\
    validate_checkpoint volume c (plan_DestinationNamespace plan) (plan_TemporaryNamespace plan)
      (workflowResumePhase (mig_Status o)) = None.
Proof.
  intros Hv Hp He Hin. destruct (valid_checkpoints o plan Hv Hp) as (volumes & Hr & Hc).
  destruct (reservation_loop_inl _ _ _ _ _ _ Hr) as (Hpl & _ & _ & Hsz).
  unfold validateMigrationCheckpoints in Hc. rewrite He, andb_false_r in Hc. case_test; [done|].
  apply negb_false_iff, Nat.eqb_eq in Heqb.
  apply checkpoints_loop_None in Hc as (Hnd & _ & Hf).
  assert (planned_name volume ∈ map volume_name (mig_Volumes o)) as Hname.
  { apply (names_cover _ volumes); [done| |by rewrite length_map|eexists; by apply Hpl].
    intros m (c & -> & Hc)%list_elem_of_fmap. rewrite Forall_forall in Hf.
    destruct (Hf c Hc) as (v & Hv' & _). by exists v. }
  apply list_elem_of_fmap in Hname as (c & Hn & Hc).
  destruct (proj1 (list_elem_of_lookup _ _) Hc) as [i Hi].
  exists c. split_and!; [|done|].
  - unfold checkpoint_of, checkpoint_index. rewrite Hn, (indexes_lookup _ i c) by done. done.
  - rewrite Forall_forall in Hf. destruct (Hf c Hc) as (v & Hv' & Hok).
    rewrite <- Hn, (Hpl volume Hin) in Hv'. by injection Hv' as <-.
Qed.

(** The plan has no two volumes of the same source claim. *)
Lemma reservation_loop_NoDup sn dn vols dests planned out :
  reservation_loop sn dn vols dests planned = inl out ->
  NoDup (map planned_name planned) /\ forall v, v ∈ planned -> vols !! planned_name v = None.
Proof.
  revert vols dests. induction planned as [|v planned IH]; intros vols dests; cbn.
  - intros _. split; [constructor|]. intros v Hv. by apply not_elem_of_nil in Hv.
  - case_test; [done|]. case_test; [done|]. case_test; [done|]. case_test; [done|]. intros Hl.
    apply orb_false_iff in Heqb0 as [Hnew _]. apply bool_decide_eq_false, eq_None_not_Some in Hnew.
    destruct (IH _ _ Hl) as [Hnd Hout]. split.
    + constructor; [|done]. intros (u & Heq & Hu)%list_elem_of_fmap. specialize (Hout u Hu).
      by rewrite <- Heq, lookup_insert_eq in Hout.
    + intros u [->|Hu]%elem_of_cons; [done|]. specialize (Hout u Hu).
      by apply lookup_insert_None in Hout as [? _].
Qed.

Lemma valid_plan_NoDup o plan : valid o -> mig_Plan o = Some plan -> NoDup (map planned_name (plan_Volumes plan)).
Proof.
  intros Hv Hp. destruct (valid_checkpoints o plan Hv Hp) as (volumes & Hr & _).
  by apply reservation_loop_NoDup in Hr as [Hnd _].
Qed.

(** An index belongs to a checkpoint of that name. *)
Lemma indexes_sound l n i :
  clusterMigrationVolumeIndexes l !! n = Some i -> exists c, l !! i = Some c /\ volume_name c = n.
Proof.
  revert i. induction l as [|d l IH] using rev_ind; intros i; [done|]. rewrite indexes_snoc.
  intros [[<- <-]|[_ Hi]]%lookup_insert_Some.
  - exists d. split; [|done]. by rewrite lookup_app_r, Nat.sub_diag by lia.
  - destruct (IH i Hi) as (c & Hc & Hn). exists c. split; [|done]. by apply lookup_app_l_Some.
Qed.

(** The names of the checkpoints are those of the plan. *)
Lemma valid_names o plan c :
  valid o -> mig_Plan o = Some plan -> c ∈ mig_Volumes o ->
  exists volume, volume ∈ plan_Volumes plan /\ planned_name volume = volume_name c.
Proof.
  intros Hv Hp Hin. destruct (valid_checkpoints o plan Hv Hp) as (volumes & Hr & Hc).
  destruct (reservation_loop_inl _ _ _ _ _ _ Hr) as (_ & _ & Hout & _).
  unfold validateMigrationCheckpoints in Hc. case_test.
  { apply andb_true_iff in Heqb as [Hl _]. apply Nat.eqb_eq, length_zero_iff_nil in Hl. rewrite Hl in Hin.
    by apply not_elem_of_nil in Hin. }
  case_test; [done|]. apply checkpoints_loop_None in Hc as (_ & _ & Hf). rewrite Forall_forall in Hf.
  destruct (Hf c Hin) as (v & Hl & _). destruct (Hout _ _ Hl) as [He|[Hn Hpv]]; [by rewrite lookup_empty in He|].
  by exists v.
Qed.

Lemma valid_NoDup o plan : valid o -> mig_Plan o = Some plan -> NoDup (map volume_name (mig_Volumes o)).
Proof.
  intros Hv Hp. destruct (valid_checkpoints o plan Hv Hp) as (volumes & _ & Hc).
  unfold validateMigrationCheckpoints in Hc. case_test.
  { apply andb_true_iff in Heqb as [Hl _]. apply Nat.eqb_eq, length_zero_iff_nil in Hl. rewrite Hl. constructor. }
  case_test; [done|]. by apply checkpoints_loop_None in Hc as (Hnd & _).
Qed.

(** A reserved volume has both destination identities. *)
Lemma reserved_bound volume st activation attempts dn tn :
  validateMigrationVolumeCheckpoint volume st activation attempts dn tn = None -> rs_Reserved st = true ->
  exists pvc pv, rs_DestinationPVC st = Some pvc /\ rs_DestinationPV st = Some pv.
Proof.
  intros Hk Hr. unfold validateMigrationVolumeCheckpoint in Hk. rewrite Hr in Hk. do 2 (case_test; [done|]).
  case_test; [done|]. cbn in Heqb1. apply orb_false_iff in Heqb1 as [H1 H2].
  apply bool_decide_eq_false in H1, H2.
  destruct (rs_DestinationPVC _) as [pvc|]; [|done]. destruct (rs_DestinationPV _) as [pv|]; [|done].
  by exists pvc, pv.
Qed.

(** ... and the identities that the executor dereferences. *)
Lemma checkpoint_bound volume c dn tn phase :
  validate_checkpoint volume c dn tn phase = None -> early_phase phase = false ->
  rs_Reserved (mv_Reservation c) = true /\
  exists pvc pv, rs_DestinationPVC (mv_Reservation c) = Some pvc /\ rs_DestinationPV (mv_Reservation c) = Some pv.
Proof.
  unfold validate_checkpoint. intros Hc He.
  destruct (validateMigrationVolumeCheckpoint _ _ _ _ _ _) eqn:Hk; [done|].
  unfold validateMigrationVolumePhase in Hc. rewrite He in Hc. cbn in Hc.
  destruct (rs_Reserved (mv_Reservation c)) eqn:Hr; [|done]. split; [done|]. by eapply reserved_bound.
Qed.

(** A volume with copy attempts has recorded destination identities, in every phase. *)
Lemma valid_attempted o plan c :
  valid o -> mig_Plan o = Some plan -> c ∈ mig_Volumes o -> sync_Attempts (mv_Sync c) <> 0%Z ->
  exists pvc pv, rs_DestinationPVC (mv_Reservation c) = Some pvc /\ rs_DestinationPV (mv_Reservation c) = Some pv.
Proof.
  intros Hv Hp Hin Ha. destruct (valid_checkpoints o plan Hv Hp) as (volumes & _ & Hc).
  unfold validateMigrationCheckpoints in Hc. case_test.
  { apply andb_true_iff in Heqb as [Hl _]. apply Nat.eqb_eq, length_zero_iff_nil in Hl. rewrite Hl in Hin.
    by apply not_elem_of_nil in Hin. }
  case_test; [done|]. apply checkpoints_loop_None in Hc as (_ & _ & Hf). rewrite Forall_forall in Hf.
  destruct (Hf c Hin) as (v & _ & Hok). unfold validate_checkpoint in Hok.
  destruct (validateMigrationVolumeCheckpoint _ _ _ _ _ _) eqn:Hk; [done|].
  eapply reserved_bound; [exact Hk|].
  unfold validateMigrationVolumeCheckpoint in Hk. do 4 (case_test; [done|]).
  destruct (Z.ltb_spec (sync_Attempts (mv_Sync c)) 0); [done|].
  destruct (Z.ltb_spec 0 (sync_Attempts (mv_Sync c))); [|lia]. by destruct (rs_Reserved _).
Qed.

Lemma valid_bound o plan volume :
  valid o -> mig_Plan o = Some plan -> early_phase (workflowResumePhase (mig_Status o)) = false ->
  volume ∈ plan_Volumes plan ->
  exists c binding, bound_checkpoint o plan volume = Some (c, binding) /\ checkpoint_of o volume = Some c /\
    volume_name c = planned_name volume /\ rs_Reserved (mv_Reservation c) = true /\
    validate_checkpoint volume c (plan_DestinationNamespace plan) (plan_TemporaryNamespace plan)
      (workflowResumePhase (mig_Status o)) = None.
Proof.
  intros Hv Hp He Hin. destruct (valid_checkpoint o plan volume Hv Hp He Hin) as (c & Hc & Hn & Hok).
  destruct (checkpoint_bound _ _ _ _ _ Hok He) as (Hr & pvc & pv & H1 & H2).
  unfold bound_checkpoint, plannedMigrationBindings. rewrite Hc, H1, H2. eexists _, _. split_and!; done.
Qed.

Lemma valid_late_plan o :
  valid o -> workflowResumePhase (mig_Status o) <> PhaseNone -> workflowResumePhase (mig_Status o) <> PhasePlanned ->
  workflowResumePhase (mig_Status o) <> PhaseAborted -> exists plan, mig_Plan o = Some plan.
Proof.
  unfold valid, validateClusterMigrationObject. intros Hv H1 H2 H3. case_test; [done|].
  rewrite !first_err_None in Hv. destruct Hv as (_ & _ & Hv).
  destruct (mig_Plan o) as [plan|]; [by exists plan|]. case_test; [done|].
  apply orb_false_iff in Heqb0 as [_ Hb]. rewrite !andb_false_iff, !negb_false_iff, !phase_eqb_true in Hb. tauto.
Qed.

(** Every checkpoint belongs to a planned volume. *)
Lemma planned_indexes o plan i c :
  valid o -> mig_Plan o = Some plan ->
  mig_Volumes o !! i = Some c -> i ∈ map (checkpoint_index o) (plan_Volumes plan).
Proof.
  intros Hv Hp Hi. destruct (valid_names o plan c Hv Hp) as (volume & Hin & Hn).
  { by eapply list_elem_of_lookup_2. }
  apply list_elem_of_fmap. exists volume. split; [|done]. unfold checkpoint_index.
  by rewrite Hn, (indexes_lookup _ i c (valid_NoDup o plan Hv Hp) Hi).
Qed.
End valid.
