(* ===== verification/StagedInstances.v ===== *)
(** * The four staging workflows

    Instances of [StagedWorkflow] for Copy, ClusterCopy, Reservation and
    ClusterReservation, and of [CopyWorkflow] for the two copies.  StagedLaws proves that
    they satisfy the laws the theorems about the executors rely on. *)

From S2P Require Import Prelude Utf8 GoErrors Lifecycle PhaseMachines KubeTypes Prog Api ResourceState Ownership PVBinding NodeSelection GoFormat Quota PVCPolicy Reserver TransferPath Reclaim MigrationObject Offline Activation MigrationStorage MigrationCleanup CopyEngine Exec CopyRunner SourceLoss Executor CleanupExecutor MigrationSync StagedObjects Staged CopyExecutor ObjectValidity.

(** ** Texts *)

Definition copy_texts : StagedTexts :=
  {| sx_operation := "copy"; sx_reserving := "reserving copy destination storage";
     sx_reserved := "copy destination storage is reserved"; sx_resume := "copy resume requested";
     sx_abortUnplanned := "copy aborted before execution planning"; sx_aborting := "stopping copy tools";
     sx_aborted := "copy aborted; volumes are retained for cleanup";
     sx_deleting := "Stopping copy and releasing storage ownership before deletion" |}.

Definition reservation_texts : StagedTexts :=
  {| sx_operation := "reservation"; sx_reserving := "reserving destination storage";
     sx_reserved := "destination storage is provisioned and retained"; sx_resume := "reservation resume requested";
     sx_abortUnplanned := "reservation aborted before execution planning"; sx_aborting := "aborting reservation";
     sx_aborted := "reservation aborted; reserved volumes are retained for cleanup";
     sx_deleting := "Stopping reservation and releasing storage ownership before deletion" |}.

(** ** Field updates *)

Definition cy_put (o : Copy) (st : WorkflowStatus) : Copy :=
  {| cy_Name := cy_Name o; cy_Namespace := cy_Namespace o; cy_DeletionTimestamp := cy_DeletionTimestamp o;
     cy_Spec := cy_Spec o; cy_SourceNode := cy_SourceNode o; cy_Plan := cy_Plan o; cy_Status := st;
     cy_Volumes := cy_Volumes o |}.
Definition cy_set_volumes (o : Copy) (volumes : list CopyVolumeStatus) : Copy :=
  {| cy_Name := cy_Name o; cy_Namespace := cy_Namespace o; cy_DeletionTimestamp := cy_DeletionTimestamp o;
     cy_Spec := cy_Spec o; cy_SourceNode := cy_SourceNode o; cy_Plan := cy_Plan o; cy_Status := cy_Status o;
     cy_Volumes := volumes |}.
Definition cy_set_node (o : Copy) (node : string) : Copy :=
  {| cy_Name := cy_Name o; cy_Namespace := cy_Namespace o; cy_DeletionTimestamp := cy_DeletionTimestamp o;
     cy_Spec := cy_Spec o; cy_SourceNode := node; cy_Plan := cy_Plan o; cy_Status := cy_Status o;
     cy_Volumes := cy_Volumes o |}.

Definition cc_put (o : ClusterCopy) (st : WorkflowStatus) : ClusterCopy :=
  {| cc_Name := cc_Name o; cc_Namespace := cc_Namespace o; cc_DeletionTimestamp := cc_DeletionTimestamp o;
     cc_Spec := cc_Spec o; cc_SourceNode := cc_SourceNode o; cc_Plan := cc_Plan o; cc_Status := st;
     cc_Volumes := cc_Volumes o |}.
Definition cc_set_volumes (o : ClusterCopy) (volumes : list ClusterCopyVolumeStatus) : ClusterCopy :=
  {| cc_Name := cc_Name o; cc_Namespace := cc_Namespace o; cc_DeletionTimestamp := cc_DeletionTimestamp o;
     cc_Spec := cc_Spec o; cc_SourceNode := cc_SourceNode o; cc_Plan := cc_Plan o; cc_Status := cc_Status o;
     cc_Volumes := volumes |}.
Definition cc_set_node (o : ClusterCopy) (node : string) : ClusterCopy :=
  {| cc_Name := cc_Name o; cc_Namespace := cc_Namespace o; cc_DeletionTimestamp := cc_DeletionTimestamp o;
     cc_Spec := cc_Spec o; cc_SourceNode := node; cc_Plan := cc_Plan o; cc_Status := cc_Status o;
     cc_Volumes := cc_Volumes o |}.

Definition rsv_put (o : Reservation) (st : WorkflowStatus) : Reservation :=
  {| rsv_Name := rsv_Name o; rsv_Namespace := rsv_Namespace o; rsv_DeletionTimestamp := rsv_DeletionTimestamp o;
     rsv_Spec := rsv_Spec o; rsv_Plan := rsv_Plan o; rsv_Status := st; rsv_Volumes := rsv_Volumes o |}.
Definition rsv_set_volumes (o : Reservation) (volumes : list VolumeReservationStatus) : Reservation :=
  {| rsv_Name := rsv_Name o; rsv_Namespace := rsv_Namespace o; rsv_DeletionTimestamp := rsv_DeletionTimestamp o;
     rsv_Spec := rsv_Spec o; rsv_Plan := rsv_Plan o; rsv_Status := rsv_Status o; rsv_Volumes := volumes |}.

Definition crv_put (o : ClusterReservation) (st : WorkflowStatus) : ClusterReservation :=
  {| crv_Name := crv_Name o; crv_Namespace := crv_Namespace o; crv_DeletionTimestamp := crv_DeletionTimestamp o;
     crv_Spec := crv_Spec o; crv_Plan := crv_Plan o; crv_Status := st; crv_Volumes := crv_Volumes o |}.
Definition crv_set_volumes (o : ClusterReservation) (volumes : list ReservationStatus) : ClusterReservation :=
  {| crv_Name := crv_Name o; crv_Namespace := crv_Namespace o; crv_DeletionTimestamp := crv_DeletionTimestamp o;
     crv_Spec := crv_Spec o; crv_Plan := crv_Plan o; crv_Status := crv_Status o; crv_Volumes := volumes |}.

#[global, refine] Instance Copy_workflow : WorkflowObject Copy := {| wf_get := cy_Status; wf_put := cy_put |}.
Proof. all: done. Defined.
#[global, refine] Instance ClusterCopy_workflow : WorkflowObject ClusterCopy := {| wf_get := cc_Status; wf_put := cc_put |}.
Proof. all: done. Defined.
#[global, refine] Instance Reservation_workflow : WorkflowObject Reservation :=
  {| wf_get := rsv_Status; wf_put := rsv_put |}.
Proof. all: done. Defined.
#[global, refine] Instance ClusterReservation_workflow : WorkflowObject ClusterReservation :=
  {| wf_get := crv_Status; wf_put := crv_put |}.
Proof. all: done. Defined.

(** ** Plans *)

Definition copy_scoped_plan (o : Copy) : option ScopedCopyPlan :=
  plan ← cy_Plan o;
  Some {| scp_Plan := plan; scp_SourceNamespace := cy_Namespace o; scp_DestinationNamespace := cy_Namespace o |}.

Definition cluster_copy_scoped_plan (o : ClusterCopy) : option ScopedCopyPlan :=
  plan ← cc_Plan o;
  Some {| scp_Plan := ccp_Plan plan; scp_SourceNamespace := ccp_SourceNamespace plan;
          scp_DestinationNamespace := ccp_DestinationNamespace plan |}.

Definition scoped_reservation_plan (plan : ReservationPlan) (source destination : string) : StagedPlan :=
  {| sp_Volumes := rvp_Volumes plan; sp_SourceNamespace := source; sp_DestinationNamespace := destination;
     sp_TargetNode := rvp_TargetNode plan; sp_ToolImage := rvp_ToolImage plan;
     sp_UnusedStoragePolicy := rvp_UnusedStoragePolicy plan; sp_SkipSourceUsageCheck := rvp_SkipSourceUsageCheck plan |}.

Definition reservation_plan (o : Reservation) : option StagedPlan :=
  plan ← rsv_Plan o; Some (scoped_reservation_plan plan (rsv_Namespace o) (rsv_Namespace o)).
Definition cluster_reservation_plan (o : ClusterReservation) : option StagedPlan :=
  plan ← crv_Plan o;
  Some (scoped_reservation_plan (crp_Plan plan) (crp_SourceNamespace plan) (crp_DestinationNamespace plan)).

(** ** Checkpoints *)

Definition blank_sync : CopySyncStatus :=
  {| cps_WarmCompletedAt := None; cps_Attempts := 0; cps_BytesCopied := 0; cps_LastError := "" |}.

Definition blank_local (volume : VolumeSpec) : VolumeReservationStatus :=
  {| lr_SourcePVCName := planned_name volume; lr_DestinationPVC := None; lr_DestinationPV := None;
     lr_DestinationPolicy := ""; lr_Reserved := false |}.

Definition copy_start (o : Copy) : Copy :=
  match cy_Volumes o, cy_Plan o with
  | [], Some plan =>
      cy_set_volumes o (map (fun v => {| cyv_Reservation := blank_local v; cyv_Sync := blank_sync |}) (cyp_Volumes plan))
  | _, _ => o
  end.
Definition cluster_copy_start (o : ClusterCopy) : ClusterCopy :=
  match cc_Volumes o, cc_Plan o with
  | [], Some plan =>
      cc_set_volumes o (map (fun v => {| ccv_Reservation := blank_reservation v; ccv_Sync := blank_sync |})
                          (cyp_Volumes (ccp_Plan plan)))
  | _, _ => o
  end.
Definition reservation_start (o : Reservation) : Reservation :=
  match rsv_Volumes o, rsv_Plan o with
  | [], Some plan => rsv_set_volumes o (map blank_local (rvp_Volumes plan))
  | _, _ => o
  end.
Definition cluster_reservation_start (o : ClusterReservation) : ClusterReservation :=
  match crv_Volumes o, crv_Plan o with
  | [], Some plan => crv_set_volumes o (map blank_reservation (rvp_Volumes (crp_Plan plan)))
  | _, _ => o
  end.

Definition copy_record (o : Copy) (i : nat) (st : ReservationStatus) : result Copy :=
  match localReservationCheckpoint st (cy_Namespace o) with
  | inr e => inr e
  | inl local =>
      inl (cy_set_volumes o (alter (fun v => {| cyv_Reservation := local; cyv_Sync := cyv_Sync v |}) i (cy_Volumes o)))
  end.
Definition cluster_copy_record (o : ClusterCopy) (i : nat) (st : ReservationStatus) : result ClusterCopy :=
  inl (cc_set_volumes o (alter (fun v => {| ccv_Reservation := st; ccv_Sync := ccv_Sync v |}) i (cc_Volumes o))).
Definition reservation_record (o : Reservation) (i : nat) (st : ReservationStatus) : result Reservation :=
  match localReservationCheckpoint st (rsv_Namespace o) with
  | inr e => inr e
  | inl local => inl (rsv_set_volumes o (<[i := local]> (rsv_Volumes o)))
  end.
Definition cluster_reservation_record (o : ClusterReservation) (i : nat) (st : ReservationStatus)
    : result ClusterReservation :=
  inl (crv_set_volumes o (<[i := st]> (crv_Volumes o))).

Definition copy_set_sync (o : Copy) (i : nat) (f : CopySyncStatus -> CopySyncStatus) : Copy :=
  cy_set_volumes o (alter (fun v => {| cyv_Reservation := cyv_Reservation v; cyv_Sync := f (cyv_Sync v) |}) i (cy_Volumes o)).
Definition cluster_copy_set_sync (o : ClusterCopy) (i : nat) (f : CopySyncStatus -> CopySyncStatus) : ClusterCopy :=
  cc_set_volumes o (alter (fun v => {| ccv_Reservation := ccv_Reservation v; ccv_Sync := f (ccv_Sync v) |}) i (cc_Volumes o)).

(** ** The instances *)

Section instances.
Context `{QT : QuantityText}.

(** A copy validates against the phase to resume, a reservation against its phase. *)
#[global] Instance copy_staged : StagedWorkflow Copy := {|
  sw_texts := copy_texts; sw_delivered := PhaseWarmCopied; sw_joinFence := false; sw_Name := cy_Name;
  sw_deleting o := deleted (cy_DeletionTimestamp o); sw_plan o := staged_plan <$> copy_scoped_plan o;
  sw_checkpoints o := map (fun v => qualifiedReservationCheckpoint (cyv_Reservation v) (cy_Namespace o)) (cy_Volumes o);
  sw_start := copy_start; sw_record := copy_record;
  sw_sameProgress o o' := bool_decide (cy_Volumes o = cy_Volumes o');
  sw_validateObject := validateCopyObject;
  sw_validateTransition o next :=
    validateCopyTransition (workflowResumePhase (cy_Status o)) next (bool_decide (is_Some (cy_Plan o)));
  sw_failureReason := failureReason |}.

#[global] Instance cluster_copy_staged : StagedWorkflow ClusterCopy := {|
  sw_texts := copy_texts; sw_delivered := PhaseWarmCopied; sw_joinFence := false; sw_Name := cc_Name;
  sw_deleting o := deleted (cc_DeletionTimestamp o); sw_plan o := staged_plan <$> cluster_copy_scoped_plan o;
  sw_checkpoints o := map ccv_Reservation (cc_Volumes o);
  sw_start := cluster_copy_start; sw_record := cluster_copy_record;
  sw_sameProgress o o' := bool_decide (cc_Volumes o = cc_Volumes o');
  sw_validateObject := validateClusterCopyObject;
  sw_validateTransition o next :=
    validateCopyTransition (workflowResumePhase (cc_Status o)) next (bool_decide (is_Some (cc_Plan o)));
  sw_failureReason := failureReason |}.

#[global] Instance reservation_staged : StagedWorkflow Reservation := {|
  sw_texts := reservation_texts; sw_delivered := PhaseReserved; sw_joinFence := false; sw_Name := rsv_Name;
  sw_deleting o := deleted (rsv_DeletionTimestamp o); sw_plan := reservation_plan;
  sw_checkpoints o := map (fun v => qualifiedReservationCheckpoint v (rsv_Namespace o)) (rsv_Volumes o);
  sw_start := reservation_start; sw_record := reservation_record;
  sw_sameProgress o o' := bool_decide (rsv_Volumes o = rsv_Volumes o');
  sw_validateObject := validateReservationObject;
  sw_validateTransition o next :=
    validateReservationTransition (ws_Phase (rsv_Status o)) next (bool_decide (is_Some (rsv_Plan o)));
  sw_failureReason _ := "" |}.

#[global] Instance cluster_reservation_staged : StagedWorkflow ClusterReservation := {|
  sw_texts := reservation_texts; sw_delivered := PhaseReserved; sw_joinFence := true; sw_Name := crv_Name;
  sw_deleting o := deleted (crv_DeletionTimestamp o); sw_plan := cluster_reservation_plan;
  sw_checkpoints := crv_Volumes;
  sw_start := cluster_reservation_start; sw_record := cluster_reservation_record;
  sw_sameProgress o o' := bool_decide (crv_Volumes o = crv_Volumes o');
  sw_validateObject := validateClusterReservationObject;
  sw_validateTransition o next :=
    validateReservationTransition (ws_Phase (crv_Status o)) next (bool_decide (is_Some (crv_Plan o)));
  sw_failureReason _ := "" |}.

#[global] Instance copy_copies : CopyWorkflow Copy := {|
  cw_staged := copy_staged; cw_plan := copy_scoped_plan; cw_SourceNode := cy_SourceNode;
  cw_set_SourceNode := cy_set_node; cw_sync o := map cyv_Sync (cy_Volumes o); cw_set_sync := copy_set_sync |}.

#[global] Instance cluster_copy_copies : CopyWorkflow ClusterCopy := {|
  cw_staged := cluster_copy_staged; cw_plan := cluster_copy_scoped_plan; cw_SourceNode := cc_SourceNode;
  cw_set_SourceNode := cc_set_node; cw_sync o := map ccv_Sync (cc_Volumes o); cw_set_sync := cluster_copy_set_sync |}.
End instances.
