(* ===== verification/StagedLaws.v ===== *)
(** * Laws of the staging workflows

    What the theorems about the executors of copies and reservations rely on
    ([StagedLaws], [CopyLaws]), proved of the four objects: the status, the plan and the
    checkpoints are independent of each other, a recorded checkpoint reads back as it was
    recorded in both scopes, and an accepted object has one checkpoint for each planned
    volume, with the identities the executors dereference. *)

From S2P Require Import Prelude Utf8 GoErrors Lifecycle PhaseMachines KubeTypes Prog Api ResourceState Ownership PVBinding NodeSelection GoFormat Quota PVCPolicy Reserver TransferPath Reclaim MigrationObject Offline Activation MigrationStorage MigrationCleanup CopyEngine Exec CopyRunner SourceLoss Executor CleanupExecutor MigrationSync StagedObjects Staged CopyExecutor StagedInstances ObjectValidity.

(** ** The index maps *)

Section indexes.
Context {A : Type} (name : A -> string).
Implicit Types l : list A.

Lemma volumeIndexes_snoc l c : volumeIndexes name (l ++ [c]) = <[name c := length l]> (volumeIndexes name l).
Proof. unfold volumeIndexes. rewrite imap_app, foldl_app. cbn. by rewrite Nat.add_0_r. Qed.

(** An index belongs to an element of that name. *)
Lemma volumeIndexes_sound l n i : volumeIndexes name l !! n = Some i -> exists c, l !! i = Some c /\ name c = n.
Proof.
  revert i. induction l as [|d l IH] using rev_ind; intros i; [done|]. rewrite volumeIndexes_snoc.
  intros [[<- <-]|[_ Hi]]%lookup_insert_Some.
  - exists d. split; [|done]. by rewrite lookup_app_r, Nat.sub_diag by lia.
  - destruct (IH i Hi) as (c & Hc & Hn). exists c. split; [|done]. by apply lookup_app_l_Some.
Qed.

Lemma volumeIndexes_dom l : dom (volumeIndexes name l) = list_to_set (map name l).
Proof.
  induction l as [|d l IH] using rev_ind; [done|].
  rewrite volumeIndexes_snoc, dom_insert_L, IH, map_app, list_to_set_app_L. cbn. set_solver.
Qed.

Lemma volumeIndexes_is_Some l n : is_Some (volumeIndexes name l !! n) <-> n ∈ map name l.
Proof. by rewrite <- elem_of_dom, volumeIndexes_dom, elem_of_list_to_set. Qed.

Lemma volumeIndexes_lookup l i c :
  NoDup (map name l) -> l !! i = Some c -> volumeIndexes name l !! name c = Some i.
Proof.
  intros Hnd Hi. destruct (proj2 (volumeIndexes_is_Some l (name c))) as [j Hj].
  { apply list_elem_of_fmap_2. by eapply list_elem_of_lookup_2. }
  rewrite Hj. f_equal. apply volumeIndexes_sound in Hj as (d & Hd & Hn).
  eapply (NoDup_lookup (map name l)); [done| |]; rewrite list_lookup_fmap.
  - rewrite Hd. cbn. by rewrite Hn.
  - by rewrite Hi.
Qed.

(** As many indexes as elements: no two elements of the same name. *)
Lemma volumeIndexes_NoDup l : size (volumeIndexes name l) = length l -> NoDup (map name l).
Proof.
  rewrite <- size_dom, volumeIndexes_dom. clear. induction l as [|c l IH]; [constructor|]. cbn.
  assert (forall m : list string, size (list_to_set m : gset string) <= length m) as Hle.
  { induction m as [|x m IHm]; [done|]. cbn. rewrite size_union_alt, size_singleton.
    assert (size (list_to_set m ∖ {[x]} : gset string) <= size (list_to_set m : gset string)); [|lia].
    apply subseteq_size. set_solver. }
  intros Hs. destruct (decide (name c ∈ map name l)) as [Hin|Hni].
  - assert ({[name c]} ∪ list_to_set (map name l) = (list_to_set (map name l) : gset string)) as Heq.
    { apply leibniz_equiv. set_solver. }
    rewrite Heq in Hs. pose proof (Hle (map name l)). rewrite length_map in *. lia.
  - constructor; [done|]. apply IH.
    rewrite size_union, size_singleton in Hs; [lia|]. set_solver.
Qed.
End indexes.

Lemma volumeIndexes_fmap {A B} (f : A -> B) (name : B -> string) (l : list A) :
  volumeIndexes name (map f l) = volumeIndexes (fun a => name (f a)) l.
Proof.
  induction l as [|d l IH] using rev_ind; [done|].
  rewrite map_app. cbn [map]. by rewrite !volumeIndexes_snoc, IH, length_map.
Qed.

Lemma volumeIndexes_ext {A} (f g : A -> string) (l : list A) :
  (forall a, f a = g a) -> volumeIndexes f l = volumeIndexes g l.
Proof.
  intros Hfg. induction l as [|d l IH] using rev_ind; [done|]. by rewrite !volumeIndexes_snoc, IH, Hfg.
Qed.

(** Names without repetition that cover a list of the same length are that list. *)
Lemma covering_permutation (names planned : list string) :
  NoDup planned -> (forall n, n ∈ planned -> n ∈ names) -> length names = length planned -> names ≡ₚ planned.
Proof.
  intros Hnd Hsub Hlen. symmetry. apply submseteq_length_Permutation; [|lia]. by apply NoDup_submseteq.
Qed.

(** ** The laws *)

Definition bound_if_reserved (c : ReservationStatus) : Prop :=
  rs_Reserved c = true -> is_Some (rs_DestinationPVC c) /\ is_Some (rs_DestinationPV c).

(** One checkpoint for each planned volume, or none yet. *)
Definition fits (volumes : list VolumeSpec) (cs : list ReservationStatus) : Prop :=
  cs = [] \/ (map rs_SourcePVCName cs ≡ₚ map planned_name volumes /\ Forall bound_if_reserved cs).

Class StagedLaws (Obj : Type) `{SW : StagedWorkflow Obj} := {
  sl_put_name : forall o st, sw_Name (wf_put o st) = sw_Name o;
  sl_put_plan : forall o st, sw_plan (wf_put o st) = sw_plan o;
  sl_put_checkpoints : forall o st, sw_checkpoints (wf_put o st) = sw_checkpoints o;
  sl_start_status : forall o, wf_get (sw_start o) = wf_get o;
  sl_start_name : forall o, sw_Name (sw_start o) = sw_Name o;
  sl_start_plan : forall o, sw_plan (sw_start o) = sw_plan o;
  sl_start_checkpoints : forall o plan, sw_plan o = Some plan ->
    sw_checkpoints (sw_start o) =
      match sw_checkpoints o with [] => map blank_reservation (sp_Volumes plan) | cs => cs end;
  sl_start_same : forall o, sw_checkpoints o <> [] -> sw_start o = o;
  sl_record : forall o i st o', sw_record o i st = inl o' ->
    wf_get o' = wf_get o /\ sw_Name o' = sw_Name o /\ sw_plan o' = sw_plan o /\
    sw_checkpoints o' = <[i := st]> (sw_checkpoints o);
  sl_same_refl : forall o, sw_sameProgress o o = true;
  sl_same_length : forall o o', sw_sameProgress o o' = true ->
    length (sw_checkpoints o) = length (sw_checkpoints o');
  sl_valid : forall o plan, sw_validateObject o = None -> sw_plan o = Some plan ->
    NoDup (map planned_name (sp_Volumes plan)) /\ sp_Volumes plan <> [] /\ fits (sp_Volumes plan) (sw_checkpoints o)
}.

Class CopyLaws (Obj : Type) `{CW : CopyWorkflow Obj} := {
  cl_staged :: StagedLaws Obj;
  cl_plan : forall o, sw_plan o = staged_plan <$> cw_plan o;
  cl_delivered : sw_delivered (Obj := Obj) = PhaseWarmCopied;
  cl_sync_length : forall o, length (cw_sync o) = length (sw_checkpoints o);
  cl_put : forall o st, cw_plan (wf_put o st) = cw_plan o /\ cw_sync (wf_put o st) = cw_sync o /\
    cw_SourceNode (wf_put o st) = cw_SourceNode o;
  cl_start : forall o, cw_plan (sw_start o) = cw_plan o /\ cw_SourceNode (sw_start o) = cw_SourceNode o /\
    forall s, s ∈ cw_sync (sw_start o) -> s ∈ cw_sync o \/ s = blank_sync;
  cl_record : forall o i st o', sw_record o i st = inl o' ->
    cw_plan o' = cw_plan o /\ cw_sync o' = cw_sync o /\ cw_SourceNode o' = cw_SourceNode o;
  cl_set_sync : forall o i f,
    wf_get (cw_set_sync o i f) = wf_get o /\ sw_Name (cw_set_sync o i f) = sw_Name o /\
    cw_plan (cw_set_sync o i f) = cw_plan o /\ sw_checkpoints (cw_set_sync o i f) = sw_checkpoints o /\
    cw_SourceNode (cw_set_sync o i f) = cw_SourceNode o /\ cw_sync (cw_set_sync o i f) = alter f i (cw_sync o);
  cl_set_set : forall o i f g, (forall s, g (f s) = g s) ->
    cw_set_sync (cw_set_sync o i f) i g = cw_set_sync o i g;
  cl_set_node : forall o node,
    wf_get (cw_set_SourceNode o node) = wf_get o /\ sw_Name (cw_set_SourceNode o node) = sw_Name o /\
    cw_plan (cw_set_SourceNode o node) = cw_plan o /\
    sw_checkpoints (cw_set_SourceNode o node) = sw_checkpoints o /\
    cw_sync (cw_set_SourceNode o node) = cw_sync o;
  cl_valid : forall o plan, sw_validateObject o = None -> cw_plan o = Some plan ->
    (requires_reserved (workflowResumePhase (wf_get o)) = true ->
       sw_checkpoints o <> [] /\ Forall (fun c => rs_Reserved c = true) (sw_checkpoints o)) /\
    (workflowResumePhase (wf_get o) = PhaseWarmCopied -> Forall (fun s => is_Some (cps_WarmCompletedAt s)) (cw_sync o)) /\
    (forall i c s, sw_checkpoints o !! i = Some c -> cw_sync o !! i = Some s ->
       cps_Attempts s <> 0%Z \/ is_Some (cps_WarmCompletedAt s) -> rs_Reserved c = true);
  cl_destination : forall o plan v i c ref, sw_validateObject o = None -> cw_plan o = Some plan ->
    v ∈ cyp_Volumes (scp_Plan plan) -> checkpointIndexes (sw_checkpoints o) !! planned_name v = Some i ->
    sw_checkpoints o !! i = Some c -> rs_DestinationPVC c = Some ref ->
    Namespace ref = scp_DestinationNamespace plan /\ Name ref = local_Name (vs_DestinationPVC v);
  cl_transition : forall o, sw_validateTransition o PhaseWarmCopying = None ->
    requires_reserved (workflowResumePhase (wf_get o)) = true
}.

(** ** Scope of a checkpoint *)

Lemma qualified_local ref ns : Namespace ref = ns -> qualifiedResourceReference (localResourceReference ref) ns = ref.
Proof. intros <-. by destruct ref. Qed.

Lemma local_qualified ref ns : localResourceReference (qualifiedResourceReference ref ns) = ref.
Proof. by destruct ref. Qed.

(** A recorded checkpoint reads back as it was recorded. *)
Lemma checkpoint_record_read st ns local :
  localReservationCheckpoint st ns = inl local -> qualifiedReservationCheckpoint local ns = st.
Proof.
  unfold localReservationCheckpoint. destruct st as [name [pvc|] [pv|] policy reserved]; cbn;
    repeat (case_test; [done|]); bool_prop; intros [= <-]; unfold qualifiedReservationCheckpoint; cbn;
    by rewrite ?qualified_local.
Qed.

Lemma checkpoint_read_record local ns :
  localReservationCheckpoint (qualifiedReservationCheckpoint local ns) ns = inl local.
Proof.
  destruct local as [name [pvc|] [pv|] policy reserved]; unfold localReservationCheckpoint; cbn;
    rewrite ?String.eqb_refl; cbn; (by rewrite ?local_qualified).
Qed.

(** ** Validity *)

Section validity.
Context `{QT : QuantityText}.

Lemma planned_NoDup volumes sn dn out :
  validateReservationVolumes volumes sn dn = inl out ->
  NoDup (map planned_name volumes) /\ size out = length volumes /\
  (forall n v, out !! n = Some v -> n = planned_name v /\ v ∈ volumes).
Proof.
  intros Hr. unfold validateReservationVolumes in Hr. destruct (reservation_loop_inl _ _ _ _ _ _ Hr) as (_ & _ & H3 & H4).
  split_and!; [by apply reservation_loop_NoDup in Hr as [? _]|done|].
  intros n v Hv. destruct (H3 n v Hv) as [He|Hn]; [by rewrite lookup_empty in He|done].
Qed.

Lemma bound_checkpoint_of c :
  (rs_Reserved c && (missing (rs_DestinationPVC c) || missing (rs_DestinationPV c)))%bool = false -> bound_if_reserved c.
Proof. intros Hb Hr. rewrite Hr in Hb. by destruct (rs_DestinationPVC c), (rs_DestinationPV c). Qed.

(** The loop over the checkpoints of a reservation. *)
Lemma cluster_reservation_loop_None volumes dn phase seen l :
  cluster_reservation_loop volumes dn phase seen l = None ->
  NoDup (map rs_SourcePVCName l) /\ (forall n, n ∈ map rs_SourcePVCName l -> (n ∉ seen) /\ is_Some (volumes !! n)) /\
  Forall (fun c => bound_if_reserved c /\ (phase = PhaseReserved -> rs_Reserved c = true)) l.
Proof.
  revert seen. induction l as [|c l IH]; intros seen; cbn [cluster_reservation_loop map].
  { intros _. split_and!; [constructor|set_solver|constructor]. }
  destruct (volumes !! rs_SourcePVCName c) as [v|] eqn:Hv; [|done]. case_test; [done|].
  do 3 (case_test; [done|]). case_test; [done|]. intros Hl. destruct (IH _ Hl) as (Hnd & Hin & Hf).
  apply contains_false in Heqb. split_and!.
  - constructor; [|done]. intros Hc. destruct (Hin _ Hc) as [Hs _]. apply Hs. left.
  - intros n [->|Hn]%elem_of_cons; [by rewrite Hv|]. destruct (Hin n Hn) as [Hs Hk]. split; [|done]. set_solver.
  - constructor; [|done]. split; [by apply bound_checkpoint_of|]. intros ->. cbn in Heqb3. by destruct (rs_Reserved c).
Qed.

Lemma reservation_checkpoint_loop_None volumes ns phase seen l :
  reservation_checkpoint_loop volumes phase seen l = None ->
  cluster_reservation_loop volumes ns phase seen (map (fun v => qualifiedReservationCheckpoint v ns) l) = None.
Proof.
  revert seen. induction l as [|c l IH]; intros seen; cbn [reservation_checkpoint_loop cluster_reservation_loop map]; [done|].
  cbn [qualifiedReservationCheckpoint rs_SourcePVCName rs_DestinationPVC rs_DestinationPV rs_Reserved].
  destruct (volumes !! lr_SourcePVCName c) as [v|]; [|done]. destruct (contains seen _); [done|].
  unfold wrong_local_pvc, wrong_local_pv, wrong_pvc, wrong_pv.
  destruct (lr_DestinationPVC c) as [pvc|], (lr_DestinationPV c) as [pv|]; cbn;
    rewrite ?String.eqb_refl; cbn; rewrite ?orb_false_r; repeat (case_test; [done|]); try done; apply IH.
Qed.

Lemma fits_reservation volumes out sn dn l phase ns :
  validateReservationVolumes volumes sn dn = inl out -> validateClusterReservationCheckpoints out l ns phase = None ->
  fits volumes l /\ (phase = PhaseReserved -> l <> [] \/ volumes = []) /\
  (phase = PhaseReserved -> Forall (fun c => rs_Reserved c = true) l).
Proof.
  intros Hr Hc. destruct (planned_NoDup _ _ _ _ Hr) as (Hnd & Hsize & Hout).
  unfold validateClusterReservationCheckpoints in Hc. case_test.
  { apply andb_true_iff in Heqb as [Hl Hp]. apply Nat.eqb_eq, length_zero_iff_nil in Hl as ->.
    split; [by left|]. split; intros ->; done. }
  case_test; [done|]. rewrite negb_false_iff, Nat.eqb_eq, Hsize in Heqb0.
  apply cluster_reservation_loop_None in Hc as (Hnames & Hin & Hf). split_and!.
  - right. split.
    + symmetry. apply covering_permutation; [done| |by rewrite !length_map].
      intros n Hn. destruct (Hin n Hn) as [_ [v Hv]]. destruct (Hout n v Hv) as [-> Hpv]. by apply list_elem_of_fmap_2.
    + eapply Forall_impl; [exact Hf|]. by intros c [? _].
  - intros _. destruct l; [right|by left]. by apply length_zero_iff_nil.
  - intros Hph. eapply Forall_impl; [exact Hf|]. intros c [_ Hc]. by apply Hc.
Qed.
(** The loop over the planned volumes of a copy. *)
Lemma copy_checkpoint_loop_None {A} indexes (cs : list A) check volumes :
  copy_checkpoint_loop indexes cs check volumes = None ->
  forall v, v ∈ volumes -> exists i c, indexes !! planned_name v = Some i /\ cs !! i = Some c /\ check v c = None.
Proof.
  induction volumes as [|u volumes IH]; cbn [copy_checkpoint_loop]; [intros _ v Hv; by apply not_elem_of_nil in Hv|].
  destruct (indexes !! planned_name u) as [i|] eqn:Hi; [|done]. cbn. destruct (cs !! i) as [c|] eqn:Hc; [|done].
  destruct (check u c) eqn:Hk; [done|]. intros Hl v [->|Hv]%elem_of_cons; [by exists i, c|by apply IH].
Qed.

(** What the checks say of one volume. *)
Definition copy_facts (phase : Phase) (c : ReservationStatus) (s : CopySyncStatus) : Prop :=
  bound_if_reserved c /\ (requires_reserved phase = true -> rs_Reserved c = true) /\
  (phase = PhaseWarmCopied -> is_Some (cps_WarmCompletedAt s)) /\
  (cps_Attempts s <> 0%Z \/ is_Some (cps_WarmCompletedAt s) -> rs_Reserved c = true).

Lemma cluster_copy_facts phase dn v c :
  validate_cluster_copy_checkpoint phase dn v c = None -> copy_facts phase (ccv_Reservation c) (ccv_Sync c).
Proof.
  unfold validate_cluster_copy_checkpoint. cbv zeta. do 5 (case_test; [done|]). intros _. split_and!.
  - by apply bound_checkpoint_of.
  - intros Hr. rewrite Hr in Heqb1. by destruct (rs_Reserved _).
  - intros ->. unfold wrong_sync in Heqb3. destruct (cps_WarmCompletedAt _); [done|]. by rewrite !orb_true_r in Heqb3.
  - unfold wrong_sync in Heqb3. destruct (rs_Reserved _); [done|].
    destruct (Z.ltb_spec (cps_Attempts (ccv_Sync c)) 0), (Z.ltb_spec 0 (cps_Attempts (ccv_Sync c))); try done.
    intros [Ha|[t Ht]]; [lia|]. by rewrite Ht in Heqb3.
Qed.

Definition qualified_copy (ns : string) (c : CopyVolumeStatus) : ClusterCopyVolumeStatus :=
  {| ccv_Reservation := qualifiedReservationCheckpoint (cyv_Reservation c) ns; ccv_Sync := cyv_Sync c |}.

Lemma validate_local_copy phase ns v c :
  validate_copy_checkpoint phase v c = None -> validate_cluster_copy_checkpoint phase ns v (qualified_copy ns c) = None.
Proof.
  unfold validate_copy_checkpoint, validate_cluster_copy_checkpoint, wrong_local_pvc, wrong_local_pv, wrong_pvc, wrong_pv.
  cbn. destruct (lr_DestinationPVC _) as [pvc|], (lr_DestinationPV _) as [pv|]; cbn;
    rewrite ?String.eqb_refl; cbn; rewrite ?orb_false_r; by repeat case_test.
Qed.

Lemma validate_copy_checkpoints_None {A} (res : A -> ReservationStatus) (sync : A -> CopySyncStatus)
    (name : A -> string) check volumes (cs : list A) phase :
  (forall a, name a = rs_SourcePVCName (res a)) ->
  (forall v a, check v a = None -> copy_facts phase (res a) (sync a)) ->
  NoDup (map planned_name volumes) -> volumes <> [] ->
  validate_copy_checkpoints (volumeIndexes name cs) cs check volumes phase = None ->
  fits volumes (map res cs) /\ (requires_reserved phase = true -> cs <> []) /\
  Forall (fun a => copy_facts phase (res a) (sync a)) cs.
Proof.
  intros Hname Hcheck Hnd Hne. unfold validate_copy_checkpoints. case_test.
  { apply andb_true_iff in Heqb as [Hl Hp]. apply Nat.eqb_eq, length_zero_iff_nil in Hl as ->. intros _.
    split_and!; [by left| |constructor]. intros Hr. by rewrite Hr in Hp. }
  case_test; [done|]. case_test; [done|]. rewrite negb_false_iff, Nat.eqb_eq in Heqb0, Heqb1.
  intros Hl. pose proof (copy_checkpoint_loop_None _ _ _ _ Hl) as Hall.
  pose proof (volumeIndexes_NoDup name cs Heqb1) as Hcs.
  assert (map name cs ≡ₚ map planned_name volumes) as Hperm.
  { apply covering_permutation; [done| |by rewrite !length_map].
    intros n (v & -> & Hv)%list_elem_of_fmap. apply volumeIndexes_is_Some. destruct (Hall v Hv) as (i & _ & -> & _). done. }
  assert (Forall (fun a => copy_facts phase (res a) (sync a)) cs) as Hf.
  { apply Forall_forall. intros c Hc. assert (name c ∈ map planned_name volumes) as (v & Hn & Hv)%list_elem_of_fmap
      by (rewrite <- Hperm; by apply list_elem_of_fmap_2).
    destruct (Hall v Hv) as (i & d & Hi & Hd & Hk). apply list_elem_of_lookup in Hc as [j Hj].
    rewrite <- Hn, (volumeIndexes_lookup name cs j c Hcs Hj) in Hi. injection Hi as <-.
    rewrite Hj in Hd. injection Hd as <-. by eapply Hcheck. }
  split_and!; [right|intros _ ->|done].
  - split.
    + rewrite map_map, <- Hperm. erewrite map_ext; [done|]. intros a. by rewrite Hname.
    + apply Forall_map. eapply Forall_impl; [exact Hf|]. by intros a [? _].
  - by destruct volumes.
Qed.

(** The recorded destination of a planned volume is the planned one. *)
Lemma validate_copy_destination {A} (res : A -> ReservationStatus) (name : A -> string) check volumes (cs : list A) phase ns :
  (forall a, name a = rs_SourcePVCName (res a)) ->
  (forall v a, check v a = None -> wrong_pvc v ns (rs_DestinationPVC (res a)) = false) ->
  validate_copy_checkpoints (volumeIndexes name cs) cs check volumes phase = None ->
  forall v i c ref, v ∈ volumes -> checkpointIndexes (map res cs) !! planned_name v = Some i ->
    map res cs !! i = Some c -> rs_DestinationPVC c = Some ref ->
    Namespace ref = ns /\ Name ref = local_Name (vs_DestinationPVC v).
Proof.
  intros Hname Hcheck Hv v i c ref Hin Hi Hc Href. unfold validate_copy_checkpoints in Hv. case_test.
  { apply andb_true_iff in Heqb as [Hl _]. apply Nat.eqb_eq, length_zero_iff_nil in Hl as ->. done. }
  case_test; [done|]. case_test; [done|]. destruct (copy_checkpoint_loop_None _ _ _ _ Hv v Hin) as (j & a & Hj & Ha & Hk).
  assert (checkpointIndexes (map res cs) = volumeIndexes name cs) as Hidx.
  { unfold checkpointIndexes. rewrite volumeIndexes_fmap. by apply volumeIndexes_ext. }
  rewrite Hidx, Hj in Hi. injection Hi as ->. change (map res cs) with (res <$> cs) in Hc.
  rewrite list_lookup_fmap, Ha in Hc. injection Hc as <-. apply Hcheck in Hk. unfold wrong_pvc in Hk. rewrite Href in Hk.
  apply orb_false_iff in Hk as [Hk _]. apply orb_false_iff in Hk as [H1 H2].
  apply negb_false_iff, String.eqb_eq in H1, H2. done.
Qed.

Lemma warm_copying_reserved current planned :
  validateCopyTransition current PhaseWarmCopying planned = None -> requires_reserved current = true.
Proof. unfold validateCopyTransition. by destruct current, planned. Qed.
End validity.

(** ** Updates seen through a projection *)

Section projections.
Context {A B : Type} (p : A -> B).

Lemma map_changed (g : A -> A) (h : B -> B) (l : list A) i :
  (forall a, p (g a) = h (p a)) -> map p (alter g i l) = alter h i (map p l).
Proof. intros Hg. change (map ?f ?l) with (f <$> l). apply list_fmap_alter. by apply Forall_forall. Qed.

Lemma map_kept (g : A -> A) (l : list A) i : (forall a, p (g a) = p a) -> map p (alter g i l) = map p l.
Proof. intros Hg. rewrite (map_changed g id) by done. by apply list_alter_id. Qed.

Lemma map_record (g : A -> A) (l : list A) i b : (forall a, p (g a) = b) -> map p (alter g i l) = <[i := b]> (map p l).
Proof. intros Hg. rewrite (map_changed g (fun _ => b)) by done. by rewrite list_insert_alter. Qed.
End projections.

(** ** The instances *)

Section laws.
Context `{QT : QuantityText}.

Lemma length_nonzero {A} (l : list A) : Nat.eqb (length l) 0 = false -> l <> [].
Proof. by intros Hl ->. Qed.

Lemma valid_cluster_reservation o plan :
  validateClusterReservationObject o = None -> crv_Plan o = Some plan ->
  rvp_Volumes (crp_Plan plan) <> [] /\
  exists out, validateReservationVolumes (rvp_Volumes (crp_Plan plan)) (crp_SourceNamespace plan)
                (crp_DestinationNamespace plan) = inl out /\
    validateClusterReservationCheckpoints out (crv_Volumes o) (crp_DestinationNamespace plan)
      (workflowResumePhase (crv_Status o)) = None.
Proof.
  unfold validateClusterReservationObject. case_test; [done|]. intros [_ Hv]%first_err_None Hp. cbv zeta in Hv.
  rewrite Hp in Hv. do 3 (case_test; [done|]). apply first_err_None in Hv as [_ [_ Hv]%first_err_None].
  split; [by apply length_nonzero|]. destruct (validateReservationVolumes _ _ _) as [out|] eqn:Hr; [|done].
  apply first_err_None in Hv as [_ Hv]. by exists out.
Qed.

Lemma valid_reservation o plan :
  validateReservationObject o = None -> rsv_Plan o = Some plan ->
  rvp_Volumes plan <> [] /\
  exists out, validateReservationVolumes (rvp_Volumes plan) (rsv_Namespace o) (rsv_Namespace o) = inl out /\
    validateReservationCheckpoints out (rsv_Volumes o) (workflowResumePhase (rsv_Status o)) = None.
Proof.
  unfold validateReservationObject. case_test; [done|]. intros [_ Hv]%first_err_None Hp. cbv zeta in Hv.
  rewrite Hp in Hv. case_test; [done|]. apply first_err_None in Hv as [_ [_ Hv]%first_err_None].
  apply orb_false_iff in Heqb0 as [_ Hne]. split; [by apply length_nonzero|].
  destruct (validateReservationVolumes _ _ _) as [out|] eqn:Hr; [|done].
  apply first_err_None in Hv as [_ Hv]. by exists out.
Qed.

Lemma local_reservation_checkpoints out l phase ns :
  validateReservationCheckpoints out l phase = None ->
  validateClusterReservationCheckpoints out (map (fun v => qualifiedReservationCheckpoint v ns) l) ns phase = None.
Proof.
  unfold validateReservationCheckpoints, validateClusterReservationCheckpoints. rewrite length_map.
  case_test; [done|]. case_test; [done|]. apply reservation_checkpoint_loop_None.
Qed.

Lemma valid_cluster_copy o plan :
  validateClusterCopyObject o = None -> cc_Plan o = Some plan ->
  let volumes := cyp_Volumes (ccp_Plan plan) in
  volumes <> [] /\ NoDup (map planned_name volumes) /\
  validateClusterCopyCheckpoints volumes (ccp_DestinationNamespace plan) (cc_Volumes o)
    (workflowResumePhase (cc_Status o)) = None.
Proof.
  cbv zeta. unfold validateClusterCopyObject. case_test; [done|]. intros [_ Hv]%first_err_None Hp. cbv zeta in Hv.
  rewrite Hp in Hv. case_test; [done|]. apply first_err_None in Hv as [_ [_ Hv]%first_err_None].
  destruct (Nat.eqb (length (cyp_Volumes (ccp_Plan plan))) 0) eqn:Hne; [by rewrite orb_true_r in Heqb0|].
  split; [by apply length_nonzero|]. destruct (validateReservationVolumes _ _ _) as [out|] eqn:Hr; [|done].
  apply first_err_None in Hv as [_ Hv]. case_test; [done|]. by apply planned_NoDup in Hr as [? _].
Qed.

Lemma valid_copy o plan :
  validateCopyObject o = None -> cy_Plan o = Some plan ->
  let volumes := cyp_Volumes plan in
  volumes <> [] /\ NoDup (map planned_name volumes) /\
  validateCopyCheckpoints volumes (cy_Volumes o) (workflowResumePhase (cy_Status o)) = None.
Proof.
  cbv zeta. unfold validateCopyObject. case_test; [done|]. intros [_ Hv]%first_err_None Hp. cbv zeta in Hv.
  rewrite Hp in Hv. case_test; [done|]. apply first_err_None in Hv as [_ [_ Hv]%first_err_None].
  apply orb_false_iff in Heqb0 as [_ Hne]. split; [by apply length_nonzero|].
  destruct (validateReservationVolumes _ _ _) as [out|] eqn:Hr; [|done].
  apply first_err_None in Hv as [_ Hv]. case_test; [done|]. by apply planned_NoDup in Hr as [? _].
Qed.

(** The facts of the two copies, for every checkpoint. *)
Lemma cluster_copy_valid o plan :
  validateClusterCopyObject o = None -> cc_Plan o = Some plan ->
  let volumes := cyp_Volumes (ccp_Plan plan) in let phase := workflowResumePhase (cc_Status o) in
  fits volumes (map ccv_Reservation (cc_Volumes o)) /\ (requires_reserved phase = true -> cc_Volumes o <> []) /\
  Forall (fun c => copy_facts phase (ccv_Reservation c) (ccv_Sync c)) (cc_Volumes o).
Proof.
  cbv zeta. intros Hv Hp. destruct (valid_cluster_copy o plan Hv Hp) as (Hne & Hnd & Hc).
  eapply validate_copy_checkpoints_None; [done| |done|done|exact Hc]. intros v a. apply cluster_copy_facts.
Qed.

Lemma copy_valid o plan :
  validateCopyObject o = None -> cy_Plan o = Some plan ->
  let phase := workflowResumePhase (cy_Status o) in
  let qualified c := qualifiedReservationCheckpoint (cyv_Reservation c) (cy_Namespace o) in
  fits (cyp_Volumes plan) (map qualified (cy_Volumes o)) /\ (requires_reserved phase = true -> cy_Volumes o <> []) /\
  Forall (fun c => copy_facts phase (qualified c) (cyv_Sync c)) (cy_Volumes o).
Proof.
  cbv zeta. intros Hv Hp. destruct (valid_copy o plan Hv Hp) as (Hne & Hnd & Hc).
  eapply validate_copy_checkpoints_None; [done| |done|done|exact Hc].
  intros v a Ha. apply (validate_local_copy _ (cy_Namespace o)) in Ha. by apply cluster_copy_facts in Ha.
Qed.

#[global] Instance cluster_reservation_laws : StagedLaws ClusterReservation.
Proof.
  split; try done.
  - intros o. cbn. unfold cluster_reservation_start. by destruct (crv_Volumes o), (crv_Plan o).
  - intros o. cbn. unfold cluster_reservation_start. by destruct (crv_Volumes o), (crv_Plan o).
  - intros o. cbn. unfold cluster_reservation_start, cluster_reservation_plan. destruct (crv_Volumes o), (crv_Plan o) eqn:Hp; cbn; by rewrite ?Hp.
  - intros o plan. cbn. unfold cluster_reservation_start, cluster_reservation_plan. destruct (crv_Plan o); [|done].
    intros [= <-]. by destruct (crv_Volumes o) eqn:Hv.
  - intros o. cbn. unfold cluster_reservation_start. by destruct (crv_Volumes o).
  - by intros o i st o' [= <-].
  - intros o. by apply bool_decide_eq_true_2.
  - cbn. intros o o' Hs%bool_decide_eq_true. by rewrite Hs.
  - intros o plan Hv Hp. cbn in Hv, Hp. unfold cluster_reservation_plan in Hp. destruct (crv_Plan o) as [p|] eqn:Hpl; [|done].
    injection Hp as <-. destruct (valid_cluster_reservation o p Hv Hpl) as (Hne & out & Hr & Hc).
    destruct (planned_NoDup _ _ _ _ Hr) as (Hnd & _). split_and!; [done|done|]. by eapply fits_reservation.
Qed.

#[global] Instance reservation_laws : StagedLaws Reservation.
Proof.
  split; try done.
  - intros o. cbn. unfold reservation_start. by destruct (rsv_Volumes o), (rsv_Plan o).
  - intros o. cbn. unfold reservation_start. by destruct (rsv_Volumes o), (rsv_Plan o).
  - intros o. cbn. unfold reservation_start, reservation_plan. destruct (rsv_Volumes o), (rsv_Plan o) eqn:Hp; cbn; by rewrite ?Hp.
  - intros o plan. cbn. unfold reservation_start, reservation_plan. destruct (rsv_Plan o); [|done].
    intros [= <-]. destruct (rsv_Volumes o) eqn:Hv; cbn; [|by rewrite Hv]. rewrite map_map. by apply map_ext.
  - intros o. cbn. unfold reservation_start. by destruct (rsv_Volumes o).
  - intros o i st o'. cbn. unfold reservation_record. destruct (localReservationCheckpoint _ _) as [local|] eqn:Hl; [|done].
    intros [= <-]. split_and!; try done. cbn. change (map ?f ?l) with (f <$> l). rewrite list_fmap_insert.
    by rewrite (checkpoint_record_read _ _ _ Hl).
  - intros o. by apply bool_decide_eq_true_2.
  - cbn. intros o o' Hs%bool_decide_eq_true. by rewrite Hs, !length_map.
  - intros o plan Hv Hp. cbn in Hv, Hp. unfold reservation_plan in Hp. destruct (rsv_Plan o) as [p|] eqn:Hpl; [|done].
    injection Hp as <-. destruct (valid_reservation o p Hv Hpl) as (Hne & out & Hr & Hc).
    destruct (planned_NoDup _ _ _ _ Hr) as (Hnd & _). split_and!; [done|done|].
    apply (local_reservation_checkpoints _ _ _ (rsv_Namespace o)) in Hc. by eapply fits_reservation.
Qed.

#[global] Instance cluster_copy_staged_laws : StagedLaws ClusterCopy.
Proof.
  split; try done.
  - intros o. cbn. unfold cluster_copy_start. by destruct (cc_Volumes o), (cc_Plan o).
  - intros o. cbn. unfold cluster_copy_start. by destruct (cc_Volumes o), (cc_Plan o).
  - intros o. cbn. unfold cluster_copy_start, cluster_copy_scoped_plan. destruct (cc_Volumes o), (cc_Plan o) eqn:Hp; cbn; by rewrite ?Hp.
  - intros o plan. cbn. unfold cluster_copy_start, cluster_copy_scoped_plan. destruct (cc_Plan o); [|done].
    intros [= <-]. destruct (cc_Volumes o) eqn:Hv; cbn; [|by rewrite Hv]. by rewrite map_map.
  - intros o. cbn. unfold cluster_copy_start. by destruct (cc_Volumes o).
  - intros o i st o' [= <-]. split_and!; try done. by apply map_record.
  - intros o. by apply bool_decide_eq_true_2.
  - cbn. intros o o' Hs%bool_decide_eq_true. by rewrite Hs.
  - intros o plan Hv Hp. cbn in Hv, Hp. unfold cluster_copy_scoped_plan in Hp. destruct (cc_Plan o) as [p|] eqn:Hpl; [|done].
    injection Hp as <-. destruct (valid_cluster_copy o p Hv Hpl) as (Hne & Hnd & _). split_and!; [done|done|].
    by apply cluster_copy_valid.
Qed.

#[global] Instance copy_staged_laws : StagedLaws Copy.
Proof.
  split; try done.
  - intros o. cbn. unfold copy_start. by destruct (cy_Volumes o), (cy_Plan o).
  - intros o. cbn. unfold copy_start. by destruct (cy_Volumes o), (cy_Plan o).
  - intros o. cbn. unfold copy_start, copy_scoped_plan. destruct (cy_Volumes o), (cy_Plan o) eqn:Hp; cbn; by rewrite ?Hp.
  - intros o plan. cbn. unfold copy_start, copy_scoped_plan. destruct (cy_Plan o); [|done].
    intros [= <-]. destruct (cy_Volumes o) eqn:Hv; cbn; [|by rewrite Hv]. by rewrite map_map.
  - intros o. cbn. unfold copy_start. by destruct (cy_Volumes o).
  - intros o i st o'. cbn. unfold copy_record. destruct (localReservationCheckpoint _ _) as [local|] eqn:Hl; [|done].
    intros [= <-]. split_and!; try done. cbn.
    rewrite (map_record _ _ _ _ (qualifiedReservationCheckpoint local (cy_Namespace o))) by done.
    by rewrite (checkpoint_record_read _ _ _ Hl).
  - intros o. by apply bool_decide_eq_true_2.
  - cbn. intros o o' Hs%bool_decide_eq_true. by rewrite Hs, !length_map.
  - intros o plan Hv Hp. cbn in Hv, Hp. unfold copy_scoped_plan in Hp. destruct (cy_Plan o) as [p|] eqn:Hpl; [|done].
    injection Hp as <-. destruct (valid_copy o p Hv Hpl) as (Hne & Hnd & _). split_and!; [done|done|].
    by apply copy_valid.
Qed.

(** What the checks say of one volume, as the law of copies states it. *)
Lemma copy_facts_law {A} (res : A -> ReservationStatus) (sync : A -> CopySyncStatus) phase (l : list A) :
  (requires_reserved phase = true -> l <> []) -> Forall (fun a => copy_facts phase (res a) (sync a)) l ->
  (requires_reserved phase = true -> map res l <> [] /\ Forall (fun c => rs_Reserved c = true) (map res l)) /\
  (phase = PhaseWarmCopied -> Forall (fun s => is_Some (cps_WarmCompletedAt s)) (map sync l)) /\
  (forall i c s, map res l !! i = Some c -> map sync l !! i = Some s ->
     cps_Attempts s <> 0%Z \/ is_Some (cps_WarmCompletedAt s) -> rs_Reserved c = true).
Proof.
  intros Hne Hf. rewrite !Forall_map. split_and!.
  - intros Hr. split; [by destruct l; [by apply Hne in Hr|]|]. eapply Forall_impl; [exact Hf|]. intros a (_ & Ha & _). by apply Ha.
  - intros Hp. eapply Forall_impl; [exact Hf|]. intros a (_ & _ & Ha & _). by apply Ha.
  - intros i c s. change (map ?f ?m) with (f <$> m). rewrite !list_lookup_fmap. destruct (l !! i) as [a|] eqn:Ha; [|done]. cbn.
    intros [= <-] [= <-]. pose proof (Forall_lookup_1 _ _ _ _ Hf Ha) as (_ & _ & _ & H). exact H.
Qed.

#[global] Instance cluster_copy_laws : CopyLaws ClusterCopy.
Proof.
  split; try done.
  - apply _.
  - intros o. cbn. by rewrite !length_map.
  - intros o. cbn. unfold cluster_copy_start, cluster_copy_scoped_plan. destruct (cc_Volumes o) eqn:Hv, (cc_Plan o) eqn:Hp;
      cbn; rewrite ?Hp, ?Hv; split_and!; try done; try (by left); try (intros s Hs; by left).
    intros s. rewrite map_map. intros (v & <- & _)%list_elem_of_In%in_map_iff. by right.
  - intros o i st o' [= <-]. split_and!; try done. by apply map_kept.
  - intros o i f. split_and!; try done; cbn; [by apply map_kept|by apply map_changed].
  - intros o i f g Hfg. cbn. unfold cluster_copy_set_sync, cc_set_volumes. cbn. f_equal.
    rewrite list_alter_alter_eq. apply list_alter_ext; [|done]. intros x _. cbn. by rewrite Hfg.
  - intros o plan Hv Hp. cbn in Hp. unfold cluster_copy_scoped_plan in Hp. destruct (cc_Plan o) as [p|] eqn:Hpl; [|done].
    destruct (cluster_copy_valid o p Hv Hpl) as (_ & Hne & Hf). by apply copy_facts_law.
  - intros o plan v i c ref Hv Hp. cbn in Hp. unfold cluster_copy_scoped_plan in Hp. destruct (cc_Plan o) as [p|] eqn:Hpl; [|done].
    injection Hp as <-. destruct (valid_cluster_copy o p Hv Hpl) as (_ & _ & Hc).
    eapply (validate_copy_destination ccv_Reservation); [done| |exact Hc]. intros u a. unfold validate_cluster_copy_checkpoint.
    cbv zeta. by case_test.
  - intros o. apply warm_copying_reserved.
Qed.

#[global] Instance copy_laws : CopyLaws Copy.
Proof.
  split; try done.
  - apply _.
  - intros o. cbn. by rewrite !length_map.
  - intros o. cbn. unfold copy_start, copy_scoped_plan. destruct (cy_Volumes o) eqn:Hv, (cy_Plan o) eqn:Hp;
      cbn; rewrite ?Hp, ?Hv; split_and!; try done; try (by left); try (intros s Hs; by left).
    intros s. rewrite map_map. intros (v & <- & _)%list_elem_of_In%in_map_iff. by right.
  - intros o i st o'. cbn. unfold copy_record. destruct (localReservationCheckpoint _ _); [|done].
    intros [= <-]. split_and!; try done. by apply map_kept.
  - intros o i f. split_and!; try done; cbn; [by apply map_kept|by apply map_changed].
  - intros o i f g Hfg. cbn. unfold copy_set_sync, cy_set_volumes. cbn. f_equal.
    rewrite list_alter_alter_eq. apply list_alter_ext; [|done]. intros x _. cbn. by rewrite Hfg.
  - intros o plan Hv Hp. cbn in Hp. unfold copy_scoped_plan in Hp. destruct (cy_Plan o) as [p|] eqn:Hpl; [|done].
    destruct (copy_valid o p Hv Hpl) as (_ & Hne & Hf). by apply (copy_facts_law (fun c => qualifiedReservationCheckpoint (cyv_Reservation c) (cy_Namespace o))).
  - intros o plan v i c ref Hv Hp. cbn in Hp. unfold copy_scoped_plan in Hp. destruct (cy_Plan o) as [p|] eqn:Hpl; [|done].
    injection Hp as <-. destruct (valid_copy o p Hv Hpl) as (_ & _ & Hc).
    eapply (validate_copy_destination (fun c => qualifiedReservationCheckpoint (cyv_Reservation c) (cy_Namespace o)));
      [done| |exact Hc]. intros u a Ha. apply (validate_local_copy _ (cy_Namespace o)) in Ha.
    unfold validate_cluster_copy_checkpoint in Ha. cbv zeta in Ha. by case_test.
  - intros o. apply warm_copying_reserved.
Qed.
End laws.
