(* ===== verification/ReservedCopy.v ===== *)
(** * A copy that takes over a reservation

    internal/app/reservation_copy.go and namespaced_reservation_copy.go: the copy that is
    made of a completed reservation, which inputs may differ from the reservation's, and
    that the object it makes is always acceptable to the copy executor.  The handoff
    itself, under the lock of the reservation, is in WorkflowLock. *)

From S2P Require Import Prelude Utf8 GoErrors Lifecycle PhaseMachines KubeTypes Prog Api ResourceState Ownership PVBinding NodeSelection GoFormat Quota PVCPolicy Reserver TransferPath Reclaim MigrationObject Offline Activation MigrationStorage MigrationCleanup CopyEngine Exec CopyRunner SourceLoss Executor CleanupExecutor MigrationSync StagedObjects Staged CopyExecutor StagedInstances ObjectValidity StagedLaws.

(** ** The input *)

Definition NamespacedCopySpecFromReservation (spec : ReservationSpec) : CopySpec :=
  {| cys_Options := rvs_Options spec; cys_Volumes := rvs_Volumes spec; cys_Pod := rvs_Pod spec; cys_Online := false |}.

Definition CopySpecFromReservation (spec : ClusterReservationSpec) : ClusterCopySpec :=
  {| ccs_Spec := NamespacedCopySpecFromReservation (crs_Spec spec); ccs_SourceNamespace := crs_SourceNamespace spec;
     ccs_DestinationNamespace := crs_DestinationNamespace spec; ccs_SessionNamespace := crs_SessionNamespace spec |}.

(** What a copy may choose for itself, taken back to the expected values. *)
Definition storage_options (options expected : TransferOptions) : TransferOptions :=
  {| to_UnusedStoragePolicy := to_UnusedStoragePolicy expected; to_DestinationCapacity := to_DestinationCapacity options;
     to_SourcePath := to_SourcePath options; to_DestinationPath := to_DestinationPath options;
     to_DestinationStorageClass := to_DestinationStorageClass options; to_SourceNode := to_SourceNode expected;
     to_TargetNode := to_TargetNode options; to_CapacityAwareness := to_CapacityAwareness options;
     to_ToolNetworkPolicy := to_ToolNetworkPolicy options; to_Strategies := to_Strategies expected;
     to_VerifyChecksum := to_VerifyChecksum expected; to_DeleteExtraneous := to_DeleteExtraneous expected;
     to_AllowVolumeShrink := to_AllowVolumeShrink options; to_SkipSourceUsageCheck := to_SkipSourceUsageCheck options;
     to_CopyTimeout := to_CopyTimeout options |}.

Definition storage_spec (spec expected : CopySpec) : CopySpec :=
  {| cys_Options := storage_options (cys_Options spec) (cys_Options expected); cys_Volumes := cys_Volumes spec;
     cys_Pod := cys_Pod spec; cys_Online := false |}.

Definition reserved_input_differs : option err :=
  Some (NewError ErrorPrecondition "copy reservation"
    "copy must preserve reserved volume selection, storage placement, capacity and paths").

Definition validateNamespacedReservedCopyInput (source : ReservationSpec) (destination : CopySpec) : option err :=
  first_err (ValidateUnusedStoragePolicy (to_UnusedStoragePolicy (cys_Options destination))) (
  let expected := NamespacedCopySpecFromReservation source in
  if bool_decide (storage_spec destination expected = expected) then None else reserved_input_differs).

Definition validateReservedCopyInput (source : ClusterReservationSpec) (destination : ClusterCopySpec) : option err :=
  first_err (ValidateUnusedStoragePolicy (to_UnusedStoragePolicy (cys_Options (ccs_Spec destination)))) (
  let expected := CopySpecFromReservation source in
  let storage := {| ccs_Spec := storage_spec (ccs_Spec destination) (ccs_Spec expected);
                    ccs_SourceNamespace := ccs_SourceNamespace destination;
                    ccs_DestinationNamespace := ccs_DestinationNamespace destination;
                    ccs_SessionNamespace := ccs_SessionNamespace destination |} in
  if bool_decide (storage = expected) then None else reserved_input_differs).

(** ** The copy *)

Definition reserved_required : err :=
  NewError ErrorPrecondition "copy reservation" "a completed, non-deleting reservation is required".

Definition reserved_status (s : WorkflowStatus) : WorkflowStatus :=
  {| ws_ExecutionIntentHash := ""; ws_ErrorCategory := ws_ErrorCategory s; ws_Phase := ws_Phase s;
     ws_ResumeFrom := ws_ResumeFrom s; ws_FailureReason := ws_FailureReason s; ws_ObservedGeneration := 0;
     ws_StartedAt := ws_StartedAt s; ws_UpdatedAt := ws_UpdatedAt s; ws_CompletedAt := ws_CompletedAt s;
     ws_Message := "Reserved storage is ready for copy"; ws_Conditions := ws_Conditions s; ws_History := ws_History s |}.

Section copies.
Context `{QT : QuantityText} `{PVMigrateLibrary}.

Definition reserved_strategies (sourceNamespace destinationNamespace : string) (plan : ReservationPlan)
    (requested reserved : list string) : list string :=
  if (Nat.eqb (length (rvp_Strategies plan)) 0 || negb (bool_decide (requested = reserved)))%bool
  then ResolveStrategies sourceNamespace destinationNamespace requested else rvp_Strategies plan.

Definition reserved_plan (plan : ReservationPlan) (strategies : list string) (reserved : TransferOptions) (spec : CopySpec)
    : CopyPlan :=
  let options := cys_Options spec in
  {| cyp_Volumes := rvp_Volumes plan;
     cyp_SourceNode := if to_SourceNode options <>s to_SourceNode reserved then to_SourceNode options else rvp_SourceNode plan;
     cyp_TargetNode := rvp_TargetNode plan; cyp_ToolImage := rvp_ToolImage plan; cyp_Strategies := strategies;
     cyp_VerifyChecksum := to_VerifyChecksum options; cyp_DeleteExtraneous := DeleteExtraneousValue options;
     cyp_UnusedStoragePolicy := to_UnusedStoragePolicy options; cyp_SkipSourceUsageCheck := rvp_SkipSourceUsageCheck plan;
     cyp_Online := cys_Online spec |}.

(** The objects. *)
Definition reserved_cluster_copy (reservation : ClusterReservation) (plan : ClusterReservationPlan) (strategies : list string)
    (spec : ClusterCopySpec) : ClusterCopy :=
  {| cc_Name := crv_Name reservation; cc_Namespace := ""; cc_DeletionTimestamp := None; cc_Spec := spec; cc_SourceNode := "";
     cc_Plan := Some {| ccp_Plan := reserved_plan (crp_Plan plan) strategies (rvs_Options (crs_Spec (crv_Spec reservation)))
                                      (ccs_Spec spec);
                        ccp_SourceNamespace := crp_SourceNamespace plan;
                        ccp_DestinationNamespace := crp_DestinationNamespace plan;
                        ccp_SessionNamespace := crp_SessionNamespace plan |};
     cc_Status := reserved_status (crv_Status reservation);
     cc_Volumes := map (fun c => {| ccv_Reservation := c; ccv_Sync := blank_sync |}) (crv_Volumes reservation) |}.

Definition reserved_copy (reservation : Reservation) (plan : ReservationPlan) (strategies : list string) (spec : CopySpec)
    : Copy :=
  {| cy_Name := rsv_Name reservation; cy_Namespace := rsv_Namespace reservation; cy_DeletionTimestamp := None;
     cy_Spec := spec; cy_SourceNode := "";
     cy_Plan := Some (reserved_plan plan strategies (rvs_Options (rsv_Spec reservation)) spec);
     cy_Status := reserved_status (rsv_Status reservation);
     cy_Volumes := map (fun c => {| cyv_Reservation := c; cyv_Sync := blank_sync |}) (rsv_Volumes reservation) |}.

(** [None]: a dereference of a missing plan; a reserved reservation has one. *)
Definition CopyFromReservation (reservation : ClusterReservation) (spec : ClusterCopySpec) : option (result ClusterCopy) :=
  match validateClusterReservationObject reservation with
  | Some e => Some (inr e)
  | None =>
      if (negb (ws_Phase (crv_Status reservation) =p PhaseReserved) || deleted (crv_DeletionTimestamp reservation))%bool
      then Some (inr reserved_required) else
      match validateReservedCopyInput (crv_Spec reservation) spec with
      | Some e => Some (inr e)
      | None =>
          plan ← crv_Plan reservation;
          let strategies := reserved_strategies (ccs_SourceNamespace spec) (ccs_DestinationNamespace spec) (crp_Plan plan)
                              (to_Strategies (cys_Options (ccs_Spec spec)))
                              (to_Strategies (rvs_Options (crs_Spec (crv_Spec reservation)))) in
          match ValidateStrategies strategies with
          | Some e => Some (inr e)
          | None =>
              let object := reserved_cluster_copy reservation plan strategies spec in
              Some match validateClusterCopyObject object with Some e => inr e | None => inl object end
          end
      end
  end.

Definition NamespacedCopyFromReservation (reservation : Reservation) (spec : CopySpec) : option (result Copy) :=
  match validateReservationObject reservation with
  | Some e => Some (inr e)
  | None =>
      if (negb (ws_Phase (rsv_Status reservation) =p PhaseReserved) || deleted (rsv_DeletionTimestamp reservation))%bool
      then Some (inr reserved_required) else
      match validateNamespacedReservedCopyInput (rsv_Spec reservation) spec with
      | Some e => Some (inr e)
      | None =>
          plan ← rsv_Plan reservation;
          let strategies := reserved_strategies (rsv_Namespace reservation) (rsv_Namespace reservation) plan
                              (to_Strategies (cys_Options spec)) (to_Strategies (rvs_Options (rsv_Spec reservation))) in
          match ValidateStrategies strategies with
          | Some e => Some (inr e)
          | None =>
              let object := reserved_copy reservation plan strategies spec in
              Some match validateCopyObject object with Some e => inr e | None => inl object end
          end
      end
  end.
End copies.

(** ** The copy is acceptable *)

Section accepted.
Context `{QT : QuantityText} `{PV : PVMigrateLibrary}.

Lemma volumeIndexes_size {A} (name : A -> string) (l : list A) :
  NoDup (map name l) -> size (volumeIndexes name l) = length l.
Proof.
  intros Hnd. rewrite <- size_dom, volumeIndexes_dom, size_list_to_set by done. by rewrite length_map.
Qed.

(** What the reservation's checks say of one checkpoint. *)
Lemma cluster_reservation_loop_facts volumes dn phase seen l :
  cluster_reservation_loop volumes dn phase seen l = None ->
  forall c, c ∈ l -> exists v, volumes !! rs_SourcePVCName c = Some v /\ wrong_pvc v dn (rs_DestinationPVC c) = false /\
    wrong_pv (rs_DestinationPV c) = false /\
    (rs_Reserved c && (missing (rs_DestinationPVC c) || missing (rs_DestinationPV c)))%bool = false /\
    ((phase =p PhaseReserved) && negb (rs_Reserved c))%bool = false.
Proof.
  revert seen. induction l as [|d l IH]; intros seen; [by intros _ c Hc%not_elem_of_nil|]. cbn [cluster_reservation_loop].
  destruct (volumes !! rs_SourcePVCName d) as [v|] eqn:Hv; [|done]. do 5 (case_test; [done|]).
  intros Hl c [->|Hc]%elem_of_cons; [by exists v|by eapply IH].
Qed.

Lemma reserved_checkpoint_valid dn v c :
  wrong_pvc v dn (rs_DestinationPVC c) = false -> wrong_pv (rs_DestinationPV c) = false ->
  (rs_Reserved c && (missing (rs_DestinationPVC c) || missing (rs_DestinationPV c)))%bool = false -> rs_Reserved c = true ->
  validate_cluster_copy_checkpoint PhaseReserved dn v {| ccv_Reservation := c; ccv_Sync := blank_sync |} = None.
Proof.
  intros H1 H2 H3 H4. unfold validate_cluster_copy_checkpoint. cbn. rewrite H1, H2, H4 in *. cbn in *. by rewrite H3.
Qed.

(** The checkpoints of a completed reservation cover the plan of the copy. *)
Lemma reserved_checkpoints_valid {A} (res : A -> ReservationStatus) (name : A -> string) check volumes out sn dn (cs : list A) :
  (forall a, name a = rs_SourcePVCName (res a)) ->
  (forall v a, a ∈ cs ->
     validate_cluster_copy_checkpoint PhaseReserved dn v {| ccv_Reservation := res a; ccv_Sync := blank_sync |} = None ->
     check v a = None) ->
  validateReservationVolumes volumes sn dn = inl out ->
  validateClusterReservationCheckpoints out (map res cs) dn PhaseReserved = None ->
  validate_copy_checkpoints (volumeIndexes name cs) cs check volumes PhaseReserved = None.
Proof.
  intros Hname Hcheck Hr Hc. destruct (planned_NoDup _ _ _ _ Hr) as (Hnd & Hsize & Hout).
  pose proof (fits_reservation _ _ _ _ _ _ _ Hr Hc) as (Hfit & _).
  unfold validateClusterReservationCheckpoints in Hc. rewrite length_map in Hc.
  change (negb (PhaseReserved =p PhaseReserved)) with false in Hc. rewrite andb_false_r in Hc. case_test; [done|].
  rewrite negb_false_iff, Nat.eqb_eq, Hsize in Heqb.
  pose proof (cluster_reservation_loop_None _ _ _ _ _ Hc) as (Hnames & _ & _).
  pose proof (cluster_reservation_loop_facts _ _ _ _ _ Hc) as Hfacts.
  assert (map name cs = map rs_SourcePVCName (map res cs)) as Heq by (rewrite map_map; by apply map_ext).
  unfold validate_copy_checkpoints. cbn [requires_reserved negb]. rewrite andb_false_r.
  rewrite Heqb, Nat.eqb_refl, volumeIndexes_size, Heqb, Nat.eqb_refl by (by rewrite Heq). cbn [negb].
  assert (forall l, (forall v, v ∈ l -> v ∈ volumes) -> copy_checkpoint_loop (volumeIndexes name cs) cs check l = None) as Hloop;
    [|by apply Hloop].
  induction l as [|v l IH]; intros Hsub; [done|]. cbn [copy_checkpoint_loop].
  assert (v ∈ volumes) as Hin by (apply Hsub; left).
  destruct (proj2 (volumeIndexes_is_Some name cs (planned_name v))) as [i Hi].
  { rewrite Heq. destruct Hfit as [Hn|[Hp _]]; [|rewrite Hp; by apply list_elem_of_fmap_2].
    apply map_eq_nil in Hn as ->. destruct volumes; [by apply not_elem_of_nil in Hin|done]. }
  rewrite Hi. cbn. destruct (volumeIndexes_sound _ _ _ _ Hi) as (a & Ha & Hna). rewrite Ha.
  assert (res a ∈ map res cs) as Hin' by (apply list_elem_of_fmap_2; by eapply list_elem_of_lookup_2).
  destruct (Hfacts _ Hin') as (u & Hu & F1 & F2 & F3 & F4). destruct (Hout _ _ Hu) as [Hnu Huin].
  assert (u = v) as ->.
  { apply list_elem_of_lookup in Huin as [j Hj]. apply list_elem_of_lookup in Hin as [k Hk].
    assert (j = k) as ->; [|congruence]. eapply (NoDup_lookup (map planned_name volumes)); [done| |];
      change (map ?f ?l) with (f <$> l); rewrite list_lookup_fmap; [rewrite Hj|rewrite Hk]; [done|]. cbn. congruence. }
  rewrite Hcheck; [apply IH; intros w Hw; apply Hsub; by right|by eapply list_elem_of_lookup_2|]. apply reserved_checkpoint_valid; [done|done|done|].
  cbn in F4. by destruct (rs_Reserved (res a)).
Qed.

Lemma validate_local_copy_of ns v c :
  validate_cluster_copy_checkpoint PhaseReserved ns v (qualified_copy ns c) = None -> validate_copy_checkpoint PhaseReserved v c = None.
Proof.
  unfold validate_copy_checkpoint, validate_cluster_copy_checkpoint, wrong_local_pvc, wrong_local_pv, wrong_pvc, wrong_pv.
  cbn. destruct (lr_DestinationPVC _) as [pvc|], (lr_DestinationPV _) as [pv|]; cbn;
    rewrite ?String.eqb_refl; cbn; rewrite ?orb_false_r; by repeat case_test.
Qed.

Lemma reserved_lifecycle s :
  validateReservationLifecycle s = None -> ws_Phase s = PhaseReserved -> validateCopyLifecycle (reserved_status s) = None.
Proof.
  unfold validateReservationLifecycle, validateCopyLifecycle. cbn. intros Hv Hp. rewrite Hp in *. cbn in *.
  destruct (ws_ResumeFrom s); try done; cbn in *; destruct (ws_FailureReason s =s ""); done.
Qed.

Lemma reserved_resume s : ws_Phase s = PhaseReserved -> workflowResumePhase (reserved_status s) = PhaseReserved.
Proof. intros Hp. unfold workflowResumePhase. cbn. by rewrite Hp. Qed.

(** *** Both scopes *)

Lemma reserved_cluster_copy_valid reservation spec plan strategies :
  validateClusterReservationObject reservation = None -> ws_Phase (crv_Status reservation) = PhaseReserved ->
  crv_DeletionTimestamp reservation = None -> validateReservedCopyInput (crv_Spec reservation) spec = None ->
  crv_Plan reservation = Some plan ->
  validateClusterCopyObject (reserved_cluster_copy reservation plan strategies spec) = None.
Proof.
  intros Hv Hph Hdel Hin Hplan. unfold validateReservedCopyInput in Hin. apply first_err_None in Hin as [Hpol Hin].
  cbv zeta in Hin. case_bool_decide as Heq; [|done]. 
  pose proof (f_equal (fun s => cys_Volumes (ccs_Spec s)) Heq) as Hvol. pose proof (f_equal ccs_SourceNamespace Heq) as Hsn.
  pose proof (f_equal ccs_DestinationNamespace Heq) as Hdn. cbn in Hvol, Hsn, Hdn. clear Heq.
  unfold validateClusterReservationObject in Hv. case_test; [done|]. apply first_err_None in Hv as [Hlife Hv].
  cbv zeta in Hv. rewrite Hplan, Hdel in Hv. do 3 (case_test; [done|]). cbn [deleted unless] in Hv.
  apply first_err_None in Hv as [Hns [_ Hv]%first_err_None]. case_test; [done|].
  destruct (validateReservationVolumes _ _ _) as [out|] eqn:Hr; [|done]. apply first_err_None in Hv as [Hreq Hc].
  unfold workflowResumePhase in Hc. rewrite Hph in Hc. cbn [phase_eqb] in Hc.
  unfold validateClusterCopyObject. cbn [reserved_cluster_copy cc_Name cc_Namespace]. rewrite String.eqb_refl.
  apply orb_false_iff in Heqb as [-> _]. cbn [orb negb].
  apply first_err_None. split; [by apply reserved_lifecycle|].
  cbn -[ValidateUnusedStoragePolicy validateReservationVolumes validateCopyRequestedVolumes validateClusterCopyCheckpoints].
  rewrite Hph, Heqb0, Hpol, Hr, Hsn, Hdn, Heqb3. apply orb_false_iff in Heqb2 as [-> ->]. rewrite eqb_reflx. cbn [orb negb first_err].
  rewrite Hvol. unfold validateCopyRequestedVolumes. unfold validate_reservation_requests in Hreq. cbn in Hreq.
  change (PhaseReserved =p PhaseNone) with false. cbn [orb]. case_test; [|done]. cbn [first_err].
  rewrite reserved_resume by done.
  eapply (reserved_checkpoints_valid ccv_Reservation); [done| |exact Hr|].
  - intros v a (c & -> & _)%list_elem_of_fmap. done.
  - rewrite map_map, map_id. exact Hc.
Qed.

Lemma reserved_copy_valid reservation spec plan strategies :
  validateReservationObject reservation = None -> ws_Phase (rsv_Status reservation) = PhaseReserved ->
  rsv_DeletionTimestamp reservation = None -> validateNamespacedReservedCopyInput (rsv_Spec reservation) spec = None ->
  rsv_Plan reservation = Some plan -> validateCopyObject (reserved_copy reservation plan strategies spec) = None.
Proof.
  intros Hv Hph Hdel Hin Hplan. unfold validateNamespacedReservedCopyInput in Hin. apply first_err_None in Hin as [Hpol Hin].
  cbv zeta in Hin. case_bool_decide as Heq; [|done]. pose proof (f_equal cys_Volumes Heq) as Hvol. cbn in Hvol. clear Heq.
  unfold validateReservationObject in Hv. case_test; [done|]. apply first_err_None in Hv as [Hlife Hv].
  cbv zeta in Hv. rewrite Hplan, Hdel in Hv. case_test; [done|]. cbn [deleted unless] in Hv.
  apply first_err_None in Hv as [_ [_ Hv]%first_err_None].
  destruct (validateReservationVolumes _ _ _) as [out|] eqn:Hr; [|done]. apply first_err_None in Hv as [Hreq Hc].
  unfold workflowResumePhase in Hc. rewrite Hph in Hc. unfold validateCopyObject. cbn [reserved_copy cy_Name cy_Namespace].
  rewrite Heqb. apply first_err_None. split; [by apply reserved_lifecycle|].
  cbn -[ValidateUnusedStoragePolicy validateReservationVolumes validateCopyRequestedVolumes validateCopyCheckpoints].
  apply orb_false_iff in Heqb0 as [_ Heqb0]. rewrite Hph, Heqb0, Hpol, Hr, eqb_reflx. cbn [orb negb first_err].
  rewrite Hvol. unfold validateCopyRequestedVolumes. unfold validate_reservation_requests in Hreq. cbn in Hreq.
  change (PhaseReserved =p PhaseNone) with false. cbn [orb]. case_test; [|done]. cbn [first_err].
  rewrite reserved_resume by done.
  eapply (reserved_checkpoints_valid (fun c => qualifiedReservationCheckpoint (cyv_Reservation c) (rsv_Namespace reservation)));
    [done| |exact Hr|].
  - intros v a (c & -> & _)%list_elem_of_fmap Ha. by eapply validate_local_copy_of.
  - rewrite map_map. by apply local_reservation_checkpoints.
Qed.

End accepted.
