(* ===== verification/ExecRules.v ===== *)
(** * Rules for the programs of the executors

    How a proof about a program of the switcher becomes a proof about the executor
    that runs it ([wp_lift], [wp_with_progress]), and rules for saving and failing,
    for every kind of workflow object.  [sim hk h] relates the switcher's own trace [hk]
    to the executor's trace [h]: the same requests in the same order, where a progress
    request stands for the whole callback. *)

From S2P Require Import Prelude Utf8 GoErrors Lifecycle PhaseMachines KubeTypes Prog Api ResourceState Ownership PVBinding NodeSelection GoFormat Quota PVCPolicy Reserver TransferPath MigrationObject Offline Activation MigrationStorage CopyEngine Exec.

(** ** Programs that only read *)

Fixpoint reads {A} (p : kube A) : Prop :=
  match p with
  | Ret _ | OutOfFuel => True
  | Vis r k => (is_write r = false /\ is_progress r = false) /\ forall x, reads (k x)
  end.

Lemma reads_bind {A B} (p : kube A) (f : A -> kube B) : reads p -> (forall a, reads (f a)) -> reads (p ≫= f).
Proof. intros Hp Hf. induction p as [a| |r k IH]; [apply Hf|done|]. destruct Hp as [Hr Hk]. split; [done|]. intros x. apply IH, Hk. Qed.

Lemma wp_of_reads {A} G (p : kube A) h : reads_ok G -> reads p -> wp G p (fun _ _ => True) h.
Proof.
  intros HG. revert h. induction p as [a| |r k IH]; intros h; [done|done|]. intros [[Hw Hp] Hk].
  split; [by apply HG|]. intros x. by apply IH.
Qed.

Lemma reads_wait_loop {A} n d (c : kube (result (bool * A))) : reads c -> reads (wait_loop n d c).
Proof.
  intros Hc. induction n as [|n IH]; [done|]. cbn. split; [done|]. intros [e|]; [done|].
  apply reads_bind; [done|]. intros [[[|] a]|e]; [done| |]; (split; [done|]; intros [?|]; done).
Qed.

Lemma reads_WaitFor {A} n i d (c : kube (result (bool * A))) : reads c -> reads (WaitFor n i d c).
Proof. intros Hc. unfold WaitFor. case_test; [done|]. by apply reads_wait_loop. Qed.

Lemma reads_run_all {A B} (f : A -> kube B) l : (forall a, reads (f a)) -> reads (run_all f l).
Proof.
  intros Hf. induction l as [|x l IH]; [done|]. apply reads_bind; [done|]. intros b.
  apply reads_bind; [done|]. by intros bs.
Qed.

(** Splits a program along its control flow. *)
Ltac reads_tac :=
  repeat first
    [ exact I
    | assumption
    | match goal with |- reads (call _) => by (split; [by split|intros ?; exact I]) end
    | apply reads_WaitFor
    | apply reads_run_all; intros ?
    | apply reads_bind; [|intros ?]
    | match goal with
      | |- reads (check _ _) => unfold check
      | |- reads (try _ _) => unfold try
      | |- reads (if ?b then _ else _) => destruct b
      | |- reads (match ?x with _ => _ end) => destruct x
      end ].

Section read_only.
Context `{QT : QuantityText} (s : Switcher) (deleting : bool).

Lemma reads_verify_pv op what pvc pv : reads (verify_pv deleting op what pvc pv).
Proof. unfold verify_pv. reads_tac. Qed.
Hint Resolve reads_verify_pv : core.

Lemma reads_verifyActive sid src ns pv active : reads (verifyActiveStorageVolume deleting sid src ns pv active).
Proof. unfold verifyActiveStorageVolume. reads_tac; auto. Qed.

Lemma reads_verifyRollback sid src pv active : reads (verifyRollbackStorageVolume deleting sid src pv active).
Proof. unfold verifyRollbackStorageVolume. reads_tac; auto. Qed.

Lemma reads_unrecorded src pv ns : reads (unrecordedActivePVC src pv ns).
Proof. unfold unrecordedActivePVC. reads_tac. Qed.

Lemma reads_verifyOfflineBindings sid volumes recovering : reads (verifyOfflineBindings s sid volumes recovering).
Proof.
  unfold verifyOfflineBindings, verifyPVCAndPVIdentity, verifyRetainedActivationPV, list_pods, ensureVolumesDetached,
    waitFor_, wait_error, waitFor.
  reads_tac.
Qed.

Lemma reads_offlineForSession sid volumes : reads (VerifyVolumesOfflineForSession s sid volumes).
Proof. unfold VerifyVolumesOfflineForSession. case_test; [done|]. apply reads_verifyOfflineBindings. Qed.

Lemma reads_activationRecovery sid volumes : reads (VerifyActivationRecovery s sid volumes).
Proof. unfold VerifyActivationRecovery. case_test; [done|]. apply reads_verifyOfflineBindings. Qed.

Lemma reads_unrecordedRollback sid src spv dpv active :
  reads (validateUnrecordedRollbackStorage deleting s sid src spv dpv active).
Proof.
  unfold validateUnrecordedRollbackStorage. reads_tac; auto using reads_activationRecovery, reads_verifyRollback.
Qed.

Lemma reads_consumed ns pvc sid : reads (rollbackDestinationConsumed ns pvc sid).
Proof. unfold rollbackDestinationConsumed. reads_tac. Qed.

Lemma reads_resolve_change a b c : reads (resolve_change a b c).
Proof. unfold resolve_change. reads_tac. Qed.

Lemma reads_resolve_changes a b l : reads (resolve_changes a b l).
Proof. induction l as [|c l IH]; cbn; reads_tac; apply reads_resolve_change. Qed.

Lemma reads_admission ns changes : reads (validateMigrationPVCAdmission ns changes).
Proof.
  unfold validateMigrationPVCAdmission, CheckPVCAdmissionPolicies, resolveExistingPVCAdmissionState.
  reads_tac; first [apply reads_resolve_change|apply reads_resolve_changes].
Qed.
End read_only.

Create HintDb reads discriminated.
#[export] Hint Resolve reads_verifyActive reads_verifyRollback reads_unrecorded reads_offlineForSession
  reads_activationRecovery reads_unrecordedRollback reads_consumed reads_admission : reads.

(** ** From the switcher's trace to the executor's *)

Inductive sim {Obj : Type} : trace -> xtraceOf Obj -> Prop :=
| sim_start h : sim [] h
| sim_kube r x hk h : is_progress r = false -> sim hk h -> sim (Ev r x :: hk) (Ev (XKube r) x :: h)
| sim_progress st e hk h h' : sim hk h -> h `suffix_of` h' -> sim (Ev (Progress st) e :: hk) h'.

Definition lift_event {Obj : Type} (e : kevent) : event (@xresp Obj) :=
  match e with Ev r x => @Ev _ (@xresp Obj) (XKube r) x end.

(** An observation of the switcher is an event of the executor's trace. *)
Lemma sim_elem {Obj} hk (h : xtraceOf Obj) r x : sim hk h -> is_progress r = false -> Ev r x ∈ hk -> Ev (XKube r) x ∈ h.
Proof.
  intros Hs Hr. induction Hs as [h|r' x' hk h Hp Hs IH|st e hk h h' Hs IH Hsuf].
  - intros Hin. by apply not_elem_of_nil in Hin.
  - intros [Heq|Hin]%elem_of_cons; [|right; by apply IH].
    change (lift_event (Ev r x) ∈ Ev (XKube r') x' :: h). rewrite Heq. left.
  - intros [Heq|Hin]%elem_of_cons.
    + exfalso. assert (r = Progress st) as -> by (by injection Heq). done.
    + destruct Hsuf as [k ->]. apply elem_of_app. right. by apply IH.
Qed.

Section lifting.
Context {Obj : Type}.
Notation exec := (execOf Obj).
Notation xtrace := (xtraceOf Obj).
Notation outcome := (Obj * option err)%type.
Context (G : xtrace -> xreq Obj -> Prop).
Hypothesis HR : forall h r, is_write r = false -> is_progress r = false -> G h (XKube r).
Hypothesis HD : forall h, G h XDetachedErr.

Lemma wp_lift {A} (p : kube A) h : reads p -> wp G (lift p) (fun _ _ => True) h.
Proof.
  revert h. induction p as [a| |r k IH]; intros h; [done|done|]. intros [[Hw Hp] Hk].
  split; [by apply HR|]. intros x. by apply IH.
Qed.

(** A read-only check and what follows it. *)
Lemma wp_lift_then {A B} (p : kube A) (k : A -> exec B) Q h :
  reads p -> (forall a h', h `suffix_of` h' -> wp G (k a) Q h') -> wp G (lift p ≫= k) Q h.
Proof.
  intros Hp Hk. apply wp_bind_2. eapply wp_mono; [by apply wp_lift|]. intros a h' Hs _. by apply Hk.
Qed.

(** The same with what the program has seen: a program under its own guard [K]. *)
Lemma wp_lift_guard {A} (K : trace -> req -> Prop) (p : kube A) (Q : A -> trace -> Prop) hk h0 :
  (forall hk r, K hk r -> G (map lift_event hk ++ h0) (XKube r)) ->
  wp K p Q hk ->
  wp G (lift p) (fun a h' => exists hk', h' = map lift_event hk' ++ h0 /\ Q a hk') (map lift_event hk ++ h0).
Proof.
  intros HK. revert hk. induction p as [a| |r k IH]; intros hk; [|done|].
  - intros HQ. by exists hk.
  - intros [HG Hk]. split; [by apply HK|]. intros x. by apply (IH x (Ev r x :: hk)).
Qed.

(** The switcher's program under its own guard [K], the object under [I]. *)
Lemma wp_with_progress {O A} (callback : ActivationStatus -> O -> exec (O * option err))
    (K : trace -> req -> Prop) (I : trace -> O -> xtrace -> Prop) (Q : A -> trace -> Prop) p hk o h :
  (forall hk o h r, I hk o h -> K hk r -> is_progress r = false ->
     G h (XKube r) /\ forall x, I (Ev r x :: hk) o (Ev (XKube r) x :: h)) ->
  (forall hk o h st, I hk o h -> K hk (Progress (Some st)) ->
     wp G (callback st o) (fun r h' => I (Ev (Progress (Some st)) r.2 :: hk) r.1 h') h) ->
  (forall hk, ~ K hk (Progress None)) ->
  wp K p Q hk -> I hk o h ->
  wp G (with_progress callback p o) (fun r h' => exists hk', I hk' r.1 h' /\ Q r.2 hk') h.
Proof.
  intros Hk Hc Hn. revert hk o h. induction p as [a| |r k IH]; intros hk o h; [| done |].
  - intros HQ HI. by exists hk.
  - intros [HK Hp] HI. destruct (is_progress r) eqn:Hr.
    + destruct r; try discriminate Hr. destruct status as [st|]; [|by destruct (Hn hk)].
      cbn [with_progress]. apply wp_bind_2. eapply wp_mono; [by apply Hc|].
      intros [o' e] h' _ HI'. cbn in HI' |- *. by eapply (IH e).
    + destruct (Hk hk o h r HI HK Hr) as [HG HI'].
      assert (wp G (Vis (XKube r) (fun x => with_progress callback (k x) o))
                (fun r h' => exists hk', I hk' r.1 h' /\ Q r.2 hk') h) as Hw.
      { split; [done|]. intros x. by eapply IH. }
      destruct r; try discriminate Hr; exact Hw.
Qed.

(** ** Saving *)

Lemma wp_checkpoint_fence detached h : wp G (checkpoint_fence detached) (fun _ _ => True) h.
Proof.
  unfold checkpoint_fence. apply wp_bind_2. destruct detached.
  - split; [apply HD|]. intros [e|]; [done|]. by split; [apply HR|].
  - split; [by apply HR|]. intros [e|]; [done|]. by split; [apply HR|].
Qed.

Lemma wp_persist detached o (Q : option err -> xtrace -> Prop) h :
  (forall h', G h' (XSave o)) ->
  (forall h', h `suffix_of` h' -> Ev (XSave o) None ∈ h' -> Q None h') ->
  (forall e h', h `suffix_of` h' -> Q (Some e) h') ->
  wp G (persist detached o) Q h.
Proof.
  intros HG Hok He. unfold persist. apply wp_check. eapply wp_mono; [apply wp_checkpoint_fence|].
  intros [e|] h1 Hs1 _; [by apply He|]. apply wp_bind_2. split; [apply HG|]. intros [e|].
  - apply He. by apply suffix_cons_r.
  - apply wp_Ret. cbv beta iota. eapply wp_mono; [apply wp_checkpoint_fence|]. intros [e|] h2 Hs2 _.
    + apply He. etrans; [exact Hs1|]. by eapply suffix_cons_l.
    + apply Hok; [etrans; [exact Hs1|]; by eapply suffix_cons_l|].
      destruct Hs2 as [l ->]. apply elem_of_app. right. left.
Qed.

(** Recording a failure saves at most one object of the same effective phase and
    content, and always reports an error.  The executor's transition to [PhaseFailed]
    is given by what it does to a status of the same effective phase. *)
Section failure.
Context `{WO : WorkflowObject Obj} (transition : bool -> Obj -> Phase -> string -> exec outcome).

Definition same_phase (o o' : Obj) : Prop :=
  exists st, o' = wf_put o st /\ workflowResumePhase st = workflowResumePhase (wf_get o).

Lemma wp_recordWorkflowFailure o cause reason now (Q : outcome -> xtrace -> Prop) h :
  (forall o' h', same_phase o o' -> G h' (XSave o')) ->
  (forall o' message h', same_phase o o' ->
     wp G (transition true o' PhaseFailed message) (fun r _ => r.2 = None -> same_phase o r.1) h') ->
  (forall o' e h', h `suffix_of` h' -> same_phase o o' -> Q (o', Some e) h') ->
  (forall e h', h `suffix_of` h' -> Q (o, Some e) h') ->
  wp G (recordWorkflowFailure transition o cause reason now) Q h.
Proof.
  intros HG Ht Hs He. unfold recordWorkflowFailure.
  apply wp_bind_2. split; [by apply HR|]. intros [f|].
  { apply wp_Ret. destruct (errors_Join _) eqn:Hj; [|done]. apply He. by apply suffix_cons_r. }
  apply wp_bind_2. split; [by apply HR|]. intros c. apply wp_bind_2.
  set (failed := wf_put o _).
  assert (same_phase o failed) as Hf by (eexists; by split).
  eapply wp_mono with (Q := fun r _ => r.2 = None -> same_phase o r.1); [case_test|].
  - assert (same_phase o (wf_put failed (with_message (wf_get failed) (error_text cause) now))) as Hm.
    { unfold failed. rewrite wf_put_put. eexists. split; [done|]. by rewrite wf_get_put. }
    apply wp_bind_2, wp_persist; [intros h'; by apply HG|by intros h' _ _ _|done].
  - by apply Ht.
  - intros [o' [e|]] h' Hsuf Hr; apply wp_Ret;
      assert (h `suffix_of` h') as Hh by (eapply suffix_cons_l, suffix_cons_l; exact Hsuf).
    + by apply He.
    + by apply Hs, Hr.
Qed.
End failure.
End lifting.

Lemma wp_or_panic {Obj A B} G (x : option A) a (k : A -> execOf Obj B) Q h :
  x = Some a -> wp G (k a) Q h -> wp G (or_panic x k) Q h.
Proof. by intros ->. Qed.
