(* ===== verification/ExecutorRules.v ===== *)
(** * Rules for the migration executor

    Rules for the transitions and failures of the migration executor, on top of the
    rules of ExecRules, and the frame of an object: what a pass over its volumes keeps. *)

From S2P Require Import Prelude Utf8 GoErrors Lifecycle PhaseMachines KubeTypes Prog Api ResourceState Ownership PVBinding NodeSelection GoFormat Quota PVCPolicy Reserver TransferPath MigrationObject Offline Activation MigrationStorage CopyEngine Exec Executor ObjectValidity SwitcherRules ExecRules.

Section transitions.
Context (G : xtrace -> xreq ClusterMigration -> Prop).
Hypothesis HR : forall h r, is_write r = false -> is_progress r = false -> G h (XKube r).
Hypothesis HD : forall h, G h XDetachedErr.

(** The effective phase of an object. *)
Definition eff (o : ClusterMigration) : Phase := workflowResumePhase (mig_Status o).

(** A transition saves one object, of the same content and the next effective phase
    (the same one for a failure), and keeps it only if the save succeeded. *)
Lemma wp_exec_transition detached o next message (Q : outcome -> xtrace -> Prop) h :
  let target := if next =p PhaseFailed then eff o else next in
  (forall st h', validateMigrationTransition (eff o) next = None -> workflowResumePhase st = target ->
     G h' (XSave (set_status o st))) ->
  (forall st h', h `suffix_of` h' -> workflowResumePhase st = target ->
     Ev (XSave (set_status o st)) None ∈ h' -> Q (set_status o st, None) h') ->
  (forall e h', h `suffix_of` h' -> Q (o, Some e) h') ->
  wp G (exec_transition detached o next message) Q h.
Proof.
  cbv zeta. intros HG Hok He. unfold exec_transition.
  destruct (validateMigrationTransition _ _) as [e|] eqn:Hv; [by apply He|].
  apply wp_bind_2.
  eapply wp_mono with (Q := fun st _ => workflowResumePhase st = eff o).
  { destruct (ws_StartedAt (mig_Status o)); [done|]. apply wp_bind_2. split; [by apply HR|]. intros t.
    apply wp_Ret, wp_Ret. unfold eff, workflowResumePhase.
    by destruct (with_StartedAt_phase (mig_Status o) t) as [-> ->]. }
  intros st h1 Hs1 Hst. apply wp_bind_2. split; [by apply HR|]. intros t. apply wp_bind_2.
  assert (workflowResumePhase (RecordWorkflowTransition st next message t) =
          if next =p PhaseFailed then eff o else next) as Ht by (by rewrite record_effective, Hst).
  apply wp_persist; [done|done|..].
  - intros h'. by apply HG.
  - intros h2 Hs2 Hin. apply Hok; [|done|done]. etrans; [exact Hs1|]. by eapply suffix_cons_l.
  - intros e h2 Hs2. apply He. etrans; [exact Hs1|]. by eapply suffix_cons_l.
Qed.

(** Recording a failure saves at most one object of the same effective phase and
    content, and always reports an error. *)
Lemma wp_exec_fail o cause (Q : outcome -> xtrace -> Prop) h :
  (forall st h', workflowResumePhase st = eff o -> G h' (XSave (set_status o st))) ->
  (forall st e h', h `suffix_of` h' -> workflowResumePhase st = eff o -> Q (set_status o st, Some e) h') ->
  (forall e h', h `suffix_of` h' -> Q (o, Some e) h') ->
  wp G (exec_fail o cause) Q h.
Proof.
  intros HG Hs He. unfold exec_fail. apply wp_bind_2. split; [by apply HR|]. intros t.
  apply wp_recordWorkflowFailure; [done|done|..].
  - intros o' h' (st & -> & Hst). by apply HG.
  - intros o' message h' (st & -> & Hst).
    assert (eff (wf_put o st) = eff o) as Hf by done.
    apply wp_exec_transition; rewrite ?Hf; cbn [phase_eqb].
    + intros st' h2 _ Hst'. exact (HG st' h2 Hst').
    + intros st' h2 _ Hst' _ _. by exists st'.
    + done.
  - intros o' e h' Hsuf (st & -> & Hst). apply Hs; [|done]. by eapply suffix_cons_l.
  - intros e h' Hsuf. apply He. by eapply suffix_cons_l.
Qed.

Lemma wp_step_or_fail (p : exec outcome) k (Q : outcome -> xtrace -> Prop) h :
  wp G p (fun r h' => match r.2 with Some e => wp G (exec_fail r.1 e) Q h' | None => wp G (k r.1) Q h' end) h ->
  wp G (step_or_fail p k) Q h.
Proof. intros Hp. apply wp_bind_2. eapply wp_mono; [exact Hp|]. by intros [o [e|]] h' _. Qed.
End transitions.

(** ** Objects of the same plan

    A pass over the volumes changes the status and, of each checkpoint, what the relation
    [R] leaves free; the reservations stay. *)

Definition frame_on (R : ClusterMigrationVolumeStatus -> ClusterMigrationVolumeStatus -> Prop)
    (a b : ClusterMigration) : Prop :=
  mig_Name b = mig_Name a /\ mig_Namespace b = mig_Namespace a /\
  mig_DeletionTimestamp b = mig_DeletionTimestamp a /\ mig_Spec b = mig_Spec a /\ mig_Plan b = mig_Plan a /\
  Forall2 R (mig_Volumes a) (mig_Volumes b).

Lemma indexes_names l l' :
  map volume_name l = map volume_name l' -> clusterMigrationVolumeIndexes l = clusterMigrationVolumeIndexes l'.
Proof.
  revert l'. induction l as [|c l IH] using rev_ind; intros l' Heq.
  - symmetry in Heq. by apply map_eq_nil in Heq as ->.
  - destruct l' as [|d l' _] using rev_ind; [rewrite map_app in Heq; by destruct (map volume_name l)|].
    rewrite !map_app in Heq. apply app_inj_tail in Heq as [Hl Hn]. rewrite !indexes_snoc, (IH l') by done.
    f_equal; [done|]. by rewrite <- (length_map volume_name l), Hl, length_map.
Qed.

Section frames.
Context (R : ClusterMigrationVolumeStatus -> ClusterMigrationVolumeStatus -> Prop).
Hypothesis Hrefl : forall x, R x x.
Hypothesis Hres : forall x y, R x y -> mv_Reservation y = mv_Reservation x.

Lemma frame_on_refl o : frame_on R o o.
Proof. split_and!; try done. by apply Forall_Forall2_diag, Forall_true. Qed.

Lemma frame_on_status a b st : frame_on R a b -> frame_on R a (set_status b st).
Proof. done. Qed.

Lemma frame_on_lookup a b i : frame_on R a b ->
  match mig_Volumes a !! i, mig_Volumes b !! i with
  | Some x, Some y => R x y
  | None, None => True
  | _, _ => False
  end.
Proof.
  intros (_ & _ & _ & _ & _ & H6).
  destruct (mig_Volumes a !! i) as [x|] eqn:Hx.
  - destruct (Forall2_lookup_l _ _ _ _ _ H6 Hx) as (y & -> & Hy). done.
  - destruct (mig_Volumes b !! i) as [y|] eqn:Hy; [|done].
    destruct (Forall2_lookup_r _ _ _ _ _ H6 Hy) as (x & Hx' & _). congruence.
Qed.

Lemma frame_on_names a b : frame_on R a b -> map volume_name (mig_Volumes b) = map volume_name (mig_Volumes a).
Proof.
  intros (_ & _ & _ & _ & _ & H6). induction H6 as [|x y l l' Hr _ IH]; [done|].
  cbn. rewrite IH. f_equal. unfold volume_name. by rewrite (Hres x y).
Qed.

Lemma frame_on_index a b volume : frame_on R a b -> checkpoint_index b volume = checkpoint_index a volume.
Proof. intros Hf. unfold checkpoint_index. by rewrite (indexes_names _ _ (frame_on_names a b Hf)). Qed.

(** The bindings are those of the starting object. *)
Lemma frame_on_bound a b plan volume c binding :
  frame_on R a b -> bound_checkpoint a plan volume = Some (c, binding) ->
  exists d, bound_checkpoint b plan volume = Some (d, binding) /\ checkpoint_of b volume = Some d /\ R c d.
Proof.
  intros Hf Hb. unfold bound_checkpoint, checkpoint_of in *. rewrite (frame_on_index a b volume Hf).
  pose proof (frame_on_lookup a b (checkpoint_index a volume) Hf) as Hl.
  destruct (mig_Volumes a !! _) as [x|]; [|done]. destruct (mig_Volumes b !! _) as [y|]; [|done].
  rewrite (Hres x y Hl). destruct (plannedMigrationBindings _ _ _) as [bd|]; [|done].
  injection Hb as <- <-. by exists y.
Qed.
End frames.

(** Cutover and rollback change only the status and the activation checkpoints. *)
Definition same_sync (x y : ClusterMigrationVolumeStatus) : Prop :=
  mv_Reservation y = mv_Reservation x /\ mv_Sync y = mv_Sync x.
Definition frame : ClusterMigration -> ClusterMigration -> Prop := frame_on same_sync.

Lemma same_sync_res x y : same_sync x y -> mv_Reservation y = mv_Reservation x.
Proof. by intros [? _]. Qed.

Lemma frame_refl o : frame o o.
Proof. by apply frame_on_refl. Qed.

Lemma frame_status a b st : frame a b -> frame a (set_status b st).
Proof. done. Qed.

Lemma frame_activation a b i st : frame a b -> frame a (set_activation b i st).
Proof.
  intros (H1 & H2 & H3 & H4 & H5 & H6). split_and!; try done. cbn. by apply Forall2_alter_r.
Qed.

Lemma frame_lookup a b i : frame a b ->
  match mig_Volumes a !! i, mig_Volumes b !! i with
  | Some x, Some y => mv_Reservation y = mv_Reservation x /\ mv_Sync y = mv_Sync x
  | None, None => True
  | _, _ => False
  end.
Proof. apply frame_on_lookup. Qed.

Lemma frame_index a b volume : frame a b -> checkpoint_index b volume = checkpoint_index a volume.
Proof. apply frame_on_index, same_sync_res. Qed.

Lemma frame_bound a b plan volume c binding :
  frame a b -> bound_checkpoint a plan volume = Some (c, binding) ->
  exists d, bound_checkpoint b plan volume = Some (d, binding) /\ checkpoint_of b volume = Some d /\
    mv_Reservation d = mv_Reservation c /\ mv_Sync d = mv_Sync c.
Proof. apply frame_on_bound, same_sync_res. Qed.
