(* ===== verification/ExecutorSafety.v ===== *)
(** * Safety of the executor's cutover and rollback

    The executor composed of the validation of its object, the switcher, the store and
    the phase machine: which writes reach the cluster, in which persisted phase, what
    the saved objects say, and that no nil dereference is reachable. *)

From S2P Require Import Prelude Utf8 GoErrors Lifecycle PhaseMachines KubeTypes Prog Api ResourceState Ownership PVBinding NodeSelection GoFormat Quota PVCPolicy Reserver TransferPath MigrationObject Offline Activation MigrationStorage CopyEngine Exec Executor SwitcherRules SwitcherSafety RebindSafety ObjectValidity ExecRules ExecutorRules.

(** ** A pass over the planned volumes

    The common shape of cutover and rollback: the phase [mid] is persisted, the
    switcher runs on each volume under its own guard [K], each finished volume has a
    time stamp ([finished]), and only then one of the phases [finals] is persisted. *)

Section pass.
Context (o0 : ClusterMigration) (mid : Phase) (finals : list Phase).
Context (finished : ActivationStatus -> option Time).
Context (K : PVCTransferBindings -> PVC -> ActivationStatus -> trace -> req -> Prop).
Context (ready : ClusterMigrationVolumeStatus -> Prop).
Context (manifest : VolumeSpec -> PVCTransferBindings -> PVC -> Prop).

(** The phase was persisted, with the plan and the checkpoints of this object. *)
Definition entered (h : xtrace) : Prop :=
  exists o, Ev (XSave o) None ∈ h /\ eff o = mid /\ frame o0 o.

(** A write of the switcher: after the phase was persisted, for a planned volume with
    the recorded identities, allowed by the switcher's guard on its own trace. *)
Definition switch_ok (h : xtrace) (r : req) : Prop :=
  entered h /\
  exists plan volume c binding desired st hk,
    mig_Plan o0 = Some plan /\ volume ∈ plan_Volumes plan /\
    bound_checkpoint o0 plan volume = Some (c, binding) /\ ready c /\ manifest volume binding desired /\
    sim hk h /\ K binding desired st hk r.

Definition all_finished (o : ClusterMigration) : Prop :=
  forall c, c ∈ mig_Volumes o -> is_Some (finished (mv_Activation c)).

Definition save_ok (o : ClusterMigration) : Prop :=
  frame o0 o /\ (eff o = mid \/ (eff o ∈ finals /\ all_finished o)).

Definition pass_guard (h : xtrace) (q : xreq ClusterMigration) : Prop :=
  match q with
  | XKube r => is_progress r = false /\ (is_write r = true -> switch_ok h r)
  | XSave o => save_ok o
  | XDetachedErr => True
  | XDeleteLock | XDeleteStored _ | XService _ | XPanic => False
  end.

Lemma pass_reads h r : is_write r = false -> is_progress r = false -> pass_guard h (XKube r).
Proof. intros Hw Hp. split; [done|]. by rewrite Hw. Qed.

Lemma pass_detached h : pass_guard h XDetachedErr.
Proof. done. Qed.

Lemma entered_mono h h' : h `suffix_of` h' -> entered h -> entered h'.
Proof. intros [k ->] (o & Ho & He). exists o. split; [apply elem_of_app; by right|done]. Qed.

Notation wpx := (wp pass_guard).

(** *** One volume *)

Lemma last_saved_other st r x hk : is_progress r = false -> last_saved st (Ev r x :: hk) = last_saved st hk.
Proof. by destruct r. Qed.

Lemma set_activation_twice o i a b : set_activation (set_activation o i a) i b = set_activation o i b.
Proof. unfold set_activation. cbn. f_equal. by rewrite list_alter_alter_eq. Qed.

Lemma set_activation_same o i d : mig_Volumes o !! i = Some d -> set_activation o i (mv_Activation d) = o.
Proof.
  intros Hi. destruct o. unfold set_activation. cbn in *. f_equal.
  etrans; [|by apply (list_alter_id id)]. apply list_alter_ext; [|done].
  intros x Hx. rewrite Hi in Hx. injection Hx as <-. by destruct d.
Qed.

Lemma save_ok_mid o : frame o0 o -> eff o = mid -> save_ok o.
Proof. intros. split; [done|by left]. Qed.

(** The switcher's program on a volume: the object ends with the checkpoint last
    saved, which is finished if there was no error. *)
Lemma wp_volume_pass {A} o1 plan volume c binding d desired (p : kube (A * option err)) h :
  frame o0 o1 -> eff o1 = mid -> mig_Plan o0 = Some plan -> volume ∈ plan_Volumes plan ->
  bound_checkpoint o0 plan volume = Some (c, binding) -> ready c -> manifest volume binding desired ->
  checkpoint_of o1 volume = Some d -> entered h ->
  (forall hk, ~ K binding desired (mv_Activation d) hk (Progress None)) ->
  wp (K binding desired (mv_Activation d)) p
    (fun r hk => r.2 = None -> is_Some (finished (last_saved (mv_Activation d) hk))) [] ->
  wpx (r ← with_progress (save_activation (checkpoint_index o1 volume)) p o1; Ret (r.1, r.2.2))
    (fun r _ => exists st, r.1 = set_activation o1 (checkpoint_index o1 volume) st /\
                           (r.2 = None -> is_Some (finished st))) h.
Proof.
  intros Hf He Hp Hin Hb Hr Hm Hc Hen Hnone Hw. set (i := checkpoint_index o1 volume).
  apply wp_bind_2.
  eapply wp_mono; [eapply (wp_with_progress _ _ _
    (fun hk o h => o = set_activation o1 i (last_saved (mv_Activation d) hk) /\ sim hk h /\ entered h)); [..|exact Hw|]|].
  - intros hk o h' r (-> & Hsim & Hen') HK Hpr. split.
    + split; [done|]. intros _. split; [done|]. by exists plan, volume, c, binding, desired, (mv_Activation d), hk.
    + intros x. rewrite last_saved_other by done. split_and!; [done|by constructor|].
      eapply entered_mono; [|exact Hen']. by apply suffix_cons_r.
  - intros hk o h' st (-> & Hsim & Hen') HK. unfold save_activation. rewrite set_activation_twice.
    apply wp_bind_2, wp_persist; [apply pass_reads|apply pass_detached|..].
    + intros h2. apply save_ok_mid; [by apply frame_activation|done].
    + intros h2 Hs2 _. split_and!; [done|by eapply sim_progress|by eapply entered_mono].
    + intros e h2 Hs2. split_and!; [done|by eapply sim_progress|by eapply entered_mono].
  - exact Hnone.
  - split_and!; [|constructor|done]. cbn. symmetry. by apply set_activation_same.
  - intros [o2 [a e]] h2 _ (hk & (-> & _ & _) & HQ). apply wp_Ret. cbn in *. by eexists.
Qed.

(** *** The loop *)

Definition progress_inv (done : list nat) (o : ClusterMigration) : Prop :=
  frame o0 o /\ eff o = mid /\
  forall i, i ∈ done -> exists c, mig_Volumes o !! i = Some c /\ is_Some (finished (mv_Activation c)).

Lemma progress_inv_step done o i st :
  progress_inv done o -> is_Some (mig_Volumes o !! i) -> is_Some (finished st) ->
  progress_inv (i :: done) (set_activation o i st).
Proof.
  intros (Hf & He & Hd) [d Hi] Hst. split_and!; [by apply frame_activation|done|].
  intros j Hj. cbn. destruct (decide (j = i)) as [->|Hne].
  - rewrite list_lookup_alter_eq, Hi. cbn. eexists. split; [done|]. done.
  - rewrite list_lookup_alter_ne by done. apply elem_of_cons in Hj as [?|Hj]; [done|]. by apply Hd.
Qed.

Lemma progress_inv_start o : frame o0 o -> eff o = mid -> progress_inv [] o.
Proof. intros. split_and!; try done. intros i Hi. by apply not_elem_of_nil in Hi. Qed.

(** A failure recorded after some volumes. *)
Lemma wp_pass_fail o e (Q : outcome -> xtrace -> Prop) h :
  frame o0 o -> eff o = mid -> (forall r h', Q r h') -> wpx (exec_fail o e) Q h.
Proof.
  intros Hf He HQ. apply wp_exec_fail; [apply pass_reads|apply pass_detached| |done|done].
  intros st h' Hst. apply save_ok_mid; [by apply frame_status|]. by rewrite <- He.
Qed.

Section valid.
Context `{QT : QuantityText} (plan : ClusterMigrationPlan).
Context (Hvalid : valid o0) (Hplan : mig_Plan o0 = Some plan).

Lemma all_done o done :
  progress_inv done o -> (forall volume, volume ∈ plan_Volumes plan -> checkpoint_index o0 volume ∈ done) ->
  all_finished o.
Proof.
  intros (Hf & _ & Hd) Hall c Hc. apply list_elem_of_lookup in Hc as [i Hi].
  pose proof (frame_lookup o0 o i Hf) as Hl. rewrite Hi in Hl.
  destruct (mig_Volumes o0 !! i) as [c0|] eqn:Hi0; [|done].
  apply (planned_indexes o0 plan _ _ Hvalid Hplan), list_elem_of_fmap in Hi0 as (volume & -> & Hin).
  destruct (Hd _ (Hall volume Hin)) as (c' & Hc' & Hfin). congruence.
Qed.

Lemma wp_pass_transition o done next message h :
  next ∈ finals -> next <> PhaseFailed -> progress_inv done o ->
  (forall volume, volume ∈ plan_Volumes plan -> checkpoint_index o0 volume ∈ done) ->
  wpx (exec_transition false o next message) (fun _ _ => True) h.
Proof.
  intros Hin Hne Hi Hall. apply phase_eqb_false in Hne.
  apply wp_exec_transition; [apply pass_reads|apply pass_detached| |done|done].
  rewrite Hne. intros st h' _ Hst. split; [apply frame_status, Hi|]. right. unfold eff. cbn [set_status mig_Status].
  rewrite Hst. split; [done|]. by apply (all_done o done).
Qed.

(** Entering the phase. *)
Lemma wp_pass_enter message k h :
  mid <> PhaseFailed ->
  (forall o h', frame o0 o -> eff o = mid -> mig_Plan o = Some plan -> entered h' -> wpx (k o) (fun _ _ => True) h') ->
  wpx (step_x (exec_transition false o0 mid message) k) (fun _ _ => True) h.
Proof.
  intros Hne Hk. apply phase_eqb_false in Hne. apply wp_bind_2.
  apply wp_exec_transition; [apply pass_reads|apply pass_detached|..]; rewrite ?Hne.
  - intros st h' _ Hst. apply save_ok_mid; [apply frame_status, frame_refl|done].
  - intros st h' _ Hst Hin. apply Hk; [apply frame_status, frame_refl|done|done|].
    exists (set_status o0 st). split_and!; [done|done|apply frame_status, frame_refl].
  - done.
Qed.
End valid.
End pass.

(** ** Cutover *)

Section cutover.
Context `{CR : ConflictRetry} `{QT : QuantityText} (s : Switcher) (deleting : bool) (o0 : ClusterMigration).

(** Reserved, and copied to the end. *)
Definition final_synced (c : ClusterMigrationVolumeStatus) : Prop :=
  rs_Reserved (mv_Reservation c) = true /\ is_Some (sync_FinalCompletedAt (mv_Sync c)).

Definition active_manifest (volume : VolumeSpec) (binding : PVCTransferBindings) (desired : PVC) : Prop :=
  exists plan, mig_Plan o0 = Some plan /\
    migrationPVCManifest (mig_Name o0) (SourcePVC binding) (SourcePV binding) (DestinationPV binding)
      (plan_DestinationNamespace plan) (vs_SourcePVCSpec volume) (vs_SourcePVCMetadata volume)
      (vs_StorageClass volume) (vs_Capacity volume) = inl desired.

Definition cutover_guard : xtrace -> xreq ClusterMigration -> Prop :=
  pass_guard o0 PhaseActivating [PhaseActivated; PhaseCompleted] ActivatedAt (activation_guard (mig_Name o0))
    final_synced active_manifest.

Notation wpc := (wp cutover_guard).

Lemma cutover_reads h r : is_write r = false -> is_progress r = false -> cutover_guard h (XKube r).
Proof. apply pass_reads. Qed.

(** A phase in which every volume has been copied. *)
Definition copied_phase (phase : Phase) : bool :=
  match phase with
  | PhaseFinalSynced | PhaseActivating | PhaseActivated | PhaseResuming | PhaseCompleted => true
  | _ => false
  end.

Lemma copied_late phase : copied_phase phase = true -> early_phase phase = false.
Proof. by destruct phase. Qed.

Lemma checkpoint_synced volume c dn tn phase :
  validate_checkpoint volume c dn tn phase = None -> copied_phase phase = true -> final_synced c.
Proof.
  intros Hc Hp. destruct (checkpoint_bound _ _ _ _ _ Hc (copied_late _ Hp)) as [Hr _]. split; [done|].
  unfold validate_checkpoint in Hc. destruct (validateMigrationVolumeCheckpoint _ _ _ _ _ _); [done|].
  unfold validateMigrationVolumePhase in Hc. rewrite Hr, andb_false_r in Hc.
  destruct (sync_FinalCompletedAt (mv_Sync c)) as [t|]; [by exists t|]. exfalso. by destruct phase.
Qed.

Lemma checkpoint_activated volume c dn tn phase :
  validate_checkpoint volume c dn tn phase = None -> phase ∈ [PhaseActivated; PhaseCompleted] ->
  is_Some (ActivatedAt (mv_Activation c)).
Proof.
  intros Hc Hp. unfold validate_checkpoint in Hc.
  destruct (validateMigrationVolumeCheckpoint _ _ _ _ _ _); [done|].
  unfold validateMigrationVolumePhase in Hc. case_test; [done|]. case_test; [done|].
  destruct (ActivatedAt (mv_Activation c)) as [t|]; [by exists t|]. exfalso.
  apply elem_of_cons in Hp as [->|[->|Hp]%elem_of_cons]; [done|done|by apply not_elem_of_nil in Hp].
Qed.

Section planned.
Context (plan : ClusterMigrationPlan) (Hvalid : valid o0) (Hplan : mig_Plan o0 = Some plan).
Context (Hphase : copied_phase (eff o0) = true).

Lemma planned_bound volume :
  volume ∈ plan_Volumes plan ->
  exists c binding, bound_checkpoint o0 plan volume = Some (c, binding) /\ final_synced c.
Proof.
  intros Hin. destruct (valid_bound o0 plan volume Hvalid Hplan (copied_late _ Hphase) Hin)
    as (c & binding & Hb & _ & _ & _ & Hok). exists c, binding. split; [done|]. by eapply checkpoint_synced.
Qed.

Lemma valid_all_activated : eff o0 ∈ [PhaseActivated; PhaseCompleted] -> all_finished ActivatedAt o0.
Proof.
  intros Hp c Hc. destruct (valid_names o0 plan c Hvalid Hplan Hc) as (volume & Hin & Hn).
  destruct (valid_bound o0 plan volume Hvalid Hplan (copied_late _ Hphase) Hin) as (c' & b & _ & Hc' & _ & _ & Hok).
  assert (c' = c) as ->; [|by eapply checkpoint_activated].
  apply list_elem_of_lookup in Hc as [i Hi]. unfold checkpoint_of, checkpoint_index in Hc'.
  rewrite Hn, (indexes_lookup _ i c (valid_NoDup o0 plan Hvalid Hplan) Hi) in Hc'. cbn in Hc'. congruence.
Qed.

Lemma wp_verifyActiveVolumes h : wpc (verifyActiveVolumes deleting o0) (fun _ _ => True) h.
Proof.
  unfold verifyActiveVolumes. eapply wp_or_panic; [exact Hplan|].
  assert (forall v, v ∈ plan_Volumes plan -> v ∈ plan_Volumes plan) as Hsub by done.
  revert Hsub h. generalize (plan_Volumes plan) at 1 3. intros l. induction l as [|volume l IH]; intros Hsub h; [done|].
  destruct (planned_bound volume) as (c & binding & Hb & _); [apply Hsub; left|].
  eapply wp_or_panic; [exact Hb|]. cbv beta iota. apply wp_lift_then; [apply cutover_reads|auto with reads|].
  intros [e|] h' _; [done|]. apply IH. intros v Hv. apply Hsub. by right.
Qed.

Lemma wp_activation_candidate volume h :
  volume ∈ plan_Volumes plan -> wpc (activation_candidate s deleting o0 plan volume) (fun _ _ => True) h.
Proof.
  intros Hin. unfold activation_candidate. destruct (planned_bound volume Hin) as (c & binding & Hb & _).
  eapply wp_or_panic; [exact Hb|]. cbv beta iota zeta. case_test.
  { apply wp_lift_then; [apply cutover_reads|auto with reads|]. by intros [e|] h' _. }
  apply wp_lift_then; [apply cutover_reads|auto with reads|]. intros [[[active|] found]|e] h1 _; [| |done].
  - apply wp_lift_then; [apply cutover_reads|auto with reads|]. intros [e|] h2 _; [done|].
    apply wp_lift_then; [apply cutover_reads|auto with reads|]. by intros [e|] h3 _.
  - apply wp_try, wp_Ret. by destruct (migrationActivationAdmission _ _ _).
Qed.

Lemma wp_activation_candidates volumes h :
  (forall v, v ∈ volumes -> v ∈ plan_Volumes plan) ->
  wpc (activation_candidates s deleting o0 plan volumes) (fun _ _ => True) h.
Proof.
  revert h. induction volumes as [|volume volumes IH]; intros h Hsub; [done|].
  apply wp_try. eapply wp_mono; [apply wp_activation_candidate, Hsub; left|]. intros [c|e] h1 _ _; [|done].
  apply wp_try. eapply wp_mono; [apply IH; intros v Hv; apply Hsub; by right|]. by intros [l|e] h2 _ _.
Qed.

(** One volume of the cutover. *)
Lemma wp_activate_volume o volume h :
  frame o0 o -> eff o = PhaseActivating -> volume ∈ plan_Volumes plan -> entered o0 PhaseActivating h ->
  wpc (activate_volume s deleting o plan volume)
    (fun r _ => exists st, (r.1 = o \/ r.1 = set_activation o (checkpoint_index o volume) st) /\
       (r.2 = None -> r.1 = set_activation o (checkpoint_index o volume) st /\ is_Some (ActivatedAt st))) h.
Proof.
  intros Hf He Hin Hen. destruct (planned_bound volume Hin) as (c & binding & Hb & Hsync).
  destruct (frame_bound o0 o plan volume c binding Hf Hb) as (d & Hbd & Hcd & _ & _).
  unfold activate_volume. eapply wp_or_panic; [exact Hbd|]. cbv beta iota.
  assert (mig_Name o = mig_Name o0) as Hname by apply Hf. rewrite Hname.
  destruct (migrationPVCManifest _ _ _ _ _ _ _ _ _) as [desired|e] eqn:Hm.
  2: { apply wp_Ret. exists (mv_Activation d). split; [by left|done]. }
  unfold activateMigrationVolume. rewrite Hname. case_bool_decide as Hact.
  - apply wp_lift_then; [apply cutover_reads|auto with reads|]. intros e h' _. apply wp_Ret.
    exists (mv_Activation d). split; [by left|]. intros _. split; [|done]. symmetry. by apply set_activation_same.
  - eapply wp_mono; [eapply (wp_volume_pass o0 PhaseActivating _ ActivatedAt (activation_guard (mig_Name o0)) final_synced
      active_manifest o plan volume c binding d desired); try done|].
    + by exists plan.
    + intros hk [].
    + eapply wp_mono; [apply wp_ActivatePVC|]. intros [r e] hk _ (st & Hr & Hsv & Ha). cbn in *. intros ->.
      destruct (Ha eq_refl) as (p & now & _ & Hat & _). rewrite <- Hsv by done. by exists now.
    + intros [o' e] h' _ (st & Ho & Hok). exists st. cbn in *. split; [by right|]. auto.
Qed.

Lemma wp_activate_volumes volumes done o h :
  progress_inv o0 PhaseActivating ActivatedAt done o -> entered o0 PhaseActivating h ->
  (forall v, v ∈ volumes -> v ∈ plan_Volumes plan) ->
  (forall v, v ∈ plan_Volumes plan -> checkpoint_index o0 v ∈ done \/ v ∈ volumes) ->
  wpc (activate_volumes s deleting plan volumes o) (fun _ _ => True) h.
Proof.
  revert done o h. induction volumes as [|volume volumes IH]; intros done o h Hi Hen Hsub Hall.
  - eapply wp_pass_transition; [exact Hvalid|exact Hplan|left|done|exact Hi|].
    intros v Hv. destruct (Hall v Hv) as [?|Hn]; [done|]. by apply not_elem_of_nil in Hn.
  - cbn [activate_volumes]. apply wp_step_or_fail. pose proof Hi as (Hf & He & _).
    assert (volume ∈ plan_Volumes plan) as Hin by (apply Hsub; left).
    eapply wp_mono; [by apply wp_activate_volume|]. intros [o' [e|]] h' Hs (st & Ho & Hok); cbn in *.
    + apply wp_pass_fail; [destruct Ho as [->| ->]; [done|by apply frame_activation]|by destruct Ho as [->| ->]|done].
    + destruct (Hok eq_refl) as [-> Hst].
      apply (IH (checkpoint_index o volume :: done)).
      * apply progress_inv_step; [done| |done]. destruct (planned_bound volume Hin) as (c & b & Hb & _).
        destruct (frame_bound o0 o plan volume c b Hf Hb) as (d & _ & Hd & _). by exists d.
      * by eapply entered_mono.
      * intros v Hv. apply Hsub. by right.
      * intros v Hv. rewrite (frame_index o0 o volume Hf).
        destruct (Hall v Hv) as [?|[->|?]%elem_of_cons]; [left; by right|left; left|by right].
Qed.
End planned.

Lemma copied_plan : valid o0 -> copied_phase (eff o0) = true -> exists plan, mig_Plan o0 = Some plan.
Proof.
  intros Hv Hp. apply valid_late_plan; [done|..]; intros Heq; unfold eff in Hp; rewrite Heq in Hp; done.
Qed.

Lemma wp_ValidateActivation h :
  wpc (ValidateActivation s deleting o0) (fun e _ => e = None -> valid o0 /\ copied_phase (eff o0) = true) h.
Proof.
  unfold ValidateActivation. apply wp_check_Ret.
  destruct (validateClusterMigrationObject o0) as [e|] eqn:Hv; [done|]. cbv zeta. change (valid o0) in Hv.
  destruct (copied_phase (eff o0)) eqn:Hp.
  2: { unfold eff in Hp. by destruct (workflowResumePhase (mig_Status o0)). }
  destruct (copied_plan Hv Hp) as [plan Hplan].
  assert (forall b : bool, wpc (or_panic (mig_Plan o0) (fun plan =>
      try: candidates ← activation_candidates s deleting o0 plan (plan_Volumes plan);
      check: lift (validateMigrationPVCAdmission (plan_DestinationNamespace plan) (map fst candidates));
      if b then lift (VerifyActivationRecovery s (mig_Name o0) (map snd candidates))
      else lift (VerifyVolumesOfflineForSession s (mig_Name o0) (map snd candidates)))) (fun _ _ => True) h) as Hpre.
  { intros b. eapply wp_or_panic; [exact Hplan|]. cbv beta.
    apply wp_try. eapply wp_mono; [by eapply wp_activation_candidates|]. intros [l|e] h1 _ _; [|done].
    apply wp_lift_then; [apply cutover_reads|auto with reads|]. intros [e|] h2 _; [done|].
    destruct b; (apply wp_lift; [apply cutover_reads|auto with reads]). }
  pose proof (wp_verifyActiveVolumes plan Hv Hplan Hp h) as Hact.
  unfold eff in Hp.
  destruct (workflowResumePhase (mig_Status o0)) eqn:He; try discriminate Hp;
    (eapply wp_mono; [first [exact Hact|apply (Hpre (ws_Phase (mig_Status o0) =p PhaseFailed))|apply (Hpre true)]|done]).
Qed.

Lemma wp_activate h : wpc (activate s deleting o0) (fun _ _ => True) h.
Proof.
  unfold activate. apply wp_bind_2. eapply wp_mono; [apply wp_ValidateActivation|].
  intros [e|] h1 _ Hok; [done|]. destruct (Hok eq_refl) as [Hv Hp]. destruct (copied_plan Hv Hp) as [plan Hplan].
  cbv zeta. case_test; [done|].
  assert (forall next message, next ∈ [PhaseActivated; PhaseCompleted] -> eff o0 = next ->
    wpc (exec_transition false o0 next message) (fun _ _ => True) h1) as Htr.
  { intros next message Hn He. assert ((next =p PhaseFailed) = false) as Hnf.
    { apply elem_of_cons in Hn as [->|[->|Hn]%elem_of_cons]; [done|done|by apply not_elem_of_nil in Hn]. }
    apply wp_exec_transition; [apply cutover_reads|done| |done|done]. rewrite Hnf. intros st h' _ Hst.
    split; [apply frame_status, frame_refl|]. right. unfold eff at 1. cbn [set_status mig_Status]. rewrite Hst.
    split; [done|]. eapply (valid_all_activated plan); try done. by rewrite He. }
  destruct (workflowResumePhase (mig_Status o0) =p PhaseCompleted) eqn:Hc.
  { apply Htr; [right; left|by apply phase_eqb_true]. }
  destruct (workflowResumePhase (mig_Status o0) =p PhaseActivated) eqn:Ha.
  { apply Htr; [left|by apply phase_eqb_true]. }
  eapply wp_pass_enter; [exact Hplan|done|]. intros o h2 Hf He Hpl Hen. eapply wp_or_panic; [exact Hpl|].
  eapply (wp_activate_volumes plan Hv Hplan Hp _ []); [by apply progress_inv_start|done|done|by right].
Qed.

(** C6: the executor's cutover touches the cluster only when it may.  Whatever the
    server answers and whatever object it is given, [activate] writes only after a
    status in phase Activating was persisted for this plan, only for a planned volume
    that is reserved and copied to the end, and only what the switcher's own guard
    allows on its trace; every object it saves keeps the plan, the reservations and the
    copy results, and says Activated or Completed only when every volume is activated;
    and no nil dereference is reachable. *)
Theorem migration_cutover_gated {W} (server : handler (R := @xresp ClusterMigration) W) w :
  calls_ok cutover_guard [] (run server (activate s deleting o0) w []).2.
Proof. by apply (wp_adequate _ server _ _ w [] (wp_activate [])). Qed.
End cutover.

(** ** Rollback *)

Section rollback.
Context `{CR : ConflictRetry} `{QT : QuantityText} (s : Switcher) (deleting : bool) (o0 : ClusterMigration).

Definition reserved_volume (c : ClusterMigrationVolumeStatus) : Prop := rs_Reserved (mv_Reservation c) = true.

(** The claim to restore: the source claim bound to the source volume. *)
Definition restored_manifest (volume : VolumeSpec) (binding : PVCTransferBindings) (desired : PVC) : Prop :=
  pvc_Namespace desired = Namespace (SourcePVC binding) /\ pvc_Name desired = Name (SourcePVC binding) /\
  pvc_VolumeName desired = Name (SourcePV binding) /\
  mget (pvc_Annotations desired) SessionKey = mig_Name o0 /\
  mget (pvc_Annotations desired) RollbackPVAnnotation = Name (DestinationPV binding).

Definition restore_guard : xtrace -> xreq ClusterMigration -> Prop :=
  pass_guard o0 PhaseRollingBack [PhaseRolledBack] RolledBackAt
    (fun binding desired => rollback_guard (mig_Name o0) binding desired) reserved_volume restored_manifest.

Notation wpr := (wp restore_guard).

Lemma restore_reads h r : is_write r = false -> is_progress r = false -> restore_guard h (XKube r).
Proof. apply pass_reads. Qed.

Definition restorable_phase (phase : Phase) : bool :=
  match phase with
  | PhaseFinalSynced | PhaseActivating | PhaseActivated | PhaseResuming | PhaseCompleted
  | PhaseRollingBack | PhaseRolledBack => true
  | _ => false
  end.

Lemma restorable_late phase : restorable_phase phase = true -> early_phase phase = false.
Proof. by destruct phase. Qed.

Section planned.
Context (plan : ClusterMigrationPlan) (Hvalid : valid o0) (Hplan : mig_Plan o0 = Some plan).
Context (Hphase : restorable_phase (eff o0) = true).

Lemma restorable_bound volume :
  volume ∈ plan_Volumes plan ->
  exists c binding, bound_checkpoint o0 plan volume = Some (c, binding) /\ reserved_volume c.
Proof.
  intros Hin. destruct (valid_bound o0 plan volume Hvalid Hplan (restorable_late _ Hphase) Hin)
    as (c & binding & Hb & _ & _ & Hr & _). by exists c, binding.
Qed.

Lemma frame_checkpoint o volume :
  frame o0 o -> volume ∈ plan_Volumes plan -> exists d, checkpoint_of o volume = Some d.
Proof.
  intros Hf Hin. destruct (restorable_bound volume Hin) as (c & b & Hb & _).
  destruct (frame_bound o0 o plan volume c b Hf Hb) as (d & _ & Hd & _). by exists d.
Qed.

Lemma wp_verifyRestoredVolumes o h :
  frame o0 o -> wpr (verifyRestoredVolumes deleting o) (fun _ _ => True) h.
Proof.
  intros Hf. unfold verifyRestoredVolumes. assert (mig_Plan o = Some plan) as Hp.
  { rewrite <- Hplan. apply Hf. }
  eapply wp_or_panic; [exact Hp|].
  assert (forall v, v ∈ plan_Volumes plan -> v ∈ plan_Volumes plan) as Hsub by done.
  revert Hsub h. generalize (plan_Volumes plan) at 1 3. intros l. induction l as [|volume l IH]; intros Hsub h; [done|].
  destruct (frame_checkpoint o volume Hf) as [d Hd]; [apply Hsub; left|].
  eapply wp_or_panic; [exact Hd|]. cbv beta iota. apply wp_lift_then; [apply restore_reads|auto with reads|].
  intros [e|] h' _; [done|]. apply IH. intros v Hv. apply Hsub. by right.
Qed.

Lemma wp_rollback_candidate phase volume h :
  volume ∈ plan_Volumes plan -> wpr (rollback_candidate s deleting o0 plan phase volume) (fun _ _ => True) h.
Proof.
  intros Hin. unfold rollback_candidate. destruct (restorable_bound volume Hin) as (c & binding & Hb & _).
  assert (forall active B (k : exec (result B)), (forall h, wpr k (fun _ _ => True) h) -> forall h,
    wpr (check: lift (verifyActiveStorageVolume deleting (mig_Name o0) (SourcePVC binding)
           (plan_DestinationNamespace plan) (DestinationPV binding) active); k) (fun _ _ => True) h) as Hverify.
  { intros active B k Hk h'. apply wp_lift_then; [apply restore_reads|auto with reads|]. by intros [e|] h2 _. }
  eapply wp_or_panic; [exact Hb|]. cbv beta iota zeta. case_test.
  { apply wp_lift_then; [apply restore_reads|auto with reads|]. by intros [e|] h' _. }
  apply wp_try. eapply wp_mono with (Q := fun _ _ => True).
  { case_test; [|done]. apply wp_lift; [apply restore_reads|auto with reads]. }
  intros [[|]|e] h1 _ _; [done| |done]. case_test; [by apply Hverify|]. case_test; [|done].
  apply wp_lift_then; [apply restore_reads|auto with reads|]. intros [[[active|] found]|e] h2 _; [by apply Hverify|done|done].
Qed.

Lemma wp_rollback_candidates phase volumes h :
  (forall v, v ∈ volumes -> v ∈ plan_Volumes plan) ->
  wpr (rollback_candidates s deleting o0 plan phase volumes) (fun _ _ => True) h.
Proof.
  revert h. induction volumes as [|volume volumes IH]; intros h Hsub; [done|].
  apply wp_try. eapply wp_mono; [apply wp_rollback_candidate, Hsub; left|]. intros [c|e] h1 _ _; [|done].
  apply wp_try. eapply wp_mono; [apply IH; intros v Hv; apply Hsub; by right|]. by intros [l|e] h2 _ _.
Qed.

(** One volume of the rollback. *)
Lemma wp_rollback_volume o volume h :
  frame o0 o -> eff o = PhaseRollingBack -> volume ∈ plan_Volumes plan -> entered o0 PhaseRollingBack h ->
  wpr (rollback_volume s o plan volume)
    (fun r _ => exists st, r.1 = set_activation o (checkpoint_index o volume) st /\
                           (r.2 = None -> is_Some (RolledBackAt st))) h.
Proof.
  intros Hf He Hin Hen. destruct (restorable_bound volume Hin) as (c & binding & Hb & Hres).
  destruct (frame_bound o0 o plan volume c binding Hf Hb) as (d & Hbd & Hcd & _ & _).
  unfold rollback_volume. eapply wp_or_panic; [exact Hbd|]. cbv beta iota.
  assert (mig_Name o = mig_Name o0) as Hname by apply Hf. rewrite Hname.
  case_bool_decide as Hdone.
  { apply wp_Ret. exists (mv_Activation d). split; [|done]. symmetry. by apply set_activation_same. }
  cbv zeta. unfold rollbackMigrationVolume. rewrite Hname. set (desired := pvc_set_metadata _ _ _ _).
  eapply (wp_volume_pass o0 PhaseRollingBack _ RolledBackAt (fun b p => rollback_guard (mig_Name o0) b p)
    reserved_volume restored_manifest o plan volume c binding d desired); try done.
  - split_and!; try done; unfold desired; cbn -[mget].
    + by rewrite mget_insert_ne, mget_insert by done.
    + by rewrite mget_insert.
  - intros hk [].
  - eapply wp_mono; [apply wp_RollbackPVC|]. intros [r e] hk _ (st & Hr & Hsv & Hok & _). cbn in *. intros ->.
    destruct (Hok eq_refl) as (p & now & Hst & _). rewrite <- Hsv by done. rewrite Hst. by exists now.
Qed.

Lemma wp_rollback_volumes volumes done o h :
  progress_inv o0 PhaseRollingBack RolledBackAt done o -> entered o0 PhaseRollingBack h ->
  (forall v, v ∈ volumes -> v ∈ plan_Volumes plan) ->
  (forall v, v ∈ plan_Volumes plan -> checkpoint_index o0 v ∈ done \/ v ∈ volumes) ->
  wpr (rollback_volumes s deleting plan volumes o) (fun _ _ => True) h.
Proof.
  revert done o h. induction volumes as [|volume volumes IH]; intros done o h Hi Hen Hsub Hall;
    pose proof Hi as (Hf & He & _).
  - cbn [rollback_volumes]. apply wp_bind_2. eapply wp_mono; [by apply wp_verifyRestoredVolumes|].
    intros [e|] h1 _ _; [by apply wp_pass_fail|].
    eapply wp_pass_transition; [exact Hvalid|exact Hplan|left|done|exact Hi|].
    intros v Hv. destruct (Hall v Hv) as [?|Hn]; [done|]. by apply not_elem_of_nil in Hn.
  - cbn [rollback_volumes]. apply wp_step_or_fail.
    assert (volume ∈ plan_Volumes plan) as Hin by (apply Hsub; left).
    eapply wp_mono; [by apply wp_rollback_volume|]. intros [o' [e|]] h' Hs (st & Ho & Hok); cbn in *; subst o'.
    + apply wp_pass_fail; [by apply frame_activation|done|done].
    + apply (IH (checkpoint_index o volume :: done)).
      * apply progress_inv_step; [done| |by apply Hok].
        destruct (frame_checkpoint o volume Hf Hin) as [d Hd]. by exists d.
      * by eapply entered_mono.
      * intros v Hv. apply Hsub. by right.
      * intros v Hv. rewrite (frame_index o0 o volume Hf).
        destruct (Hall v Hv) as [?|[->|?]%elem_of_cons]; [left; by right|left; left|by right].
Qed.
End planned.

Lemma restorable_plan : valid o0 -> restorable_phase (eff o0) = true -> exists plan, mig_Plan o0 = Some plan.
Proof.
  intros Hv Hp. apply valid_late_plan; [done|..]; intros Heq; unfold eff in Hp; rewrite Heq in Hp; done.
Qed.

Lemma wp_ValidateRollback h :
  wpr (ValidateRollback s deleting o0) (fun e _ => e = None -> valid o0 /\ restorable_phase (eff o0) = true) h.
Proof.
  unfold ValidateRollback. apply wp_check_Ret.
  destruct (validateClusterMigrationObject o0) as [e|] eqn:Hv; [done|]. cbv zeta. change (valid o0) in Hv.
  destruct (restorable_phase (eff o0)) eqn:Hp.
  2: { unfold eff in Hp. by destruct (workflowResumePhase (mig_Status o0)). }
  destruct (restorable_plan Hv Hp) as [plan Hplan].
  assert (forall phase (b : bool), wpr (or_panic (mig_Plan o0) (fun plan =>
      try: offline ← rollback_candidates s deleting o0 plan phase (plan_Volumes plan);
      if b then lift (VerifyActivationRecovery s (mig_Name o0) offline)
      else lift (VerifyVolumesOfflineForSession s (mig_Name o0) offline))) (fun _ _ => True) h) as Hpre.
  { intros phase b. eapply wp_or_panic; [exact Hplan|]. cbv beta.
    apply wp_try. eapply wp_mono; [by eapply wp_rollback_candidates|]. intros [l|e] h1 _ _; [|done].
    destruct b; (apply wp_lift; [apply restore_reads|auto with reads]). }
  pose proof (wp_verifyRestoredVolumes plan Hv Hplan Hp o0 h (frame_refl o0)) as Hact.
  unfold eff in Hp.
  destruct (workflowResumePhase (mig_Status o0)) eqn:He; try discriminate Hp;
    (eapply wp_mono; [first [exact Hact|apply (Hpre _ true)|apply (Hpre _ false)]|done]).
Qed.

Lemma wp_destinations_unconsumed plan volumes h :
  wpr (destinations_unconsumed o0 plan volumes) (fun _ _ => True) h.
Proof.
  revert h. induction volumes as [|volume volumes IH]; intros h; [done|].
  cbn [destinations_unconsumed]. apply wp_lift_then; [apply restore_reads|auto with reads|].
  intros [e|] h' _; [done|]. apply IH.
Qed.

Lemma wp_rollback h : wpr (rollback s deleting o0) (fun _ _ => True) h.
Proof.
  unfold rollback. apply wp_bind_2. eapply wp_mono; [apply wp_ValidateRollback|].
  intros [e|] h1 _ Hok; [done|]. destruct (Hok eq_refl) as [Hv Hp]. destruct (restorable_plan Hv Hp) as [plan Hplan].
  cbv zeta. case_test; [done|]. apply wp_bind_2. eapply wp_mono with (Q := fun _ _ => True).
  { rewrite Hplan. case_test; [apply wp_destinations_unconsumed|done]. }
  intros [e|] h2 _ _; [done|].
  eapply wp_pass_enter; [exact Hplan|done|]. intros o h3 Hf He Hpl Hen. eapply wp_or_panic; [exact Hpl|].
  eapply (wp_rollback_volumes plan Hv Hplan Hp _ []); [by apply progress_inv_start|done|..].
  - intros v Hin. by apply list_elem_of_In, in_rev, list_elem_of_In.
  - intros v Hin. right. apply list_elem_of_In, in_rev. rewrite rev_involutive. by apply list_elem_of_In.
Qed.

(** C9: the executor's rollback restores only what it may.  Whatever the server
    answers and whatever object it is given, [rollback] writes only after a status in
    phase RollingBack was persisted for this plan, only for a planned, reserved volume,
    only to bring back the source claim on the source volume, and only what the
    switcher's guard allows; every object it saves keeps the plan, the reservations
    and the copy results, and says RolledBack only when every volume is rolled back;
    and no nil dereference is reachable. *)
Theorem migration_rollback_gated {W} (server : handler (R := @xresp ClusterMigration) W) w :
  calls_ok restore_guard [] (run server (rollback s deleting o0) w []).2.
Proof. by apply (wp_adequate _ server _ _ w [] (wp_rollback [])). Qed.
End rollback.

(** ** Rolled back into another namespace *)

Section elsewhere.
Context `{CR : ConflictRetry} `{QT : QuantityText} (s : Switcher) (deleting : bool).

(** A validated checkpoint records its claim in use in the destination namespace, also
    after a rollback. *)
Lemma checkpoint_active volume c dn tn :
  validate_checkpoint volume c dn tn PhaseRolledBack = None ->
  exists ref, ActivePVC (mv_Activation c) = Some ref /\ Namespace ref = dn.
Proof.
  unfold validate_checkpoint, validateMigrationVolumePhase, validateMigrationVolumeCheckpoint. intros Hc.
  repeat (case_test; try done). destruct (ActivePVC (mv_Activation c)) as [ref|].
  - exists ref. split; [done|]. apply orb_false_iff in Heqb2 as [[_ Hn]%orb_false_iff _].
    by apply negb_false_iff, String.eqb_eq in Hn.
  - exfalso. destruct (RolledBackAt (mv_Activation c)); [|done].
    rewrite orb_true_r in Heqb5. done.
Qed.

Lemma verifyRollback_elsewhere sid source pv ref :
  Namespace ref <> Namespace source ->
  exists e, verifyRollbackStorageVolume deleting sid source pv (Some ref) = Ret (Some e).
Proof.
  intros Hne. unfold verifyRollbackStorageVolume. case_test; [by eexists|]. apply String.eqb_neq in Hne.
  rewrite Hne. by eexists.
Qed.

(** C39: a finished cross-namespace rollback is refused by its own executor.  The
    validation wants the claim in use in the destination namespace, the check of a
    restored volume wants it in the source namespace: for every object that says
    RolledBack and whose plan has two different namespaces, [rollback], which has
    nothing left to do, returns an error and does not even ask the server. *)
Theorem cross_namespace_rollback_refused o plan :
  mig_Plan o = Some plan -> plan_SourceNamespace plan <> plan_DestinationNamespace plan ->
  workflowResumePhase (mig_Status o) = PhaseRolledBack ->
  exists e, rollback s deleting o = Ret (o, Some e).
Proof.
  intros Hplan Hne Hphase. unfold rollback, ValidateRollback.
  destruct (validateClusterMigrationObject o) as [e|] eqn:Hv; [by exists e|]. rewrite Hphase.
  change (valid o) in Hv. pose proof (valid_plan o plan Hv Hplan) as Hpl. unfold validate_plan in Hpl.
  unfold verifyRestoredVolumes. rewrite Hplan.
  destruct (plan_Volumes plan) as [|volume rest] eqn:Hvs; [done|]. clear Hpl.
  destruct (valid_checkpoint o plan volume Hv Hplan) as (c & Hc & _ & Hok); [by rewrite Hphase|rewrite Hvs; left|].
  rewrite Hphase in Hok. destruct (checkpoint_active _ _ _ _ Hok) as (ref & Href & Hns).
  cbn [or_panic]. rewrite Hvs, Hc. cbn [or_panic]. rewrite Href.
  edestruct (verifyRollback_elsewhere (mig_Name o)) as [e ->]; [|by exists e]. rewrite Hns. cbn. congruence.
Qed.
End elsewhere.
