(* ===== verification/CleanupSafety.v ===== *)
(** * Safety of the cleanup of a migration

    The cleanup executor composed of the preparation (MigrationCleanup), the release
    and reclaim of volumes (Reclaim) and the store: which writes reach the cluster,
    for which prepared volume, and what is saved. *)

From S2P Require Import Prelude Utf8 GoErrors Lifecycle PhaseMachines KubeTypes Prog Api ResourceState Ownership PVBinding NodeSelection GoFormat Quota PVCPolicy Reserver TransferPath Reclaim MigrationObject Offline Activation MigrationStorage MigrationCleanup CopyEngine Exec Executor CleanupExecutor SwitcherRules ReclaimSafety ObjectValidity ExecRules ExecutorRules.

(** ** Reads of the preparation *)

Lemma reads_prepare terminal owner phase sn tn planned checkpoint active delete :
  reads (prepareMigrationReclaimVolume terminal owner phase sn tn planned checkpoint active delete).
Proof.
  unfold prepareMigrationReclaimVolume, prepareReservedDestination, recoverReservationVolume, recoverReservationPV,
    resolvedSourcePolicy, validateSourceOwnershipRelease. cbv zeta. reads_tac.
Qed.

Lemma reads_release sid pvc pv policy : reads (validateSourceOwnershipRelease sid pvc pv policy).
Proof. unfold validateSourceOwnershipRelease. cbv zeta. reads_tac. Qed.

Lemma reads_inventory_all id namespaces : reads (inventory_all id namespaces).
Proof. induction namespaces as [|ns l IH]; [done|]. cbn [inventory_all]. unfold inventory_namespace. reads_tac. Qed.

Lemma reads_inventory id namespaces : reads (inventoryReservationPods id namespaces).
Proof. unfold inventoryReservationPods. cbv zeta. reads_tac. apply reads_inventory_all. Qed.

Lemma reads_protect volumes : reads (protectRetainedPVs volumes).
Proof. induction volumes as [|v l IH]; [done|]. cbn [protectRetainedPVs]. unfold protectRetainedPV. reads_tac. Qed.

Lemma reads_podOwner pod : reads (resolveCleanupPodOwner pod).
Proof. unfold resolveCleanupPodOwner, resolveCleanupReplicaSetOwner. reads_tac. Qed.

Lemma reads_validateReclaimVolume sid v finalize : reads (validateReclaimVolume sid v finalize).
Proof.
  unfold validateReclaimVolume, skipMissingReclaimPV, validateReclaimPVC, validateReclaimPV,
    inspectPVCUnusedWithOperations, blocked_by, validateDeletingPVClaim. cbv zeta.
  reads_tac; apply reads_podOwner.
Qed.

#[export] Hint Resolve reads_prepare reads_inventory reads_protect reads_validateReclaimVolume : reads.

(** ** What the preparation establishes *)

(** Recovery fills in identities; it never claims a reservation. *)
Definition identities_of (checkpoint st : ReservationStatus) : Prop :=
  rs_SourcePVCName st = rs_SourcePVCName checkpoint /\ rs_Reserved st = rs_Reserved checkpoint.

Lemma wp_recoverReservationVolume terminal id src dst checkpoint allow h :
  wp reads_only (recoverReservationVolume terminal id src dst checkpoint allow)
    (on_val (fun st _ => identities_of checkpoint st)) h.
Proof.
  apply wp_check_Ret. destruct (validateReservationRecoveryRequest _ _ _ _); [done|].
  apply wp_bind_2, wp_call; [apply reads_only_ok|done|done|]. intros [pvc|e].
  2: { case_test; [|done]. by intros st [= <-]. }
  cbv zeta. do 2 (wp_if; [done|]). wp_if; [by intros st [= <-]|]. apply wp_try.
  apply (wp_mono _ _ (fun _ _ => True)); [unfold recoverReservationPV; wp_reads reads_only_ok|].
  intros [[[pv policy]|]|e] h'' _ _; [by intros st [= <-]|by intros st [= <-]|done].
Qed.

Lemma wp_prepared_identities terminal id src dst uid checkpoint delete h :
  wp reads_only (prepareReservedDestination terminal id src dst uid checkpoint delete)
    (on_val (fun p _ => identities_of checkpoint p.1)) h.
Proof.
  apply wp_try. eapply wp_mono; [apply wp_recoverReservationVolume|].
  intros [r|e] h2 _ Hr; [|done]. case_test; [done|]. intros p [= <-]. by apply Hr.
Qed.

Lemma wp_recovered terminal owner phase sn tn planned checkpoint active delete h :
  wp reads_only (prepareMigrationReclaimVolume terminal owner phase sn tn planned checkpoint active delete)
    (on_val (fun p _ => identities_of checkpoint p.1)) h.
Proof.
  unfold prepareMigrationReclaimVolume. cbv zeta. apply wp_try. eapply wp_mono; [apply wp_probe|].
  intros [d|e] h1 _ _; [|done]. apply wp_try.
  apply (wp_mono _ _ (on_val (fun p _ => identities_of checkpoint p.1))).
  { wp_if; [apply wp_prepared_identities|by intros p [= <-]]. }
  intros [[st dst]|e] h2 _ Hp; [|done]. specialize (Hp _ eq_refl). cbn [fst] in Hp.
  apply wp_bind_2. eapply wp_mono; [apply wp_resolvedPolicy|]. intros policy h3 _ _.
  apply wp_check. apply (wp_mono _ _ (fun _ _ => True)); [wp_if; [apply wp_release|done]|].
  intros [e|] h4 _ _; [done|]. by intros p [= <-].
Qed.

(** The Pods of the inventory are the workflow's own, as listed. *)
Definition listed_own (sid : string) (ref : ObjectReference) (h : trace) : Prop :=
  exists ns pods pod, Ev (ListPodsMatching ns (reservationPodSelector sid)) (inl (Some pods)) ∈ h /\
    pod ∈ pods /\ own_consumer_pod sid pod = true /\ ref = pod_reference ns pod.

Lemma wp_inventory_all sid namespaces h :
  wp reads_only (inventory_all sid namespaces)
    (fun rs h' => forall refs ref, inl refs ∈ rs -> ref ∈ refs -> listed_own sid ref h') h.
Proof.
  revert h. induction namespaces as [|ns l IH]; intros h.
  { intros refs ref Hin. by apply not_elem_of_nil in Hin. }
  cbn [inventory_all]. unfold inventory_namespace. apply wp_bind_2, wp_bind_2, wp_call; [apply reads_only_ok|done|done|].
  intros x. apply wp_Ret, wp_bind_2. eapply wp_mono; [apply IH|]. intros rs h' Hs Hrs. apply wp_Ret.
  intros refs ref [Heq|Hin]%elem_of_cons Href; [|by eapply Hrs].
  destruct x as [[pods|]|e]; [|done|by case_test; simplify_eq; apply not_elem_of_nil in Href].
  destruct (forallb (own_consumer_pod sid) pods) eqn:Hf; [|done]. injection Heq as ->.
  apply list_elem_of_fmap in Href as (pod & -> & Hp). exists ns, pods, pod. split_and!; [|done| |done].
  - eapply suffix_elem; [exact Hs|]. left.
  - rewrite forallb_forall in Hf. by apply Hf, list_elem_of_In.
Qed.

Lemma concat_results_inl rs refs ref :
  concat_results rs = inl refs -> ref ∈ refs -> exists l, inl l ∈ rs /\ ref ∈ l.
Proof.
  revert refs. induction rs as [|[l|e] rs IH]; intros refs; cbn; [|destruct (foldr _ _ rs) as [more|e] eqn:Hf|done].
  - intros [= <-] Hin. by apply not_elem_of_nil in Hin.
  - intros [= <-] [Hin|Hin]%elem_of_app; [exists l; split; [left|done]|].
    destruct (IH more Hf Hin) as (l' & Hl & Hr). exists l'. split; [by right|done].
  - done.
Qed.

Lemma wp_inventory sid namespaces h :
  wp reads_only (inventoryReservationPods sid namespaces)
    (on_val (fun refs h' => forall ref, ref ∈ refs -> listed_own sid ref h')) h.
Proof.
  unfold inventoryReservationPods. cbv zeta. case_test; [done|]. apply wp_bind_2.
  eapply wp_mono; [apply wp_inventory_all|]. intros rs h' _ Hrs. apply wp_Ret. intros refs Hc ref Hin.
  destruct (concat_results_inl _ _ _ Hc Hin) as (l & Hl & Hr). by eapply Hrs.
Qed.

(** Protection changes the policy of volumes that are kept, and nothing else. *)
Definition protects (v v' : reclaimVolume) : Prop :=
  v' = v \/ (rv_delete v = false /\ v' = rv_set_policy v (policy_string ReclaimRetain)).

Lemma wp_protect volumes h :
  wp reads_only (protectRetainedPVs volumes) (on_val (fun vs _ => Forall2 protects volumes vs)) h.
Proof.
  revert h. induction volumes as [|v l IH]; intros h; [by intros vs [= <-]|].
  cbn [protectRetainedPVs]. apply wp_try. apply (wp_mono _ _ (on_val (fun v' _ => protects v v'))).
  - unfold protectRetainedPV. destruct (rv_delete v) eqn:Hd; cbn [orb]; [intros v' [= <-]; by left|].
    case_test; [intros v' [= <-]; by left|]. case_test; [intros v' [= <-]; right; done|].
    apply wp_bind_2, wp_call; [apply reads_only_ok|done|done|]. intros [p|e] v'.
    + destruct (pvc_DeletionTimestamp p); intros [= <-]; [right; done|by left].
    + case_test; [|done]. intros [= <-]. right. done.
  - intros [v'|e] h1 _ Hv; [|done]. apply wp_try. eapply wp_mono; [apply IH|]. intros [vs|e] h2 _ Hvs; [|done].
    intros out [= <-]. constructor; [by apply Hv|by apply Hvs].
Qed.

(** ** Writes of the cleanup *)

(** The workflow's own Pods, fenced and conditioned as listed. *)
Definition consumer_guard (pods : list ObjectReference) (h : trace) (r : req) : Prop :=
  match r with
  | DeletePod ns name uid rv =>
      just_fenced h /\ exists ref, ref ∈ pods /\ ns = Namespace ref /\ name = Name ref /\ uid = UID ref /\
        rv = Some (ResourceVersion ref)
  | r => is_write r = false
  end.

(** A source that was never reserved: the annotation of its claim, the marks and the
    policy of its volume. *)
Definition release_guard (sid : string) (pvc pv : ObjectReference) (h : trace) (r : req) : Prop :=
  claim_update_guard pvc (fun p p' => mget (pvc_Annotations p) SessionKey = sid /\ p' = released p) h r \/
  exists policy, reclaim_guard sid (retained_source pvc pv policy) true h r.

Section writes.
Context `{CR : ConflictRetry} (polls : nat).

Lemma consumer_reads pods : reads_ok (consumer_guard pods).
Proof. intros h r Hw _. by destruct r. Qed.

Lemma wp_fence_check {A} `{FromErr A} G (k : kube A) (Q : A -> trace -> Prop) h :
  reads_ok G -> (forall e h', Q (from_err e) h') ->
  (forall h', just_fenced h' -> h `suffix_of` h' -> wp G k Q h') ->
  wp G (check: checkpointFenceError; k) Q h.
Proof.
  intros HG He Hk. apply wp_check. apply wp_step; [by apply HG|]. intros [e|]; [apply He|].
  apply wp_call; [apply HG|done|done|]. intros [e|]; [apply He|].
  apply Hk; [by eexists|]. by do 2 apply suffix_cons_r.
Qed.

Lemma wp_consumers pods all h :
  (forall ref, ref ∈ pods -> ref ∈ all) ->
  wp (consumer_guard all) (deleteReservationConsumers polls pods) (fun _ _ => True) h.
Proof.
  revert h. induction pods as [|pod pods IH]; intros h Hsub; [done|]. cbn [deleteReservationConsumers].
  apply wp_fence_check; [apply consumer_reads|done|]. intros h1 Hf _.
  apply wp_step.
  { split; [done|]. exists pod. split_and!; try done. apply Hsub. left. }
  intros d. apply wp_check_Ret. destruct (match d with Some _ => _ | None => _ end); [done|].
  apply wp_fence_check; [apply consumer_reads|done|]. intros h2 _ _.
  apply wp_check, wp_bind_2.
  eapply wp_mono; [apply (wp_WaitFor _ (consumer_reads all) _ _ _ _ (fun _ _ => True))|].
  - intros h3 _. wp_reads (consumer_reads all).
  - intros [x|e] h3 _ _; [|done]. apply IH. intros ref Hr. apply Hsub. by right.
Qed.

Lemma release_reads sid pvc pv : reads_ok (release_guard sid pvc pv).
Proof. intros h r Hw Hp. left. by apply claim_update_reads. Qed.

Lemma wp_releaseSource sid pvc pv policy h :
  wp (release_guard sid pvc pv) (releaseSourceOwnership sid pvc pv policy) (fun _ _ => True) h.
Proof.
  unfold releaseSourceOwnership. case_test; [done|]. pose proof (release_reads sid pvc pv) as HG.
  apply wp_check. eapply wp_mono; [apply wp_of_reads; [done|apply reads_release]|]. intros [e|] h1 _ _; [done|].
  apply wp_check. eapply wp_mono; [eapply wp_guard_mono; [apply wp_ReleasePVC|by left]|]. intros [e|] h2 _ _; [done|].
  apply wp_bind_2, wp_call; [done|done|done|]. intros [v|e]; [|by case_test].
  do 3 (case_test; [done|]). apply wp_try.
  set (kept := retained_source pvc pv _).
  eapply wp_mono with (Q := on_val (fun vs _ => Forall2 protects [kept] vs)).
  { eapply wp_guard_mono; [apply wp_protect|]. intros h' r _ Hr. left. by destruct r. }
  intros [vs|e] h3 _ Hvs; [|done]. specialize (Hvs vs eq_refl). inversion Hvs as [|? v' ? l Hv Hl]; subst.
  assert (exists p, v' = retained_source pvc pv p) as [p ->] by (destruct Hv as [->|[_ ->]]; by eexists).
  eapply wp_mono; [eapply wp_guard_mono; [apply (wp_finalizeActivePV sid (retained_source pvc pv p) true); done|]|done].
  intros h' r _ Hr. right. by exists p.
Qed.
End writes.

(** ** Histories of executors *)

Lemma wp_and {E : Type} {R : E -> Type} {A} G G' (p : prog E R A) (Q Q' : A -> history R -> Prop) h :
  wp G p Q h -> wp G' p Q' h -> wp G p (fun a h' => Q a h' /\ Q' a h') h.
Proof.
  revert h. induction p as [a| |r k IH]; intros h; [done|done|]. intros [HG Hk] [_ Hk'].
  split; [done|]. intros x. by apply IH.
Qed.
Section histories.
Context {Obj : Type}.
Implicit Types h : xtraceOf Obj.

(** A history of a component inside the executor's. *)
Definition seen (hk : trace) h : Prop := forall e, e ∈ hk -> lift_event e ∈ h.

Lemma seen_mono hk h h' : h `suffix_of` h' -> seen hk h -> seen hk h'.
Proof. intros [k ->] Hs e He. apply elem_of_app. right. by apply Hs. Qed.

Lemma seen_lifted hk h : seen hk (map lift_event hk ++ h).
Proof. intros e He. apply elem_of_app. left. by apply list_elem_of_fmap_2. Qed.

Definition no_writes h : Prop := forall r x, Ev (XKube r) x ∈ h -> is_write r = false.

Lemma no_writes_nil : no_writes [].
Proof. intros r x Hin. by apply not_elem_of_nil in Hin. Qed.

Lemma no_writes_read (r : req) x h : is_write r = false -> no_writes h -> no_writes (@Ev _ (@xresp Obj) (XKube r) x :: h).
Proof. intros Hr Hh r' x' [He|Hin]%elem_of_cons; [|by eapply Hh]. assert (r' = r) as -> by (by injection He). done. Qed.

(** A read-only program keeps a history without writes. *)
Lemma wp_lift_reads {A} G (K : trace -> req -> Prop) (p : kube A) (Q : A -> trace -> Prop) hk h :
  (forall h r, is_write r = false -> G h (XKube r)) ->
  reads p -> wp K p Q hk -> no_writes (map lift_event hk ++ h) ->
  wp G (lift p) (fun a h' => no_writes h' /\ exists hk', h' = map lift_event hk' ++ h /\ Q a hk')
    (map lift_event hk ++ h).
Proof.
  intros HG. revert hk. induction p as [a| |r k IH]; intros hk; [|done|].
  - intros _ HQ Hn. split; [done|]. by exists hk.
  - intros [[Hw Hp] Hr] [_ Hk] Hn. split; [by apply HG|]. intros x. apply (IH x (Ev r x :: hk)); [done|done|].
    by apply no_writes_read.
Qed.
End histories.

(** Protection keeps what is known of the volumes to delete. *)
Lemma protected_disposable (P : reclaimVolume -> Prop) l l' v :
  Forall2 protects l l' -> (forall u, u ∈ l -> rv_delete u = true -> P u) -> v ∈ l' -> rv_delete v = true -> P v.
Proof.
  intros Hf HP (i & Hi)%list_elem_of_lookup Hd. destruct (Forall2_lookup_r _ _ _ _ _ Hf Hi) as (u & Hu & [->|[Hk ->]]).
  - apply HP; [by eapply list_elem_of_lookup_2|done].
  - cbn in Hd. congruence.
Qed.

(** ** Steps shared by every cleanup *)

Section shared.
Context `{CR : ConflictRetry} {Obj : Type} (polls : nat).
Context (G : xtraceOf Obj -> xreq Obj -> Prop) (HG : forall h r, is_write r = false -> G h (XKube r)).
Implicit Types h : xtraceOf Obj.

Lemma wp_unwritten {A} (p : kube A) h : reads p -> no_writes h -> wp G (lift p) (fun _ h' => no_writes h') h.
Proof.
  intros Hp Hn. eapply wp_mono; [apply (wp_lift_reads _ (fun _ _ => True) _ (fun _ _ => True) [] h HG Hp);
    [by apply wp_of_reads|done]|]. by intros a h' _ [? _].
Qed.

Lemma wp_validate_volumes sid finalize volumes h :
  no_writes h -> wp G (validate_volumes sid finalize volumes) (fun _ h' => no_writes h') h.
Proof.
  revert h. induction volumes as [|v l IH]; intros h Hn; [done|]. cbn [validate_volumes]. apply wp_check.
  eapply wp_mono; [apply wp_unwritten; [auto with reads|done]|]. intros [e|] h' _ Hn'; [done|]. by apply IH.
Qed.

Lemma wp_consumer_pods sid pods h :
  (forall hk r, consumer_guard pods hk r -> (forall ref, ref ∈ pods -> exists hk', seen hk' h /\ listed_own sid ref hk') ->
     G (map lift_event hk ++ h) (XKube r)) ->
  (forall ref, ref ∈ pods -> exists hk, seen hk h /\ listed_own sid ref hk) ->
  wp G (lift (deleteReservationConsumers polls pods)) (fun _ _ => True) h.
Proof.
  intros HK Hpods. eapply wp_mono; [apply (wp_lift_guard _ (consumer_guard pods) _ (fun _ _ => True) [] h)|done].
  - intros hk r Hr. by apply HK.
  - by apply wp_consumers.
Qed.

Lemma wp_reclaim_volumes sid finalize volumes h :
  (forall v hk h' r, v ∈ volumes -> h `suffix_of` h' -> reclaim_guard sid v finalize hk r ->
     G (map lift_event hk ++ h') (XKube r)) ->
  wp G (reclaim_volumes polls sid finalize volumes) (fun _ _ => True) h.
Proof.
  revert h. induction volumes as [|v l IH]; intros h HK; [done|]. cbn [reclaim_volumes]. apply wp_check.
  eapply wp_mono; [apply (wp_lift_guard _ (reclaim_guard sid v finalize) _ (fun _ _ => True) [] h)|].
  - intros hk r Hr. eapply (HK v); [left|done|done].
  - apply wp_reclaimStorageVolume.
  - intros [e|] h' Hs _; [done|]. apply IH. intros u hk h'' r Hu Hs' Hr. eapply (HK u); [by right|by etrans|done].
Qed.

(** Saved before any write. *)
Lemma wp_persist_unwritten o h :
  (forall h', no_writes h' -> G h' (XSave o)) -> no_writes h -> wp G (persist false o) (fun _ _ => True) h.
Proof.
  intros Hsave Hn. unfold persist, checkpoint_fence. apply wp_check, wp_bind_2.
  split; [by apply HG|]. intros [e|]; [done|]. apply wp_Ret, wp_bind_2.
  split; [by apply HG|]. intros [e|]; [done|]. apply wp_Ret, wp_Ret. apply wp_check.
  split; [apply Hsave; by do 2 (apply no_writes_read; [done|])|].
  intros [e|]; [done|]. apply wp_Ret. cbv beta iota. apply wp_bind_2.
  split; [by apply HG|]. intros [e|]; [done|]. apply wp_Ret, wp_bind_2.
  split; [by apply HG|]. intros [e|]; done.
Qed.

Lemma wp_delete_session held o h :
  (forall h', G h' XDeleteLock) -> (forall h', G h' (XDeleteStored o)) ->
  wp G (delete_session held o) (fun _ _ => True) h.
Proof.
  intros Hl Hs. unfold delete_session. apply wp_bind_2. eapply wp_mono with (Q := fun _ _ => True).
  { destruct held; [|done]. by split. }
  intros [e|] h' _ _; [done|]. apply wp_bind_2. by split.
Qed.
End shared.

(** ** The executor *)

Section executor.
Context `{CR : ConflictRetry} `{QT : QuantityText} (polls : nat) (terminal held : bool).
Context (o0 : ClusterMigration) (options : MigrationCleanupOptions).

Definition finished_phase (p : Phase) : bool :=
  match p with PhaseCompleted | PhaseRolledBack | PhaseAborted => true | _ => false end.

(** The checkpoint of a planned volume when the cleanup starts. *)
Definition recorded (plan : ClusterMigrationPlan) (volume : VolumeSpec) (c : ClusterMigrationVolumeStatus) : Prop :=
  exists i, clusterMigrationVolumeIndexes (cleanup_checkpoints o0 plan) !! planned_name volume = Some i /\
    cleanup_checkpoints o0 plan !! i = Some c.

(** A volume that may be deleted: the unused copy of a planned volume, by what was
    read during the preparation. *)
Definition disposable (plan : ClusterMigrationPlan) (v : reclaimVolume) (h : xtrace) : Prop :=
  exists volume c hk, volume ∈ plan_Volumes plan /\ recorded plan volume c /\ seen hk h /\
    deletable (eff o0) (plan_SourceNamespace plan) volume (mv_Reservation c) (ActivePVC (mv_Activation c))
      (DeletesUnusedStorage (cleanup_policy plan options)) v hk.

Inductive cleanup_write (plan : ClusterMigrationPlan) (r : req) : xtrace -> Prop :=
| write_consumer pods hk h :
    (forall ref, ref ∈ pods -> exists hk', seen hk' h /\ listed_own (mig_Name o0) ref hk') ->
    consumer_guard pods hk r -> cleanup_write plan r (map lift_event hk ++ h)
| write_release volume c hk h :
    eff o0 = PhaseAborted -> volume ∈ plan_Volumes plan -> recorded plan volume c ->
    rs_Reserved (mv_Reservation c) = false -> ActivePVC (mv_Activation c) = None ->
    release_guard (mig_Name o0) (qualifiedResourceReference (vs_SourcePVC volume) (plan_SourceNamespace plan))
      (qualifiedResourceReference (vs_SourcePV volume) "") hk r ->
    cleanup_write plan r (map lift_event hk ++ h)
| write_reclaim v hk h :
    (rv_delete v = true -> disposable plan v h) ->
    reclaim_guard (mig_Name o0) v (Finalize options) hk r -> cleanup_write plan r (map lift_event hk ++ h).

(** Only recovered identities of destinations are new. *)
Definition recovered_from (c c' : ClusterMigrationVolumeStatus) : Prop :=
  volume_name c' = volume_name c /\ rs_Reserved (mv_Reservation c') = rs_Reserved (mv_Reservation c) /\
  mv_Sync c' = mv_Sync c /\ mv_Activation c' = mv_Activation c.

Definition same_workflow (o : ClusterMigration) : Prop := exists volumes, o = set_volumes o0 volumes.

Definition session_deletable : Prop :=
  DeleteSession options = true /\ Finalize options = true /\ (is_Some (mig_Plan o0) -> finished_phase (eff o0) = true).

Definition cleanup_guard (h : xtrace) (q : xreq ClusterMigration) : Prop :=
  match q with
  | XKube r =>
      is_write r = true ->
      finished_phase (eff o0) = true /\ exists plan, mig_Plan o0 = Some plan /\ cleanup_write plan r h
  | XSave o =>
      no_writes h /\
      exists plan volumes, mig_Plan o0 = Some plan /\ o = set_volumes o0 volumes /\
        Forall2 recovered_from (cleanup_checkpoints o0 plan) volumes
  | XDetachedErr => True
  | XDeleteLock => session_deletable
  | XDeleteStored o => session_deletable /\ same_workflow o
  | XService _ | XPanic => False
  end.

Notation wpc := (wp cleanup_guard).

Lemma cleanup_reads h r : is_write r = false -> cleanup_guard h (XKube r).
Proof. intros Hr. cbn. by rewrite Hr. Qed.

Lemma recovered_refl l : Forall2 recovered_from l l.
Proof. apply Forall_Forall2_diag, Forall_true. done. Qed.

Section planned.
Context (plan : ClusterMigrationPlan) (Hvalid : valid o0) (Hplan : mig_Plan o0 = Some plan).

Notation start := (cleanup_checkpoints o0 plan).
Notation indexes := (clusterMigrationVolumeIndexes start).
Notation deleteUnused := (DeletesUnusedStorage (cleanup_policy plan options)).

Definition untouched (rest : list VolumeSpec) (preview : list ClusterMigrationVolumeStatus) : Prop :=
  forall volume i, volume ∈ rest -> indexes !! planned_name volume = Some i -> preview !! i = start !! i.

Lemma indexes_distinct a b i j :
  planned_name a <> planned_name b -> indexes !! planned_name a = Some i -> indexes !! planned_name b = Some j -> i <> j.
Proof.
  intros Hne Ha Hb ->. apply indexes_sound in Ha as (c & Hc & Hn). apply indexes_sound in Hb as (d & Hd & Hm).
  congruence.
Qed.

Lemma recovered_alter preview i c st :
  Forall2 recovered_from start preview -> start !! i = Some c ->
  rs_SourcePVCName st = rs_SourcePVCName (mv_Reservation c) -> rs_Reserved st = rs_Reserved (mv_Reservation c) ->
  Forall2 recovered_from start (set_reservation preview i st).
Proof.
  intros Hf Hi Hn Hr. apply Forall2_alter_r; [done|]. intros x y Hx Hy (H1 & H2 & H3 & H4).
  rewrite Hi in Hx. injection Hx as ->. by split_and!.
Qed.

Definition prepared_ok (planned : list VolumeSpec) (r : list ClusterMigrationVolumeStatus * list reclaimVolume)
    (h : xtrace) : Prop :=
  Forall2 recovered_from start r.1 /\
  (forall volume, volume ∈ planned -> is_Some (indexes !! planned_name volume)) /\
  (forall v, v ∈ r.2 -> rv_delete v = true -> disposable plan v h).

Lemma disposable_mono v h h' : h `suffix_of` h' -> disposable plan v h -> disposable plan v h'.
Proof.
  intros Hs (volume & c & hk & H1 & H2 & H3 & H4). exists volume, c, hk.
  split_and!; [done|done|by eapply seen_mono|done].
Qed.

Lemma wp_prepare_volume volume c i h :
  volume ∈ plan_Volumes plan -> indexes !! planned_name volume = Some i -> start !! i = Some c -> no_writes h ->
  wpc (prepare_volume terminal o0 plan deleteUnused volume c)
    (fun r h' => no_writes h' /\ h `suffix_of` h' /\ forall st vs, r = inl (st, vs) ->
       rs_SourcePVCName st = rs_SourcePVCName (mv_Reservation c) /\ rs_Reserved st = rs_Reserved (mv_Reservation c) /\
       forall v, v ∈ vs -> rv_delete v = true -> disposable plan v h') h.
Proof.
  intros Hin Hi Hc Hn. unfold prepare_volume.
  eapply wp_mono; [apply (wp_lift_reads _ _ _ _ [] h cleanup_reads (reads_prepare _ _ _ _ _ _ _ _ _)
    (wp_and _ _ _ _ _ _ (wp_prepareMigrationReclaimVolume _ _ _ _ _ _ _ _ _ []) (wp_recovered _ _ _ _ _ _ _ _ _ [])) Hn)|].
  intros r h' _ (Hn' & hk & -> & Hpost & Hrec). split; [done|]. split; [by exists (map lift_event hk)|].
  intros st vs ->. destruct (Hrec _ eq_refl) as [H1 H2]. split_and!; [done|done|].
  intros v Hv Hd. exists volume, c, hk. split_and!; [done|by exists i|apply seen_lifted|].
  by apply (Hpost st vs v).
Qed.

Lemma wp_prepare_volumes planned preview h :
  (forall v, v ∈ planned -> v ∈ plan_Volumes plan) -> NoDup (map planned_name planned) ->
  untouched planned preview -> Forall2 recovered_from start preview -> no_writes h ->
  wpc (prepare_volumes terminal o0 plan deleteUnused indexes planned preview)
    (fun r h' => no_writes h' /\ forall p, r = inl p -> prepared_ok planned p h') h.
Proof.
  revert preview h. induction planned as [|volume planned IH]; intros preview h Hsub Hnd Hun Hf Hn.
  { apply wp_Ret. split; [done|]. intros p [= <-]. split_and!; [done|..]; intros v Hv; by apply not_elem_of_nil in Hv. }
  cbn [prepare_volumes]. destruct (indexes !! planned_name volume) as [i|] eqn:Hi; [|done].
  destruct (indexes_sound _ _ _ Hi) as (c & Hc & _).
  assert (preview !! i = Some c) as Hpi by (rewrite <- Hc; apply (Hun volume); [left|done]).
  rewrite Hpi. cbn [or_panic]. apply wp_try. cbn in Hnd. apply NoDup_cons in Hnd as [Hnew Hnd].
  eapply wp_mono; [apply (wp_prepare_volume volume c i); [apply Hsub; left|done|done|done]|].
  intros [[st vs]|e] h1 _ (Hn1 & Hs1 & Hr); [|split; [done|by intros p]]. destruct (Hr st vs eq_refl) as (Hname & Hres & Hd).
  apply wp_try. cbn [fst snd]. eapply wp_mono; [apply (IH (set_reservation preview i st) h1)|].
  - intros v Hv. apply Hsub. by right.
  - done.
  - intros u j Hu Hj. unfold set_reservation. rewrite list_lookup_alter_ne; [apply (Hun u); [by right|done]|].
    eapply indexes_distinct; [|exact Hi|exact Hj]. intros Heq. apply Hnew. rewrite Heq. by apply list_elem_of_fmap_2.
  - by eapply recovered_alter.
  - done.
  - intros [[preview' more]|e] h2 Hs2 (Hn2 & Hp); [|split; [done|by intros p]].
    destruct (Hp _ eq_refl) as (Hf' & Hix & Hmore). apply wp_Ret. split; [done|]. intros p [= <-]. split_and!; [done|..].
    + intros u [->|Hu]%elem_of_cons; [by rewrite Hi|by apply Hix].
    + intros v [Hv|Hv]%elem_of_app Hdel; [|by apply Hmore]. eapply disposable_mono; [exact Hs2|]. by apply Hd.
Qed.

(** What a successful preparation hands on. *)
Definition preparation (preview : ClusterMigration) (volumes : list reclaimVolume) (pods : list ObjectReference)
    (h : xtrace) : Prop :=
  finished_phase (eff o0) = true /\
  (exists checkpoints, preview = set_volumes o0 checkpoints /\ Forall2 recovered_from start checkpoints) /\
  (forall volume, volume ∈ plan_Volumes plan -> is_Some (indexes !! planned_name volume)) /\
  (forall v, v ∈ volumes -> rv_delete v = true -> disposable plan v h) /\
  (forall ref, ref ∈ pods -> exists hk, seen hk h /\ listed_own (mig_Name o0) ref hk).

Lemma wp_prepare_plan h :
  finished_phase (eff o0) = true -> no_writes h ->
  wpc (try: prepared ← prepare_volumes terminal o0 plan deleteUnused indexes (plan_Volumes plan) start;
       try: pods ← lift (inventoryReservationPods (mig_Name o0) [plan_TemporaryNamespace plan]);
       try: volumes ← lift (protectRetainedPVs prepared.2);
       check: validate_volumes (mig_Name o0) (Finalize options) volumes;
       Ret (inl (set_volumes o0 prepared.1, volumes, pods)))
    (fun r h' => no_writes h' /\ forall preview volumes pods, r = inl (preview, volumes, pods) ->
       preparation preview volumes pods h') h.
Proof.
  intros Hfin Hn. apply wp_try. eapply wp_mono; [apply wp_prepare_volumes|].
  1-5: try done. { by eapply valid_plan_NoDup. } { apply recovered_refl. }
  intros [[checkpoints vs]|e] h1 _ (Hn1 & Hp); [|split; [done|by intros]].
  destruct (Hp _ eq_refl) as (Hf & Hix & Hd). cbn [fst snd] in *. apply wp_try.
  eapply wp_mono; [apply (wp_lift_reads _ _ _ _ [] h1 cleanup_reads (reads_inventory _ _) (wp_inventory _ _ []) Hn1)|].
  intros [pods|e] h2 Hs2 (Hn2 & hk & Hh2 & Hpods); [|split; [done|by intros]].
  apply wp_try.
  eapply wp_mono; [apply (wp_lift_reads _ _ _ _ [] h2 cleanup_reads (reads_protect _) (wp_protect _ []) Hn2)|].
  intros [volumes|e] h3 Hs3 (Hn3 & hk3 & _ & Hprot); [|split; [done|by intros]]. specialize (Hprot _ eq_refl).
  apply wp_check. eapply wp_mono; [by apply (wp_validate_volumes _ cleanup_reads)|]. intros [e|] h4 Hs4 Hn4; [split; [done|by intros]|].
  apply wp_Ret. split; [done|]. intros ? ? ? [= <- <- <-]. split_and!; [done|by exists checkpoints|done|..].
  - intros v Hv Hdel. eapply disposable_mono; [etrans; [exact Hs2|by etrans]|].
    exact (protected_disposable (fun u => disposable plan u h1) _ _ v Hprot Hd Hv Hdel).
  - intros ref Href. exists hk. split; [|by apply (Hpods pods)]. apply (seen_mono hk h2); [by etrans|].
    rewrite Hh2. apply seen_lifted.
Qed.

Lemma set_volumes_same o : set_volumes o (mig_Volumes o) = o.
Proof. by destruct o. Qed.

(** *** The writes *)

Lemma wp_release_sources checkpoints volumes h :
  finished_phase (eff o0) = true -> eff o0 = PhaseAborted -> Forall2 recovered_from start checkpoints ->
  (forall volume, volume ∈ plan_Volumes plan -> is_Some (indexes !! planned_name volume)) ->
  (forall v, v ∈ volumes -> v ∈ plan_Volumes plan) ->
  wpc (release_sources (set_volumes o0 checkpoints) plan volumes) (fun _ _ => True) h.
Proof.
  intros Hfin Hab Hf Hix. revert h. induction volumes as [|volume l IH]; intros h Hsub; [done|].
  cbn [release_sources]. destruct (Hix volume) as [i Hi]; [apply Hsub; left|].
  destruct (indexes_sound _ _ _ Hi) as (c & Hc & _).
  destruct (Forall2_lookup_l _ _ _ _ _ Hf Hc) as (c' & Hc' & _ & Hres & _ & Hact).
  assert (clusterMigrationVolumeIndexes checkpoints = indexes) as Heq.
  { apply indexes_names. clear -Hf. induction Hf as [|x y l l' (Hn & _) _ IH]; [done|]. cbn. by rewrite IH, Hn. }
  assert (checkpoint_of (set_volumes o0 checkpoints) volume = Some c') as ->.
  { unfold checkpoint_of, checkpoint_index. cbn [set_volumes mig_Volumes]. by rewrite Heq, Hi. }
  cbn [or_panic]. rewrite Hres, Hact.
  assert (forall h', wpc (release_sources (set_volumes o0 checkpoints) plan l) (fun _ _ => True) h') as Hrest.
  { intros h'. apply IH. intros v Hv. apply Hsub. by right. }
  case_test; [apply Hrest|]. apply orb_false_iff in Heqb as [Hr Ha]. apply bool_decide_eq_false in Ha.
  apply wp_check. cbn [set_volumes mig_Name].
  eapply wp_mono; [apply (wp_lift_guard _ (release_guard (mig_Name o0)
    (qualifiedResourceReference (vs_SourcePVC volume) (plan_SourceNamespace plan))
    (qualifiedResourceReference (vs_SourcePV volume) "")) _ (fun _ _ => True) [] h)|].
  - intros hk r Hk _. split; [done|]. exists plan. split; [done|]. apply (write_release plan r volume c); try done.
    + apply Hsub. left.
    + by exists i.
    + by apply eq_None_not_Some.
  - apply wp_releaseSource.
  - intros [e|] h' _ _; [done|apply Hrest].
Qed.

(** Saving the recovered identities happens before any write. *)
Lemma wp_save_preview checkpoints h :
  Forall2 recovered_from start checkpoints -> no_writes h ->
  wpc (save_preview o0 (set_volumes o0 checkpoints))
    (fun r _ => r.2 = None -> r.1 = set_volumes o0 checkpoints) h.
Proof.
  intros Hf Hn. unfold save_preview. case_bool_decide as Heq; cbn in Heq.
  { intros _. rewrite Heq. symmetry. apply set_volumes_same. }
  apply wp_bind_2. eapply wp_mono; [apply (wp_persist_unwritten _ cleanup_reads); [|done]|by intros [e|]].
  intros h' Hn'. split; [done|]. by exists plan, checkpoints.
Qed.
End planned.

Lemma options_ok phase planned :
  validateMigrationCleanupOptions phase planned options = None ->
  (DeleteSession options = true -> Finalize options = true) /\ (planned = true -> finished_phase phase = true).
Proof.
  unfold validateMigrationCleanupOptions. destruct (ValidateUnusedStoragePolicy _); [done|].
  destruct (DeleteSession options), (Finalize options); cbn; try done; intros Hv; (split; [done|]);
    intros ->; by destruct phase.
Qed.

Lemma wp_cleanup h : no_writes h -> wpc (cleanup polls terminal held o0 options) (fun _ _ => True) h.
Proof.
  intros Hn. unfold cleanup, prepareCleanup. apply wp_bind_2, wp_check_Ret.
  destruct (validateClusterMigrationObject o0) as [e|] eqn:Hv; [done|]. change (valid o0) in Hv. cbv zeta.
  apply wp_check_Ret. destruct (validateMigrationCleanupOptions _ _ _) as [e|] eqn:Hop; [done|].
  apply options_ok in Hop as [Hfin Hph].
  assert (forall o h', same_workflow o -> wpc (if DeleteSession options then delete_session held o else Ret (o, None))
    (fun _ _ => True) h') as Hend.
  { intros o h' Ho. case_test; [|done].
    assert session_deletable; [|by apply wp_delete_session].
    split_and!; [done|by apply Hfin|]. intros Hp. apply Hph. by apply bool_decide_eq_true_2. }
  destruct (mig_Plan o0) as [plan|] eqn:Hplan.
  2: { apply wp_Ret. unfold save_preview. rewrite bool_decide_eq_true_2 by done.
       apply wp_bind_2, wp_Ret. cbn [snd fst]. rewrite Hplan. do 3 (apply wp_bind_2, wp_Ret). apply Hend.
       exists (mig_Volumes o0). symmetry. apply set_volumes_same. }
  specialize (Hph eq_refl). eapply wp_mono; [by apply wp_prepare_plan|].
  intros [[[preview volumes] pods]|e] h1 _ (Hn1 & Hp); [|done].
  destruct (Hp _ _ _ eq_refl) as (_ & (checkpoints & -> & Hf) & Hix & Hd & Hpods).
  apply wp_bind_2. eapply wp_mono; [by apply (wp_save_preview plan)|].
  intros [o [e|]] h2 Hs2 Hsv; [done|]. cbn [fst snd] in *. rewrite (Hsv eq_refl).
  apply wp_bind_2. eapply wp_mono; [eapply (wp_consumer_pods polls _ (mig_Name o0))|].
  { intros hk r Hr Hown _. split; [done|]. exists plan. split; [done|]. by eapply write_consumer. }
  { intros ref Href. destruct (Hpods ref Href) as (hk & Hk & Hl). exists hk. split; [by eapply seen_mono|done]. }
  intros [e|] h3 Hs3 _; [done|]. apply wp_bind_2. eapply wp_mono with (Q := fun _ _ => True).
  { cbn [set_volumes mig_Plan mig_Status]. rewrite Hplan. case_test; [|done]. apply phase_eqb_true in Heqb.
    by eapply wp_release_sources. }
  intros [e|] h4 Hs4 _; [done|]. apply wp_bind_2. eapply wp_mono; [eapply (wp_reclaim_volumes polls)|].
  { intros v hk h' r Hin Hs' Hr _. split; [done|]. exists plan. split; [done|].
    apply (write_reclaim plan r v); [|done]. intros Hdel. eapply disposable_mono; [|by apply Hd].
    etrans; [exact Hs2|]. etrans; [exact Hs3|]. by etrans. }
  intros [e|] h5 _ _; [done|]. apply Hend. by exists checkpoints.
Qed.

End executor.
