(* ===== verification/StagedCleanup.v ===== *)
(** * Safety of the cleanup of copies and reservations

    The cleanup of a staging workflow ([staged_cleanup]), for the four kinds of object:
    which writes reach the cluster, what is saved before them, and that only the
    destination of an aborted workflow is ever deleted. *)

From S2P Require Import Prelude Utf8 GoErrors Lifecycle PhaseMachines KubeTypes Prog Api ResourceState Ownership PVBinding NodeSelection GoFormat Quota PVCPolicy Reserver TransferPath Reclaim MigrationObject Offline Activation MigrationStorage MigrationCleanup CopyEngine Exec CopyRunner SourceLoss Executor CleanupExecutor MigrationSync StagedObjects Staged CopyExecutor StagedInstances SwitcherRules ReclaimSafety ObjectValidity ExecRules ExecutorRules CleanupSafety StagedLaws.

(** Every event of a run started afresh satisfied the guard. *)
Lemma calls_ok_elem {E : Type} {R : E -> Type} (G : history R -> E -> Prop) (h : history R) r x :
  calls_ok G [] h -> Ev r x ∈ h -> exists h1, Ev r x :: h1 `suffix_of` h /\ G h1 r.
Proof.
  intros Hc (k & h1 & ->)%list_elem_of_split. exists h1. assert (Ev r x :: h1 `suffix_of` k ++ Ev r x :: h1) as Hs by (by exists k).
  split; [done|]. apply (Hc r x h1 Hs). apply suffix_nil.
Qed.

(** ** Checkpoints and their indexes *)

Lemma checkpointIndexes_names l l' :
  map rs_SourcePVCName l = map rs_SourcePVCName l' -> checkpointIndexes l = checkpointIndexes l'.
Proof.
  intros Hn. transitivity (volumeIndexes id (map rs_SourcePVCName l)); [symmetry|rewrite Hn];
    apply (volumeIndexes_fmap rs_SourcePVCName id).
Qed.

Lemma identities_names l l' : Forall2 identities_of l l' -> map rs_SourcePVCName l' = map rs_SourcePVCName l.
Proof. intros Hf. induction Hf as [|x y l l' [Hn _] _ IH]; [done|]. cbn. by rewrite IH, Hn. Qed.

Lemma identities_refl l : Forall2 identities_of l l.
Proof. by apply Forall_Forall2_diag, Forall_true. Qed.

Lemma reads_prepare_reserved terminal id src dst uid checkpoint delete :
  reads (prepareReservedDestination terminal id src dst uid checkpoint delete).
Proof. unfold prepareReservedDestination, recoverReservationVolume, recoverReservationPV. cbv zeta. reads_tac. Qed.

Section fitting.
Context {Obj : Type} `{SL : StagedLaws Obj}.
Context (o : Obj) (plan : StagedPlan) (Hvalid : sw_validateObject o = None) (Hplan : sw_plan o = Some plan).

Lemma start_names : map rs_SourcePVCName (sw_checkpoints (sw_start o)) ≡ₚ map planned_name (sp_Volumes plan).
Proof.
  destruct (sl_valid o plan Hvalid Hplan) as (_ & _ & Hf). rewrite (sl_start_checkpoints o plan Hplan).
  destruct (sw_checkpoints o) as [|c cs]; [by rewrite map_map|]. by destruct Hf as [|[Hp _]].
Qed.

(** Every planned volume has a checkpoint, under its index. *)
Lemma start_checkpoint volume :
  volume ∈ sp_Volumes plan ->
  exists c, sw_checkpoints (sw_start o) !! index_of (checkpointIndexes (sw_checkpoints (sw_start o))) volume = Some c /\
    rs_SourcePVCName c = planned_name volume.
Proof.
  intros Hin. unfold index_of.
  destruct (proj2 (volumeIndexes_is_Some rs_SourcePVCName (sw_checkpoints (sw_start o)) (planned_name volume))) as [i Hi].
  { rewrite start_names. by apply list_elem_of_fmap_2. }
  unfold checkpointIndexes. rewrite Hi. cbn. by apply volumeIndexes_sound in Hi.
Qed.

Lemma start_nonempty : sw_checkpoints (sw_start o) <> [].
Proof.
  pose proof start_names as Hp. destruct (sl_valid o plan Hvalid Hplan) as (_ & Hne & _). intros Hs. rewrite Hs in Hp.
  by apply Permutation_nil, map_eq_nil in Hp.
Qed.
End fitting.

(** ** The guard *)

Section cleanup.
Context `{CR : ConflictRetry} {Obj : Type} `{SL : StagedLaws Obj} (polls : nat) (terminal held : bool).
Context (o0 : Obj) (options : StagedCleanupOptions).
Notation xtrace := (xtraceOf Obj).
Notation start := (sw_checkpoints (sw_start o0)).
Notation indexes := (checkpointIndexes start).

(** A volume that may be deleted: the destination of a planned volume of an aborted
    workflow, under the policy in force, and never the source volume. *)
Definition staged_disposable (plan : StagedPlan) (v : reclaimVolume) : Prop :=
  deletes_unused o0 plan options = true /\ exists volume, volume ∈ sp_Volumes plan /\ staged_ok volume true v.

(** The source of a volume that is not held by a reserved destination. *)
Definition staged_releasable (volume : VolumeSpec) : Prop :=
  so_Finalize options = true \/ exists c, start !! index_of indexes volume = Some c /\
    rs_SourcePVCName c = planned_name volume /\ rs_Reserved c = false.

Inductive staged_write (plan : StagedPlan) (r : req) : xtrace -> Prop :=
| staged_consumer pods hk h :
    (forall ref, ref ∈ pods -> exists hk', seen hk' h /\ listed_own (sw_Name o0) ref hk') ->
    consumer_guard pods hk r -> staged_write plan r (map lift_event hk ++ h)
| staged_release volume hk h :
    volume ∈ sp_Volumes plan -> staged_releasable volume ->
    release_guard (sw_Name o0) (source_ref plan volume) (source_pv volume) hk r ->
    staged_write plan r (map lift_event hk ++ h)
| staged_reclaim v hk h :
    (rv_delete v = true -> staged_disposable plan v) ->
    reclaim_guard (sw_Name o0) v (so_Finalize options) hk r -> staged_write plan r (map lift_event hk ++ h).

(** The object with recovered identities of destinations. *)
Definition staged_preview (o : Obj) : Prop :=
  wf_get o = wf_get o0 /\ sw_Name o = sw_Name o0 /\ sw_plan o = sw_plan o0 /\
  Forall2 identities_of start (sw_checkpoints o).

Definition staged_session_deletable : Prop :=
  so_DeleteSession options = true /\ so_Finalize options = true /\ (is_Some (sw_plan o0) -> finished o0 = true).

Definition staged_cleanup_guard (h : xtrace) (q : xreq Obj) : Prop :=
  match q with
  | XKube r =>
      is_write r = true ->
      finished o0 = true /\ exists plan, sw_plan o0 = Some plan /\ staged_write plan r h
  | XSave o => no_writes h /\ finished o0 = true /\ staged_preview o
  | XDetachedErr => True
  | XDeleteLock => staged_session_deletable
  | XDeleteStored o => staged_session_deletable /\ (o = o0 \/ staged_preview o)
  | XService _ | XPanic => False
  end.

Notation wpc := (wp staged_cleanup_guard).

Lemma staged_cleanup_reads h r : is_write r = false -> staged_cleanup_guard h (XKube r).
Proof. intros Hr. cbn. by rewrite Hr. Qed.

(** ** Preparation *)

Section planned.
Context (plan : StagedPlan) (Hvalid : sw_validateObject o0 = None) (Hplan : sw_plan o0 = Some plan).
Context (Hfin : finished o0 = true).
Notation deleteUnused := (deletes_unused o0 plan options).

Lemma preview_lookup preview volume :
  staged_preview preview -> volume ∈ sp_Volumes plan ->
  exists c c', start !! index_of indexes volume = Some c /\ rs_SourcePVCName c = planned_name volume /\
    sw_checkpoints preview !! index_of indexes volume = Some c' /\ identities_of c c'.
Proof.
  intros (_ & _ & _ & Hf) Hin. destruct (start_checkpoint o0 plan Hvalid Hplan volume Hin) as (c & Hc & Hn).
  destruct (Forall2_lookup_l _ _ _ _ _ Hf Hc) as (c' & Hc' & Hi). by exists c, c'.
Qed.

Lemma preview_record preview i c c' st o :
  staged_preview preview -> start !! i = Some c -> sw_checkpoints preview !! i = Some c' ->
  identities_of c' st -> sw_record preview i st = inl o -> staged_preview o.
Proof.
  intros (H1 & H2 & H3 & Hf) Hc Hc' [Hn Hr] Hrec. destruct (sl_record _ _ _ _ Hrec) as (E1 & E2 & E3 & E4).
  split_and!; [congruence|congruence|congruence|]. rewrite E4, list_insert_alter. apply Forall2_alter_r; [done|].
  intros x y Hx Hy [Hxn Hxr]. rewrite Hc' in Hy. injection Hy as <-. split; congruence.
Qed.

Lemma wp_prepare_destinations volumes preview h :
  (forall v, v ∈ volumes -> v ∈ sp_Volumes plan) -> staged_preview preview -> no_writes h ->
  wpc (prepare_destinations terminal (sw_Name o0) plan deleteUnused indexes volumes preview)
    (fun r h' => no_writes h' /\ forall p, r = inl p ->
       staged_preview p.1 /\ forall v, v ∈ p.2 -> rv_delete v = true -> staged_disposable plan v) h.
Proof.
  revert preview h. induction volumes as [|volume volumes IH]; intros preview h Hsub Hp Hn.
  { apply wp_Ret. split; [done|]. intros p [= <-]. split; [done|]. by intros v Hv%not_elem_of_nil. }
  cbn [prepare_destinations]. assert (volume ∈ sp_Volumes plan) as Hin by (apply Hsub; left).
  apply wp_check. eapply wp_mono; [apply (wp_unwritten _ staged_cleanup_reads); [apply reads_release|done]|].
  intros [e|] h1 _ Hn1; [split; [done|by intros]|].
  destruct (preview_lookup _ _ Hp Hin) as (c & c' & Hc & Hname & Hc' & Hid).
  eapply wp_or_panic; [exact Hc'|]. apply wp_try.
  eapply wp_mono; [apply (wp_lift_reads _ _ _ _ [] h1 staged_cleanup_reads (reads_prepare_reserved _ _ _ _ _ _ _)
    (wp_and _ _ _ _ _ _ (wp_prepareReserved _ _ _ _ _ _ _ []) (wp_prepared_identities _ _ _ _ _ _ _ [])) Hn1)|].
  intros [[st v]|e] h2 _ (Hn2 & hk & -> & Hok & Hst); [|split; [done|by intros]].
  specialize (Hok _ eq_refl). specialize (Hst _ eq_refl). cbn [fst snd] in *. apply wp_try, wp_Ret.
  destruct (sw_record preview (index_of indexes volume) st) as [preview'|e] eqn:Hrec; [|split; [done|by intros]].
  apply wp_try. eapply wp_mono; [apply (IH preview')|].
  { intros u Hu. apply Hsub. by right. } { by eapply preview_record. } { done. }
  intros [[preview'' vs]|e] h3 _ (Hn3 & Hr); [|split; [done|by intros]]. destruct (Hr _ eq_refl) as [Hp'' Hvs].
  apply wp_Ret. split; [done|]. intros p [= <-]. split; [done|]. cbn [fst snd].
  intros u [->|Hu]%elem_of_cons Hd; [|by apply Hvs]. pose proof Hok as (_ & _ & Hdel & _). cbn in Hdel.
  split; [congruence|]. exists volume. split; [done|]. by rewrite <- Hd, Hdel in *.
Qed.

Definition staged_prepared (preview : Obj) (volumes : list reclaimVolume) (pods : list ObjectReference) (h : xtrace)
    : Prop :=
  staged_preview preview /\ (forall v, v ∈ volumes -> rv_delete v = true -> staged_disposable plan v) /\
  (forall ref, ref ∈ pods -> exists hk, seen hk h /\ listed_own (sw_Name o0) ref hk).

Lemma start_preview : staged_preview (sw_start o0).
Proof. split_and!; [apply sl_start_status|apply sl_start_name|apply sl_start_plan|apply identities_refl]. Qed.

Lemma wp_staged_prepare_plan h :
  no_writes h ->
  wpc (try: prepared ← prepare_destinations terminal (sw_Name o0) plan deleteUnused indexes (sp_Volumes plan) (sw_start o0);
       try: volumes ← lift (protectRetainedPVs prepared.2);
       try: pods ← lift (inventoryReservationPods (sw_Name o0) [sp_DestinationNamespace plan]);
       check: validate_volumes (sw_Name o0) (so_Finalize options) volumes;
       Ret (inl (prepared.1, volumes, pods)))
    (fun r h' => no_writes h' /\ forall preview volumes pods, r = inl (preview, volumes, pods) ->
       staged_prepared preview volumes pods h') h.
Proof.
  intros Hn. apply wp_try. eapply wp_mono; [apply wp_prepare_destinations; [done|apply start_preview|done]|].
  intros [[preview vs]|e] h1 _ (Hn1 & Hp); [|split; [done|by intros]].
  destruct (Hp _ eq_refl) as (Hpre & Hd). cbn [fst snd] in *. apply wp_try.
  eapply wp_mono; [apply (wp_lift_reads _ _ _ _ [] h1 staged_cleanup_reads (reads_protect _) (wp_protect _ []) Hn1)|].
  intros [volumes|e] h2 _ (Hn2 & hk2 & _ & Hprot); [|split; [done|by intros]]. specialize (Hprot _ eq_refl). apply wp_try.
  eapply wp_mono; [apply (wp_lift_reads _ _ _ _ [] h2 staged_cleanup_reads (reads_inventory _ _) (wp_inventory _ _ []) Hn2)|].
  intros [pods|e] h3 Hs3 (Hn3 & hk & Hh3 & Hpods); [|split; [done|by intros]]. apply wp_check.
  eapply wp_mono; [by apply (wp_validate_volumes _ staged_cleanup_reads)|]. intros [e|] h4 Hs4 Hn4; [split; [done|by intros]|].
  apply wp_Ret. split; [done|]. intros ? ? ? [= <- <- <-]. split_and!; [done|..].
  - intros v. by apply (protected_disposable _ _ _ v Hprot Hd).
  - intros ref Href. exists hk. split; [|by apply (Hpods pods)]. apply (seen_mono hk h3); [done|].
    rewrite Hh3. apply seen_lifted.
Qed.

(** ** The writes *)

(** An object whose checkpoints did not change is the start. *)
Lemma same_progress_start preview :
  staged_preview preview -> sw_sameProgress o0 preview = true -> sw_start o0 = o0.
Proof.
  intros (_ & _ & _ & Hf) Hs%sl_same_length. apply sl_start_same. intros Hnil. rewrite Hnil in Hs. cbn in Hs.
  apply Forall2_length in Hf. rewrite <- Hs in Hf. apply length_zero_iff_nil in Hf.
  by apply (start_nonempty o0 plan Hvalid Hplan).
Qed.

Lemma wp_staged_save preview h :
  staged_preview preview -> no_writes h ->
  wpc (staged_save_preview o0 preview) (fun r _ => r.2 = None -> staged_preview r.1) h.
Proof.
  intros Hp Hn. unfold staged_save_preview. case_test.
  { intros _. cbn. pose proof start_preview as Hs. by rewrite (same_progress_start _ Hp Heqb) in Hs at 1. }
  apply wp_bind_2. eapply wp_mono; [apply (wp_persist_unwritten _ staged_cleanup_reads); [by intros h' Hn'|done]|].
  intros [e|] h' _ _; [done|]. intros _. exact Hp.
Qed.

Lemma wp_release_staged o volumes h :
  staged_preview o -> (forall v, v ∈ volumes -> v ∈ sp_Volumes plan) ->
  wpc (release_staged plan (so_Finalize options) (checkpointIndexes (sw_checkpoints o)) o volumes) (fun _ _ => True) h.
Proof.
  intros Hp. pose proof Hp as (_ & Hname & _ & Hf).
  rewrite (checkpointIndexes_names _ start) by (by apply identities_names).
  revert h. induction volumes as [|volume volumes IH]; intros h Hsub; [done|]. cbn [release_staged].
  assert (volume ∈ sp_Volumes plan) as Hin by (apply Hsub; left).
  assert (forall h', wpc (release_staged plan (so_Finalize options) indexes o volumes) (fun _ _ => True) h') as Hrest.
  { intros h'. apply IH. intros v Hv. apply Hsub. by right. }
  destruct (preview_lookup _ _ Hp Hin) as (c & c' & Hc & Hn & Hc' & Hid). rewrite Hc'. cbn [fmap option_fmap option_map].
  assert (wpc (check: lift (releaseSourceOwnership (sw_Name o) (source_ref plan volume) (source_pv volume)
                              (vs_SourceReclaimPolicy volume));
               release_staged plan (so_Finalize options) indexes o volumes) (fun _ _ => True) h \/
          (so_Finalize options = false /\ rs_Reserved c' = true)) as Hor.
  { destruct (so_Finalize options) eqn:Hfz, (rs_Reserved c') eqn:Hres; [left..|by right|left].
    all: rewrite Hname; apply wp_check; eapply wp_mono;
      [apply (wp_lift_guard _ (release_guard (sw_Name o0) (source_ref plan volume) (source_pv volume)) _ (fun _ _ => True) [] h);
       [|apply wp_releaseSource]|by intros [e|] h' _ _].
    all: intros hk r Hr _; split; [done|]; exists plan; split; [done|]; apply (staged_release plan r volume); try done.
    1-2: by left. right. exists c. split_and!; [done|done|]. by destruct Hid as [_ <-]. }
  destruct (so_Finalize options) eqn:Hfz; cbn [or_panic].
  - by destruct Hor as [?|[? _]].
  - destruct (rs_Reserved c') eqn:Hres; [apply Hrest|]. by destruct Hor as [?|[_ ?]].
Qed.
End planned.

Lemma staged_options_ok :
  validate_staged_options o0 options = None ->
  (so_DeleteSession options = true -> so_Finalize options = true) /\ (is_Some (sw_plan o0) -> finished o0 = true).
Proof.
  unfold validate_staged_options, staged_planned. intros [_ Hv]%first_err_None.
  destruct (so_DeleteSession options), (so_Finalize options); cbn in Hv; try done; (split; [done|]); intros Hp;
    rewrite bool_decide_eq_true_2 in Hv by done; by destruct (finished o0).
Qed.

Lemma wp_staged_cleanup h : no_writes h -> wpc (staged_cleanup polls terminal held o0 options) (fun _ _ => True) h.
Proof.
  intros Hn. unfold staged_cleanup, staged_prepareCleanup. apply wp_bind_2, wp_check_Ret.
  destruct (sw_validateObject o0) as [e|] eqn:Hv; [done|]. apply wp_check_Ret.
  destruct (validate_staged_options o0 options) as [e|] eqn:Hop; [done|]. apply staged_options_ok in Hop as [Hdel Hfin].
  assert (forall o h', o = o0 \/ staged_preview o ->
    wpc (if so_DeleteSession options then delete_session held o else Ret (o, None)) (fun _ _ => True) h') as Hend.
  { intros o h' Ho. case_test; [|done].
    assert staged_session_deletable; [split_and!; [done|by apply Hdel|done]|by apply wp_delete_session]. }
  destruct (sw_plan o0) as [plan|] eqn:Hplan.
  2: { apply wp_Ret. apply wp_bind_2. unfold staged_save_preview. eapply wp_mono with (Q := fun r _ => r = (o0, None)).
       { by rewrite sl_same_refl. }
       intros r h' _ ->. cbn [fst snd]. rewrite Hplan. do 3 (apply wp_bind_2, wp_Ret). apply Hend. by left. }
  specialize (Hfin (mk_is_Some _ _ eq_refl)). eapply wp_mono; [by apply wp_staged_prepare_plan|].
  intros [[[preview volumes] pods]|e] h1 _ (Hn1 & Hp); [|done].
  destruct (Hp _ _ _ eq_refl) as (Hpre & Hd & Hpods).
  apply wp_bind_2. eapply wp_mono; [by eapply wp_staged_save|].
  intros [o [e|]] h2 Hs2 Hsv; [done|]. cbn [fst snd] in *. specialize (Hsv eq_refl).
  apply wp_bind_2. eapply wp_mono; [eapply (wp_consumer_pods polls _ (sw_Name o0))|].
  { intros hk r Hr Hown _. split; [done|]. exists plan. split; [done|]. by eapply staged_consumer. }
  { intros ref Href. destruct (Hpods ref Href) as (hk & Hk & Hl). exists hk. split; [by eapply seen_mono|done]. }
  intros [e|] h3 _ _; [done|]. apply wp_bind_2. eapply wp_mono with (Q := fun _ _ => True).
  { pose proof Hsv as (_ & _ & Hpl & _). rewrite Hpl, Hplan. by eapply wp_release_staged. }
  intros [e|] h4 _ _; [done|]. apply wp_bind_2. eapply wp_mono; [eapply (wp_reclaim_volumes polls)|].
  { intros v hk h' r Hin Hs' Hr _. split; [done|]. exists plan. split; [done|].
    apply (staged_reclaim plan r v); [|by destruct Hsv as (_ & -> & _) in Hr]. by apply Hd. }
  intros [e|] h5 _ _; [done|]. apply Hend. by right.
Qed.
(** Storage goes only after an abort. *)
Definition deletes_storage (r : req) : bool :=
  match r with DeletePVC _ _ _ _ | DeletePV _ _ _ => true | _ => false end.

Lemma release_keeps sid pvc pv hk r : release_guard sid pvc pv hk r -> deletes_storage r = false.
Proof. intros [Hr|[policy Hr]]; destruct r; try done; destruct Hr as [Hr _]; done. Qed.

Lemma staged_write_keeps plan r h : staged_write plan r h -> deletes_storage r = true -> staged_phase o0 = PhaseAborted.
Proof.
  intros Hw Hd. destruct Hw as [pods hk h _ Hr|volume hk h _ _ Hr|v hk h Hv Hr].
  - by destruct r.
  - by rewrite (release_keeps _ _ _ _ _ Hr) in Hd.
  - assert (rv_delete v = true) as Hdel by (destruct r; try done; by destruct Hr).
    destruct (Hv Hdel) as [Ha _]. unfold deletes_unused in Ha. apply andb_true_iff in Ha as [_ Ha].
    by apply phase_eqb_true.
Qed.

End cleanup.
