(* ===== verification/OrphanSafety.v ===== *)
(** * Safety of the recovery of lost sessions

    What a plan without failed checks has verified, and what the cleanup may change:
    against every server and for all options, composed of the planner, the finders, the
    locker and the reclaim operations as the command composes them. *)

From S2P Require Import Prelude GoErrors Lifecycle GoFormat KubeTypes Prog Api ResourceState Ownership PVBinding Reclaim WorkflowStore WorkflowOwners OrphanCleanup OwnerSafety SwitcherRules SwitcherSafety ReclaimSafety MigrationCleanup ExecRules CleanupSafety.

(** ** Programs that issue only some requests *)

Section only.
Context (P : req -> Prop).

Fixpoint only {A} (p : kube A) : Prop :=
  match p with
  | Ret _ | OutOfFuel => True
  | Vis r k => P r /\ forall x, only (k x)
  end.

Lemma only_bind {A B} (p : kube A) (f : A -> kube B) : only p -> (forall a, only (f a)) -> only (p ≫= f).
Proof. intros Hp Hf. induction p as [a| |r k IH]; [apply Hf|done|]. destruct Hp as [Hr Hk]. split; [done|]. intros x. apply IH, Hk. Qed.

Lemma wp_only (K : trace -> req -> Prop) {A} (p : kube A) Q h :
  only p -> wp K p Q h -> wp (fun h r => K h r /\ P r) p Q h.
Proof.
  revert h. induction p as [a| |r k IH]; intros h; [done|done|]. intros [Hr Hk] [HK Hw]. split; [done|].
  intros x. by apply IH.
Qed.

Lemma only_wait_loop {A} n d (c : kube (result (bool * A))) :
  P CtxErr -> P TickOrDone -> only c -> only (wait_loop n d c).
Proof.
  intros H1 H2 Hc. induction n as [|n IH]; [done|]. cbn. split; [done|]. intros [e|]; [done|].
  apply only_bind; [done|]. intros [[[|] a]|e]; [done| |]; (split; [done|]; intros [?|]; done).
Qed.

Lemma only_retry_value {A} n (fn : kube (result A)) : only fn -> only (retry_value_loop n fn).
Proof.
  intros Hf. induction n as [|n IH]; [done|]. cbn. apply only_bind; [done|]. intros [a|e]; [done|]. by case_test.
Qed.
End only.

(** Splits a program along its control flow. *)
Ltac only_tac :=
  repeat first
    [ exact I
    | match goal with |- only _ (call _) => by (split; [done|intros ?; exact I]) end
    | match goal with |- only _ (WaitFor _ _ _ _) => unfold WaitFor; case_test; [exact I|apply only_wait_loop; [done|done|]] end
    | apply only_bind; [|intros ?]
    | match goal with
      | |- only _ (check _ _) => unfold check
      | |- only _ (try _ _) => unfold try
      | |- only _ (if ?b then _ else _) => destruct b
      | |- only _ (match ?x with _ => _ end) => destruct x
      end ].

Definition keeps_claims (r : req) : Prop := match r with DeletePVC _ _ _ _ | UpdatePVC _ => False | _ => True end.

Lemma only_deleteReclaimedPV `{CR : ConflictRetry} polls sid ref role policy claim :
  only keeps_claims (deleteReclaimedPV polls sid ref role policy claim).
Proof.
  assert (only keeps_claims checkpointFenceError) as Hf by (unfold checkpointFenceError; only_tac).
  unfold deleteReclaimedPV, waitForPVRelease, validateDeletingPVClaim, reclaimedPVReleased, delete_released,
    restoreReclaimedPVPolicy, waitForPVDeletion, wait_error.
  repeat first [ match goal with |- only _ checkpointFenceError => exact Hf end
               | match goal with |- only _ (RetryOnConflictValue ?fn) =>
                   destruct (retry_value_law _ fn) as [n ->]; apply only_retry_value;
                   unfold restore_attempt, update_pv_policy, join_fence end
               | progress only_tac ].
Qed.

(** Requests that change nothing. *)
Definition quiet_req (r : req) : Prop := is_write r = false /\ is_progress r = false.

Lemma wp_of_reads_post (K : trace -> req -> Prop) {A} (p : kube A) Q h :
  reads p -> wp K p Q h -> wp (fun _ => quiet_req) p Q h.
Proof.
  revert h. induction p as [a| |r k IH]; intros h; [done|done|]. intros [Hr Hk] [HK Hw]. split; [done|].
  intros x. by apply IH.
Qed.

Lemma reads_inspectUnused ref sid : reads (inspectPVCUnusedWithOperations ref sid).
Proof.
  unfold inspectPVCUnusedWithOperations, blocked_by, cleanupPodBlockerError, resolveCleanupPodOwner,
    resolveCleanupReplicaSetOwner. cbv zeta. reads_tac.
Qed.

(** ** Plans *)

Lemma ready_failed n m p : op_Ready (AddCheck p (orphanFailed n m)) = false.
Proof. apply andb_false_r. Qed.

Lemma ready_if_failed b n m p : op_Ready (add_if b (orphanFailed n m) p) = (op_Ready p && negb b)%bool.
Proof. destruct b; cbn; [by rewrite !andb_false_r|by rewrite andb_true_r]. Qed.

Lemma ready_if_warning b n m p : op_Ready (add_if b (orphanWarning n m) p) = op_Ready p.
Proof. by destruct b. Qed.

Lemma ready_if_passed b n m p : op_Ready (add_if b (orphanPassed n m) p) = op_Ready p.
Proof. by destruct b. Qed.

Lemma mode_if b c p : op_Mode (add_if b c p) = op_Mode p.
Proof. by destruct b. Qed.

Lemma ready_mode p m : op_Ready (with_mode p m) = op_Ready p.
Proof. done. Qed.

Create Rewrite HintDb plan.
#[export] Hint Rewrite ready_failed ready_if_failed ready_if_warning ready_if_passed mode_if ready_mode
  andb_true_iff negb_true_iff : plan.

(** A failed check was added. *)
Ltac not_ready := intros Hready; autorewrite with plan in Hready; by destruct_and?.

Section safety.
Context `{CR : ConflictRetry} `{LG : LabelGrammar} (polls : nat) (options : OrphanCleanupOptions).
Notation sid := (oo_SessionID options).
Notation namespaces := [oo_SessionNamespace options; oo_SourceNamespace options].

(** *** What was seen *)

(** The source claim, read under its name, is bound both ways to a volume of the session
    in the given role, with a recorded policy that may be restored, and nobody else owns
    it. *)
Definition source_planned (role : string) (pvc : PVC) (current : PV) (k : trace) : Prop :=
  Ev (GetPVC (oo_SourceNamespace options) (oo_SourcePVC options)) (inl pvc) ∈ k /\
  Ev (GetPV (pvc_VolumeName pvc)) (inl current) ∈ k /\
  pvc_Phase pvc = ClaimBound /\ claim_matches pvc current = true /\
  foreign_owner (mget (pvc_Annotations pvc) SessionKey) sid = false /\
  foreign_owner (mget (pvc_Labels pvc) SessionKey) sid = false /\
  mget (pv_Labels current) SessionKey = sid /\ mget (pv_Labels current) ResourceRoleLabel = role /\
  validReclaimPolicy (mget (pv_Annotations current) OriginalPolicyAnnotation) = true /\
  policy_restorable current (mget (pv_Annotations current) OriginalPolicyAnnotation) = true.

(** The volume kept for a rollback and the active one name each other; it is the
    session's, unused, with a recorded policy. *)
Definition rollback_planned (active rollback : PV) (r : OrphanPostActivationCleanup) (k : trace) : Prop :=
  Ev (GetPV (mget (pv_Annotations active) PairedPVAnnotation)) (inl rollback) ∈ k /\
  post_RollbackPV r = PVReference (Some rollback) /\
  post_RollbackPolicy r = mget (pv_Annotations rollback) OriginalPolicyAnnotation /\
  mget (pv_Annotations rollback) PairedPVAnnotation = pv_Name active /\
  mget (pv_Labels rollback) SessionKey = sid /\ mget (pv_Labels rollback) ResourceRoleLabel = ResourceRoleRollback /\
  free_phase (pv_Phase rollback) = true.

(** The volume holds the copy of this source: the one destination claim that records the
    source's UID is bound to it, or it is the only unclaimed destination of a session
    with one source. *)
Definition copy_of (pvc : PVC) (destination : PV) (h : otrace) : Prop :=
  (exists l c, Ev (OListPVCs "" (preActivationDestinationSelector sid)) (inl l) ∈ h /\ matching_claims pvc l = [c] /\
     pvc_UID c <> "" /\ claimref_matches (pv_ClaimRef destination) (PVCReference (Some c)) = true) \/
  (exists s l, Ev (OListPVs (preActivationSourceSelector sid)) (inl [s]) ∈ h /\
     Ev (OListPVs (preActivationDestinationSelector sid)) (inl l) ∈ h /\ destination ∈ l).

Definition destination_planned (pvc : PVC) (destination : PV) (r : OrphanPreActivationCleanup) (h : otrace) : Prop :=
  pre_DestinationPV r = PVReference (Some destination) /\
  pre_DestinationPolicy r = mget (pv_Annotations destination) OriginalPolicyAnnotation /\
  mget (pv_Labels destination) ManagedByLabel = ManagedByValue /\ mget (pv_Labels destination) SessionKey = sid /\
  mget (pv_Labels destination) ResourceRoleLabel = ResourceRoleDestination /\
  validReclaimPolicy (pre_DestinationPolicy r) = true /\ copy_of pvc destination h.

(** What a plan of each mode stands for. *)
Definition planned (mode : OrphanCleanupMode) (h : otrace) : Prop :=
  match mode with
  | NoMode => False
  | RecordsOnly =>
      (exists e, IsNotFound e = true /\
         Ev (GetPVC (oo_SourceNamespace options) (oo_SourcePVC options)) (inr e) ∈ kproj h) /\
      Ev (OListPVs (sessionOwnedSelector sid)) (inl []) ∈ h /\ Ev (OListPVCs "" (sessionOwnedSelector sid)) (inl []) ∈ h
  | PreActivation r =>
      exists pvc source, source_planned ResourceRoleSource pvc source (kproj h) /\
        pre_SourcePVC r = PVCReference (Some pvc) /\ pre_SourcePV r = PVReference (Some source) /\
        mget (pvc_Annotations pvc) RollbackPVAnnotation = "" /\ mget (pv_Annotations source) PairedPVAnnotation = "" /\
        (Name (pre_DestinationPV r) = "" \/ exists destination, destination_planned pvc destination r h)
  | PostActivation r =>
      exists pvc active, source_planned ResourceRoleActive pvc active (kproj h) /\
        post_SourcePVC r = PVCReference (Some pvc) /\ post_ActivePV r = PVReference (Some active) /\
        (UID (post_RollbackPV r) = "" \/ exists rollback, rollback_planned active rollback r (kproj h))
  end.

(** No workflow that this build serves has the name. *)
Definition owner_cleared (h : otrace) : Prop :=
  (crd_absent sid namespaces workflowCRDResourceRegistry h /\ records_absent sid namespaces h) \/
  (exists o, record_seen sid namespaces o h /\ stale_record o = true).

Lemma absent_mono (r : oreq) (P : oresp r -> Prop) (h h' : otrace) :
  h `suffix_of` h' -> (exists x, P x /\ Ev r x ∈ h) -> exists x, P x /\ Ev r x ∈ h'.
Proof. intros Hs (x & Hx & Hin). exists x. split; [done|]. by eapply suffix_elem. Qed.

Lemma owner_cleared_mono h h' : h `suffix_of` h' -> owner_cleared h -> owner_cleared h'.
Proof.
  intros Hs [[H1 H2]|(o & (n & object & Hn & Hne & Hin & Ho) & Hst)].
  - left. split; [intros r w n Hr Hw Hn; by eapply no_workflow_mono; [|eapply H1]|].
    intros n Hn Hne. destruct (H2 n Hn Hne) as (e & He & Hin). exists e. split; [done|by eapply suffix_elem].
  - right. exists o. split; [|done]. exists n, object. split_and!; try done. by eapply suffix_elem.
Qed.

Lemma source_planned_mono role pvc pv k k' : k `suffix_of` k' -> source_planned role pvc pv k -> source_planned role pvc pv k'.
Proof. intros Hs (H1 & H2 & H3). split_and!; [by eapply suffix_elem|by eapply suffix_elem|apply H3..]. Qed.

Lemma copy_of_mono pvc d h h' : h `suffix_of` h' -> copy_of pvc d h -> copy_of pvc d h'.
Proof.
  intros Hs [(l & c & H1 & H2)|(s & l & H1 & H2 & H3)].
  - left. exists l, c. split; [by eapply suffix_elem|done].
  - right. exists s, l. split_and!; [by eapply suffix_elem..|done].
Qed.

Lemma planned_mono mode h h' : h `suffix_of` h' -> planned mode h -> planned mode h'.
Proof.
  intros Hs. pose proof (kproj_suffix _ _ Hs) as Hk. destruct mode as [|r|r|]; [done| | |]; cbn.
  - intros (pvc & source & H1 & H2 & H3 & H4 & H5 & H6). exists pvc, source.
    split_and!; [by eapply source_planned_mono|done..|]. destruct H6 as [?|(d & D1 & D2 & D3 & D4 & D5 & D6 & D7)]; [by left|].
    right. exists d. split_and!; try done. by eapply copy_of_mono.
  - intros (pvc & active & H1 & H2 & H3 & H4). exists pvc, active. split_and!; [by eapply source_planned_mono|done..|].
    destruct H4 as [?|(rb & R1 & R2)]; [by left|]. right. exists rb. split; [by eapply suffix_elem|done].
  - intros ((e & He & H1) & H2 & H3). split_and!; [|by eapply suffix_elem..]. exists e. split; [done|by eapply suffix_elem].
Qed.

(** *** Planning only reads, and a plan without failed checks is sound *)

Section plan.
Context (G : otrace -> oreq -> Prop) (HG : o_reads G).
Notation sound p h := (op_Ready p = true -> planned (op_Mode p) h).

Lemma wp_planDeleted p h e :
  IsNotFound e = true -> Ev (GetPVC (oo_SourceNamespace options) (oo_SourcePVC options)) (inr e) ∈ kproj h ->
  wp G (planDeletedSourceOrphan p options) (fun p' h' => (op_Ready p' = true -> op_Ready p = true) /\ sound p' h') h.
Proof.
  intros He Hin. unfold planDeletedSourceOrphan. apply wp_oask; [by apply HG|]. intros [pvs|x]; [|by split; not_ready].
  apply wp_oask; [by apply HG|]. intros [pvcs|x]; [|by split; not_ready].
  destruct (bool_decide (pvs = [])) eqn:Hv; [|by split; not_ready].
  destruct (bool_decide (pvcs = [])) eqn:Hc; [|by split; not_ready].
  apply bool_decide_eq_true in Hv as ->. apply bool_decide_eq_true in Hc as ->. apply wp_Ret. split; [done|].
  intros _. split_and!; [|right; left|left]. exists e. split; [done|]. done.
Qed.

Lemma post_ready_spec pvc active name markers p :
  (op_Ready (post_ready options pvc active name markers p) = true -> op_Ready p = true) /\
  op_Mode (post_ready options pvc active name markers p) = op_Mode p.
Proof.
  unfold post_ready. cbv zeta. autorewrite with plan. split; [|done]. by intros [? _].
Qed.

Lemma rollback_checks_spec active rb policy p :
  op_Mode (rollback_checks options active rb policy p) = op_Mode p /\
  (op_Ready (rollback_checks options active rb policy p) = true ->
     op_Ready p = true /\ mget (pv_Annotations rb) PairedPVAnnotation = pv_Name active /\
     mget (pv_Labels rb) SessionKey = sid /\ mget (pv_Labels rb) ResourceRoleLabel = ResourceRoleRollback /\
     free_phase (pv_Phase rb) = true).
Proof.
  unfold rollback_checks. cbv zeta. autorewrite with plan. split; [done|]. intros Hr. destruct_and?. bool_prop. tauto.
Qed.

Lemma wp_planPost p pvc active markers h :
  (op_Ready p = true -> source_planned ResourceRoleActive pvc active (kproj h)) ->
  wp G (planPostActivationOrphan p options pvc active markers)
    (fun p' h' => op_Ready p' = true -> op_Ready p = true /\ planned (op_Mode p') h') h.
Proof.
  intros Hsrc. unfold planPostActivationOrphan. cbv zeta.
  destruct ((if mget (pvc_Annotations pvc) RollbackPVAnnotation =s "" then _ else _) =s "") eqn:Hn; [by not_ready|].
  set (name := if _ =s "" then _ else _) in *. apply wp_oask; [by apply HG|]. intros [rb|e].
  - apply wp_Ret.
    match goal with |- context [post_ready _ _ _ _ _ (rollback_checks _ _ _ ?policy ?p0)] =>
      destruct (post_ready_spec pvc active name markers (rollback_checks options active rb policy p0)) as [H1 ->];
      destruct (rollback_checks_spec active rb policy p0) as [-> H4]
    end.
    intros (Hr & Hp & Hs & Hro & Hf)%H1%H4. autorewrite with plan in Hr. destruct Hr as [Hr Hpair]. bool_prop.
    split; [done|].
    exists pvc, active. split_and!; [eapply source_planned_mono; [|by apply Hsrc]; by apply suffix_cons_r|done..|].
    right. exists rb. split_and!; try done. rewrite Hpair. left.
  - destruct (IsNotFound e); [|by not_ready]. apply wp_Ret. intros Hr.
    apply post_ready_spec in Hr as Hr'. rewrite (proj2 (post_ready_spec _ _ _ _ _)).
    assert (op_Ready p = true) as Hp.
    { revert Hr'. change (op_Ready (AddCheck ?p (orphanWarning ?n ?m))) with (op_Ready p).
      autorewrite with plan. tauto. }
    split; [done|]. exists pvc, active.
    split_and!; [eapply source_planned_mono; [|by apply Hsrc]; by apply suffix_cons_r|done..|by left].
Qed.

(** The volume of the copy, once it was chosen. *)
Lemma wp_destinationPV p ref h :
  wp G (destinationPVForPVC p ref)
    (fun a _ => op_Mode a.1 = op_Mode p /\ (op_Ready a.1 = true -> op_Ready p = true)) h.
Proof.
  unfold destinationPVForPVC. apply wp_oask; [by apply HG|]. intros [claim|e].
  - destruct (pvc_VolumeName claim =s ""); [done|]. apply wp_oask; [by apply HG|]. intros [pv|e]; [done|].
    apply wp_Ret. destruct (IsNotFound e); [done|]. split; [done|]. cbn [fst]. by rewrite ready_failed.
  - apply wp_Ret. split; [apply mode_if|]. cbn [fst]. rewrite ready_if_failed. by intros [? _]%andb_true_iff.
Qed.

Lemma pre_volume_spec r d policy p :
  op_Mode (validatePreActivationDestinationPV options r d policy p) = op_Mode p /\
  (op_Ready (validatePreActivationDestinationPV options r d policy p) = true ->
     op_Ready p = true /\ mget (pv_Labels d) ManagedByLabel = ManagedByValue /\ mget (pv_Labels d) SessionKey = sid /\
     mget (pv_Labels d) ResourceRoleLabel = ResourceRoleDestination /\ validReclaimPolicy policy = true /\
     (UID (pre_DestinationPVC r) <> "" -> claimref_matches (pv_ClaimRef d) (pre_DestinationPVC r) = true)).
Proof.
  unfold validatePreActivationDestinationPV. cbv zeta. autorewrite with plan. split; [done|]. intros Hr.
  destruct_and?. bool_prop. split_and!; try done. intros Hu.
  match goal with H : (_ && _)%bool = false |- _ => apply andb_false_iff in H as [H|H] end; by bool_prop.
Qed.

Lemma pre_checks_spec pvc sources claims matching r p :
  op_Ready (addPreActivationResourceChecks pvc sources claims matching r p) = true -> op_Ready p = true.
Proof.
  unfold addPreActivationResourceChecks, addPreActivationReadyCheck. cbv zeta. autorewrite with plan.
  destruct (Nat.eqb (length sources) 1); autorewrite with plan; tauto.
Qed.

Lemma wp_resolve pvc p r sources l pvToPVC h :
  wp G (resolvePreActivationDestinationPV pvc p r sources l pvToPVC)
    (fun a _ => (op_Ready a.1.1 = true -> op_Ready p = true) /\
       pre_SourcePVC a.1.2 = pre_SourcePVC r /\ pre_SourcePV a.1.2 = pre_SourcePV r /\
       pre_DestinationPV a.1.2 = pre_DestinationPV r /\
       (forall d, a.2 = Some d -> (Name (pre_DestinationPVC r) <> "" /\ a.1.2 = r) \/
          (exists s, sources = [s]) /\ d ∈ l)) h.
Proof.
  unfold resolvePreActivationDestinationPV. destruct (Name (pre_DestinationPVC r) =s "") eqn:Hn; cbn [negb].
  - cbv zeta. apply wp_Ret.
    assert (forall x, x ∈ unclaimed pvToPVC l -> x ∈ l) as Hin.
    { intros x Hx. apply list_elem_of_In, filter_In in Hx as [Hx _]. by apply list_elem_of_In. }
    destruct (unclaimed pvToPVC l) as [|d [|d' rest]]; [by split_and!| |].
    + destruct sources as [|s [|s' rest]]; try (split_and!; [cbn [fst]; by rewrite ready_failed|done..]).
      cbn [fst snd]. split_and!; [done|by destruct (pv_ClaimRef d)|by destruct (pv_ClaimRef d)|by destruct (pv_ClaimRef d)|].
      intros d0 [= <-]. right. split; [by exists s|]. apply Hin. left.
    + split_and!; [cbn [fst]; by rewrite ready_failed|done..].
  - bool_prop. apply wp_bind_2. eapply wp_mono; [apply wp_destinationPV|]. intros [p' d] h' _ [_ Hr]. apply wp_Ret.
    cbn [fst snd] in *. split_and!; try done. intros d0 _. by left.
Qed.

Lemma wp_planPre p pvc source h :
  (op_Ready p = true -> source_planned ResourceRoleSource pvc source (kproj h)) ->
  wp G (planPreActivationOrphan options pvc source p)
    (fun p' h' => op_Ready p' = true -> op_Ready p = true /\ planned (op_Mode p') h') h.
Proof.
  intros Hsrc. unfold planPreActivationOrphan. cbv zeta.
  destruct ((_ <>s "") || _)%bool eqn:Hpair; [by not_ready|]. bool_prop.
  apply wp_oask; [by apply HG|]. intros [sources|e]; [|by not_ready].
  apply wp_oask; [by apply HG|]. intros [claims|e]; [|by not_ready].
  unfold matchPreActivationDestinationPVC. cbv zeta.
  set (r := match matching_claims pvc claims with [c] => _ | _ => _ end).
  assert (pre_SourcePVC r = PVCReference (Some pvc) /\ pre_SourcePV r = PVReference (Some source) /\
          pre_DestinationPV r = empty_reference) as (Hr1 & Hr2 & Hr3).
  { subst r. by destruct (matching_claims pvc claims) as [|? [|? ?]]. }
  destruct (Nat.ltb 1 (length (matching_claims pvc claims))); [by not_ready|].
  apply wp_oask; [by apply HG|]. intros [l|e]; [|by not_ready].
  set (p1 := match matching_claims pvc claims with [d] => _ | _ => p end).
  assert (op_Ready p1 = true -> op_Ready p = true /\
            (Name (pre_DestinationPVC r) <> "" -> exists c, matching_claims pvc claims = [c] /\
               pre_DestinationPVC r = PVCReference (Some c) /\ pvc_UID c <> "")) as Hp1.
  { subst r p1. destruct (matching_claims pvc claims) as [|c [|? ?]]; [done| |done].
    unfold validatePreActivationDestinationPVC. rewrite ready_if_failed. intros [Hr Hc]%andb_true_iff. split; [done|].
    intros _. exists c. split_and!; [done|done|]. rewrite negb_involutive in Hc. by bool_prop. }
  apply wp_bind_2. eapply wp_mono; [apply wp_resolve|]. intros [[p2 r2] d] h2 Hs2 (Hp2 & Hr4 & Hr5 & Hr6 & Hd).
  cbn [fst snd] in *.
  set (h1 := Ev (OListPVs (preActivationDestinationSelector sid)) (inl l) :: _ :: _ :: h) in *.
  set (pr := match d with Some pv => _ | None => (p2, r2) end).
  assert (pre_SourcePVC pr.2 = PVCReference (Some pvc) /\ pre_SourcePV pr.2 = PVReference (Some source) /\
          (op_Ready pr.1 = true -> op_Ready p = true /\
             (Name (pre_DestinationPV pr.2) = "" \/ exists destination, destination_planned pvc destination pr.2 h1)))
    as (Hq1 & Hq2 & Hq3).
  { subst pr. destruct d as [d|]; cbn [fst snd].
    2:{ split_and!; [congruence..|]. intros Hr%Hp2%Hp1. split; [apply Hr|]. left. by rewrite Hr6, Hr3. }
    split_and!; [by rewrite <- Hr1, <- Hr4|by rewrite <- Hr2, <- Hr5|].
    destruct (pre_volume_spec (with_destination_pv r2 (PVReference (Some d)) (mget (pv_Annotations d) OriginalPolicyAnnotation)) d
                (mget (pv_Annotations d) OriginalPolicyAnnotation) p2) as [_ Hv].
    intros (Hr & Hm & Hse & Hro & Hpo & Hcl)%Hv. apply Hp2, Hp1 in Hr as [Hr Hmatch]. split; [done|]. right. exists d.
    split_and!; try done. destruct (Hd d eq_refl) as [[Hne ->]|[[s ->] Hin]].
    - left. destruct (Hmatch Hne) as (c & Hc & Href & Hu). exists claims, c. split_and!; [right; left|done|done|].
      rewrite <- Href. apply Hcl. cbn. by rewrite Href.
    - right. exists s, l. split_and!; [right; right; left|left|done]. }
  destruct pr as [p3 r3]. cbn [fst snd] in *. apply wp_bind_2.
  apply (wp_mono _ _ (fun _ h' => h1 `suffix_of` h')).
  { destruct (Name (pre_DestinationPVC r3) <>s ""); [|done].
    eapply wp_extends, wp_mono.
    - apply (wp_olift G (fun _ => quiet_req)); [intros h' q _ [Hw Hq]; apply HG; cbn; by rewrite Hw, Hq|].
      apply wp_of_reads; [by intros ???|apply reads_inspectUnused].
    - intros a h' Hs _ Hs'. by etrans. }
  intros u h3 Hs3 Hs13. apply wp_Ret. rewrite ready_mode. intros Hr%pre_checks_spec.
  assert (op_Ready p3 = true) as Hr' by (destruct u as [u|e]; [done|by rewrite ready_failed in Hr]).
  apply Hq3 in Hr' as [Hr' Hdest]. split; [done|]. exists pvc, source.
  assert (h `suffix_of` h3) as Hs0 by (etrans; [|exact Hs13]; by do 3 apply suffix_cons_r).
  split_and!; [eapply source_planned_mono; [by apply kproj_suffix, Hs0|by apply Hsrc]|done..|].
  destruct Hdest as [?|(x & D1 & D2 & D3 & D4 & D5 & D6 & D7)]; [by left|]. right. exists x.
  split_and!; try done. eapply copy_of_mono; [exact Hs13|done].
Qed.

Lemma wp_checkRecord h :
  wp G (checkOrphanSessionRecord options)
    (fun c h' => forall p, op_Ready (AddCheck p c) = true -> op_Ready p = true /\ owner_cleared h') h.
Proof.
  apply wp_bind_2. eapply wp_mono; [by apply wp_CompositeFind|]. intros [[o|]|e] h' _ Ho; apply wp_Ret; intros p.
  - destruct (stale_record o) eqn:Hst; [|by rewrite ready_failed]. intros Hr. split; [done|]. right. exists o.
    split; [|done]. destruct Ho as [Ho|Ho]; [|done]. unfold stale_record in Hst. by rewrite Ho in Hst.
  - intros Hr. split; [done|]. by left.
  - by rewrite ready_failed.
Qed.

Lemma mark_checks_spec pvc p :
  op_Ready (mark_checks options pvc p) = true ->
  op_Ready p = true /\ foreign_owner (mget (pvc_Annotations pvc) SessionKey) sid = false /\
  foreign_owner (mget (pvc_Labels pvc) SessionKey) sid = false.
Proof.
  unfold mark_checks. cbv zeta. cbn [foldl source_marks fst snd]. rewrite ready_if_warning, !ready_if_failed.
  intros [[Hr H1]%andb_true_iff H2]%andb_true_iff. split; [done|]. unfold foreign_owner.
  rewrite (andb_comm (_ <>s "")), (andb_comm (mget (pvc_Labels pvc) SessionKey <>s "")).
  by apply negb_true_iff in H1 as ->, H2 as ->.
Qed.

Lemma volume_checks_spec pvc current p :
  op_Ready (volume_checks options pvc current p) = true ->
  op_Ready p = true /\ claim_matches pvc current = true /\
  validReclaimPolicy (mget (pv_Annotations current) OriginalPolicyAnnotation) = true /\
  policy_restorable current (mget (pv_Annotations current) OriginalPolicyAnnotation) = true.
Proof.
  unfold volume_checks. cbv zeta. rewrite ready_if_warning, !ready_if_failed, !negb_involutive.
  rewrite !andb_true_iff. tauto.
Qed.

Lemma wp_plan_volume p pvc h :
  Ev (GetPVC (oo_SourceNamespace options) (oo_SourcePVC options)) (inl pvc) ∈ kproj h -> pvc_Phase pvc = ClaimBound ->
  wp G (plan_volume (mark_checks options pvc p) options pvc)
    (fun p' h' => op_Ready p' = true -> op_Ready p = true /\ planned (op_Mode p') h') h.
Proof.
  intros Hin Hb. unfold plan_volume. apply wp_oask; [by apply HG|]. intros [current|e]; [|by not_ready].
  destruct (mget (pv_Labels current) SessionKey <>s sid) eqn:Hs; [by not_ready|]. bool_prop. cbv zeta.
  set (q := volume_checks options pvc current (mark_checks options pvc p)).
  assert (op_Ready q = true -> op_Ready p = true) as Hq by (by intros [[? _]%mark_checks_spec _]%volume_checks_spec).
  assert (forall role, mget (pv_Labels current) ResourceRoleLabel = role -> op_Ready q = true ->
            source_planned role pvc current (Ev (GetPV (pvc_VolumeName pvc)) (inl current) :: kproj h)) as Hsrc.
  { intros role Hrole (Hr & Hc & Hv & Hp)%volume_checks_spec. apply mark_checks_spec in Hr as (Hr & Ha & Hl).
    split_and!; try done; [by right|left]. }
  case_test; bool_prop; [|case_test; bool_prop; [|by not_ready]].
  - eapply wp_mono; [apply wp_planPre; by apply Hsrc|]. intros p' h' _ Hp' [Hr Hpl]%Hp'. auto.
  - eapply wp_mono; [apply wp_planPost; by apply Hsrc|]. intros p' h' _ Hp' [Hr Hpl]%Hp'. auto.
Qed.

(** A plan without failed checks: the names are given, nobody serves the session and the
    resources are those of its mode. *)
Lemma wp_PlanOrphanCleanup h :
  wp G (PlanOrphanCleanup options)
    (fun p h' => op_Ready p = true -> owner_cleared h' /\ planned (op_Mode p) h') h.
Proof.
  unfold PlanOrphanCleanup. cbv zeta. destruct (op_Ready (option_checks options)) eqn:Ho; cbn [negb].
  2:{ apply wp_Ret. congruence. }
  apply wp_bind_2. eapply wp_mono; [apply wp_checkRecord|]. intros c h1 _ Hc.
  apply wp_oask; [by apply HG|]. intros [pvc|e].
  - destruct (_ || _)%bool eqn:Hb; [by not_ready|]. bool_prop. apply bool_decide_eq_true in H.
    eapply wp_mono; [apply wp_plan_volume; [left|done]|]. intros p h2 Hs Hp [Hr Hpl]%Hp. apply Hc in Hr as [_ Hr].
    split; [|done]. eapply owner_cleared_mono; [|exact Hr]. by eapply suffix_cons_l.
  - destruct (IsNotFound e) eqn:He; [|by not_ready].
    eapply wp_mono; [eapply wp_planDeleted; [exact He|left]|]. intros p h2 Hs [Hp Hpl] Hr. split; [|by apply Hpl].
    apply Hp, Hc in Hr as [_ Hr]. eapply owner_cleared_mono; [|exact Hr]. by eapply suffix_cons_l.
Qed.

End plan.

(** *** What the cleanup may change *)

(** The volume of the copy, to be deleted. *)
Definition destination_volume (r : OrphanPreActivationCleanup) : reclaimVolume :=
  {| rv_uncheckpointed := None; rv_skipMissingPV := false; rv_role := ResourceRoleDestination;
     rv_pvc := pre_DestinationPVC r; rv_pv := pre_DestinationPV r; rv_policy := pre_DestinationPolicy r;
     rv_metadata := {| meta_Labels := ∅; meta_Annotations := ∅; meta_OwnerReferences := [] |}; rv_delete := true |}.

(** A claim goes right behind a passed fence and a read of it as recorded, still marked as
    the destination of this source, after it was found unused or absent. *)
Definition claim_delete_allowed (r : OrphanPreActivationCleanup) (k : trace) (ns name uid rv : string) : Prop :=
  ns = Namespace (pre_DestinationPVC r) /\ name = Name (pre_DestinationPVC r) /\ uid = UID (pre_DestinationPVC r) /\
  (exists d k0, k = Ev FenceErr None :: Ev CtxErr None :: Ev (GetPVC ns name) (inl d) :: k0 /\
     pvc_UID d = uid /\ pvc_ResourceVersion d = rv /\ destination_owned d sid (UID (pre_SourcePVC r)) = true) /\
  (claim_unused sid (pre_DestinationPVC r) k \/ claim_absent (pre_DestinationPVC r) k).

(** The session's own reservation Pods, as listed. *)
Definition pod_delete_allowed (k : trace) (ns name uid : string) (rv : option string) : Prop :=
  just_fenced k /\ exists ref, listed_own sid ref k /\ ns = Namespace ref /\ name = Name ref /\ uid = UID ref /\
    rv = Some (ResourceVersion ref).

(** The source claim, read as recorded and not of another session, loses the marks. *)
Definition claim_finalize_allowed (ref : ObjectReference) (k : trace) (p' : PVC) : Prop :=
  just_fenced k /\ exists p, Ev (GetPVC (Namespace ref) (Name ref)) (inl p) ∈ k /\ pvc_UID p = UID ref /\
    pvc_ResourceVersion p = ResourceVersion ref /\
    foreign_owner (mget (pvc_Annotations p) SessionKey) sid = false /\
    foreign_owner (mget (pvc_Labels p) SessionKey) sid = false /\ p' = orphan_finalized_pvc p.

(** The volume in use, read as recorded and of this session in this role, loses the marks
    and gets its recorded policy back. *)
Definition volume_finalize_allowed (ref : ObjectReference) (role : string) (k : trace) (pv' : PV) : Prop :=
  just_fenced k /\ exists pv p, Ev (GetPV (Name ref)) (inl pv) ∈ k /\ pv_UID pv = UID ref /\
    pv_ResourceVersion pv = ResourceVersion ref /\ mget (pv_Labels pv) SessionKey = sid /\
    mget (pv_Labels pv) ResourceRoleLabel = role /\
    policy_string p = mget (pv_Annotations pv) OriginalPolicyAnnotation /\ pv' = pv_set_policy (orphan_finalized_pv pv) p.

(** The volume kept for a rollback, read again as planned. *)
Definition rollback_read (r : OrphanPostActivationCleanup) (k : trace) (pv : PV) : Prop :=
  Ev (GetPV (Name (post_RollbackPV r))) (inl pv) ∈ k /\ rollback_deletable pv (post_RollbackPV r) sid = true /\
  rollback_policy_kept pv (post_RollbackPolicy r) = true.

Definition rollback_delete_allowed (r : OrphanPostActivationCleanup) (k : trace) (name uid rv : string) : Prop :=
  just_fenced k /\ exists pv target, rollback_read r k pv /\
    name = pv_Name target /\ uid = pv_UID target /\ rv = pv_ResourceVersion target /\
    ((target = pv /\ live_policy pv = post_RollbackPolicy r) \/
     exists p, policy_string p = post_RollbackPolicy r /\ Ev (UpdatePV (pv_set_policy pv p)) (inl (Some target)) ∈ k).

Definition rollback_update_allowed (r : OrphanPostActivationCleanup) (k : trace) (pv' : PV) : Prop :=
  just_fenced k /\ exists pv p, rollback_read r k pv /\ policy_string p = post_RollbackPolicy r /\ pv' = pv_set_policy pv p.

Definition mode_guard (mode : OrphanCleanupMode) (k : trace) (q : req) : Prop :=
  match mode, q with
  | PostActivation r, DeletePV name uid rv => rollback_delete_allowed r k name uid rv
  | PostActivation r, UpdatePV pv' =>
      rollback_update_allowed r k pv' \/ volume_finalize_allowed (post_ActivePV r) ResourceRoleActive k pv'
  | PostActivation r, UpdatePVC p' => claim_finalize_allowed (post_SourcePVC r) k p'
  | PreActivation r, DeletePod ns name uid rv => pod_delete_allowed k ns name uid rv
  | PreActivation r, DeletePVC ns name uid rv => claim_delete_allowed r k ns name uid rv
  | PreActivation r, DeletePV name uid rv => volume_delete_ok sid (destination_volume r) k name uid rv
  | PreActivation r, UpdatePV pv' =>
      volume_update_ok sid (destination_volume r) k pv' \/ volume_finalize_allowed (pre_SourcePV r) ResourceRoleSource k pv'
  | PreActivation r, UpdatePVC p' => claim_finalize_allowed (pre_SourcePVC r) k p'
  | _, q => is_write q = false
  end.

(** The lock is held, and no session record has its name. *)
Definition held (h : otrace) : Prop :=
  lease_taken (oo_SessionNamespace options) sid h /\ configmap_absent (oo_SessionNamespace options) sid h.

(** Nothing carries the session any more, as seen just now behind a passed fence. *)
Definition nothing_left (h : otrace) : Prop :=
  exists pvcs h0,
    h = Ev (OKube FenceErr) None :: Ev (OKube CtxErr) None :: Ev (OListPods "" (sprint [SessionKey; "="; sid])) (inl []) ::
        Ev (OListPVs (sprint [SessionKey; "="; sid])) (inl []) :: Ev (OListPVCs "" "") (inl pvcs) :: h0 /\
    existsb (claim_of_session sid) pvcs = false.

Definition orphan_guard (h : otrace) (q : oreq) : Prop :=
  match q with
  | OKube r =>
      is_write r = false \/ exists mode, held h /\ owner_cleared h /\ planned mode h /\ mode_guard mode (kproj h) r
  | ODeleteConfigMap ns name =>
      held h /\ name = SessionConfigMapName sid /\
      exists o, record_seen sid namespaces o h /\ stale_record o = true /\ ns = owner_SessionNamespace o
  | ODeleteLease => held h /\ nothing_left h
  | OAcquireLease ns i => ns = oo_SessionNamespace options /\ i = sid /\ configmap_absent ns i h
  | OReleaseLease => lease_taken (oo_SessionNamespace options) sid h
  | OPanic => exists pv h0, h = Ev (OKube (UpdatePV pv)) (inl None) :: h0
  | q => o_read q = true
  end.

Lemma orphan_reads : o_reads orphan_guard.
Proof. intros h q Hq. destruct q; try done. left. by apply andb_true_iff in Hq as [H1%negb_true_iff _]. Qed.

Lemma mode_reads mode : reads_ok (mode_guard mode).
Proof. intros k q Hw Hp. by destruct mode, q. Qed.

(** *** The steps *)

Section steps.
Context (K : trace -> req -> Prop) (HK : reads_ok K).
Notation tt_post := (fun _ _ => True).

Lemma wp_fence_exact (k : kube (option err)) (Q : option err -> trace -> Prop) h :
  (forall e h', Q (Some e) h') -> wp K k Q (Ev FenceErr None :: Ev CtxErr None :: h) ->
  wp K (check: checkpointFenceError; k) Q h.
Proof.
  intros He Hk. apply wp_check. apply wp_step; [by apply HK|]. intros [e|]; [apply He|].
  apply wp_call; [apply HK|done|done|]. intros [e|]; [apply He|done].
Qed.

Lemma wp_fence_last h : wp K checkpointFenceError tt_post h.
Proof. apply wp_step; [by apply HK|]. intros [e|]; [done|]. by apply wp_call; [apply HK|..]. Qed.

Lemma wp_finalizeOrphanPVC ref h :
  (forall k p', claim_finalize_allowed ref k p' -> K k (UpdatePVC p')) ->
  wp K (finalizeOrphanPVC sid ref) tt_post h.
Proof.
  intros Hok. apply wp_step; [by apply HK|]. intros [pvc|e]; [|done]. cbv zeta. case_test; [done|]. bool_prop.
  case_test; [by case_test|]. apply wp_fence_exact; [done|]. apply wp_step.
  { apply Hok. split; [by eexists|]. exists pvc. split_and!; try done. do 2 right. left. }
  intros u. apply wp_check_Ret. destruct (match u with Some _ => _ | None => _ end); [done|]. apply wp_fence_last.
Qed.

Lemma wp_update_policy {A} pv policy (k : result (option PV) -> kube A) Q h :
  validReclaimPolicy policy = true ->
  (forall p, policy_string p = policy -> K h (UpdatePV (pv_set_policy pv p)) /\
     forall u, wp K (k u) Q (Ev (UpdatePV (pv_set_policy pv p)) u :: h)) ->
  wp K (update_pv_policy pv policy ≫= k) Q h.
Proof.
  intros [p Hp]%policy_of_string_valid Hk. unfold update_pv_policy. rewrite Hp.
  apply policy_of_string_Some, Hk in Hp as [H1 H2]. by apply wp_step.
Qed.

Lemma wp_finalizeOrphanPV ref role h :
  (forall k pv', volume_finalize_allowed ref role k pv' -> K k (UpdatePV pv')) ->
  wp K (finalizeOrphanPV sid ref role) tt_post h.
Proof.
  intros Hok. apply wp_step; [by apply HK|]. intros [pv|e]; [|done]. cbv zeta. case_test; [done|]. bool_prop.
  destruct (validReclaimPolicy _) eqn:Hv; cbn [negb]; [|done]. apply wp_fence_exact; [done|].
  apply wp_update_policy; [done|]. intros p Hp. split.
  { apply Hok. split; [by eexists|]. exists pv, p. split_and!; try done. do 2 right. left. }
  intros u. apply wp_check_Ret. destruct (match error_of u with Some _ => _ | None => _ end); [done|]. apply wp_fence_last.
Qed.

(** [pv] is deleted: it was read as planned, or is what the server returned when the
    policy was restored on it. *)
Lemma wp_delete_rollback pv ref h :
  (forall k, just_fenced k -> h `suffix_of` k -> K k (DeletePV (pv_Name pv) (pv_UID pv) (pv_ResourceVersion pv))) ->
  wp K (delete_rollback polls pv ref) tt_post h.
Proof.
  intros Hok. apply wp_fence_exact; [done|]. apply wp_step.
  { apply Hok; [by eexists|]. by do 2 apply suffix_cons_r. }
  intros d. apply wp_check_Ret. destruct (unless_gone _ _); [done|]. apply wp_fence_exact; [done|].
  apply wp_of_reads; [done|]. unfold waitForPVDeletion, wait_error. reads_tac.
Qed.
End steps.

Lemma wp_delete_destination_claim r h :
  wp (mode_guard (PreActivation r)) (delete_destination_claim polls sid r) (fun _ _ => True) h.
Proof.
  pose proof (mode_reads (PreActivation r)) as HK. unfold delete_destination_claim. case_test; [done|].
  apply wp_try. eapply wp_mono; [eapply wp_guard_mono; [apply wp_inventory|]; intros k q _ Hq; by destruct q|].
  intros [pods|e] h1 _ Hpods; [|done]. apply wp_check. apply (wp_mono _ _ (fun _ _ => True)).
  { eapply wp_guard_mono; [by apply (wp_consumers polls pods pods)|]. intros k q Hs Hq. destruct q; try done.
    destruct Hq as (Hf & ref & Hin & Href). split; [done|]. exists ref. split; [|done].
    destruct (Hpods _ eq_refl ref Hin) as (ns & l & pod & H1 & H2). exists ns, l, pod. split; [by eapply suffix_elem|done]. }
  intros [e|] h2 _ _; [done|]. apply wp_try.
  eapply wp_mono.
  { eapply wp_guard_mono; [eapply wp_of_reads_post; [apply reads_inspectUnused|apply (wp_inspect sid (destination_volume r) false)]|].
    intros k q _ [Hw Hp]. by apply HK. }
  intros [o|e] h3 _ Hu; [|done]. specialize (Hu o eq_refl).
  apply wp_step; [by apply HK|]. intros [d|e]; [|by case_test]. case_test; [done|]. bool_prop.
  apply wp_fence_exact; [done|done|]. apply wp_step.
  { split_and!; [done..| |].
    - eexists d, _. split_and!; try done.
    - destruct Hu as [Hu|Hu]; [left; eapply claim_unused_mono; [|exact Hu]|right; eapply claim_absent_mono; [|exact Hu]];
        by do 3 apply suffix_cons_r. }
  intros x. apply wp_check_Ret. destruct (unless_gone _ _); [done|]. by apply wp_fence_last.
Qed.

Lemma wp_delete_destination_volume r h :
  wp (mode_guard (PreActivation r)) (delete_destination_volume polls sid r) (fun _ _ => True) h.
Proof.
  unfold delete_destination_volume. case_test; [done|].
  eapply wp_guard_mono.
  { apply (wp_only keeps_claims (reclaim_guard sid (destination_volume r) false)); [apply only_deleteReclaimedPV|].
    by apply (wp_deleteReclaimedPV polls sid (destination_volume r) false). }
  intros k q _ [Hq Hkeep]. case_req q; try done; [by left|]. by destruct Hq as (_ & ? & _).
Qed.

Lemma wp_pre_kube r h :
  wp (mode_guard (PreActivation r)) (
    check: delete_destination_claim polls sid r;
    check: delete_destination_volume polls sid r;
    check: finalizeOrphanPVC sid (pre_SourcePVC r);
    finalizeOrphanPV sid (pre_SourcePV r) ResourceRoleSource) (fun _ _ => True) h.
Proof.
  pose proof (mode_reads (PreActivation r)) as HK.
  apply wp_check. eapply wp_mono; [apply wp_delete_destination_claim|]. intros [e|] h1 _ _; [done|].
  apply wp_check. eapply wp_mono; [apply wp_delete_destination_volume|]. intros [e|] h2 _ _; [done|].
  apply wp_check. eapply wp_mono; [by apply wp_finalizeOrphanPVC|]. intros [e|] h3 _ _; [done|].
  apply wp_finalizeOrphanPV; [done|]. intros k pv' Hok. by right.
Qed.

(** *** Under the lock *)

Lemma held_mono h h' : h `suffix_of` h' -> held h -> held h'.
Proof.
  intros Hs [H1 (e & He & H2)]. split; [by eapply suffix_elem|]. exists e. split; [done|by eapply suffix_elem].
Qed.

(** A program of the cluster that its mode allows. *)
Lemma wp_mode mode {A} (p : kube A) (P : A -> trace -> Prop) h :
  held h -> owner_cleared h -> planned mode h -> wp (mode_guard mode) p P (kproj h) ->
  wp orphan_guard (olift p) (fun a h' => P a (kproj h')) h.
Proof.
  intros Hh Ho Hp. apply wp_olift. intros h' q Hs Hq. right. exists mode.
  split_and!; [by eapply held_mono|by eapply owner_cleared_mono|by eapply planned_mono|done].
Qed.

Lemma wp_mode_check mode (p : kube (option err)) (k : orphan (option err)) h :
  held h -> owner_cleared h -> planned mode h -> wp (mode_guard mode) p (fun _ _ => True) (kproj h) ->
  (forall h', held h' -> owner_cleared h' -> planned mode h' -> h `suffix_of` h' -> wp orphan_guard k (fun _ _ => True) h') ->
  wp orphan_guard (check: olift p; k) (fun _ _ => True) h.
Proof.
  intros Hh Ho Hp Hw Hk. apply wp_check. eapply wp_mono; [by eapply wp_mode|]. intros [e|] h' Hs _; [done|].
  apply Hk; [by eapply held_mono|by eapply owner_cleared_mono|by eapply planned_mono|done].
Qed.

Lemma wp_deleteOrphanRollbackPV r h :
  held h -> owner_cleared h -> planned (PostActivation r) h ->
  wp orphan_guard (deleteOrphanRollbackPV polls sid (post_RollbackPV r) (post_RollbackPolicy r)) (fun _ _ => True) h.
Proof.
  intros Hh Ho Hp. pose proof (mode_reads (PostActivation r)) as HK. unfold deleteOrphanRollbackPV.
  apply wp_oask; [by apply orphan_reads|]. intros [pv|e]; [|by case_test].
  case_test; [done|]. case_test; [done|]. bool_prop.
  set (h1 := Ev (OKube (GetPV (Name (post_RollbackPV r)))) (inl pv) :: h).
  assert (h `suffix_of` h1) as Hs1 by by apply suffix_cons_r.
  assert (held h1 /\ owner_cleared h1 /\ planned (PostActivation r) h1) as (Hh1 & Ho1 & Hp1)
    by (split_and!; [by eapply held_mono|by eapply owner_cleared_mono|by eapply planned_mono]).
  assert (forall k, kproj h1 `suffix_of` k -> rollback_read r k pv) as Hread.
  { intros k Hk. split; [|done]. eapply suffix_elem; [exact Hk|left]. }
  case_test; bool_prop.
  { eapply wp_mono; [eapply wp_mode; [done..|]|done]. apply wp_delete_rollback; [done|]. intros k Hf Hk.
    split; [done|]. exists pv, pv. split_and!; try done; [by apply Hread|by left]. }
  apply wp_check. eapply (wp_mono _ _ (fun e h' => e = None -> just_fenced (kproj h') )).
  { eapply (wp_mode _ _ (fun e k => e = None -> just_fenced k)); [done..|].
    apply wp_step; [by apply HK|]. intros [x|]; [done|]. apply wp_call; [apply HK|done|done|].
    intros [x|]; [done|]. intros _. by eexists. }
  intros [x|] h2 Hs2 Hf; [done|]. specialize (Hf eq_refl).
  destruct (rollback_policy_kept pv (post_RollbackPolicy r)) eqn:Hkept; [|done].
  assert (validReclaimPolicy (post_RollbackPolicy r) = true) as [p Hpol]%policy_of_string_valid.
  { unfold rollback_policy_kept in Hkept. by do 2 apply andb_true_iff in Hkept as [Hkept _]. }
  unfold update_pv_policy. rewrite Hpol. apply policy_of_string_Some in Hpol.
  assert (held h2 /\ owner_cleared h2 /\ planned (PostActivation r) h2) as (Hh2 & Ho2 & Hp2)
    by (split_and!; [by eapply held_mono|by eapply owner_cleared_mono|by eapply planned_mono]).
  split.
  { right. exists (PostActivation r). split_and!; [done..|]. left. split; [done|]. exists pv, p. split_and!; [|done|done].
    by apply Hread, kproj_suffix. }
  intros [[target|]|x]; [|split; [by eexists _, _|done]|done]. cbn [olift prog_bind].
  set (h3 := Ev (OKube (UpdatePV (pv_set_policy pv p))) (inl (Some target)) :: h2).
  assert (h2 `suffix_of` h3) as Hs3 by by apply suffix_cons_r.
  eapply wp_mono; [eapply (wp_mode (PostActivation r))|done];
    [by eapply held_mono|by eapply owner_cleared_mono|by eapply planned_mono|].
  apply wp_delete_rollback; [done|]. intros k Hk Hsk. split; [done|]. exists pv, target. split_and!; try done.
  - apply Hread. etrans; [|exact Hsk]. apply kproj_suffix. by etrans.
  - right. exists p. split; [done|]. eapply suffix_elem; [exact Hsk|left].
Qed.

Lemma wp_cleanup_mode mode h :
  held h -> owner_cleared h -> planned mode h ->
  wp orphan_guard (cleanup_mode polls options mode) (fun _ _ => True) h.
Proof.
  intros Hh Ho Hp. destruct mode as [|r|r|]; [done| | |done]; cbn [cleanup_mode].
  - eapply wp_mono; [eapply wp_mode; [done..|apply wp_pre_kube]|done].
  - pose proof (mode_reads (PostActivation r)) as HK. unfold cleanupPostActivationOrphan.
    apply wp_check. eapply wp_mono; [by apply wp_deleteOrphanRollbackPV|]. intros [e|] h1 Hs1 _; [done|].
    eapply wp_mode_check; [by eapply held_mono|by eapply owner_cleared_mono|by eapply planned_mono|by apply wp_finalizeOrphanPVC|].
    intros h2 Hh2 Ho2 Hp2 _. eapply wp_mono; [eapply wp_mode; [done..|]|done].
    apply wp_finalizeOrphanPV; [done|]. intros k pv' Hok. by right.
Qed.

Lemma wp_stale_record h :
  held h -> wp orphan_guard (deleteStaleSessionRecord options) (fun _ _ => True) h.
Proof.
  intros Hh. apply wp_bind_2. eapply wp_mono; [apply wp_CompositeFind; apply orphan_reads|].
  intros [[o|]|e] h' Hs Ho; [|done|done]. destruct (stale_record o) eqn:Hst; [|done]. cbn [negb].
  apply wp_oask; [|done]. split_and!; [by eapply held_mono|done|]. exists o. split_and!; [|done|done].
  destruct Ho as [Ho|Ho]; [|done]. unfold stale_record in Hst. by rewrite Ho in Hst.
Qed.

Lemma wp_session_record h :
  held h -> wp orphan_guard (delete_session_record options) (fun _ _ => True) h.
Proof.
  intros Hh. apply wp_check. eapply wp_mono; [by apply wp_stale_record|]. intros [e|] h1 Hs1 _; [done|].
  apply (held_mono _ _ Hs1) in Hh. apply wp_try. unfold hasOrphanSessionResources. cbv zeta.
  apply wp_oask; [done|]. intros [pvcs|e]; [|done]. destruct (existsb _ pvcs) eqn:Hc; [done|].
  apply wp_oask; [done|]. intros [[|pv pvs]|e]; [|done|done]. apply wp_oask; [done|]. intros [pods|e]; [|done].
  apply wp_Ret. case_bool_decide as Hp; [subst; cbn [negb]|done].
  apply wp_check. cbn [checkpointFenceError olift]. split; [by left|]. intros [e|]; [done|].
  split; [by left|]. intros [e|]; [done|]. split; [|done]. split; [|by eexists _, _].
  eapply held_mono; [|exact Hh]. by do 5 apply suffix_cons_r.
Qed.

Lemma wp_cleanup_locked h :
  held h -> wp orphan_guard (cleanup_locked polls options) (fun _ _ => True) h.
Proof.
  intros Hh. unfold cleanup_locked. apply wp_bind_2.
  eapply wp_mono; [apply wp_PlanOrphanCleanup; apply orphan_reads|]. intros plan h1 Hs1 Hp.
  apply (held_mono _ _ Hs1) in Hh. apply wp_bind_2. apply (wp_mono _ _ (fun _ _ => True)); [|done].
  destruct (op_Ready plan) eqn:Hr; cbn [negb]; [|done]. destruct (Hp Hr) as [Ho Hpl].
  apply wp_check. eapply wp_mono; [by apply wp_cleanup_mode|]. intros [e|] h2 Hs2 _; [done|].
  apply wp_session_record. by eapply held_mono.
Qed.

Lemma wp_CleanupOrphan : wp orphan_guard (CleanupOrphan polls options) (fun _ _ => True) [].
Proof.
  unfold CleanupOrphan. case_test; [done|]. apply wp_bind_2. unfold CRDWorkflowLocker_Acquire.
  apply wp_check. eapply wp_mono; [apply wp_configmap_free; apply orphan_reads|]. intros [e|] h1 _ Hc; [done|].
  specialize (Hc eq_refl). apply wp_check, wp_oask; [done|]. intros [e|]; [done|]. apply wp_bind_2.
  eapply wp_mono; [apply wp_configmap_free; apply orphan_reads|]. intros [e|] h2 Hs2 Hc2.
  { apply wp_oask; [|done]. eapply suffix_elem; [exact Hs2|left]. }
  apply wp_Ret. assert (held h2) as Hh2.
  { split; [eapply suffix_elem; [exact Hs2|left]|by apply Hc2]. }
  apply wp_bind_2. eapply wp_mono; [by apply wp_cleanup_locked|]. intros r h3 Hs3 _.
  apply wp_oask; [by left|]. intros f. apply wp_oask; [|done]. right.
  eapply suffix_elem; [exact Hs3|apply Hh2].
Qed.

(** A record of the session in its own namespace blocks the recovery, also when no build
    serves its kind and the plan promises to delete it: the lock is refused after one
    read. *)
Lemma record_blocks_cleanup {W} (server : handler (R := oresp) W) w :
  oo_SessionNamespace options <> "" -> sid <> "" ->
  (server (OGetConfigMap (oo_SessionNamespace options) (SessionConfigMapName sid)) w).1 = None ->
  let out := run server (CleanupOrphan polls options) w [] in
  (exists e, out.1.1 = Some (None, Some e)) /\
  out.2 = [Ev (OGetConfigMap (oo_SessionNamespace options) (SessionConfigMapName sid)) None].
Proof.
  intros Hn Hi Hg. cbv zeta. apply String.eqb_neq in Hn, Hi. unfold CleanupOrphan. rewrite Hn, Hi. cbn [orb].
  unfold CRDWorkflowLocker_Acquire. rewrite run_bind. cbn [checkConfigMapNameCollision].
  unfold check. rewrite run_bind. cbn [call mbind prog_mbind prog_bind run]. rewrite Hg. cbn. by eauto.
Qed.

End safety.
