(* ===== verification/SessionLease.v ===== *)
(** * The session lock: internal/kube/session_lease.go and lease_fence.go

    A workflow holds a coordination Lease while it works: acquired by create or
    by an optimistic claim of an unheld or expired Lease, renewed periodically,
    released or deleted at the end.  Times and durations are nanoseconds. *)

From S2P Require Import Prelude Utf8 GoErrors Lifecycle KubeTypes Prog Sha256 Names.
From Stdlib Require Import Ascii.

#[local] Open Scope Z_scope.

Definition Second : Z := 1000000000.
Definition defaultSessionLeaseDuration : Z := 30 * Second.
Definition defaultSessionLeaseRenewEvery : Z := 10 * Second.
Definition maxLeaseDurationSeconds : Z := 2 ^ 31 - 1.

(** An [int32] of a mathematical integer. *)
Definition int32 (z : Z) : Z := (z + 2 ^ 31) mod 2 ^ 32 - 2 ^ 31.

(** ** Timing *)

(** Go's [/] and [%] truncate; the duration is positive where they are used. *)
Definition leaseDurationSeconds (duration : Z) : Z :=
  if duration <=? 0 then 1 else
  let seconds := Z.quot duration Second in
  let seconds := if Z.rem duration Second =? 0 then seconds else seconds + 1 in
  let seconds := if maxLeaseDurationSeconds <? seconds then maxLeaseDurationSeconds else seconds in
  int32 seconds.

Definition normalizeLeaseTiming (duration renewEvery : Z) : Z * Z :=
  let duration := if duration <=? 0 then defaultSessionLeaseDuration else duration in
  let renewEvery := if renewEvery <=? 0 then defaultSessionLeaseRenewEvery else renewEvery in
  let maxRenewEvery := Z.quot duration 3 in
  let maxRenewEvery := if maxRenewEvery <=? 0 then 1 else maxRenewEvery in
  (duration, if maxRenewEvery <? renewEvery then maxRenewEvery else renewEvery).

Definition renewTimeout (duration renewEvery : Z) : Z :=
  let timeout :=
    if ((renewEvery <=? 0) || (Z.quot duration 3 <? renewEvery))%bool then Z.quot duration 3
    else renewEvery in
  if timeout <=? 0 then Second else timeout.

(** ** The Lease object *)

Record Lease := {
  lease_Namespace : string;
  lease_Name : string;
  lease_UID : string;
  lease_ResourceVersion : string;
  lease_Labels : gmap string string;
  lease_HolderIdentity : option string;
  lease_DurationSeconds : option Z;
  lease_AcquireTime : option Time;
  lease_RenewTime : option Time;
  lease_Transitions : option Z
}.

Definition sessionLeaseExpired (lease : Lease) (now : Time) : bool :=
  let since (renewed : Time) : bool :=
    let duration :=
      match lease_DurationSeconds lease with
      | Some d => if 0 <? d then d * Second else defaultSessionLeaseDuration
      | None => defaultSessionLeaseDuration
      end in
    duration <=? now - renewed in
  match lease_RenewTime lease with
  | Some renewed => since renewed
  | None =>
      match lease_AcquireTime lease with
      | Some acquired => since acquired
      | None => true
      end
  end.

Definition set_holder (l : Lease) (holder : option string) (duration : option Z)
    (acquire renew : option Time) (transitions : option Z) : Lease :=
  {| lease_Namespace := lease_Namespace l; lease_Name := lease_Name l; lease_UID := lease_UID l;
     lease_ResourceVersion := lease_ResourceVersion l; lease_Labels := lease_Labels l;
     lease_HolderIdentity := holder; lease_DurationSeconds := duration;
     lease_AcquireTime := acquire; lease_RenewTime := renew; lease_Transitions := transitions |}.

(** The identity of a lock held by this process. *)
Record sessionLease := {
  lock_namespace : string;
  lock_name : string;
  lock_sessionID : string;
  lock_holder : string;
  lock_uid : string;
  lock_duration : Z;
  lock_renewEvery : Z
}.

Definition owns (l : sessionLease) (lease : Lease) : bool :=
  ((lock_uid l <>s "") && (lease_UID lease =s lock_uid l)
   && (mget (lease_Labels lease) ManagedByLabel =s ManagedByValue)
   && (mget (lease_Labels lease) SessionKey =s lock_sessionID l)
   && match lease_HolderIdentity lease with Some h => h =s lock_holder l | None => false end)%bool.

(** ** Requests *)

Inductive lreq :=
| LNow
| LCtxErr
| NewUUID
| LSleep (d : Z)
| GetLease (name : string)
| CreateLease (lease : Lease)
| UpdateLease (lease : Lease)
| DeleteLease (name uid resourceVersion : string).

Definition lresp (r : lreq) : Type :=
  match r with
  | LNow => Time
  | LCtxErr => option err
  | NewUUID => string
  | LSleep _ => unit
  | GetLease _ => result Lease
  | CreateLease _ | UpdateLease _ => result (option Lease)
  | DeleteLease _ _ _ => option err
  end.

Notation lprog := (prog lreq lresp).
Notation ltrace := (history lresp).

(** [strings.ToLower] on the ASCII letters of a message. *)
Definition lower_ascii (c : ascii) : ascii :=
  if byte_in 65 90 c then ascii_of_N (byte_val c + 32) else c.

Fixpoint has_prefix (p s : list ascii) : bool :=
  match p, s with
  | [], _ => true
  | a :: p', b :: s' => (Ascii.eqb a b && has_prefix p' s')%bool
  | _, [] => false
  end.

(** [strings.Contains] *)
Fixpoint contains_bytes (needle s : list ascii) : bool :=
  (has_prefix needle s || match s with [] => false | _ :: rest => contains_bytes needle rest end)%bool.

Definition mentions_termination (e : err) : bool :=
  contains_bytes (bytes "being terminated") (map lower_ascii (bytes (error_text e))).

Definition isSessionNamespaceTerminating (e : option err) : bool :=
  match e with
  | None => false
  | Some e =>
      (is_sentinel ErrSessionNamespaceTerminating e || (IsForbidden e && mentions_termination e))%bool
  end.

(** ** Acquiring *)

Definition new_lease (namespace name holder : string) (labels : gmap string string) (duration : Z)
    (now : Time) : Lease :=
  {| lease_Namespace := namespace; lease_Name := name; lease_UID := ""; lease_ResourceVersion := "";
     lease_Labels := labels; lease_HolderIdentity := Some holder;
     lease_DurationSeconds := Some duration; lease_AcquireTime := Some now;
     lease_RenewTime := Some now; lease_Transitions := Some 1 |}.

Definition claimed_lease (l : Lease) (holder : string) (duration : Z) (now : Time) : Lease :=
  set_holder l (Some holder) (Some duration) (Some now) (Some now)
    (Some match lease_Transitions l with Some t => int32 (t + 1) | None => 1 end).

Definition held (l : Lease) : bool :=
  match lease_HolderIdentity l with Some h => h <>s "" | None => false end.

Definition contention (message : string) : err :=
  WrapError ErrorConflict "acquire session lock" message
    (ESentinel ErrSessionLockContention "session lock contention").

Definition lock_of (namespace name labelSessionID holder uid : string) (duration renewEvery : Z) : sessionLease :=
  let '(duration, renewEvery) := normalizeLeaseTiming duration renewEvery in
  {| lock_namespace := namespace; lock_name := name; lock_sessionID := labelSessionID;
     lock_holder := holder; lock_uid := uid; lock_duration := duration; lock_renewEvery := renewEvery |}.

Definition kube_error (op message : string) (e : err) : err := WrapError ErrorKubernetes op message e.

(** The parameters fixed before the loop. *)
Record attempt := {
  at_namespace : string;
  at_name : string;
  at_id : string;
  at_label : string;
  at_holder : string;
  at_duration : Z;
  at_renewEvery : Z;
  at_now : Time
}.

Definition at_seconds (a : attempt) : Z := leaseDurationSeconds (at_duration a).
Definition at_labels (a : attempt) : gmap string string :=
  {[ManagedByLabel := ManagedByValue; SessionKey := at_label a]}.
Definition at_lock (a : attempt) (uid : string) : sessionLease :=
  lock_of (at_namespace a) (at_name a) (at_label a) (at_holder a) uid (at_duration a) (at_renewEvery a).
Definition at_path (a : attempt) : string := sprint [at_namespace a; "/"; at_name a].

(** The result of a create or claim: an object with a UID. *)
Definition identified (a : attempt) (created : option Lease) (verb : string) : result sessionLease :=
  let incomplete :=
    inr (NewError ErrorKubernetes "acquire session lock"
      (sprint [verb; " Lease "; at_path a; " returned an incomplete identity"])) in
  match created with
  | None => incomplete
  | Some l => if lease_UID l =s "" then incomplete else inl (at_lock a (lease_UID l))
  end.

Fixpoint acquire_loop (n : nat) (a : attempt) : lprog (result sessionLease) :=
  match n with
  | O => Ret (inr (contention (sprint ["session "; at_id a; " lock acquisition raced with another process"])))
  | S n' =>
      r ← call (GetLease (at_name a));
      match r with
      | inr e =>
          if IsNotFound e then
            c ← call (CreateLease (new_lease (at_namespace a) (at_name a) (at_holder a) (at_labels a)
                                     (at_seconds a) (at_now a)));
            match c with
            | inl created => Ret (identified a created "create")
            | inr e =>
                if IsAlreadyExists e then acquire_loop n' a
                else if (IsForbidden e && mentions_termination e)%bool then
                  Ret (inr (kube_error "acquire session lock" ("create Lease " +:+ at_path a)
                    (ESentinel ErrSessionNamespaceTerminating "session namespace is terminating")))
                else Ret (inr (kube_error "acquire session lock" ("create Lease " +:+ at_path a) e))
            end
          else Ret (inr (kube_error "acquire session lock" ("read Lease " +:+ at_path a) e))
      | inl lease =>
          if lease_UID lease =s "" then
            Ret (inr (NewError ErrorKubernetes "acquire session lock"
              (sprint ["Lease "; at_path a; " has an incomplete identity"]))) else
          if ((mget (lease_Labels lease) ManagedByLabel <>s ManagedByValue)
              || (mget (lease_Labels lease) SessionKey <>s at_label a))%bool then
            Ret (inr (NewError ErrorConflict "acquire session lock"
              (sprint ["Lease "; at_path a; " is owned by another resource"]))) else
          busy ← (if held lease then now ← call LNow; Ret (negb (sessionLeaseExpired lease now))
                  else Ret false);
          if (busy : bool) then
            Ret (inr (contention (sprint ["session "; at_id a; " is already being changed"]))) else
          c ← call (UpdateLease (claimed_lease lease (at_holder a) (at_seconds a) (at_now a)));
          match c with
          | inl claimed => Ret (identified a claimed "claim")
          | inr e =>
              if IsConflict e then
                Ret (inr (contention (sprint ["session "; at_id a; " changed while acquiring its lock"])))
              else Ret (inr (kube_error "acquire session lock" ("claim Lease " +:+ at_path a) e))
          end
      end
  end.

Definition acquireWorkflowLease (namespace id labelSessionID : string) (duration renewEvery : Z)
    : lprog (result sessionLease) :=
  if ((namespace =s "") || (id =s "") || (labelSessionID =s ""))%bool then
    Ret (inr (NewError ErrorValidation "acquire session lock"
      "session namespace, lock ID, and label session ID are required")) else
  holder ← call NewUUID;
  let '(duration, renewEvery) := normalizeLeaseTiming duration renewEvery in
  now ← call LNow;
  acquire_loop 2
    {| at_namespace := namespace; at_name := of_bytes (SessionLockName id); at_id := id;
       at_label := labelSessionID; at_holder := holder; at_duration := duration;
       at_renewEvery := renewEvery; at_now := now |}.

(** ** Renewing *)

Definition renewed_lease (l : Lease) (now : Time) : Lease :=
  set_holder l (lease_HolderIdentity l) (lease_DurationSeconds l) (lease_AcquireTime l) (Some now)
    (lease_Transitions l).

Definition renew (l : sessionLease) : lprog (option err) :=
  r ← call (GetLease (lock_name l));
  match r with
  | inr e =>
      if IsNotFound e then
        Ret (Some (NewError ErrorConflict "renew session lock" "session lock disappeared"))
      else Ret (Some (kube_error "renew session lock" "read session Lease" e))
  | inl lease =>
      if negb (owns l lease) then
        Ret (Some (NewError ErrorConflict "renew session lock" "session lock ownership was fenced")) else
      now ← call LNow;
      u ← call (UpdateLease (renewed_lease lease now));
      match u with
      | inl _ => Ret None
      | inr e =>
          if IsConflict e then
            Ret (Some (NewError ErrorConflict "renew session lock" "session lock resourceVersion changed"))
          else Ret (Some (kube_error "renew session lock" "update session Lease" e))
      end
  end.

(** One tick of [renewLoop]: retry transient errors until [deadline]; the result
    says whether the loop goes on, ends quietly, or marks the lock lost. *)
Inductive tick_outcome := Renewed | Stopped | MarkedLost (e : err).

Fixpoint renew_attempts (n : nat) (l : sessionLease) (deadline : Time) : lprog (option err) :=
  match n with
  | O => OutOfFuel
  | S n' =>
      e ← renew l;
      match e with
      | None => Ret None
      | Some x =>
          c ← call LCtxErr;
          match c with
          | Some _ => Ret (Some x)
          | None =>
              if bool_decide (CategoryOf (Some x) = ErrorConflict) then Ret (Some x) else
              now ← call LNow;
              if deadline <? now then Ret (Some x) else
              _ ← call (LSleep Second);
              renew_attempts n' l deadline
          end
      end
  end.

Definition renew_tick (n : nat) (l : sessionLease) : lprog tick_outcome :=
  now ← call LNow;
  e ← renew_attempts n l (now + lock_duration l);
  match e with
  | None => Ret Renewed
  | Some x =>
      c ← call LCtxErr;
      Ret (match c with Some _ => Stopped | None => MarkedLost x end)
  end.

(** ** Releasing and deleting *)

(** The mutable part of a [sessionLease]: the errors and the [sync.Once] flags. *)
Record lock_state := {
  lock_err : option err;
  lock_releaseErr : option err;
  lock_deleted : bool;
  release_once : bool;
  delete_once : bool
}.

Definition fresh_lock : lock_state :=
  {| lock_err := None; lock_releaseErr := None; lock_deleted := false;
     release_once := false; delete_once := false |}.

Definition Err (st : lock_state) : option err := lock_err st.

Definition markLost (st : lock_state) (e : err) : lock_state :=
  {| lock_err := match lock_err st with None => Some e | Some x => Some x end;
     lock_releaseErr := lock_releaseErr st; lock_deleted := lock_deleted st;
     release_once := release_once st; delete_once := delete_once st |}.

Definition released_with (st : lock_state) (e : option err) : lock_state :=
  {| lock_err := lock_err st;
     lock_releaseErr := match e with Some x => Some x | None => lock_releaseErr st end;
     lock_deleted := lock_deleted st; release_once := true; delete_once := delete_once st |}.

(** The error recorded by the body of [Release]. *)
Definition release_body (l : sessionLease) (st : lock_state) : lprog (option err) :=
  if lock_deleted st then Ret None else
  match Err st with
  | Some e => Ret (Some e)
  | None =>
      r ← call (GetLease (lock_name l));
      match r with
      | inr e =>
          if IsNotFound e then Ret None
          else Ret (Some (kube_error "release session lock" "read session Lease" e))
      | inl lease =>
          if negb (owns l lease) then
            Ret (Some (NewError ErrorConflict "release session lock" "session lock ownership was fenced")) else
          u ← call (UpdateLease (set_holder lease None (lease_DurationSeconds lease)
                      (lease_AcquireTime lease) None (lease_Transitions lease)));
          match u with
          | inl _ => Ret None
          | inr e =>
              if IsNotFound e then Ret None
              else if IsConflict e then
                Ret (Some (NewError ErrorConflict "release session lock" "session lock resourceVersion changed"))
              else Ret (Some (kube_error "release session lock" "clear session Lease" e))
          end
      end
  end.

Definition Release (l : sessionLease) (st : lock_state) : lprog (lock_state * option err) :=
  if release_once st then Ret (st, lock_releaseErr st) else
  e ← release_body l st;
  let st := released_with st e in
  Ret (st, lock_releaseErr st).

Definition delete_body (l : sessionLease) : lprog (bool * option err) :=
  r ← call (GetLease (lock_name l));
  match r with
  | inr e =>
      if IsNotFound e then Ret (true, None)
      else Ret (false, Some (kube_error "delete session lock" "read session Lease" e))
  | inl lease =>
      if negb (owns l lease) then
        Ret (false, Some (NewError ErrorConflict "delete session lock" "session lock ownership was fenced")) else
      d ← call (DeleteLease (lock_name l) (lease_UID lease) (lease_ResourceVersion lease));
      match d with
      | None => Ret (true, None)
      | Some e =>
          if IsNotFound e then Ret (true, None)
          else if IsConflict e then
            Ret (false, Some (WrapError ErrorConflict "delete session lock" "session lock changed while deleting" e))
          else Ret (false, Some (kube_error "delete session lock" "delete session Lease" e))
      end
  end.

Definition Delete (l : sessionLease) (st : lock_state) : lprog (lock_state * option err) :=
  if delete_once st then Ret (st, None) else
  r ← delete_body l;
  Ret ({| lock_err := lock_err st; lock_releaseErr := lock_releaseErr st;
          lock_deleted := (lock_deleted st || r.1)%bool; release_once := release_once st;
          delete_once := true |}, r.2).

(** ** The fence (lease_fence.go)

    The locks of a context, innermost first; a nil fence is skipped. *)
Definition LeaseFenceError (fences : list (option lock_state)) : option err :=
  foldl (fun result f => match f with Some st => errors_Join [result; Err st] | None => result end)
    None fences.

Definition WithLeaseFence (fences : list (option lock_state)) (f : option lock_state) : list (option lock_state) :=
  f :: fences.

(** ** Timing facts *)

Lemma int32_id z : - 2 ^ 31 <= z < 2 ^ 31 -> int32 z = z.
Proof. intros H. unfold int32. rewrite Z.mod_small; lia. Qed.

Lemma leaseDurationSeconds_range d : 1 <= leaseDurationSeconds d <= maxLeaseDurationSeconds.
Proof.
  unfold leaseDurationSeconds, maxLeaseDurationSeconds. destruct (Z.leb_spec d 0); [lia|].
  rewrite Z.quot_div_nonneg, Z.rem_mod_nonneg by (unfold Second; lia).
  pose proof (Z.div_mod d Second ltac:(unfold Second; lia)) as Hd.
  pose proof (Z.mod_pos_bound d Second ltac:(unfold Second; lia)) as Hm. unfold Second in *.
  destruct (Z.eqb_spec (d mod 1000000000) 0); case_test; bool_prop; rewrite int32_id; lia.
Qed.

Lemma leaseDurationSeconds_covers d :
  0 < d <= maxLeaseDurationSeconds * Second ->
  d <= leaseDurationSeconds d * Second < d + Second.
Proof.
  unfold leaseDurationSeconds, maxLeaseDurationSeconds. intros Hr. destruct (Z.leb_spec d 0); [lia|].
  rewrite Z.quot_div_nonneg, Z.rem_mod_nonneg by (unfold Second; lia).
  pose proof (Z.div_mod d Second ltac:(unfold Second; lia)) as Hd.
  pose proof (Z.mod_pos_bound d Second ltac:(unfold Second; lia)) as Hm. unfold Second in *.
  destruct (Z.eqb_spec (d mod 1000000000) 0); case_test; bool_prop; rewrite int32_id; lia.
Qed.

(** Lease timing is sound at machine width.  The normalized duration is
    positive and the renewal interval leaves at least two more renewals before
    expiry (a third of the duration, when the duration allows it); normalizing is
    idempotent; the seconds written to the Lease are an int32 of at least one and
    never shorter than the duration the holder works with, up to one second. *)
Theorem lease_timing_sound duration renewEvery :
  let '(d, r) := normalizeLeaseTiming duration renewEvery in
  0 < d /\ 0 < r /\ (3 <= d -> 3 * r <= d) /\ normalizeLeaseTiming d r = (d, r) /\
  0 < renewTimeout d r <= Z.max r Second /\
  1 <= leaseDurationSeconds d <= 2 ^ 31 - 1 /\
  (d <= (2 ^ 31 - 1) * Second -> d <= leaseDurationSeconds d * Second < d + Second).
Proof.
  unfold normalizeLeaseTiming.
  assert (0 < (if duration <=? 0 then defaultSessionLeaseDuration else duration)) as Hd.
  { destruct (Z.leb_spec duration 0); [done|lia]. }
  set (d := if duration <=? 0 then _ else _) in *.
  set (r0 := if renewEvery <=? 0 then _ else _).
  assert (0 < r0) as Hr0 by (unfold r0; destruct (Z.leb_spec renewEvery 0); [done|lia]).
  assert (Z.quot d 3 = d / 3) as Hq by (apply Z.quot_div_nonneg; lia). rewrite Hq.
  pose proof (Z.div_mod d 3 ltac:(lia)) as Hdm. pose proof (Z.mod_pos_bound d 3 ltac:(lia)) as Hmb.
  set (m := if d / 3 <=? 0 then 1 else d / 3).
  assert (0 < m /\ (3 <= d -> 3 * m <= d)) as [Hm1 Hm2].
  { unfold m. destruct (Z.leb_spec (d / 3) 0); lia. }
  set (r := if m <? r0 then m else r0).
  assert (0 < r /\ r <= m) as [Hr1 Hr2] by (unfold r; destruct (Z.ltb_spec m r0); lia).
  split_and!; [done|done|lia| | | |by apply leaseDurationSeconds_range|by apply leaseDurationSeconds_range|..].
  - destruct (Z.leb_spec d 0); [lia|]. destruct (Z.leb_spec r 0); [lia|]. rewrite Hq. fold m.
    destruct (Z.ltb_spec m r); [lia|done].
  - unfold renewTimeout. rewrite Hq. repeat case_test; bool_prop; unfold Second; lia.
  - unfold renewTimeout. rewrite Hq.
    destruct ((r <=? 0) || (d / 3 <? r))%bool eqn:E; case_test; bool_prop; try (unfold Second in *; lia).
  - intros Hmax. apply leaseDurationSeconds_covers; unfold maxLeaseDurationSeconds; lia.
Qed.

(** ** Who may write the Lease *)

Definition l_write (r : lreq) : bool :=
  match r with CreateLease _ | UpdateLease _ | DeleteLease _ _ _ => true | _ => false end.

(** The Lease as read may be claimed: nobody holds it, or its holder was found
    expired by the clock right before the write. *)
Definition claimable (lease : Lease) (h : ltrace) (name : string) : Prop :=
  exists h0,
    (held lease = false /\ h = Ev (GetLease name) (inl lease) :: h0) \/
    (exists now, sessionLeaseExpired lease now = true /\ h = Ev LNow now :: Ev (GetLease name) (inl lease) :: h0).

Definition acquire_guard (a : attempt) (h : ltrace) (r : lreq) : Prop :=
  match r with
  | CreateLease l =>
      l = new_lease (at_namespace a) (at_name a) (at_holder a) (at_labels a) (at_seconds a) (at_now a) /\
      exists e h0, IsNotFound e = true /\ h = Ev (GetLease (at_name a)) (inr e) :: h0
  | UpdateLease l' =>
      exists lease, l' = claimed_lease lease (at_holder a) (at_seconds a) (at_now a) /\
        lease_UID lease <> "" /\ mget (lease_Labels lease) ManagedByLabel = ManagedByValue /\
        mget (lease_Labels lease) SessionKey = at_label a /\ claimable lease h (at_name a)
  | DeleteLease _ _ _ => False
  | _ => True
  end.

(** The lock is the accepted write of this attempt. *)
Definition acquired_by (a : attempt) (l : sessionLease) (h : ltrace) : Prop :=
  exists stored, l = at_lock a (lease_UID stored) /\ lease_UID stored <> "" /\
    ((exists h0, h = Ev (CreateLease (new_lease (at_namespace a) (at_name a) (at_holder a) (at_labels a)
                           (at_seconds a) (at_now a))) (inl (Some stored)) :: h0) \/
     (exists lease h0, h = Ev (UpdateLease (claimed_lease lease (at_holder a) (at_seconds a) (at_now a)))
                             (inl (Some stored)) :: h0)).

Lemma identified_inl a created verb l :
  identified a created verb = inl l ->
  exists stored, created = Some stored /\ l = at_lock a (lease_UID stored) /\ lease_UID stored <> "".
Proof.
  unfold identified. destruct created as [c|]; [|done]. case_test; [done|]. bool_prop.
  intros [= <-]. by exists c.
Qed.

Definition l_ok {A} (P : A -> ltrace -> Prop) : result A -> ltrace -> Prop :=
  fun r h => forall x, r = inl x -> P x h.

Lemma wp_lcall (G : ltrace -> lreq -> Prop) r (Q : lresp r -> ltrace -> Prop) h :
  G h r -> (forall x, Q x (Ev r x :: h)) -> wp G (call r) Q h.
Proof. apply wp_Call. Qed.

Lemma wp_acquire_loop n a h :
  wp (acquire_guard a) (acquire_loop n a) (l_ok (acquired_by a)) h.
Proof.
  revert h. induction n as [|n IH]; intros h; [by intros x|].
  cbn [acquire_loop]. apply wp_bind_2, wp_lcall; [done|]. intros [lease|e].
  - case_test; [by intros x|]. case_test; [by intros x|]. bool_prop.
    apply wp_bind_2.
    eapply wp_mono with (Q := fun busy h' => busy = false -> claimable lease h' (at_name a)).
    { destruct (held lease) eqn:Hh.
      - apply wp_bind_2, wp_lcall; [done|]. intros now Hb. exists h. right. exists now. split; [|done]. by bool_prop.
      - intros _. exists h. by left. }
    intros busy h' _ Hc. destruct busy; [by intros x|]. specialize (Hc eq_refl).
    apply wp_bind_2, wp_lcall; [by exists lease|]. intros [claimed|e]; [|by case_test; intros x].
    intros l Hl. destruct (identified_inl _ _ _ _ Hl) as (stored & -> & -> & Hu).
    exists stored. split_and!; [done|done|]. right. by eexists _, _.
  - case_test; [|by intros x]. apply wp_bind_2, wp_lcall; [split; [done|]; by eexists _, _|].
    intros [created|e'].
    + intros l Hl. destruct (identified_inl _ _ _ _ Hl) as (stored & -> & -> & Hu).
      exists stored. split_and!; [done|done|]. left. by eexists.
    + case_test; [apply IH|]. case_test; by intros x.
Qed.

(** The lock is only taken from nobody.  Whatever the API server answers,
    acquisition creates the Lease only after it was read as missing, and claims
    an existing one only if it carries this session's labels and was unheld or
    expired by the clock read just before the write, keeping the version that was
    read; it never deletes.  A returned lock is exactly an accepted create or
    claim under this holder, identified by the UID the server assigned. *)
Theorem acquire_takes_only_free {W} (server : handler W) a w :
  let out := run server (acquire_loop 2 a) w [] in
  calls_ok (acquire_guard a) [] out.2 /\
  (forall l, out.1.1 = Some (inl l) -> acquired_by a l out.2 /\ lock_holder l = at_holder a).
Proof.
  cbv zeta. destruct (wp_adequate _ server _ _ w [] (wp_acquire_loop 2 a [])) as [Hc Hq].
  split; [exact Hc|]. intros l Hl. specialize (Hq _ Hl l eq_refl). split; [done|].
  destruct Hq as (stored & -> & _). unfold at_lock, lock_of. by destruct (normalizeLeaseTiming _ _).
Qed.

(** Writes of a holder: only on a Lease just read as its own. *)
Definition holder_guard (l : sessionLease) (h : ltrace) (r : lreq) : Prop :=
  match r with
  | UpdateLease l' =>
      exists lease h0, owns l lease = true /\ lease_ResourceVersion l' = lease_ResourceVersion lease /\
        lease_UID l' = lock_uid l /\
        ((exists now, l' = renewed_lease lease now /\
            h = Ev LNow now :: Ev (GetLease (lock_name l)) (inl lease) :: h0) \/
         (lease_HolderIdentity l' = None /\ lease_RenewTime l' = None /\
            h = Ev (GetLease (lock_name l)) (inl lease) :: h0))
  | DeleteLease name uid rv =>
      exists lease h0, owns l lease = true /\ name = lock_name l /\ uid = lock_uid l /\
        rv = lease_ResourceVersion lease /\ h = Ev (GetLease (lock_name l)) (inl lease) :: h0
  | CreateLease _ => False
  | _ => True
  end.

Lemma owns_uid l lease : owns l lease = true -> lease_UID lease = lock_uid l.
Proof. unfold owns. intros H. by bool_prop. Qed.

Lemma wp_renew l h : wp (holder_guard l) (renew l) (fun _ _ => True) h.
Proof.
  apply wp_bind_2, wp_lcall; [done|]. intros [lease|e]; [|by case_test]. case_test; [done|]. bool_prop.
  apply wp_bind_2, wp_lcall; [done|]. intros now.
  apply wp_bind_2, wp_lcall; [|by intros [x|e]; [|case_test]].
  exists lease, h. split_and!; [done|done|by apply (owns_uid l lease)|]. left. by exists now.
Qed.

Lemma wp_renew_attempts n l d h : wp (holder_guard l) (renew_attempts n l d) (fun _ _ => True) h.
Proof.
  revert h. induction n as [|n IH]; intros h; [done|]. cbn [renew_attempts]. apply wp_bind_2.
  eapply wp_mono; [apply wp_renew|]. intros [x|] h' _ _; [|done].
  apply wp_bind_2, wp_lcall; [done|]. intros [c|]; [done|]. case_test; [done|].
  apply wp_bind_2, wp_lcall; [done|]. intros now. case_test; [done|].
  apply wp_bind_2, wp_lcall; [done|]. intros u. apply IH.
Qed.

Lemma wp_release_body l st h : wp (holder_guard l) (release_body l st) (fun _ _ => True) h.
Proof.
  unfold release_body. case_test; [done|]. destruct (Err st); [done|].
  apply wp_bind_2, wp_lcall; [done|].
  intros [lease|e]; [|by case_test]. case_test; [done|]. bool_prop.
  apply wp_bind_2, wp_lcall; [|intros [x|e]; [done|]; by case_test; [|case_test]].
  exists lease, h. split_and!; [done|done|by apply (owns_uid l lease)|]. by right.
Qed.

Lemma wp_delete_body l h : wp (holder_guard l) (delete_body l) (fun _ _ => True) h.
Proof.
  apply wp_bind_2, wp_lcall; [done|]. intros [lease|e]; [|by case_test]. case_test; [done|]. bool_prop.
  apply wp_bind_2, wp_lcall; [|intros [e|]; [|done]; by case_test; [|case_test]].
  exists lease, h. split_and!; [done|done|by apply (owns_uid l lease)|done|done].
Qed.

(** A holder never touches a successor's Lease.  Every write of a renewal
    tick, a release or a deletion follows a read in which the Lease had this
    lock's UID, session labels and holder, and is conditioned on the version (for
    deletion also the UID) of that read; and releasing or deleting a second time
    issues no request at all. *)
Theorem holder_writes_only_own {W} (server : handler W) n l st w :
  calls_ok (holder_guard l) [] (run server (renew_tick n l) w []).2 /\
  calls_ok (holder_guard l) [] (run server (Release l st) w []).2 /\
  calls_ok (holder_guard l) [] (run server (Delete l st) w []).2 /\
  (forall st' e w', (run server (Release l st) w []).1 = (Some (st', e), w') ->
     run server (Release l st') w' [] = (Some (st', e), w', [])) /\
  (forall st' e w', (run server (Delete l st) w []).1 = (Some (st', e), w') ->
     run server (Delete l st') w' [] = (Some (st', None), w', [])).
Proof.
  split_and!.
  - eapply wp_adequate with (Q := fun _ _ => True). apply wp_bind_2, wp_lcall; [done|]. intros now. apply wp_bind_2.
    eapply wp_mono; [apply wp_renew_attempts|]. intros [x|] h' _ _; [|done]. by apply wp_bind_2, wp_lcall.
  - eapply wp_adequate with (Q := fun _ _ => True). unfold Release. case_test; [done|]. apply wp_bind_2.
    eapply wp_mono; [apply wp_release_body|done].
  - eapply wp_adequate with (Q := fun _ _ => True). unfold Delete. case_test; [done|]. apply wp_bind_2.
    eapply wp_mono; [apply wp_delete_body|done].
  - intros st' e w'. unfold Release at 1. destruct (release_once st) eqn:Ho.
    + intros [= <- <- <-]. unfold Release. by rewrite Ho.
    + rewrite run_bind. destruct (run server (release_body l st) w []) as [[[r|] w1] h1]; [|done].
      intros [= <- <- <-]. done.
  - intros st' e w'. unfold Delete at 1. destruct (delete_once st) eqn:Ho.
    + intros [= <- <- <-]. unfold Delete. by rewrite Ho.
    + rewrite run_bind. destruct (run server (delete_body l) w []) as [[[r|] w1] h1]; [|done].
      intros [= <- <- <-]. done.
Qed.

(** The fence is nil exactly when no enclosing lock was lost. *)
Lemma LeaseFenceError_None fences :
  LeaseFenceError fences = None <-> Forall (fun f => forall st, f = Some st -> Err st = None) fences.
Proof.
  unfold LeaseFenceError.
  assert (forall r, foldl (fun result f => match f with Some st => errors_Join [result; Err st] | None => result end)
    r fences = None <-> r = None /\ Forall (fun f => forall st, f = Some st -> Err st = None) fences) as H.
  { induction fences as [|f fences IH]; intros r; cbn [foldl].
    - split; [by intros ->|by intros [-> _]].
    - rewrite IH, Forall_cons. destruct f as [st|]; [|naive_solver].
      rewrite errors_Join2_None. naive_solver. }
  rewrite H. naive_solver.
Qed.
