(* ===== verification/LeaseProtocol.v ===== *)
(** * Mutual exclusion of the session lock

    Any number of processes run the acquire, renew, release and delete code of
    session_lease.go against one Lease, interleaved in any order with the passing
    of time, lost responses and crashes.  The API server provides optimistic
    concurrency: a write succeeds only on the version that was read.  The clocks
    of the processes are assumed to agree. *)

From S2P Require Import Prelude Utf8 GoErrors Lifecycle KubeTypes Prog Names SessionLease.

#[local] Open Scope Z_scope.

Section protocol.
Context (namespace name label : string) (dur : string -> Z).

(** A process, named by its holder identity (a fresh UUID). *)
Inductive pstate :=
| Idle
| Reading (now0 : Time)                                   (* [now] taken, Lease not read yet *)
| Checking (now0 : Time) (l : Lease) (v : nat)            (* Lease read *)
| Claiming (now0 : Time) (seen : option (Lease * nat))    (* decided to create or claim *)
| Holding (lk : sessionLease) (r : Time)                  (* [r]: its last confirmed renew time *)
| Renewing (lk : sessionLease) (r : Time) (l : Lease) (v : nat)
| RenewingAt (lk : sessionLease) (r : Time) (l : Lease) (v : nat) (now1 : Time)
| Leaving (lk : sessionLease).                            (* [Release] or [Delete] was called *)

Record system := {
  store : option (Lease * nat);
  version : nat;
  clock : Time;
  procs : string -> pstate
}.

Definition upd (f : string -> pstate) (p : string) (x : pstate) : string -> pstate :=
  fun q => if decide (q = p) then x else f q.

Definition set_proc (s : system) (p : string) (x : pstate) : system :=
  {| store := store s; version := version s; clock := clock s; procs := upd (procs s) p x |}.

(** A successful write: a new version of the Lease and a new process state. *)
Definition write (s : system) (l : option Lease) (p : string) (x : pstate) : system :=
  {| store := match l with Some l => Some (l, S (version s)) | None => None end;
     version := S (version s); clock := clock s; procs := upd (procs s) p x |}.

Definition secs (p : string) : Z := leaseDurationSeconds (dur p).
Definition labels : gmap string string := {[ManagedByLabel := ManagedByValue; SessionKey := label]}.

Definition created (p uid : string) (now0 : Time) : Lease :=
  let l := new_lease namespace name p labels (secs p) now0 in
  {| lease_Namespace := lease_Namespace l; lease_Name := lease_Name l; lease_UID := uid;
     lease_ResourceVersion := lease_ResourceVersion l; lease_Labels := lease_Labels l;
     lease_HolderIdentity := lease_HolderIdentity l; lease_DurationSeconds := lease_DurationSeconds l;
     lease_AcquireTime := lease_AcquireTime l; lease_RenewTime := lease_RenewTime l;
     lease_Transitions := lease_Transitions l |}.

Definition lock (p uid : string) : sessionLease := lock_of namespace name label p uid (dur p) 0.

Inductive step (s : system) : system -> Prop :=
| st_time t : clock s <= t -> step s {| store := store s; version := version s; clock := t; procs := procs s |}
| st_start p : p <> "" -> procs s p = Idle -> step s (set_proc s p (Reading (clock s)))
| st_missing p now0 :
    procs s p = Reading now0 -> store s = None -> step s (set_proc s p (Claiming now0 None))
| st_read p now0 l v :
    procs s p = Reading now0 -> store s = Some (l, v) -> step s (set_proc s p (Checking now0 l v))
| st_check p now0 l v :
    procs s p = Checking now0 l v ->
    held l = false \/ sessionLeaseExpired l (clock s) = true ->
    step s (set_proc s p (Claiming now0 (Some (l, v))))
| st_create p now0 uid (answered : bool) :
    procs s p = Claiming now0 None -> store s = None -> uid <> "" ->
    step s (write s (Some (created p uid now0)) p (if answered then Holding (lock p uid) now0 else Idle))
| st_claim p now0 l v l' (answered : bool) :
    procs s p = Claiming now0 (Some (l, v)) -> store s = Some (l', v) ->
    step s (write s (Some (claimed_lease l p (secs p) now0)) p
              (if answered then Holding (lock p (lease_UID l)) now0 else Idle))
| st_renew_read p lk r l v :
    procs s p = Holding lk r -> store s = Some (l, v) -> owns lk l = true ->
    step s (set_proc s p (Renewing lk r l v))
| st_renew_now p lk r l v :
    procs s p = Renewing lk r l v -> step s (set_proc s p (RenewingAt lk r l v (clock s)))
| st_renew_write p lk r l v l' now1 (answered : bool) :
    procs s p = RenewingAt lk r l v now1 -> store s = Some (l', v) ->
    step s (write s (Some (renewed_lease l now1)) p (Holding lk (if answered then now1 else r)))
| st_renew_retry p lk r l v now1 :
    procs s p = RenewingAt lk r l v now1 -> step s (set_proc s p (Holding lk r))
| st_leave p lk r : procs s p = Holding lk r -> step s (set_proc s p (Leaving lk))
| st_release p lk l v :
    procs s p = Leaving lk -> store s = Some (l, v) -> owns lk l = true ->
    step s (write s (Some (set_holder l None (lease_DurationSeconds l) (lease_AcquireTime l) None
                             (lease_Transitions l))) p Idle)
| st_delete p lk l v :
    procs s p = Leaving lk -> store s = Some (l, v) -> owns lk l = true ->
    step s (write s None p Idle)
| st_crash p : step s (set_proc s p Idle).

Definition initial (s : system) : Prop := store s = None /\ forall p, procs s p = Idle.

Inductive reachable : system -> Prop :=
| reach_init s : initial s -> reachable s
| reach_step s s' : reachable s -> step s s' -> reachable s'.

(** What a process believes: a lock and its last confirmed renewal. *)
Definition belief (x : pstate) : option (sessionLease * Time) :=
  match x with
  | Holding lk r | Renewing lk r _ _ | RenewingAt lk r _ _ _ => Some (lk, r)
  | _ => None
  end.

(** The lock is in force: its holder's duration has not passed since then. *)
Definition in_force (s : system) (p : string) : Prop :=
  exists lk r, belief (procs s p) = Some (lk, r) /\ clock s < r + dur p.

(** ** Invariant *)

Definition lease_wf (l : Lease) : Prop :=
  forall p, lease_HolderIdentity l = Some p ->
    lease_DurationSeconds l = Some (secs p) /\ is_Some (lease_RenewTime l).

Definition snapshot_ok (s : system) (l : Lease) (v : nat) : Prop :=
  (v <= version s)%nat /\ lease_wf l /\ forall l', store s = Some (l', v) -> l' = l.

Definition proc_ok (s : system) (p : string) (x : pstate) : Prop :=
  match x with
  | Idle => True
  | Reading now0 => p <> "" /\ now0 <= clock s
  | Checking now0 l v => p <> "" /\ now0 <= clock s /\ snapshot_ok s l v
  | Claiming now0 None => p <> "" /\ now0 <= clock s
  | Claiming now0 (Some (l, v)) =>
      p <> "" /\ now0 <= clock s /\ snapshot_ok s l v /\
      (held l = false \/ exists t, t <= clock s /\ sessionLeaseExpired l t = true)
  | Holding lk r => p <> "" /\ lock_holder lk = p /\ r <= clock s
  | Renewing lk r l v =>
      p <> "" /\ lock_holder lk = p /\ r <= clock s /\ snapshot_ok s l v /\ lease_HolderIdentity l = Some p
  | RenewingAt lk r l v now1 =>
      p <> "" /\ lock_holder lk = p /\ r <= now1 /\ now1 <= clock s /\ snapshot_ok s l v /\
      lease_HolderIdentity l = Some p
  | Leaving lk => p <> "" /\ lock_holder lk = p
  end.

(** The store names the process as holder, renewed no earlier than it believes. *)
Definition backed (s : system) (p : string) (r : Time) : Prop :=
  exists l v r', store s = Some (l, v) /\ lease_HolderIdentity l = Some p /\
    lease_RenewTime l = Some r' /\ r <= r'.

Record inv (s : system) : Prop := {
  inv_store : forall l v, store s = Some (l, v) -> (v <= version s)%nat /\ lease_wf l;
  inv_procs : forall p, proc_ok s p (procs s p);
  inv_force : forall p lk r, belief (procs s p) = Some (lk, r) -> clock s < r + dur p -> backed s p r
}.

(** ** Updates *)

Lemma upd_eq f p x : upd f p x p = x.
Proof. unfold upd. by destruct (decide (p = p)). Qed.

Lemma upd_ne f p x q : q <> p -> upd f p x q = f q.
Proof. unfold upd. by destruct (decide (q = p)). Qed.

Lemma proc_ok_set s p x q y : proc_ok s q y -> proc_ok (set_proc s p x) q y.
Proof. by destruct y as [| | |? [[]|]| | | |]. Qed.

Lemma snapshot_ok_write s l v lo p x : snapshot_ok s l v -> snapshot_ok (write s lo p x) l v.
Proof.
  intros (Hv & Hw & Hs). split_and!; [simpl; lia|done|]. intros l' Hl. simpl in Hl.
  destruct lo; simplify_eq. lia.
Qed.

Lemma proc_ok_write s lo p x q y : proc_ok s q y -> proc_ok (write s lo p x) q y.
Proof.
  destruct y as [| |now0 l v|now0 [[l v]|]| |lk r l v|lk r l v now1|]; simpl; try done;
    intros ?; destruct_and?; split_and?; eauto using snapshot_ok_write.
Qed.

Lemma proc_ok_time s t q y :
  clock s <= t -> proc_ok s q y ->
  proc_ok {| store := store s; version := version s; clock := t; procs := procs s |} q y.
Proof.
  intros Ht. destruct y as [| |now0 l v|now0 [[l v]|]| |lk r l v|lk r l v now1|]; simpl; try done.
  - intros []. split; [done|lia].
  - intros (? & ? & ?). split_and!; [done|lia|done].
  - intros (? & ? & ? & [?|(t' & ? & ?)]); (split_and!; [done|lia|done|]); [by left|right; exists t'; split; [lia|done]].
  - intros []. split; [done|lia].
  - intros (? & ? & ?). split_and!; [done|done|lia].
  - intros (? & ? & ? & ? & ?). split_and!; try done. lia.
  - intros (? & ? & ? & ? & ? & ?). split_and!; try done. lia.
Qed.

(** A process changes its own state only. *)
Lemma inv_set s p x :
  inv s -> proc_ok s p x ->
  (forall lk r, belief x = Some (lk, r) -> clock s < r + dur p -> backed s p r) ->
  inv (set_proc s p x).
Proof.
  intros [H1 H2 H3] Hx Hb. split; [done| |].
  - intros q. simpl. destruct (decide (q = p)) as [->|Hq]; [rewrite upd_eq|rewrite upd_ne by done];
      by apply proc_ok_set.
  - intros q lk r. simpl. destruct (decide (q = p)) as [->|Hq].
    + rewrite upd_eq. exact (Hb lk r).
    + rewrite upd_ne by done. exact (H3 q lk r).
Qed.

(** A write succeeds while no other process has its lock in force. *)
Lemma inv_write s lo p x :
  inv s -> (forall l, lo = Some l -> lease_wf l) -> proc_ok s p x ->
  (forall q, q <> p -> in_force s q -> False) ->
  (forall lk r, belief x = Some (lk, r) -> clock s < r + dur p -> backed (write s lo p x) p r) ->
  inv (write s lo p x).
Proof.
  intros [H1 H2 H3] Hwf Hx Hex Hb. split.
  - intros l v Hl. simpl in Hl. destruct lo as [l0|]; simplify_eq. split; [simpl; lia|by apply Hwf].
  - intros q. simpl. destruct (decide (q = p)) as [->|Hq]; [rewrite upd_eq|rewrite upd_ne by done];
      by apply proc_ok_write.
  - intros q lk r. cbn [write procs clock]. destruct (decide (q = p)) as [->|Hq].
    + rewrite upd_eq. exact (Hb lk r).
    + rewrite upd_ne by done. intros Hbel Hf. exfalso. apply (Hex q Hq). by exists lk, r.
Qed.

(** ** Exclusion *)

Lemma in_force_backed s p : inv s -> in_force s p -> exists r, backed s p r /\ clock s < r + dur p.
Proof. intros [_ _ H3] (lk & r & Hb & Hc). exists r. split; [by eapply H3|done]. Qed.

Lemma in_force_nonempty s p : inv s -> in_force s p -> p <> "".
Proof.
  intros [_ H2 _] (lk & r & Hb & _). specialize (H2 p).
  destruct (procs s p) as [| | |? [[]|]| | | |]; simpl in *; simplify_eq; tauto.
Qed.

Lemma excl_missing s q : inv s -> store s = None -> in_force s q -> False.
Proof. intros Hi Hs Hf. destruct (in_force_backed s q Hi Hf) as (r & (l & v & r' & Hl & _) & _). congruence. Qed.

Lemma excl_owner s p l v q :
  inv s -> store s = Some (l, v) -> lease_HolderIdentity l = Some p -> in_force s q -> q = p.
Proof.
  intros Hi Hs Hh Hf. destruct (in_force_backed s q Hi Hf) as (r & (l' & v' & r' & Hl & Hq & _) & _).
  congruence.
Qed.

Hypothesis Hdur : forall p, 0 < dur p <= maxLeaseDurationSeconds * Second.

Lemma expired_late p l t r :
  lease_HolderIdentity l = Some p -> lease_wf l -> lease_RenewTime l = Some r ->
  sessionLeaseExpired l t = true -> r + dur p <= t.
Proof.
  intros Hh Hw Hr He. destruct (Hw p Hh) as [Hd _]. unfold sessionLeaseExpired in He. rewrite Hr, Hd in He.
  pose proof (leaseDurationSeconds_range (dur p)) as Hs. pose proof (leaseDurationSeconds_covers (dur p) (Hdur p)) as Hc.
  unfold secs in He. destruct (Z.ltb_spec 0 (leaseDurationSeconds (dur p))); [|lia]. bool_prop. lia.
Qed.

Lemma excl_claimable s l v q :
  inv s -> store s = Some (l, v) ->
  held l = false \/ (exists t, t <= clock s /\ sessionLeaseExpired l t = true) ->
  in_force s q -> False.
Proof.
  intros Hi Hs Hc Hf. pose proof (in_force_nonempty s q Hi Hf) as Hne.
  destruct (in_force_backed s q Hi Hf) as (r & (l' & v' & r' & Hl & Hq & Hr' & Hle) & Hclk).
  assert (l' = l) as -> by congruence.
  destruct Hc as [Hc|(t & Ht & Hc)].
  - unfold held in Hc. rewrite Hq in Hc. by bool_prop.
  - destruct (inv_store _ Hi l v Hs) as [_ Hw]. pose proof (expired_late q l t r' Hq Hw Hr' Hc). lia.
Qed.

(** ** Preservation *)

Lemma owns_holder lk l p : owns lk l = true -> lock_holder lk = p -> lease_HolderIdentity l = Some p.
Proof.
  unfold owns. intros H <-. destruct (lease_HolderIdentity l) as [h|]; bool_prop; [by f_equal|done].
Qed.

Lemma lock_holder_lock p uid : lock_holder (lock p uid) = p.
Proof. unfold lock, lock_of. by destruct (normalizeLeaseTiming _ _). Qed.

Lemma step_create s p now0 uid (answered : bool) :
  inv s -> procs s p = Claiming now0 None -> store s = None ->
  inv (write s (Some (created p uid now0)) p (if answered then Holding (lock p uid) now0 else Idle)).
Proof.
  intros Hi Hp Hs. pose proof (inv_procs _ Hi p) as Hok. rewrite Hp in Hok. destruct Hok as [Hne Hn].
  apply inv_write; [done| | |intros q _; by apply excl_missing|].
  - intros l [= <-] q [= <-]. simpl. split; [done|by eexists].
  - destruct answered; [|done]. split_and!; [done|apply lock_holder_lock|done].
  - intros lk r Hb _. destruct answered; [|done]. simpl in Hb. injection Hb as <- <-.
    eexists _, _, now0. split_and!; [done|done|done|lia].
Qed.

Lemma step_claim s p now0 l v l' (answered : bool) :
  inv s -> procs s p = Claiming now0 (Some (l, v)) -> store s = Some (l', v) ->
  inv (write s (Some (claimed_lease l p (secs p) now0)) p
         (if answered then Holding (lock p (lease_UID l)) now0 else Idle)).
Proof.
  intros Hi Hp Hs. pose proof (inv_procs _ Hi p) as Hok. rewrite Hp in Hok.
  destruct Hok as (Hne & Hn & (_ & Hw & Hsame) & Hc). pose proof (Hsame l' Hs) as ->.
  apply inv_write; [done| | |intros q _; by eapply excl_claimable|].
  - intros l0 [= <-] q [= <-]. simpl. split; [done|by eexists].
  - destruct answered; [|done]. split_and!; [done|apply lock_holder_lock|done].
  - intros lk r Hb _. destruct answered; [|done]. simpl in Hb. injection Hb as <- <-.
    eexists _, _, now0. split_and!; [done|done|done|lia].
Qed.

Lemma step_renew_write s p lk r l v l' now1 (answered : bool) :
  inv s -> procs s p = RenewingAt lk r l v now1 -> store s = Some (l', v) ->
  inv (write s (Some (renewed_lease l now1)) p (Holding lk (if answered then now1 else r))).
Proof.
  intros Hi Hp Hs. pose proof (inv_procs _ Hi p) as Hok. rewrite Hp in Hok.
  destruct Hok as (Hne & Hlk & Hr & Hn & (_ & Hw & Hsame) & Hh). pose proof (Hsame l' Hs) as ->.
  apply inv_write; [done| | | |].
  - intros l0 [= <-] q Hq. simpl in *. split; [by apply Hw|by eexists].
  - split_and!; [done|done|]. destruct answered; lia.
  - intros q Hq Hf. by apply Hq, (excl_owner s p l v).
  - intros lk' r' Hb _. simpl in Hb. injection Hb as <- <-.
    eexists _, _, now1. split_and!; [done|done|done|]. destruct answered; lia.
Qed.

Lemma step_leave_write s p lk l v lo :
  inv s -> procs s p = Leaving lk -> store s = Some (l, v) -> owns lk l = true ->
  (forall l', lo = Some l' -> lease_HolderIdentity l' = None) ->
  inv (write s lo p Idle).
Proof.
  intros Hi Hp Hs Ho Hlo. pose proof (inv_procs _ Hi p) as Hok. rewrite Hp in Hok. destruct Hok as [Hne Hlk].
  apply inv_write; [done| |done| |done].
  - intros l' Hl' q Hq. rewrite (Hlo l' Hl') in Hq. done.
  - intros q Hq Hf. apply Hq, (excl_owner s p l v); [done|done|by eapply owns_holder|done].
Qed.

Lemma inv_step s s' : inv s -> step s s' -> inv s'.
Proof.
  intros Hi Hst.
  destruct Hst as [t Ht|p Hne Hp|p now0 Hp Hs|p now0 l v Hp Hs|p now0 l v Hp Hc|p now0 uid an Hp Hs Hu
    |p now0 l v l' an Hp Hs|p lk r l v Hp Hs Ho|p lk r l v Hp|p lk r l v l' now1 an Hp Hs|p lk r l v now1 Hp
    |p lk r Hp|p lk l v Hp Hs Ho|p lk l v Hp Hs Ho|p];
    try (pose proof (inv_procs _ Hi p) as Hok; rewrite Hp in Hok; simpl in Hok).
  - destruct Hi as [H1 H2 H3]. split; [done|intros q; by apply proc_ok_time|].
    intros q lk r Hb Hc. simpl in Hc. destruct (H3 q lk r Hb) as (l & v & r' & ?); [lia|]. by exists l, v, r'.
  - apply inv_set; [done| |done]. split; [done|lia].
  - apply inv_set; [done| |done]. done.
  - apply inv_set; [done| |done]. destruct Hok. destruct (inv_store _ Hi l v Hs) as [Hv Hw].
    split_and!; [done|done|]. split_and!; [done|done|]. intros l' Hl'. congruence.
  - apply inv_set; [done| |done]. destruct Hok as (? & ? & ?). split_and!; [done|done|done|].
    destruct Hc as [?|?]; [by left|right; exists (clock s); split; [lia|done]].
  - by apply step_create.
  - by eapply step_claim.
  - destruct Hok as (? & Hlk & ?). destruct (inv_store _ Hi l v Hs) as [Hv Hw].
    apply inv_set; [done| |].
    + split_and!; [done|done|done| |by eapply owns_holder]. split_and!; [done|done|]. intros l' Hl'. congruence.
    + intros lk' r' [= <- <-] Hc. eapply inv_force; [done|by rewrite Hp|done].
  - destruct Hok as (? & ? & ? & ? & ?). apply inv_set; [done| |].
    + split_and!; done || lia.
    + intros lk' r' [= <- <-] Hc. eapply inv_force; [done|by rewrite Hp|done].
  - by eapply step_renew_write.
  - destruct Hok as (? & ? & ? & ? & ? & ?). apply inv_set; [done| |].
    + split_and!; done || lia.
    + intros lk' r' [= <- <-] Hc. eapply inv_force; [done|by rewrite Hp|done].
  - destruct Hok as (? & ? & ?). by apply inv_set.
  - eapply step_leave_write; [done|done|done|done|]. by intros l' [= <-].
  - by eapply step_leave_write.
  - by apply inv_set.
Qed.

Lemma reachable_inv s : reachable s -> inv s.
Proof.
  induction 1 as [s [Hs Hp]|s s' _ IH Hst]; [|by eapply inv_step].
  split; [intros l v; congruence|intros p; by rewrite Hp|intros p; by rewrite Hp].
Qed.

End protocol.

(** Two processes with 30 second leases; the first one acquires. *)
Definition thirty (_ : string) : Z := 30 * Second.

Definition start_system : system :=
  {| store := None; version := 0; clock := 0; procs := fun _ => Idle |}.

Definition held_system : system :=
  let s1 := set_proc start_system "a" (Reading 0) in
  let s2 := set_proc s1 "a" (Claiming 0 None) in
  write s2 (Some (created "ns" "lock" "mig" thirty "a" "uid" 0)) "a"
    (Holding (lock "ns" "lock" "mig" thirty "a" "uid") 0).

Lemma held_reachable : reachable "ns" "lock" "mig" thirty held_system.
Proof.
  eapply reach_step; [eapply reach_step; [eapply reach_step; [apply reach_init|]|]|].
  - by instantiate (1 := start_system).
  - by apply (st_start _ _ _ _ start_system "a").
  - by apply (st_missing _ _ _ _ _ "a" 0).
  - by apply (st_create _ _ _ thirty _ "a" 0 "uid" true).
Qed.


(** ** The renewal deadline

    An API server that is unreachable for the holder; the state is the clock. *)
Definition unreachable : handler (E := lreq) (R := lresp) Time :=
  fun r now =>
    let e := EStatus ReasonUnknown "connection refused" in
    match r return lresp r * Time with
    | LNow => (now, now)
    | LCtxErr => (None, now)
    | NewUUID => ("", now)
    | LSleep d => (tt, now + d)
    | GetLease _ => (inr e, now)
    | CreateLease _ => (inr e, now)
    | UpdateLease _ => (inr e, now)
    | DeleteLease _ _ _ => (Some e, now)
    end.

(** The holder notices expiry one renewal interval late.  A holder with a 30
    second Lease renewed at time 0 loses contact; its tick at 10 seconds retries
    with a deadline of 30 seconds after the tick, not after the last renewal.
    The Lease is expired, and free for another process to claim, from 30 seconds
    on; the lock is marked lost, so that [Err] and the fence report it, only after
    40 seconds. *)
Theorem renew_retries_past_expiry :
  let l := lock "ns" "lock" "mig" thirty "a" "uid" in
  let lease := created "ns" "lock" "mig" thirty "a" "uid" 0 in
  let out := run unreachable (renew_tick 40 l) (lock_renewEvery l) [] in
  owns l lease = true /\ lock_renewEvery l = 10 * Second /\
  sessionLeaseExpired lease (30 * Second) = true /\
  (exists e, out.1.1 = Some (MarkedLost e)) /\ 40 * Second < out.1.2.
Proof.
  cbv zeta. split_and!; [reflexivity|reflexivity|reflexivity|eexists; vm_compute; reflexivity|].
  vm_compute. reflexivity.
Qed.
