(* ===== verification/WorkflowLock.v ===== *)
(** * The lock around an operation

    internal/kube/workflow_lease.go ([WithWorkflowLease]), the wrappers of
    internal/app/workflow_lock.go and the handoff checks of
    internal/kube/workflow_handoff.go: an operation runs under the session's Lease and
    against the stored object it was given, and the Lease is given back at the end.  The
    operation is any program; its requests are [LBody].  Last the handoff of a completed
    reservation to a copy (reservation_copy.go, namespaced_reservation_copy.go), which
    runs under the reservation's lock.

    Acquiring, renewing and releasing the Lease are modelled in SessionLease; here they
    are requests of the lock that was acquired.  The release that the deferred function
    also makes when the operation panics is not modelled: such a run ends in the
    operation.

    At the end [ClusterCopyExecutor], [CopyExecutor], [ClusterReservationExecutor] and
    [ReservationExecutor]: the steps of Staged, CopyExecutor and ReservationExecutor at
    their object types, and the operations they export, which validate the object and run
    under its lock.  [Cleanup] also repeats a cleanup whose write was stale; that loop
    (kube/workflow_conflict_retry.go) is modelled with the stores and the operation here
    is one round of it. *)

From S2P Require Import Prelude Utf8 GoErrors Lifecycle PhaseMachines GoFormat TransferPath Prog KubeTypes Api ResourceState Ownership PVBinding NodeSelection Quota PVCPolicy Reclaim Reserver CopyEngine Exec MigrationObject Offline Activation MigrationStorage CopyRunner SourceLoss Executor MigrationCleanup CleanupExecutor MigrationSync StagedObjects Staged ReservationExecutor CopyExecutor StagedInstances ReservedCopy SessionLease.

(** ** Requests *)

(** What the lock reads of an object's metadata. *)
Record WorkflowMeta := {
  wm_Namespace : string;
  wm_Name : string;
  wm_UID : string;
  wm_ResourceVersion : string;
  wm_Deleting : bool;
  wm_Annotations : gmap string string
}.

(** The stored type of a workflow. *)
Class StoredWorkflow (T : Type) := wm_meta : T -> WorkflowMeta.

Inductive wlreq (E T : Type) :=
| LBody (r : E)                            (* a request of the operation *)
| LAcquire (namespace id : string)         (* [AcquireSessionLock] *)
| LLoad (namespace name : string)          (* [store.Load] *)
| LBoundErr                                (* the context bound to the lock *)
| LFence                                   (* [LeaseFenceError] of it *)
| LDeleteLease                             (* [lock.Delete] *)
| LRelease                                 (* [lock.Release] *)
| LDelete (object : T).                    (* [store.Delete] *)
Arguments LBody {E T} r.
Arguments LAcquire {E T} namespace id.
Arguments LLoad {E T} namespace name.
Arguments LBoundErr {E T}.
Arguments LFence {E T}.
Arguments LDeleteLease {E T}.
Arguments LRelease {E T}.
Arguments LDelete {E T} object.

(** Acquiring says whether the lock is not nil. *)
Definition wlresp {E T} (R : E -> Type) (r : wlreq E T) : Type :=
  match r with
  | LBody r => R r
  | LAcquire _ _ => result bool
  | LLoad _ _ => result T
  | LBoundErr | LFence | LDeleteLease | LRelease | LDelete _ => option err
  end.

Section lock.
Context {E : Type} {R : E -> Type} {T : Type} `{SW : StoredWorkflow T}.
Notation locked := (prog (wlreq E T) (wlresp R)).
Implicit Types object : T.

(** The operation's program under the lock. *)
Fixpoint embed {A} (p : prog E R A) : locked A :=
  match p with
  | Ret a => Ret a
  | OutOfFuel => OutOfFuel
  | Vis r k => Vis (LBody r : wlreq E T) (fun x => embed (k x))
  end.

(** ** The lock *)

(** [locker] says whether one is configured. *)
Definition AcquireRequiredSessionLock (locker : bool) (namespace id : string) : locked (option err) :=
  if negb locker then Ret (Some (NewError ErrorInternal "session lock" "session locker is required")) else
  a ← call (LAcquire namespace id);
  Ret match (a : result bool) with
      | inr e => Some e
      | inl false => Some (NewError ErrorInternal "session lock" "session locker returned a nil lock")
      | inl true => None
      end.

(** The operation after the lock was acquired. *)
Definition locked_operation object (allowDeleting : bool) (operation : bool -> prog E R (option err)) : locked (option err) :=
  l ← call (LLoad (wm_Namespace (wm_meta object)) (wm_Name (wm_meta object)));
  match (l : result T) with
  | inr e => if (IsNotFound e && allowDeleting)%bool then call LDeleteLease else Ret (Some e)
  | inl latest =>
      if ((wm_UID (wm_meta latest) <>s wm_UID (wm_meta object))
          || (wm_ResourceVersion (wm_meta latest) <>s wm_ResourceVersion (wm_meta object)))%bool then
        Ret (Some (NewError ErrorConflict "workflow" "workflow changed while acquiring its lock; reload before retrying"))
      else if (wm_Deleting (wm_meta latest) && negb allowDeleting)%bool then
        Ret (Some (NewError ErrorPrecondition "workflow" "workflow is being deleted"))
      else
        b ← call LBoundErr;
        f ← call LFence;
        match errors_Join [b; f] with
        | Some e => Ret (Some e)
        | None => embed (operation true)
        end
  end.

(** [operation] is told whether it holds a Lease: there is none when the namespace of the
    Lease is terminating. *)
Definition WithWorkflowLease (locker : bool) (namespace : string) object (allowDeleting : bool)
    (operation : bool -> prog E R (option err)) : locked (option err) :=
  let meta := wm_meta object in
  if ((wm_UID meta =s "") || (wm_ResourceVersion meta =s ""))%bool then
    Ret (Some (NewError ErrorValidation "workflow" "persisted workflow UID and resourceVersion are required"))
  else if (wm_Deleting meta && negb allowDeleting)%bool then
    Ret (Some (NewError ErrorPrecondition "workflow" "workflow is being deleted; controller recovery owns execution"))
  else
  a ← AcquireRequiredSessionLock locker namespace (wm_Name meta);
  match a with
  | Some e =>
      if (allowDeleting && wm_Deleting meta && isSessionNamespaceTerminating (Some e))%bool then
        c ← embed (operation false);
        match c with
        | Some x => Ret (Some x)
        | None => call (LDelete object)
        end
      else Ret (Some e)
  | None =>
      operationErr ← locked_operation object allowDeleting operation;
      f ← call LFence;
      r ← call LRelease;
      Ret (errors_Join [errors_Join [operationErr; f]; r])
  end.

(** ** Pending handoffs (workflow_handoff.go) *)

Definition reservationCopyPendingAnnotation : string := "migrate.sealos.io/reservation-copy-pending".
Definition reservationCopyOriginAnnotation : string := "migrate.sealos.io/reservation-copy-origin".

Definition RequireWorkflowHandoffComplete object : option err :=
  if mget (wm_Annotations (wm_meta object)) reservationCopyPendingAnnotation <>s "" then
    Some (NewError ErrorConflict "workflow handoff"
      "reservation-to-copy handoff must finish before execution or cleanup")
  else None.

Definition WorkflowHandoffChanged (previous current : T) : bool :=
  existsb (fun key => mget (wm_Annotations (wm_meta previous)) key <>s mget (wm_Annotations (wm_meta current)) key)
    [reservationCopyPendingAnnotation; reservationCopyOriginAnnotation].

(** ** The executors' wrappers (app/workflow_lock.go)

    [deletion] is the context's mark of a deletion pass. *)

Definition withStoredWorkflowLease (deletion locker : bool) (namespace : string) object
    (operation : bool -> prog E R (option err)) : locked (option err) :=
  WithWorkflowLease locker namespace object deletion operation.

Definition withStoredWorkflowLock (deletion locker : bool) (namespace : string) object
    (operation : bool -> prog E R (option err)) : locked (option err) :=
  withStoredWorkflowLease deletion locker namespace object (fun held =>
    match RequireWorkflowHandoffComplete object with
    | Some e => Ret (Some e)
    | None => operation held
    end).

(** The entry of an executor's operation: the object is validated before the lock is
    asked for, and the operation runs under it. *)
Definition locked_entry (deletion locker : bool) (namespace : string) (validate : T -> option err)
    (operation : T -> prog E R (option err)) object : locked (option err) :=
  match validate object with
  | Some e => Ret (Some e)
  | None => withStoredWorkflowLock deletion locker namespace object (fun _ => operation object)
  end.
End lock.

(** ** Handing a reservation over to a copy

    [handoff], [activate] and [cancelHandoff] are the callbacks of the storage; the
    namespace is that of the session's storage or of the object.  The mark of a deletion
    pass is set inside the package only, so that the callers of [AdoptReservation] have
    none; without it, no error means that the operation ran. *)

Section handoff.
Context `{CR : ConflictRetry} `{QT : QuantityText} `{IG : ImageGrammar} `{PV : PVMigrateLibrary}.
Context {Res Spec Obj : Type} `{SR : StoredWorkflow Res} `{CW : CopyWorkflow Obj}.
Context (config : CopyExecutorConfig) (locker : bool) (namespace : string).
Context (validateReservation : Res -> option err) (fromReservation : Res -> Spec -> option (result Obj)).
Notation locked := (prog (wlreq (xreq Obj) Res) (wlresp (@xresp Obj))).

Definition handoff_missing (operation : string) : err := NewError ErrorInternal operation "handoff storage is not configured".

(** Under the lock of the reservation. *)
Definition adopt_prepared (handoff : Res -> Obj -> execOf Obj (option err)) (reservation : Res) (prepared : Obj)
    : execOf Obj (option err) :=
  check: copy_Validate config prepared;
  check: lift checkpointFenceError;
  handoff reservation prepared.

Definition AdoptReservation (handoff : option (Res -> Obj -> execOf Obj (option err))) (reservation : Res) (spec : Spec)
    : locked (option Obj * option err) :=
  match validateReservation reservation with
  | Some e => Ret (None, Some e)
  | None =>
      match handoff with
      | None => Ret (None, Some (handoff_missing "copy reservation"))
      | Some handoff =>
          e ← withStoredWorkflowLease false locker namespace reservation (fun _ =>
                or_panic (fromReservation reservation spec) (fun converted =>
                match converted with
                | inr e => Ret (Some e)
                | inl prepared => adopt_prepared handoff reservation prepared
                end));
          Ret (match (e : option err), fromReservation reservation spec with
               | None, Some (inl prepared) => Some prepared
               | _, _ => None
               end, e)
      end
  end.
End handoff.

(** The two recoveries run one callback under the object's own lock; a deletion mark is
    set for an object that is being deleted. *)
Section recovery.
Context {E : Type} {R : E -> Type} {T : Type} `{SW : StoredWorkflow T}.
Context (locker deletion : bool) (namespace operation : string) (validate : T -> option err).

Definition recover_handoff (callback : option (T -> prog E R (option err))) (object : T)
    : prog (wlreq E T) (wlresp R) (option err) :=
  match validate object with
  | Some e => Ret (Some e)
  | None =>
      match callback with
      | None => Ret (Some (handoff_missing operation))
      | Some callback =>
          withStoredWorkflowLease (deletion || wm_Deleting (wm_meta object)) locker namespace object (fun _ => callback object)
      end
  end.
End recovery.

(** [ActivateReservationHandoff] of the copies, [CancelCopyHandoff] of the reservations *)
Definition ActivateReservationHandoff {E : Type} {R : E -> Type} {T} `{StoredWorkflow T} (locker deletion : bool)
    (namespace : string) (validate : T -> option err) (activate : option (T -> prog E R (option err))) (object : T)
    : prog (wlreq E T) (wlresp R) (option err) :=
  recover_handoff locker deletion namespace "copy handoff" validate activate object.

Definition CancelCopyHandoff {E : Type} {R : E -> Type} {T} `{StoredWorkflow T} (locker deletion : bool)
    (namespace : string) (validate : T -> option err) (cancelHandoff : option (T -> prog E R (option err))) (object : T)
    : prog (wlreq E T) (wlresp R) (option err) :=
  recover_handoff locker deletion namespace "reservation handoff" validate cancelHandoff object.

(** ** Under the lock *)

(** An object with its metadata. *)
Definition Stored (Obj : Type) : Type := WorkflowMeta * Obj.
#[global] Instance Stored_workflow {Obj} : StoredWorkflow (Stored Obj) := fst.

Section entries.
Context `{CR : ConflictRetry} `{QT : QuantityText} `{IG : ImageGrammar} `{LG : LabelGrammar}.
Context {Obj : Type} (deletion locker : bool) (namespace : string).
Notation locked := (prog (wlreq (xreq Obj) (Stored Obj)) (wlresp (@xresp Obj))).
Implicit Types object : Stored Obj.

Definition executor_entry `{StagedWorkflow Obj} (operation : Obj -> execOf Obj (Obj * option err)) object : locked (option err) :=
  locked_entry deletion locker namespace (fun s : Stored Obj => sw_validateObject s.2)
    (fun s => r ← operation s.2; Ret r.2) object.

(** [Run], [Abort], [RequestResume] and [RequestCopyPass] of the copies *)
Definition copy_entry_Run `{CopyWorkflow Obj} (config : CopyExecutorConfig) (reserver : Reserver) (steps polls : nat) object :=
  executor_entry (copy_run config reserver steps polls) object.
Definition copy_entry_Abort `{CopyWorkflow Obj} (config : CopyExecutorConfig) (polls : nat) object :=
  executor_entry (copy_abort config polls) object.
Definition copy_entry_RequestResume `{CopyWorkflow Obj} (config : CopyExecutorConfig) object :=
  executor_entry (copy_RequestResume config) object.
Definition copy_entry_RequestCopyPass `{CopyWorkflow Obj} (config : CopyExecutorConfig) object :=
  executor_entry (RequestCopyPass config) object.

(** [Run], [Abort] and [RequestResume] of the reservations *)
Definition reservation_entry_Run `{StagedWorkflow Obj} (config : ReservationExecutorConfig) (reserver : Reserver) object :=
  executor_entry (reservation_run config reserver) object.
Definition reservation_entry_Abort `{StagedWorkflow Obj} object := executor_entry reservation_abort object.
Definition reservation_entry_RequestResume `{StagedWorkflow Obj} (config : ReservationExecutorConfig) object :=
  executor_entry (reservation_RequestResume config) object.
End entries.

(** ** The four executors *)

Section executors.
Context `{CR : ConflictRetry} `{QT : QuantityText} `{IG : ImageGrammar} `{LG : LabelGrammar}.
Context (reserver : Reserver) (steps polls : nat) (terminal held : bool).
Notation step Obj := (Obj -> execOf Obj (Obj * option err)).

Section copies.
Context (config : CopyExecutorConfig).

Definition ClusterCopyExecutor_transition (o : ClusterCopy) (next : Phase) (message : string) :=
  staged_transition false o next message.
Definition ClusterCopyExecutor_fail (o : ClusterCopy) (cause : err) := staged_fail o cause.
Definition ClusterCopyExecutor_reserve (plan : ScopedCopyPlan) : step ClusterCopy := copy_reserve config reserver plan.
Definition ClusterCopyExecutor_copyVolumes : step ClusterCopy := copyVolumes config steps polls.
Definition ClusterCopyExecutor_run : step ClusterCopy := copy_run config reserver steps polls.
Definition ClusterCopyExecutor_Validate (o : ClusterCopy) := copy_Validate config o.
Definition ClusterCopyExecutor_cleanupInterrupted (o : ClusterCopy) := cleanupInterrupted config polls o.
Definition ClusterCopyExecutor_abort : step ClusterCopy := copy_abort config polls.
Definition ClusterCopyExecutor_prepareCleanup (o : ClusterCopy) (options : StagedCleanupOptions) :=
  staged_prepareCleanup terminal o options.
Definition ClusterCopyExecutor_cleanup (o : ClusterCopy) (options : StagedCleanupOptions) :=
  staged_cleanup polls terminal held o options.
Definition ClusterCopyExecutor_FinalizeDeleted (o : option ClusterCopy) := copy_FinalizeDeleted config polls terminal held o.

Definition CopyExecutor_transition (o : Copy) (next : Phase) (message : string) := staged_transition false o next message.
Definition CopyExecutor_fail (o : Copy) (cause : err) := staged_fail o cause.
Definition CopyExecutor_reserve (plan : ScopedCopyPlan) : step Copy := copy_reserve config reserver plan.
Definition CopyExecutor_copyVolumes : step Copy := copyVolumes config steps polls.
Definition CopyExecutor_run : step Copy := copy_run config reserver steps polls.
Definition CopyExecutor_Validate (o : Copy) := copy_Validate config o.
Definition CopyExecutor_cleanupInterrupted (o : Copy) := cleanupInterrupted config polls o.
Definition CopyExecutor_abort : step Copy := copy_abort config polls.
Definition CopyExecutor_prepareCleanup (o : Copy) (options : StagedCleanupOptions) := staged_prepareCleanup terminal o options.
Definition CopyExecutor_cleanup (o : Copy) (options : StagedCleanupOptions) := staged_cleanup polls terminal held o options.
Definition CopyExecutor_FinalizeDeleted (o : option Copy) := copy_FinalizeDeleted config polls terminal held o.
End copies.

Section reservations.
Context (config : ReservationExecutorConfig).

Definition ClusterReservationExecutor_transition (o : ClusterReservation) (next : Phase) (message : string) :=
  staged_transition false o next message.
Definition ClusterReservationExecutor_fail (o : ClusterReservation) (cause : err) := staged_fail o cause.
Definition ClusterReservationExecutor_run : step ClusterReservation := reservation_run config reserver.
Definition ClusterReservationExecutor_Validate (o : ClusterReservation) := reservation_Validate config o.
Definition ClusterReservationExecutor_abort : step ClusterReservation := reservation_abort.
Definition ClusterReservationExecutor_prepareCleanup (o : ClusterReservation) (options : StagedCleanupOptions) :=
  staged_prepareCleanup terminal o options.
Definition ClusterReservationExecutor_cleanup (o : ClusterReservation) (options : StagedCleanupOptions) :=
  staged_cleanup polls terminal held o options.
Definition ClusterReservationExecutor_FinalizeDeleted (o : option ClusterReservation) :=
  reservation_FinalizeDeleted polls terminal held o.

Definition ReservationExecutor_transition (o : Reservation) (next : Phase) (message : string) :=
  staged_transition false o next message.
Definition ReservationExecutor_fail (o : Reservation) (cause : err) := staged_fail o cause.
Definition ReservationExecutor_run : step Reservation := reservation_run config reserver.
Definition ReservationExecutor_Validate (o : Reservation) := reservation_Validate config o.
Definition ReservationExecutor_abort : step Reservation := reservation_abort.
Definition ReservationExecutor_prepareCleanup (o : Reservation) (options : StagedCleanupOptions) :=
  staged_prepareCleanup terminal o options.
Definition ReservationExecutor_cleanup (o : Reservation) (options : StagedCleanupOptions) :=
  staged_cleanup polls terminal held o options.
Definition ReservationExecutor_FinalizeDeleted (o : option Reservation) := reservation_FinalizeDeleted polls terminal held o.
End reservations.
End executors.
