(* ===== verification/OfflineSafety.v ===== *)
(** * What offline verification establishes

    [verifyOfflineBindings] shares its reads between volumes; its success still
    means that every volume of the request was verified on its own. *)

From S2P Require Import Prelude Utf8 GoErrors Lifecycle KubeTypes Prog Api ResourceState Ownership PVBinding Offline Activation SwitcherRules.

(** No request of the program writes anything. *)
Definition read_only (h : trace) (r : req) : Prop := is_write r = false /\ is_progress r = false.

Lemma read_only_reads : reads_ok read_only.
Proof. by intros h r H1 H2. Qed.

(** The claim and its volume were read with the recorded identities, bound to
    each other on both sides, without custom finalizers, and not owned by
    another session. *)
Definition bound_pair (pvcRef pvRef : ObjectReference) (sid : string) (h : trace) : Prop :=
  exists pvc pv,
    Ev (GetPVC (Namespace pvcRef) (Name pvcRef)) (inl pvc) ∈ h /\ pvc_UID pvc = UID pvcRef /\
    pvc_Phase pvc = ClaimBound /\ pvc_VolumeName pvc = Name pvRef /\
    (forall f, f ∈ pvc_Finalizers pvc -> f = "" \/ f = PVCProtectionFinalizer) /\
    Ev (GetPV (Name pvRef)) (inl pv) ∈ h /\ pv_UID pv = UID pvRef /\ claimref_matches pv pvc = true /\
    (sid <> "" -> unowned_or sid pvc /\
       (mget (pv_Labels pv) SessionKey = "" \/ mget (pv_Labels pv) SessionKey = sid)).

(** In recovery: the claim is gone and its volume is retained by this session,
    still pointing at the recorded claim or reserved for [reserve]. *)
Definition retained_gap (pvcRef pvRef reserve : ObjectReference) (sid : string) (h : trace) : Prop :=
  claim_absent pvcRef h /\
  exists pv, Ev (GetPV (Name pvRef)) (inl pv) ∈ h /\ pv_UID pv = UID pvRef /\
    pv_DeletionTimestamp pv = None /\ mget (pv_Labels pv) SessionKey = sid /\
    pv_ReclaimPolicy pv = ReclaimRetain /\
    ((claimref_is (pv_ClaimRef pv) (Namespace pvcRef) (Name pvcRef) = true /\
      claimref_uid (pv_ClaimRef pv) = UID pvcRef) \/
     (Name reserve <> "" /\ claimref_is (pv_ClaimRef pv) (Namespace reserve) (Name reserve) = true /\
      claimref_uid (pv_ClaimRef pv) = "")).

Definition identity_ok (pvcRef pvRef : ObjectReference) (sid : string)
    (recovery : option ObjectReference) (h : trace) : Prop :=
  bound_pair pvcRef pvRef sid h \/
  exists reserve, recovery = Some reserve /\ retained_gap pvcRef pvRef reserve sid h.

(** One attachment list in which none of the volumes is attached. *)
Definition all_detached (pvNames : list string) (h : trace) : Prop :=
  pvNames = [] \/
  exists items, Ev ListVolumeAttachments (inl (Some items)) ∈ h /\
    Forall (fun a => attachment_holds pvNames a = false) items.

Lemma identity_ok_mono h h' pvcRef pvRef sid rc :
  h `suffix_of` h' -> identity_ok pvcRef pvRef sid rc h -> identity_ok pvcRef pvRef sid rc h'.
Proof.
  intros Hs [(pvc & pv & H1 & H2 & H3 & H4 & H5 & H6 & H7 & H8 & H9)|(rs & H1 & H2 & pv & H3 & H4)].
  - left. exists pvc, pv. split_and!; try done; by eapply suffix_elem.
  - right. exists rs. split; [done|]. split; [by eapply claim_absent_mono|].
    exists pv. split; [by eapply suffix_elem|done].
Qed.

Section rules.
Context (s : Switcher).

Lemma wp_verifyRetained pvcRef pvRef reserve sid h :
  claim_absent pvcRef h ->
  wp read_only (verifyRetainedActivationPV sid pvcRef pvRef reserve)
     (on_ok (retained_gap pvcRef pvRef reserve sid)) h.
Proof.
  intros Ha. apply wp_bind_2, wp_call; [apply read_only_reads|done|done|]. intros [pv|e]; [|done].
  case_test; [done|]. bool_prop. cbv zeta. case_test; [done|]. intros _.
  split; [eapply claim_absent_mono; [|done]; by apply suffix_cons_r|].
  apply bool_decide_eq_false in H2. apply bool_decide_eq_true in H0.
  exists pv. split_and!; try done; [left|destruct (pv_DeletionTimestamp pv); [by destruct H2|done]|].
  apply andb_false_iff in Heqb as [H4|H4]; bool_prop; [left|right]; done.
Qed.

Lemma wp_verifyIdentity pvcRef pvRef role sid rc h :
  wp read_only (verifyPVCAndPVIdentity pvcRef pvRef role sid rc) (on_ok (identity_ok pvcRef pvRef sid rc)) h.
Proof.
  pose proof read_only_reads as HG. unfold verifyPVCAndPVIdentity. case_test; [done|]. case_test; [done|].
  apply wp_bind_2, wp_call; [done|done|done|]. intros [pvc|e].
  - case_test; [done|]. bool_prop. apply wp_check_Ret.
    destruct (validatePVCDeletionFinalizers pvc _) eqn:Hf; [done|]. apply wp_check_Ret.
    assert (forall o : option err, (if sid <>s "" then o else None) = None -> sid <> "" -> o = None) as Hsid.
    { intros o Ho Hs. by destruct (String.eqb_spec sid ""). }
    destruct (if sid <>s "" then _ else None) eqn:Hown; [done|]. specialize (Hsid _ Hown).
    destruct (bool_decide_reflect (pvc_Phase pvc = ClaimBound)) as [Hph|]; [|done]. cbn [negb].
    case_test; [done|]. bool_prop.
    apply wp_bind_2, wp_call; [done|done|done|]. intros [pv|e]; [|done].
    case_test; [done|]. destruct (_ && foreign_owner _ _)%bool eqn:Hpo; [done|].
    case_test; [done|]. bool_prop. intros _. left.
    exists pvc, pv. split_and!; try done.
    + right. left.
    + by eapply deletion_finalizers_None.
    + left.
    + intros Hne. specialize (Hsid Hne). cbn [List.find] in Hsid.
      destruct (foreign_owner (mget (pvc_Annotations pvc) SessionKey) sid) eqn:F1; [done|].
      destruct (foreign_owner (mget (pvc_Labels pvc) SessionKey) sid) eqn:F2; [done|].
      apply foreign_owner_false in F1, F2. split; [done|].
      apply andb_false_iff in Hpo as [F3|F3]; [by bool_prop|]. by apply foreign_owner_false.
  - destruct rc as [reserve|]; [|done]. case_test; [|done].
    eapply wp_mono; [apply wp_verifyRetained; exists e; split; [done|left]|].
    intros r h' _ Hr Hn. right. exists reserve. split; [done|by apply Hr].
Qed.

Lemma wp_run_all {A B} (f : A -> kube B) (P : A -> B -> trace -> Prop) l h :
  (forall x b h1 h2, h1 `suffix_of` h2 -> P x b h1 -> P x b h2) ->
  (forall x h', wp read_only (f x) (fun b h'' => P x b h'') h') ->
  wp read_only (run_all f l) (fun bs h' => Forall2 (fun x b => P x b h') l bs) h.
Proof.
  intros Hm Hf. revert h. induction l as [|x l IH]; intros h; [by constructor|]. cbn [run_all].
  apply wp_bind_2. eapply wp_mono; [apply Hf|]. intros b h1 _ Hb.
  apply wp_bind_2. eapply wp_mono; [apply IH|]. intros bs h2 Hs2 Hbs.
  constructor; [by eapply Hm|done].
Qed.

Lemma wp_list_pods ns h :
  wp read_only (list_pods ns)
     (fun r h' => forall pods, r = inl pods -> Ev (ListPods ns) (inl (Some pods)) ∈ h') h.
Proof.
  apply wp_bind_2, wp_call; [apply read_only_reads|done|done|]. intros [[pods|]|e]; intros ps; [|done|done].
  intros [= <-]. left.
Qed.

Lemma wp_volumesDetached pvNames h :
  wp read_only (ensureVolumesDetached s pvNames) (on_ok (all_detached pvNames)) h.
Proof.
  unfold ensureVolumesDetached. destruct pvNames as [|n ns]; [by intros _; left|].
  apply wp_waitFor_; [apply read_only_reads|]. intros h' _.
  apply wp_bind_2, wp_call; [apply read_only_reads|done|done|]. intros [[items|]|e]; intros u; [|done|done].
  intros [= Hi]. right. exists items. split; [left|]. apply negb_true_iff in Hi.
  apply Forall_forall. intros a Ha. destruct (attachment_holds (n :: ns) a) eqn:E; [|done].
  exfalso. assert (existsb (attachment_holds (n :: ns)) items = true) as Hx; [|congruence].
  apply existsb_exists. exists a. split; [by apply list_elem_of_In|done].
Qed.
End rules.

(** ** Shared reads cover every volume *)

Lemma first_error_None l : first_error l = None -> Forall (fun e => e = None) l.
Proof.
  unfold first_error. induction l as [|[e|] l IH]; simpl; [by constructor|done|]. intros H. constructor; auto.
Qed.

Lemma elem_dedup seen l x : x ∈ l -> x ∈ seen \/ x ∈ dedup seen l.
Proof.
  revert seen. induction l as [|y l IH]; intros seen; [set_solver|]. cbn [dedup].
  rewrite elem_of_cons. destruct (contains seen y) eqn:E.
  - apply contains_true in E. intros [->|Hx]; [by left|by apply IH].
  - intros [->|Hx]; [right; left|]. destruct (IH (y :: seen) Hx) as [Hs|Hd]; [|right; by right].
    apply elem_of_cons in Hs as [->|Hs]; [right; left|by left].
Qed.

(** Every entry has an identity with the same references; without recovery no
    identity accepts a missing claim. *)
Lemma addIdentity_keeps recovering ids entry i : i ∈ ids -> i ∈ addIdentity recovering ids entry.
Proof. destruct entry as [[[pvc pv] role] rc]. unfold addIdentity. case_test; [done|]. set_solver. Qed.

Lemma addIdentity_has recovering ids pvc pv role rc :
  exists i, i ∈ addIdentity recovering ids (pvc, pv, role, rc) /\ id_pvc i = pvc /\ id_pv i = pv.
Proof.
  unfold addIdentity. case_test.
  - apply existsb_exists in Heqb as (i & Hi & Hb). bool_prop. apply bool_decide_eq_true in H, H0.
    exists i. split; [by apply list_elem_of_In|done].
  - eexists. split; [apply elem_of_app; right; left|done].
Qed.

Lemma fold_identities recovering entries ids :
  (forall i, i ∈ ids -> i ∈ foldl (addIdentity recovering) ids entries) /\
  (forall pvc pv role rc, (pvc, pv, role, rc) ∈ entries ->
     exists i, i ∈ foldl (addIdentity recovering) ids entries /\ id_pvc i = pvc /\ id_pv i = pv).
Proof.
  revert ids. induction entries as [|e entries IH]; intros ids; [set_solver|]. cbn [foldl].
  destruct (IH (addIdentity recovering ids e)) as [IH1 IH2]. split.
  - intros i Hi. by apply IH1, addIdentity_keeps.
  - intros pvc pv role rc Hin. apply elem_of_cons in Hin as [<-|Hin]; [|by eapply IH2].
    destruct (addIdentity_has recovering ids pvc pv role rc) as (i & Hi & H1 & H2).
    exists i. split; [by apply IH1|done].
Qed.

Lemma identities_recovery volumes i : i ∈ identities false volumes -> id_recoveryClaim i = None.
Proof.
  unfold identities. generalize (concat (map volume_identities volumes)). intros entries.
  assert (forall ids, (forall i, i ∈ ids -> id_recoveryClaim i = None) ->
    forall i, i ∈ foldl (addIdentity false) ids entries -> id_recoveryClaim i = None) as H.
  { induction entries as [|[[[pvc pv] role] rc] entries IH]; intros ids Hids; [done|]. cbn [foldl]. apply IH.
    intros j. unfold addIdentity. case_test; [apply Hids|]. rewrite elem_of_app, list_elem_of_singleton.
    intros [Hj| ->]; [by apply Hids|done]. }
  apply H. set_solver.
Qed.

(** ** The theorem *)

Definition volume_verified (sid : string) (recovering : bool) (v : PVCTransferBindings) (h : trace) : Prop :=
  (exists rc, (recovering = false -> rc = None) /\ identity_ok (SourcePVC v) (SourcePV v) sid rc h) /\
  (exists rc, (recovering = false -> rc = None) /\ identity_ok (DestinationPVC v) (DestinationPV v) sid rc h) /\
  no_consumers (Namespace (SourcePVC v)) (Name (SourcePVC v)) h /\
  no_consumers (Namespace (DestinationPVC v)) (Name (DestinationPVC v)) h.

Section theorem.
Context (s : Switcher) (sid : string) (volumes : list PVCTransferBindings) (recovering : bool).

Lemma lookup_pods_seen (h : trace) namespaces lists ns pods :
  Forall2 (fun n r => forall ps, r = inl ps -> Ev (ListPods n) (inl (Some ps)) ∈ h) namespaces lists ->
  ns ∈ namespaces -> lookup_pods namespaces lists ns = inl pods ->
  Ev (ListPods ns) (inl (Some pods)) ∈ h.
Proof.
  induction 1 as [|n r namespaces lists Hr _ IH]; [set_solver|]. cbn [lookup_pods].
  destruct (String.eqb_spec n ns) as [->|Hn]; [intros _; apply Hr|].
  rewrite elem_of_cons. intros [->|Hin]; [done|by apply IH].
Qed.

Lemma check_pods_None (h : trace) lists ref :
  Forall2 (fun n r => forall ps, r = inl ps -> Ev (ListPods n) (inl (Some ps)) ∈ h)
    (offline_namespaces volumes) lists ->
  check_pods (lookup_pods (offline_namespaces volumes) lists) (concat (map volume_claims volumes)) = None ->
  ref ∈ concat (map volume_claims volumes) -> no_consumers (Namespace ref) (Name ref) h.
Proof.
  intros Hl Hc Hin. unfold check_pods in Hc. apply first_error_None in Hc.
  rewrite Forall_forall in Hc. specialize (Hc _ (list_elem_of_fmap_2 _ _ _ Hin)).
  cbv beta in Hc.
  destruct (lookup_pods (offline_namespaces volumes) lists (Namespace ref)) as [pods|e] eqn:E; [|done].
  exists pods. split; [|by eapply no_consumer_pods]. eapply lookup_pods_seen; [done| |done].
  destruct (elem_dedup [] (map Namespace (concat (map volume_claims volumes))) (Namespace ref)) as [?|?];
    [by apply list_elem_of_fmap_2|set_solver|done].
Qed.

Lemma volume_in (v : PVCTransferBindings) {A} (f : PVCTransferBindings -> list A) x :
  v ∈ volumes -> x ∈ f v -> x ∈ concat (map f volumes).
Proof.
  intros Hv Hx. apply list_elem_of_In, in_concat. exists (f v).
  split; [apply in_map; by apply list_elem_of_In|by apply list_elem_of_In].
Qed.

Lemma wp_verifyOffline h :
  wp read_only (verifyOfflineBindings s sid volumes recovering)
     (on_ok (fun h' => Forall (fun v => volume_verified sid recovering v h') volumes /\
                       all_detached (offline_pvNames volumes) h')) h.
Proof.
  unfold verifyOfflineBindings. apply wp_bind_2.
  eapply wp_mono; [apply (wp_run_all _ (fun i e h' => e = None ->
    identity_ok (id_pvc i) (id_pv i) sid (id_recoveryClaim i) h'))|].
  { intros i e h1 h2 Hs Hi He. eapply identity_ok_mono; [done|by apply Hi]. }
  { intros i h'. apply wp_verifyIdentity. }
  intros errs h1 Hs1 Hids. apply wp_check_Ret. destruct (first_error errs) eqn:Hf; [done|].
  apply first_error_None in Hf.
  apply wp_bind_2. eapply wp_mono; [apply (wp_run_all _ (fun ns r h' => forall pods, r = inl pods ->
    Ev (ListPods ns) (inl (Some pods)) ∈ h'))|].
  { intros ns r h2 h3 Hs Hr pods Hp. eapply suffix_elem; [done|by apply Hr]. }
  { apply wp_list_pods. }
  intros lists h2 Hs2 Hlists. apply wp_check_Ret. destruct (check_pods _ _) eqn:Hc; [done|].
  eapply wp_mono; [apply wp_volumesDetached|]. intros r h3 Hs3 Hd Hr. split; [|by apply Hd].
  assert (forall i, i ∈ identities recovering volumes ->
    identity_ok (id_pvc i) (id_pv i) sid (id_recoveryClaim i) h3) as Hok.
  { intros i Hi. eapply identity_ok_mono with (h := h1); [by etrans|].
    apply list_elem_of_lookup in Hi as [k Hk]. destruct (Forall2_lookup_l _ _ _ _ _ Hids Hk) as (e & He & Hi).
    apply Hi. by eapply (Forall_lookup_1 (fun e => e = None)). }
  assert (forall pvc pv role rc, (pvc, pv, role, rc) ∈ concat (map volume_identities volumes) ->
    exists rc', (recovering = false -> rc' = None) /\ identity_ok pvc pv sid rc' h3) as Hent.
  { intros pvc pv role rc Hin. destruct (fold_identities recovering (concat (map volume_identities volumes)) []) as [_ Hfi].
    destruct (Hfi _ _ _ _ Hin) as (i & Hi & <- & <-). exists (id_recoveryClaim i). split; [|by apply Hok].
    intros ->. by eapply identities_recovery. }
  apply Forall_forall. intros v Hv. split_and!.
  - eapply Hent, (volume_in v); [done|left].
  - eapply Hent, (volume_in v); [done|right; left].
  - eapply no_consumers_mono; [exact Hs3|]. eapply (check_pods_None h2 lists); [exact Hlists|exact Hc|]. apply (volume_in v); [done|left].
  - eapply no_consumers_mono; [exact Hs3|]. eapply (check_pods_None h2 lists); [exact Hlists|exact Hc|].
    apply (volume_in v); [done|right; left].
Qed.

(** C24: offline verification is sound for every volume and writes nothing.
    [verifyOfflineBindings] issues only reads; when it reports no error, for each
    volume of the request both claims were read with their recorded UIDs, bound
    on both sides to the recorded volumes and free of custom finalizers and of
    other sessions (or, in recovery only, gone with their volumes retained by
    this session), no Pod was using either claim, and one attachment list showed
    none of the volumes attached. *)
Theorem offline_verification_sound {W} (server : handler W) w :
  let out := run server (verifyOfflineBindings s sid volumes recovering) w [] in
  calls_ok read_only [] out.2 /\
  (out.1.1 = Some None ->
     Forall (fun v => volume_verified sid recovering v out.2) volumes /\
     all_detached (offline_pvNames volumes) out.2).
Proof.
  cbv zeta. destruct (wp_adequate _ server _ _ w [] (wp_verifyOffline [])) as [Hc Hq].
  split; [exact Hc|]. intros Hn. by apply (Hq None).
Qed.
End theorem.
