(* ===== verification/CopySafety.v ===== *)
(** * Safety of the copy runner

    When an attempt starts, which Pods its cleanup deletes, what a reported success
    means, and the arithmetic of backoff and shrinking; for every workflow object and
    against every server. *)

From S2P Require Import Prelude Utf8 GoErrors Lifecycle GoFormat KubeTypes Prog Api ResourceState Quota Reserver TransferPath Offline CopyEngine Exec CopyRunner ExecRules OfflineSafety.

(** ** Backoff *)

Lemma retryBackoffDelay_spec base i :
  (0 < base)%Z -> (0 <= i)%Z -> retryBackoffDelay base i = Z.min MaxInt64 (base * 2 ^ Z.min i 62).
Proof.
  intros Hb Hi. unfold retryBackoffDelay. destruct (Z.leb_spec base 0); [lia|]. cbv zeta.
  rewrite Z.shiftl_mul_pow2, Z.mul_1_l by lia.
  assert (0 < 2 ^ Z.min i 62)%Z as Hp by (apply Z.pow_pos_nonneg; lia).
  rewrite Z.gtb_ltb. destruct (Z.ltb_spec (MaxInt64 / 2 ^ Z.min i 62) base) as [Hlt|Hge].
  - assert (MaxInt64 < base * 2 ^ Z.min i 62)%Z; [|lia].
    pose proof (Z.mul_succ_div_gt MaxInt64 (2 ^ Z.min i 62) Hp). nia.
  - assert (base * 2 ^ Z.min i 62 <= MaxInt64)%Z; [|lia].
    pose proof (Z.mul_div_le MaxInt64 (2 ^ Z.min i 62) Hp). nia.
Qed.

(** The delay before the next attempt is the doubled base, capped at the largest
    int64: never negative or zero for a positive base, never above the type's range,
    and never shorter than an earlier one. *)
Theorem retry_backoff_saturates base i j :
  (0 < base <= MaxInt64)%Z -> (0 <= i <= j)%Z ->
  retryBackoffDelay base i = Z.min MaxInt64 (base * 2 ^ Z.min i 62) /\
  (base <= retryBackoffDelay base i <= MaxInt64)%Z /\
  (retryBackoffDelay base i <= retryBackoffDelay base j)%Z /\
  ((i < 62)%Z -> (retryBackoffDelay base (i + 1) = Z.min MaxInt64 (2 * retryBackoffDelay base i))%Z).
Proof.
  intros Hb Hi.
  assert (1 <= 2 ^ Z.min i 62)%Z as H1 by (apply (Z.pow_le_mono_r 2 0); lia).
  assert (2 ^ Z.min i 62 <= 2 ^ Z.min j 62)%Z as H2 by (apply Z.pow_le_mono_r; lia).
  rewrite !retryBackoffDelay_spec by lia. split_and!; [done|nia|nia|nia|].
  intros Hlt. rewrite (Z.min_l (i + 1)), (Z.min_l i), Z.pow_add_r by lia. lia.
Qed.

Lemma retry_backoff_saturates_witness :
  retryBackoffDelay 3600000000000 61 = MaxInt64 /\ retryBackoffDelay 2000000000 2 = 8000000000%Z.
Proof.
  split.
  - destruct (retry_backoff_saturates 3600000000000 61 62) as (-> & _); [by vm_compute|by vm_compute|]. reflexivity.
  - destruct (retry_backoff_saturates 2000000000 2 2) as (-> & _); [by vm_compute|by vm_compute|]. reflexivity.
Defined.

(** ** Shrinking *)

(** The capacities parse and the destination is smaller. *)
Definition shrinks `{QuantityText} (sourceCapacity destinationCapacity : string) : option Quantity :=
  match ParseQuantity sourceCapacity, ParseQuantity destinationCapacity with
  | inl source, inl destination => if Z.ltb destination source then Some destination else None
  | _, _ => None
  end.

Section shrink.
Context `{QT : QuantityText} {Obj : Type}.
Context (reader : bool) (pvc pv : ObjectReference) (sc dc path : string) (skip : bool).

Notation read := (XService (SReadUsage pvc pv)).

(** Only the usage of this volume is read, and only if the destination is smaller and
    the check was not waived. *)
Definition usage_guard (h : xtraceOf Obj) (r : xreq Obj) : Prop :=
  r = read /\ is_Some (shrinks sc dc) /\ skip = false /\ reader = true.

(** The destination is not smaller, the check was waived, or one reading of the usage
    fits the destination. *)
Definition usage_fits (h0 h : xtraceOf Obj) : Prop :=
  match shrinks sc dc with
  | None => h = h0
  | Some destination =>
      (skip = true /\ h = h0) \/
      exists usage, h = Ev read (inl usage) :: h0 /\ (0 <= usage_UsedBytes usage <= quantity_value destination)%Z
  end.

Definition usage_answer (ev : event (@xresp Obj)) : option (result VolumeUsageReadResult) :=
  match ev with
  | Ev r x =>
      match r return xresp r -> option (result VolumeUsageReadResult) with
      | XService (SReadUsage _ _) => fun x => Some x
      | _ => fun _ => None
      end x
  end.

Lemma usage_answer_inj a b h : @Ev _ (@xresp Obj) read a :: h = Ev read b :: h -> a = b.
Proof. intros H. apply (f_equal (fun l => head l ≫= usage_answer)) in H. by injection H. Qed.

Lemma wp_shrink h :
  wp usage_guard (VerifyVolumeShrinkUsage reader pvc pv sc dc path skip) (fun e h' => e = None <-> usage_fits h h') h.
Proof.
  unfold VerifyVolumeShrinkUsage, usage_fits, usage_guard, shrinks. cbv zeta.
  destruct (ParseQuantity sc) as [source|]; [|done]. destruct (ParseQuantity dc) as [destination|]; [|done].
  rewrite Z.leb_antisym. destruct (Z.ltb destination source) eqn:Hlt; [|done]. cbn [negb].
  destruct skip; [apply wp_Ret; split; [by left|done]|].
  destruct reader; cbn [negb].
  2: { apply wp_Ret. split; [done|]. intros [[? _]|(u & Hh & Hu)]; [done|].
       apply (f_equal length) in Hh. cbn in Hh. lia. }
  apply wp_bind_2. split; [split_and!; done|]. intros [usage|e].
  2: { apply wp_Ret. split; [done|]. intros [[? _]|(u & Hh & Hu)]; [done|]. by apply usage_answer_inj in Hh. }
  assert (forall e : err, ~ (0 <= usage_UsedBytes usage <= quantity_value destination)%Z ->
    Some e = None <-> false = true /\ @Ev _ (@xresp Obj) read (inl usage) :: h = h \/
      (exists u, @Ev _ (@xresp Obj) read (inl usage) :: h = Ev read (inl u) :: h /\
         (0 <= usage_UsedBytes u <= quantity_value destination)%Z)) as Hno.
  { intros e Hn. split; [done|]. intros [[? _]|(u & Hu & Hle)]; [done|]. apply usage_answer_inj in Hu. by injection Hu as ->. }
  apply wp_Ret. cbv zeta. case_test; [bool_prop; apply wp_Ret, Hno; lia|]. bool_prop.
  rewrite Z.gtb_ltb. case_test; bool_prop.
  - case_test; apply wp_Ret, Hno; lia.
  - apply wp_Ret. split; [|done]. intros _. right. exists usage. split; [done|lia].
Qed.

(** The usage check accepts a volume exactly when its data is known to fit: no error
    means that the destination is not smaller, or that the check was waived, or that the
    one reading of the source's usage lies between zero and the destination's capacity,
    and in these cases there is none.  Nothing else is asked of the cluster, and usage is
    not read when it does not matter. *)
Theorem shrink_usage_exact {W} (server : handler (R := @xresp Obj) W) w e :
  let out := run server (VerifyVolumeShrinkUsage reader pvc pv sc dc path skip) w [] in
  calls_ok usage_guard [] out.2 /\
  (out.1.1 = Some e -> e = None <-> usage_fits [] out.2).
Proof.
  cbv zeta. destruct (wp_adequate _ server _ _ w [] (wp_shrink [])) as [Hc Hq]. split; [exact Hc|]. apply Hq.
Qed.
End shrink.

(** ** Copies in a trace *)

Section trace.
Context {Obj : Type}.
Implicit Types h k : xtraceOf Obj.

Definition copy_of (e : event (@xresp Obj)) : option (CopyRequest * option err) :=
  match e with
  | Ev r x =>
      match r return xresp r -> option (CopyRequest * option err) with
      | XService (SCopy q) => fun x => Some (q, x)
      | _ => fun _ => None
      end x
  end.

#[global] Arguments copy_of : simpl never.

(** The latest copy with its answer, and the events since. *)
Definition last_copy h : option (CopyRequest * option err) := head (omap copy_of h).

Fixpoint since_copy h : xtraceOf Obj :=
  match h with
  | [] => []
  | e :: rest => match copy_of e with Some _ => [] | None => e :: since_copy rest end
  end.

(** [h'] extends [h] without a copy. *)
Definition quiet h h' : Prop := exists k, h' = k ++ h /\ omap copy_of k = [].

Lemma quiet_refl h : quiet h h.
Proof. by exists []. Qed.

Lemma quiet_trans h1 h2 h3 : quiet h1 h2 -> quiet h2 h3 -> quiet h1 h3.
Proof.
  intros (k1 & -> & H1) (k2 & -> & H2). exists (k2 ++ k1). split; [by rewrite app_assoc|].
  by rewrite omap_app, H1, H2.
Qed.

Lemma quiet_cons e h h' : copy_of e = None -> quiet h h' -> quiet h (e :: h').
Proof. intros He (k & -> & Hk). exists (e :: k). split; [done|]. cbn [omap list_omap]. by rewrite He. Qed.

Lemma omap_lift hk : omap copy_of (map (lift_event (Obj := Obj)) hk) = [].
Proof. induction hk as [|[r x] hk IH]; [done|]. exact IH. Qed.

Lemma quiet_lift hk h : quiet h (map lift_event hk ++ h).
Proof. exists (map lift_event hk). split; [done|apply omap_lift]. Qed.

Lemma quiet_last h h' : quiet h h' -> last_copy h' = last_copy h.
Proof. intros (k & -> & Hk). unfold last_copy. by rewrite omap_app, Hk. Qed.

Lemma since_app k h : omap copy_of k = [] -> since_copy (k ++ h) = k ++ since_copy h.
Proof.
  induction k as [|e k IH]; [done|]. cbn. destruct (copy_of e) eqn:He; [done|].
  intros Hk. by rewrite IH.
Qed.

Lemma quiet_since e h h' : quiet h h' -> e ∈ since_copy h -> e ∈ since_copy h'.
Proof. intros (k & -> & Hk) He. rewrite since_app by done. apply elem_of_app. by right. Qed.

Lemma quiet_suffix h h' : quiet h h' -> h `suffix_of` h'.
Proof. intros (k & -> & _). by exists k. Qed.

(** The Pods of both namespaces were listed since the last copy, and none was a data
    mover that mounts the source or the destination. *)
Definition released (source destination : ObjectReference) h : Prop :=
  forall namespace names, (namespace, names) ∈ copy_claims source destination ->
    exists pods, Ev (XKube (ListPods namespace)) (inl (Some pods)) ∈ since_copy h /\
      existsb (isPVMigrateToolForClaims names) pods = false.

Lemma released_quiet source destination h h' :
  quiet h h' -> released source destination h -> released source destination h'.
Proof.
  intros Hq Hr ns names Hin. destruct (Hr ns names Hin) as (pods & Hp & Hn). exists pods.
  split; [by eapply quiet_since|done].
Qed.

(** A Pod that the cleanup of an operation may delete: it was listed, it is a data mover
    of this operation with one of the two claims, the deletion names its UID and nothing
    else, and the lease was confirmed just before. *)
Definition tool_pod_delete (source destination : ObjectReference) (operationID : string) h (r : req) : Prop :=
  exists pod l names pods h',
    r = DeletePod (pod_Namespace pod) (pod_Name pod) (pod_UID pod) None /\ pod_UID pod <> "" /\
    (l, names) ∈ copy_claims source destination /\
    Ev (XKube (ListPods l)) (inl (Some pods)) ∈ h /\ pod ∈ pods /\
    isPVMigrateToolForClaims names pod = true /\ isPVMigrateToolForOperation operationID pod = true /\
    h = Ev (XKube FenceErr) None :: Ev XDetachedErr None :: h'.

Definition nil_list h : Prop := exists ns, Ev (XKube (ListPods ns)) (inl None) ∈ h.
End trace.

(** Events that are no copies. *)
Ltac quiet_tac := repeat (apply quiet_cons; [reflexivity|]); first [apply quiet_refl|done|by eapply quiet_trans].

(** What an executor's guard must allow for the runner: reads, the detached context, the
    services that do not copy, and a crash on a nil list. *)
Record runner_guard {Obj} (G : xtraceOf Obj -> xreq Obj -> Prop) : Prop := {
  rg_reads : forall h r, is_write r = false -> is_progress r = false -> G h (XKube r);
  rg_detached : forall h, G h XDetachedErr;
  rg_services : forall h q, (forall request, q <> SCopy request) -> G h (XService q);
  rg_panic : forall h, nil_list h -> G h XPanic
}.

(** ** Releasing the tools *)

Section release.
Context {Obj : Type} (G : xtraceOf Obj -> xreq Obj -> Prop) (HG : runner_guard G).
Context (source destination : ObjectReference).
Implicit Types h : xtraceOf Obj.

Lemma wp_serve (q : sreq) {A} (k : sresp q -> execOf Obj A) Q h :
  G h (XService q) -> (forall x, wp G (k x) Q (Ev (XService q) x :: h)) -> wp G (serve q ≫= k) Q h.
Proof. by split. Qed.

Lemma wp_ask (q : xreq Obj) {A} (k : xresp q -> execOf Obj A) Q h :
  G h q -> (forall x, wp G (k x) Q (Ev q x :: h)) -> wp G (call q ≫= k) Q h.
Proof. by split. Qed.

Lemma wp_map_order {A B} (l : list A) (k : list A -> execOf Obj B) Q h :
  (forall l' h', quiet h h' -> l' ≡ₚ l -> wp G (k l') Q h') -> wp G (map_order l ≫= k) Q h.
Proof.
  intros Hk. unfold map_order.
  assert (wp G (Ret l ≫= k) Q h) as Hd by (apply Hk; [apply quiet_refl|done]).
  destruct l as [|a [|b [|c l]]]; try exact Hd.
  split; [by apply HG|]. intros first. apply Hk; [by apply quiet_cons, quiet_refl|].
  destruct first; [done|]. apply perm_swap.
Qed.

(** What a scan of the listed namespaces has seen. *)
Lemma wp_release_scan claims h :
  wp G (release_scan claims) (fun r h' => quiet h h' /\
    (r = inl true -> forall ns names, (ns, names) ∈ claims ->
       exists pods, Ev (XKube (ListPods ns)) (inl (Some pods)) ∈ since_copy h' /\
         existsb (isPVMigrateToolForClaims names) pods = false)) h.
Proof.
  revert h. induction claims as [|[ns names] claims IH]; intros h.
  { split; [apply quiet_refl|]. intros _ ns names Hin. by apply not_elem_of_nil in Hin. }
  cbn [release_scan]. apply wp_ask; [by apply HG|]. intros [[pods|]|e].
  - destruct (existsb _ pods) eqn:Hp.
    { split; [by apply quiet_cons, quiet_refl|done]. }
    eapply wp_mono; [apply IH|]. intros r h' Hs [Hq Hr]. split.
    { eapply quiet_trans; [|exact Hq]. by apply quiet_cons, quiet_refl. }
    intros Ht ns' names' [[= -> ->]|Hin]%elem_of_cons; [|by apply Hr].
    exists pods. split; [|done]. eapply quiet_since; [exact Hq|]. left.
  - split; [|done]. apply HG. exists ns. left.
  - split; [by apply quiet_cons, quiet_refl|done].
Qed.

Lemma wp_release_loop fuel description h :
  wp G (release_loop fuel description (copy_claims source destination))
    (fun r h' => quiet h h' /\ (r = None -> released source destination h')) h.
Proof.
  revert h. induction fuel as [|fuel IH]; intros h; [done|].
  cbn [release_loop]. apply wp_ask; [by apply HG|]. intros [e|]; [split; [by apply quiet_cons, quiet_refl|done]|].
  apply wp_map_order. intros claims h1 Hq1 Hperm. apply wp_bind_2.
  assert (quiet h h1) as Hq1'.
  { eapply quiet_trans; [|exact Hq1]. by apply quiet_cons, quiet_refl. }
  eapply wp_mono; [apply wp_release_scan|]. intros [[|]|e] h2 _ [Hq2 Hr].
  - split; [by eapply quiet_trans|]. intros _ ns names Hin. apply (Hr eq_refl). by rewrite Hperm.
  - apply wp_serve; [by apply HG|]. intros [e|].
    { split; [|done]. apply quiet_cons; [done|]. by eapply quiet_trans. }
    eapply wp_mono; [apply IH|]. intros r h3 _ [Hq3 Hr3]. split; [|done].
    eapply quiet_trans; [|exact Hq3]. apply quiet_cons; [done|]. by eapply quiet_trans.
  - apply wp_ask; [by apply HG|]. intros [ce|]; (split; [|done]; apply quiet_cons; [done|by eapply quiet_trans]).
Qed.

Context (operationID : string) (h0 : xtraceOf Obj).
Hypothesis Hdelete : forall h r, quiet h0 h -> tool_pod_delete source destination operationID h r -> G h (XKube r).

(** A candidate that was listed. *)
Definition listed h (pod : Pod) : Prop :=
  exists l names pods, (l, names) ∈ copy_claims source destination /\
    Ev (XKube (ListPods l)) (inl (Some pods)) ∈ h /\ pod ∈ pods /\ pod_UID pod <> "" /\
    isPVMigrateToolForClaims names pod = true /\ isPVMigrateToolForOperation operationID pod = true.

Lemma listed_suffix h h' pod : h `suffix_of` h' -> listed h pod -> listed h' pod.
Proof.
  intros [k ->] (l & names & pods & H1 & H2 & H3). exists l, names, pods. destruct H3 as (H3 & H4 & H5 & H6). split_and!; try done.
  apply elem_of_app. by right.
Qed.

Lemma tool_candidates_spec ns names pods candidates pod :
  tool_candidates ns names operationID pods = inl candidates -> pod ∈ candidates ->
  pod ∈ pods /\ pod_UID pod <> "" /\ isPVMigrateToolForClaims names pod = true /\
  isPVMigrateToolForOperation operationID pod = true.
Proof.
  revert candidates. induction pods as [|p pods IH]; intros candidates; cbn [tool_candidates].
  { intros [= <-] Hin. by apply not_elem_of_nil in Hin. }
  destruct (_ && _)%bool eqn:Hm; cbn [negb].
  - destruct (String.eqb_spec (pod_UID p) ""); [done|].
    destruct (tool_candidates ns names operationID pods) as [more|]; [|done].
    intros [= <-] [->|Hin]%elem_of_cons.
    + bool_prop. split_and!; [left|done..].
    + destruct (IH more eq_refl Hin) as (H1 & H2). split; [by right|done].
  - intros Hc Hin. destruct (IH _ Hc Hin) as (H1 & H2). split; [by right|done].
Qed.

Lemma wp_list_candidates claims h :
  (forall c, c ∈ claims -> c ∈ copy_claims source destination) ->
  wp G (list_candidates operationID claims)
    (fun r h' => quiet h h' /\ forall candidates, r = inl candidates -> Forall (listed h') candidates) h.
Proof.
  revert h. induction claims as [|[ns names] claims IH]; intros h Hsub.
  { split; [apply quiet_refl|]. intros c [= <-]. constructor. }
  cbn [list_candidates]. apply wp_ask; [by apply HG|]. intros [[pods|]|e].
  - apply wp_try, wp_Ret.
    destruct (tool_candidates ns names operationID pods) as [candidates|] eqn:Hc.
    2: { split; [by apply quiet_cons, quiet_refl|done]. }
    apply wp_try. eapply wp_mono; [apply IH; intros c Hin; apply Hsub; by right|].
    intros [more|e] h' _ [Hq Hm].
    2: { split; [|done]. eapply quiet_trans; [|exact Hq]. by apply quiet_cons, quiet_refl. }
    apply wp_Ret. split.
    { eapply quiet_trans; [|exact Hq]. by apply quiet_cons, quiet_refl. }
    intros c [= <-]. apply Forall_app. split; [|by apply Hm]. apply Forall_forall. intros pod Hpod.
    destruct (tool_candidates_spec _ _ _ _ _ Hc Hpod) as (H1 & H2 & H3 & H4).
    eapply listed_suffix; [by apply quiet_suffix|]. exists ns, names, pods.
    split_and!; [apply Hsub; left|left|done..].
  - split; [|done]. apply HG. exists ns. left.
  - split; [by apply quiet_cons, quiet_refl|done].
Qed.

Lemma wp_delete_fence failures h (Q : option err -> xtraceOf Obj -> Prop) :
  (forall e h', quiet h h' -> Q (Some e) h') ->
  Q None (Ev (XKube FenceErr) None :: Ev XDetachedErr None :: h) ->
  wp G (delete_fence failures) Q h.
Proof.
  intros He Hok. split; [by apply HG|]. intros [e|].
  { apply wp_Ret. destruct (errors_Join _) eqn:Hj; [|done]. by apply He, quiet_cons, quiet_refl. }
  split; [by apply HG|]. intros [e|]; apply wp_Ret; [|done].
  destruct (errors_Join _) eqn:Hj; [|done]. apply He. quiet_tac.
Qed.

Lemma wp_delete_candidates failures candidates h :
  quiet h0 h -> Forall (listed h) candidates -> wp G (delete_candidates failures candidates) (fun _ h' => quiet h h') h.
Proof.
  revert failures h. induction candidates as [|pod candidates IH]; intros failures h Hh Hall; [apply quiet_refl|].
  apply Forall_cons in Hall as [Hpod Hall].
  assert (forall failures h', quiet h h' ->
    wp G (delete_candidates failures candidates) (fun _ h'' => quiet h h'') h') as Hrest.
  { intros f h' Hq. eapply wp_mono; [apply IH|].
    - by eapply quiet_trans.
    - eapply Forall_impl; [exact Hall|]. intros p. apply listed_suffix. by apply quiet_suffix.
    - intros a h'' _ Hq'. by eapply quiet_trans. }
  cbn [delete_candidates]. apply wp_check, wp_delete_fence; [done|].
  assert (quiet h (Ev (XKube FenceErr) None :: Ev XDetachedErr None :: h)) as Hq1
    by quiet_tac.
  apply wp_ask.
  { apply Hdelete; [by eapply quiet_trans|]. destruct Hpod as (l & names & pods & H1 & H2 & H3 & H4 & H5 & H6).
    exists pod, l, names, pods, h. split_and!; try done. by do 2 right. }
  intros d. set (h1 := Ev (XKube FenceErr) None :: _) in *.
  assert (quiet h (@Ev _ (@xresp Obj) (XKube (DeletePod (pod_Namespace pod) (pod_Name pod) (pod_UID pod) None)) d :: h1))
    as Hq2 by (by apply quiet_cons).
  assert (forall failures, wp G (check: delete_fence failures; delete_candidates failures candidates)
    (fun _ h' => quiet h h') (@Ev _ (@xresp Obj)
      (XKube (DeletePod (pod_Namespace pod) (pod_Name pod) (pod_UID pod) None)) d :: h1)) as Hcont.
  { intros f. apply wp_check, wp_delete_fence.
    - intros e h' Hq. by eapply quiet_trans.
    - apply Hrest. quiet_tac. }
  destruct d as [e|]; [case_test; [by apply Hrest|]|]; apply Hcont.
Qed.

(** The cleanup of an attempt: no copy is started, only its own tool Pods are deleted,
    and without an error both claims were seen released. *)
Lemma wp_cleanupCopyToolPods polls :
  wp G (cleanupCopyToolPods polls source destination operationID)
    (fun r h' => quiet h0 h' /\ (r = None -> released source destination h')) h0.
Proof.
  apply wp_bind_2. apply wp_map_order. intros claims h1 Hq1 Hperm. apply wp_try.
  eapply wp_mono; [apply wp_list_candidates; intros c; by rewrite Hperm|].
  assert (forall d h2, quiet h0 h2 -> wp G (w ← waitForCopyToolRelease polls source destination;
    Ret (errors_Join [d; w])) (fun r h' => quiet h0 h' /\ (r = None -> released source destination h')) h2) as Hwait.
  { intros d h2 Hq2. apply wp_bind_2. eapply wp_mono; [apply wp_release_loop|]. intros w h3 _ [Hq3 Hr].
    apply wp_Ret. split; [by eapply quiet_trans|]. intros [_ Hw]%errors_Join2_None. by apply Hr. }
  intros [candidates|e] h2 _ [Hq2 Hl].
  - eapply wp_mono; [apply wp_delete_candidates; [by eapply quiet_trans|by apply Hl]|]. intros d h3 _ Hq3. apply Hwait.
    eapply quiet_trans; [exact Hq1|]. by eapply quiet_trans.
  - apply Hwait. by eapply quiet_trans.
Qed.
End release.

(** ** Programs that do not copy

    They read, ask the contexts and call services other than the copy engine. *)

Definition mild_req {Obj} (r : xreq Obj) : Prop :=
  match r with
  | XKube r => is_write r = false /\ is_progress r = false
  | XDetachedErr => True
  | XService (SCopy _) => False
  | XService _ => True
  | _ => False
  end.

Fixpoint mild {Obj A} (p : execOf Obj A) : Prop :=
  match p with
  | Ret _ | OutOfFuel => True
  | Vis r k => mild_req r /\ forall x, mild (k x)
  end.

Section mild.
Context {Obj : Type}.

Lemma mild_bind {A B} (p : execOf Obj A) (f : A -> execOf Obj B) : mild p -> (forall a, mild (f a)) -> mild (p ≫= f).
Proof.
  intros Hp Hf. induction p as [a| |r k IH]; [apply Hf|done|]. destruct Hp as [Hr Hk]. split; [done|].
  intros x. apply IH, Hk.
Qed.

Lemma mild_lift {A} (p : kube A) : reads p -> mild (lift (Obj := Obj) p).
Proof. induction p as [a| |r k IH]; [done|done|]. intros [Hr Hk]. split; [done|]. intros x. by apply IH. Qed.

Lemma mild_call (r : xreq Obj) : mild_req r -> mild (call r).
Proof. by split. Qed.

Lemma wp_calm {A} G (p : execOf Obj A) h :
  (forall h r, is_write r = false -> is_progress r = false -> G h (XKube r)) -> (forall h, G h XDetachedErr) ->
  (forall h q, (forall request, q <> SCopy request) -> G h (XService q)) ->
  mild p -> wp G p (fun _ h' => quiet h h') h.
Proof.
  intros HR HD HS. revert h. induction p as [a| |r k IH]; intros h; [intros _; apply quiet_refl|done|].
  intros [Hr Hk]. split.
  - destruct r as [r| | | | |q|]; try done; [by apply HR; destruct Hr|].
    apply HS. intros request ->. done.
  - intros x. eapply wp_mono; [by apply IH|]. intros a h' _ Hq. eapply quiet_trans; [|exact Hq].
    apply quiet_cons; [|apply quiet_refl]. by destruct r as [| | | | |[]|].
Qed.

Lemma wp_mild {A} G (p : execOf Obj A) h : runner_guard G -> mild p -> wp G p (fun _ h' => quiet h h') h.
Proof. intros HG. apply wp_calm; apply HG. Qed.

Lemma mild_retry_x steps (fn : execOf Obj (option err)) : mild fn -> mild (retry_x steps fn).
Proof.
  intros Hf. induction steps as [|steps IH]; [done|]. apply mild_bind; [done|]. intros [e|]; [|done].
  by destruct (IsConflict e).
Qed.
End mild.

(** Splits a program along its control flow. *)
Ltac mild_tac :=
  repeat first
    [ exact I
    | assumption
    | apply mild_call; cbn; first [exact I|by split]
    | apply mild_lift
    | apply mild_retry_x
    | apply mild_bind; [|intros ?]
    | match goal with
      | |- mild (serve _) => unfold serve
      | |- mild (check _ _) => unfold check
      | |- mild (try _ _) => unfold try
      | |- mild (if ?b then _ else _) => destruct b
      | |- mild (match ?x with _ => _ end) => destruct x
      end ].

Section services.
Context `{LG : LabelGrammar} `{QT : QuantityText} {Obj : Type}.

Lemma mild_shrink reader pvc pv sc dc path skip :
  mild (VerifyVolumeShrinkUsage (Obj := Obj) reader pvc pv sc dc path skip).
Proof. unfold VerifyVolumeShrinkUsage. mild_tac. Qed.

Lemma mild_namespace name : mild (RequireNamespace (Obj := Obj) name).
Proof. unfold RequireNamespace. mild_tac. Qed.

Lemma mild_account steps namespace : mild (EnsureTransferServiceAccount (Obj := Obj) steps namespace).
Proof. unfold EnsureTransferServiceAccount, ensure_account_once, fence_x. mild_tac. Qed.

Lemma mild_scheduling a b l : mild (helmSchedulingValues (Obj := Obj) a b l).
Proof.
  unfold helmSchedulingValues. cbv zeta. apply mild_bind; [|intros ?; exact I].
  induction (named_nodes _) as [|n ns IH]; [done|]. cbn [read_nodes]. mild_tac.
Qed.
End services.

(** ** Attempts *)

Lemma wp_persist_exact {Obj} (G : xtraceOf Obj -> xreq Obj -> Prop) o (Q : option err -> xtraceOf Obj -> Prop) h :
  runner_guard G -> (forall h', G h' (XSave o)) ->
  (forall e h', quiet h h' -> Q (Some e) h') ->
  Q None (Ev (XKube FenceErr) None :: Ev (XKube CtxErr) None :: Ev (XSave o) None ::
          Ev (XKube FenceErr) None :: Ev (XKube CtxErr) None :: h) ->
  wp G (persist false o) Q h.
Proof.
  intros HG Hs He Hok. unfold persist.
  assert (forall h1 Q', (forall e h', quiet h1 h' -> Q' (Some e) h') ->
    Q' None (Ev (XKube FenceErr) None :: Ev (XKube CtxErr) None :: h1) ->
    wp G (checkpoint_fence false) Q' h1) as Hf.
  { intros h1 Q' Hse Hn. apply wp_ask; [by apply HG|]. intros [e|]; [apply Hse; quiet_tac|].
    apply wp_ask; [by apply HG|]. intros [e|]; [apply Hse; quiet_tac|done]. }
  apply wp_check, Hf; [intros e h' Hq; by apply He|].
  apply wp_ask; [apply Hs|]. intros [e|]; [apply He; quiet_tac|].
  apply Hf; [|done]. intros e h' Hq. apply He. eapply quiet_trans; [|exact Hq]. quiet_tac.
Qed.

Definition copy_source (q : CopyRequest) : ObjectReference := ai_Source (cq_Identity q).
Definition copy_destination (q : CopyRequest) : ObjectReference := cd_Reference (cq_Destination q).

(** The tools of the latest copy have let go of their claims. *)
Definition settled {Obj} (h : xtraceOf Obj) : Prop :=
  forall q x, last_copy h = Some (q, x) -> released (copy_source q) (copy_destination q) h.

Lemma settled_quiet {Obj} (h h' : xtraceOf Obj) : quiet h h' -> settled h -> settled h'.
Proof. intros Hq Hs q x. rewrite (quiet_last h h' Hq). intros Hl. eapply released_quiet; [exact Hq|]. by eapply Hs. Qed.

Lemma last_copy_elem {Obj} (h : xtraceOf Obj) q x : last_copy h = Some (q, x) -> Ev (XService (SCopy q)) x ∈ h.
Proof.
  unfold last_copy. induction h as [|[r y] h IH]; [done|]. cbn.
  destruct (copy_of (Ev r y)) eqn:He.
  - intros [= ->]. destruct r as [| | | | |[]|]; try done. injection He as -> ->. left.
  - intros Hl. right. by apply IH.
Qed.

Section attempts.
Context {Obj : Type} (G : xtraceOf Obj -> xreq Obj -> Prop) (HG : runner_guard G).
Context (config : VolumeCopyConfig) (polls : nat) (cursor : Cursor Obj) (capacityRecovery : string).
Context (validate : Obj -> kube (option err)) (V : trace -> Prop) (mount : execOf Obj (result bool)).
Context (request : CopyRequest) (o0 : Obj).
Implicit Types h : xtraceOf Obj.

Hypothesis Hset : forall o a e a' e', cursor_set cursor (cursor_set cursor o a e) a' e' = cursor_set cursor o a' e'.

(** The object as the runner may leave it. *)
Definition touched (o : Obj) : Prop := o = o0 \/ exists a e, o = cursor_set cursor o0 a e.

Hypothesis Hvalidate : forall o, touched o -> wp read_only (validate o) (on_ok V) [].
Hypothesis Hmount : mild mount.

(** What is known when an attempt starts: it is the caller's request with the runner's
    configuration ([attempt_shape]); the object that counts it was just saved under the lease; the
    validation has passed since the previous copy; and the tools of that copy are gone. *)
Definition attempt_shape (q : CopyRequest) : Prop :=
  exists values m, q = attempt_request config (prepared_request config request values) (ai_Attempt (cq_Identity q)) m.

Definition attempt_ok h (q : CopyRequest) : Prop :=
  attempt_shape q /\
  (exists h1, h = Ev (XKube FenceErr) None :: Ev (XKube CtxErr) None ::
                  Ev (XSave (cursor_set cursor o0 (ai_Attempt (cq_Identity q)) "")) None :: h1) /\
  (exists hk h1 h2, V hk /\ since_copy h = h1 ++ map lift_event hk ++ h2) /\
  settled h.

Hypothesis Hcopy : forall h q, attempt_ok h q -> G h (XService (SCopy q)).
Hypothesis Hsave : forall h a e, G h (XSave (cursor_set cursor o0 a e)).
Hypothesis Hdelete : forall h q x r,
  attempt_shape q -> last_copy h = Some (q, x) -> tool_pod_delete (copy_source q) (copy_destination q) (OperationID (cq_Identity q)) h r ->
  G h (XKube r).

Lemma touched_set o a e : touched o -> cursor_set cursor o a e = cursor_set cursor o0 a e.
Proof. intros [->|(a' & e' & ->)]; [done|apply Hset]. Qed.

Lemma touched_cursor a e : touched (cursor_set cursor o0 a e).
Proof. right. by eexists _, _. Qed.

(** One attempt: no further copy, success only if the copy succeeded, and a confirmed
    release if the cleanup did. *)
Lemma wp_copy_attempt q h :
  attempt_ok h q ->
  wp G (copy_attempt config polls q) (fun r h' =>
    exists x, last_copy h' = Some (q, x) /\ (r.1 = None -> x = None) /\
      (r.2 = None -> released (copy_source q) (copy_destination q) h')) h.
Proof.
  intros Hok. unfold copy_attempt. apply wp_ask; [by apply Hcopy|]. intros x.
  set (h1 := Ev (XService (SCopy q)) x :: h).
  assert (last_copy h1 = Some (q, x)) as Hl by done. clearbody h1.
  apply wp_bind_2. eapply wp_mono with (Q := fun _ h' => quiet h1 h').
  { destruct (vc_StreamToolLogs config); [|apply quiet_refl]. split; [by apply HG|]. intros e. quiet_tac. }
  intros observed h2 _ Hq2. apply wp_bind_2.
  eapply wp_mono with (Q := fun e h' => quiet h1 h' /\ (e = None -> x = None)).
  { unfold classify_attempt. destruct x as [x|]; cbn [mergeToolLogError]; [|done].
    destruct (errors_Join _) eqn:Hj; [|done].
    assert (forall c, quiet h1 (@Ev _ (@xresp Obj) (XKube CtxErr) c :: h2)) as Hq3 by (intros c; quiet_tac).
    unfold attempt_done. destruct (Z.ltb 0 _).
    - apply wp_ask; [by apply HG|]. intros [c|]; split; done.
    - apply wp_bind_2, wp_ask; [by apply HG|]. intros [c|]; apply wp_Ret; [|by split].
      apply wp_ask; [by apply HG|]. intros [c'|]; split; try done; quiet_tac. }
  intros copyErr h3 _ [Hq3 Hx]. apply wp_bind_2.
  assert (last_copy h3 = Some (q, x)) as Hl3 by (by rewrite (quiet_last _ _ Hq3)).
  eapply wp_mono; [eapply (wp_cleanupCopyToolPods G HG)|].
  { intros h' r Hq. apply (Hdelete h' q x); [apply Hok|]. by rewrite (quiet_last _ _ Hq). }
  intros cleanupErr h4 _ [Hq4 Hr]. apply wp_Ret. exists x. split; [by rewrite (quiet_last _ _ Hq4)|done].
Qed.
(** What a success of the runner means. *)
Definition copied (o : Obj) h : Prop :=
  exists q e, last_copy h = Some (q, None) /\ released (copy_source q) (copy_destination q) h /\
    attempt_shape q /\ o = cursor_set cursor o0 (ai_Attempt (cq_Identity q)) e.

Definition runner_post (r : Obj * option err) h : Prop := touched r.1 /\ (r.2 = None -> copied r.1 h).

Lemma wp_check_x o (p : execOf Obj (option err)) k Q h :
  wp G p (fun e h' => match e with Some x => Q (o, Some x) h' | None => wp G k Q h' end) h ->
  wp G (check_x o p k) Q h.
Proof. intros Hp. apply wp_bind_2. eapply wp_mono; [exact Hp|]. by intros [e|] h' _. Qed.

Lemma wp_retry_copies values remaining index last o h :
  touched o -> settled h -> (remaining = 0 -> is_Some last) ->
  wp G (retry_copies config polls cursor capacityRecovery (fun o => lift (validate o)) mount remaining index
          (prepared_request config request values) last o) runner_post h.
Proof.
  revert index last o h. induction remaining as [|remaining IH]; intros index last o h Ho Hset' Hlast.
  { apply wp_Ret. split; [done|]. cbn. intros ->. by destruct (Hlast eq_refl). }
  assert (forall e h', runner_post (o, Some e) h') as Hstop by done.
  cbn [retry_copies]. apply wp_check_x.
  eapply wp_mono; [apply (wp_lift_guard G read_only (validate o) (on_ok V) [] h)|].
  { intros hk r [H1 H2]. by apply HG. } { by apply Hvalidate. }
  intros [e|] h1 _ (hk & -> & HV); [done|]. specialize (HV eq_refl).
  apply wp_bind_2. eapply wp_mono; [by apply wp_mild|].
  intros [m|e] h1 _ Hqk; [|done].
  rewrite touched_set by done. apply wp_check_x, wp_persist_exact; [done|by intros h'|done|].
  set (attempts := (cursor_attempts cursor o + 1)%Z).
  assert (quiet h h1) as Hq1 by (eapply quiet_trans; [apply quiet_lift|exact Hqk]).
  set (q := attempt_request _ _ _ _).
  set (h2 := Ev (XKube FenceErr) None :: Ev (XKube CtxErr) None :: Ev (XSave _) None :: _).
  assert (quiet h h2) as Hq2 by (unfold h2; quiet_tac).
  apply wp_bind_2. eapply wp_mono; [apply (wp_copy_attempt q)|].
  { split_and!.
    - by eexists values, _.
    - by eexists.
    - assert (quiet (map lift_event hk ++ h) h2) as (k & Hk & Hok) by (unfold h2; quiet_tac).
      exists hk, k, (since_copy h). split; [exact HV|]. by rewrite Hk, since_app, since_app by auto using omap_lift.
    - by eapply settled_quiet. }
  intros [copyErr cleanupErr] h3 _ (x & Hl & Hx & Hrel). cbn [fst snd] in *.
  destruct (errors_Join [copyErr; cleanupErr]) as [lasterr|] eqn:Hj.
  2: { apply errors_Join2_None in Hj as [-> ->]. apply wp_Ret. split; [apply touched_cursor|].
       intros _. exists q, "". rewrite Hl, Hx by done. split_and!; [done|by apply Hrel|by eexists values, _|done]. }
  rewrite touched_set by apply touched_cursor.
  assert (forall a e e' h', runner_post (cursor_set cursor o0 a e, Some e') h') as Hfail.
  { intros a e e' h'. split; [apply touched_cursor|done]. }
  apply wp_bind_2, wp_persist_exact; [done|by intros h'|..].
  - intros e h' _. apply wp_ask; [by apply HG|]. intros [c|]; apply wp_Ret; [apply Hfail|].
    rewrite touched_set by apply touched_cursor. apply Hfail.
  - case_test; [apply Hfail|]. destruct cleanupErr as [ce|]; [apply Hfail|].
    rewrite bool_decide_eq_false_2 by (by intros [? ?]).
    destruct remaining as [|remaining]; [apply Hfail|].
    apply wp_serve; [by apply HG|]. intros [e|]; [apply Hfail|]. apply IH.
    + apply touched_cursor.
    + eapply (settled_quiet h3); [quiet_tac|]. intros q' x' Hl'. rewrite Hl in Hl'. injection Hl' as <- <-. by apply Hrel.
    + done.
Qed.

(** The runner as a whole. *)
Lemma wp_copyWithRetry `{LG : LabelGrammar} steps sourceNode targetNode probes h :
  (0 < vc_Retries config)%Z -> settled h ->
  wp G (copyWithRetry config steps polls cursor capacityRecovery (fun o => lift (validate o)) mount request
          sourceNode targetNode probes o0) runner_post h.
Proof.
  intros Hr Hs. assert (forall e h', runner_post (o0, Some e) h') as Hstop by (intros e h'; split; [by left|done]).
  unfold copyWithRetry. apply wp_bind_2. eapply wp_mono; [apply wp_mild; [done|apply mild_scheduling]|].
  intros [values|e] h1 _ Hq1; [|apply Hstop].
  destruct (ToolImagePullSecretHelmValues probes) as [secrets|e]; [|apply Hstop].
  apply wp_check_x. eapply wp_mono; [apply wp_mild; [done|]|].
  { unfold ensure_accounts. mild_tac; apply mild_account. }
  intros [e|] h2 _ Hq2; [apply Hstop|]. apply wp_retry_copies; [by left| |].
  - eapply settled_quiet; [|exact Hs]. by eapply quiet_trans.
  - lia.
Qed.
End attempts.

(** ** The runner against any server *)

Section gated.
Context `{LG : LabelGrammar} {Obj : Type} (config : VolumeCopyConfig) (steps polls : nat) (cursor : Cursor Obj).
Context (capacityRecovery : string) (validate : Obj -> kube (option err)) (V : trace -> Prop) (mount : execOf Obj (result bool)).
Context (request : CopyRequest) (o0 : Obj).

(** Copies start as [attempt_ok] says; the only cluster writes delete tool Pods of the
    copy that has just ended; saved objects differ from the caller's in the attempts and
    the last error only. *)
Definition copy_guard (h : xtraceOf Obj) (r : xreq Obj) : Prop :=
  match r with
  | XKube r =>
      is_progress r = false /\
      (is_write r = true -> exists q x, last_copy h = Some (q, x) /\
         tool_pod_delete (copy_source q) (copy_destination q) (OperationID (cq_Identity q)) h r)
  | XSave o => exists a e, o = cursor_set cursor o0 a e
  | XDetachedErr => True
  | XService (SCopy q) => attempt_ok config cursor V request o0 h q
  | XService _ => True
  | XPanic => nil_list h
  | XDeleteLock | XDeleteStored _ => False
  end.

Lemma copy_guard_runner : runner_guard copy_guard.
Proof.
  split.
  - intros h r Hw Hp. split; [done|]. by rewrite Hw.
  - done.
  - intros h [] Hq; try done. by destruct (Hq request0).
  - done.
Qed.

(** C8: an attempt to copy a volume starts only when the previous one is over.  Against
    any server and for any workflow object, each copy the runner starts is the caller's
    request, the object that counts this attempt was saved and the lease confirmed
    immediately before, the caller's validation has passed since the previous copy, and
    since that copy the Pods of both namespaces were listed without a data mover on its
    claims.  Its cleanup deletes only listed data movers of that attempt's operation, by
    UID and under a confirmed lease.  Success means that the last copy reported success
    and its tools are gone. *)
Theorem copy_attempts_gated {W} (server : handler (R := @xresp Obj) W) w sourceNode targetNode probes :
  (forall o a e a' e', cursor_set cursor (cursor_set cursor o a e) a' e' = cursor_set cursor o a' e') ->
  (forall o, wp read_only (validate o) (on_ok V) []) -> mild mount -> (0 < vc_Retries config)%Z ->
  let out := run server (copyWithRetry config steps polls cursor capacityRecovery (fun o => lift (validate o))
                           mount request sourceNode targetNode probes o0) w [] in
  calls_ok copy_guard [] out.2 /\
  (forall r, out.1.1 = Some r -> runner_post config cursor request o0 r out.2).
Proof.
  intros Hset Hv Hm Hr. cbv zeta. apply (wp_adequate copy_guard server _ _ w []).
  eapply wp_copyWithRetry; try done.
  - apply copy_guard_runner.
  - intros h a e. by exists a, e.
  - intros h q x r _ Hl Hd. pose proof Hd as (pod & l & names & pods & h' & -> & _). split; [done|].
    intros _. by exists q, x.
Qed.

(** With a bound on attempts, every failed copy is reported as a timeout.  When
    --copy-timeout is set and the operation's context is live, whatever error the copy
    returned comes back as a timeout error that says the attempt exceeded the bound: the
    attempt's context is cancelled before it is asked why it ended. *)
Theorem copy_timeout_misreported {W} (server : handler (R := @xresp Obj) W) w attempt e :
  (0 < vc_CopyTimeout config)%Z ->
  (server (XKube CtxErr) w).1 = None ->
  exists message,
    (run server (classify_attempt config attempt (Some e)) w []).1.1 =
      Some (Some (WrapError ErrorTimeout ErrorOperationCopyAttempt message e)) /\
    ExitCode (Some (WrapError ErrorTimeout ErrorOperationCopyAttempt message e)) = 7%Z.
Proof.
  intros Ht Hc. unfold classify_attempt, attempt_done. apply Z.ltb_lt in Ht as ->.
  set (message := sprint ["copy attempt "; show_Z attempt; " exceeded --copy-timeout ";
                          duration_string (vc_CopyTimeout config)]).
  exists message. split; [|done].
  transitivity (Some match ((server (XKube CtxErr) w).1 : option err) with
                     | None => Some (WrapError ErrorTimeout ErrorOperationCopyAttempt message e)
                     | Some _ => Some e
                     end); [done|by rewrite Hc].
Qed.
End gated.

(** *** Witnesses *)

Definition counting : Cursor (Z * string) :=
  {| cursor_attempts := fst; cursor_error := snd; cursor_set _ a e := (a, e) |}.
Definition quiet_config : VolumeCopyConfig :=
  newVolumeCopyRunner {| vc_KubeconfigPath := ""; vc_Context := ""; vc_Retries := 2; vc_RetryBackoff := 0;
    vc_HelmTimeout := 0; vc_CopyTimeout := 60000000000; vc_RsyncMaxRetries := 0; vc_ToolNetworkPolicy := "";
    vc_Compress := false; vc_BandwidthLimit := ""; vc_StreamToolLogs := false; vc_TrustedToolImage := "" |}.

Definition copy_claim_ref (ns name : string) : ObjectReference :=
  {| APIVersion := ""; Kind := ""; Namespace := ns; Name := name; UID := "u"; ResourceVersion := "" |}.

Definition copy_example : CopyRequest :=
  {| cq_Identity := {| ai_SessionID := "m"; ai_Source := copy_claim_ref "app" "data"; ai_Mode := ModeFinal; ai_Attempt := 0 |};
     cq_Source := {| cs_KubeconfigPath := ""; cs_Context := ""; cs_Path := "."; cs_MountReadWrite := false |};
     cq_Destination := {| cd_Reference := copy_claim_ref "tmp" "copy"; cd_KubeconfigPath := ""; cd_Context := "";
                          cd_Path := "." |};
     cq_Policy := {| cp_Strategies := []; cp_DeleteExtraneousFiles := false; cp_VerifyChecksum := false;
                     cp_IgnoreSizes := false; cp_Compress := false; cp_BandwidthLimit := ""; cp_RsyncMaxRetries := 0;
                     cp_TolerateLiveSourceChurn := false; cp_ToolNetworkPolicy := "" |};
     cq_Runtime := {| cr_ToolImage := ""; cr_HelmTimeout := 0; cr_HelmValues := []; cr_HelmStringValues := [] |} |}.

(** A server without Pods on which the first [failures] copies fail. *)
Definition copy_server : handler (E := xreq (Z * string)) (R := xresp) nat :=
  fun r w =>
    match r return xresp r * nat with
    | XKube r =>
        match r return resp r * nat with
        | ListPods _ | ListPodsMatching _ _ => (inl (Some []), w)
        | CtxErr | FenceErr | TickOrDone | Progress _ | UpdatePVC _ | DeletePVC _ _ _ _ | UpdatePVUnsupported _ _
        | DeletePV _ _ _ | DeletePod _ _ _ _ => (None, w)
        | Now => (0%Z, w)
        | GetPVC _ _ => (inr (EText ""), w)
        | CreatePVC _ _ => (inl None, w)
        | GetPV _ => (inr (EText ""), w)
        | UpdatePV _ => (inl None, w)
        | GetPod _ _ => (inr (EText ""), w)
        | CreatePod _ => (inl None, w)
        | GetWorkload _ _ _ => (inl None, w)
        | ListVolumeAttachments => (inl None, w)
        | GetNode _ => (inr (EText ""), w)
        | ListNodes => (inl [], w)
        | GetStorageClass _ => (inr (EText ""), w)
        | ListResourceQuotas _ => (inl None, w)
        | ListLimitRanges _ => (inl None, w)
        end
    | XSave _ | XDetachedErr | XDeleteLock | XDeleteStored _ => (None, w)
    | XService q =>
        match q return sresp q * nat with
        | SProbe _ => (inl [], w)
        | SReadUsage _ _ => (inr (EText ""), w)
        | SGetServiceAccount ns _ => (inl (Some (transfer_account ns)), w)
        | SCreateServiceAccount a => (inl (Some a), w)
        | SCopy _ => match w with O => (None, w) | S w => (Some (EText "rsync failed"), w) end
        | SMapOrder => (true, w)
        | SShared _ => (inl false, w)
        | SGetNamespace _ | SUpdateServiceAccount _ | SCopyCleanup _ | SToolLogError | SSleep _ | SDetachedTick => (None, w)
        end
    | XPanic => ((), w)
    end.

#[export] Instance any_label : LabelGrammar := fun _ => [].

Definition copy_example_run (failures : nat) :=
  run copy_server (copyWithRetry quiet_config 4 3 counting "" (fun _ => lift (Ret None)) (Ret (inl false))
                     copy_example "" "" [] (0%Z, "")) failures [].

Lemma copy_attempts_gated_witness :
  ((copy_example_run 1).1.1 = Some (2%Z, "", None) /\ length (omap copy_of (copy_example_run 1).2) = 2) /\
  calls_ok (copy_guard quiet_config counting (fun _ => True) copy_example (0%Z, "")) [] (copy_example_run 1).2 /\
  copied quiet_config counting copy_example (0%Z, "") (2%Z, "") (copy_example_run 1).2.
Proof.
  assert ((copy_example_run 1).1.1 = Some (2%Z, "", None)) as Hrun by (vm_compute; reflexivity).
  split; [split; [exact Hrun|vm_compute; reflexivity]|].
  destruct (copy_attempts_gated quiet_config 4 3 counting "" (fun _ => Ret None) (fun _ => True) (Ret (inl false))
              copy_example (0%Z, "") copy_server 1 "" "" []) as [Hc Hp]; [done|done|done|done|].
  split; [exact Hc|]. exact (proj2 (Hp _ Hrun) eq_refl).
Defined.

Lemma copy_timeout_misreported_witness :
  exists message,
    (run copy_server (classify_attempt quiet_config 1 (Some (NewError ErrorCopy "copy PVC" "rsync failed"))) 0 []).1.1 =
      Some (Some (WrapError ErrorTimeout ErrorOperationCopyAttempt message (NewError ErrorCopy "copy PVC" "rsync failed"))).
Proof.
  destruct (copy_timeout_misreported quiet_config copy_server 0 1 (NewError ErrorCopy "copy PVC" "rsync failed"))
    as (message & H & _); [done|done|]. by exists message.
Defined.
