(* ===== verification/SyncSafety.v ===== *)
(** * Safety of the final sync

    The final sync of a whole migration, composed of the validation of the object, the
    copy runner, the store and the phase machine: when a copy starts, what the saved
    objects say of it, and which Pods are deleted. *)

From S2P Require Import Prelude Utf8 GoErrors Lifecycle PhaseMachines KubeTypes Prog Api ResourceState Ownership PVBinding NodeSelection GoFormat Quota PVCPolicy Reserver TransferPath Reclaim MigrationObject Offline Activation MigrationStorage MigrationCleanup CopyEngine Exec CopyRunner SourceLoss Executor CleanupExecutor MigrationSync ObjectValidity ExecRules ExecutorRules OfflineSafety CopySafety.

(** ** Programs without a copy *)

Fixpoint no_copy {Obj A} (p : execOf Obj A) : Prop :=
  match p with
  | Ret _ | OutOfFuel => True
  | Vis r k => match r with XService (SCopy _) => False | _ => True end /\ forall x, no_copy (k x)
  end.

Lemma no_copy_bind {Obj A B} (p : execOf Obj A) (f : A -> execOf Obj B) :
  no_copy p -> (forall a, no_copy (f a)) -> no_copy (p ≫= f).
Proof.
  intros Hp Hf. induction p as [a| |r k IH]; [apply Hf|done|]. destruct Hp as [Hr Hk]. split; [done|].
  intros x. apply IH, Hk.
Qed.

(** A rule for such a program also shows that its trace has no copy. *)
Lemma wp_no_copy {Obj A} G (p : execOf Obj A) Q h :
  no_copy p -> wp G p Q h -> wp G p (fun a h' => Q a h' /\ quiet h h') h.
Proof.
  revert h. induction p as [a| |r k IH]; intros h; [intros _ HQ; by split; [|apply quiet_refl]|done|].
  intros [Hr Hk] [HG Hw]. split; [done|]. intros x. eapply wp_mono; [by apply IH|].
  intros a h' _ [HQ Hq]. split; [done|]. eapply quiet_trans; [|exact Hq]. apply quiet_cons; [|apply quiet_refl].
  by destruct r as [| | | | |[]|].
Qed.

(** The guard may assume what was known when the program started. *)
Lemma wp_from {Obj A} (G : xtraceOf Obj -> xreq Obj -> Prop) (p : execOf Obj A) Q h :
  wp (fun h' r => h `suffix_of` h' -> G h' r) p Q h -> wp G p Q h.
Proof. intros Hw. eapply wp_guard_mono; [exact Hw|]. auto. Qed.

Ltac no_copy_tac :=
  repeat first
    [ exact I
    | apply no_copy_bind; [|intros ?]
    | match goal with
      | |- no_copy (call _) => by split
      | |- no_copy (check _ _) => unfold check
      | |- no_copy (if ?b then _ else _) => destruct b
      | |- no_copy (match ?x with _ => _ end) => destruct x
      end ].

Lemma no_copy_persist detached (o : ClusterMigration) : no_copy (persist detached o).
Proof. unfold persist, checkpoint_fence. no_copy_tac. Qed.

Lemma no_copy_transition detached o next message : no_copy (exec_transition detached o next message).
Proof. unfold exec_transition. no_copy_tac. Qed.

(** ** Reads *)

Section reads.
Context `{QT : QuantityText}.

Lemma reads_reservation request pvc pv capacity desired checkpoint :
  reads (ValidateVolumeReservation request pvc pv capacity desired checkpoint).
Proof.
  unfold ValidateVolumeReservation, prepareReservation, verifySourceIdentity, reserveVolumeDryRun,
    verifyDestinationIdentity. reads_tac.
Qed.

Lemma reads_reserved config o plan binding volume checkpoint :
  reads (validateReservedVolume config o plan binding volume checkpoint).
Proof. apply reads_bind; [done|]. intros [desired|e]; [apply reads_reservation|done]. Qed.

Lemma reads_probe ref : reads (probeSourcePVC ref).
Proof. unfold probeSourcePVC. reads_tac. Qed.

Lemma reads_scan ns t volumes : reads (scan_volumes ns t volumes).
Proof.
  revert t. induction volumes as [|v volumes IH]; intros t; cbn [scan_volumes]; reads_tac; apply IH.
Qed.

Lemma reads_sync_sources ns volumes operation : reads (validateFinalSyncSources ns volumes operation).
Proof. unfold validateFinalSyncSources, scanPlannedSourcePVCs. unfold try. apply reads_bind; [apply reads_scan|]. by intros [x|e]. Qed.

Lemma reads_skip ns volume pvc pv : reads (deletionValidationSkip ns volume pvc pv).
Proof.
  unfold deletionValidationSkip, deletionSourceMissing, deletionDestinationSettling, gone_or_terminating_pv.
  reads_tac.
Qed.
End reads.

(** ** The guard *)

Section sync.
Context `{CR : ConflictRetry} `{QT : QuantityText} `{LG : LabelGrammar}.
Context (given : MigrationExecutorConfig) (s : Switcher) (steps polls : nat) (o0 : ClusterMigration).

Notation config := (newMigrationResources given).
Notation transfer := (mc_Transfer config).

(** The final sync changes the status and the sync checkpoints only. *)
Definition same_storage (x y : ClusterMigrationVolumeStatus) : Prop :=
  mv_Reservation y = mv_Reservation x /\ mv_Activation y = mv_Activation x.
Notation sframe := (frame_on same_storage).

Lemma same_storage_res x y : same_storage x y -> mv_Reservation y = mv_Reservation x.
Proof. by intros [? _]. Qed.

Definition completed (c : ClusterMigrationVolumeStatus) : Prop := is_Some (sync_FinalCompletedAt (mv_Sync c)).

(** The phase was persisted. *)
Definition syncing (h : xtrace) : Prop := exists o, Ev (XSave o) None ∈ h /\ eff o = PhaseFinalSyncing /\ sframe o0 o.

(** A planned volume with its recorded identities. *)
Definition planned_pair (plan : ClusterMigrationPlan) (volume : VolumeSpec) (binding : PVCTransferBindings) : Prop :=
  mig_Plan o0 = Some plan /\ volume ∈ plan_Volumes plan /\ exists c, bound_checkpoint o0 plan volume = Some (c, binding).

(** The pair was read bound as recorded, without consumers and attachments. *)
Definition offline (binding : PVCTransferBindings) (hk : trace) : Prop :=
  volume_verified "" false binding hk /\ all_detached (offline_pvNames [binding]) hk.

Definition attempt_of (q : CopyRequest) (plan : ClusterMigrationPlan) (volume : VolumeSpec) (binding : PVCTransferBindings)
    : Prop :=
  attempt_shape transfer (final_copy_request o0 plan volume binding) q.

(** A successful copy of the volume whose checkpoint has index [i]. *)
Definition index_copied (h : xtrace) (i : nat) : Prop :=
  exists plan volume binding q, planned_pair plan volume binding /\ checkpoint_index o0 volume = i /\
    attempt_of q plan volume binding /\ Ev (XService (SCopy q)) None ∈ h.

(** A volume copied by an earlier final sync, which this one continues. *)
Definition index_kept (i : nat) : Prop :=
  ws_Phase (mig_Status o0) <> PhaseFinalSynced /\ exists c, mig_Volumes o0 !! i = Some c /\ completed c.

Definition sound (h : xtrace) (o : ClusterMigration) : Prop :=
  sframe o0 o /\ forall i d, mig_Volumes o !! i = Some d -> completed d -> index_kept i \/ index_copied h i.

Definition save_sound (h : xtrace) (o : ClusterMigration) : Prop :=
  sound h o /\
  (eff o = PhaseFinalSyncing \/ (eff o = PhaseFinalSynced /\ forall c, c ∈ mig_Volumes o -> completed c)).

Definition copy_sound (h : xtrace) (q : CopyRequest) : Prop :=
  syncing h /\
  exists plan volume binding o d, planned_pair plan volume binding /\ sframe o0 o /\
    checkpoint_of o volume = Some d /\ ~ completed d /\
    attempt_ok transfer (sync_cursor (checkpoint_index o0 volume)) (offline binding)
      (final_copy_request o0 plan volume binding) o h q.

Definition pod_sound (h : xtrace) (r : req) : Prop :=
  exists plan volume binding attempt, planned_pair plan volume binding /\
    tool_pod_delete (SourcePVC binding) (DestinationPVC binding)
      (OperationID {| ai_SessionID := mig_Name o0; ai_Source := SourcePVC binding; ai_Mode := ModeFinal;
                      ai_Attempt := attempt |}) h r.

Definition sync_guard (h : xtrace) (r : xreq ClusterMigration) : Prop :=
  match r with
  | XKube r => is_progress r = false /\ (is_write r = true -> pod_sound h r)
  | XSave o => save_sound h o
  | XDetachedErr => True
  | XService (SCopy q) => copy_sound h q
  | XService _ => True
  | XPanic => nil_list h
  | XDeleteLock | XDeleteStored _ => False
  end.

Lemma sync_guard_runner : runner_guard sync_guard.
Proof.
  split.
  - intros h r Hw Hp. split; [done|]. by rewrite Hw.
  - done.
  - intros h [] Hq; try done. by destruct (Hq request).
  - done.
Qed.

Lemma runner_from h (G : xtrace -> xreq ClusterMigration -> Prop) :
  runner_guard G -> runner_guard (fun h' r => h `suffix_of` h' -> G h' r).
Proof. intros [H1 H2 H3 H4]. split; auto. Qed.

Lemma pod_sound_guard h r : pod_sound h r -> sync_guard h (XKube r).
Proof.
  intros Hp. pose proof Hp as (plan & volume & binding & attempt & _ & pod & l & names & pods & h' & -> & _).
  by split.
Qed.

Lemma syncing_mono h h' : h `suffix_of` h' -> syncing h -> syncing h'.
Proof. intros [k ->] (o & Ho & He). exists o. split; [apply elem_of_app; by right|done]. Qed.

Lemma index_copied_mono h h' i : h `suffix_of` h' -> index_copied h i -> index_copied h' i.
Proof.
  intros [k ->] (plan & volume & binding & q & H1 & H2 & H3 & H4). exists plan, volume, binding, q.
  split_and!; try done. apply elem_of_app. by right.
Qed.

Lemma sound_mono h h' o : h `suffix_of` h' -> sound h o -> sound h' o.
Proof.
  intros Hs [Hf Hc]. split; [done|]. intros i d Hi Hd. destruct (Hc i d Hi Hd); [by left|right].
  by eapply index_copied_mono.
Qed.

(** *** What the operations do to the object *)

Lemma sframe_sync a b i f : sframe a b -> sframe a (set_sync b i f).
Proof. intros (H1 & H2 & H3 & H4 & H5 & H6). split_and!; try done. cbn. by apply Forall2_alter_r. Qed.

Lemma set_sync_lookup o i f j d :
  mig_Volumes (set_sync o i f) !! j = Some d ->
  exists c, mig_Volumes o !! j = Some c /\ mv_Sync d = if bool_decide (j = i) then f (mv_Sync c) else mv_Sync c.
Proof.
  cbn. case_bool_decide as Hj.
  - subst. rewrite list_lookup_alter_eq. destruct (mig_Volumes o !! i) as [c|]; [|done]. intros [= <-]. by exists c.
  - rewrite list_lookup_alter_ne by done. intros ->. by exists d.
Qed.

Lemma sound_cursor h o i a e : sound h o -> sound h (cursor_set (sync_cursor i) o a e).
Proof.
  intros [Hf Hc]. split; [by apply sframe_sync|]. intros j d Hj Hd.
  apply set_sync_lookup in Hj as (c & Hj & Hs). apply (Hc j c Hj).
  unfold completed in *. rewrite Hs in Hd. by destruct (bool_decide (j = i)).
Qed.

Lemma sound_touched h o o' i : sound h o -> touched (sync_cursor i) o o' -> sound h o'.
Proof. intros Hs [->|(a & e & ->)]; [done|by apply sound_cursor]. Qed.

Lemma eff_touched o o' i : touched (sync_cursor i) o o' -> eff o' = eff o.
Proof. by intros [->|(a & e & ->)]. Qed.

Lemma sound_final h o i v t :
  sound h o -> index_copied h i -> sound h (set_sync o i (final_copied v t)).
Proof.
  intros [Hf Hc] Hi. split; [by apply sframe_sync|]. intros j d Hj Hd.
  apply set_sync_lookup in Hj as (c & Hj & Hs). case_bool_decide as Hji; [subst; by right|].
  apply (Hc j c Hj). unfold completed in *. by rewrite Hs in Hd.
Qed.

Lemma sound_start : sound [] (if ws_Phase (mig_Status o0) =p PhaseFinalSynced then reset_sync o0 else o0).
Proof.
  unfold phase_eqb. case_bool_decide as Hp.
  - split.
    + split_and!; try done. cbn. apply Forall2_fmap_r, Forall_Forall2_diag, Forall_true. by intros c.
    + intros i d. cbn. rewrite list_lookup_fmap. destruct (mig_Volumes o0 !! i); [|done].
      intros [= <-]. by intros [t Ht].
  - split; [by apply frame_on_refl|]. intros i d Hi Hd. left. split; [done|by exists d].
Qed.

(** *** Interrupted attempts *)

Section interrupted.
Context (G : xtrace -> xreq ClusterMigration -> Prop) (HG : runner_guard G).
Context (Hpods : forall h r, pod_sound h r -> G h (XKube r)).
Context (plan : ClusterMigrationPlan) (Hvalid : valid o0) (Hplan : mig_Plan o0 = Some plan).

Lemma wp_mild_then {A B} (p : exec A) (k : A -> exec B) Q h :
  mild p -> (forall a h', quiet h h' -> wp G (k a) Q h') -> wp G (p ≫= k) Q h.
Proof. intros Hp Hk. apply wp_bind_2. eapply wp_mono; [by apply wp_mild|]. intros a h' _. apply Hk. Qed.

(** The tools of interrupted attempts are removed; no copy starts. *)
Lemma wp_cleanup_interrupted o volume h :
  sframe o0 o -> volume ∈ plan_Volumes plan ->
  (forall c, c ∈ mig_Volumes o -> exists c0, c0 ∈ mig_Volumes o0 /\ mv_Reservation c = mv_Reservation c0 /\
     (sync_Attempts (mv_Sync c) <> 0%Z -> sync_Attempts (mv_Sync c0) <> 0%Z)) ->
  wp G (cleanup_interrupted config polls o plan volume) (fun _ h' => quiet h h') h.
Proof.
  intros Hf Hin Hatt. unfold cleanup_interrupted.
  destruct (clusterMigrationVolumeIndexes (mig_Volumes o) !! planned_name volume) as [i|] eqn:Hi; [|apply quiet_refl].
  destruct (indexes_sound _ _ _ Hi) as (c & Hc & Hname). eapply wp_or_panic; [exact Hc|].
  case_test; [apply quiet_refl|]. apply orb_false_iff in Heqb as [Ha _]. apply Z.eqb_neq in Ha.
  assert (c ∈ mig_Volumes o) as Hcin by (by eapply list_elem_of_lookup_2).
  destruct (Hatt c Hcin) as (c0 & Hc0 & Hr & Ha0).
  destruct (valid_attempted o0 plan c0 Hvalid Hplan Hc0 (Ha0 Ha)) as (pvc & pv & H1 & H2). rewrite <- Hr in H1, H2.
  assert (exists binding, plannedMigrationBindings (plan_SourceNamespace plan) volume (mv_Reservation c) = Some binding)
    as (binding & Hb) by (unfold plannedMigrationBindings; rewrite H1, H2; by eexists).
  eapply wp_or_panic; [exact Hb|].
  assert (planned_pair plan volume binding) as Hpair.
  { split_and!; [done|done|]. pose proof (frame_on_lookup same_storage o0 o i Hf) as Hl. rewrite Hc in Hl.
    destruct (mig_Volumes o0 !! i) as [x|] eqn:Hx; [|done]. exists x. unfold bound_checkpoint, checkpoint_of.
    rewrite <- (frame_on_index same_storage same_storage_res o0 o volume Hf).
    unfold checkpoint_index. rewrite Hi. cbn. rewrite Hx. destruct Hl as [Hl _]. rewrite <- Hl. by rewrite Hb. }
  apply wp_mild_then; [apply mild_lift, reads_skip|]. intros [skip|e] h1 Hq1; [|done].
  apply wp_mild_then.
  { destruct skip; [done|]. apply mild_lift, reads_reserved. }
  intros [e|] h2 Hq2; [quiet_tac|]. apply wp_serve; [by apply HG|].
  intros [e|]; [quiet_tac|].
  eapply wp_mono; [eapply (wp_cleanupCopyToolPods G HG)|].
  - intros h' r _ Hd. apply Hpods. exists plan, volume, binding, (sync_Attempts (mv_Sync c)). split; [done|].
    assert (mig_Name o = mig_Name o0) as Hn by apply Hf. unfold interrupted_request in Hd. cbn in Hd. by rewrite Hn in Hd.
  - intros r h3 _ [Hq3 _]. eapply quiet_trans; [|exact Hq3]. quiet_tac.
Qed.

Lemma wp_cleanup_interrupted_all o volumes h :
  sframe o0 o -> (forall v, v ∈ volumes -> v ∈ plan_Volumes plan) ->
  (forall c, c ∈ mig_Volumes o -> exists c0, c0 ∈ mig_Volumes o0 /\ mv_Reservation c = mv_Reservation c0 /\
     (sync_Attempts (mv_Sync c) <> 0%Z -> sync_Attempts (mv_Sync c0) <> 0%Z)) ->
  wp G (cleanup_interrupted_all config polls o plan volumes) (fun _ h' => quiet h h') h.
Proof.
  intros Hf Hsub Hatt. revert h. induction volumes as [|v volumes IH]; intros h; [apply quiet_refl|].
  cbn [cleanup_interrupted_all]. apply wp_check.
  eapply wp_mono; [apply wp_cleanup_interrupted; [done|apply Hsub; left|done]|].
  intros [e|] h1 _ Hq1; [done|]. eapply wp_mono; [apply IH; intros v' Hv; apply Hsub; by right|].
  intros e h2 _ Hq2. by eapply quiet_trans.
Qed.
End interrupted.

(** *** Validation *)

Section planned.
Context (plan : ClusterMigrationPlan) (Hvalid : valid o0) (Hplan : mig_Plan o0 = Some plan).
Context (Hphase : migrationFinalSyncPhase (eff o0) = true).

Lemma sync_bound volume :
  volume ∈ plan_Volumes plan -> exists c binding, bound_checkpoint o0 plan volume = Some (c, binding).
Proof.
  intros Hin. destruct (valid_bound o0 plan volume Hvalid Hplan) as (c & binding & Hb & _); [|done|by exists c, binding].
  by destruct (workflowResumePhase (mig_Status o0)) eqn:He; unfold eff in Hphase; rewrite He in Hphase.
Qed.

Notation wps := (wp sync_guard).

Lemma wp_bindings volumes h :
  (forall v, v ∈ volumes -> v ∈ plan_Volumes plan) ->
  wps (final_sync_bindings config o0 plan volumes) (fun _ h' => quiet h h') h.
Proof.
  revert h. induction volumes as [|volume volumes IH]; intros h Hsub; [apply quiet_refl|].
  destruct (sync_bound volume) as (c & binding & Hb); [apply Hsub; left|]. cbn [final_sync_bindings].
  eapply wp_or_panic; [exact Hb|]. cbv beta iota.
  apply (wp_mild_then _ sync_guard_runner); [apply mild_shrink|]. intros [e|] h1 Hq1; [done|].
  apply (wp_mild_then _ sync_guard_runner); [apply mild_lift, reads_reserved|]. intros [e|] h2 Hq2; [quiet_tac|].
  apply wp_try. eapply wp_mono; [apply IH; intros v Hv; apply Hsub; by right|].
  assert (quiet h h2) as Hq by (by eapply quiet_trans).
  intros [more|e] h3 _ Hq3; apply (quiet_trans h h2 h3 Hq Hq3).
Qed.

Lemma wp_ValidateFinalSync h : wps (ValidateFinalSync config s o0) (fun _ h' => quiet h h') h.
Proof.
  unfold ValidateFinalSync. apply wp_check, wp_Ret. unfold valid in Hvalid. rewrite Hvalid. apply wp_check, wp_Ret.
  destruct (validateMigrationCopyRetry _); [apply quiet_refl|]. case_test; [apply quiet_refl|]. rewrite Hplan.
  apply (wp_mild_then _ sync_guard_runner); [apply mild_lift, reads_sync_sources|]. intros [e|] h1 Hq1; [done|].
  apply wp_try. eapply wp_mono; [by apply wp_bindings|]. intros [bindings|e] h2 _ Hq2; [|by eapply quiet_trans].
  eapply wp_mono; [apply wp_mild; [apply sync_guard_runner|apply mild_lift, reads_offlineForSession]|].
  intros e h3 _ Hq3. eapply quiet_trans; [exact Hq1|]. by eapply quiet_trans.
Qed.

(** *** One volume *)

Lemma wp_validate_attempt o volume binding checkpoint :
  wp read_only (validate_attempt config s o plan volume binding checkpoint) (on_ok (offline binding)) [].
Proof.
  unfold validate_attempt. apply wp_check.
  eapply wp_mono; [apply (wp_of_reads read_only); [apply read_only_reads|apply reads_reserved]|].
  intros [e|] h _ _; [done|]. eapply wp_mono; [exact (wp_verifyOffline s "" [binding] false h)|]. intros e h' _ Hok He.
  destruct (Hok He) as [Hv Hd]. split; [by apply Forall_cons in Hv as [Hv _]|done].
Qed.

(** The invariant of the loop: [done] are the indexes finished so far. *)
Definition sync_inv (done : list nat) (o : ClusterMigration) (h : xtrace) : Prop :=
  sound h o /\ eff o = PhaseFinalSyncing /\ syncing h /\ settled h /\
  forall i, i ∈ done -> exists c, mig_Volumes o !! i = Some c /\ completed c.

Lemma transfer_retries : (0 < vc_Retries transfer)%Z.
Proof. cbn. destruct (Z.leb_spec (vc_Retries (mc_Transfer given)) 0); lia. Qed.

Definition runner (o : ClusterMigration) (i : nat) (volume : VolumeSpec) (binding : PVCTransferBindings)
    (checkpoint : ReservationStatus) (probes : list ToolImageProbeResult) : exec outcome :=
  copyWithRetry transfer steps polls (sync_cursor i) ""
    (fun o' => lift (validate_attempt config s o' plan volume binding checkpoint)) (Ret (inl false))
    (final_copy_request o plan volume binding) (plan_SourceNode plan) (plan_TargetNode plan) probes o.

Lemma final_copy_request_name o volume binding :
  mig_Name o = mig_Name o0 -> final_copy_request o plan volume binding = final_copy_request o0 plan volume binding.
Proof. intros Hn. unfold final_copy_request. by rewrite Hn. Qed.

(** The runner on one volume: what it saves is sound, and its success is a copy of this
    pair whose tools are gone. *)
Lemma wp_runner done o volume c binding d probes h :
  sync_inv done o h -> volume ∈ plan_Volumes plan -> bound_checkpoint o0 plan volume = Some (c, binding) ->
  checkpoint_of o volume = Some d -> ~ completed d ->
  wps (runner o (checkpoint_index o0 volume) volume binding (mv_Reservation d) probes) (fun r h' =>
    touched (sync_cursor (checkpoint_index o0 volume)) o r.1 /\ h `suffix_of` h' /\
    (r.2 = None -> index_copied h' (checkpoint_index o0 volume) /\ settled h')) h.
Proof.
  intros (Hs & He & Hsy & Hset & _) Hin Hb Hd Hnc. set (i := checkpoint_index o0 volume).
  assert (sframe o0 o) as Hf by apply Hs.
  assert (planned_pair plan volume binding) as Hpair by (split_and!; [done|done|by exists c]).
  apply wp_extends, wp_from. unfold runner.
  rewrite (final_copy_request_name o) by apply Hf.
  eapply wp_mono; [eapply (wp_copyWithRetry (fun h' r => h `suffix_of` h' -> sync_guard h' r)
    (runner_from h _ sync_guard_runner) transfer polls (sync_cursor i) ""
    (fun o' => validate_attempt config s o' plan volume binding (mv_Reservation d)) (offline binding)
    (Ret (inl false)) (final_copy_request o0 plan volume binding) o)|].
  - intros o' a e a' e'. cbn. unfold set_sync. cbn. unfold set_volumes. cbn. f_equal. by rewrite list_alter_alter_eq.
  - intros o' _. apply wp_validate_attempt.
  - done.
  - intros h' q Hok Hsuf. split; [by eapply syncing_mono|]. exists plan, volume, binding, o, d. by split_and!.
  - intros h' a e Hsuf. split; [eapply sound_mono; [exact Hsuf|by apply sound_cursor]|by left].
  - intros h' q x r (values & m & Hq) Hl Hdel Hsuf. apply pod_sound_guard.
    exists plan, volume, binding, (ai_Attempt (cq_Identity q)). split; [done|]. rewrite Hq in Hdel. exact Hdel.
  - apply transfer_retries.
  - done.
  - intros r h' Hsuf [Ht Hc] _. split_and!; [done|done|]. intros Hn.
    destruct (Hc Hn) as (q & e & Hl & Hrel & Hsh & _). split.
    + exists plan, volume, binding, q. split_and!; [done|done|done|]. by apply last_copy_elem.
    + intros q' x. rewrite Hl. by intros [= <- <-].
Qed.
(** *** The loop *)

Lemma sync_reads h h' r : is_write r = false -> is_progress r = false -> h `suffix_of` h' -> sync_guard h' (XKube r).
Proof. intros Hw Hp _. by apply sync_guard_runner. Qed.

Lemma save_sound_mid h o : sound h o -> eff o = PhaseFinalSyncing -> save_sound h o.
Proof. intros. split; [done|by left]. Qed.

Lemma wp_sync_fail o e h :
  sound h o -> eff o = PhaseFinalSyncing -> wps (exec_fail o e) (fun r _ => r.2 <> None) h.
Proof.
  intros Hs He. apply wp_from, wp_exec_fail; [intros h' r Hw Hp; by apply sync_reads|done|..]; try done.
  intros st h' Hst Hsuf. apply save_sound_mid; [by apply (sound_mono h)|]. by rewrite <- He.
Qed.

(** A volume recorded as copied. *)
Lemma sync_inv_step done o h v t i h' :
  sync_inv done o h -> is_Some (mig_Volumes o !! i) -> h `suffix_of` h' -> settled h' -> index_copied h' i ->
  sync_inv (i :: done) (set_sync o i (final_copied v t)) h'.
Proof.
  intros (Hs & He & Hsy & _ & Hd) [c Hi] Hsuf Hset Hc.
  split_and!; [apply sound_final; [by apply (sound_mono h)|done]|done|by apply (syncing_mono h)|done|].
  intros j Hj. cbn. destruct (decide (j = i)) as [->|Hne].
  - rewrite list_lookup_alter_eq, Hi. cbn. eexists. split; [done|]. by eexists.
  - rewrite list_lookup_alter_ne by done. apply elem_of_cons in Hj as [?|Hj]; [done|]. by apply Hd.
Qed.

Lemma sync_inv_keep done o h i c :
  sync_inv done o h -> mig_Volumes o !! i = Some c -> completed c -> sync_inv (i :: done) o h.
Proof.
  intros (Hs & He & Hsy & Hset & Hd) Hi Hc. split_and!; try done.
  intros j [->|Hj]%elem_of_cons; [by exists c|by apply Hd].
Qed.

Lemma sync_inv_touched done o o' h h' i :
  sync_inv done o h -> touched (sync_cursor i) o o' -> h `suffix_of` h' -> settled h' -> sync_inv done o' h'.
Proof.
  intros (Hs & He & Hsy & _ & Hd) Ht Hsuf Hset.
  split_and!; [eapply sound_touched; [by apply (sound_mono h)|done]|by rewrite (eff_touched _ _ _ Ht)|
    by apply (syncing_mono h)|done|].
  intros j Hj. destruct (Hd j Hj) as (c & Hc & Hcc). destruct Ht as [->|(a & e & ->)]; [by exists c|].
  cbn. destruct (decide (j = i)) as [->|Hne].
  - rewrite list_lookup_alter_eq, Hc. cbn. by eexists.
  - rewrite list_lookup_alter_ne by done. by exists c.
Qed.

Lemma sync_inv_all done o h :
  sync_inv done o h -> (forall v, v ∈ plan_Volumes plan -> checkpoint_index o0 v ∈ done) ->
  forall c, c ∈ mig_Volumes o -> completed c.
Proof.
  intros ([Hf _] & _ & _ & _ & Hd) Hall c Hc. apply list_elem_of_lookup in Hc as [i Hi].
  pose proof (frame_on_lookup same_storage o0 o i Hf) as Hl. rewrite Hi in Hl.
  destruct (mig_Volumes o0 !! i) as [c0|] eqn:Hi0; [|done].
  apply (planned_indexes o0 plan _ _ Hvalid Hplan), list_elem_of_fmap in Hi0 as (volume & -> & Hin).
  destruct (Hd _ (Hall volume Hin)) as (c' & Hc' & Hfin). congruence.
Qed.

(** What a success means: the object that says FinalSynced was saved. *)
Definition synced (r : outcome) (h : xtrace) : Prop :=
  r.2 = None -> save_sound h r.1 /\ eff r.1 = PhaseFinalSynced /\ Ev (XSave r.1) None ∈ h.

Lemma wp_sync_volume done o probes volume k h :
  sync_inv done o h -> volume ∈ plan_Volumes plan ->
  (forall o' h', sync_inv (checkpoint_index o0 volume :: done) o' h' -> wps (k o') synced h') ->
  wps (sync_volume config s steps polls o plan probes volume k) synced h.
Proof.
  intros Hinv Hin Hk. pose proof Hinv as ([Hf _] & He & _). destruct (sync_bound volume Hin) as (c & binding & Hb).
  destruct (frame_on_bound same_storage same_storage_res o0 o plan volume c binding Hf Hb) as (d & Hbd & Hcd & Hrd).
  assert (checkpoint_index o volume = checkpoint_index o0 volume) as Hidx
    by (by apply (frame_on_index same_storage same_storage_res)).
  assert (mig_Volumes o !! checkpoint_index o0 volume = Some d) as Hld by (by rewrite <- Hidx).
  unfold sync_volume. eapply wp_or_panic; [exact Hcd|]. cbv beta iota. case_bool_decide as Hc.
  { apply Hk. by eapply sync_inv_keep. }
  assert (plannedMigrationBindings (plan_SourceNamespace plan) volume (mv_Reservation d) = Some binding) as Hpb.
  { unfold bound_checkpoint in Hbd. rewrite Hcd in Hbd. destruct (plannedMigrationBindings _ _ _); [|done]. congruence. }
  eapply wp_or_panic; [exact Hpb|]. cbv zeta. rewrite Hidx. apply wp_step_or_fail.
  eapply wp_mono; [exact (wp_runner done o volume c binding d probes h Hinv Hin Hb Hcd Hc)|].
  intros [o1 [e|]] h1 Hs1 (Ht & _ & Hok); cbn [fst snd] in *.
  { eapply wp_mono; [apply wp_sync_fail|intros r h' _ Hr Hn; by destruct (Hr Hn)].
    - eapply sound_touched; [eapply sound_mono; [exact Hs1|apply Hinv]|exact Ht].
    - by rewrite (eff_touched _ _ _ Ht). }
  destruct (Hok eq_refl) as [Hcopied Hset1].
  pose proof (sync_inv_touched _ _ _ _ _ _ Hinv Ht Hs1 Hset1) as Hinv1.
  apply wp_ask; [by apply sync_guard_runner|]. intros t. set (h2 := Ev _ _ :: h1).
  assert (quiet h1 h2) as Hq2 by (unfold h2; quiet_tac).
  assert (forall h', quiet h1 h' -> sync_inv (checkpoint_index o0 volume :: done)
    (set_sync o1 (checkpoint_index o0 volume) (final_copied (plan_VerifyChecksum plan) t)) h') as Hstep.
  { intros h' Hq'. pose proof (quiet_suffix _ _ Hq') as Hs'.
    eapply (sync_inv_step done o1 h1); [done| |done|by eapply settled_quiet|by eapply index_copied_mono].
    destruct Ht as [->|(a & e & ->)]; [by exists d|]. cbn. rewrite list_lookup_alter_eq, Hld. by eexists. }
  apply wp_bind_2. unfold checkpointFinalCopy. apply wp_bind_2, wp_from, wp_persist_exact.
  - apply runner_from, sync_guard_runner.
  - intros h' Hsuf. destruct (Hstep h2 Hq2) as (Hs2 & He2 & _). apply save_sound_mid; [by apply (sound_mono h2)|done].
  - intros e h' _. apply wp_Ret. done.
  - apply wp_Ret. cbv beta iota.
    apply Hk, Hstep. unfold h2. quiet_tac.
Qed.

Lemma wp_sync_volumes probes volumes done o h :
  sync_inv done o h -> (forall v, v ∈ volumes -> v ∈ plan_Volumes plan) ->
  (forall v, v ∈ plan_Volumes plan -> checkpoint_index o0 v ∈ done \/ v ∈ volumes) ->
  wps (sync_volumes config s steps polls plan probes volumes o) synced h.
Proof.
  revert done o h. induction volumes as [|volume volumes IH]; intros done o h Hinv Hsub Hall.
  - assert (forall st h', h `suffix_of` h' -> workflowResumePhase st = PhaseFinalSynced ->
      save_sound h' (set_status o st)) as Hsave.
    { intros st h' Hs Hst. split; [exact (sound_mono h h' o Hs (proj1 Hinv))|]. right. split; [done|].
      apply (sync_inv_all done o h Hinv). intros v Hv. destruct (Hall v Hv) as [?|Hn]; [done|].
      by apply not_elem_of_nil in Hn. }
    apply wp_from, wp_exec_transition; [intros h' r Hw Hp; by apply sync_reads|done|..].
    + intros st h' _ Hst Hs. by apply Hsave.
    + intros st h' Hs Hst Hev _. split_and!; [by apply Hsave|done|done].
    + done.
  - cbn [sync_volumes]. apply (wp_sync_volume done); [done|apply Hsub; left|].
    intros o' h' Hinv'. apply (IH (checkpoint_index o0 volume :: done)); [done|..].
    + intros v Hv. apply Hsub. by right.
    + intros v Hv. destruct (Hall v Hv) as [?|[->|?]%elem_of_cons]; [left; by right|left; left|by right].
Qed.

End planned.

(** ** The whole final sync *)

Lemma wp_sync_probe G (plan : ClusterMigrationPlan) targets h :
  runner_guard G -> wp G (probe config o0 plan targets) (fun _ h' => quiet h h') h.
Proof.
  intros HG. unfold probe. destruct (mc_ToolImageProber config); [|apply quiet_refl].
  apply wp_mild; [done|]. by apply mild_call.
Qed.

Lemma wp_finalSync : valid o0 -> wp sync_guard (finalSync config s steps polls o0) synced [].
Proof.
  intros Hvalid. unfold finalSync. destruct (migrationFinalSyncPhase (eff o0)) eqn:Hphase; unfold eff in Hphase; rewrite Hphase; [|done].
  cbn [negb]. destruct (mig_Plan o0) as [plan|] eqn:Hplan; [|done].
  destruct (validateMigrationCopyRetry _); [done|].
  apply wp_check_x. unfold cleanupInterruptedFinalSync. rewrite Hplan.
  eapply wp_mono; [apply (wp_cleanup_interrupted_all _ sync_guard_runner pod_sound_guard plan Hvalid Hplan)|].
  { by apply frame_on_refl. } { done. } { intros c Hc. by exists c. }
  intros [e|] h1 _ Hq1; [done|]. apply wp_check_x.
  eapply wp_mono; [by apply (wp_ValidateFinalSync plan Hvalid Hplan Hphase)|]. intros [e|] h2 _ Hq2; [done|].
  apply wp_bind_2. eapply wp_mono; [apply wp_sync_probe, sync_guard_runner|]. intros [probes|e] h3 _ Hq3; [|done].
  set (start := if ws_Phase (mig_Status o0) =p PhaseFinalSynced then reset_sync o0 else o0). assert (sound [] start) as Hst by apply sound_start.
  apply wp_bind_2. 
  eapply wp_mono; [apply (wp_no_copy _ _ (fun r h' => r.2 = None -> sound h' r.1 /\ eff r.1 = PhaseFinalSyncing /\ syncing h'));
    [apply no_copy_transition|apply wp_from, wp_exec_transition]|].
  { intros h' r Hw Hp _. by apply sync_guard_runner. } { done. }
  { intros st h' _ He _. apply save_sound_mid; [|done]. apply (sound_mono [] h' start); [apply suffix_nil|done]. }
  { intros st h' Hs He Hev _. split_and!; [apply (sound_mono [] h' start); [apply suffix_nil|done]|done|].
    exists (set_status start st). split_and!; [done|done|apply Hst]. }
  { done. }
  intros [o [e|]] h4 _ [HQ Hq4]; [done|]. destruct (HQ eq_refl) as (Hs & He & Hsy). cbn [fst snd] in *.
  apply (wp_sync_volumes plan Hvalid Hplan Hphase probes (plan_Volumes plan) []); [|done|by right].
  split_and!; [done|done|done| |by intros i Hi%not_elem_of_nil].
  assert (quiet [] h4) as Hq by (eapply quiet_trans; [exact Hq1|]; eapply quiet_trans; [exact Hq2|]; by eapply quiet_trans).
  intros q x Hl. by rewrite (quiet_last _ _ Hq) in Hl.
Qed.
End sync.

(** C7: the final sync copies only offline, planned volumes and records only real copies.
    For every valid migration and any server, [finalSync] starts a copy only after a
    status in phase FinalSyncing was persisted for this plan, for a planned volume with
    recorded identities that is not yet recorded as copied, whose pair was verified bound
    and offline since the previous copy and whose attempt was just counted and saved;
    it deletes only listed data-mover Pods of a planned pair; every saved object keeps
    plan, reservations and activation records, records a volume as copied only after a
    successful copy of it (or if an unfinished earlier final sync did), and says
    FinalSynced only when every volume is copied; success means that such an object was
    saved.  The only reachable crash is a nil Pod list. *)
Theorem final_sync_gated `{CR : ConflictRetry} `{QT : QuantityText} `{LG : LabelGrammar}
    (given : MigrationExecutorConfig) (s : Switcher) (steps polls : nat) (o0 : ClusterMigration)
    {W} (server : handler (R := @xresp ClusterMigration) W) w :
  valid o0 ->
  let out := run server (finalSync (newMigrationResources given) s steps polls o0) w [] in
  calls_ok (sync_guard given o0) [] out.2 /\
  (forall r, out.1.1 = Some r -> synced given o0 r out.2).
Proof. intros Hv. cbv zeta. apply (wp_adequate _ server _ _ w []). by apply wp_finalSync. Qed.
