(* ===== verification/StagedRun.v ===== *)
(** * Reserving the destinations of copies and reservations

    The reservation loop the executors of copies and reservations share
    ([staged_reserve]): which writes reach the cluster, what the saved objects say, and
    what a success means, under any guard that allows reads and saves of sound objects.
    Then the reservation executors as a whole ([reservation_run]). *)

From S2P Require Import Prelude Utf8 GoErrors Lifecycle PhaseMachines KubeTypes Prog Api ResourceState Ownership PVBinding NodeSelection GoFormat Quota PVCPolicy Reserver TransferPath Reclaim MigrationObject Offline Activation MigrationStorage MigrationCleanup CopyEngine Exec CopyRunner SourceLoss Executor CleanupExecutor MigrationSync StagedObjects Staged ReservationExecutor CopyExecutor StagedInstances SwitcherRules ReserverSafety ReclaimSafety ObjectValidity ExecRules ExecutorRules CleanupSafety OfflineSafety CopySafety SyncSafety StagedLaws StagedCleanup.

(** ** Transitions *)

Section transitions.
Context {Obj : Type} `{SW : StagedWorkflow Obj} (G : xtraceOf Obj -> xreq Obj -> Prop).
Hypothesis HR : forall h r, is_write r = false -> is_progress r = false -> G h (XKube r).
Hypothesis HD : forall h, G h XDetachedErr.
Notation xtrace := (xtraceOf Obj).
Notation outcome := (Obj * option err)%type.

(** A transition saves one object, of the same content and the next effective phase
    (the same one for a failure), and keeps it only if the save succeeded. *)
Lemma wp_staged_transition detached o next message (Q : outcome -> xtrace -> Prop) h :
  let target := if next =p PhaseFailed then staged_resume o else next in
  (forall st h', sw_validateTransition o next = None -> workflowResumePhase st = target -> G h' (XSave (wf_put o st))) ->
  (forall st h', h `suffix_of` h' -> workflowResumePhase st = target ->
     Ev (XSave (wf_put o st)) None ∈ h' -> Q (wf_put o st, None) h') ->
  (forall e h', h `suffix_of` h' -> Q (o, Some e) h') ->
  wp G (staged_transition detached o next message) Q h.
Proof.
  cbv zeta. intros HG Hok He. unfold staged_transition.
  destruct (sw_validateTransition o next) as [e|] eqn:Hv; [by apply He|].
  apply wp_bind_2. eapply wp_mono with (Q := fun st _ => workflowResumePhase st = staged_resume o).
  { destruct (ws_StartedAt (wf_get o)); [done|]. apply wp_bind_2. split; [by apply HR|]. intros t.
    apply wp_Ret, wp_Ret. unfold staged_resume, workflowResumePhase.
    by destruct (with_StartedAt_phase (wf_get o) t) as [-> ->]. }
  intros st h1 Hs1 Hst. apply wp_bind_2. split; [by apply HR|]. intros t. apply wp_bind_2.
  assert (workflowResumePhase (RecordWorkflowTransition st next message t) =
          if next =p PhaseFailed then staged_resume o else next) as Ht by (by rewrite record_effective, Hst).
  apply wp_persist; [done|done|..].
  - intros h'. by apply HG.
  - intros h2 Hs2 Hin. apply Hok; [|done|done]. etrans; [exact Hs1|]. by eapply suffix_cons_l.
  - intros e h2 Hs2. apply He. etrans; [exact Hs1|]. by eapply suffix_cons_l.
Qed.

(** Recording a failure saves at most one object of the same effective phase and
    content, and always reports an error. *)
Lemma wp_staged_fail o cause (Q : outcome -> xtrace -> Prop) h :
  (forall st h', workflowResumePhase st = staged_resume o -> G h' (XSave (wf_put o st))) ->
  (forall o' e h', h `suffix_of` h' -> Q (o', Some e) h') ->
  wp G (staged_fail o cause) Q h.
Proof.
  intros HG He. unfold staged_fail. apply wp_bind_2. split; [by apply HR|]. intros t.
  apply wp_recordWorkflowFailure; [done|done|..].
  - intros o' h' (st & -> & Hst). by apply HG.
  - intros o' message h' (st & -> & Hst).
    assert (staged_resume (wf_put o st) = staged_resume o) as Hf by (unfold staged_resume; by rewrite wf_get_put).
    apply wp_staged_transition; rewrite ?Hf; cbn [phase_eqb].
    + intros st' h2 _ Hst'. rewrite wf_put_put. exact (HG st' h2 Hst').
    + intros st' h2 _ Hst' _ _. rewrite wf_put_put. by exists st'.
    + done.
  - intros o' e h' Hsuf _. apply He. by eapply suffix_cons_l.
  - intros e h' Hsuf. apply He. by eapply suffix_cons_l.
Qed.
End transitions.

(** ** Programs without a copy *)

Section quiet.
Context `{CR : ConflictRetry} `{QT : QuantityText} `{IG : ImageGrammar} {Obj : Type} `{SW : StagedWorkflow Obj}.
Context (reserver : Reserver).
Implicit Types o : Obj.

Lemma no_copy_lift {A} (p : kube A) : no_copy (Obj := Obj) (lift p).
Proof. induction p as [a| |r k IH]; [done|done|]. by split. Qed.

Lemma no_copy_save detached o : no_copy (persist detached o).
Proof. unfold persist, checkpoint_fence. no_copy_tac. Qed.

Lemma no_copy_staged_transition detached o next message : no_copy (staged_transition detached o next message).
Proof. unfold staged_transition. no_copy_tac; apply no_copy_save. Qed.

Lemma no_copy_staged_fail o e : no_copy (staged_fail o e).
Proof. unfold staged_fail, recordWorkflowFailure. no_copy_tac; first [apply no_copy_save|apply no_copy_staged_transition]. Qed.

Lemma no_copy_panic {A B} (x : option A) (k : A -> execOf Obj B) : (forall a, no_copy (k a)) -> no_copy (or_panic x k).
Proof. intros Hk. by destruct x; [apply Hk|]. Qed.

Lemma no_copy_reserve_volumes image plan indexes volumes o :
  no_copy (staged_reserve_volumes reserver image plan indexes volumes o).
Proof.
  revert o. induction volumes as [|v volumes IH]; intros o; [apply no_copy_staged_transition|].
  cbn [staged_reserve_volumes]. unfold staged_reserve_volume, volume_fence, fence_x, checkpoint_fence, check_x.
  apply no_copy_bind; [no_copy_tac|]. intros [e|]; [done|]. apply no_copy_panic. intros status.
  destruct (rs_Reserved status); [apply IH|]. destruct (staged_manifest plan v); [|apply no_copy_staged_fail].
  apply no_copy_bind; [apply no_copy_lift|]. intros r. apply no_copy_panic. intros checkpoint. unfold save_checkpoint.
  destruct (sw_record _ _ _); [|apply no_copy_staged_fail].
  apply no_copy_bind; [apply no_copy_save|]. intros [e|]; [done|]. destruct r.2; [apply no_copy_staged_fail|].
  destruct (staged_complete checkpoint); [apply IH|apply no_copy_staged_fail].
Qed.

Lemma no_copy_staged_reserve image plan o : no_copy (staged_reserve reserver image plan o).
Proof.
  apply no_copy_bind; [apply no_copy_staged_transition|]. intros t. destruct t.2; [done|].
  apply no_copy_bind; [unfold RequireNamespace, serve; no_copy_tac|]. intros [e|]; [apply no_copy_staged_fail|].
  apply no_copy_reserve_volumes.
Qed.
End quiet.

(** ** The reservation loop *)

Lemma reserved_ok_flag `{QT : QuantityText} request pvc pv desired st h :
  reserved_ok request pvc pv desired st h -> rs_Reserved st = true.
Proof. by intros (bound & v & current & _ & _ & _ & _ & _ & _ & _ & _ & _ & _ & _ & _ & H & _). Qed.

Section reserve.
Context `{CR : ConflictRetry} `{QT : QuantityText} `{IG : ImageGrammar} {Obj : Type} `{SL : StagedLaws Obj}.
Context (reserver : Reserver) (name image : string) (plan : StagedPlan) (start : list ReservationStatus).
Context (Hnames : map rs_SourcePVCName start ≡ₚ map planned_name (sp_Volumes plan)).
Context (Hnd : NoDup (map planned_name (sp_Volumes plan))).
Notation xtrace := (xtraceOf Obj).
Notation outcome := (Obj * option err)%type.
Notation indexes := (checkpointIndexes start).
Implicit Types (o : Obj) (h : xtrace).

Definition reserve_request : ReservationRequest :=
  {| SessionID := name; TargetNode := sp_TargetNode plan; ToolImage := image |}.

(** The phase was persisted for this plan. *)
Definition entered (phase : Phase) h : Prop :=
  exists o, Ev (XSave o) None ∈ h /\ staged_resume o = phase /\ sw_Name o = name /\ sw_plan o = Some plan.

(** A write of the reserver for a planned volume that is not reserved yet. *)
Definition reserve_write h (r : req) : Prop :=
  exists volume desired st hk h', h = map lift_event hk ++ h' /\ entered PhaseReserving h' /\
    volume ∈ sp_Volumes plan /\ staged_manifest plan volume = inl desired /\ rs_Reserved st = false /\
    reserve_guard reserve_request (source_ref plan volume) (source_pv volume) desired st hk r.

(** A checkpoint the reserver produced: what it verified is in the history. *)
Definition produced h (i : nat) (c : ReservationStatus) : Prop :=
  exists volume desired hk, volume ∈ sp_Volumes plan /\ index_of indexes volume = i /\
    staged_manifest plan volume = inl desired /\ seen hk h /\
    reserved_ok reserve_request (source_ref plan volume) (source_pv volume) desired c hk.

(** What the saved objects say: a destination is recorded as reserved only if it was
    recorded so before or the reserver has just verified it. *)
Definition staged_sound h o : Prop :=
  sw_Name o = name /\ sw_plan o = Some plan /\ length (sw_checkpoints o) = length start /\
  forall i c, sw_checkpoints o !! i = Some c -> rs_Reserved c = true -> start !! i = Some c \/ produced h i c.

Definition all_reserved o : Prop := Forall (fun c => rs_Reserved c = true) (sw_checkpoints o).

Definition reserve_save h o : Prop :=
  staged_sound h o /\ (staged_resume o = PhaseReserving \/ (staged_resume o = PhaseReserved /\ all_reserved o)).

Lemma produced_mono h h' i c : h `suffix_of` h' -> produced h i c -> produced h' i c.
Proof.
  intros Hs (v & d & hk & H1 & H2 & H3 & H4 & H5). exists v, d, hk. split_and!; try done. by eapply seen_mono.
Qed.

Lemma staged_sound_mono h h' o : h `suffix_of` h' -> staged_sound h o -> staged_sound h' o.
Proof.
  intros Hs (H1 & H2 & H3 & H4). split_and!; try done. intros i c Hi Hr.
  destruct (H4 i c Hi Hr); [by left|right]. by eapply produced_mono.
Qed.

Lemma stage_entered_mono phase h h' : h `suffix_of` h' -> entered phase h -> entered phase h'.
Proof. intros [k ->] (o & Ho & He). exists o. split; [apply elem_of_app; by right|done]. Qed.

Lemma staged_sound_put h o st : staged_sound h o -> staged_sound h (wf_put o st).
Proof.
  intros (H1 & H2 & H3 & H4). unfold staged_sound. by rewrite sl_put_name, sl_put_plan, sl_put_checkpoints.
Qed.

Lemma start_index volume :
  volume ∈ sp_Volumes plan -> exists c, start !! index_of indexes volume = Some c /\ rs_SourcePVCName c = planned_name volume.
Proof.
  intros Hin. unfold index_of.
  destruct (proj2 (volumeIndexes_is_Some rs_SourcePVCName start (planned_name volume))) as [i Hi].
  { rewrite Hnames. by apply list_elem_of_fmap_2. }
  unfold checkpointIndexes. rewrite Hi. cbn. by apply volumeIndexes_sound in Hi.
Qed.

(** Every checkpoint is that of a planned volume. *)
Lemma index_planned i c : start !! i = Some c -> exists volume, volume ∈ sp_Volumes plan /\ index_of indexes volume = i.
Proof.
  intros Hi. assert (rs_SourcePVCName c ∈ map planned_name (sp_Volumes plan)) as Hc.
  { rewrite <- Hnames. apply list_elem_of_fmap_2. by eapply list_elem_of_lookup_2. }
  apply list_elem_of_fmap in Hc as (volume & Hv & Hin). exists volume. split; [done|]. unfold index_of, checkpointIndexes.
  rewrite <- Hv, (volumeIndexes_lookup rs_SourcePVCName start i c); [done| |done]. by rewrite Hnames.
Qed.

(** A checkpoint that is reserved belongs to the volume of its index. *)
Lemma sound_names h o : staged_sound h o -> all_reserved o ->
  map rs_SourcePVCName (sw_checkpoints o) = map rs_SourcePVCName start.
Proof.
  intros (_ & _ & Hlen & Hc) Hall. apply list_eq_same_length with (n := length start);
    [by rewrite length_map|by rewrite length_map|].
  intros i x y _. change (map ?f ?l) with (f <$> l). rewrite !list_lookup_fmap.
  destruct (sw_checkpoints o !! i) as [c|] eqn:Hi; [|done]. destruct (start !! i) as [c0|] eqn:Hi0; [|done].
  intros [= <-] [= <-]. pose proof (Forall_lookup_1 _ _ _ _ Hall Hi) as Hr.
  destruct (Hc i c Hi Hr) as [?|(volume & desired & hk & Hin & Hidx & _ & _ & Hok)]; [congruence|].
  destruct (start_index volume Hin) as (d & Hd & Hname). rewrite Hidx in Hd. assert (d = c0) as -> by congruence.
  rewrite Hname. by destruct Hok as (? & ? & ? & _ & _ & _ & _ & _ & _ & _ & _ & _ & _ & _ & _ & _ & -> & _).
Qed.

(** What is kept of the object besides, by every step of the loop. *)
Context (K : Obj -> Prop) (HKput : forall o st, K o -> K (wf_put o st)).
Context (HKrecord : forall o i st o', K o -> sw_record o i st = inl o' -> K o').
Context (G : xtrace -> xreq Obj -> Prop).
Hypothesis HR : forall h r, is_write r = false -> is_progress r = false -> G h (XKube r).
Hypothesis HD : forall h, G h XDetachedErr.
Hypothesis HS : forall h q, (forall request, q <> SCopy request) -> G h (XService q).
Hypothesis Hsave : forall h o, reserve_save h o -> K o -> G h (XSave o).
Hypothesis Hwrite : forall h r, reserve_write h r -> G h (XKube r).

Notation wpr := (wp G).

(** The invariant of the loop: [done] are the indexes reserved so far. *)
Definition reserve_inv (done : list nat) o h : Prop :=
  staged_sound h o /\ K o /\ staged_resume o = PhaseReserving /\ entered PhaseReserving h /\
  forall i, i ∈ done -> exists c, sw_checkpoints o !! i = Some c /\ rs_Reserved c = true.

(** What a success means. *)
Definition reserve_done (r : outcome) h : Prop :=
  r.2 = None -> staged_sound h r.1 /\ K r.1 /\ staged_resume r.1 = PhaseReserved /\ all_reserved r.1 /\
    Ev (XSave r.1) None ∈ h.

Lemma wp_reserve_fail o e h :
  staged_sound h o -> K o -> staged_resume o = PhaseReserving -> wpr (staged_fail o e) reserve_done h.
Proof.
  intros Hs HK He. apply wp_from, wp_staged_fail.
  - intros h' r Hw Hp _. by apply HR.
  - intros h' _. apply HD.
  - intros st h' Hst Hsuf. apply Hsave; [|by apply HKput]. split; [apply staged_sound_put; by eapply staged_sound_mono|].
    left. unfold staged_resume. by rewrite wf_get_put, Hst.
  - by intros o' e' h' _.
Qed.

Lemma reserve_inv_keep done o h i c :
  reserve_inv done o h -> sw_checkpoints o !! i = Some c -> rs_Reserved c = true -> reserve_inv (i :: done) o h.
Proof.
  intros (H1 & H2 & H3 & H4 & Hd) Hi Hc. split_and!; try done.
  intros j [->|Hj]%elem_of_cons; [by exists c|by apply Hd].
Qed.

Lemma reserve_inv_mono done o h h' : h `suffix_of` h' -> reserve_inv done o h -> reserve_inv done o h'.
Proof.
  intros Hs (H1 & H2 & H3 & H4 & Hd). split_and!; try done; [by eapply staged_sound_mono|by eapply stage_entered_mono].
Qed.

(** The object with the checkpoint the reserver returned. *)
Lemma reserve_inv_record done o o' h i c st :
  reserve_inv done o h -> sw_checkpoints o !! i = Some c -> rs_Reserved c = false ->
  (rs_Reserved st = true -> produced h i st) -> sw_record o i st = inl o' -> reserve_inv done o' h.
Proof.
  intros ((H1 & H2 & H3 & H4) & HK & He & Hin & Hd) Hi Hc Hst Hrec.
  destruct (sl_record _ _ _ _ Hrec) as (E1 & E2 & E3 & E4).
  split_and!; [|by eapply HKrecord|unfold staged_resume; by rewrite E1|done|].
  - unfold staged_sound. rewrite E2, E3, E4. split_and!; [done|done|by rewrite length_insert|].
    intros j d [(-> & -> & _)|[Hne Hj]]%list_lookup_insert_Some Hr; [right; by apply Hst|by apply H4].
  - intros j Hj. destruct (Hd j Hj) as (d & Hdj & Hdr). rewrite E4. exists d. split; [|done].
    rewrite list_lookup_insert_ne; [done|]. intros ->. congruence.
Qed.

Lemma wp_save_checkpoint done o i c st failure k h :
  reserve_inv done o h -> sw_checkpoints o !! i = Some c -> rs_Reserved c = false ->
  (rs_Reserved st = true -> produced h i st) -> (failure = None -> rs_Reserved st = true) ->
  (forall o' h', reserve_inv (i :: done) o' h' -> wpr (k o') reserve_done h') ->
  wpr (save_checkpoint o i st failure k) reserve_done h.
Proof.
  intros Hinv Hi Hc Hst Hok Hk. unfold save_checkpoint. destruct (sw_record o i st) as [o'|e] eqn:Hrec.
  2: { apply wp_reserve_fail; apply Hinv. }
  pose proof (reserve_inv_record _ _ _ _ _ _ _ Hinv Hi Hc Hst Hrec) as Hinv'.
  apply wp_bind_2, wp_from, wp_persist.
  - intros h' r Hw Hp _. by apply HR.
  - intros h' _. apply HD.
  - intros h' Hsuf. pose proof (reserve_inv_mono _ _ _ _ Hsuf Hinv') as (H1 & H2 & H3 & _).
    apply Hsave; [|done]. split; [done|by left].
  - intros h1 Hs1 _. pose proof (reserve_inv_mono _ _ _ _ Hs1 Hinv') as Hinv1.
    destruct failure as [e|]; [apply wp_reserve_fail; apply Hinv1|].
    destruct (staged_complete st); [|apply wp_reserve_fail; apply Hinv1].
    apply Hk. destruct (sl_record _ _ _ _ Hrec) as (_ & _ & _ & E4).
    eapply (reserve_inv_keep _ _ _ i st); [done| |by apply Hok]. rewrite E4. apply list_lookup_insert_eq.
    by eapply lookup_lt_Some.
  - intros e h1 _. apply wp_Ret. intros Hn. by apply errors_Join2_None in Hn as [_ ?].
Qed.
Lemma wp_volume_fence h : wpr volume_fence (fun _ _ => True) h.
Proof.
  unfold volume_fence. destruct sw_joinFence; [|by apply wp_checkpoint_fence].
  unfold fence_x. apply wp_ask; [by apply HR|]. intros a. by apply wp_ask; [apply HR|].
Qed.

Lemma wp_staged_reserve_volume done volume k o h :
  reserve_inv done o h -> volume ∈ sp_Volumes plan ->
  (forall o' h', reserve_inv (index_of indexes volume :: done) o' h' -> wpr (k o') reserve_done h') ->
  wpr (staged_reserve_volume reserver image plan indexes volume k o) reserve_done h.
Proof.
  intros Hinv Hin Hk. unfold staged_reserve_volume. apply wp_check_x.
  eapply wp_mono; [apply wp_volume_fence|]. intros [e|] h1 Hs1 _; [done|].
  pose proof (reserve_inv_mono _ _ _ _ Hs1 Hinv) as Hinv1. pose proof Hinv1 as ((Hn & _ & Hlen & _) & _ & _ & Hent & _).
  destruct (start_index volume Hin) as (c0 & Hc0 & _).
  destruct (lookup_lt_is_Some_2 (sw_checkpoints o) (index_of indexes volume)) as [c Hc].
  { rewrite Hlen. by eapply lookup_lt_Some. }
  eapply wp_or_panic; [exact Hc|]. destruct (rs_Reserved c) eqn:Hr.
  { apply Hk. by eapply reserve_inv_keep. }
  destruct (staged_manifest plan volume) as [desired|e] eqn:Hm; [|apply wp_reserve_fail; apply Hinv1].
  apply wp_bind_2. unfold staged_request. rewrite Hn. fold reserve_request.
  eapply wp_mono; [apply (wp_lift_guard _
    (reserve_guard reserve_request (source_ref plan volume) (source_pv volume) desired c) _
    (reserve_post reserve_request (source_ref plan volume) (source_pv volume) desired c) [] h1); [|apply wp_ReserveVolume]|].
  { intros hk r Hg. apply Hwrite. exists volume, desired, c, hk, h1. by split_and!. }
  intros [ck failure] h2 Hs2 (hk & Hh2 & st & Hst & Hpost). cbn [fst snd] in *. rewrite Hst. cbn [or_panic].
  assert (rs_Reserved st = true -> produced h2 (index_of indexes volume) st) as Hprod.
  { intros Hrs. destruct failure as [e|]; [congruence|]. exists volume, desired, hk.
    split_and!; [done|done|done|rewrite Hh2; apply seen_lifted|done]. }
  apply (wp_save_checkpoint done o _ c); [by eapply reserve_inv_mono|done|done|done| |done].
  intros ->. by eapply reserved_ok_flag.
Qed.

Lemma wp_staged_reserve_volumes volumes done o h :
  reserve_inv done o h -> (forall v, v ∈ volumes -> v ∈ sp_Volumes plan) ->
  (forall v, v ∈ sp_Volumes plan -> index_of indexes v ∈ done \/ v ∈ volumes) ->
  wpr (staged_reserve_volumes reserver image plan indexes volumes o) reserve_done h.
Proof.
  revert done o h. induction volumes as [|volume volumes IH]; intros done o h Hinv Hsub Hall.
  - pose proof Hinv as (Hs & HK & He & _ & Hd).
    assert (all_reserved o) as Hres.
    { apply Forall_lookup_2. intros i c Hi. destruct Hs as (_ & _ & Hlen & _).
      destruct (lookup_lt_is_Some_2 start i) as [c0 Hc0]; [rewrite <- Hlen; by eapply lookup_lt_Some|].
      destruct (index_planned i c0 Hc0) as (v & Hv & <-). destruct (Hall v Hv) as [Hdone|Hn]; [|by apply not_elem_of_nil in Hn].
      destruct (Hd _ Hdone) as (c' & Hc' & Hr). congruence. }
    assert (forall st h', h `suffix_of` h' -> workflowResumePhase st = PhaseReserved ->
      staged_sound h' (wf_put o st) /\ K (wf_put o st) /\ staged_resume (wf_put o st) = PhaseReserved /\
      all_reserved (wf_put o st)) as Hput.
    { intros st h' Hsuf Hst. split_and!; [apply staged_sound_put; by eapply staged_sound_mono|by apply HKput| |].
      - unfold staged_resume. by rewrite wf_get_put.
      - unfold all_reserved. by rewrite sl_put_checkpoints. }
    cbn [staged_reserve_volumes]. apply wp_from, wp_staged_transition.
    + intros h' r Hw Hp _. by apply HR.
    + intros h' _. apply HD.
    + intros st h' _ Hst Hsuf. destruct (Hput st h' Hsuf Hst) as (P1 & P2 & P3 & P4). apply Hsave; [|done].
      split; [done|]. by right.
    + intros st h' Hsuf Hst Hev _. by destruct (Hput st h' Hsuf Hst) as (P1 & P2 & P3 & P4).
    + done.
  - cbn [staged_reserve_volumes]. apply (wp_staged_reserve_volume done); [done|apply Hsub; left|].
    intros o' h' Hinv'. apply (IH (index_of indexes volume :: done)); [done|..].
    + intros v Hv. apply Hsub. by right.
    + intros v Hv. destruct (Hall v Hv) as [?|[->|?]%elem_of_cons]; [left; by right|left; left|by right].
Qed.

Lemma wp_staged_reserve o h :
  sw_Name o = name -> sw_plan o = Some plan -> sw_checkpoints (sw_start o) = start -> K (sw_start o) ->
  wpr (staged_reserve reserver image plan o) reserve_done h.
Proof.
  intros Hn Hp Hst HK. unfold staged_reserve. apply wp_bind_2.
  assert (forall h', staged_sound h' (sw_start o)) as Hsound.
  { intros h'. split_and!; [by rewrite sl_start_name|by rewrite sl_start_plan|by rewrite Hst|]. intros i c. rewrite Hst. by left. }
  assert (forall st h', workflowResumePhase st = PhaseReserving -> staged_sound h' (wf_put (sw_start o) st) /\
    K (wf_put (sw_start o) st) /\ staged_resume (wf_put (sw_start o) st) = PhaseReserving) as Hput.
  { intros st h' Hph. split_and!; [by apply staged_sound_put|by apply HKput|]. unfold staged_resume. by rewrite wf_get_put. }
  eapply wp_mono with (Q := fun r h' => r.2 = None -> reserve_inv [] r.1 h' /\ sw_checkpoints r.1 = start).
  { apply wp_staged_transition; [done|done|..].
    - intros st h' _ Hph. destruct (Hput st h' Hph) as (P1 & P2 & P3). apply Hsave; [|done]. split; [done|by left].
    - intros st h' _ Hph Hev _. destruct (Hput st h' Hph) as (P1 & P2 & P3). cbn [fst]. split; [|by rewrite sl_put_checkpoints].
      split_and!; [done|done|done| |by intros i Hi%not_elem_of_nil].
      exists (wf_put (sw_start o) st). split_and!; [done|done|..]; by destruct P1 as (? & ? & _).
    - done. }
  intros [o1 [e|]] h1 _ Hr; [done|]. cbn [fst snd] in *. destruct (Hr eq_refl) as [Hinv Hc].
  apply wp_bind_2. eapply wp_mono; [apply wp_calm; [done|done|done|apply mild_namespace]|].
  intros [e|] h2 _ Hq2; pose proof (reserve_inv_mono _ _ _ _ (quiet_suffix _ _ Hq2) Hinv) as Hinv2.
  { apply wp_reserve_fail; apply Hinv2. }
  rewrite Hc. apply (wp_staged_reserve_volumes _ []); [done|done|]. by right.
Qed.
End reserve.

(** ** The reservation executors *)

Section reservation.
Context `{CR : ConflictRetry} `{QT : QuantityText} `{IG : ImageGrammar} {Obj : Type} `{SL : StagedLaws Obj}.
Context (config : ReservationExecutorConfig) (reserver : Reserver) (o0 : Obj).
Notation xtrace := (xtraceOf Obj).
Notation outcome := (Obj * option err)%type.
Notation start := (sw_checkpoints (sw_start o0)).
Notation image plan := (reservation_image config (sp_ToolImage plan)).

(** Progress in the status only: a failure keeps the phase to resume, and an abort that
    was under way goes on. *)
Definition status_save (o : Obj) : Prop :=
  exists st, o = wf_put o0 st /\
    (workflowResumePhase st = staged_resume o0 \/
     (staged_resume o0 = PhaseAborting /\ (workflowResumePhase st = PhaseAborting \/ workflowResumePhase st = PhaseAborted))).

Definition reservation_guard (h : xtrace) (q : xreq Obj) : Prop :=
  match q with
  | XKube r =>
      is_write r = true ->
      exists plan, sw_plan o0 = Some plan /\ reserve_write (sw_Name o0) (image plan) plan h r
  | XSave o =>
      status_save o \/
      exists plan, sw_plan o0 = Some plan /\ reserve_save (sw_Name o0) (image plan) plan start h o
  | XDetachedErr => True
  | XService (SCopy _) => False
  | XService _ => True
  | XPanic | XDeleteLock | XDeleteStored _ => False
  end.

(** What a success means: there was nothing to do, an abort was completed, or every
    destination is reserved and the object that says so was saved. *)
Definition reservation_done (r : outcome) (h : xtrace) : Prop :=
  r.2 = None ->
  (r.1 = o0 /\ (staged_resume o0 = PhaseAborted \/ staged_phase o0 = PhaseReserved)) \/
  (staged_resume o0 = PhaseAborting /\ (r.1 = o0 \/ staged_resume r.1 = PhaseAborted)) \/
  exists plan, sw_plan o0 = Some plan /\
    reserve_done (sw_Name o0) (image plan) plan start (fun _ => True) r h.

Notation wpr := (wp reservation_guard).

Lemma reservation_reads h r : is_write r = false -> is_progress r = false -> reservation_guard h (XKube r).
Proof. intros Hw _. cbn. by rewrite Hw. Qed.

Lemma reservation_services h q : (forall request, q <> SCopy request) -> reservation_guard h (XService q).
Proof. intros Hq. destruct q as [| | | | | |request| | | | | |]; try done. by destruct (Hq request). Qed.

Lemma wp_reservation_calm {A} (p : execOf Obj A) h : mild p -> wpr p (fun _ h' => quiet h h') h.
Proof. apply wp_calm; [apply reservation_reads|done|apply reservation_services]. Qed.

Lemma wp_reservation_fail e h : wpr (staged_fail o0 e) reservation_done h.
Proof.
  apply wp_staged_fail; [apply reservation_reads|done|..].
  - intros st h' Hst. left. exists st. split; [done|by left].
  - by intros o' e' h' _.
Qed.

Lemma wp_validate_reserved plan volumes h :
  sw_validateObject o0 = None -> sw_plan o0 = Some plan -> (forall v, v ∈ volumes -> v ∈ sp_Volumes plan) ->
  wpr (validate_reserved_volumes config o0 plan volumes) (fun _ _ => True) h.
Proof.
  intros Hv Hp. revert h. induction volumes as [|volume volumes IH]; intros h Hsub; [done|]. cbn [validate_reserved_volumes].
  assert (exists c, match sw_checkpoints o0 with
                    | [] => Some (blank_reservation volume)
                    | checkpoints => checkpoints !! index_of (checkpointIndexes checkpoints) volume
                    end = Some c) as [c Hc].
  { destruct (start_checkpoint o0 plan Hv Hp volume) as (c & Hc & _); [apply Hsub; left|].
    destruct (sw_checkpoints o0) as [|d l] eqn:Hl; [by eexists|].
    exists c. by rewrite (sl_start_same o0), Hl in Hc by (by rewrite Hl). }
  eapply wp_or_panic; [exact Hc|]. apply wp_check.
  eapply wp_mono; [apply wp_reservation_calm|]; [|intros [e|] h' _ _; [done|]; apply IH; intros v Hin; apply Hsub; by right].
  unfold validate_reserved_volume. apply mild_bind; [apply mild_shrink|]. intros [e|]; [done|].
  apply mild_bind; [done|]. intros [desired|e]; [|done]. apply mild_lift, reads_reservation.
Qed.

Lemma wp_reservation_abort h :
  staged_resume o0 = PhaseAborting -> wpr (reservation_abort o0) reservation_done h.
Proof.
  intros Hab. assert (forall st o h', o = wf_put o0 st -> workflowResumePhase st = PhaseAborting \/ workflowResumePhase st = PhaseAborted ->
    reservation_guard h' (XSave o)) as Hsave.
  { intros st o h' -> Hst. left. exists st. split; [done|]. by right. }
  assert (forall o message h', (exists st, o = wf_put o0 st) \/ o = o0 ->
    wpr (staged_transition false o PhaseAborted message) reservation_done h') as Hend.
  { intros o message h' Ho. assert (forall st, wf_put o st = wf_put o0 st) as Hput.
    { intros st. destruct Ho as [(st' & ->)| ->]; [apply wf_put_put|done]. }
    apply wp_staged_transition; [apply reservation_reads|done|..|done].
    - intros st h2 _ Hst. apply (Hsave st); [apply Hput|by right].
    - intros st h2 _ Hst _ _. right. left. split; [done|]. right. cbn [fst]. unfold staged_resume. by rewrite wf_get_put. }
  unfold reservation_abort. apply wp_check_x. destruct (sw_validateObject o0); [done|]. case_test.
  { apply wp_Ret. intros _. right. left. split; [done|by left]. }
  case_test; [apply Hend; by right|]. apply wp_bind_2.
  eapply wp_mono with (Q := fun r _ => r.2 = None -> exists st, r.1 = wf_put o0 st).
  { apply wp_staged_transition; [apply reservation_reads|done|..].
    - intros st h' _ Hst. apply (Hsave st); [done|by left].
    - intros st h' _ _ _ _. by exists st.
    - done. }
  intros [o [e|]] h' _ Hr; [done|]. cbn [fst snd] in *. apply Hend. left. by apply Hr.
Qed.

Lemma wp_reservation_Run h : wpr (reservation_Run config reserver o0) reservation_done h.
Proof.
  unfold reservation_Run. apply wp_check_x. destruct (sw_validateObject o0) as [e|] eqn:Hv; [done|].
  unfold reservation_run. case_test; [apply wp_Ret; left; split; [done|left; by apply phase_eqb_true]|].
  case_test; [apply wp_reservation_abort; by apply phase_eqb_true|].
  destruct (sw_plan o0) as [plan|] eqn:Hp; [|done]. apply wp_bind_2.
  eapply wp_mono with (Q := fun _ _ => True).
  { unfold reservation_Validate. rewrite Hv, Heqb, Heqb0, Hp. by apply wp_validate_reserved. }
  intros [e|] h1 _ _; [apply wp_reservation_fail|].
  case_test; [apply wp_Ret; intros _; left; split; [done|right; by apply phase_eqb_true]|].
  apply wp_bind_2. eapply wp_mono; [apply wp_reservation_calm|].
  { unfold reservation_probe. mild_tac. }
  intros [e|] h2 _ _; [apply wp_reservation_fail|].
  eapply wp_mono; [apply (wp_staged_reserve _ (sw_Name o0) (image plan) plan start
    (start_names o0 plan Hv Hp) (proj1 (sl_valid o0 plan Hv Hp)) (fun _ => True))|]; try done.
  - apply reservation_reads.
  - apply reservation_services.
  - intros h' o Hs _. right. by exists plan.
  - intros h' r Hw _. by exists plan.
  - intros r h3 _ Hd Hn. right. right. exists plan. split; [done|]. by intros _; apply Hd.
Qed.
(** C12: a reservation is what its object says.  For the reservation executors of both
    scopes, any object and any server, [Run] writes to the cluster only through the
    reserver, for a planned volume that is not reserved, after an object of this plan in
    phase Reserving was saved and under the reserver's own guard (which deletes nothing
    but its own Pod); every saved object keeps the plan, and records a destination as
    reserved only if it was recorded so before or the reserver has just verified it
    bound, large enough, reachable and retained; Reserved is saved only when all
    destinations are.  Success means that there was nothing left to do or that such an
    object was saved; nothing is copied and no crash is reachable. *)
Theorem reservation_run_sound {W} (server : handler (R := @xresp Obj) W) w :
  let out := run server (reservation_Run config reserver o0) w [] in
  calls_ok reservation_guard [] out.2 /\
  (forall r, out.1.1 = Some r -> reservation_done r out.2).
Proof. cbv zeta. apply (wp_adequate _ server _ _ w []). apply wp_reservation_Run. Qed.
End reservation.
