(* ===== verification/WarmCopySafety.v ===== *)
(** * Safety of the copy executors

    The copy executors of both scopes as a whole ([copy_Run]): when a volume is copied,
    what was verified since the previous copy, which Pods are deleted, what the saved
    objects say of reservations and copies, and what a success means. *)

From S2P Require Import Prelude Utf8 GoErrors Lifecycle PhaseMachines KubeTypes Prog Api ResourceState Ownership PVBinding NodeSelection GoFormat Quota PVCPolicy Reserver TransferPath Reclaim MigrationObject Offline Activation MigrationStorage MigrationCleanup CopyEngine Exec CopyRunner SourceLoss Executor CleanupExecutor MigrationSync StagedObjects Staged ReservationExecutor CopyExecutor StagedInstances SwitcherRules ReserverSafety ReclaimSafety ObjectValidity ExecRules ExecutorRules CleanupSafety OfflineSafety CopySafety SyncSafety StagedLaws StagedCleanup StagedRun.

(** ** Consumers of the source *)

(** Who may use the source while it is copied: nobody if the copy is offline; otherwise
    Pods of one node, which is the recorded one if there is one, all of them scheduled if
    the claim is ReadWriteOnce, and none if it is ReadWriteOncePod. *)
Definition consumers_fit (online : bool) (source : ObjectReference) (accessModes : list string) (node : string)
    (pods : list Pod) : Prop :=
  exists n, forall pod, pod ∈ pods -> ActivePodUsesPVC pod (Name source) = true ->
    online = true /\ HasAccessMode accessModes "ReadWriteOncePod" = false /\
    (HasAccessMode accessModes "ReadWriteOnce" = true -> pod_NodeName pod <> "") /\
    (pod_NodeName pod <> "" -> pod_NodeName pod = n /\ (node <> "" -> n = node)).

Lemma dedup_elem seen l x : x ∈ l -> x ∈ seen \/ x ∈ dedup seen l.
Proof.
  revert seen. induction l as [|y l IH]; intros seen Hx; [by apply not_elem_of_nil in Hx|]. cbn.
  destruct (contains seen y) eqn:Hc.
  - apply elem_of_cons in Hx as [->|Hx]; [|by apply IH]. left. by apply contains_true.
  - apply elem_of_cons in Hx as [->|Hx]; [right; left|].
    destruct (IH (y :: seen) Hx) as [[->|?]%elem_of_cons|?]; [right; left|by left|right; by right].
Qed.

Lemma copy_consumers_fit online source modes pods node n :
  validateCopyConsumersFromPods online source modes pods None node = inl n -> consumers_fit online source modes node pods.
Proof.
  unfold validateCopyConsumersFromPods. cbv zeta. set (active := List.filter _ pods).
  set (scheduled := List.filter _ active).
  assert (forall pod, pod ∈ pods -> ActivePodUsesPVC pod (Name source) = true -> pod ∈ active) as Hact.
  { intros pod Hp Ha. apply list_elem_of_In, filter_In. split; [by apply list_elem_of_In|done]. }
  case_test.
  { intros _. apply Nat.eqb_eq, length_zero_iff_nil in Heqb. exists "". intros pod Hp Ha.
    pose proof (Hact pod Hp Ha) as Hin. rewrite Heqb in Hin. by apply not_elem_of_nil in Hin. }
  destruct online; [|done]. cbn [negb]. case_test; [done|]. case_test; [done|].
  assert (forall pod, pod ∈ active -> pod_NodeName pod <> "" -> pod_NodeName pod ∈ dedup [] (map pod_NodeName scheduled)) as Hnode.
  { intros pod Hp Hn. destruct (dedup_elem [] (map pod_NodeName scheduled) (pod_NodeName pod)) as [He|?]; [|by apply not_elem_of_nil in He|done].
    apply list_elem_of_fmap_2, list_elem_of_In, filter_In. split; [by apply list_elem_of_In|].
    by destruct (String.eqb_spec (pod_NodeName pod) ""). }
  assert (HasAccessMode modes "ReadWriteOnce" = true -> forall pod, pod ∈ active -> pod_NodeName pod <> "") as Hrwo.
  { intros Hm pod Hp. rewrite Hm in Heqb1. cbn in Heqb1. rewrite negb_false_iff, Nat.eqb_eq in Heqb1.
    apply filter_length_forallb in Heqb1. rewrite forallb_forall in Heqb1.
    specialize (Heqb1 pod (proj1 (list_elem_of_In _ _) Hp)). intros E. by rewrite E in Heqb1. }
  destruct (dedup [] (map pod_NodeName scheduled)) as [|m [|? ?]] eqn:Hd; [| |done].
  - intros _. exists "". intros pod Hp Ha. specialize (Hact pod Hp Ha). split_and!; [done|done|intros Hm; by apply Hrwo|].
    intros Hn. pose proof (Hnode pod Hact Hn) as Hin. by apply not_elem_of_nil in Hin.
  - case_test; [done|]. intros [= <-]. exists m. intros pod Hp Ha. specialize (Hact pod Hp Ha).
    split_and!; [done|done|intros Hm; by apply Hrwo|]. intros Hn.
    pose proof (Hnode pod Hact Hn) as Hin. apply list_elem_of_singleton in Hin. split; [done|]. intros Hne.
    bool_prop. by destruct (String.eqb_spec node ""), (String.eqb_spec m node).
Qed.

(** ** The reservation before an attempt *)

Section verified.
Context `{QT : QuantityText}.

(** The destination was read bound as recorded. *)
Definition destination_verified (plan : StagedPlan) (volume : VolumeSpec) (checkpoint : ReservationStatus) (h : trace)
    : Prop :=
  exists p pv dpvc dpv, rs_DestinationPVC checkpoint = Some dpvc /\ rs_DestinationPV checkpoint = Some dpv /\
    Ev (GetPVC (sp_DestinationNamespace plan) (local_Name (vs_DestinationPVC volume))) (inl p) ∈ h /\
    pvc_UID p = UID dpvc /\ pvc_Phase p = ClaimBound /\ pvc_VolumeName p = Name dpv /\
    Ev (GetPV (pvc_VolumeName p)) (inl pv) ∈ h /\ pv_UID pv = UID dpv /\ claims_back pv p = true.

Lemma wp_read_only_of {A} G (p : kube A) Q h : reads p -> wp G p Q h -> wp read_only p Q h.
Proof.
  revert h. induction p as [a| |r k IH]; intros h; [done|done|]. intros [Hr Hk] [_ Hw]. split; [exact Hr|].
  intros x. by apply IH.
Qed.

Lemma wp_dry_run sid plan volume desired pvc checkpoint h :
  staged_manifest plan volume = inl desired -> pvc_Namespace pvc = pvc_Namespace desired -> pvc_Name pvc = pvc_Name desired ->
  wp read_only (reserveVolumeDryRun sid (checkpoint_claim pvc checkpoint) (checkpoint_volume checkpoint) (rs_Reserved checkpoint) pvc)
    (on_ok (fun h' => rs_Reserved checkpoint = true -> bound_if_reserved checkpoint ->
       destination_verified plan volume checkpoint h')) h.
Proof.
  intros Hm Hns Hname. unfold staged_manifest, reservationManifest in Hm. destruct (ParseQuantity _); [|done].
  injection Hm as <-. cbn in Hns, Hname. unfold reserveVolumeDryRun.
  apply wp_bind_2, wp_call; [apply read_only_reads|done|done|]. intros [x|e].
  { intros Hv Hr. by rewrite Hr in Hv. }
  case_test; [done|]. apply wp_bind_2, wp_call; [apply read_only_reads|done|done|]. intros [p|e']; [|done].
  apply wp_check_Ret. destruct (validateDestinationPVC _ _ _); [done|].
  destruct (rs_Reserved checkpoint) eqn:Hr; cbn [andb orb].
  2: { case_test; [|by intros _]. eapply wp_mono; [apply (wp_of_reads read_only); [apply read_only_reads|]|by intros e2 h2 _ _].
       unfold verifyDestinationIdentity. reads_tac. }
  case_test; [done|]. bool_prop.
  set (h1 := Ev (GetPVC _ _) _ :: _). unfold verifyDestinationIdentity. cbv zeta.
  case_test; [done|]. case_test; [done|]. case_test; [done|].
  apply wp_bind_2, wp_call; [apply read_only_reads|done|done|]. intros [pv|e2]; [|done].
  case_test; [done|]. destruct (pv_DeletionTimestamp pv); [done|]. apply wp_check_Ret.
  destruct (validateReservationPVOwnership _ _ _ _); [done|]. case_test; [done|]. apply wp_Ret. intros _ _ Hb.
  destruct (Hb Hr) as [[dpvc Hc] [dpv Hv]]. unfold checkpoint_claim, checkpoint_volume in *. rewrite Hc, Hv in *. cbn in *.
  exists p, pv, dpvc, dpv. apply String.eqb_neq in H, H0, H1. rewrite H in Heqb0. rewrite H0 in Heqb3. rewrite H0, H1 in Heqb2.
  cbn in Heqb0, Heqb2, Heqb3. apply negb_false_iff in Heqb0, Heqb2, Heqb3, Heqb4. apply String.eqb_eq in Heqb0, Heqb2, Heqb3.
  apply orb_false_iff in Heqb1 as [Hbd _]. apply negb_false_iff, bool_decide_eq_true in Hbd.
  split_and!; try done; [|left]. rewrite <- Hns, <- Hname. right. left.
Qed.

Lemma wp_copy_validateVolume request plan volume checkpoint h :
  wp read_only (copy_validateVolume request plan volume checkpoint)
    (on_ok (fun h' => source_verified (SessionID request) (source_ref plan volume) (source_pv volume) h' /\
       (rs_Reserved checkpoint = true -> bound_if_reserved checkpoint -> destination_verified plan volume checkpoint h'))) h.
Proof.
  unfold copy_validateVolume. apply wp_try, wp_Ret. destruct (staged_manifest plan volume) as [desired|e] eqn:Hm; [|done].
  unfold ValidateVolumeReservation. apply wp_try.
  eapply wp_mono; [eapply wp_read_only_of; [|apply (wp_prepareReservation request (source_ref plan volume) (source_pv volume)
    (vs_SourceCapacity volume) desired checkpoint)]|].
  { unfold prepareReservation, verifySourceIdentity. reads_tac. }
  intros [pvc|e] h1 _ Hp; [|done]. destruct (Hp pvc eq_refl) as (-> & _ & _ & _ & Hsv).
  apply wp_check_Ret. destruct (validateReservationCheckpoint _ _ _); [done|].
  eapply wp_mono; [by eapply wp_dry_run|]. intros e h2 Hs2 Hok He. split; [by eapply source_verified_mono|].
  by apply Hok.
Qed.
End verified.

(** ** The guard *)

Section copy.
Context `{CR : ConflictRetry} `{QT : QuantityText} `{IG : ImageGrammar} `{LG : LabelGrammar}.
Context {Obj : Type} `{CL : CopyLaws Obj}.
Context (given : CopyExecutorConfig) (reserver : Reserver) (steps polls : nat) (o0 : Obj).
Notation config := (newCopyResources given).
Notation transfer := (xc_Transfer config).
Notation xtrace := (xtraceOf Obj).
Notation outcome := (Obj * option err)%type.
Notation start := (sw_checkpoints (sw_start o0)).
Notation indexes := (checkpointIndexes start).
Notation image plan := (copy_image config (cyp_ToolImage (scp_Plan plan))).
Notation volumes_of plan := (cyp_Volumes (scp_Plan plan)).
Implicit Types (o : Obj) (h : xtrace).

Definition warm_done (s : CopySyncStatus) : Prop := is_Some (cps_WarmCompletedAt s).

(** A successful copy of the volume whose checkpoint has index [i]. *)
Definition warm_index_copied h (i : nat) : Prop :=
  exists plan volume destination q, cw_plan o0 = Some plan /\ volume ∈ volumes_of plan /\ index_of indexes volume = i /\
    attempt_shape transfer (warm_request o0 plan volume destination) q /\ Ev (XService (SCopy q)) None ∈ h.

(** A volume copied before, in the pass this run continues. *)
Definition warm_index_kept (i : nat) : Prop := exists s, cw_sync o0 !! i = Some s /\ warm_done s.

Definition sync_backed h o : Prop :=
  forall i s, cw_sync o !! i = Some s -> warm_done s -> warm_index_kept i \/ warm_index_copied h i.

Definition copy_backed (plan : ScopedCopyPlan) h o : Prop :=
  cw_plan o = Some plan /\ staged_sound (sw_Name o0) (image plan) (staged_plan plan) start h o /\ sync_backed h o.

Definition copy_unchanged o : Prop :=
  sw_Name o = sw_Name o0 /\ cw_plan o = cw_plan o0 /\ sw_checkpoints o = sw_checkpoints o0 /\ cw_sync o = cw_sync o0.

(** The progress a run may save. *)
Definition copy_progress (plan : ScopedCopyPlan) o : Prop :=
  staged_resume o = PhaseReserving \/ (staged_resume o = PhaseReserved /\ all_reserved o) \/
  staged_resume o = PhaseWarmCopying \/ (staged_resume o = PhaseWarmCopied /\ Forall warm_done (cw_sync o)).

Definition copy_save h o : Prop :=
  (copy_unchanged o /\
   (staged_resume o = staged_resume o0 \/
    (staged_resume o0 = PhaseAborting /\ (staged_resume o = PhaseAborting \/ staged_resume o = PhaseAborted)))) \/
  exists plan, cw_plan o0 = Some plan /\ copy_backed plan h o /\ copy_progress plan o.

(** What was verified for an attempt: the consumers of the source, the source, and the
    recorded destination. *)
Definition transfer_ready (plan : ScopedCopyPlan) (volume : VolumeSpec) (checkpoint : ReservationStatus) (node : string)
    (hk : trace) : Prop :=
  (exists pods, Ev (ListPods (scp_SourceNamespace plan)) (inl (Some pods)) ∈ hk /\
     consumers_fit (cyp_Online (scp_Plan plan)) (source_ref (staged_plan plan) volume) (vs_AccessModes volume) node pods) /\
  source_verified (sw_Name o0) (source_ref (staged_plan plan) volume) (source_pv volume) hk /\
  destination_verified (staged_plan plan) volume checkpoint hk.

(** The planned destination claim of a volume. *)
Definition planned_destination (plan : ScopedCopyPlan) (volume : VolumeSpec) (ref : ObjectReference) : Prop :=
  Namespace ref = scp_DestinationNamespace plan /\ Name ref = local_Name (vs_DestinationPVC volume).

Definition warm_copy_ok h (q : CopyRequest) : Prop :=
  exists plan volume o c s destination, cw_plan o0 = Some plan /\ volume ∈ volumes_of plan /\
    entered (sw_Name o0) (staged_plan plan) PhaseWarmCopying h /\
    sw_checkpoints o !! index_of indexes volume = Some c /\ rs_Reserved c = true /\
    rs_DestinationPVC c = Some destination /\ planned_destination plan volume destination /\
    cw_sync o !! index_of indexes volume = Some s /\ ~ warm_done s /\
    attempt_ok transfer (warm_cursor (index_of indexes volume)) (transfer_ready plan volume c (cw_SourceNode o))
      (warm_request o0 plan volume destination) o h q.

Definition warm_pod_ok h (r : req) : Prop :=
  exists plan volume destination attempt, cw_plan o0 = Some plan /\ volume ∈ volumes_of plan /\
    planned_destination plan volume destination /\
    tool_pod_delete (source_ref (staged_plan plan) volume) destination
      (OperationID {| ai_SessionID := sw_Name o0; ai_Source := source_ref (staged_plan plan) volume; ai_Mode := ModeWarm;
                      ai_Attempt := attempt |}) h r.

Definition copy_executor_guard h (r : xreq Obj) : Prop :=
  match r with
  | XKube r =>
      is_write r = true ->
      warm_pod_ok h r \/
      exists plan, cw_plan o0 = Some plan /\ reserve_write (sw_Name o0) (image plan) (staged_plan plan) h r
  | XSave o => copy_save h o
  | XDetachedErr => True
  | XService (SCopy q) => warm_copy_ok h q
  | XService _ => True
  | XPanic => nil_list h
  | XDeleteLock | XDeleteStored _ => False
  end.

Notation wpx := (wp copy_executor_guard).

Lemma copy_executor_runner : runner_guard copy_executor_guard.
Proof.
  split.
  - intros h r Hw Hp. cbn. by rewrite Hw.
  - done.
  - intros h [] Hq; try done. by destruct (Hq request).
  - done.
Qed.

Lemma warm_runner_from h : runner_guard (fun h' r => h `suffix_of` h' -> copy_executor_guard h' r).
Proof. destruct copy_executor_runner as [H1 H2 H3 H4]. split; auto. Qed.

(** *** Persistence of what is known *)

Lemma warm_index_copied_mono h h' i : h `suffix_of` h' -> warm_index_copied h i -> warm_index_copied h' i.
Proof.
  intros [k ->] (plan & volume & destination & q & H1 & H2 & H3 & H4 & H5). exists plan, volume, destination, q.
  split_and!; try done. apply elem_of_app. by right.
Qed.

Lemma sync_backed_mono h h' o : h `suffix_of` h' -> sync_backed h o -> sync_backed h' o.
Proof.
  intros Hs Hb i s Hi Hd. destruct (Hb i s Hi Hd); [by left|right]. by eapply warm_index_copied_mono.
Qed.

Lemma copy_unchanged_put o st : copy_unchanged o -> copy_unchanged (wf_put o st).
Proof.
  intros (H1 & H2 & H3 & H4). destruct (cl_put o st) as (P1 & P2 & _). unfold copy_unchanged.
  by rewrite sl_put_name, sl_put_checkpoints, P1, P2.
Qed.

Lemma copy_unchanged_refl : copy_unchanged o0.
Proof. done. Qed.

Lemma staged_resume_put o st : staged_resume (wf_put o st) = workflowResumePhase st.
Proof. unfold staged_resume. by rewrite wf_get_put. Qed.

Lemma copy_save_unchanged h o : copy_unchanged o -> staged_resume o = staged_resume o0 -> copy_save h o.
Proof. intros Hu He. left. split; [done|by left]. Qed.

(** The volumes of a fresh object are not copied. *)
Lemma start_sync o i s :
  sw_checkpoints o = sw_checkpoints o0 -> cw_sync o = cw_sync o0 -> cw_sync (sw_start o) !! i = Some s -> warm_done s ->
  warm_index_kept i.
Proof.
  intros Hc Hsy Hi Hd. destruct (decide (sw_checkpoints o = [])) as [Hn|Hn].
  - destruct (cl_start o) as (_ & _ & Hs). destruct (Hs s) as [Hin| ->]; [by eapply list_elem_of_lookup_2| |by destruct Hd].
    pose proof (cl_sync_length o) as Hl. rewrite Hn in Hl. apply length_zero_iff_nil in Hl. rewrite Hl in Hin.
    by apply not_elem_of_nil in Hin.
  - rewrite (sl_start_same o Hn), Hsy in Hi. by exists s.
Qed.

(** *** Interrupted attempts *)

Section interrupted.
Context (plan : ScopedCopyPlan) (Hvalid : sw_validateObject o0 = None) (Hplan : cw_plan o0 = Some plan).

Lemma staged_plan_of o : cw_plan o = Some plan -> sw_plan o = Some (staged_plan plan).
Proof. intros Hp. by rewrite cl_plan, Hp. Qed.

Lemma checkpoints_bound o c : sw_validateObject o = None -> cw_plan o = Some plan -> c ∈ sw_checkpoints o -> bound_if_reserved c.
Proof.
  intros Hv Hp Hc. destruct (sl_valid o _ Hv (staged_plan_of o Hp)) as (_ & _ & [Hn|[_ Hf]]).
  - rewrite Hn in Hc. by apply not_elem_of_nil in Hc.
  - rewrite Forall_forall in Hf. by apply Hf.
Qed.

Lemma wp_quiet_then {A B} (p : execOf Obj A) (k : A -> execOf Obj B) Q h :
  mild p -> (forall a h', quiet h h' -> wpx (k a) Q h') -> wpx (p ≫= k) Q h.
Proof. intros Hp Hk. apply wp_bind_2. eapply wp_mono; [apply wp_mild; [apply copy_executor_runner|done]|]. intros a h' _. apply Hk. Qed.

Lemma reads_copy_validate request p volume checkpoint : reads (copy_validateVolume request p volume checkpoint).
Proof.
  unfold copy_validateVolume. apply reads_bind; [done|]. intros [desired|e]; [|done]. apply reads_reservation.
Qed.

Lemma wp_cleanup_interrupted_copy o volume h :
  copy_unchanged o -> volume ∈ volumes_of plan ->
  wpx (cleanup_interrupted_copy config polls o plan volume) (fun _ h' => quiet h h') h.
Proof.
  intros (Hn & _ & Hcs & Hsy) Hin. unfold cleanup_interrupted_copy.
  destruct (checkpointIndexes (sw_checkpoints o) !! planned_name volume) as [i|] eqn:Hi; [|apply quiet_refl].
  rewrite Hcs in *. destruct (volumeIndexes_sound _ _ _ _ Hi) as (c & Hc & Hname).
  eapply wp_or_panic; [exact Hc|]. rewrite Hsy.
  destruct (lookup_lt_is_Some_2 (cw_sync o0) i) as [s Hs]; [rewrite cl_sync_length; by eapply lookup_lt_Some|].
  eapply wp_or_panic; [exact Hs|]. case_test; [apply quiet_refl|]. apply orb_false_iff in Heqb as [Ha _].
  apply Z.eqb_neq in Ha. destruct (cl_valid o0 plan Hvalid Hplan) as (_ & _ & Hatt).
  pose proof (Hatt i c s Hc Hs (or_introl Ha)) as Hres.
  destruct (checkpoints_bound o0 c Hvalid Hplan) as [[destination Hd] _]; [by eapply list_elem_of_lookup_2|done|].
  apply wp_quiet_then; [apply mild_lift; unfold copyDeletionValidationSkip; repeat case_match; [apply reads_skip|..]|].
  1-3: unfold deletionSourceMissing; reads_tac.
  intros [skip|e] h1 Hq1; [|done]. apply wp_quiet_then.
  { destruct skip; [done|]. apply mild_lift, reads_copy_validate. }
  intros [e|] h2 Hq2; [quiet_tac|]. apply wp_serve; [by apply copy_executor_runner|].
  intros [e|]; [quiet_tac|]. eapply wp_or_panic; [exact Hd|].
  eapply wp_mono; [eapply (wp_cleanupCopyToolPods _ copy_executor_runner)|].
  - intros h' r _ Hdel _. left. exists plan, volume, destination, (cps_Attempts s).
    split_and!; [done|done|by eapply cl_destination|]. unfold warm_cleanup_request in Hdel. cbn in Hdel. by rewrite Hn in Hdel.
  - intros r h3 _ [Hq3 _]. eapply quiet_trans; [|exact Hq3]. quiet_tac.
Qed.

Lemma wp_cleanup_interrupted_copies o volumes h :
  copy_unchanged o -> (forall v, v ∈ volumes -> v ∈ volumes_of plan) ->
  wpx (cleanup_interrupted_copies config polls o plan volumes) (fun _ h' => quiet h h') h.
Proof.
  intros Hu. revert h. induction volumes as [|v volumes IH]; intros h Hsub; [apply quiet_refl|].
  cbn [cleanup_interrupted_copies]. apply wp_check.
  eapply wp_mono; [apply wp_cleanup_interrupted_copy; [done|apply Hsub; left]|].
  intros [e|] h1 _ Hq1; [done|]. eapply wp_mono; [apply IH; intros v' Hv; apply Hsub; by right|].
  intros e h2 _ Hq2. by eapply quiet_trans.
Qed.

Lemma wp_cleanupInterrupted o h :
  copy_unchanged o -> wpx (cleanupInterrupted config polls o) (fun _ h' => quiet h h') h.
Proof.
  intros Hu. unfold cleanupInterrupted. eapply wp_or_panic; [destruct Hu as (_ & -> & _); exact Hplan|].
  by apply wp_cleanup_interrupted_copies.
Qed.
End interrupted.

(** *** The copies *)

Section warm.
Context (plan : ScopedCopyPlan) (o1 : Obj) (h1 : xtrace).
Context (Hplan0 : cw_plan o0 = Some plan) (Hvalid : sw_validateObject o1 = None) (Hplan : cw_plan o1 = Some plan).
Context (Hnames : map rs_SourcePVCName (sw_checkpoints o1) = map rs_SourcePVCName start).
Context (Hnonempty : sw_checkpoints o1 <> []) (Hreserved : Forall (fun c => rs_Reserved c = true) (sw_checkpoints o1)).
Context (Hsound : staged_sound (sw_Name o0) (image plan) (staged_plan plan) start h1 o1).

Definition warm_frame o : Prop :=
  sw_Name o = sw_Name o0 /\ cw_plan o = Some plan /\ sw_checkpoints o = sw_checkpoints o1 /\
  cw_SourceNode o = cw_SourceNode o1.

(** The invariant of the loop: [done] are the indexes copied so far. *)
Definition warm_inv (done : list nat) o h : Prop :=
  warm_frame o /\ sync_backed h o /\ staged_resume o = PhaseWarmCopying /\
  entered (sw_Name o0) (staged_plan plan) PhaseWarmCopying h /\ settled h /\ h1 `suffix_of` h /\
  forall i, i ∈ done -> exists s, cw_sync o !! i = Some s /\ warm_done s.

Definition warm_finished (r : outcome) h : Prop :=
  r.2 = None -> copy_backed plan h r.1 /\ staged_resume r.1 = PhaseWarmCopied /\ Forall warm_done (cw_sync r.1) /\
    Ev (XSave r.1) None ∈ h.

Lemma warm_indexes : checkpointIndexes (sw_checkpoints o1) = indexes.
Proof. by apply checkpointIndexes_names. Qed.

Lemma warm_checkpoint volume :
  volume ∈ volumes_of plan ->
  exists c destination, sw_checkpoints o1 !! index_of indexes volume = Some c /\ rs_Reserved c = true /\
    bound_if_reserved c /\ rs_DestinationPVC c = Some destination /\ planned_destination plan volume destination.
Proof.
  intros Hin. destruct (start_checkpoint o1 _ Hvalid (staged_plan_of plan o1 Hplan) volume Hin) as (c & Hc & _).
  rewrite (sl_start_same o1 Hnonempty) in Hc.
  destruct (proj2 (volumeIndexes_is_Some rs_SourcePVCName (sw_checkpoints o1) (planned_name volume))) as [i Hi].
  { rewrite <- (sl_start_same o1 Hnonempty), (start_names o1 _ Hvalid (staged_plan_of plan o1 Hplan)). by apply list_elem_of_fmap_2. }
  assert (index_of (checkpointIndexes (sw_checkpoints o1)) volume = i) as Hidx by (unfold index_of, checkpointIndexes; by rewrite Hi).
  rewrite Hidx in Hc. rewrite <- warm_indexes, Hidx.
  pose proof (Forall_lookup_1 _ _ _ _ Hreserved Hc) as Hr.
  pose proof (checkpoints_bound plan o1 c Hvalid Hplan (list_elem_of_lookup_2 _ _ _ Hc)) as Hb.
  destruct (Hb Hr) as [[destination Hd] _]. exists c, destination. split_and!; try done. by eapply cl_destination.
Qed.

(** Every index of a checkpoint is that of a planned volume. *)
Lemma warm_index_planned i c :
  sw_checkpoints o1 !! i = Some c -> exists volume, volume ∈ volumes_of plan /\ index_of indexes volume = i.
Proof.
  intros Hi. rewrite <- warm_indexes.
  eapply (index_planned (staged_plan plan) (sw_checkpoints o1)); [..|exact Hi].
  - rewrite <- (sl_start_same o1 Hnonempty). apply (start_names o1 _ Hvalid (staged_plan_of plan o1 Hplan)).
  - by apply (sl_valid o1 _ Hvalid (staged_plan_of plan o1 Hplan)).
Qed.

Lemma warm_frame_backed o h :
  warm_frame o -> sync_backed h o -> h1 `suffix_of` h -> copy_backed plan h o.
Proof.
  intros (Hn & Hp & Hc & _) Hs Hsuf. split_and!; [done| |done]. destruct Hsound as (_ & _ & Hlen & Hck).
  split_and!; [done|by apply staged_plan_of|by rewrite Hc|]. intros i c. rewrite Hc. intros Hi Hr.
  destruct (Hck i c Hi Hr); [by left|right]. by eapply produced_mono.
Qed.

Lemma warm_frame_put o st : warm_frame o -> warm_frame (wf_put o st).
Proof.
  intros (H1 & H2 & H3 & H4). destruct (cl_put o st) as (P1 & _ & P3). unfold warm_frame.
  by rewrite sl_put_name, sl_put_checkpoints, P1, P3.
Qed.

Lemma warm_frame_sync o i f : warm_frame o -> warm_frame (cw_set_sync o i f).
Proof.
  intros (H1 & H2 & H3 & H4). destruct (cl_set_sync o i f) as (_ & P2 & P3 & P4 & P5 & _). unfold warm_frame.
  by rewrite P2, P3, P4, P5.
Qed.

Lemma sync_backed_put h o st : sync_backed h o -> sync_backed h (wf_put o st).
Proof. intros Hs. unfold sync_backed. by destruct (cl_put o st) as (_ & -> & _). Qed.

(** An update of one volume that does not mark it as copied without a copy. *)
Lemma sync_backed_set h o i f :
  sync_backed h o -> (forall s, warm_done (f s) -> warm_done s \/ warm_index_copied h i) ->
  sync_backed h (cw_set_sync o i f).
Proof.
  intros Hs Hf j s. destruct (cl_set_sync o i f) as (_ & _ & _ & _ & _ & ->). destruct (decide (j = i)) as [->|Hne].
  - rewrite list_lookup_alter_eq. destruct (cw_sync o !! i) as [s0|] eqn:Hi; [|done]. intros [= <-] Hd.
    destruct (Hf s0 Hd) as [?|?]; [by eapply Hs|by right].
  - rewrite list_lookup_alter_ne by done. apply Hs.
Qed.

Lemma sync_resume o i f : staged_resume (cw_set_sync o i f) = staged_resume o.
Proof. unfold staged_resume. by destruct (cl_set_sync o i f) as (-> & _). Qed.

Lemma warm_save_mid h o :
  warm_frame o -> sync_backed h o -> h1 `suffix_of` h -> staged_resume o = PhaseWarmCopying -> copy_save h o.
Proof.
  intros Hf Hs Hsuf He. right. exists plan. split_and!; [done|by apply warm_frame_backed|]. right. right. by left.
Qed.

Lemma wp_warm_fail o e h :
  warm_frame o -> sync_backed h o -> h1 `suffix_of` h -> staged_resume o = PhaseWarmCopying ->
  wpx (staged_fail o e) warm_finished h.
Proof.
  intros Hf Hs Hsuf He. apply wp_from, wp_staged_fail.
  - intros h' r Hw Hp _. by apply copy_executor_runner.
  - done.
  - intros st h' Hst Hs'. apply warm_save_mid; [by apply warm_frame_put|apply sync_backed_put; by eapply sync_backed_mono|
      by etrans|]. by rewrite staged_resume_put, Hst.
  - by intros o' e' h' _.
Qed.

(** *** One volume *)

Lemma wp_validate_warm o volume c :
  warm_frame o -> rs_Reserved c = true -> bound_if_reserved c ->
  wp read_only (validate_warm_attempt config o plan volume c) (on_ok (transfer_ready plan volume c (cw_SourceNode o1))) [].
Proof.
  intros (Hn & _ & _ & Hnode) Hr Hb. unfold validate_warm_attempt, validateConsumers. apply wp_check, wp_bind_2, wp_call;
    [apply read_only_reads|done|done|].
  intros [[pods|]|e]; [|done|done]. apply wp_Ret. destruct (validateCopyConsumersFromPods _ _ _ _ _ _) as [n|e] eqn:Hc; [|done].
  eapply wp_mono; [apply wp_copy_validateVolume|]. intros e h' Hs' Hok He. destruct (Hok He) as [Hsv Hdv].
  unfold copy_request, staged_request in Hsv. cbn [SessionID] in Hsv. rewrite Hn in Hsv.
  split_and!; [|done|by apply Hdv]. exists pods. split.
  - destruct Hs' as [k ->]. apply elem_of_app. right. left.
  - rewrite <- Hnode. by eapply copy_consumers_fit.
Qed.

Lemma transfer_retries_warm : (0 < vc_Retries transfer)%Z.
Proof. cbn. destruct (Z.leb_spec (vc_Retries (xc_Transfer given)) 0); lia. Qed.

Lemma mild_shared pv : mild (Obj := Obj) (sharedSource config pv).
Proof. unfold sharedSource. mild_tac. Qed.

Lemma warm_request_name o volume destination :
  sw_Name o = sw_Name o0 -> warm_request o plan volume destination = warm_request o0 plan volume destination.
Proof. intros Hn. unfold warm_request. by rewrite Hn. Qed.

Lemma touched_frame o o' i :
  touched (warm_cursor i) o o' ->
  (warm_frame o -> warm_frame o') /\ (forall h, sync_backed h o -> sync_backed h o') /\ staged_resume o' = staged_resume o.
Proof.
  intros [->|(a & e & ->)]; [done|]. cbn. split_and!.
  - apply warm_frame_sync.
  - intros h Hs. apply sync_backed_set; [done|]. intros s Hd. by left.
  - apply sync_resume.
Qed.

(** The runner on one volume: what it saves is sound, and its success is a copy of this
    pair whose tools are gone. *)
Lemma wp_warm_runner done o volume c destination s probes h :
  warm_inv done o h -> volume ∈ volumes_of plan ->
  sw_checkpoints o1 !! index_of indexes volume = Some c -> rs_Reserved c = true -> bound_if_reserved c ->
  rs_DestinationPVC c = Some destination -> planned_destination plan volume destination ->
  cw_sync o !! index_of indexes volume = Some s -> ~ warm_done s ->
  wpx (copyWithRetry transfer steps polls (warm_cursor (index_of indexes volume)) ""
         (fun o' => lift (validate_warm_attempt config o' plan volume c)) (warm_mount config volume)
         (warm_request o plan volume destination) (cw_SourceNode o) (cyp_TargetNode (scp_Plan plan)) probes o)
    (fun r h' => touched (warm_cursor (index_of indexes volume)) o r.1 /\ h `suffix_of` h' /\
       (r.2 = None -> warm_index_copied h' (index_of indexes volume) /\ settled h')) h.
Proof.
  intros (Hf & Hs & He & Hent & Hset & Hsuf1 & _) Hin Hc Hr Hb Hd Hpd Hsync Hnd. set (i := index_of indexes volume) in *.
  rewrite (warm_request_name o) by apply Hf. apply wp_extends, wp_from.
  eapply wp_mono; [eapply (wp_copyWithRetry (fun h' r => h `suffix_of` h' -> copy_executor_guard h' r)
    (warm_runner_from h) transfer polls (warm_cursor i) ""
    (fun o' => validate_warm_attempt config o' plan volume c) (transfer_ready plan volume c (cw_SourceNode o1))
    (warm_mount config volume) (warm_request o0 plan volume destination) o)|].
  - intros o' a e a' e'. cbn. by apply cl_set_set.
  - intros o' Ht. apply wp_validate_warm; [|done|done]. by apply (touched_frame o o' i Ht).
  - unfold warm_mount. apply mild_bind; [apply mild_shared|]. by intros [m|e].
  - intros h' q Hok Hsuf. exists plan, volume, o, c, s, destination.
    assert (cw_SourceNode o = cw_SourceNode o1) as -> by apply Hf.
    assert (sw_checkpoints o = sw_checkpoints o1) as -> by apply Hf.
    split_and!; try done. by eapply stage_entered_mono.
  - intros h' a e Hsuf. destruct (touched_frame o _ i (or_intror (ex_intro _ a (ex_intro _ e eq_refl)))) as (F1 & F2 & F3).
    apply warm_save_mid; [by apply F1|apply F2; by eapply sync_backed_mono|by etrans|by rewrite F3].
  - intros h' q x r (values & m & Hq) Hl Hdel Hsuf _. left.
    exists plan, volume, destination, (ai_Attempt (cq_Identity q)). split_and!; try done. rewrite Hq in Hdel. exact Hdel.
  - apply transfer_retries_warm.
  - done.
  - intros r h' Hsuf [Ht Hcp] _. split_and!; [done|done|]. intros Hn.
    destruct (Hcp Hn) as (q & e & Hl & Hrel & Hsh & _). split.
    + exists plan, volume, destination, q. split_and!; try done. by apply last_copy_elem.
    + intros q' x. rewrite Hl. by intros [= <- <-].
Qed.

(** *** The loop *)

Lemma warm_inv_quiet done o h h' : quiet h h' -> warm_inv done o h -> warm_inv done o h'.
Proof.
  intros Hq (H1 & H2 & H3 & H4 & H5 & H6 & H7). pose proof (quiet_suffix _ _ Hq) as Hs.
  split_and!; [done|by eapply sync_backed_mono|done|by eapply stage_entered_mono|by eapply settled_quiet|by etrans|done].
Qed.

Lemma warm_inv_keep done o h i s :
  warm_inv done o h -> cw_sync o !! i = Some s -> warm_done s -> warm_inv (i :: done) o h.
Proof.
  intros (H1 & H2 & H3 & H4 & H5 & H6 & Hd) Hi Hc. split_and!; try done.
  intros j [->|Hj]%elem_of_cons; [by exists s|by apply Hd].
Qed.

Lemma warm_inv_touched done o o' h h' i :
  warm_inv done o h -> touched (warm_cursor i) o o' -> h `suffix_of` h' -> settled h' -> warm_inv done o' h'.
Proof.
  intros (Hf & Hs & He & Hent & _ & Hsuf1 & Hd) Ht Hsuf Hset.
  destruct (touched_frame o o' i Ht) as (F1 & F2 & F3).
  split_and!; [by apply F1|apply F2; by eapply sync_backed_mono|by rewrite F3|by eapply stage_entered_mono|done|by etrans|].
  intros j Hj. destruct (Hd j Hj) as (s & Hs' & Hsd). destruct Ht as [->|(a & e & ->)]; [by exists s|].
  cbn. destruct (cl_set_sync o i (fun s => {| cps_WarmCompletedAt := cps_WarmCompletedAt s; cps_Attempts := a;
    cps_BytesCopied := cps_BytesCopied s; cps_LastError := e |})) as (_ & _ & _ & _ & _ & ->).
  destruct (decide (j = i)) as [->|Hne].
  - rewrite list_lookup_alter_eq, Hs'. by eexists.
  - rewrite list_lookup_alter_ne by done. by exists s.
Qed.

(** A volume recorded as copied. *)
Lemma warm_inv_step done o h t i :
  warm_inv done o h -> is_Some (cw_sync o !! i) -> warm_index_copied h i ->
  warm_inv (i :: done) (cw_set_sync o i (warm_copied t)) h.
Proof.
  intros (Hf & Hs & He & Hent & Hset & Hsuf & Hd) [s Hi] Hc.
  split_and!; [by apply warm_frame_sync|apply sync_backed_set; [done|by right]|by rewrite sync_resume|done|done|done|].
  intros j Hj. destruct (cl_set_sync o i (warm_copied t)) as (_ & _ & _ & _ & _ & ->).
  destruct (decide (j = i)) as [->|Hne].
  - rewrite list_lookup_alter_eq, Hi. cbn. eexists. split; [done|]. by eexists.
  - rewrite list_lookup_alter_ne by done. apply elem_of_cons in Hj as [?|Hj]; [done|]. by apply Hd.
Qed.

Lemma touched_sync o o' i j s : touched (warm_cursor i) o o' -> cw_sync o !! j = Some s -> is_Some (cw_sync o' !! j).
Proof.
  intros [->|(a & e & ->)] Hj; [by eexists|]. cbn.
  destruct (cl_set_sync o i (fun s => {| cps_WarmCompletedAt := cps_WarmCompletedAt s; cps_Attempts := a;
    cps_BytesCopied := cps_BytesCopied s; cps_LastError := e |})) as (_ & _ & _ & _ & _ & ->).
  apply lookup_lt_is_Some_2. rewrite length_alter. by eapply lookup_lt_Some.
Qed.

Lemma wp_copy_volume done probes volume k o h :
  warm_inv done o h -> volume ∈ volumes_of plan ->
  (forall o' h', warm_inv (index_of indexes volume :: done) o' h' -> wpx (k o') warm_finished h') ->
  wpx (copy_volume config steps polls plan indexes probes volume k o) warm_finished h.
Proof.
  intros Hinv Hin Hk. unfold copy_volume. apply wp_check_x.
  eapply wp_mono; [apply wp_mild; [apply copy_executor_runner|unfold checkpoint_fence; mild_tac]|].
  intros [e|] h2 _ Hq2; [done|]. pose proof (warm_inv_quiet _ _ _ _ Hq2 Hinv) as Hinv2. clear Hinv Hq2. cbv zeta.
  destruct (warm_checkpoint volume Hin) as (c & destination & Hc & Hr & Hb & Hd & Hpd).
  pose proof Hinv2 as (Hf & _). assert (sw_checkpoints o = sw_checkpoints o1) as Hcs by apply Hf.
  eapply wp_or_panic; [by rewrite Hcs|].
  destruct (lookup_lt_is_Some_2 (cw_sync o) (index_of indexes volume)) as [s Hs].
  { rewrite cl_sync_length, Hcs. by eapply lookup_lt_Some. }
  eapply wp_or_panic; [exact Hs|]. destruct (cps_WarmCompletedAt s) as [t|] eqn:Hwc; cbn [missing negb].
  { apply Hk. eapply warm_inv_keep; [done|exact Hs|]. unfold warm_done. by rewrite Hwc. }
  eapply wp_or_panic; [exact Hd|]. apply wp_bind_2.
  eapply wp_mono; [eapply wp_warm_runner; try done; unfold warm_done; rewrite Hwc; by intros [? ?]|].
  intros [o2 [e|]] h3 Hs3 (Ht & _ & Hok); cbn [fst snd] in *.
  { destruct (touched_frame o o2 _ Ht) as (F1 & F2 & F3). destruct Hinv2 as (I1 & I2 & I3 & _ & _ & I6 & _).
    apply wp_warm_fail; [by apply F1|apply F2; by eapply sync_backed_mono|by etrans|by rewrite F3]. }
  destruct (Hok eq_refl) as [Hcopied Hset3].
  pose proof (warm_inv_touched _ _ _ _ _ _ Hinv2 Ht Hs3 Hset3) as Hinv3.
  apply wp_ask; [by apply copy_executor_runner|]. intros t. set (h4 := Ev _ _ :: h3).
  assert (quiet h3 h4) as Hq4 by (unfold h4; quiet_tac).
  assert (forall h', quiet h3 h' -> warm_inv (index_of indexes volume :: done)
    (cw_set_sync o2 (index_of indexes volume) (warm_copied t)) h') as Hstep.
  { intros h' Hq'. apply warm_inv_step; [by eapply warm_inv_quiet|by eapply touched_sync|].
    eapply warm_index_copied_mono; [|exact Hcopied]. by apply quiet_suffix. }
  apply wp_bind_2. unfold checkpointWarmCopy. apply wp_bind_2, wp_from, wp_persist_exact.
  - apply warm_runner_from.
  - intros h' Hsuf. destruct (Hstep h4 Hq4) as (S1 & S2 & S3 & _ & _ & S6 & _).
    apply warm_save_mid; [done|by eapply sync_backed_mono|by etrans|done].
  - intros e h' _. apply wp_Ret. done.
  - apply wp_Ret. cbv beta iota. apply Hk, Hstep. unfold h4. quiet_tac.
Qed.

Lemma wp_copy_volumes probes volumes done o h :
  warm_inv done o h -> (forall v, v ∈ volumes -> v ∈ volumes_of plan) ->
  (forall v, v ∈ volumes_of plan -> index_of indexes v ∈ done \/ v ∈ volumes) ->
  wpx (copy_volumes config steps polls plan indexes probes volumes o) warm_finished h.
Proof.
  revert done o h. induction volumes as [|volume volumes IH]; intros done o h Hinv Hsub Hall.
  - pose proof Hinv as (Hf & Hs & _ & _ & _ & Hsuf1 & Hd).
    assert (Forall warm_done (cw_sync o)) as Hfin.
    { apply Forall_lookup_2. intros i s Hi.
      destruct (lookup_lt_is_Some_2 (sw_checkpoints o) i) as [c Hc].
      { rewrite <- cl_sync_length. by eapply lookup_lt_Some. }
      assert (sw_checkpoints o = sw_checkpoints o1) as Hcs by apply Hf. rewrite Hcs in Hc.
      destruct (warm_index_planned i c Hc) as (v & Hv & <-). destruct (Hall v Hv) as [Hdn|Hn]; [|by apply not_elem_of_nil in Hn].
      destruct (Hd _ Hdn) as (s' & Hs' & Hsd). congruence. }
    assert (forall st h', h `suffix_of` h' -> workflowResumePhase st = PhaseWarmCopied ->
      copy_backed plan h' (wf_put o st) /\ staged_resume (wf_put o st) = PhaseWarmCopied /\
      Forall warm_done (cw_sync (wf_put o st))) as Hput.
    { intros st h' Hsuf Hst. split_and!.
      - apply warm_frame_backed; [by apply warm_frame_put|apply sync_backed_put; by eapply sync_backed_mono|by etrans].
      - by rewrite staged_resume_put.
      - by destruct (cl_put o st) as (_ & -> & _). }
    apply wp_from, wp_staged_transition.
    + intros h' r Hw Hp _. by apply copy_executor_runner.
    + done.
    + intros st h' _ Hst Hsuf. destruct (Hput st h' Hsuf Hst) as (P1 & P2 & P3). right. exists plan.
      split_and!; [done|done|]. right. right. by right.
    + intros st h' Hsuf Hst Hev _. destruct (Hput st h' Hsuf Hst) as (P1 & P2 & P3). by split_and!.
    + done.
  - cbn [copy_volumes]. apply (wp_copy_volume done); [done|apply Hsub; left|].
    intros o' h' Hinv'. apply (IH (index_of indexes volume :: done)); [done|..].
    + intros v Hv. apply Hsub. by right.
    + intros v Hv. destruct (Hall v Hv) as [?|[->|?]%elem_of_cons]; [left; by right|left; left|by right].
Qed.
End warm.

(** *** The whole run *)

(** The object when the copies are about to start: as given, or with every destination
    reserved. *)
Definition copy_base (plan : ScopedCopyPlan) o h : Prop :=
  cw_plan o = Some plan /\
  ((copy_unchanged o /\ staged_resume o = staged_resume o0) \/
   (copy_backed plan h o /\ staged_resume o = PhaseReserved /\ all_reserved o)).

Section planned.
Context (plan : ScopedCopyPlan) (Hvalid0 : sw_validateObject o0 = None) (Hplan0 : cw_plan o0 = Some plan).
Notation sp := (staged_plan plan).

Lemma copy_base_mono o h h' : h `suffix_of` h' -> copy_base plan o h -> copy_base plan o h'.
Proof.
  intros Hs [Hp [Hu|((H1 & H2 & H3) & H4 & H5)]]; (split; [done|]); [by left|right].
  split; [|done]. split; [done|]. split; [by eapply staged_sound_mono|by eapply sync_backed_mono].
Qed.

Lemma copy_base_save o h st :
  copy_base plan o h -> workflowResumePhase st = staged_resume o -> copy_save h (wf_put o st).
Proof.
  intros [Hp [[Hu He]|((H1 & H2 & H3) & H4 & H5)]] Hst.
  - apply copy_save_unchanged; [by apply copy_unchanged_put|]. by rewrite staged_resume_put, Hst.
  - right. exists plan. split; [done|]. split.
    + split_and!; [by destruct (cl_put o st) as (-> & _)|by apply staged_sound_put|by apply sync_backed_put].
    + right. left. split; [by rewrite staged_resume_put, Hst|]. unfold all_reserved. by rewrite sl_put_checkpoints.
Qed.

(** What validity and the phase say of such an object. *)
Lemma copy_base_facts o h :
  copy_base plan o h -> sw_validateObject o = None -> requires_reserved (workflowResumePhase (wf_get o)) = true ->
  sw_checkpoints o <> [] /\ Forall (fun c => rs_Reserved c = true) (sw_checkpoints o) /\
  map rs_SourcePVCName (sw_checkpoints o) = map rs_SourcePVCName start /\
  staged_sound (sw_Name o0) (image plan) sp start h o /\ sync_backed h o.
Proof.
  intros [Hp Hb] Hv Hr. destruct (cl_valid o plan Hv Hp) as (Hres & _). destruct (Hres Hr) as [Hne Hall].
  destruct Hb as [[(H1 & H2 & H3 & H4) _]|((_ & H2 & H3) & _ & H5)].
  - assert (sw_start o0 = o0) as Hst by (apply sl_start_same; by rewrite <- H3).
    split_and!; [done|done|by rewrite Hst, H3| |].
    + split_and!; [done|by apply staged_plan_of|by rewrite Hst, H3|]. intros i c Hi _. left. by rewrite Hst, <- H3.
    + intros i s Hi Hd. left. exists s. by rewrite <- H4.
  - split_and!; [done|done| |done|done].
    eapply sound_names; [apply (start_names o0 sp Hvalid0 (staged_plan_of plan o0 Hplan0))|exact H2|done].
Qed.

Lemma wp_base_fail o e h (Q : outcome -> xtrace -> Prop) :
  copy_base plan o h -> (forall o' e' h', Q (o', Some e') h') -> wpx (staged_fail o e) Q h.
Proof.
  intros Hb HQ. apply wp_from, wp_staged_fail.
  - intros h' r Hw Hp _. by apply copy_executor_runner.
  - done.
  - intros st h' Hst Hs. apply copy_base_save; [by eapply copy_base_mono|done].
  - intros o' e' h' _. apply HQ.
Qed.

Lemma mild_targets node volumes : mild (Obj := Obj) (volume_targets config plan node volumes).
Proof.
  induction volumes as [|v volumes IH]; [done|]. cbn [volume_targets]. apply mild_bind; [apply mild_shared|].
  intros [m|e]; [|done]. cbv zeta. apply mild_bind; [done|]. by intros [x|e].
Qed.

Lemma mild_probe id img targets : mild (Obj := Obj) (copy_probe config id img targets).
Proof. unfold copy_probe. mild_tac. Qed.

Lemma wp_copyVolumes o h :
  copy_base plan o h -> quiet [] h -> wpx (copyVolumes config steps polls o) (warm_finished plan) h.
Proof.
  intros Hb Hq0. unfold copyVolumes. apply wp_check_x. destruct (sw_validateObject o) as [e|] eqn:Hv; [done|].
  pose proof Hb as [Hp _]. eapply wp_or_panic; [exact Hp|]. apply wp_quiet_then.
  { unfold probeTargets. cbv zeta. apply mild_bind; [apply mild_targets|]. by intros [x|e]. }
  intros [targets|e] h1 Hq1; pose proof (copy_base_mono _ _ _ (quiet_suffix _ _ Hq1) Hb) as Hb1; [|by apply wp_base_fail].
  apply wp_quiet_then; [apply mild_probe|].
  intros [probes|e] h2 Hq2; pose proof (copy_base_mono _ _ _ (quiet_suffix _ _ Hq2) Hb1) as Hb2; [|by apply wp_base_fail].
  destruct (sw_validateTransition o PhaseWarmCopying) as [e|] eqn:Ht.
  { apply wp_bind_2. unfold staged_transition. rewrite Ht. done. }
  destruct (copy_base_facts _ _ Hb2 Hv (cl_transition o Ht)) as (Hne & Hall & Hnames & Hsound & Hsync).
  assert (sw_Name o = sw_Name o0) as Hname by apply Hsound.
  assert (forall st, workflowResumePhase st = PhaseWarmCopying -> warm_frame plan o (wf_put o st)) as Hframe.
  { intros st _. destruct (cl_put o st) as (P1 & _ & P3). unfold warm_frame.
    by rewrite sl_put_name, sl_put_checkpoints, P1, P3. }
  apply wp_bind_2.
  eapply wp_mono; [apply (wp_no_copy _ _ (fun r h' => r.2 = None -> h2 `suffix_of` h' /\ exists st, r.1 = wf_put o st /\
    workflowResumePhase st = PhaseWarmCopying /\ Ev (XSave r.1) None ∈ h'));
    [apply no_copy_staged_transition|apply wp_from, wp_staged_transition]|].
  { intros h' r Hw Hpr _. by apply copy_executor_runner. } { done. }
  { intros st h' _ Hst Hs. eapply (warm_save_mid plan o h2); [done|exact Hsound|by apply Hframe| |done|].
    - apply sync_backed_put. by eapply sync_backed_mono.
    - by rewrite staged_resume_put. }
  { intros st h' Hs Hst Hev _. split; [done|]. by exists st. }
  { done. }
  intros [o2 [e|]] h3 _ [HQ Hq3]; [done|]. cbn [fst snd] in *. destruct (HQ eq_refl) as (Hs3 & st & -> & Hst & Hev).
  rewrite sl_put_checkpoints, (checkpointIndexes_names _ start) by done.
  eapply (wp_copy_volumes plan o h2 Hplan0 Hv Hp Hnames Hne Hall Hsound probes _ []); [|done|by right].
  split_and!; [by apply Hframe|apply sync_backed_put; by eapply sync_backed_mono|by rewrite staged_resume_put| | |done|
    by intros i Hi%not_elem_of_nil].
  - exists (wf_put o st). split_and!; [done|by rewrite staged_resume_put|by rewrite sl_put_name|].
    rewrite sl_put_plan. by apply staged_plan_of.
  - assert (quiet [] h3) as Hq by (eapply quiet_trans; [exact Hq0|]; eapply quiet_trans; [exact Hq1|]; by eapply quiet_trans).
    intros q x Hl. by rewrite (quiet_last _ _ Hq) in Hl.
Qed.

(** *** Reservation *)

Lemma wp_copy_reserve o h :
  copy_unchanged o -> staged_resume o = staged_resume o0 ->
  wpx (copy_reserve config reserver plan o) (fun r h' => quiet h h' /\ (r.2 = None -> copy_base plan r.1 h')) h.
Proof.
  intros Hu He. pose proof Hu as (Hn & Hp & Hc & Hsy). rewrite Hplan0 in Hp.
  assert (sw_plan o = Some sp) as Hsp by (by apply staged_plan_of).
  pose proof (staged_plan_of plan o0 Hplan0) as Hsp0.
  assert (sw_checkpoints (sw_start o) = start) as Hstart.
  { rewrite (sl_start_checkpoints o sp Hsp), (sl_start_checkpoints o0 sp Hsp0). by rewrite Hc. }
  assert (forall h', wpx (staged_reserve reserver (image plan) sp o)
    (fun r h'' => quiet h' h'' /\ (r.2 = None -> copy_base plan r.1 h'')) h') as Hres.
  { intros h'. set (K := fun o' => cw_plan o' = Some plan /\ forall i s, cw_sync o' !! i = Some s -> warm_done s -> warm_index_kept i).
    eapply wp_mono; [apply (wp_no_copy _ _ (reserve_done (sw_Name o0) (image plan) sp start K) _ (no_copy_staged_reserve _ _ _ _));
      apply (wp_staged_reserve reserver (sw_Name o0) (image plan) sp start (start_names o0 sp Hvalid0 Hsp0)
        (proj1 (sl_valid o0 sp Hvalid0 Hsp0)) K)|].
    - intros o' st [K1 K2]. destruct (cl_put o' st) as (P1 & P2 & _). unfold K. by rewrite P1, P2.
    - intros o' i st o'' [K1 K2] Hrec. destruct (cl_record _ _ _ _ Hrec) as (P1 & P2 & _). unfold K. by rewrite P1, P2.
    - intros h'' r Hw Hpr. by apply copy_executor_runner.
    - done.
    - intros h'' q Hq. by apply copy_executor_runner.
    - intros h'' o' [Hs Hph] [K1 K2]. right. exists plan. split; [done|]. split.
      + split_and!; [done|done|]. intros i s Hi Hd. left. by eapply K2.
      + destruct Hph as [?|?]; [by left|right; by left].
    - intros h'' r Hw _. right. by exists plan.
    - done.
    - done.
    - done.
    - destruct (cl_start o) as (P1 & _ & _). split; [by rewrite P1|]. intros i s. by apply start_sync.
    - intros r h'' _ [Hd Hq]. split; [done|]. intros Hr. destruct (Hd Hr) as (D1 & [K1 K2] & D3 & D4 & _).
      split; [done|]. right. split; [|done]. split; [done|]. split; [done|]. intros i s Hi Hsd. left. by eapply K2. }
  unfold copy_reserve. cbv zeta. case_test; [|apply Hres]. apply wp_quiet_then; [apply mild_probe|].
  intros [x|e] h1 Hq1.
  - eapply wp_mono; [apply Hres|]. intros r h2 _ [Hq2 Hr]. split; [by eapply quiet_trans|done].
  - eapply wp_mono; [apply (wp_no_copy _ _ (fun r _ => r.2 <> None) _ (no_copy_staged_fail _ _)), wp_base_fail; [|done]|].
    + split; [done|]. by left.
    + intros r h2 _ [Hr Hq2]. split; [by eapply quiet_trans|]. intros Hn2. by destruct (Hr Hn2).
Qed.
End planned.

(** What a success means: there was nothing to do, an abort was completed, or every
    volume is copied and the object that says so was saved. *)
Definition copy_done (r : outcome) h : Prop :=
  r.2 = None ->
  (r.1 = o0 /\ (staged_resume o0 = PhaseAborted \/ staged_resume o0 = PhaseWarmCopied)) \/
  (staged_resume o0 = PhaseAborting /\ (r.1 = o0 \/ staged_resume r.1 = PhaseAborted)) \/
  exists plan, cw_plan o0 = Some plan /\ warm_finished plan r h.

Lemma copy_abort_save st o h :
  staged_resume o0 = PhaseAborting -> copy_unchanged o ->
  workflowResumePhase st = PhaseAborting \/ workflowResumePhase st = PhaseAborted -> copy_save h (wf_put o st).
Proof.
  intros Hab Hu Hst. left. split; [by apply copy_unchanged_put|]. right. split; [done|]. by rewrite staged_resume_put.
Qed.

Lemma wp_copy_aborted o message h :
  staged_resume o0 = PhaseAborting -> copy_unchanged o ->
  wpx (staged_transition false o PhaseAborted message) copy_done h.
Proof.
  intros Hab Hu. apply wp_staged_transition.
  - intros h' r Hw Hp. by apply copy_executor_runner.
  - done.
  - intros st h' _ Hst. apply copy_abort_save; [done|done|by right].
  - intros st h' _ Hst _ _. right. left. split; [done|]. right. cbn [fst]. by rewrite staged_resume_put.
  - done.
Qed.

Lemma wp_copy_abort h :
  sw_validateObject o0 = None -> staged_resume o0 = PhaseAborting -> wpx (copy_abort config polls o0) copy_done h.
Proof.
  intros Hv Hab. unfold copy_abort. case_test; [apply wp_Ret; intros _; right; left; split; [done|by left]|].
  case_test; [by apply wp_copy_aborted|]. apply negb_false_iff, bool_decide_eq_true in Heqb0 as [p Hp].
  rewrite cl_plan in Hp. destruct (cw_plan o0) as [plan|] eqn:Hplan; [|done]. apply wp_bind_2.
  eapply wp_mono with (Q := fun r _ => r.2 = None -> copy_unchanged r.1).
  { apply wp_staged_transition.
    - intros h' r Hw Hpr. by apply copy_executor_runner.
    - done.
    - intros st h' _ Hst. apply copy_abort_save; [done|apply copy_unchanged_refl|by left].
    - intros st h' _ _ _ _. apply copy_unchanged_put, copy_unchanged_refl.
    - done. }
  intros [o [e|]] h1 _ Hr; [done|]. cbn [fst snd] in *. specialize (Hr eq_refl). apply wp_check_x.
  eapply wp_mono; [by apply (wp_cleanupInterrupted plan)|]. intros [e|] h2 _ _; [done|]. by apply wp_copy_aborted.
Qed.

Lemma mild_stored request p online pods checkpoints volumes node :
  mild (Obj := Obj) (validate_stored_volumes config request p online pods checkpoints volumes node).
Proof.
  revert node. induction volumes as [|v volumes IH]; intros node; [done|]. cbn [validate_stored_volumes].
  apply mild_bind; [done|]. intros [n|e]; [|done]. cbv zeta. apply mild_bind; [|intros [e|]; [done|apply IH]].
  unfold validate_stored_volume. cbv zeta. apply mild_bind; [apply mild_shrink|]. intros [e|]; [done|].
  apply mild_bind; [apply mild_lift, reads_copy_validate|]. intros [e|]; [done|].
  case_test; [|done]. apply mild_bind; [apply mild_shared|]. by intros [m|e].
Qed.

Lemma mild_resources o plan : mild (Obj := Obj) (validateResources config o plan).
Proof.
  unfold validateResources, validateStorage. cbv zeta. apply mild_bind; [by apply mild_call|].
  intros [[pods|]|e]; [apply mild_stored|done|done].
Qed.

Lemma copy_unchanged_node o node : copy_unchanged o -> copy_unchanged (cw_set_SourceNode o node).
Proof.
  intros (H1 & H2 & H3 & H4). destruct (cl_set_node o node) as (_ & P2 & P3 & P4 & P5). unfold copy_unchanged.
  by rewrite P2, P3, P4, P5.
Qed.

Lemma wp_record_source_node node h :
  wpx (record_source_node o0 node) (fun r h' => quiet h h' /\
    (r.2 = None -> copy_unchanged r.1 /\ staged_resume r.1 = staged_resume o0)) h.
Proof.
  unfold record_source_node. case_test; [split; [apply quiet_refl|done]|].
  assert (copy_unchanged (cw_set_SourceNode o0 node)) as Hu by (apply copy_unchanged_node, copy_unchanged_refl).
  assert (staged_resume (cw_set_SourceNode o0 node) = staged_resume o0) as He.
  { unfold staged_resume. by destruct (cl_set_node o0 node) as (-> & _). }
  apply wp_bind_2, wp_persist_exact; [apply copy_executor_runner|..].
  - intros h'. by apply copy_save_unchanged.
  - intros e h' Hq. apply wp_Ret. by split.
  - apply wp_Ret. split; [quiet_tac|done].
Qed.

Lemma wp_copy_Run : wpx (copy_Run config reserver steps polls o0) copy_done [].
Proof.
  unfold copy_Run. apply wp_check_x. destruct (sw_validateObject o0) as [e|] eqn:Hv; [done|].
  unfold copy_run. cbv zeta. case_test.
  { apply wp_Ret. intros _. left. split; [done|]. by apply orb_true_iff in Heqb as [?%phase_eqb_true|?%phase_eqb_true]; [left|right]. }
  case_test; [apply wp_copy_abort; [done|by apply phase_eqb_true]|].
  destruct (cw_plan o0) as [plan|] eqn:Hp; [|done]. apply wp_check_x. destruct (validateCopyRetry _); [done|].
  apply wp_check_x. eapply wp_mono with (Q := fun _ h' => quiet [] h').
  { case_test; [by apply (wp_cleanupInterrupted plan)|apply quiet_refl]. }
  intros [e|] h1 _ Hq1; [done|]. apply wp_quiet_then; [apply mild_resources|]. intros [node|e] h2 Hq2.
  2: { apply (wp_base_fail plan Hp); [split; [done|]; by left|]. by intros o' e' h'. }
  apply wp_bind_2. eapply wp_mono; [apply wp_record_source_node|]. intros [o [e|]] h3 _ [Hq3 Hr]; [done|].
  cbn [fst snd] in *. destruct (Hr eq_refl) as [Hu He]. apply wp_bind_2.
  eapply wp_mono with (Q := fun r h' => quiet h3 h' /\ (r.2 = None -> copy_base plan r.1 h')).
  { case_test; [by apply wp_copy_reserve|]. apply wp_Ret. split; [apply quiet_refl|]. intros _. split; [|by left].
    cbn [fst]. destruct Hu as (_ & -> & _). done. }
  intros [o' [e|]] h4 _ [Hq4 Hb]; [done|]. cbn [fst snd] in *.
  eapply wp_mono; [eapply (wp_copyVolumes plan Hv Hp o' h4 (Hb eq_refl))|].
  - eapply quiet_trans; [exact Hq1|]. eapply quiet_trans; [exact Hq2|]. by eapply quiet_trans.
  - intros r h5 _ Hf _. right. right. by exists plan.
Qed.
End copy.

