(* ===== verification/LockSafety.v ===== *)
(** * Safety of the lock around an operation

    When an operation may run, what it may assume of the stored object, and that the
    Lease is given back exactly once, as the last request, whatever the operation does.
    Last the exported [Run] of the copy and reservation executors: the guard of the
    operation (WarmCopySafety, StagedRun) holds inside the guard of the lock, and nothing
    of it is issued while a handoff is pending. *)

From S2P Require Import Prelude Utf8 GoErrors Lifecycle PhaseMachines GoFormat TransferPath Prog KubeTypes Api ResourceState Ownership PVBinding NodeSelection Quota PVCPolicy Reclaim Reserver CopyEngine Exec MigrationObject Offline Activation MigrationStorage CopyRunner SourceLoss Executor MigrationCleanup CleanupExecutor MigrationSync StagedObjects Staged ReservationExecutor CopyExecutor StagedInstances StagedLaws ReservedCopy CleanupSafety SessionLease WorkflowLock CopySafety StagedRun WarmCopySafety.

Section lock.
Context {E : Type} {R : E -> Type} {T : Type} `{SW : StoredWorkflow T}.
Context (locker : bool) (namespace : string) (object : T) (allowDeleting : bool).
Context (operation : bool -> prog E R (option err)).
Notation ltrace := (history (wlresp (T := T) R)).
Notation meta := (wm_meta object).
Implicit Types h : ltrace.

(** The operation's own trace inside the trace of the lock. *)
Definition body_event (e : event R) : event (wlresp (T := T) R) :=
  match e with Ev r x => @Ev _ (wlresp (T := T) R) (LBody r) x end.

Definition acquire : wlreq E T := LAcquire namespace (wm_Name meta).
Definition load : wlreq E T := LLoad (wm_Namespace meta) (wm_Name meta).

(** The stored object that was given, still there unchanged and not being deleted, unless
    that is allowed. *)
Definition current (latest : T) : Prop :=
  wm_UID (wm_meta latest) = wm_UID meta /\ wm_ResourceVersion (wm_meta latest) = wm_ResourceVersion meta /\
  (wm_Deleting (wm_meta latest) = true -> allowDeleting = true).

(** Exactly what was asked when the operation starts: the Lease was acquired, the stored
    object is the one that was given, and the context and the fence are alive. *)
Definition fenced_start (h : ltrace) : Prop :=
  exists latest : T, current latest /\
    h = [@Ev _ (wlresp R) LFence None; @Ev _ (wlresp R) LBoundErr None; @Ev _ (wlresp R) load (inl latest);
         @Ev _ (wlresp R) acquire (inl true)].

(** Or the Lease cannot be created any more, and the object is being deleted. *)
Definition terminating_start (h : ltrace) : Prop :=
  exists e : err, allowDeleting = true /\ wm_Deleting meta = true /\ isSessionNamespaceTerminating (Some e) = true /\
    h = [@Ev _ (wlresp R) acquire (inr e)].

Definition held_start (held : bool) (h : ltrace) : Prop := if held then fenced_start h else terminating_start h.

(** What the operation itself guarantees, on its own trace. *)
Context (K : history R -> E -> Prop) (Q : option err -> history R -> Prop).
Hypothesis Hoperation : forall held, wp K (operation held) Q [].

Definition acquired (h : ltrace) : Prop := exists h', h = h' ++ [@Ev _ (wlresp R) acquire (inl true)] /\ (forall x, @Ev _ (wlresp R) LRelease x ∉ h').

Definition lock_guard (h : ltrace) (q : wlreq E T) : Prop :=
  match q with
  | LBody r => exists held h0 k, held_start held h0 /\ h = map body_event k ++ h0 /\ K k r
  | LAcquire ns id => h = [] /\ LAcquire ns id = acquire /\ locker = true /\ wm_UID meta <> "" /\
      wm_ResourceVersion meta <> "" /\ (wm_Deleting meta = true -> allowDeleting = true)
  | LLoad ns name => LLoad ns name = load /\ h = [@Ev _ (wlresp R) acquire (inl true)]
  | LBoundErr | LFence => acquired h
  | LDeleteLease => allowDeleting = true /\ exists e : err, IsNotFound e = true /\
      h = [@Ev _ (wlresp R) load (inr e); @Ev _ (wlresp R) acquire (inl true)]
  | LRelease => acquired h
  | LDelete o => o = object /\ exists h0 k, terminating_start h0 /\ h = map body_event k ++ h0 /\ Q None k
  end.

(** What the caller gets: without the Lease an error, unless the operation of a deletion
    pass and the deletion of the object succeeded; with it, the Lease was released last,
    and no error means that the operation (or, if the object is gone, the deletion of the
    Lease) succeeded with the fence alive at the end. *)
Definition lock_post (r : option err) (h : ltrace) : Prop :=
  (h = [] /\ r <> None) \/
  (exists a : result bool, h = [@Ev _ (wlresp R) acquire a] /\ a <> inl true /\ r <> None) \/
  (exists h0 k, terminating_start h0 /\
     ((exists x, h = @Ev _ (wlresp R) (LDelete object) x :: map body_event k ++ h0 /\ r = x) \/
      (h = map body_event k ++ h0 /\ r <> None))) \/
  (exists x f h', h = @Ev _ (wlresp R) LRelease x :: @Ev _ (wlresp R) LFence f :: h' /\ acquired h' /\
     (r = None -> x = None /\ f = None /\
        ((exists h0 k, fenced_start h0 /\ h' = map body_event k ++ h0 /\ Q None k) \/
         (allowDeleting = true /\ exists e : err, IsNotFound e = true /\
            h' = [@Ev _ (wlresp R) LDeleteLease None; @Ev _ (wlresp R) load (inr e);
                  @Ev _ (wlresp R) acquire (inl true)])))).

Notation wpl := (wp lock_guard).

Lemma wp_embed {A} (p : prog E R A) (P : A -> history R -> Prop) (G : ltrace -> wlreq E T -> Prop) k h0 :
  (forall k r, K k r -> G (map body_event k ++ h0) (LBody r)) -> wp K p P k ->
  wp G (embed p) (fun a h => exists k', h = map body_event k' ++ h0 /\ P a k') (map body_event k ++ h0).
Proof.
  intros HG. revert k. induction p as [a| |r c IH]; intros k; [|done|].
  - intros HP. by exists k.
  - intros [HK Hc]. split; [by apply HG|]. intros x. by apply (IH x (Ev r x :: k)).
Qed.

Lemma acquired_body h0 k : acquired h0 -> acquired (map body_event k ++ h0).
Proof.
  intros (h' & -> & Hn). exists (map body_event k ++ h'). split; [by rewrite app_assoc|].
  intros x [Hin|Hin]%elem_of_app; [|by eapply Hn]. apply list_elem_of_fmap in Hin as ([r y] & Heq & _). done.
Qed.

Lemma acquired_cons (q : wlreq E T) x h : (match q with LRelease => False | _ => True end) -> acquired h -> acquired (Ev q x :: h).
Proof.
  intros Hq (h' & -> & Hn). exists (Ev q x :: h'). split; [done|].
  intros y [Heq|Hin]%elem_of_cons; [|by eapply Hn]. destruct q; try done.
Qed.

Lemma acquired_start h0 : fenced_start h0 -> acquired h0.
Proof.
  intros (latest & _ & ->). do 3 (apply acquired_cons; [done|]). exists []. split; [done|]. by intros x Hx%not_elem_of_nil.
Qed.

Lemma acquired_one : acquired [@Ev _ (wlresp R) acquire (inl true)].
Proof. exists []. split; [done|]. by intros x Hx%not_elem_of_nil. Qed.

(** The operation's part, with the Lease. *)
Definition operation_post (r : option err) (h : ltrace) : Prop :=
  acquired h /\
  (r = None ->
     (exists h0 k, fenced_start h0 /\ h = map body_event k ++ h0 /\ Q None k) \/
     (allowDeleting = true /\ exists e : err, IsNotFound e = true /\
        h = [@Ev _ (wlresp R) LDeleteLease None; @Ev _ (wlresp R) load (inr e); @Ev _ (wlresp R) acquire (inl true)])).

Lemma wp_locked_operation :
  wpl (locked_operation object allowDeleting operation) operation_post [@Ev _ (wlresp R) acquire (inl true)].
Proof.
  unfold locked_operation. pose proof acquired_one as Hone. apply wp_bind_2. split; [by split|]. intros l. hnf in l. destruct l as [latest|e].
  - assert (acquired [@Ev _ (wlresp R) load (inl latest); @Ev _ (wlresp R) acquire (inl true)]) as H2 by (by apply acquired_cons).
    apply wp_Ret. cbv beta iota. case_test; [by split|]. case_test; [by split|].
    apply wp_bind_2. split; [done|]. intros b. apply wp_Ret, wp_bind_2. split; [by apply acquired_cons|]. intros f. apply wp_Ret. hnf in b, f.
    cbv beta. destruct (errors_Join [b; f]) eqn:Hj; [split; [by do 2 (apply acquired_cons; [done|])|done]|].
    apply errors_Join2_None in Hj as [-> ->].
    match goal with |- wp _ _ _ ?h => assert (fenced_start h) as Hst end.
    { exists latest. split; [|done]. bool_prop. split_and!; [done|done|]. intros Hd. rewrite Hd in *. cbn in *.
      by destruct allowDeleting. }
    eapply wp_mono; [apply (wp_embed (operation true) Q lock_guard []); [|apply Hoperation]|].
    + intros k r Hk. by eexists true, _, k.
    + intros r h' _ (k & -> & HQ). split; [by apply acquired_body, acquired_start|]. intros ->. left. eexists _, k.
      by split_and!.
  - apply wp_Ret. cbv beta iota. case_test.
    + apply andb_true_iff in Heqb as [Hnf Ha]. split; [split; [done|by exists e]|]. intros x. apply wp_Ret. split.
      * by do 2 (apply acquired_cons; [done|]).
      * intros ->. right. split; [done|]. by exists e.
    + apply wp_Ret. split; [by apply acquired_cons|done].
Qed.

(** For any operation and any object: a request of the operation is issued only after
    exactly this, that the Lease was acquired, the stored object was read with the given
    UID and resourceVersion and not being deleted (unless deletion is allowed), and
    context and fence were alive; or that the Lease was refused because its namespace is
    terminating while this object is being deleted.  What the operation guarantees of its
    own trace holds inside.  Once acquired, the Lease is released exactly once and last,
    and the finalizer is removed directly only in the terminating case, after the
    operation succeeded. *)
Lemma wp_WithWorkflowLease : wpl (WithWorkflowLease locker namespace object allowDeleting operation) lock_post [].
Proof.
  unfold WithWorkflowLease. cbv zeta. case_test; [apply wp_Ret; left; by split|]. case_test; [apply wp_Ret; left; by split|].
  bool_prop. unfold AcquireRequiredSessionLock. destruct locker eqn:Hl; cbn [negb]; [|apply wp_bind_2, wp_Ret; cbv beta iota; rewrite andb_false_r; apply wp_Ret; by left].
  apply wp_bind_2, wp_bind_2. split.
  { unfold lock_guard. split_and!; [done..|]. intros Hd. rewrite Hd in *. cbn in *. by destruct allowDeleting. }
  intros a. apply wp_Ret, wp_Ret. destruct a as [[|]|e].
  - apply wp_bind_2. eapply wp_mono; [apply wp_locked_operation|]. intros r h _ [Hacq Hok].
    apply wp_bind_2. split; [done|]. intros f. apply wp_Ret, wp_bind_2. split; [by apply acquired_cons|].
    intros x. apply wp_Ret, wp_Ret. do 3 right. exists x, f, h. split_and!; [done|done|].
    intros [[-> ->]%errors_Join2_None ->]%errors_Join2_None. split_and!; [done|done|by apply Hok].
  - case_test; [|apply wp_Ret; right; left; by exists (inl false)]. exfalso. by apply andb_true_iff in Heqb as [_ ?].
  - case_test; [|apply wp_Ret; right; left; by exists (inr e)]. apply andb_true_iff in Heqb as [[Ha Hd]%andb_true_iff Ht].
    assert (terminating_start [@Ev _ (wlresp R) acquire (inr e)]) as Hst by (by exists e).
    apply wp_bind_2. eapply wp_mono; [apply (wp_embed (operation false) Q lock_guard []); [|apply Hoperation]|].
    + intros k r Hk. by eexists false, _, k.
    + intros [x|] h _ (k & -> & HQ).
      * apply wp_Ret. do 2 right. left. eexists _, k. split; [done|]. by right.
      * split; [split; [done|]; by eexists _, k|]. intros x. apply wp_Ret. do 2 right. left. eexists _, k. split; [done|].
        left. by exists x.
Qed.

End lock.

(** ** Copies and reservations under their locks *)

(** What an operation of an executor may ask, and what its success means, once its object
    has no pending handoff. *)
Definition handed_over {Obj} (object : Stored Obj) (K : xtraceOf Obj -> xreq Obj -> Prop) (h : xtraceOf Obj) (r : xreq Obj) : Prop :=
  RequireWorkflowHandoffComplete object = None /\ K h r.

Definition operation_done {Obj} (D : Obj * option err -> xtraceOf Obj -> Prop) (e : option err) (h : xtraceOf Obj) : Prop :=
  e = None -> exists o, D (o, None) h.

Section entries.
Context {Obj : Type} `{SW : StagedWorkflow Obj}.
Context (deletion locker : bool) (namespace : string) (object : Stored Obj).
Context (K : xtraceOf Obj -> xreq Obj -> Prop) (D : Obj * option err -> xtraceOf Obj -> Prop).

Lemma wp_handed_over {A} (p : execOf Obj A) (P : A -> xtraceOf Obj -> Prop) h :
  RequireWorkflowHandoffComplete object = None -> wp K p P h -> wp (handed_over object K) p P h.
Proof.
  intros Hh. revert h. induction p as [a| |r c IH]; intros h; [done|done|]. intros [HK Hc]. split; [by split|].
  intros x. by apply IH.
Qed.

Lemma wp_executor_entry operation :
  (sw_validateObject object.2 = None -> wp K (operation object.2) D []) ->
  wp (lock_guard locker namespace object deletion (handed_over object K) (operation_done D))
    (executor_entry deletion locker namespace operation object)
    (lock_post namespace object deletion (operation_done D)) [].
Proof.
  intros Hop. unfold executor_entry, locked_entry. destruct (sw_validateObject object.2) as [e|] eqn:Hv.
  { apply wp_Ret. by left. }
  apply wp_WithWorkflowLease. intros held. destruct (RequireWorkflowHandoffComplete object) as [e|] eqn:Hh; [by apply wp_Ret|].
  apply wp_bind_2. eapply wp_mono; [by apply wp_handed_over, Hop|]. intros [o [x|]] h _ Hd; apply wp_Ret; [done|].
  intros _. by exists o.
Qed.
End entries.

(** C11: the executors run gated and under their lock.  For both copy executors and both
    reservation executors, any stored object and any server, every request of the
    exported [Run] is one of the lock, as its guard allows, or one of the operation,
    issued after the Lease was acquired and the stored object was read unchanged (or in
    the deletion of an object whose namespace is terminating), with no handoff pending,
    and allowed by the guard of the copy or of the reservation on the operation's own
    trace; an invalid object is refused without a request; no error means that the
    operation succeeded as its own theorem says and the Lease was released last. *)
Theorem executors_run_locked `{CR : ConflictRetry} `{QT : QuantityText} `{IG : ImageGrammar} `{LG : LabelGrammar} :
  (forall Obj `(CL : CopyLaws Obj) given reserver steps polls deletion locker namespace (object : Stored Obj)
          W (server : handler (R := wlresp (@xresp Obj)) W) w,
     let K := handed_over object (copy_executor_guard given object.2) in
     let D := operation_done (copy_done given object.2) in
     let out := run server (copy_entry_Run deletion locker namespace (newCopyResources given) reserver steps polls object) w [] in
     calls_ok (lock_guard locker namespace object deletion K D) [] out.2 /\
     (forall r, out.1.1 = Some r -> lock_post namespace object deletion D r out.2)) /\
  (forall Obj `(SL : StagedLaws Obj) config reserver deletion locker namespace (object : Stored Obj)
          W (server : handler (R := wlresp (@xresp Obj)) W) w,
     let K := handed_over object (reservation_guard config object.2) in
     let D := operation_done (reservation_done config object.2) in
     let out := run server (reservation_entry_Run deletion locker namespace config reserver object) w [] in
     calls_ok (lock_guard locker namespace object deletion K D) [] out.2 /\
     (forall r, out.1.1 = Some r -> lock_post namespace object deletion D r out.2)).
Proof.
  split; intros; apply (wp_adequate _ server _ _ w []); apply wp_executor_entry; intros Hv.
  - pose proof (wp_copy_Run given reserver steps polls object.2) as Hrun. unfold copy_Run, check_x in Hrun.
    by rewrite Hv in Hrun.
  - pose proof (wp_reservation_Run config reserver object.2 []) as Hrun. unfold reservation_Run, check_x in Hrun.
    by rewrite Hv in Hrun.
Qed.
