(* ===== verification/IdentitySafety.v ===== *)
(** * Safety of renaming and moving claims

    The executors of Rename and Move against any server, for every object of
    [IdentityWorkflow]: when the switcher may rebind the volume, what the saved objects
    say, and what the cleanup gives back. *)

From S2P Require Import Prelude Utf8 GoErrors Lifecycle PhaseMachines KubeTypes Prog Api ResourceState Ownership PVBinding NodeSelection GoFormat Quota PVCPolicy Reserver TransferPath Offline Activation Reclaim CopyEngine Exec MigrationObject MigrationStorage Executor MigrationSync Identity SwitcherRules SwitcherSafety RebindSafety ReclaimSafety MigrationCleanup ExecRules OfflineSafety CleanupSafety CopySafety.

(** ** Rules *)

Section rules.
Context {Obj : Type} (G : xtraceOf Obj -> xreq Obj -> Prop).
Hypothesis HR : forall h r, is_write r = false -> is_progress r = false -> G h (XKube r).
Hypothesis HD : forall h, G h XDetachedErr.

(** A switcher program under its own guard [K] whose callback saves [o]. *)
Lemma wp_with_save {A} (K : trace -> req -> Prop) (o : Obj) (p : kube A) (Q : A -> trace -> Prop) h0 hk h :
  (forall hk h r, h0 `suffix_of` h -> sim hk h -> K hk r -> is_progress r = false -> G h (XKube r)) ->
  (forall h, G h (XSave o)) ->
  wp K p Q hk -> h0 `suffix_of` h -> sim hk h ->
  wp G (with_save o p) (fun a h' => exists hk', h0 `suffix_of` h' /\ sim hk' h' /\ Q a hk') h.
Proof.
  intros HK HS. revert hk h. induction p as [a| |r k IH]; intros hk h; [|done|].
  - intros HQ Hs Hsim. by exists hk.
  - intros [Hg Hk] Hs Hsim. destruct (is_progress r) eqn:Hr.
    + destruct r; try discriminate Hr. cbn [with_save]. apply wp_bind_2.
      apply wp_persist; [done|done|done|..].
      * intros h' Hs' _. apply (IH _ (Ev (Progress status) None :: hk)); [apply Hk|by etrans|by eapply sim_progress].
      * intros e h' Hs'. apply (IH _ (Ev (Progress status) (Some e) :: hk)); [apply Hk|by etrans|by eapply sim_progress].
    + assert (wp G (Vis (XKube r) (fun x => with_save o (k x)))
                (fun a h' => exists hk', h0 `suffix_of` h' /\ sim hk' h' /\ Q a hk') h) as Hw.
      { split; [by eapply HK|]. intros x. apply (IH x (Ev r x :: hk)); [apply Hk|by apply suffix_cons_r|by constructor]. }
      destruct r; try discriminate Hr; exact Hw.
Qed.
End rules.

(** ** The guard *)

Section identity.
Context `{CR : ConflictRetry} `{QT : QuantityText} {Obj : Type} `{IW : IdentityWorkflow Obj} `{IL : !IdentityLaws Obj}.
Context (s : Switcher) (o0 : Obj).
Notation xtrace := (xtraceOf Obj).
Notation outcome := (Obj * option err)%type.
Notation rebindPhase := (iw_rebindPhase (Obj := Obj)).
Notation id0 := (iw_Name o0).
Implicit Types (o : Obj) (h : xtrace).

Definition manifest (to : ObjectReference) (plan : IdentityPlan) : PVC :=
  BoundPVCManifest id0 to (Name (ip_PV plan)) (template_Spec (ip_Template plan)) (template_Metadata (ip_Template plan)).

Definition same_identity o : Prop := iw_Name o = id0 /\ iw_plan o = iw_plan o0.
Definition unchanged o : Prop := same_identity o /\ iw_active o = iw_active o0.

(** The phase was persisted. *)
Definition in_phase (phase : Phase) h : Prop := exists o, Ev (XSave o) None ∈ h /\ resume_of o = phase /\ unchanged o.

(** A rebinding write: forward from the planned source after the rebinding phase was
    persisted, or back from the claim in use, which is the planned destination, after
    RollingBack was; each as the switcher's guard allows on its own trace. *)
Definition rebind_ok h (r : req) : Prop :=
  exists plan hk, iw_plan o0 = Some plan /\ sim hk h /\
    ((in_phase rebindPhase h /\
      rename_guard id0 (ip_From plan) (ip_PV plan) (manifest (ip_To plan) plan) hk r) \/
     (in_phase PhaseRollingBack h /\ exists a, iw_active o0 = Some a /\
      Name a = Name (ip_To plan) /\ Namespace a = Namespace (ip_To plan) /\
      rename_guard id0 a (ip_PV plan) (manifest (without_identity (ip_From plan)) plan) hk r)).

(** Which phases may be entered from which. *)
Definition may_enter (from to : Phase) : Prop :=
  to = from \/
  (to = rebindPhase /\ (from = PhasePlanned \/ from = rebindPhase)) \/
  (to = PhaseRollingBack /\ (from = PhaseCompleted \/ from = PhaseRollingBack)) \/
  ((to = PhaseAborting \/ to = PhaseAborted) /\
   (iw_plan o0 = None \/ from = PhasePlanned \/ from = PhaseAborting \/ from = PhaseAborted)).

(** The claim [p] was verified bound to the planned volume, which is retained, and is the
    claim in use of [o]. *)
Definition rebound o h : Prop :=
  exists plan p a hk, iw_plan o0 = Some plan /\ iw_active o = Some a /\ Name a = pvc_Name p /\ UID a = pvc_UID p /\
    sim hk h /\ renamed id0 (ip_PV plan) p hk.

Definition identity_save_ok h o : Prop :=
  same_identity o /\
  ((iw_active o = iw_active o0 /\ may_enter (resume_of o0) (resume_of o)) \/
   (rebound o h /\
    ((resume_of o = PhaseCompleted /\ in_phase rebindPhase h) \/
     (resume_of o = PhaseRolledBack /\ in_phase PhaseRollingBack h)))).

Definition identity_guard h (r : xreq Obj) : Prop :=
  match r with
  | XKube r => is_progress r = false /\ (is_write r = true -> rebind_ok h r)
  | XSave o => identity_save_ok h o
  | XDetachedErr => True
  | XDeleteLock | XDeleteStored _ | XService _ | XPanic => False
  end.

Notation wpi := (wp identity_guard).

Lemma identity_reads h r : is_write r = false -> is_progress r = false -> identity_guard h (XKube r).
Proof. intros Hw Hp. split; [done|]. by rewrite Hw. Qed.

Lemma identity_detached h : identity_guard h XDetachedErr.
Proof. done. Qed.

Lemma in_phase_mono phase h h' : h `suffix_of` h' -> in_phase phase h -> in_phase phase h'.
Proof. intros [k ->] (o & Ho & He). exists o. split; [apply elem_of_app; by right|done]. Qed.

Lemma unchanged_put o st : unchanged o -> unchanged (wf_put o st).
Proof. intros [[H1 H2] H3]. unfold unchanged, same_identity. by rewrite il_put_name, il_put_plan, il_put_active. Qed.

Lemma unchanged_refl : unchanged o0.
Proof. done. Qed.

Lemma save_unchanged h o : unchanged o -> may_enter (resume_of o0) (resume_of o) -> identity_save_ok h o.
Proof. intros [H1 H2] H3. split; [done|]. by left. Qed.

Lemma resume_put o st : resume_of (wf_put o st) = workflowResumePhase st.
Proof. unfold resume_of. by rewrite wf_get_put. Qed.

(** *** Transitions *)

(** A transition to [next] saves one object that differs in the status only. *)
Lemma wp_identity_transition detached o next message (Q : outcome -> xtrace -> Prop) h :
  let target := if next =p PhaseFailed then resume_of o else next in
  (forall st h', h `suffix_of` h' -> workflowResumePhase st = target -> identity_guard h' (XSave (wf_put o st))) ->
  (forall st h', h `suffix_of` h' -> workflowResumePhase st = target ->
     Ev (XSave (wf_put o st)) None ∈ h' -> Q (wf_put o st, None) h') ->
  (forall e h', h `suffix_of` h' -> Q (o, Some e) h') ->
  wpi (identity_transition detached o next message) Q h.
Proof.
  cbv zeta. intros HG Hok He. unfold identity_transition. apply wp_bind_2.
  eapply wp_mono with (Q := fun st _ => ws_Phase st = ws_Phase (wf_get o) /\ workflowResumePhase st = resume_of o).
  { destruct (ws_StartedAt (wf_get o)); [done|]. apply wp_bind_2. split; [by apply identity_reads|]. intros t.
    apply wp_Ret, wp_Ret. destruct (with_StartedAt_phase (wf_get o) t) as [H1 H2].
    split; [done|]. unfold resume_of, workflowResumePhase. by rewrite H1, H2. }
  intros st h1 Hs1 [Hph Hst]. apply wp_ask; [by apply identity_reads|]. intros t.
  assert (h `suffix_of` Ev (XKube Now) t :: h1) as Hs2 by (by apply suffix_cons_r).
  destruct (TransitionIdentity st (planned o) rebindPhase next message t) as [st'|e] eqn:Ht; [|by apply He].
  assert (workflowResumePhase st' = if next =p PhaseFailed then resume_of o else next) as Hst'.
  { revert Ht. unfold TransitionIdentity. destruct (ws_Phase st =p next) eqn:Hn.
    - intros [= <-]. apply phase_eqb_true in Hn. rewrite Hst. destruct (next =p PhaseFailed) eqn:Hf; [done|].
      rewrite <- Hst. unfold workflowResumePhase. by rewrite Hn, Hf.
    - case_test; [intros [= <-]; by rewrite record_effective, Hst|]. case_test; [done|].
      intros [= <-]. by rewrite record_effective, Hst. }
  apply wp_bind_2. eapply wp_mono with (Q := fun e h' => Ev (XKube Now) t :: h1 `suffix_of` h' /\
    (e = None -> Ev (XSave (wf_put o st')) None ∈ h')).
  - apply (wp_guard_mono (fun h' r => Ev (XKube Now) t :: h1 `suffix_of` h' -> identity_guard h' r)); [|by auto].
    apply wp_persist; [intros h' r Hw Hp _; by apply identity_reads|done|..]; try done.
    intros h' Hs'. apply HG; [by etrans|done].
  - intros [e|] h2 _ [Hs3 Hin]; apply wp_Ret; [apply He; by etrans|]. apply Hok; [by etrans|done|by apply Hin].
Qed.

Lemma wp_identity_fail o cause (Q : outcome -> xtrace -> Prop) h :
  unchanged o -> may_enter (resume_of o0) (resume_of o) ->
  (forall o' e h', h `suffix_of` h' -> unchanged o' -> resume_of o' = resume_of o -> Q (o', Some e) h') ->
  wpi (identity_fail o cause) Q h.
Proof.
  intros Hu Hm HQ. unfold identity_fail. apply wp_bind_2. split; [by apply identity_reads|]. intros t.
  assert (forall st h', workflowResumePhase st = resume_of o -> identity_save_ok h' (wf_put o st)) as Hsave.
  { intros st h' Hst. apply save_unchanged; [by apply unchanged_put|]. by rewrite resume_put, Hst. }
  apply wp_recordWorkflowFailure; [apply identity_reads|apply identity_detached|..].
  - intros o' h' (st & -> & Hst). by apply Hsave.
  - intros o' message h' (st & -> & Hst). apply wp_identity_transition; rewrite ?resume_put; cbn [phase_eqb].
    + intros st' h2 _ Hst'. rewrite wf_put_put. apply Hsave. by rewrite Hst', Hst.
    + intros st' h2 _ Hst' _ _. rewrite wf_put_put. exists st'. split; [done|]. by rewrite Hst', Hst.
    + done.
  - intros o' e h' Hs (st & -> & Hst). apply HQ; [by eapply suffix_cons_l|by apply unchanged_put|by rewrite resume_put].
  - intros e h' Hs. by apply HQ; [eapply suffix_cons_l|..].
Qed.

(** *** Rebinding *)

(** One direction of the rebinding, in phase [phase]: success is a verified claim. *)
Lemma wp_rebind phase o plan from to h :
  unchanged o -> may_enter (resume_of o0) (resume_of o) -> iw_plan o0 = Some plan -> in_phase phase h ->
  (forall hk h' r, in_phase phase h' -> sim hk h' ->
     rename_guard id0 from (ip_PV plan) (manifest to plan) hk r -> rebind_ok h' r) ->
  wpi (rebind s o plan from to)
    (fun r h' => h `suffix_of` h' /\ forall p, r = inl p -> exists hk, sim hk h' /\ renamed id0 (ip_PV plan) p hk) h.
Proof.
  intros Hu Hm Hp Hin HK. pose proof Hu as [[Hn _] _]. unfold rebind. rewrite Hn. fold (manifest to plan).
  eapply wp_mono; [eapply (wp_with_save _ identity_reads identity_detached
    (rename_guard id0 from (ip_PV plan) (manifest to plan)) _ _ _ h [] h)|].
  - intros hk h' r Hs Hsim Hg Hpr. split; [done|]. intros _. eapply HK; [by eapply in_phase_mono|done|done].
  - intros h'. by apply save_unchanged.
  - apply wp_RenamePVC.
  - done.
  - constructor.
  - intros r h' _ (hk & Hs & Hsim & HQ). split; [done|]. intros p ->. exists hk. split; [done|by apply HQ].
Qed.

(** Recording the claim in use and the final phase. *)
Lemma wp_record o o1 plan p hk next message (Q : outcome -> xtrace -> Prop) h :
  same_identity o1 -> wf_get o1 = wf_get o -> iw_plan o0 = Some plan ->
  (exists a, iw_active o1 = Some a /\ Name a = pvc_Name p /\ UID a = pvc_UID p) ->
  sim hk h -> renamed id0 (ip_PV plan) p hk ->
  (next = PhaseCompleted /\ in_phase rebindPhase h) \/ (next = PhaseRolledBack /\ in_phase PhaseRollingBack h) ->
  (forall st h', h `suffix_of` h' -> workflowResumePhase st = next -> identity_save_ok h' (wf_put o1 st) ->
     Q (wf_put o1 st, None) h') ->
  (forall e h', h `suffix_of` h' -> Q (o, Some e) h') ->
  wpi (u ← identity_transition false o1 next message; Ret match u.2 with Some e => (o, Some e) | None => u end) Q h.
Proof.
  intros Hsame Hst Hp (a & Ha & Hna & Hua) Hsim Hren Hnext Hok He.
  assert ((next =p PhaseFailed) = false) as Hnf by (by destruct Hnext as [[-> _]|[-> _]]).
  assert (forall st h', h `suffix_of` h' -> workflowResumePhase st = next -> identity_save_ok h' (wf_put o1 st)) as Hsave.
  { intros st h' Hs Hres. destruct Hsame as [H1 H2]. split; [split; by rewrite ?il_put_name, ?il_put_plan|]. right.
    rewrite resume_put, Hres. split.
    - exists plan, p, a, (Ev (Progress None) None :: hk). rewrite il_put_active. split_and!; try done.
      + by eapply sim_progress.
      + destruct Hren as (H3 & H4 & H5). split_and!; [done| |].
        * eapply binding_seen_mono; [|exact H4]. by apply suffix_cons_r.
        * eapply pv_seen_mono; [|exact H5]. by apply suffix_cons_r.
    - destruct Hnext as [[-> Hin]|[-> Hin]]; [left|right]; (split; [done|by eapply in_phase_mono]). }
  apply wp_bind_2, wp_identity_transition; rewrite ?Hnf.
  - intros st h' Hs Hres. by apply Hsave.
  - intros st h' Hs Hres _. apply wp_Ret. apply Hok; [done|done|by apply Hsave].
  - intros e h' Hs. apply wp_Ret. by apply He.
Qed.

(** What every operation leaves: an object of this identity, unchanged unless the
    rebinding succeeded; an object returned with an error is the unchanged one, in a
    phase that was entered legally. *)
Definition left_by (r : outcome) h : Prop :=
  r.2 <> None -> unchanged r.1 /\ may_enter (resume_of o0) (resume_of r.1).

Lemma may_stay : may_enter (resume_of o0) (resume_of o0).
Proof. by left. Qed.

(** *** Abort *)

Lemma wp_identity_abort h : wpi (identity_abort o0) left_by h.
Proof.
  assert (forall e h', left_by (o0, Some e) h') as Herr by (intros e h' _; split; [done|apply may_stay]).
  unfold identity_abort. destruct (identity_ValidateAbort o0) as [e|] eqn:Hv; [apply Herr|].
  assert (iw_plan o0 = None \/ resume_of o0 = PhasePlanned \/ resume_of o0 = PhaseAborting \/ resume_of o0 = PhaseAborted)
    as Hfrom.
  { revert Hv. unfold identity_ValidateAbort, planned, validateIdentityAbort. destruct (iw_validateObject o0); [done|].
    case_bool_decide as Hp; [|by left; destruct (iw_plan o0); [destruct Hp|]]. fold (resume_of o0). intros Ha. right.
    destruct (resume_of o0); try done; auto. }
  case_test; [done|].
  assert (forall next o, next = PhaseAborting \/ next = PhaseAborted -> unchanged o ->
    forall st h', workflowResumePhase st = next -> identity_save_ok h' (wf_put o st)) as Hsave.
  { intros next o Hn Hu st h' Hst. apply save_unchanged; [by apply unchanged_put|]. rewrite resume_put, Hst.
    right. right. right. split; [by destruct Hn; [left|right]|done]. }
  case_test.
  - apply wp_identity_transition; cbn [phase_eqb]; [|done|done]. intros st h' _ Hst. by eapply (Hsave PhaseAborted); [right| |].
  - apply wp_bind_2, wp_identity_transition; cbn [phase_eqb].
    + intros st h' _ Hst. by eapply (Hsave PhaseAborting); [left| |].
    + intros st h' _ Hst _. cbn [snd fst]. assert (unchanged (wf_put o0 st)) as Hu by (by apply unchanged_put).
      apply wp_identity_transition; cbn [phase_eqb]; [|done|].
      * intros st' h2 _ Hst'. by eapply (Hsave PhaseAborted); [right| |].
      * intros e h2 _ _. split; [done|]. cbn [fst]. rewrite resume_put, Hst. right. right. right. split; [by left|done].
    + intros e h' _. apply wp_Ret, Herr.
Qed.

(** *** Validation only reads *)

Lemma reads_rebind id from to pv recovering : reads (VerifyPVCRebind s id from to pv recovering).
Proof.
  unfold VerifyPVCRebind, VerifyPVCRebindRecovery, VerifyPVCOffline, verifyOfflineBindings, verifyPVCAndPVIdentity,
    verifyRetainedActivationPV, ensureNoConsumers, ensureDetached, ensureVolumesDetached, list_pods, waitFor_, wait_error,
    waitFor.
  reads_tac.
Qed.

Lemma reads_snapshot claim volume template : reads (VerifyPVCSourceSnapshot claim volume template).
Proof. unfold VerifyPVCSourceSnapshot. reads_tac. Qed.

Lemma reads_ValidateRollback o : reads (identity_ValidateRollback s o).
Proof. unfold identity_ValidateRollback. reads_tac; apply reads_rebind. Qed.

Lemma reads_ValidateResume o : reads (identity_ValidateResume s o).
Proof.
  unfold identity_ValidateResume. reads_tac; first [apply reads_rebind|apply reads_snapshot|apply reads_ValidateRollback].
Qed.

(** A rollback is accepted of a completed workflow, whose claim in use is the planned
    destination; one that is already rolled back is refused or left alone. *)
Lemma wp_identity_ValidateRollback h :
  wpi (lift (identity_ValidateRollback s o0)) (fun e _ => e = None -> phase_of o0 = PhaseRolledBack \/
    ((resume_of o0 = PhaseCompleted \/ resume_of o0 = PhaseRollingBack) /\
     exists plan a, iw_plan o0 = Some plan /\ iw_active o0 = Some a /\
       Name a = Name (ip_To plan) /\ Namespace a = Namespace (ip_To plan))) h.
Proof.
  unfold identity_ValidateRollback. destruct (iw_validateObject o0) as [e|] eqn:Hv; [done|]. cbn.
  destruct (validateIdentityRollback (wf_get o0)) as [e|] eqn:Hr; [done|].
  case_test; [intros _; left; by apply phase_eqb_true|].
  destruct (iw_plan o0) as [plan|] eqn:Hp; [|done]. destruct (iw_active o0) as [a|] eqn:Ha; [|done].
  assert (resume_of o0 = PhaseCompleted \/ resume_of o0 = PhaseRollingBack \/ resume_of o0 = PhaseRolledBack) as Hres.
  { revert Hr. unfold validateIdentityRollback. fold (resume_of o0). destruct (resume_of o0); try done; auto. }
  assert (resume_of o0 = PhaseRolledBack -> exists e, VerifyPVCRebind s id0 a (without_identity (ip_From plan)) (ip_PV plan)
            (resume_of o0 =p PhaseRollingBack) = Ret (Some e)) as Hsame.
  { intros Hrb. destruct (il_valid_restored o0 plan Hv Hp Hrb) as (a' & Ha' & Hn & Hns).
    rewrite Ha in Ha'. injection Ha' as <-. unfold VerifyPVCRebind, without_identity. cbn [Name Namespace].
    rewrite Hn, Hns, !String.eqb_refl, !orb_true_r. by eexists. }
  destruct Hres as [Hc|[Hc|Hrb]].
  3: { destruct (Hsame Hrb) as [e ->]. done. }
  all: eapply wp_mono; [apply wp_lift; [apply identity_reads|apply reads_rebind]|]; intros e h' _ _ _; right.
  all: destruct (il_valid_active o0 plan Hv Hp) as (a' & Ha' & Hn & Hns & _); [first [by left|by right]|].
  all: rewrite Ha in Ha'; injection Ha' as <-; split; [first [by left|by right]|by exists plan, a].
Qed.

Lemma wp_ValidateResume h :
  wpi (lift (identity_ValidateResume s o0)) (fun _ _ => True) h.
Proof. apply wp_lift; [apply identity_reads|apply reads_ValidateResume]. Qed.

(** Entering the phase in which the volume is rebound. *)
Lemma wp_enter phase message k h :
  phase <> PhaseFailed -> may_enter (resume_of o0) phase ->
  (forall o h', unchanged o -> may_enter (resume_of o0) (resume_of o) -> in_phase phase h' -> wpi (k o) left_by h') ->
  wpi (step_x (identity_transition false o0 phase message) k) left_by h.
Proof.
  intros Hne Hm Hk. apply phase_eqb_false in Hne. apply wp_bind_2, wp_identity_transition; rewrite ?Hne.
  - intros st h' _ Hst. apply save_unchanged; [by apply unchanged_put|]. by rewrite resume_put, Hst.
  - intros st h' _ Hst Hin. cbn [fst snd]. assert (unchanged (wf_put o0 st)) as Hu by (by apply unchanged_put).
    apply Hk; [done|by rewrite resume_put, Hst|]. exists (wf_put o0 st). by rewrite resume_put, Hst.
  - intros e h' _. apply wp_Ret. intros _. split; [done|apply may_stay].
Qed.

(** Rebinding and recording the result, in either direction. *)
Lemma wp_rebind_and_record phase next o plan from to (record : Obj -> PVC -> Time -> Obj) message h :
  (phase = rebindPhase /\ next = PhaseCompleted) \/ (phase = PhaseRollingBack /\ next = PhaseRolledBack) ->
  (forall p t, wf_get (record o p t) = wf_get o /\ same_identity (record o p t) /\
     exists a, iw_active (record o p t) = Some a /\ Name a = pvc_Name p /\ UID a = pvc_UID p) ->
  unchanged o -> may_enter (resume_of o0) (resume_of o) -> iw_plan o0 = Some plan -> in_phase phase h ->
  (forall hk h' r, in_phase phase h' -> sim hk h' ->
     rename_guard id0 from (ip_PV plan) (manifest to plan) hk r -> rebind_ok h' r) ->
  wpi (r ← rebind s o plan from to;
       match r with
       | inr e => identity_fail o e
       | inl pvc =>
           t ← call (XKube Now);
           u ← identity_transition false (record o pvc t) next message;
           Ret match u.2 with Some e => (o, Some e) | None => u end
       end) left_by h.
Proof.
  intros Hnext Hrec Hu Hm Hp Hin HK. apply wp_bind_2.
  eapply wp_mono; [by apply (wp_rebind phase)|]. intros [p|e] h1 _ [Hs1 Hr].
  - destruct (Hr p eq_refl) as (hk & Hsim & Hren). apply wp_ask; [by apply identity_reads|]. intros t.
    destruct (Hrec p t) as (H1 & H2 & H3). eapply (wp_record o _ plan p (Ev Now t :: hk)); try done.
    + by constructor.
    + destruct Hren as (H4 & H5 & H6). split_and!; [done|eapply binding_seen_mono; [|exact H5]|eapply pv_seen_mono; [|exact H6]];
        by apply suffix_cons_r.
    + destruct Hnext as [[-> ->]|[-> ->]]; [left|right]; (split; [done|]);
        (eapply in_phase_mono; [|exact Hin]; by apply suffix_cons_r).
  - apply wp_identity_fail; [done|done|]. intros o' e' h' _ Hu' Hr' _. cbn [fst]. by rewrite Hr'.
Qed.

Lemma wp_identity_rollback h : wpi (identity_rollback s o0) left_by h.
Proof.
  unfold identity_rollback. apply wp_bind_2. eapply wp_mono; [apply wp_identity_ValidateRollback|].
  intros [e|] h1 _ Hok; [apply wp_Ret; intros _; split; [done|apply may_stay]|]. specialize (Hok eq_refl).
  case_test; [done|]. apply phase_eqb_false in Heqb. destruct Hok as [?|(Hres & plan & a & Hp & Ha & Hn & Hns)]; [done|].
  apply wp_enter; [done|right; right; left; by split|].
  intros o h2 Hu Hm Hin. pose proof Hu as [[Hid Hpl] Hac].
  eapply wp_or_panic; [by rewrite Hpl|]. eapply wp_or_panic; [by rewrite Hac|].
  apply (wp_rebind_and_record PhaseRollingBack PhaseRolledBack); try done; [by right|..].
  - intros p t. rewrite il_restored_status. split_and!; [done| |apply il_restored_active].
    split; [by rewrite il_restored_name|by rewrite il_restored_plan].
  - intros hk h' r Hin' Hsim Hg. exists plan, hk. split_and!; [done|done|]. right. split; [done|]. by exists a.
Qed.

Lemma rebind_not_failed : rebindPhase <> PhaseFailed.
Proof. by destruct il_rebind as [-> | ->]. Qed.

Lemma wp_identity_forward h :
  resume_of o0 = PhasePlanned \/ resume_of o0 = rebindPhase -> wpi (identity_forward s o0) left_by h.
Proof.
  intros Hres. assert (forall e h', left_by (o0, Some e) h') as Herr by (intros e h' _; split; [done|apply may_stay]).
  unfold identity_forward. apply wp_bind_2. eapply wp_mono; [apply wp_ValidateResume|].
  intros [e|] h1 _ _; [apply Herr|]. destruct (iw_plan o0) as [plan|] eqn:Hp; [|apply Herr].
  apply wp_enter; [apply rebind_not_failed|right; left; by split|]. intros o h2 Hu Hm Hin. pose proof Hu as [[Hid Hpl] Hac].
  apply (wp_rebind_and_record rebindPhase PhaseCompleted); try done; [by left|..].
  - intros p t. rewrite il_activated_status. split_and!; [done| |apply il_activated_active].
    split; [by rewrite il_activated_name|by rewrite il_activated_plan].
  - intros hk h' r Hin' Hsim Hg. exists plan, hk. split_and!; [done|done|]. by left.
Qed.

Lemma wp_identity_run h : wpi (identity_run s o0) left_by h.
Proof.
  assert (forall e h', left_by (o0, Some e) h') as Herr by (intros e h' _; split; [done|apply may_stay]).
  unfold identity_run. cbv zeta. case_test; [done|]. case_test; [apply wp_identity_rollback|].
  case_test; [apply wp_identity_abort|]. case_test; [|apply Herr]. apply wp_identity_forward.
  apply orb_true_iff in Heqb2 as [Hb|Hb]; apply phase_eqb_true in Hb; auto.
Qed.

Lemma wp_identity_Run h : wpi (identity_Run s o0) (fun _ _ => True) h.
Proof.
  unfold identity_Run. apply wp_bind_2. eapply wp_mono with (Q := left_by).
  { destruct (iw_validateObject o0); [|apply wp_identity_run]. intros _. split; [done|apply may_stay]. }
  intros [o [e|]] h1 _ Hl; [|done]. cbn [fst snd]. case_test; [done|].
  destruct Hl as [Hu Hm]; [done|]. by apply wp_identity_fail.
Qed.

End identity.

(** ** Cleanup *)

Section cleanup.
Context `{CR : ConflictRetry} {Obj : Type} `{IW : IdentityWorkflow Obj}.
Context (held : bool) (o0 : Obj) (options : IdentityCleanupOptions).
Notation xtrace := (xtraceOf Obj).
Implicit Types h : xtrace.

(** Giving back the claim restores the recorded metadata of an unowned claim; giving back
    the volume strips the session's own marks and restores the policy. *)
Definition release_identity_guard (plan : IdentityPlan) (hk : trace) (r : req) : Prop :=
  claim_update_guard (active_claim o0 plan)
    (fun p p' => unowned_or (iw_Name o0) p /\ p' = finalized p (template_Metadata (ip_Template plan))) hk r \/
  exists policy, reclaim_guard (iw_Name o0) (retained_source (active_claim o0 plan) (ip_PV plan) policy) false hk r.

(** The claim in use was given back, or was seen absent. *)
Definition given_back (plan : IdentityPlan) h : Prop :=
  (exists e, IsNotFound e = true /\
     Ev (XKube (GetPVC (Namespace (active_claim o0 plan)) (Name (active_claim o0 plan)))) (inr e) ∈ h) \/
  exists p, Ev (XKube (UpdatePVC (finalized p (template_Metadata (ip_Template plan))))) None ∈ h.

Definition finished_phase (phase : Phase) : Prop :=
  phase = PhaseCompleted \/ phase = PhaseAborted \/ phase = PhaseRolledBack.

(** A planned workflow is finished, and finalization was asked for. *)
Definition finalizing (plan : IdentityPlan) : Prop :=
  ic_Finalize options = true /\ finished_phase (phase_of o0).

Definition identity_cleanup_guard h (r : xreq Obj) : Prop :=
  match r with
  | XKube r => is_write r = true -> exists plan hk h1,
      iw_plan o0 = Some plan /\ finalizing plan /\ h = map lift_event hk ++ h1 /\ release_identity_guard plan hk r
  | XDeleteLock => ic_DeleteSession options = true /\ held = true /\
      forall plan, iw_plan o0 = Some plan -> finalizing plan /\ given_back plan h
  | XDeleteStored o => o = o0 /\ ic_DeleteSession options = true /\ (held = true -> Ev XDeleteLock None ∈ h) /\
      forall plan, iw_plan o0 = Some plan -> finalizing plan /\ given_back plan h
  | XSave _ | XDetachedErr | XService _ | XPanic => False
  end.

Notation wpc := (wp identity_cleanup_guard).

Lemma identity_cleanup_reads h r : is_write r = false -> is_progress r = false -> identity_cleanup_guard h (XKube r).
Proof. intros Hw Hp. cbn. by rewrite Hw. Qed.

Lemma given_back_mono plan h h' : h `suffix_of` h' -> given_back plan h -> given_back plan h'.
Proof.
  intros [k ->] [(e & He & Hin)|(p & Hin)]; [left; exists e; split; [done|]|right; exists p]; apply elem_of_app; by right.
Qed.

Lemma release_identity_reads plan : reads_ok (release_identity_guard plan).
Proof. intros h r Hw Hp. left. by apply claim_update_reads. Qed.

Lemma wp_release_identity plan :
  wp (release_identity_guard plan) (release_identity o0 plan)
    (on_ok (fun hk => forall h1, given_back plan (map lift_event hk ++ h1))) [].
Proof.
  pose proof (release_identity_reads plan) as HG. unfold release_identity.
  apply wp_check. eapply wp_mono; [eapply wp_guard_mono; [apply wp_FinalizePVC|by left]|]. intros [e|] hk Hs Hok; [done|].
  assert (forall hk' h1, hk `suffix_of` hk' -> given_back plan (map lift_event hk' ++ h1)) as Hgb.
  { intros hk' h1 [k ->]. destruct (Hok eq_refl) as [(e & He & Hin)|(p & Hin)].
    - left. exists e. split; [done|]. rewrite map_app. apply elem_of_app. left. apply elem_of_app. right.
      by apply (list_elem_of_fmap_2 (lift_event (Obj := Obj))) in Hin.
    - right. exists p. rewrite map_app. apply elem_of_app. left. apply elem_of_app. right.
      by apply (list_elem_of_fmap_2 (lift_event (Obj := Obj))) in Hin. }
  apply wp_bind_2. eapply wp_mono with (Q := fun _ _ => True).
  { apply wp_of_reads; [done|]. unfold resolvedSourcePolicy. reads_tac. }
  intros policy hk1 Hs1 _. apply wp_bind_2.
  eapply wp_mono; [eapply wp_guard_mono; [apply (wp_finalizeActivePV (iw_Name o0)
    (retained_source (active_claim o0 plan) (ip_PV plan) policy) false); done|]|].
  - intros h' r _ Hr. right. by exists policy.
  - intros e hk2 Hs2 _. apply wp_Ret. intros _ h1. apply Hgb. by etrans.
Qed.

Lemma reads_retained id claim volume policy : reads (validateRetainedIdentity id claim volume policy).
Proof. unfold validateRetainedIdentity. reads_tac. Qed.

Lemma wp_ValidateCleanup h :
  wpc (lift (identity_ValidateCleanup o0 options)) (fun e _ => e = None ->
    forall plan, iw_plan o0 = Some plan ->
      finished_phase (phase_of o0) /\ (ic_DeleteSession options = true -> ic_Finalize options = true)) h.
Proof.
  unfold identity_ValidateCleanup. destruct (iw_validateObject o0); [done|]. cbn.
  destruct (iw_plan o0) as [plan|]; [|done].
  destruct (validateIdentityCleanup (phase_of o0) options) eqn:Hv; [done|].
  assert (finished_phase (phase_of o0) /\ (ic_DeleteSession options = true -> ic_Finalize options = true)) as Hok.
  { unfold validateIdentityCleanup in Hv. case_test; [done|]. case_test; [done|].
    rewrite !andb_false_iff, !negb_false_iff, !phase_eqb_true in Heqb.
    split; [unfold finished_phase; tauto|]. intros Hd. rewrite Hd in Heqb0. by destruct (ic_Finalize options). }
  case_test; [by apply wp_Ret; intros _ ? _|]. eapply wp_mono; [apply wp_lift; [apply identity_cleanup_reads|]|by intros e h' _ _ _ ? _].
  apply (reads_retained (iw_Name o0) (active_claim o0 plan) (ip_PV plan) (policy_string (template_ReclaimPolicy (ip_Template plan)))).
Qed.

Lemma wp_identity_cleanup h : wpc (identity_cleanup held o0 options) (fun _ _ => True) h.
Proof.
  unfold identity_cleanup. apply wp_bind_2. eapply wp_mono; [apply wp_ValidateCleanup|].
  intros [e|] h1 _ Hok; [done|]. specialize (Hok eq_refl). apply wp_bind_2.
  eapply wp_mono with (Q := fun e h' => e = None -> ic_DeleteSession options = true ->
    forall plan, iw_plan o0 = Some plan -> finalizing plan /\ given_back plan h').
  { destruct (iw_plan o0) as [plan|] eqn:Hp; [|done]. destruct (Hok plan eq_refl) as [Hfin Hdel].
    case_test.
    - eapply wp_mono; [apply (wp_lift_guard identity_cleanup_guard (release_identity_guard plan)
        _ (on_ok (fun hk => forall h1, given_back plan (map lift_event hk ++ h1))) [] h1)|].
      + intros hk r Hr _. by exists plan, hk, h1.
      + apply wp_release_identity.
      + intros e h2 _ (hk & -> & HQ) He _ plan' [= <-]. split; [by split|by apply HQ].
    - intros _ Hd. by specialize (Hdel Hd). }
  intros [e|] h2 _ Hrel; [done|]. case_test; [|done]. specialize (Hrel eq_refl eq_refl).
  apply wp_bind_2. eapply wp_mono with (Q := fun e h' => e = None ->
    (held = true -> Ev XDeleteLock None ∈ h') /\ forall plan, iw_plan o0 = Some plan -> finalizing plan /\ given_back plan h').
  { destruct held eqn:Hh; [|done]. split; [by split_and!|]. intros e ->. split; [left|].
    intros plan Hp. destruct (Hrel plan Hp). split; [done|]. eapply given_back_mono; [|done]. by apply suffix_cons_r. }
  intros [e|] h3 _ Hl; [done|]. destruct (Hl eq_refl) as [Hlock Hgb]. apply wp_ask; [by split_and!|]. by intros e.
Qed.

End cleanup.
