(* ===== verification/MemServer.v ===== *)
(** * A small in-memory API server

    A concrete server state machine that answers the requests of [Api]: claims,
    volumes and Pods with resource versions and preconditions, a binder that binds
    a claim to the volume it names, a provisioner that serves a claim when a Pod
    uses it, and reclaim on deletion.  It shows that the hypotheses of the theorems
    can be met and lets whole operations be evaluated; no theorem depends on it. *)

From S2P Require Import Prelude GoErrors Lifecycle KubeTypes Prog Api PVBinding GoFormat.
From Stdlib Require Import DecimalString DecimalZ DecimalPos.

(** ** Decimal quantities *)

Definition parse_Z (s : string) : result Z :=
  match NilZero.int_of_string s with
  | Some i => inl (Z.of_int i)
  | None => inr (EText "quantities must be decimal")
  end.

Lemma parse_show_Z z : parse_Z (show_Z z) = inl z.
Proof.
  unfold parse_Z, show_Z.
  rewrite NilZero.isi; [by rewrite DecimalZ.of_to|..];
    (destruct z as [|p|p]; cbn; [done| |]; intros [= Hn];
     by apply (DecimalPos.Unsigned.to_uint_nonnil p)) || (destruct z; done).
Qed.

#[global] Instance decimal_quantity : QuantityText :=
  {| quantity_string := show_Z; ParseQuantity := parse_Z; quantity_roundtrip := parse_show_Z |}.

(** ** State *)

Record Cluster := {
  claims : gmap (string * string) PVC;
  volumes : gmap string PV;
  pods : list Pod;
  attachments : list VolumeAttachment;
  nodes : list Node;
  classes : list StorageClass;
  quotas : list ResourceQuota;
  limits : list LimitRange;
  counter : Z;
  ticks : nat;
  checkpoints : list ActivationStatus
}.

(** The claims, volumes and Pods after a write; the write takes a version. *)
Definition update3 (c : Cluster) (cs : gmap (string * string) PVC) (vs : gmap string PV) (ps : list Pod)
    : Cluster :=
  {| claims := cs; volumes := vs; pods := ps; attachments := attachments c; nodes := nodes c;
     classes := classes c; quotas := quotas c; limits := limits c;
     counter := (counter c + 1)%Z; ticks := ticks c; checkpoints := checkpoints c |}.

Definition update (c : Cluster) (cs : gmap (string * string) PVC) (vs : gmap string PV) : Cluster :=
  update3 c cs vs (pods c).

Definition next_version (c : Cluster) : string := "rv" +:+ show_Z (counter c).

Definition pvc_stored (p : PVC) (uid rv : string) (phase : ClaimPhase) : PVC :=
  {| pvc_Namespace := pvc_Namespace p; pvc_Name := pvc_Name p; pvc_UID := uid;
     pvc_ResourceVersion := rv; pvc_DeletionTimestamp := None; pvc_Labels := pvc_Labels p;
     pvc_Annotations := pvc_Annotations p; pvc_Finalizers := pvc_Finalizers p;
     pvc_OwnerReferences := pvc_OwnerReferences p; pvc_Spec := pvc_Spec p; pvc_Phase := phase;
     pvc_AllocatedStorage := spec_StorageRequest (pvc_Spec p);
     pvc_CurrentVolumeAttributesClass := spec_VolumeAttributesClassName (pvc_Spec p);
     pvc_TargetVolumeAttributesClass := None |}.

Definition pv_stored (p : PV) (rv : string) (ref : option ObjectReference) (phase : VolumePhase) : PV :=
  {| pv_Name := pv_Name p; pv_UID := pv_UID p; pv_ResourceVersion := rv;
     pv_DeletionTimestamp := None; pv_Labels := pv_Labels p; pv_Annotations := pv_Annotations p;
     pv_ClaimRef := ref; pv_ReclaimPolicy := pv_ReclaimPolicy p; pv_Capacity := pv_Capacity p;
     pv_Phase := phase; pv_NodeAffinity := pv_NodeAffinity p;
     pv_CSIDriver := pv_CSIDriver p |}.

Definition not_found (what : string) : err := EStatus ReasonNotFound (what +:+ " not found").
Definition conflict (what : string) : err := EStatus ReasonConflict (what +:+ " was modified").

(** ** Requests *)

Definition create_claim (p : PVC) (c : Cluster) : result (option PVC) * Cluster :=
  match claims c !! (pvc_Namespace p, pvc_Name p) with
  | Some _ => (inr (EStatus ReasonAlreadyExists "claim exists"), c)
  | None =>
      let uid := "uid-" +:+ show_Z (counter c) in
      let key := (pvc_Namespace p, pvc_Name p) in
      let pending := pvc_stored p uid (next_version c) ClaimPending in
      match volumes c !! pvc_VolumeName p with
      | Some pv =>
          if (claimref_is (pv_ClaimRef pv) (pvc_Namespace p) (pvc_Name p)
              && (claimref_uid (pv_ClaimRef pv) =s ""))%bool then
            let bound := pvc_stored p uid (next_version c) ClaimBound in
            (inl (Some bound),
             update c (<[key := bound]> (claims c))
               (<[pv_Name pv := pv_stored pv (next_version c) (Some (PVCReference (Some bound))) VolumeBound]>
                  (volumes c)))
          else (inl (Some pending), update c (<[key := pending]> (claims c)) (volumes c))
      | None => (inl (Some pending), update c (<[key := pending]> (claims c)) (volumes c))
      end
  end.

Definition delete_claim (ns name uid rv : string) (c : Cluster) : option err * Cluster :=
  match claims c !! (ns, name) with
  | None => (Some (not_found "claim"), c)
  | Some p =>
      if ((pvc_UID p <>s uid) || (pvc_ResourceVersion p <>s rv))%bool then (Some (conflict "claim"), c) else
      let vs :=
        match volumes c !! pvc_VolumeName p with
        | Some pv =>
            if bool_decide (pv_ReclaimPolicy pv = ReclaimRetain) then
              <[pv_Name pv := pv_stored pv (next_version c) (pv_ClaimRef pv) VolumeReleased]> (volumes c)
            else delete (pv_Name pv) (volumes c)
        | None => volumes c
        end in
      (None, update c (delete (ns, name) (claims c)) vs)
  end.

Definition update_claim (p : PVC) (c : Cluster) : option err * Cluster :=
  match claims c !! (pvc_Namespace p, pvc_Name p) with
  | None => (Some (not_found "claim"), c)
  | Some old =>
      if pvc_ResourceVersion old <>s pvc_ResourceVersion p then (Some (conflict "claim"), c)
      else (None, update c (<[(pvc_Namespace p, pvc_Name p) :=
              pvc_stored p (pvc_UID old) (next_version c) (pvc_Phase old)]> (claims c)) (volumes c))
  end.

Definition update_volume (p : PV) (c : Cluster) : result (option PV) * Cluster :=
  match volumes c !! pv_Name p with
  | None => (inr (not_found "volume"), c)
  | Some old =>
      if pv_ResourceVersion old <>s pv_ResourceVersion p then (inr (conflict "volume"), c)
      else
        let stored := pv_stored p (next_version c) (pv_ClaimRef p) (pv_Phase old) in
        (inl (Some stored), update c (claims c) (<[pv_Name p := stored]> (volumes c)))
  end.

Definition delete_volume (name uid rv : string) (c : Cluster) : option err * Cluster :=
  match volumes c !! name with
  | None => (Some (not_found "volume"), c)
  | Some p =>
      if ((pv_UID p <>s uid) || (pv_ResourceVersion p <>s rv))%bool then (Some (conflict "volume"), c)
      else (None, update c (claims c) (delete name (volumes c)))
  end.

(** *** Pods *)

Definition pod_is (ns name : string) (p : Pod) : bool := ((pod_Namespace p =s ns) && (pod_Name p =s name))%bool.

Definition pod_stored (p : Pod) (uid rv node phase : string) (conditions : list Condition) : Pod :=
  {| pod_Namespace := pod_Namespace p; pod_Name := pod_Name p; pod_UID := uid; pod_ResourceVersion := rv;
     pod_Labels := pod_Labels p; pod_OwnerReferences := pod_OwnerReferences p; pod_NodeName := node;
     pod_NodeSelector := pod_NodeSelector p; pod_Tolerations := pod_Tolerations p;
     pod_RestartPolicy := pod_RestartPolicy p;
     pod_AutomountServiceAccountToken := pod_AutomountServiceAccountToken p;
     pod_TerminationGracePeriodSeconds := pod_TerminationGracePeriodSeconds p;
     pod_Containers := pod_Containers p; pod_Volumes := pod_Volumes p; pod_Phase := phase;
     pod_Conditions := conditions |}.

(** The volume that is provisioned for a pending claim when a Pod uses it. *)
Definition provisioned (p : PVC) (c : Cluster) : PV :=
  {| pv_Name := "pv-" +:+ show_Z (counter c); pv_UID := "uid-pv-" +:+ show_Z (counter c);
     pv_ResourceVersion := next_version c; pv_DeletionTimestamp := None; pv_Labels := ∅;
     pv_Annotations := ∅; pv_ClaimRef := Some (PVCReference (Some p)); pv_ReclaimPolicy := ReclaimDelete;
     pv_Capacity := spec_StorageRequest (pvc_Spec p); pv_Phase := VolumeBound; pv_NodeAffinity := None;
     pv_CSIDriver := None |}.

Definition bind_to (p : PVC) (pv : string) : PVC :=
  {| pvc_Namespace := pvc_Namespace p; pvc_Name := pvc_Name p; pvc_UID := pvc_UID p;
     pvc_ResourceVersion := pvc_ResourceVersion p; pvc_DeletionTimestamp := pvc_DeletionTimestamp p;
     pvc_Labels := pvc_Labels p; pvc_Annotations := pvc_Annotations p; pvc_Finalizers := pvc_Finalizers p;
     pvc_OwnerReferences := pvc_OwnerReferences p;
     pvc_Spec := {| spec_AccessModes := spec_AccessModes (pvc_Spec p); spec_Selector := spec_Selector (pvc_Spec p);
                    spec_StorageRequest := spec_StorageRequest (pvc_Spec p); spec_VolumeName := pv;
                    spec_StorageClassName := spec_StorageClassName (pvc_Spec p);
                    spec_VolumeMode := spec_VolumeMode (pvc_Spec p);
                    spec_DataSource := spec_DataSource (pvc_Spec p);
                    spec_DataSourceRef := spec_DataSourceRef (pvc_Spec p);
                    spec_VolumeAttributesClassName := spec_VolumeAttributesClassName (pvc_Spec p) |};
     pvc_Phase := ClaimBound; pvc_AllocatedStorage := spec_StorageRequest (pvc_Spec p);
     pvc_CurrentVolumeAttributesClass := spec_VolumeAttributesClassName (pvc_Spec p);
     pvc_TargetVolumeAttributesClass := None |}.

Definition provision (ns : string) (c : Cluster) (claim : option string) : Cluster :=
  match claim with
  | None => c
  | Some name =>
      match claims c !! (ns, name) with
      | Some p =>
          if bool_decide (pvc_Phase p = ClaimBound) then c else
          let pv := provisioned p c in
          update c (<[(ns, name) := bind_to p (pv_Name pv)]> (claims c)) (<[pv_Name pv := pv]> (volumes c))
      | None => c
      end
  end.

(** A created Pod is scheduled and Ready at once. *)
Definition create_pod (p : Pod) (c : Cluster) : result (option Pod) * Cluster :=
  if existsb (pod_is (pod_Namespace p) (pod_Name p)) (pods c) then
    (inr (EStatus ReasonAlreadyExists "pod exists"), c)
  else
    let c' := foldl (provision (pod_Namespace p)) c (pod_Volumes p) in
    let q := pod_stored p ("uid-pod-" +:+ show_Z (counter c')) (next_version c')
               (mget (pod_NodeSelector p) LabelHostname) "Running"
               [{| condition_Type := "Ready"; condition_Status := "True" |}] in
    (inl (Some q), update3 c' (claims c') (volumes c') (q :: pods c')).

Definition delete_pod (ns name uid : string) (rv : option string) (c : Cluster) : option err * Cluster :=
  match List.find (pod_is ns name) (pods c) with
  | None => (Some (not_found "pod"), c)
  | Some p =>
      if ((pod_UID p <>s uid) || match rv with Some v => pod_ResourceVersion p <>s v | None => false end)%bool
      then (Some (conflict "pod"), c)
      else (None, update3 c (claims c) (volumes c) (List.filter (fun q => negb (pod_is ns name q)) (pods c)))
  end.

Definition with_ticks (c : Cluster) (n : nat) : Cluster :=
  {| claims := claims c; volumes := volumes c; pods := pods c; attachments := attachments c;
     nodes := nodes c; classes := classes c; quotas := quotas c; limits := limits c;
     counter := counter c; ticks := n; checkpoints := checkpoints c |}.

Definition with_checkpoint (c : Cluster) (st : ActivationStatus) : Cluster :=
  {| claims := claims c; volumes := volumes c; pods := pods c; attachments := attachments c;
     nodes := nodes c; classes := classes c; quotas := quotas c; limits := limits c;
     counter := counter c; ticks := ticks c; checkpoints := st :: checkpoints c |}.

Definition api_server : handler (E := req) (R := resp) Cluster :=
  fun r c =>
    match r return resp r * Cluster with
    | CtxErr => (None, c)
    | FenceErr => (None, c)
    | Now => (counter c, c)
    | TickOrDone =>
        match ticks c with
        | O => (Some (EContext DeadlineExceeded), c)
        | S n => (None, with_ticks c n)
        end
    | GetPVC ns name =>
        (match claims c !! (ns, name) with Some p => inl p | None => inr (not_found "claim") end, c)
    | CreatePVC p true =>
        (match claims c !! (pvc_Namespace p, pvc_Name p) with
         | Some _ => inr (EStatus ReasonAlreadyExists "claim exists")
         | None => inl (Some p)
         end, c)
    | CreatePVC p false => create_claim p c
    | UpdatePVC p => update_claim p c
    | DeletePVC ns name uid rv => delete_claim ns name uid rv c
    | GetPV name =>
        (match volumes c !! name with Some p => inl p | None => inr (not_found "volume") end, c)
    | UpdatePV p => update_volume p c
    | UpdatePVUnsupported _ _ => (Some (EText "unsupported reclaim policy"), c)
    | DeletePV name uid rv => delete_volume name uid rv c
    | ListPodsMatching ns _ => (inl (Some (List.filter (fun p => pod_Namespace p =s ns) (pods c))), c)
    | GetPod ns name =>
        (match List.find (pod_is ns name) (pods c) with Some p => inl p | None => inr (not_found "pod") end, c)
    | CreatePod p => create_pod p c
    | DeletePod ns name uid rv => delete_pod ns name uid rv c
    | GetWorkload _ _ _ => (inr (not_found "workload"), c)
    | GetNode name =>
        (match List.find (fun n => node_Name n =s name) (nodes c) with
         | Some n => inl n | None => inr (not_found "node") end, c)
    | ListNodes => (inl (nodes c), c)
    | GetStorageClass name =>
        (match List.find (fun k => sc_Name k =s name) (classes c) with
         | Some k => inl k | None => inr (not_found "class") end, c)
    | ListResourceQuotas _ => (inl (Some (quotas c)), c)
    | ListLimitRanges _ => (inl (Some (limits c)), c)
    | ListPods ns => (inl (Some (List.filter (fun p => pod_Namespace p =s ns) (pods c))), c)
    | ListVolumeAttachments => (inl (Some (attachments c)), c)
    | Progress st => (None, match st with Some st => with_checkpoint c st | None => c end)
    end.

(** The server's tick budget is a deadline. *)
Lemma provision_ticks ns c claim : ticks (provision ns c claim) = ticks c.
Proof. unfold provision. by repeat case_match. Qed.

Lemma provisions_ticks ns l c : ticks (foldl (provision ns) c l) = ticks c.
Proof.
  revert c. induction l as [|x l IH]; intros c; simpl; [done|]. rewrite IH. apply provision_ticks.
Qed.

Lemma create_pod_ticks p c : ticks (create_pod p c).2 = ticks c.
Proof. unfold create_pod. case_match; [done|]. cbn. apply provisions_ticks. Qed.

Lemma api_server_deadline : deadline api_server ticks.
Proof.
  split.
  - intros r c.
    destruct r as [ | | | | |p []| | | | | | | | |p| | | | | | | | | |[st|]]; cbn; try done.
    + destruct (ticks c) eqn:E; cbn; lia.
    + unfold create_claim. repeat case_match; cbn; lia.
    + unfold update_claim. repeat case_match; cbn; lia.
    + unfold delete_claim. repeat case_match; cbn; lia.
    + unfold update_volume. repeat case_match; cbn; lia.
    + unfold delete_volume. repeat case_match; cbn; lia.
    + rewrite create_pod_ticks. lia.
    + unfold delete_pod. repeat case_match; cbn; lia.
  - intros c. cbn. destruct (ticks c); cbn; [done|lia].
Qed.
