(* ===== verification/MemCluster.v ===== *)
(** * Whole cutovers evaluated

    A cutover, a rollback, a rename and an acquire/release run on the server of
    MemServer, and the theorems on them instantiated at these runs. *)

From S2P Require Import Prelude Utf8 GoErrors Lifecycle KubeTypes Prog Api ResourceState Ownership PVBinding Offline Activation SwitcherRules SwitcherSafety SwitcherTermination RebindSafety OfflineSafety GoFormat MemServer.

(** ** A migration in the middle *)

Definition gib (n : Z) : Quantity := (n * 1073741824)%Z.

Definition example_spec (volume : string) : PVCSpec :=
  {| spec_AccessModes := ["ReadWriteOnce"]; spec_Selector := None;
     spec_StorageRequest := Some (gib 10); spec_VolumeName := volume;
     spec_StorageClassName := Some "fast"; spec_VolumeMode := None; spec_DataSource := None;
     spec_DataSourceRef := None; spec_VolumeAttributesClassName := None |}.

Definition example_claim (name uid volume : string) : PVC :=
  {| pvc_Namespace := "app"; pvc_Name := name; pvc_UID := uid; pvc_ResourceVersion := "rv0";
     pvc_DeletionTimestamp := None; pvc_Labels := {["app" := "db"]}; pvc_Annotations := ∅;
     pvc_Finalizers := [PVCProtectionFinalizer]; pvc_OwnerReferences := [];
     pvc_Spec := example_spec volume; pvc_Phase := ClaimBound; pvc_AllocatedStorage := Some (gib 10);
     pvc_CurrentVolumeAttributesClass := None; pvc_TargetVolumeAttributesClass := None |}.

Definition example_volume (name uid : string) (claim : PVC) : PV :=
  {| pv_Name := name; pv_UID := uid; pv_ResourceVersion := "rv0"; pv_DeletionTimestamp := None;
     pv_Labels := ∅; pv_Annotations := ∅; pv_ClaimRef := Some (PVCReference (Some claim));
     pv_ReclaimPolicy := ReclaimDelete; pv_Capacity := Some (gib 10); pv_Phase := VolumeBound;
     pv_NodeAffinity := None; pv_CSIDriver := None |}.

Definition source_claim : PVC := example_claim "data" "uid-src" "pv-src".
Definition temporary_claim : PVC := example_claim "data-tmp" "uid-tmp" "pv-dst".
Definition source_volume : PV := example_volume "pv-src" "uid-pv-src" source_claim.
Definition destination_volume : PV := example_volume "pv-dst" "uid-pv-dst" temporary_claim.

Definition example_cluster : Cluster :=
  {| claims := {[("app", "data") := source_claim; ("app", "data-tmp") := temporary_claim]};
     volumes := {["pv-src" := source_volume; "pv-dst" := destination_volume]};
     pods := []; attachments := []; nodes := []; classes := []; quotas := []; limits := [];
     counter := 100; ticks := 3; checkpoints := [] |}.

Definition example_bindings : PVCTransferBindings :=
  {| SourcePVC := PVCReference (Some source_claim); SourcePV := PVReference (Some source_volume);
     DestinationPVC := PVCReference (Some temporary_claim);
     DestinationPV := PVReference (Some destination_volume) |}.

Definition source_metadata : PVCMetadata :=
  {| meta_Labels := pvc_Labels source_claim; meta_Annotations := ∅; meta_OwnerReferences := [] |}.

Definition example_manifest (pv : string) : PVC :=
  BoundPVCManifest "mig-1" (PVCReference (Some source_claim)) pv (pvc_Spec source_claim) source_metadata.

Definition fresh_status : ActivationStatus :=
  {| TemporaryPVCDeleted := false; SourcePVCDeleted := false; DestinationReserved := false;
     ActivePVC := None; ActivatedAt := None; RolledBackAt := None |}.

Definition example_activation :=
  activate_run (NewSwitcher 4) "mig-1" "app" example_bindings (example_manifest "pv-dst") fresh_status
    true api_server example_cluster.

Definition summary (out : option (option ActivationStatus * option err) * Cluster * trace) : option err * bool * list string :=
  (match out.1.1 with Some (_, e) => e | None => Some (EText "running") end,
   match out.1.1 with Some (Some st, None) => true | _ => false end,
   match claims out.1.2 !! ("app", "data") with Some p => [pvc_VolumeName p; pvc_UID p] | None => [] end).

Example example_activation_succeeds : summary example_activation = (None, true, ["pv-dst"; "uid-105"]).
Proof. vm_compute. reflexivity. Qed.

(** The checkpoint and cluster after the activation. *)
Definition activated_status : ActivationStatus :=
  match example_activation.1.1 with Some (Some st, None) => st | _ => fresh_status end.
Definition activated_cluster : Cluster := example_activation.1.2.


(** Rolling the finished cutover back. *)
Definition example_rollback :=
  rollback_run (NewSwitcher 4) "mig-1" "app" example_bindings (example_manifest "pv-src")
    activated_status true api_server activated_cluster.

Example example_rollback_restores : summary example_rollback = (None, true, ["pv-src"; "uid-112"]).
Proof. vm_compute. reflexivity. Qed.

Definition rolled_back_status : ActivationStatus :=
  match example_rollback.1.1 with Some (Some st, None) => st | _ => fresh_status end.


(** Renaming the source claim. *)
Definition renamed_manifest : PVC :=
  BoundPVCManifest "mig-1"
    {| APIVersion := "v1"; Kind := KindPersistentVolumeClaim; Namespace := "app"; Name := "data-new";
       UID := ""; ResourceVersion := "" |} "pv-src" (pvc_Spec source_claim) source_metadata.

Definition example_rename :=
  rename_run (NewSwitcher 4) "mig-1" (PVCReference (Some source_claim)) (PVReference (Some source_volume))
    renamed_manifest true api_server example_cluster.

Example example_rename_moves :
  (match example_rename.1.1 with Some (inl p) => [pvc_Name p; pvc_VolumeName p] | _ => [] end,
   claims example_rename.1.2 !! ("app", "data")) = (["data-new"; "pv-src"], None).
Proof. vm_compute. reflexivity. Qed.

Lemma switcher_returns_witness :
  exists r, (run api_server (ActivatePVC (NewSwitcher 4) "mig-1" "app" example_bindings
    (Some (example_manifest "pv-dst")) (Some fresh_status) true) example_cluster []).1.1 = Some r.
Proof.
  refine (proj1 (switcher_returns api_server ticks api_server_deadline (NewSwitcher 4) "mig-1" "app"
    example_bindings (PVCReference (Some source_claim)) (PVReference (Some source_volume))
    (Some (example_manifest "pv-dst")) (Some fresh_status) true example_cluster _)).
  vm_compute. lia.
Defined.

(** Ownership round trip on the server: acquiring and then releasing a claim
    leaves its annotations as they were. *)
Definition example_acquire :=
  run api_server (AcquirePVC (PVCReference (Some source_claim)) "mig-1") example_cluster [].
Definition example_release :=
  run api_server (ReleasePVC (PVCReference (Some source_claim)) "mig-1") example_acquire.1.2 [].

Example example_acquire_release :
  (pvc_Annotations <$> (claims example_acquire.1.2 !! ("app", "data")),
   pvc_Annotations <$> (claims example_release.1.2 !! ("app", "data")))
  = (Some {[SessionKey := "mig-1"]}, Some (pvc_Annotations source_claim)).
Proof. vm_compute. reflexivity. Qed.

(** ** The safety theorems at these runs

    The requests of each kind that the run issued, all of them covered by the
    theorem. *)
Definition requests (f : req -> bool) (h : trace) : nat :=
  length (List.filter f (map (fun e : kevent => match e with Ev r _ => r end) h)).

Definition is_create (r : req) : bool := match r with CreatePVC _ false => true | _ => false end.
Definition is_pv_update (r : req) : bool := match r with UpdatePV _ => true | _ => false end.
Definition is_pvc_update (r : req) : bool := match r with UpdatePVC _ => true | _ => false end.

Lemma activate_deletes_safely_witness :
  requests is_delete example_activation.2 = 2 /\
  calls_ok (fun h r => match r with
    | DeletePVC ns name uid rv => delete_ok "mig-1" example_bindings fresh_status h ns name uid rv
    | _ => True end) [] example_activation.2.
Proof. split; [vm_compute; reflexivity|]. apply activate_deletes_safely. Defined.


Lemma activate_updates_own_volumes_witness :
  requests is_pv_update example_activation.2 = 5 /\
  calls_ok (fun h r => match r with
    | UpdatePV pv => pv_update_ok [SourcePV example_bindings; DestinationPV example_bindings] "mig-1"
                       (pvc_Namespace (example_manifest "pv-dst")) (pvc_Name (example_manifest "pv-dst")) h pv
    | _ => True end) [] example_activation.2.
Proof. split; [vm_compute; reflexivity|]. apply activate_updates_own_volumes. Defined.


Lemma rollback_never_deletes_source_witness :
  requests is_delete example_rollback.2 = 1 /\
  calls_ok (rollback_guard "mig-1" example_bindings (example_manifest "pv-src") activated_status)
    [] example_rollback.2.
Proof. split; [vm_compute; reflexivity|]. apply rollback_never_deletes_source. Defined.

Lemma rename_keeps_volume_witness :
  requests is_delete example_rename.2 = 1 /\
  calls_ok (rename_guard "mig-1" (PVCReference (Some source_claim)) (PVReference (Some source_volume))
    renamed_manifest) [] example_rename.2.
Proof. split; [vm_compute; reflexivity|]. apply rename_keeps_volume. Defined.

Lemma AcquirePVC_exclusive_witness :
  requests is_pvc_update example_acquire.2 = 1 /\
  claim_seen (PVCReference (Some source_claim))
    (fun p => mget (pvc_Annotations p) SessionKey = "mig-1") example_acquire.2.
Proof.
  split; [vm_compute; reflexivity|].
  refine (proj2 (AcquirePVC_exclusive api_server (PVCReference (Some source_claim)) "mig-1" example_cluster) _).
  vm_compute. reflexivity.
Defined.

Lemma ReleasePVC_exact_witness :
  requests is_pvc_update example_release.2 = 1 /\
  (claim_absent (PVCReference (Some source_claim)) example_release.2 \/
   claim_seen (PVCReference (Some source_claim))
     (fun p => mget (pvc_Annotations p) SessionKey <> "mig-1") example_release.2).
Proof.
  split; [vm_compute; reflexivity|].
  refine (proj2 (ReleasePVC_exact api_server (PVCReference (Some source_claim)) "mig-1" example_acquire.1.2) _).
  vm_compute. reflexivity.
Defined.

Lemma FinalizePVC_safe_witness :
  let out := run api_server (FinalizePVC (PVCReference (Some source_claim)) "mig-1" source_metadata)
               example_acquire.1.2 [] in
  requests is_pvc_update out.2 = 1 /\
  (claim_absent (PVCReference (Some source_claim)) out.2 \/
   exists p, Ev (UpdatePVC (finalized p source_metadata)) None ∈ out.2).
Proof.
  cbv zeta. split; [vm_compute; reflexivity|].
  refine (proj2 (FinalizePVC_safe api_server (PVCReference (Some source_claim)) "mig-1" source_metadata
    example_acquire.1.2) _).
  vm_compute. reflexivity.
Defined.

Lemma offline_verification_sound_witness :
  let out := run api_server (verifyOfflineBindings (NewSwitcher 4) "mig-1" [example_bindings] false)
               example_cluster [] in
  out.1.1 = Some None /\
  Forall (fun v => volume_verified "mig-1" false v out.2) [example_bindings] /\
  all_detached ["pv-src"; "pv-dst"] out.2.
Proof.
  cbv zeta. split; [vm_compute; reflexivity|].
  refine (proj2 (offline_verification_sound (NewSwitcher 4) "mig-1" [example_bindings] false
    api_server example_cluster) _).
  vm_compute. reflexivity.
Defined.
