(* ===== verification/MemReserve.v ===== *)
(** * A reservation, a quota projection, a cleanup and a plan evaluated

    A reservation runs on the server of MemServer: the destination claim is created,
    provisioned through a Pod on the target node and pinned.  One claim of class fast and
    one tool Pod are projected against a quota that bounds them.  The cleanup of a
    rolled-back migration chooses and deletes the lost destination volume; the source
    claim and volume stay.  Last the planner chooses a target node. *)

From S2P Require Import Prelude Utf8 GoErrors Lifecycle GoFormat Prog KubeTypes Api ResourceState Ownership PVBinding NodeSelection Quota PVCPolicy QuotaCapacity Reclaim Reserver MigrationObject Offline Activation SwitcherRules SwitcherSafety ReserverSafety ReclaimSafety MigrationCleanup OrphanCleanup Planning MemServer MemCluster.

(** References of the form name:tag. *)
#[global] Instance simple_images : ImageGrammar :=
  fun s =>
    match String.index 0 ":" s with
    | Some i => inl (String.substring 0 i s, Some (String.substring (S i) (String.length s) s))
    | None => inl (s, None)
    end.

Definition target_node : Node :=
  {| node_Name := "node-b"; node_UID := "uid-node-b"; node_Labels := {[LabelHostname := "host-b"]};
     node_Unschedulable := false; node_Taints := [];
     node_Conditions := [{| condition_Type := "Ready"; condition_Status := "True" |}] |}.

Definition reserve_cluster : Cluster :=
  {| claims := {[("app", "data") := source_claim]}; volumes := {["pv-src" := source_volume]};
     pods := []; attachments := []; nodes := [target_node];
     classes := [{| sc_Name := "fast"; sc_AllowedTopologies := [] |}]; quotas := []; limits := [];
     counter := 100; ticks := 3; checkpoints := [] |}.

Definition example_request : ReservationRequest :=
  {| SessionID := "mig-1"; TargetNode := "node-b"; ToolImage := "tool:v1" |}.

Definition desired_claim : PVC :=
  {| pvc_Namespace := "app"; pvc_Name := "data-tmp"; pvc_UID := ""; pvc_ResourceVersion := "";
     pvc_DeletionTimestamp := None; pvc_Labels := ∅; pvc_Annotations := ∅; pvc_Finalizers := [];
     pvc_OwnerReferences := []; pvc_Spec := example_spec ""; pvc_Phase := ClaimPhaseNone;
     pvc_AllocatedStorage := None; pvc_CurrentVolumeAttributesClass := None;
     pvc_TargetVolumeAttributesClass := None |}.

Definition fresh_reservation : ReservationStatus :=
  {| rs_SourcePVCName := ""; rs_DestinationPVC := None; rs_DestinationPV := None;
     rs_DestinationPolicy := ""; rs_Reserved := false |}.

Definition example_reservation :=
  reserve_run (NewReserver 4) example_request (PVCReference (Some source_claim))
    (PVReference (Some source_volume)) (quantity_string (gib 10)) desired_claim fresh_reservation
    api_server reserve_cluster.

Definition reservation_result : ReservationStatus :=
  match example_reservation.1.1 with Some (Some st, None) => st | _ => fresh_reservation end.

Example example_reservation_done :
  (rs_Reserved reservation_result, Name <$> rs_DestinationPVC reservation_result,
   (fun pv => (policy_string (pv_ReclaimPolicy pv), mget (pv_Labels pv) SessionKey)) <$>
     volumes example_reservation.1.2 !! default "" (Name <$> rs_DestinationPV reservation_result),
   rs_DestinationPolicy reservation_result, length (pods example_reservation.1.2)) =
  (true, Some "data-tmp", Some ("Retain", "mig-1"), "Delete", 0).
Proof. vm_compute. reflexivity. Qed.

Lemma reserve_result_sound_witness :
  example_reservation.1.1 = Some (Some reservation_result, None) /\
  reserve_post example_request (PVCReference (Some source_claim)) (PVReference (Some source_volume))
    desired_claim fresh_reservation (Some reservation_result, None) example_reservation.2.
Proof.
  assert (example_reservation.1.1 = Some (Some reservation_result, None)) as Hr by (vm_compute; reflexivity).
  split; [exact Hr|].
  exact (reserve_result_sound (NewReserver 4) example_request (PVCReference (Some source_claim))
    (PVReference (Some source_volume)) (quantity_string (gib 10)) desired_claim fresh_reservation
    api_server reserve_cluster _ Hr).
Defined.

(** ** A quota projection *)

Definition one_claim : ResourceEstimate :=
  {| StorageRequests := "100"; PVCs := 1; Pods := 1; TerminatingPods := 1; NotTerminatingPods := 0; Jobs := 0;
     Deployments := 0; ReplicaSets := 0; Services := 0; ServiceNodePorts := 0; ServiceLoadBalancers := 0;
     Endpoints := 0; EndpointSlices := 0; Secrets := 0; ConfigMaps := 1; ServiceAccounts := 0; Leases := 1;
     ByStorageClass := {["fast" := "100"]}; PVCsByStorageClass := {["fast" := 1%Z]} |}.

Definition fast_storage : string := storageClassQuotaResourceName "fast" ResourceRequestsStorage.

Definition storage_quota (hard : Z) : ResourceQuota :=
  {| quota_Name := "storage"; quota_Scopes := []; quota_ScopeSelector := None;
     quota_Hard := {[fast_storage := hard; ResourcePods := NewQuantity 5]};
     quota_Used := {[fast_storage := 40%Z; ResourcePods := NewQuantity 4]} |}.

(** A limit of 140 is met exactly, one of 139 is not. *)
Example quota_boundary :
  EvaluateResourceQuotaCapacity "app" [storage_quota 140] [] one_claim = inl {| Checked := 2; Violations := [] |} /\
  EvaluateResourceQuotaCapacity "app" [storage_quota 139] [] one_claim =
    inl {| Checked := 2; Violations :=
      ["app/storage fast.storageclass.storage.k8s.io/requests.storage: used 40 + requested 100 exceeds hard 139"] |}.
Proof. vm_compute. split; reflexivity. Qed.

Lemma quota_projection_exact_witness :
  exists demand, quota_demand [] one_claim (storage_quota 140) = inl demand /\ quota_fits (storage_quota 140) demand.
Proof.
  assert (EvaluateResourceQuotaCapacity "app" [storage_quota 140] [] one_claim =
    inl {| Checked := 2; Violations := [] |}) as He by (vm_compute; reflexivity).
  destruct (proj1 (quota_projection_exact "app" [storage_quota 140] [] one_claim _ He)) as [Hfits _].
  exact (Forall_inv (Hfits eq_refl)).
Defined.

(** ** A cleanup *)

Definition lost_volume : PV :=
  {| pv_Name := "pv-dst"; pv_UID := "uid-pv-dst"; pv_ResourceVersion := "rv0"; pv_DeletionTimestamp := None;
     pv_Labels := {[ManagedByLabel := ManagedByValue; SessionKey := "mig-1"; ResourceRoleLabel := ResourceRoleRollback]};
     pv_Annotations := {[OriginalPolicyAnnotation := "Delete"]};
     pv_ClaimRef := Some (PVCReference (Some temporary_claim)); pv_ReclaimPolicy := ReclaimRetain;
     pv_Capacity := Some (gib 10); pv_Phase := VolumeReleased; pv_NodeAffinity := None; pv_CSIDriver := None |}.

Definition cleanup_cluster : Cluster :=
  {| claims := {[("app", "data") := source_claim]};
     volumes := {["pv-src" := source_volume; "pv-dst" := lost_volume]};
     pods := []; attachments := []; nodes := []; classes := []; quotas := []; limits := [];
     counter := 100; ticks := 3; checkpoints := [] |}.

Definition example_volume_spec : VolumeSpec :=
  {| vs_SourcePVC := localResourceReference (PVCReference (Some source_claim));
     vs_SourcePV := localResourceReference (PVReference (Some source_volume));
     vs_DestinationPVC := localResourceReference (PVCReference (Some temporary_claim));
     vs_SourceReclaimPolicy := "Delete"; vs_SourcePVCSpec := pvc_Spec source_claim;
     vs_SourcePVCMetadata := source_metadata; vs_Capacity := "10737418240"; vs_SourceCapacity := "10737418240";
     vs_SourceUsedBytes := 0; vs_SourceUsageKnown := false; vs_StorageClass := "fast";
     vs_AccessModes := ["ReadWriteOnce"]; vs_VolumeMode := "Filesystem"; vs_ConcurrentConsumers := 0;
     vs_TransferScope := None |}.

Definition rolled_back_reservation : ReservationStatus :=
  {| rs_SourcePVCName := "data"; rs_DestinationPVC := None;
     rs_DestinationPV := Some (PVReference (Some lost_volume)); rs_DestinationPolicy := "Delete";
     rs_Reserved := true |}.

Definition example_prepare :=
  run api_server (prepareMigrationReclaimVolume false "mig-1" PhaseRolledBack "app" "app" example_volume_spec
    rolled_back_reservation (Some (PVCReference (Some source_claim))) true) cleanup_cluster [].

Definition example_volumes : list reclaimVolume :=
  match example_prepare.1.1 with Some (inl (_, l)) => l | _ => [] end.

Example example_chooses_destination :
  map (fun v => (Name (rv_pv v), rv_delete v)) example_volumes = [("pv-src", false); ("pv-dst", true)].
Proof. vm_compute. reflexivity. Qed.


(** The chosen volume is deleted; the source stays. *)
Definition example_reclaim : Cluster :=
  (run api_server (reclaimStorageVolume 4 "mig-1" (nth 1 example_volumes (retained_source empty_reference
     empty_reference "")) true) cleanup_cluster []).1.2.

Example example_reclaim_deletes :
  (bool_decide (is_Some (volumes example_reclaim !! "pv-dst")),
   bool_decide (is_Some (volumes example_reclaim !! "pv-src")),
   bool_decide (is_Some (claims example_reclaim !! ("app", "data")))) = (false, true, true).
Proof. vm_compute. reflexivity. Qed.

(** ** A target node chosen

    Selectors are the labels to match; a selector with an empty key is invalid. *)

#[local] Instance plain_selectors : LabelSelectors :=
  {| LabelSelector := list (string * string);
     LabelSelectorAsSelector selector :=
       if existsb (fun kv => kv.1 =s "") selector then None
       else Some (fun labels => forallb (fun kv => mget labels kv.1 =s kv.2) selector) |}.

Definition plan_node (name : string) (taints : list Taint) : PlanNode :=
  {| pn_Node := {| node_Name := name; node_UID := "uid-" +:+ name; node_Labels := {[LabelHostname := name]};
                   node_Unschedulable := false; node_Taints := taints;
                   node_Conditions := [{| condition_Type := "Ready"; condition_Status := "True" |}] |};
     pn_Allocatable := ∅ |}.

Definition capacity_object (node : string) (capacity : option Quantity) : CSIStorageCapacity :=
  {| cap_Namespace := "csi"; cap_Name := "cap-" +:+ node; cap_StorageClassName := "fast";
     cap_NodeTopology := Some [(LabelHostname, node)]; cap_Capacity := capacity; cap_MaximumVolumeSize := None |}.

(** The third node has too little, the fourth does not say. *)
Definition plan_nodes : list PlanNode := [plan_node "node-a" []; plan_node "node-b" []; plan_node "node-c" []; plan_node "node-d" []].

Definition plan_inventory (mode : string) : storageCapacityInventory :=
  loadStorageCapacity mode (inl (Some [capacity_object "node-a" (Some 150%Z); capacity_object "node-b" (Some 400%Z);
    capacity_object "node-c" (Some 50%Z); capacity_object "node-d" None])).

Definition example_planned_volume : PlannedVolume :=
  {| pnv_SourcePVC := PVCReference (Some source_claim); pnv_SourcePV := PVReference (Some source_volume);
     pnv_Capacity := "100"; pnv_StorageClass := "fast"; pnv_CSIProvisioner := "csi.example.com" |}.

Definition plan_demand : capacityDemand :=
  {| dm_storageClass := "fast"; dm_provisioner := "csi.example.com"; dm_total := 100%Z; dm_largest := 100%Z; dm_volumes := 1 |}.

Definition choose (mode : string) (nodes : list PlanNode) : option PlanNode * Check :=
  selectTargetNodeFromNodesWithZone "" None "node-a" "" [example_planned_volume] ∅ ∅ (Some (plan_inventory mode)) nodes None None.

(** The node with the larger surplus is taken, in every order of the nodes. *)
Example chosen_node :
  ((fun n => node_Name (pn_Node n)) <$> (choose CapacityAwarenessAuto plan_nodes).1,
   (fun n => node_Name (pn_Node n)) <$> (choose CapacityAwarenessAuto (rev plan_nodes)).1,
   check_Message (choose CapacityAwarenessAuto plan_nodes).2) =
  (Some "node-b", Some "node-b",
   "auto selected target node node-b (topology-compatible Ready node, CSI capacity verified for 1 StorageClass(es), distinct from source node-a)").
Proof. vm_compute. reflexivity. Qed.

Lemma capacity_status_exact_witness :
  judged (plan_inventory CapacityAwarenessAuto) (plan_node "node-b" []) plan_demand
    (evaluate (Some (plan_inventory CapacityAwarenessAuto)) (plan_node "node-b" []) plan_demand) /\
  scr_Status (ev_report (evaluate (Some (plan_inventory CapacityAwarenessAuto)) (plan_node "node-c" []) plan_demand))
    = StorageCapacityInsufficient.
Proof.
  split; [|vm_compute; reflexivity].
  apply (capacity_status_exact (plan_inventory CapacityAwarenessAuto) (plan_node "node-b" []) plan_demand). reflexivity.
Defined.


Lemma selected_node_accepted_witness :
  capacity_accepted [example_planned_volume] (Some (plan_inventory CapacityAwarenessRequire)) (plan_node "node-b" []) CapacityAwarenessRequire.
Proof.
  assert (choose CapacityAwarenessRequire plan_nodes = (Some (plan_node "node-b" []), (choose CapacityAwarenessRequire plan_nodes).2))
    as Hs by (vm_compute; reflexivity).
  apply (selected_node_accepted "" None "node-a" "" [example_planned_volume] ∅ ∅ (plan_inventory CapacityAwarenessRequire) None plan_nodes
    (plan_node "node-b" []) _ Hs) with (other := plan_node "node-a" [])
      (c := default {| tc_node := plan_node "" []; tc_distinctFromSrc := false; tc_taintPenalty := 0; tc_sourcePVMatches := 0;
                       tc_capacityKnown := 0; tc_capacityUnknown := 0; tc_capacitySurplus := 0%Z; tc_resourceUnknown := 0 |}
              (targetNodeCandidateFor "" None "node-a" "" [example_planned_volume] ∅ ∅ (Some (plan_inventory CapacityAwarenessRequire))
                 (plan_node "node-a" []))).
  - reflexivity.
  - left.
  - vm_compute. reflexivity.
  - reflexivity.
  - unfold capacity_accepted. vm_compute. repeat constructor.
Defined.
