(* ===== verification/MemExecutor.v ===== *)
(** * Whole executor runs evaluated

    A migration in phase FinalSynced is cut over and rolled back by the executor on
    the server of MemServer, with a store that keeps the saved objects: once within
    its namespace and once into another one, and then cleaned up.  The second run ends
    in an object that the executor itself refuses. *)

From S2P Require Import Prelude Utf8 GoErrors Lifecycle PhaseMachines KubeTypes Prog Api ResourceState Ownership PVBinding NodeSelection GoFormat Quota PVCPolicy Reserver TransferPath MigrationObject Offline Activation Reclaim MigrationStorage MigrationCleanup CopyEngine Exec Executor CleanupExecutor SwitcherRules ObjectValidity ExecRules ExecutorRules ExecutorSafety CleanupSafety MemServer MemCluster MemReserve.

(** ** A server with a store *)

(** The cluster and the saved objects, latest first; every service answers. *)
Definition StoreWorld (Obj : Type) : Type := Cluster * list Obj.

Definition store_server {Obj : Type} : handler (E := xreq Obj) (R := xresp) (StoreWorld Obj) :=
  fun r w =>
    match r return xresp r * StoreWorld Obj with
    | XKube r => let x := api_server r w.1 in (x.1, (x.2, w.2))
    | XSave o => (None, (w.1, o :: w.2))
    | XDetachedErr => (None, w)
    | XDeleteLock => (None, w)
    | XDeleteStored _ => (None, (w.1, []))
    | XService s =>
        match s return sresp s * StoreWorld Obj with
        | SProbe _ => (inl [], w)
        | SMapOrder => (true, w)
        | SShared _ => (inl false, w)
        | SReadUsage _ _ => (inr (EText "no usage"), w)
        | SGetServiceAccount _ _ | SCreateServiceAccount _ => (inl None, w)
        | SGetNamespace _ | SUpdateServiceAccount _ | SCopy _ | SCopyCleanup _ | SToolLogError | SSleep _
        | SDetachedTick => (None, w)
        end
    | XPanic => ((), w)
    end.

Definition World : Type := StoreWorld ClusterMigration.
Definition exec_server : handler (E := xreq ClusterMigration) (R := xresp) World := store_server.

(** ** The migration *)

Definition final_synced_status : WorkflowStatus :=
  {| ws_ExecutionIntentHash := ""; ws_ErrorCategory := None; ws_Phase := PhaseFinalSynced;
     ws_ResumeFrom := PhaseNone; ws_FailureReason := ""; ws_ObservedGeneration := 1;
     ws_StartedAt := Some 1%Z; ws_UpdatedAt := Some 2%Z; ws_CompletedAt := None; ws_Message := "";
     ws_Conditions := []; ws_History := [] |}.

Definition example_plan (destination : string) : ClusterMigrationPlan :=
  {| plan_UnusedStoragePolicy := UnusedStorageKeep; plan_SourceNamespace := "app";
     plan_TemporaryNamespace := "app"; plan_DestinationNamespace := destination; plan_SessionNamespace := "app";
     plan_Volumes := [example_volume_spec]; plan_SourceNode := ""; plan_TargetNode := ""; plan_ToolImage := "";
     plan_Strategies := []; plan_VerifyChecksum := true; plan_DeleteExtraneous := false;
     plan_SkipSourceUsageCheck := false |}.

Definition example_migration (destination : string) : ClusterMigration :=
  {| mig_Name := "mig-1"; mig_Namespace := ""; mig_DeletionTimestamp := None;
     mig_Spec := {| ms_UnusedStoragePolicy := UnusedStorageKeep;
       ms_Volumes := [{| vr_SourcePVC := vs_SourcePVC example_volume_spec; vr_SourcePV := None;
                         vr_DestinationPVC := None; vr_Capacity := ""; vr_TransferScope := None |}];
       ms_SourceNamespace := "app"; ms_DestinationNamespace := destination; ms_TemporaryNamespace := "";
       ms_SessionNamespace := "" |};
     mig_Plan := Some (example_plan destination); mig_Status := final_synced_status;
     mig_Volumes :=
       [{| mv_Reservation := {| rs_SourcePVCName := "data";
             rs_DestinationPVC := Some (PVCReference (Some temporary_claim));
             rs_DestinationPV := Some (PVReference (Some destination_volume));
             rs_DestinationPolicy := "Delete"; rs_Reserved := true |};
           mv_Sync := {| sync_FinalCompletedAt := Some 2%Z; sync_Attempts := 1; sync_BytesCopied := 42;
             sync_ChecksumVerified := true; sync_LastError := "" |};
           mv_Activation := fresh_status |}] |}.

Definition run_activate (o : ClusterMigration) (w : World) :=
  run exec_server (activate (NewSwitcher 4) false o) w [].
Definition run_rollback (o : ClusterMigration) (w : World) :=
  run exec_server (rollback (NewSwitcher 4) false o) w [].

(** The result of a run: the object, or the one before if there was none. *)
Definition object_after (o : ClusterMigration) (out : option outcome * World * xtrace) : ClusterMigration :=
  match out.1.1 with Some (o', _) => o' | None => o end.
Definition error_after (out : option outcome * World * xtrace) : option err :=
  match out.1.1 with Some (_, e) => e | None => Some (EText "no result") end.

Definition active_refs (o : ClusterMigration) : list (string * string) :=
  map (fun c => match ActivePVC (mv_Activation c) with Some r => (Namespace r, Name r) | None => ("", "") end)
    (mig_Volumes o).

Section example.
Variable destination : string.
Definition cut_over := run_activate (example_migration destination) (example_cluster, []).
Definition cut_over_object : ClusterMigration := object_after (example_migration destination) cut_over.
Definition rolled_back_run := run_rollback cut_over_object cut_over.1.2.
Definition rolled_back_object : ClusterMigration := object_after cut_over_object rolled_back_run.

(** Phase, claims in use and error after both. *)
Definition story :=
  ((ws_Phase (mig_Status cut_over_object), active_refs cut_over_object, error_after cut_over),
   (ws_Phase (mig_Status rolled_back_object), active_refs rolled_back_object, error_after rolled_back_run)).
End example.

Example same_namespace_story :
  story "app" = ((PhaseActivated, [("app", "data")], None), (PhaseRolledBack, [("app", "data")], None)).
Proof. vm_compute. reflexivity. Qed.

Example cross_namespace_story :
  story "other" = ((PhaseActivated, [("other", "data")], None), (PhaseRolledBack, [("app", "data")], None)).
Proof. vm_compute. reflexivity. Qed.

(** ** The theorems at these runs *)

Definition xrequests (f : req -> bool) (h : xtrace) : nat :=
  length (List.filter (fun e : event (@xresp ClusterMigration) => match e with Ev (XKube r) _ => f r | _ => false end) h).

Lemma migration_cutover_gated_witness :
  (xrequests is_write (cut_over "app").2, xrequests is_write (cut_over "other").2) = (8, 8) /\
  calls_ok (cutover_guard (example_migration "other")) [] (cut_over "other").2.
Proof. split; [vm_compute; reflexivity|]. apply migration_cutover_gated. Defined.

Lemma migration_rollback_gated_witness :
  xrequests is_write (rolled_back_run "other").2 = 7 /\
  calls_ok (restore_guard (cut_over_object "other")) [] (rolled_back_run "other").2.
Proof. split; [vm_compute; reflexivity|]. apply migration_rollback_gated. Defined.

(** The rollback into another namespace reported success, and the object it left is
    refused; within one namespace it is accepted. *)
Lemma cross_namespace_rollback_refused_witness :
  error_after (rolled_back_run "other") = None /\
  validateClusterMigrationObject (rolled_back_object "app") = None /\
  exists e, rollback (NewSwitcher 4) false (rolled_back_object "other") = Ret (rolled_back_object "other", Some e).
Proof.
  split; [vm_compute; reflexivity|]. split; [vm_compute; reflexivity|].
  apply (cross_namespace_rollback_refused (NewSwitcher 4) false (rolled_back_object "other") (example_plan "other"));
    [vm_compute; reflexivity|vm_compute; discriminate|vm_compute; reflexivity].
Defined.

(** ** Cleanup after the rollback *)

Definition delete_all : MigrationCleanupOptions :=
  {| UnusedStoragePolicy := UnusedStorageDelete; Finalize := true; DeleteSession := true |}.

Definition cleanup_after (destination : string) :=
  run exec_server (cleanup 4 true true (rolled_back_object destination) delete_all) (rolled_back_run destination).1.2 [].

Definition deletes_volume (r : req) : bool := match r with DeletePV _ _ _ => true | _ => false end.

(** Within one namespace the destination volume goes and the source stays; across
    namespaces the cleanup is refused before its first request. *)
Example cleanup_story :
  (error_after (cleanup_after "app"), map fst (map_to_list (volumes (cleanup_after "app").1.2.1)),
   map fst (map_to_list (claims (cleanup_after "app").1.2.1)), length (cleanup_after "app").1.2.2)
  = (None, ["pv-src"], [("app", "data")], 0) /\
  (bool_decide (is_Some (error_after (cleanup_after "other"))), length (cleanup_after "other").2) = (true, 0).
Proof. vm_compute. split; reflexivity. Qed.

