(* ===== verification/MemSync.v ===== *)
(** * A whole migration evaluated

    A planned migration is reserved, copied, cut over and completed by the executor on
    the server of MemServer, with a copy engine that fails the first copies. *)

From S2P Require Import Prelude Utf8 GoErrors Lifecycle PhaseMachines KubeTypes Prog Api ResourceState Ownership PVBinding NodeSelection GoFormat Quota PVCPolicy Reserver TransferPath MigrationObject Offline Activation Reclaim MigrationStorage MigrationCleanup CopyEngine Exec CopyRunner SourceLoss Executor CleanupExecutor MigrationSync ObjectValidity ExecRules ExecutorRules ExecutorSafety OfflineSafety CopySafety SyncSafety MemServer MemCluster MemReserve MemExecutor.

(** A world whose next copies fail. *)
Definition CopyWorld (Obj : Type) : Type := StoreWorld Obj * nat.

Definition sync_server {Obj : Type} : handler (E := xreq Obj) (R := xresp) (CopyWorld Obj) :=
  fun r w =>
    match r return xresp r * CopyWorld Obj with
    | XService (SCopy q) =>
        match w.2 with
        | O => (None, w)
        | S n => (Some (NewError ErrorCopy "copy PVC" "rsync failed"), (w.1, n))
        end
    | XService (SGetServiceAccount ns _) => (inl (Some (transfer_account ns)), w)
    | r => let x := store_server r w.1 in (x.1, (x.2, w.2))
    end.

Definition planned_plan : ClusterMigrationPlan :=
  {| plan_UnusedStoragePolicy := UnusedStorageKeep; plan_SourceNamespace := "app";
     plan_TemporaryNamespace := "app"; plan_DestinationNamespace := "app"; plan_SessionNamespace := "app";
     plan_Volumes := [example_volume_spec]; plan_SourceNode := ""; plan_TargetNode := "node-b"; plan_ToolImage := "tool:v1";
     plan_Strategies := []; plan_VerifyChecksum := true; plan_DeleteExtraneous := false;
     plan_SkipSourceUsageCheck := false |}.

Definition planned_status : WorkflowStatus :=
  {| ws_ExecutionIntentHash := ""; ws_ErrorCategory := None; ws_Phase := PhasePlanned;
     ws_ResumeFrom := PhaseNone; ws_FailureReason := ""; ws_ObservedGeneration := 1;
     ws_StartedAt := None; ws_UpdatedAt := Some 2%Z; ws_CompletedAt := None; ws_Message := "";
     ws_Conditions := []; ws_History := [] |}.

Definition planned_migration : ClusterMigration :=
  {| mig_Name := "mig-1"; mig_Namespace := ""; mig_DeletionTimestamp := None;
     mig_Spec := mig_Spec (example_migration "app"); mig_Plan := Some planned_plan; mig_Status := planned_status;
     mig_Volumes := [] |}.

Definition sync_config : MigrationExecutorConfig :=
  {| mc_Transfer := quiet_config; mc_VolumeUsageReader := false; mc_ToolImageProber := false; mc_ProbeTimeout := 0 |}.

Definition whole (failures : nat) :=
  run sync_server (run_migration (newMigrationResources sync_config) (NewSwitcher 4) (NewReserver 4) 4 4 false
                     planned_migration) (reserve_cluster, [], failures) [].

Definition saved_phases (h : xtrace) : list Phase :=
  omap (fun e : event (@xresp ClusterMigration) => match e with Ev (XSave o) _ => Some (ws_Phase (mig_Status o)) | _ => None end)
    (rev h).

Example whole_migration_story :
  (snd <$> (whole 1).1.1, saved_phases (whole 1).2) =
  (Some None,
   [PhaseReserving; PhaseReserving; PhaseReserved;
    PhaseFinalSyncing; PhaseFinalSyncing; PhaseFinalSyncing; PhaseFinalSyncing; PhaseFinalSyncing; PhaseFinalSynced;
    PhaseActivating; PhaseActivating; PhaseActivating; PhaseActivating; PhaseActivating; PhaseActivated;
    PhaseCompleted]).
Proof. vm_compute. reflexivity. Qed.

(** When every copy fails the migration stops in the sync, with the object of the last
    attempt. *)
Example failing_migration_story :
  (ws_Phase ∘ mig_Status ∘ fst <$> (whole 3).1.1, ws_ResumeFrom ∘ mig_Status ∘ fst <$> (whole 3).1.1,
   map (fun c => sync_Attempts (mv_Sync c)) ∘ mig_Volumes ∘ fst <$> (whole 3).1.1,
   length (omap copy_of (whole 3).2)) =
  (Some PhaseFailed, Some PhaseFinalSyncing, Some [2%Z], 2).
Proof. vm_compute. reflexivity. Qed.

(** The final sync of the reserved migration. *)
Definition reserve_run :=
  run sync_server (reserve (newMigrationResources sync_config) (NewReserver 4) planned_migration)
    (reserve_cluster, [], 1) [].
Definition reserved_migration : ClusterMigration :=
  match reserve_run.1.1 with Some r => r.1 | None => planned_migration end.
Definition sync_run :=
  run sync_server (finalSync (newMigrationResources sync_config) (NewSwitcher 4) 4 4 reserved_migration)
    reserve_run.1.2 [].

Lemma final_sync_gated_witness :
  validateClusterMigrationObject reserved_migration = None /\
  (snd <$> sync_run.1.1) = Some None /\ length (omap copy_of sync_run.2) = 2 /\
  calls_ok (sync_guard sync_config reserved_migration) [] sync_run.2.
Proof.
  assert (validateClusterMigrationObject reserved_migration = None) as Hv by (vm_compute; reflexivity).
  split; [exact Hv|]. split; [vm_compute; reflexivity|]. split; [vm_compute; reflexivity|].
  exact (proj1 (final_sync_gated sync_config (NewSwitcher 4) 4 4 reserved_migration sync_server reserve_run.1.2 Hv)).
Defined.
