(* ===== verification/MemStaged.v ===== *)
(** * Copies, reservations, locks and handoffs evaluated

    A planned copy is reserved, copied and cleaned up by its executor on the server of
    MemServer, a reservation is reserved, and a completed copy is aborted: its
    destination is then deleted by a cleanup under the policy Delete.  A reservation runs
    under its lock, and a completed one is turned into a copy. *)

From S2P Require Import Prelude Utf8 GoErrors Lifecycle PhaseMachines GoFormat TransferPath Prog KubeTypes Api ResourceState Ownership PVBinding NodeSelection Quota PVCPolicy Reclaim Reserver CopyEngine Exec MigrationObject Offline Activation MigrationStorage CopyRunner SourceLoss Executor MigrationCleanup CleanupExecutor MigrationSync StagedObjects Staged ReservationExecutor CopyExecutor StagedInstances StagedLaws ReservedCopy CleanupSafety StagedCleanup SessionLease WorkflowLock LockSafety CopySafety StagedRun WarmCopySafety MemServer MemCluster MemReserve MemExecutor MemSync.

Definition staged_options (policy : string) : TransferOptions :=
  {| to_UnusedStoragePolicy := policy; to_DestinationCapacity := ""; to_SourcePath := ""; to_DestinationPath := "";
     to_DestinationStorageClass := ""; to_SourceNode := ""; to_TargetNode := ""; to_CapacityAwareness := "";
     to_ToolNetworkPolicy := ""; to_Strategies := []; to_VerifyChecksum := false; to_DeleteExtraneous := None;
     to_AllowVolumeShrink := false; to_SkipSourceUsageCheck := false; to_CopyTimeout := None |}.

(** The volume of the examples, with a destination that does not exist yet. *)
Definition staged_volume : VolumeSpec :=
  {| vs_SourcePVC := vs_SourcePVC example_volume_spec; vs_SourcePV := vs_SourcePV example_volume_spec;
     vs_DestinationPVC := {| local_APIVersion := "v1"; local_Kind := "PersistentVolumeClaim"; local_Name := "data-tmp";
                             local_UID := ""; local_ResourceVersion := "" |};
     vs_SourceReclaimPolicy := vs_SourceReclaimPolicy example_volume_spec;
     vs_SourcePVCSpec := vs_SourcePVCSpec example_volume_spec;
     vs_SourcePVCMetadata := vs_SourcePVCMetadata example_volume_spec; vs_Capacity := vs_Capacity example_volume_spec;
     vs_SourceCapacity := vs_SourceCapacity example_volume_spec;
     vs_SourceUsedBytes := 0; vs_SourceUsageKnown := false; vs_StorageClass := "fast";
     vs_AccessModes := ["ReadWriteOnce"]; vs_VolumeMode := "Filesystem"; vs_ConcurrentConsumers := 0;
     vs_TransferScope := None |}.

Definition staged_volume_request : VolumeRequest :=
  {| vr_SourcePVC := vs_SourcePVC example_volume_spec; vr_SourcePV := None; vr_DestinationPVC := None;
     vr_Capacity := ""; vr_TransferScope := None |}.

Definition example_copy_plan : CopyPlan :=
  {| cyp_Volumes := [staged_volume]; cyp_SourceNode := ""; cyp_TargetNode := "node-b"; cyp_ToolImage := "tool:v1";
     cyp_Strategies := []; cyp_VerifyChecksum := false; cyp_DeleteExtraneous := true;
     cyp_UnusedStoragePolicy := UnusedStorageDelete; cyp_SkipSourceUsageCheck := false; cyp_Online := false |}.

Definition example_copy_spec : CopySpec :=
  {| cys_Options := staged_options UnusedStorageDelete; cys_Volumes := [staged_volume_request]; cys_Pod := None;
     cys_Online := false |}.

Definition planned_copy : Copy :=
  {| cy_Name := "copy-1"; cy_Namespace := "app"; cy_DeletionTimestamp := None; cy_Spec := example_copy_spec;
     cy_SourceNode := ""; cy_Plan := Some example_copy_plan; cy_Status := planned_status; cy_Volumes := [] |}.

Definition planned_cluster_copy : ClusterCopy :=
  {| cc_Name := "copy-1"; cc_Namespace := ""; cc_DeletionTimestamp := None;
     cc_Spec := {| ccs_Spec := example_copy_spec; ccs_SourceNamespace := "app"; ccs_DestinationNamespace := "app";
                   ccs_SessionNamespace := "" |};
     cc_SourceNode := "";
     cc_Plan := Some {| ccp_Plan := example_copy_plan; ccp_SourceNamespace := "app"; ccp_DestinationNamespace := "app";
                        ccp_SessionNamespace := "" |};
     cc_Status := planned_status; cc_Volumes := [] |}.

Definition copy_config : CopyExecutorConfig :=
  {| xc_Transfer := quiet_config; xc_ToolImageProber := true; xc_VolumeUsageReader := false;
     xc_SharedVolumeManager := true; xc_ProbeTimeout := 0 |}.

Section results.
Context {Obj : Type} `{SW : StagedWorkflow Obj}.

Definition left_object {A B} (o : Obj) (out : option (Obj * option err) * A * B) : Obj :=
  match out.1.1 with Some r => r.1 | None => o end.

Definition run_staged_cleanup (options : StagedCleanupOptions) (o : Obj) (w : CopyWorld Obj) :=
  run sync_server (staged_cleanup 4 true true o options) w [].

Definition saved_stages (h : xtraceOf Obj) : list Phase :=
  omap (fun e : event (@xresp Obj) => match e with Ev (XSave o) _ => Some (staged_phase o) | _ => None end) (rev h).

Definition storage_deletions (h : xtraceOf Obj) : nat :=
  length (List.filter (fun e : event (@xresp Obj) => match e with Ev (XKube r) _ => deletes_storage r | _ => false end) h).
End results.

Section runs.
Context {Obj : Type} `{CW : CopyWorkflow Obj}.

Definition run_copy (failures : nat) (o : Obj) :=
  run sync_server (copy_Run (newCopyResources copy_config) (NewReserver 4) 4 4 o) (reserve_cluster, [], failures) [].

Definition run_abort (o : Obj) (w : CopyWorld Obj) :=
  run sync_server (copy_Abort (newCopyResources copy_config) 4 o) w [].

(** The copy runs, with one failed attempt; then it is aborted, and then cleaned up. *)
Section story.
Variable o : Obj.
Definition copied_run := run_copy 1 o.
Definition copied_object : Obj := left_object o copied_run.
Definition aborted_run := run_abort copied_object copied_run.1.2.
Definition aborted_object : Obj := left_object copied_object aborted_run.
Definition cleaned_run (options : StagedCleanupOptions) := run_staged_cleanup options copied_object copied_run.1.2.
Definition discarded_run (options : StagedCleanupOptions) := run_staged_cleanup options aborted_object aborted_run.1.2.
End story.
End runs.

Definition keep_session : StagedCleanupOptions :=
  {| so_UnusedStoragePolicy := ""; so_Finalize := false; so_DeleteSession := false |}.

(** Reserved, copied in two attempts, and recorded. *)
Example copy_story :
  (snd <$> (copied_run planned_copy).1.1, saved_stages (copied_run planned_copy).2,
   length (omap copy_of (copied_run planned_copy).2)) =
  (Some None,
   [PhaseReserving; PhaseReserving; PhaseReserved; PhaseWarmCopying; PhaseWarmCopying; PhaseWarmCopying;
    PhaseWarmCopying; PhaseWarmCopying; PhaseWarmCopied], 2).
Proof. vm_compute. reflexivity. Qed.

(** A cleanup of the completed copy keeps the destination, although the policy is Delete. *)
Example completed_copy_kept :
  (snd <$> (cleaned_run planned_copy finalize_staged).1.1, storage_deletions (cleaned_run planned_copy finalize_staged).2,
   map fst (map_to_list (claims (cleaned_run planned_copy finalize_staged).1.2.1.1)))
  = (Some None, 0, [("app", "data-tmp"); ("app", "data")]).
Proof. vm_compute. reflexivity. Qed.


(** ** A reservation *)

Definition example_reservation : Reservation :=
  {| rsv_Name := "res-1"; rsv_Namespace := "app"; rsv_DeletionTimestamp := None;
     rsv_Spec := {| rvs_Options := staged_options UnusedStorageKeep; rvs_Volumes := [staged_volume_request]; rvs_Pod := None |};
     rsv_Plan := Some {| rvp_Volumes := [staged_volume]; rvp_SourceNode := ""; rvp_TargetNode := "node-b";
       rvp_ToolImage := "tool:v1"; rvp_Strategies := []; rvp_VerifyChecksum := false;
       rvp_UnusedStoragePolicy := UnusedStorageKeep; rvp_DeleteExtraneous := true; rvp_SkipSourceUsageCheck := false |};
     rsv_Status := planned_status; rsv_Volumes := [] |}.

Definition reservation_config : ReservationExecutorConfig :=
  {| rc_VolumeUsageReader := false; rc_ToolImageProber := true; rc_TrustedToolImage := ""; rc_ProbeTimeout := 0 |}.

Definition reservation_example :=
  run sync_server (reservation_Run reservation_config (NewReserver 4) example_reservation) (reserve_cluster, [], 0) [].

Example reservation_story :
  (snd <$> reservation_example.1.1, saved_stages reservation_example.2,
   map lr_Reserved (rsv_Volumes (left_object example_reservation reservation_example))) =
  (Some None, [PhaseReserving; PhaseReserving; PhaseReserved], [true]).
Proof. vm_compute. reflexivity. Qed.

(** ** The theorems at these runs *)


Lemma reservation_run_sound_witness :
  (snd <$> reservation_example.1.1) = Some None /\
  calls_ok (reservation_guard reservation_config example_reservation) [] reservation_example.2.
Proof.
  split; [vm_compute; reflexivity|].
  apply (reservation_run_sound reservation_config (NewReserver 4) example_reservation sync_server).
Defined.


(** ** A stored workflow *)

Definition reservation_meta : WorkflowMeta :=
  {| wm_Namespace := "app"; wm_Name := "res-1"; wm_UID := "uid-r"; wm_ResourceVersion := "7"; wm_Deleting := false;
     wm_Annotations := ∅ |}.

Definition stored_example : Stored Reservation := (reservation_meta, example_reservation).

(** The server of the lock: one stored object of a version, and the server of the
    operation. *)
Definition lock_server (version : string) :
    handler (E := wlreq (xreq Reservation) (Stored Reservation)) (R := wlresp (@xresp Reservation)) (CopyWorld Reservation) :=
  fun q w =>
    match q return wlresp (@xresp Reservation) q * CopyWorld Reservation with
    | LBody r => sync_server r w
    | LAcquire _ _ => (inl true, w)
    | LLoad _ _ =>
        (inl ({| wm_Namespace := "app"; wm_Name := "res-1"; wm_UID := "uid-r"; wm_ResourceVersion := version;
                 wm_Deleting := false; wm_Annotations := ∅ |}, example_reservation), w)
    | LBoundErr | LFence | LDeleteLease | LRelease | LDelete _ => (None, w)
    end.

Definition locked_reservation :=
  reservation_entry_Run false true "app" reservation_config (NewReserver 4) stored_example.

Definition locked_run (version : string) := run (lock_server version) locked_reservation (reserve_cluster, [], 0) [].

Definition lock_requests (version : string) : list (wlreq (xreq Reservation) (Stored Reservation)) :=
  omap (fun e : event (wlresp (@xresp Reservation)) =>
          match e with Ev (LBody _) _ => None | Ev q _ => Some q end) (rev (locked_run version).2).

(** The reservation of the stored version runs between its lock and its release; with
    another version stored, it does not run. *)
Example locked_reservation_runs :
  ((locked_run "7").1.1, lock_requests "7") =
  (Some None, [LAcquire "app" "res-1"; LLoad "app" "res-1"; LBoundErr; LFence; LFence; LRelease]).
Proof. vm_compute. reflexivity. Qed.

Example changed_reservation_refused :
  (CategoryOf <$> (locked_run "8").1.1, length (locked_run "8").2, lock_requests "8") =
  (Some ErrorConflict, 4, [LAcquire "app" "res-1"; LLoad "app" "res-1"; LFence; LRelease]).
Proof. vm_compute. reflexivity. Qed.

Lemma executors_run_locked_witness :
  length (locked_run "7").2 > 20 /\ (locked_run "7").1.1 = Some None /\
  lock_post "app" stored_example false (operation_done (reservation_done reservation_config example_reservation)) None
    (locked_run "7").2.
Proof.
  split; [apply Nat.ltb_lt; vm_compute; reflexivity|].
  assert ((locked_run "7").1.1 = Some None) as Hr by (vm_compute; reflexivity). split; [exact Hr|].
  destruct executors_run_locked as [_ Hreservations].
  apply (Hreservations Reservation _ _ reservation_config (NewReserver 4) false true "app" stored_example _
    (lock_server "7") (reserve_cluster, [], 0)). exact Hr.
Defined.

(** ** The handoff of a reservation *)

#[local] Instance example_library : PVMigrateLibrary := ["mount"; "clusterip"; "local"].

Definition reserved_example : Reservation := left_object example_reservation reservation_example.

(** The copy asks for its own policy and checksums. *)
Definition handoff_spec : CopySpec :=
  let spec := NamespacedCopySpecFromReservation (rsv_Spec reserved_example) in
  {| cys_Options :=
       let options := cys_Options spec in
       {| to_UnusedStoragePolicy := UnusedStorageDelete; to_DestinationCapacity := to_DestinationCapacity options;
          to_SourcePath := to_SourcePath options; to_DestinationPath := to_DestinationPath options;
          to_DestinationStorageClass := to_DestinationStorageClass options; to_SourceNode := to_SourceNode options;
          to_TargetNode := to_TargetNode options; to_CapacityAwareness := to_CapacityAwareness options;
          to_ToolNetworkPolicy := to_ToolNetworkPolicy options; to_Strategies := ["mount"]; to_VerifyChecksum := true;
          to_DeleteExtraneous := to_DeleteExtraneous options; to_AllowVolumeShrink := to_AllowVolumeShrink options;
          to_SkipSourceUsageCheck := to_SkipSourceUsageCheck options; to_CopyTimeout := to_CopyTimeout options |};
     cys_Volumes := cys_Volumes spec; cys_Pod := cys_Pod spec; cys_Online := cys_Online spec |}.

