(* ===== verification/MemIdentity.v ===== *)
(** * Renames and moves evaluated

    A claim is renamed, renamed back and given back, and another one moved to a
    different namespace and deleted, by the executors of Identity on the server of
    MemServer. *)

From S2P Require Import Prelude Utf8 GoErrors Lifecycle PhaseMachines KubeTypes Prog Api ResourceState Ownership PVBinding NodeSelection GoFormat Reserver Offline Activation Reclaim CopyEngine Exec MigrationObject Executor MigrationSync Identity RenameMove SwitcherRules RebindSafety ExecRules IdentitySafety MemServer MemCluster MemExecutor.

Definition fresh_workflow : WorkflowStatus :=
  {| ws_ExecutionIntentHash := ""; ws_ErrorCategory := None; ws_Phase := PhasePlanned;
     ws_ResumeFrom := PhaseNone; ws_FailureReason := ""; ws_ObservedGeneration := 1;
     ws_StartedAt := None; ws_UpdatedAt := Some 2%Z; ws_CompletedAt := None; ws_Message := "";
     ws_Conditions := []; ws_History := [] |}.

Definition source_template : PVCSourceTemplate :=
  {| template_Spec := pvc_Spec source_claim; template_Metadata := source_metadata; template_ReclaimPolicy := ReclaimDelete |}.

Definition named (name : string) : LocalResourceReference :=
  {| local_APIVersion := "v1"; local_Kind := KindPersistentVolumeClaim; local_Name := name; local_UID := "";
     local_ResourceVersion := "" |}.
Definition rename_source_ref : LocalResourceReference := localResourceReference (PVCReference (Some source_claim)).
Definition volume_ref : LocalResourceReference := localResourceReference (PVReference (Some source_volume)).

Definition example_rename_object : Rename :=
  {| rn_Name := "ren-1"; rn_Namespace := "app"; rn_Generation := 1; rn_DeletionTimestamp := None;
     rn_Spec := {| rns_SourcePVC := named "data"; rns_SourcePV := None; rns_DestinationPVC := named "data-new" |};
     rn_Plan := Some {| rnp_SourcePVC := rename_source_ref; rnp_SourcePV := volume_ref; rnp_DestinationPVC := named "data-new";
                        rnp_SourceTemplate := source_template |};
     rn_Status := fresh_workflow;
     rn_Activation := {| rna_ActivePVC := None; rna_ActivatedAt := None; rna_RolledBackAt := None |} |}.

Definition example_move_object : Move :=
  {| mo_Name := "mov-1"; mo_Namespace := ""; mo_Generation := 1; mo_DeletionTimestamp := None;
     mo_Spec := {| mvs_SourceNamespace := "app"; mvs_DestinationNamespace := "other"; mvs_SessionNamespace := "";
                   mvs_SourcePVC := named "data"; mvs_SourcePV := None; mvs_DestinationPVC := None |};
     mo_Plan := Some {| mvp_SourceNamespace := "app"; mvp_DestinationNamespace := "other"; mvp_SessionNamespace := "ops";
                        mvp_Identity := {| mvi_SourcePVC := rename_source_ref; mvi_SourcePV := volume_ref;
                                           mvi_DestinationPVC := named "data"; mvi_SourceTemplate := source_template |} |};
     mo_Status := fresh_workflow;
     mo_Activation := {| mva_ActivePVC := None; mva_ActivatedAt := None; mva_RolledBackAt := None |} |}.

Section runs.
Context {Obj : Type} `{IW : IdentityWorkflow Obj}.
Definition id_after (o : Obj) (out : option (Obj * option err) * StoreWorld Obj * xtraceOf Obj) : Obj :=
  match out.1.1 with Some (o', _) => o' | None => o end.
Definition id_error (out : option (Obj * option err) * StoreWorld Obj * xtraceOf Obj) : option err :=
  match out.1.1 with Some (_, e) => e | None => Some (EText "no result") end.
Definition run_identity (o : Obj) (w : StoreWorld Obj) := run store_server (identity_Run (NewSwitcher 4) o) w [].
Definition run_identity_back (o : Obj) (w : StoreWorld Obj) := run store_server (identity_rollback (NewSwitcher 4) o) w [].
Definition run_release (o : Obj) (w : StoreWorld Obj) := run store_server (identity_cleanup true o finalize_identity) w [].

Definition forth (o : Obj) := run_identity o (example_cluster, []).
Definition forth_object (o : Obj) : Obj := id_after o (forth o).
Definition back (o : Obj) := run_identity_back (forth_object o) (forth o).1.2.
Definition back_object (o : Obj) : Obj := id_after (forth_object o) (back o).
Definition release_run (o : Obj) := run_release (back_object o) (back o).1.2.

Definition kept_claims (w : StoreWorld Obj) : list (string * string * string) :=
  map (fun x => (x.1.1, x.1.2, pvc_VolumeName x.2)) (map_to_list (claims w.1)).
End runs.

(** Renamed, renamed back, and given back: the claim has its own metadata again and the
    volume neither marks nor another policy. *)
Example rename_story :
  (id_error (forth example_rename_object), phase_of (forth_object example_rename_object),
   kept_claims (forth example_rename_object).1.2) =
  (None, PhaseCompleted, [("app", "data-new", "pv-src"); ("app", "data-tmp", "pv-dst")]) /\
  (id_error (back example_rename_object), phase_of (back_object example_rename_object),
   kept_claims (back example_rename_object).1.2) =
  (None, PhaseRolledBack, [("app", "data-tmp", "pv-dst"); ("app", "data", "pv-src")]).
Proof. split; vm_compute; reflexivity. Qed.

Example rename_released :
  (id_error (release_run example_rename_object), (release_run example_rename_object).1.2.2,
   (fun p => (pvc_Labels p, pvc_Annotations p)) <$> claims (release_run example_rename_object).1.2.1 !! ("app", "data"),
   (fun v => (pv_Labels v, pv_Annotations v, pv_ReclaimPolicy v)) <$> volumes (release_run example_rename_object).1.2.1 !! "pv-src") =
  (None, [], Some (meta_Labels source_metadata, meta_Annotations source_metadata), Some (∅, ∅, ReclaimDelete)).
Proof. vm_compute. reflexivity. Qed.

#[local] Instance move_ops : IdentityWorkflow Move := move_identity "ops".

Example move_story :
  (id_error (forth example_move_object), kept_claims (forth example_move_object).1.2,
   id_error (release_run example_move_object), kept_claims (release_run example_move_object).1.2) =
  (None, [("other", "data", "pv-src"); ("app", "data-tmp", "pv-dst")],
   None, [("app", "data-tmp", "pv-dst"); ("app", "data", "pv-src")]).
Proof. vm_compute. reflexivity. Qed.

Definition kube_writes {Obj : Type} (h : xtraceOf Obj) : nat :=
  length (List.filter (fun e : event (@xresp Obj) => match e with Ev (XKube r) _ => is_write r | _ => false end) h).

