(* ===== verification/MemOrphan.v ===== *)
(** * Recoveries evaluated

    A session whose record is lost is recovered on the server of MemServer: after a
    cutover by the switcher, and after a reservation.  Two runs show where the recovery
    gets stuck. *)

From S2P Require Import Prelude Utf8 GoErrors Lifecycle KubeTypes Prog Api ResourceState Ownership PVBinding Offline Activation Reclaim WorkflowStore WorkflowOwners OrphanCleanup OwnerSafety OrphanSafety MemServer MemCluster MemReserve.

(** ** A server with selectors, records and a Lease *)

Definition equals_sign : Ascii.ascii := Ascii.ascii_of_nat 61.
Definition comma : Ascii.ascii := Ascii.ascii_of_nat 44.

Fixpoint split_at_char (c : Ascii.ascii) (s cur : list Ascii.ascii) : list (list Ascii.ascii) :=
  match s with
  | [] => [cur]
  | a :: s => if Ascii.eqb a c then cur :: split_at_char c s [] else split_at_char c s (cur ++ [a])
  end.

Definition selects (selector : string) (labels : gmap string string) : bool :=
  if selector =s "" then true else
  forallb (fun part => match split_at_char equals_sign part [] with
                       | [k; v] => mget labels (of_bytes k) =s of_bytes v
                       | _ => false
                       end) (split_at_char comma (bytes selector) []).

Record OWorld := {
  ow_cluster : Cluster;
  ow_records : gmap string WorkflowSummary;   (* session records, by namespace *)
  ow_lease : bool;
  ow_faults : nat                             (* deletions of the Lease that fail *)
}.

Definition with_cluster (w : OWorld) (c : Cluster) : OWorld :=
  {| ow_cluster := c; ow_records := ow_records w; ow_lease := ow_lease w; ow_faults := ow_faults w |}.
Definition with_records (w : OWorld) (r : gmap string WorkflowSummary) : OWorld :=
  {| ow_cluster := ow_cluster w; ow_records := r; ow_lease := ow_lease w; ow_faults := ow_faults w |}.
Definition with_lease (w : OWorld) (l : bool) (faults : nat) : OWorld :=
  {| ow_cluster := ow_cluster w; ow_records := ow_records w; ow_lease := l; ow_faults := faults |}.

Definition orphan_server : handler (E := oreq) (R := oresp) OWorld :=
  fun r w =>
    match r return oresp r * OWorld with
    | OKube q => let a := api_server q (ow_cluster w) in (a.1, with_cluster w a.2)
    | OListPVs s => (inl (List.filter (fun v => selects s (pv_Labels v)) (map_to_list (volumes (ow_cluster w))).*2), w)
    | OListPVCs _ s => (inl (List.filter (fun c => selects s (pvc_Labels c)) (map_to_list (claims (ow_cluster w))).*2), w)
    | OListPods _ s => (inl (List.filter (fun p => selects s (pod_Labels p)) (pods (ow_cluster w))), w)
    | OGetWorkflow _ _ _ => (inr (not_found "workflow"), w)
    | OGetTyped _ _ _ => (Some (not_found "workflow"), w)
    | OLoadRecord ns _ => (match ow_records w !! ns with Some s => inl s | None => inr (not_found "record") end, w)
    | OGetConfigMap ns _ => (match ow_records w !! ns with Some _ => None | None => Some (not_found "record") end, w)
    | ODeleteConfigMap ns _ => (None, with_records w (delete ns (ow_records w)))
    | OAcquireLease _ _ => (None, with_lease w true (ow_faults w))
    | OReleaseLease => (None, w)
    | ODeleteLease =>
        match ow_faults w with
        | O => (None, with_lease w false 0)
        | S n => (Some (EText "the server is unavailable"), with_lease w true n)
        end
    | OPanic => (tt, w)
    end.

#[local] Instance any_name : LabelGrammar := fun _ => [].

Definition lost : OrphanCleanupOptions :=
  {| oo_SessionID := "mig-1"; oo_SessionNamespace := "sessions"; oo_SourceNamespace := "app"; oo_SourcePVC := "data" |}.

Definition world (c : Cluster) (records : gmap string WorkflowSummary) (faults : nat) : OWorld :=
  {| ow_cluster := c; ow_records := records; ow_lease := false; ow_faults := faults |}.

(** ** Stories *)

(** The claims and volumes that still carry the session, the volumes that are left with
    their deletion policy, and the Lease. *)
Definition leftovers (w : OWorld) : list string * list (string * string * string) * bool :=
  (List.map pvc_Name (List.filter (claim_of_session "mig-1") (map_to_list (claims (ow_cluster w))).*2),
   List.map (fun v => (pv_Name v, mget (pv_Labels v) SessionKey, live_policy v)) (map_to_list (volumes (ow_cluster w))).*2,
   ow_lease w).

Definition lost_run (w : OWorld) := run orphan_server (CleanupOrphan 3 lost) w [].

Definition reported (w : OWorld) : option (option (bool * list string) * option string) :=
  match (lost_run w).1.1 with
  | Some (p, e) => Some ((fun p => (op_Ready p, List.map check_Name (op_Checks p))) <$> p, error_text <$> e)
  | None => None
  end.

(** After a cutover the volume kept for a rollback is deleted, and the claim and its
    volume lose the session's marks. *)
Example recovers_after_cutover :
  reported (world activated_cluster ∅ 0) =
    Some (Some (true, ["session-record"; "rollback-pv"; "resources"]), None) /\
  leftovers (lost_run (world activated_cluster ∅ 0)).1.2 = ([], [("pv-dst", "", "Delete")], false).
Proof. vm_compute. split; reflexivity. Qed.

(** Before the cutover the destination claim and its volume are deleted. *)
Example recovers_before_cutover :
  reported (world example_reservation.1.2 ∅ 0) =
    Some (Some (true, ["session-record"; "source-ownership"; "resources"]), None) /\
  leftovers (lost_run (world example_reservation.1.2 ∅ 0)).1.2 = ([], [("pv-src", "", "Delete")], false).
Proof. vm_compute. split; reflexivity. Qed.

(** *** A recovery that failed to delete the Lease is not resumed

    The marks of the session went with the first attempt, and the second one asks for
    them: its plan has a failed check, and the Lease stays. *)
Example recovery_does_not_resume :
  let first := (lost_run (world activated_cluster ∅ 1)).1.2 in
  reported (world activated_cluster ∅ 1) =
    Some (Some (true, ["session-record"; "rollback-pv"; "resources"]), Some "the server is unavailable") /\
  reported first =
    Some (Some (false, ["session-record"; "current-ownership"]),
          Some "cleanup orphan: orphan cleanup plan contains failed checks") /\
  leftovers (lost_run first).1.2 = ([], [("pv-dst", "", "Delete")], true).
Proof. vm_compute. split_and!; reflexivity. Qed.

(** *** A stale record in the session namespace is planned for, and never deleted *)

Definition stale : WorkflowSummary :=
  {| sum_Kind := "StorageMigration"; sum_phase := "Completed"; sum_resumeFrom := ""; sum_sessionNamespace := "sessions" |}.

Definition stale_world : OWorld := world activated_cluster {["sessions" := stale]} 0.

Example stale_record_planned :
  op_Ready <$> (run orphan_server (PlanOrphanCleanup lost) stale_world []).1.1 = Some true.
Proof. vm_compute. reflexivity. Qed.

Example stale_record_kept :
  (exists e, (lost_run stale_world).1.1 = Some (None, Some e)) /\
  ow_records (lost_run stale_world).1.2 = ow_records stale_world.
Proof. split; [apply (record_blocks_cleanup 3 lost orphan_server stale_world); vm_compute; done|vm_compute; reflexivity]. Qed.

(** In the source namespace it is deleted. *)
Example stale_record_elsewhere :
  reported (world activated_cluster {["app" := stale]} 0) =
    Some (Some (true, ["session-record"; "rollback-pv"; "resources"]), None) /\
  ow_records (lost_run (world activated_cluster {["app" := stale]} 0)).1.2 = ∅.
Proof. vm_compute. split; reflexivity. Qed.

(** ** Names *)

Definition name_check (records : gmap string WorkflowSummary) :=
  run orphan_server (CheckWorkflowIdentityCollision [] "mig-1" "Migration" ["sessions"] true)
    (world activated_cluster records 0) [].

Example name_taken : error_text <$> default None (name_check {["sessions" := stale]}).1.1 <> None.
Proof. by vm_compute. Qed.

Lemma name_check_exact_witness :
  (name_check ∅).1.1 = Some None /\ name_free [] "mig-1" "Migration" ["sessions"] true (name_check ∅).2.
Proof.
  assert ((name_check ∅).1.1 = Some None) as He by (vm_compute; reflexivity).
  split; [exact He|].
  refine (proj1 (proj2 (name_check_exact [] "mig-1" "Migration" ["sessions"] true orphan_server
    (world activated_cluster ∅ 0) None _ _ _ _) He) eq_refl); [done|done|done|].
  intros H. apply list_elem_of_singleton in H. discriminate H.
Defined.
