(* ===== verification/MemStore.v ===== *)
(** * A small in-memory server for workflow objects

    ConfigMaps and custom resources with optimistic concurrency; the next [races]
    updates of a custom resource lose against another writer.  It meets the laws that
    [StoreRefinement] assumes of the API, so the theorems of that file apply to it,
    and lets the store operations be evaluated; no theorem depends on it. *)

From S2P Require Import Prelude GoErrors Lifecycle KubeTypes Prog MemServer WorkflowStore StoreRefinement.
From Stdlib Require Import Ascii.

Notation MemWorkflow := (Workflow string string).

#[global] Instance MemWorkflow_eq_dec : EqDecision MemWorkflow.
Proof. solve_decision. Defined.

(** ** A line-based codec *)

Definition newline : ascii := "010"%char.

Fixpoint lines_of (s : string) (line : string) : list string :=
  match s with
  | EmptyString => [line]
  | String c rest => if Ascii.eqb c newline then line :: lines_of rest "" else lines_of rest (line +:+ String c "")
  end.

Definition render (w : MemWorkflow) : string :=
  String.concat (String newline "")
    [gvk_Group (wf_GVK w); gvk_Version (wf_GVK w); gvk_Kind (wf_GVK w); wf_Namespace w; wf_Name w; wf_UID w;
     wf_ResourceVersion w; wf_Spec w; wf_Status w].

Definition parse (s : string) : result (MemWorkflow * bool) :=
  match lines_of s "" with
  | [g; v; k; ns; n; uid; rv; spec; status] =>
      inl ({| wf_GVK := {| gvk_Group := g; gvk_Version := v; gvk_Kind := k |}; wf_Namespace := ns; wf_Name := n;
              wf_UID := uid; wf_ResourceVersion := rv; wf_CreationTimestamp := 0%Z;
              wf_DeletionTimestamp := None; wf_Finalizers := []; wf_Labels := ∅; wf_Annotations := ∅;
              wf_Spec := spec; wf_Status := status |}, false)
  | _ => inr (EText "unexpected number of lines")
  end.

(** Values that the lines do not carry are refused. *)
Definition marshal (w : MemWorkflow) : result string :=
  match parse (render w) with
  | inl (w', false) => if bool_decide (w' = w) then inl (render w) else inr (EText "unsupported value")
  | _ => inr (EText "unsupported value")
  end.

Definition parse_header (s : string) : result GroupVersionKind :=
  match parse s with inl (w, _) => inl (wf_GVK w) | inr e => inr e end.

Lemma marshal_parse w s : marshal w = inl s -> parse s = inl (w, false).
Proof.
  unfold marshal. destruct (parse (render w)) as [[w' [|]]|] eqn:Hp; try done.
  case_bool_decide; [|done]. intros [= <-]. congruence.
Qed.

#[global] Instance line_codec : WorkflowCodec string string :=
  {| Marshal := marshal; Decode := parse; DecodeHeader := parse_header; codec_roundtrip := marshal_parse |}.

(** ** State and requests *)

Record Store := {
  cmaps : gmap (string * string) ConfigMap;
  customs : gmap (string * string) MemWorkflow;
  races : nat
}.

Definition fresh_version (rv : string) : string := "+" +:+ rv.

Lemma fresh_version_ne rv : fresh_version rv <> rv.
Proof. intros Heq. apply (f_equal String.length) in Heq. change (S (String.length rv) = String.length rv) in Heq. lia. Qed.

Definition cm_stored (old c : ConfigMap) : ConfigMap :=
  {| cm_Namespace := cm_Namespace c; cm_Name := cm_Name c; cm_UID := cm_UID old;
     cm_ResourceVersion := fresh_version (cm_ResourceVersion old);
     cm_CreationTimestamp := cm_CreationTimestamp old; cm_DeletionTimestamp := cm_DeletionTimestamp old;
     cm_Labels := cm_Labels c; cm_Finalizers := cm_Finalizers c; cm_Data := cm_Data c |}.

Definition cr_stored (old : MemWorkflow) (finalizers : list string) (labels annotations : gmap string string)
    (spec status : string) : MemWorkflow :=
  {| wf_GVK := wf_GVK old; wf_Namespace := wf_Namespace old; wf_Name := wf_Name old; wf_UID := wf_UID old;
     wf_ResourceVersion := fresh_version (wf_ResourceVersion old);
     wf_CreationTimestamp := wf_CreationTimestamp old; wf_DeletionTimestamp := wf_DeletionTimestamp old;
     wf_Finalizers := finalizers; wf_Labels := labels; wf_Annotations := annotations; wf_Spec := spec;
     wf_Status := status |}.

(** Another writer's update: a new version of the same content. *)
Definition touched (old : MemWorkflow) : MemWorkflow :=
  cr_stored old (wf_Finalizers old) (wf_Labels old) (wf_Annotations old) (wf_Spec old) (wf_Status old).

Definition put_cm (w : Store) (c : ConfigMap) : Store :=
  {| cmaps := <[(cm_Namespace c, cm_Name c) := c]> (cmaps w); customs := customs w; races := races w |}.
Definition put_cr (w : Store) (k : string * string) (o : MemWorkflow) (n : nat) : Store :=
  {| cmaps := cmaps w; customs := <[k := o]> (customs w); races := n |}.
Definition drop_cr (w : Store) (k : string * string) : Store :=
  {| cmaps := cmaps w; customs := delete k (customs w); races := races w |}.

Definition update_cm (c : ConfigMap) (w : Store) : result ConfigMap * Store :=
  match cmaps w !! (cm_Namespace c, cm_Name c) with
  | None => (inr (not_found "ConfigMap"), w)
  | Some old =>
      if cm_ResourceVersion old =s cm_ResourceVersion c
      then (inl (cm_stored old c), put_cm w (cm_stored old c)) else (inr (conflict "ConfigMap"), w)
  end.

Definition update_status (o : MemWorkflow) (w : Store) : result MemWorkflow * Store :=
  let k := (wf_Namespace o, wf_Name o) in
  match customs w !! k with
  | None => (inr (not_found "workflow"), w)
  | Some old =>
      let new := cr_stored old (wf_Finalizers old) (wf_Labels old) (wf_Annotations old) (wf_Spec old)
                   (wf_Status o) in
      if wf_ResourceVersion old =s wf_ResourceVersion o then (inl new, put_cr w k new (races w))
      else (inr (conflict "workflow"), w)
  end.

(** An object being deleted goes when its last finalizer does. *)
Definition update_cr (o : MemWorkflow) (w : Store) : result MemWorkflow * Store :=
  let k := (wf_Namespace o, wf_Name o) in
  match customs w !! k, races w with
  | None, _ => (inr (not_found "workflow"), w)
  | Some old, S n => (inr (conflict "workflow"), put_cr w k (touched old) n)
  | Some old, O =>
      let new := cr_stored old (wf_Finalizers o) (wf_Labels o) (wf_Annotations o) (wf_Spec o) (wf_Status old) in
      if wf_ResourceVersion old =s wf_ResourceVersion o then
        (inl new, match wf_DeletionTimestamp old, wf_Finalizers o with
                  | Some _, [] => drop_cr w k
                  | _, _ => put_cr w k new 0
                  end)
      else (inr (conflict "workflow"), w)
  end.

Definition serve_store (r : wreq string string) : Store -> wresp r * Store :=
  match r with
  | WCtxErr | WFenceErr => fun w => (None, w)
  | GetConfigMap ns n => fun w =>
      (match cmaps w !! (ns, n) with Some c => inl c | None => inr (not_found "ConfigMap") end, w)
  | CreateConfigMap c => fun w =>
      match cmaps w !! (cm_Namespace c, cm_Name c) with
      | Some _ => (inr (EStatus ReasonAlreadyExists "ConfigMap exists"), w)
      | None => let c := with_data c (mget (cm_Data c) SessionDataKey) in
                let c := {| cm_Namespace := cm_Namespace c; cm_Name := cm_Name c; cm_UID := "uid-" +:+ cm_Name c;
                            cm_ResourceVersion := "1"; cm_CreationTimestamp := 1%Z; cm_DeletionTimestamp := None;
                            cm_Labels := cm_Labels c; cm_Finalizers := cm_Finalizers c; cm_Data := cm_Data c |} in
                (inl c, put_cm w c)
      end
  | UpdateConfigMap c => update_cm c
  | DeleteConfigMap ns n uid rv => fun w =>
      (None, {| cmaps := delete (ns, n) (cmaps w); customs := customs w; races := races w |})
  | ListConfigMaps ns _ => fun w =>
      (inl (List.filter (fun c => cm_Namespace c =s ns) (map snd (map_to_list (cmaps w)))), w)
  | GetWorkflow ns n => fun w =>
      (match customs w !! (ns, n) with Some o => inl o | None => inr (not_found "workflow") end, w)
  | CreateWorkflow o => fun w =>
      match customs w !! (wf_Namespace o, wf_Name o) with
      | Some _ => (inr (EStatus ReasonAlreadyExists "workflow exists"), w)
      | None => let o := with_version o ("uid-" +:+ wf_Name o) "1" 1%Z in
                (inl o, put_cr w (wf_Namespace o, wf_Name o) o (races w))
      end
  | UpdateWorkflow o => update_cr o
  | UpdateWorkflowStatus o => update_status o
  | DeleteWorkflow ns n uid rv => fun w => (None, drop_cr w (ns, n))
  | ListWorkflows ns => fun w =>
      (inl (List.filter (fun o => wf_Namespace o =s ns) (map snd (map_to_list (customs w)))), w)
  end.

(** ** The laws hold *)

Lemma mem_update_cm w c :
  match (update_cm c w).1 with
  | inl c' => exists old, cmaps w !! (cm_Namespace c, cm_Name c) = Some old /\ c' = cm_stored old c /\
      cm_ResourceVersion old = cm_ResourceVersion c /\ (update_cm c w).2 = put_cm w c'
  | inr _ => (update_cm c w).2 = w
  end.
Proof.
  unfold update_cm. destruct (cmaps w !! _) as [old|]; [|done].
  destruct (String.eqb_spec (cm_ResourceVersion old) (cm_ResourceVersion c)); [|done]. by exists old.
Qed.

Lemma mem_update_status w o :
  match (update_status o w).1 with
  | inl o' => exists old, customs w !! (wf_Namespace o, wf_Name o) = Some old /\
      wf_ResourceVersion old = wf_ResourceVersion o /\ wf_ResourceVersion o' = fresh_version (wf_ResourceVersion o) /\
      wf_UID o' = wf_UID old /\ wf_Spec o' = wf_Spec old /\ wf_Status o' = wf_Status o /\
      (update_status o w).2 = put_cr w (wf_Namespace o, wf_Name o) o' (races w)
  | inr _ => (update_status o w).2 = w
  end.
Proof.
  unfold update_status. destruct (customs w !! _) as [old|]; [|done].
  destruct (String.eqb_spec (wf_ResourceVersion old) (wf_ResourceVersion o)) as [Hv|]; [|done].
  exists old. cbn. by rewrite Hv.
Qed.

Lemma mem_api_laws : api_laws serve_store cmaps customs eq.
Proof.
  constructor; try (intros; cbn; congruence).
  - intros w ns n. cbn. split; [done|]. by destruct (cmaps w !! _).
  - intros w ns n. cbn. split; [done|]. by destruct (customs w !! _).
  - intros w c. cbn. pose proof (mem_update_cm w c) as Hm. destruct (update_cm c w) as [[c'|e] w']; cbn in *; [|by left].
    destruct Hm as (old & Hold & -> & Hv & ->). exists w, old. split_and!; try done.
    cbn. rewrite Hv. apply fresh_version_ne.
  - intros w o. cbn. pose proof (mem_update_status w o) as Hm.
    destruct (update_status o w) as [[o'|e] w']; cbn in *; [|by left].
    destruct Hm as (old & Hold & Hv & Hv' & Hu & Hs & Hst & ->). exists w, old. split_and!; try done.
    rewrite Hv'. apply fresh_version_ne.
Qed.

Lemma mem_contended : contended serve_store customs races.
Proof.
  constructor; try done.
  - intros w ns n c Hc. cbn. by rewrite Hc.
  - intros w o c Hc Hb. cbn. unfold update_cr. rewrite Hc. destruct (races w) as [|n]; [lia|].
    eexists _, _, (touched c). split_and!; try done. cbn. by rewrite lookup_insert_eq.
  - intros w o c Hc Hb Hv. cbn. unfold update_cr. rewrite Hc, Hb, Hv, String.eqb_refl.
    eexists _, _. split_and!; try done.
    destruct (wf_DeletionTimestamp c), (wf_Finalizers o); cbn; rewrite ?lookup_insert_eq, ?lookup_delete_eq; auto.
Qed.

(** ** Runs *)

Definition migration_kind : GroupVersionKind :=
  {| gvk_Group := "migrate.sealos.io"; gvk_Version := "v1alpha1"; gvk_Kind := "PVCMigration" |}.

Definition new_workflow (status : string) : MemWorkflow :=
  {| wf_GVK := migration_kind; wf_Namespace := "app"; wf_Name := "job"; wf_UID := ""; wf_ResourceVersion := "";
     wf_CreationTimestamp := 0%Z; wf_DeletionTimestamp := None; wf_Finalizers := []; wf_Labels := ∅;
     wf_Annotations := ∅; wf_Spec := "spec"; wf_Status := status |}.

Definition empty_store : Store := {| cmaps := ∅; customs := ∅; races := 0 |}.

Definition with_status (w : MemWorkflow) (status : string) : MemWorkflow :=
  {| wf_GVK := wf_GVK w; wf_Namespace := wf_Namespace w; wf_Name := wf_Name w; wf_UID := wf_UID w;
     wf_ResourceVersion := wf_ResourceVersion w; wf_CreationTimestamp := 0%Z;
     wf_DeletionTimestamp := wf_DeletionTimestamp w; wf_Finalizers := wf_Finalizers w;
     wf_Labels := wf_Labels w; wf_Annotations := wf_Annotations w; wf_Spec := wf_Spec w; wf_Status := status |}.

(** The CLI's sequence: create, load, save, and save again at the stale version. *)
Definition save_twice (s : StoreOps string string)
    : prog (wreq string string) wresp (option (option err * option err * option string)) :=
  c ← st_Create s (new_workflow "planned");
  l ← st_Load s "app" "job";
  match l with
  | inr _ => Ret None
  | inl object =>
      a ← st_Save s (with_status object "copying");
      b ← st_Save s (with_status object "done");
      l ← st_Load s "app" "job";
      Ret (Some (a.2, b.2, match l with inl o => Some (wf_Status o) | inr _ => None end))
  end.

(** In either store the second save is refused as stale and the first one stands. *)
Example stale_save_refused :
  (run serve_store (save_twice (configmap_store "ops" migration_kind)) empty_store []).1.1 =
    Some (Some (None, Some stale_load, Some "copying")) /\
  (run serve_store (save_twice (crd_store migration_kind)) empty_store []).1.1 =
    Some (Some (None, Some stale_load, Some "copying")).
Proof. vm_compute. split; reflexivity. Qed.

(** A pass that saves at a stale version is rerun on the reloaded object. *)
Definition stale_object : MemWorkflow := with_version (new_workflow "copying") "uid-job" "0" 0%Z.

Example retry_reloads :
  let s := crd_store migration_kind in
  (run serve_store
     (c ← st_Create s (new_workflow "planned");
      e ← RetryStaleWorkflowWrite s stale_object (fun o => st_Save s (with_status o "done"));
      l ← st_Load s "app" "job";
      Ret (e, match l with inl o => Some (wf_Status o) | inr _ => None end)) empty_store []).1.1 =
  Some (None, Some "done").
Proof. vm_compute. reflexivity. Qed.

(** ** Witnesses *)

Definition stored_workflow : MemWorkflow := with_version (new_workflow "planned") "uid-job" "7" 0%Z.
Definition one_workflow : Store :=
  {| cmaps := ∅; customs := {[("app", "job") := stored_workflow]}; races := 0 |}.


Definition deleting_workflow : MemWorkflow :=
  {| wf_GVK := migration_kind; wf_Namespace := "app"; wf_Name := "job"; wf_UID := "uid-job";
     wf_ResourceVersion := "9"; wf_CreationTimestamp := 0%Z; wf_DeletionTimestamp := Some 5%Z;
     wf_Finalizers := [LegacySessionFinalizer; "other/keep"; SessionFinalizer]; wf_Labels := ∅;
     wf_Annotations := ∅; wf_Spec := "spec"; wf_Status := "done" |}.
Definition racing_store : Store :=
  {| cmaps := ∅; customs := {[("app", "job") := deleting_workflow]}; races := 4 |}.

(** Four lost races and a stale version (7, the server has 9). *)
Lemma deletion_converges_witness :
  exists object' w' h',
    run serve_store (crd_Delete migration_kind stored_workflow) racing_store [] = (Some (object', None), w', h') /\
    unprotected (customs w' !! ("app", "job")).
Proof.
  apply (deletion_converges serve_store customs races mem_contended migration_kind stored_workflow racing_store []
    deleting_workflow); vm_compute; try done; by eexists.
Defined.

(** With a fifth race the deletion asks for a retry. *)
Example fifth_race_asks_for_retry :
  match (run serve_store (crd_Delete migration_kind stored_workflow)
    {| cmaps := ∅; customs := customs racing_store; races := 5 |} []).1.1 with
  | Some (_, e) => Some (CategoryOf e)
  | _ => None
  end = Some ErrorConflict.
Proof. vm_compute. reflexivity. Qed.
